(* ===== verification/_CoqProject ===== *)
-Q . S2P
Prelude.v
AddressSpace.v
SampleHost.v
Flags.v
Stubs.v
Callbacks.v
Memory.v
Machine.v
Decode.v
Syscall.v
Native.v
Float.v
Sse.v
Step.v
CpuApi.v
Access.v
Keeps.v
Safety.v
Registers.v
Instructions.v
Termination.v
Calls.v
Run.v
BlockCheck.v
Encoding.v
Lanes.v
Startup.v
A64.v
Emit.v
Jit.v
JitEmit.v
JitInsn.v
JitCache.v
JitRun.v
JitFlags.v
JitRegs.v
JitLive.v
JitBlock.v
JitCompile.v
JitAgree.v
JitArena.v
JitCode.v
JitRel.v
JitSem.v
JitMem.v
JitWorld.v
JitAccess.v
JitRoutines.v
JitOps.v
JitDoes.v
JitRmw.v
JitShift.v
JitWhole.v
JitDecode.v
JitReads.v
JitSame.v
JitAccept.v
JitEnds.v
JitReturn.v
JitExit.v
JitInterp.v
JitSample.v
JitShown.v
Image.v
Resolve.v
Fixups.v
Chains.v
ImageLoad.v
ImageSafe.v
Symbols.v
Objc.v
Selectors.v
Main.v
Fuel.v
Launch.v
Answers.v
