(* ===== verification/Prelude.v ===== *)
(** * Verification of rashid

    rashid ([src/], written in C) runs x86-64 macOS programs on an arm64 Mac.
    It loads an image, binds its imports to native functions, and interprets
    the guest's instructions; a compiler ([src/jit.c]) takes over hot blocks,
    and can be checked, block by block, against the interpreter.  This library
    models the command from its options to its exit status: loading and fixing
    up an image, the address space, the interpreter with everything it calls,
    the compiler and the check; and proves them correct.  It is a shallow
    embedding: each C function is a definition of the same name that can be
    evaluated.

    ** The program and the files that model it

    - [src/as.c], [src/as.h], the guest address space: [AddressSpace] ([rsd_as],
      [rsd_as_map], [rsd_as_protect], [rsd_as_unmap], [rsd_as_ok] ...).
      Guest and host addresses coincide ([rsd_g2h] is the identity).
    - [src/cpu.h], the cpu: [Machine] ([rsd_cpu], field [f] as [c_f]; the write
      log [rsd_wlog]).  A [machine] is the cpu with all that its functions
      reach: the address space, the host world (kernel state and memory, a
      [gmap] from address to byte), the callback pool and the class map.
    - [src/cpu.c], in the order of the file: guest memory access in [Machine];
      flags and conditions in [Flags]; registers, operands and the decoder in
      [Decode]; [do_syscall] in [Syscall]; [call_native] and the variadic
      marshalling in [Native]; floating point in [Float]; [sse_exec] in [Sse];
      the switch of [step] and [rsd_guest_call] in [Step]; [rsd_cpu_init],
      [run_block] and [rsd_cpu_run] in [CpuApi].
    - [src/stubs.h] and the tables of [src/thunk.c] and [src/objc.c]: [Stubs].
    - [src/callback.c], the trampoline pool: [Callbacks].
    - [src/macho.h], [src/macho.c], the image and its loading: [Image]
      ([rsd_image], field [f] as [im_f]; [rsd_load], whose loops are
      [load_commands], [read_sects], [copy_segs] and [protect_segs]).
    - [src/thunk.c], the resolution of imports: [Resolve] ([addr_is_code],
      [rsd_resolve_imports]).  [src/fixups.c]: [Fixups] ([parse_imports],
      [walk_chain], [rsd_fixups], [rsd_stubs_of]).  [src/objc.c], selectors and
      classes: [Objc] ([rsd_objc_prepare], [register_class]).
    - [src/main.c]: [Main] ([parse_options], [rsd_main]).
    - [src/emit.h], the AArch64 encoders: [Emit].
    - [src/jit.c], [src/jit.h], the block compiler: the decoder of the
      compilable subset and the backward pass over flags in [Jit]; the buffer,
      operands, flags and memory accesses in [JitEmit]; [put_sse] and [put_insn]
      in [JitInsn]; the arena, the cache and [rsd_jit_lookup] in [JitCache].
    - [A64] is not code of the repository: it is the part of the AArch64 manual
      that [emit.h] relies on, a decoder of words and a machine that executes
      them, against which emitted code is judged.

    [cpu.c]'s one [switch] is cut at its cases: [op_...] is a case or a group of
    cases, [exec_op] and [exec_0f] select among them, [exec_insn] is the decoding
    and execution of one instruction, [step] adds the sentinel addresses and
    the imports.  The C global [g_cpu] is the machine being run.

    The functions of [jit.c] that emit code are written in the monad [E] of
    [JitEmit], which threads the C structure [buf].  The rest of the
    C code is written in the monad [M] of [Machine]: a run returns with the
    machine it leaves ([Ok]) or is cut off ([Trap]) by a fault of the host MMU,
    by behaviour C leaves undefined, or by the fuel of a guest loop.  A fault
    the program detects itself is not a trap: it is the fault fields of
    the cpu, as in the code.  Machine integers are [Z] kept in range by [u8],
    [u32], [u64], [s32] and [s64] of this file, at the places where C converts.

    ** Interfaces

    What is not C under [src/] is a type class: [HostOS] (the kernel's mmap,
    munmap, read, write, close and the allocator; [HostOSOk] is what POSIX
    documents of it), [Native] (the code behind the imports: a resumption that
    may call back into the guest any number of times, together with the
    Objective-C runtime's answers), [Trampolines] (where [trampoline.S] puts its
    entries), [HostFloat] (the NaN payloads of host conversions), [JitEngine]
    (what [rsd_cpu_run] asks of the compiler, and the entry [jitenter.S] makes),
    [Linked] (where the linker puts the interpreter's routines, whose
    addresses compiled code contains), [HostFiles] (open, fstat, and mmap of a
    file), [DynLoader] (dlopen, dlsym, dladdr) and [ObjcRuntime] (the calls of
    objc/runtime.h; [ObjcRuntimeOk] is what they document of selectors).  [SampleHost] and the ends of the proof
    files give instances, on which the theorems with hypotheses are applied.
    Inside the library [StepRel] ([Keeps]) is the interface between the
    interpreter and the relations it keeps: a preorder that assignments to the
    cpu and guest stores respect is respected by every instruction.  The types
    of the cpu, write protection, undoing, mapping and counting are instances.
    [FlagSem] ([JitLive]) is what the flags analysis assumes of instructions: what
    they read and overwrite; the compiler's register instructions are an
    instance ([JitBlock]), and so are those that touch memory, on whole machines
    ([JitSem]).  [Indifferent] ([JitRel]) is a relation between machines that
    guest accesses do not see: the same but for the noted regions, or but for
    the flags.

    ** What is proved

    - Address space: the table's invariant through any sequence of operations
      whose intervals do not wrap, whose fixed mappings are clear of what is
      recorded and whose unmappings split no region, which the guest's own
      system calls need not respect, and what happens when they do not;
      [rsd_as_ok] and [rsd_as_mapped] exactly; what mapping, protecting and
      unmapping do to permissions and memory; the check compiled code makes in
      line, against the notes that feed it ([AddressSpace]).
    - Guest memory: what [access_ok] lets through, stores read back, the first
      fault is kept ([Access]); no instruction, the system calls that read into
      or remap memory apart, changes a byte without the write permission, unless
      it is within fifteen bytes of untracked memory, and the write log undoes
      what it recorded ([Safety]).
    - Execution: an instruction keeps every field of the cpu a value of its
      type ([Safety]); decoding and executing an instruction ends
      ([Termination]); only executable memory is executed, and a budget bounds a
      run ([Run]); a callback gives back the state it interrupted ([Calls]).
    - Instructions: the decoder inverts the manual's operand encoding, and ALU
      instructions compute from their bytes ([Encoding]); registers at their
      widths ([Registers]); flags against arithmetic and the conditions against
      the orders they are named after ([Flags]); calls and returns, the flags on
      the stack, multiplication and division ([Instructions]); packed
      instructions between XMM registers, from their bytes to every lane
      ([Lanes]).
    - Starting: the stack [rsd_cpu_init] leaves ([Startup]).
    - Checking compiled blocks: a block that passes left what the interpreter
      leaves, or faulted as it did, and one that does what the interpreter does
      passes ([BlockCheck]).
    - The compiler: every encoder against the manual's decoding ([Emit]);
      emitted code executed ([JitRun]): constants, the flags computed in line
      and the conditions ([JitFlags]), each kind of register instruction
      ([JitRegs]); dead flags may be left stale ([JitLive]); a whole compiled
      block of register instructions does what they mean and continues at the
      right address, and compiling a block ends ([JitBlock], [JitCompile]); the
      decoder agrees with the interpreter on what bytes mean: ALU instructions
      between registers ([JitAgree]) and with a memory operand ([JitDecode]), and,
      kind by kind ([JitReads], [JitSame]), every integer instruction the decoder
      takes into a block but shifts of memory ([JitAccept]), up to the registers and bytes the
      interpreter uses on the way; lookups keep the arena and the cache in order
      ([JitArena]).
    - Compiled memory accesses: emitted code with branches, run with a program
      counter wherever in a block it lies ([JitCode]); the check of the noted
      regions and the two ways behind it ([JitMem]); the machine as it lies in
      the memory of the A64 machine, and calls of the interpreter's routines on
      it ([JitWorld]); a compiled load or store does what the interpreter's
      does, faults included ([JitAccess]), and so do ALU instructions with a
      memory source and moves to memory ([JitOps]).  Flags that code leaves to a routine,
      those of byte operations, are what the interpreter has ([JitRoutines]).
    - Compiled blocks that load and store.  [JitSem] says what a block's
      instructions do to the interpreter's machine, memory first ([mem_part]),
      then registers and flags, up to the access that stops it ([block_sem]),
      and that the flags nobody reads make no difference; [JitRel] is the
      relational reading of the monad it uses.  Each instruction's code does what
      the instruction does ([JitDoes], [JitRmw]; shifts of registers, done by a
      routine, in [JitShift]), so does a sequence of them
      ([JitWhole]) and what ends a block ([JitEnds]); and the words of a whole
      block, the fault exit and the patched branches to it included, called on
      a machine in memory come back with what [block_run] leaves ([JitReturn]).
      [JitSample] is a concrete guest on which these are applied.
    - From bytes to the interpreter: the instruction that ends a block means to
      the compiler what it means to [exec_insn] ([JitExit]).  With the agreement on
      the others, the words compiled from the guest's bytes come back with
      what stepping the interpreter through those bytes leaves, up to
      the registers no guest sees and the flags nobody reads ([JitInterp], run
      on a concrete block in [JitShown]).
    - Imports: stub lookup and the tables ([Stubs]), the trampoline pool
      ([Callbacks]), the walk over format strings ([Termination]); what is code
      in a native image, and that binds and stub tables agree ([Symbols]).
    - Images: load commands are read back as what they say, and a well-formed
      image ends up in memory as it asks ([ImageLoad]); the tables of any image
      stay in bounds and a failed load leaves nothing behind ([ImageSafe]); a
      chain of fixups is applied to its places and no others, and no chain
      keeps the walk from ending ([Chains]); selector references and classes
      ([Selectors]).
    - The command: options are read back, what the exit status says, and that
      the loader's entry point is what the first step executes ([Launch]); a
      freestanding image with a budget always gets an answer ([Answers]); fuel
      changes no outcome ([Fuel]).

    Some theorems state where the code does less than it means to: a fixed
    mapping inside an older region and the unmapping of part of a region
    ([AddressSpace]), callbacks that step over the budget ([Run]), and a format
    string that ends in a percent sign ([Termination]).

    ** Fuel

    The loops that the machine bounds carry enough fuel of their own:
    [prefix_fuel] and [marshal_fuel] count the mapped bytes, each turn of those
    loops reads a further byte, and an unmapped one is a trap
    (the theorems of [Termination]);
    [walk_fuel] counts the regions ([AddressSpace.walk_enough_fuel]).  Guest code
    itself need not end: [rsd_cpu_run], [run_while] and [rsd_guest_call] take
    their fuel as an argument, for the turns of the loop and for the
    nesting of callbacks; theorems about them hold for any fuel, and
    [Run] says how much is enough under a budget.  [emit_block] has a turn
    for each instruction of the block and one more, which is enough
    ([JitCompile]); the steps of compiled code are counted by the words that were
    emitted, code with jumps backwards does not occur ([code_steps] takes the
    number of steps, and the theorems say that some number arrives).
    [walk_chain] takes fuel for the places of a chain, and [Chains] shows that
    the mapped bytes are enough; [c_string] has one turn more than there are
    mapped bytes.  [rsd_main] hands the fuel it is given to every loop that needs
    some; [Fuel] shows that more of it than enough changes nothing, so that the
    outcome of the command does not depend on it.

    ** What is not modelled

    Of the routines compiled code calls, the A64 machine runs the load, the
    store, the write log's entry, the flags and the shift; what it does with the
    others and in floating point is emitted by the model but not executed.
    Blocks with shifts of memory or SSE instructions are emitted, and no theorem says
    what their code does.  A routine is run on the
    cpu, the noted regions and the guest memory it finds in the memory of the
    A64 machine; that the C compiler gives it this meaning, and what it leaves
    in the registers a call may spoil, is not modelled (the latter is arbitrary).
    Making the arena executable is the host's.  Assembly; the handler of host crashes; and diagnostic output
    (dumps, traces, messages on stderr).  A left shift of a negative value, in
    [idiv], is taken as the arithmetic shift every compiler makes of it; signed
    overflow of 64-bit products is undefined, as C has it.

    A guest page and a file the host maps are not told apart: reads past the
    end of either are traps.

    Next, in this order: shifts of memory in compiled blocks, then the
    routines of floating point on the A64 machine; conversions
    between integers and floats; the errno contract of system calls. *)
From stdpp Require Export base list gmap numbers strings fin_maps.
From Stdlib Require Export ZArith Lia Bool.

#[global] Open Scope Z_scope.

(* ------------------------------------------------------------------ *)
(** ** C notation *)

Declare Scope c_scope.
Delimit Scope c_scope with C.

Infix ".&" := Z.land (at level 43, left associativity) : c_scope.
Infix ".|" := Z.lor (at level 45, left associativity) : c_scope.
Infix ".^" := Z.lxor (at level 44, left associativity) : c_scope.
Notation ".~ x" := (Z.lnot x) (at level 35, right associativity) : c_scope.
Infix "<<" := Z.shiftl (at level 42, left associativity) : c_scope.
Infix ">>" := Z.shiftr (at level 42, left associativity) : c_scope.
#[global] Open Scope c_scope.

(* ------------------------------------------------------------------ *)
(** ** Machine integers *)

(** Conversion to an unsigned [w]-bit integer. *)
Definition uwrap (w z : Z) : Z := z mod 2 ^ w.
(** Conversion to a signed [w]-bit integer (two's complement). *)
Definition swrap (w z : Z) : Z :=
  let m := z mod 2 ^ w in if m <? 2 ^ (w - 1) then m else m - 2 ^ w.

Abbreviation u8 := (uwrap 8).
Abbreviation u16 := (uwrap 16).
Abbreviation u32 := (uwrap 32).
Abbreviation u64 := (uwrap 64).
Abbreviation s8 := (swrap 8).
Abbreviation s16 := (swrap 16).
Abbreviation s32 := (swrap 32).
Abbreviation s64 := (swrap 64).

(** [z] is the value of an unsigned [w]-bit object. *)
Definition urange (w z : Z) : Prop := 0 <= z < 2 ^ w.

#[global] Instance urange_dec w z : Decision (urange w z).
Proof. unfold urange. apply _. Defined.

(** C's truth value of an integer, and of a boolean used as one. *)
Definition nz (z : Z) : bool := negb (z =? 0).
Definition bz (b : bool) : Z := if b then 1 else 0.

(** A [switch] label list. *)
Definition is_one_of (x : Z) (l : list Z) : bool := existsb (Z.eqb x) l.

(* ------------------------------------------------------------------ *)
(** ** Little-endian byte sequences *)

Fixpoint le_val (bs : list Z) : Z :=
  match bs with
  | [] => 0
  | b :: bs => b + 256 * le_val bs
  end.

Fixpoint le_bytes (n : nat) (v : Z) : list Z :=
  match n with
  | O => []
  | S n => v mod 256 :: le_bytes n (v / 256)
  end.

(* ------------------------------------------------------------------ *)
(** ** Lemmas on machine integers *)

Create HintDb rsd discriminated.
Create Rewrite HintDb rsd.

Lemma uwrap_range w z : 0 <= w -> urange w (uwrap w z).
Proof. intros H. apply Z.mod_pos_bound. by apply Z.pow_pos_nonneg. Qed.

Lemma uwrap_small w z : urange w z -> uwrap w z = z.
Proof. apply Z.mod_small. Qed.

Lemma uwrap_uwrap w z : 0 <= w -> uwrap w (uwrap w z) = uwrap w z.
Proof. intros H. by apply uwrap_small, uwrap_range. Qed.

Lemma uwrap_le w w' z : 0 <= w <= w' -> uwrap w (uwrap w' z) = uwrap w z.
Proof.
  intros H. unfold uwrap. apply Z.mod_mod_divide.
  exists (2 ^ (w' - w)). rewrite <- Z.pow_add_r by lia. f_equal. lia.
Qed.

Lemma urange_mono w w' z : 0 <= w <= w' -> urange w z -> urange w' z.
Proof.
  intros H [H0 H1]. split; [done|]. eapply Z.lt_le_trans; [done|].
  apply Z.pow_le_mono_r; lia.
Qed.

Lemma land_ones_uwrap w z : 0 <= w -> z .& Z.ones w = uwrap w z.
Proof. apply Z.land_ones. Qed.

Lemma uwrap_testbit w z i :
  0 <= w -> Z.testbit (uwrap w z) i = bool_decide (i < w) && Z.testbit z i.
Proof.
  intros Hw. unfold uwrap. destruct (decide (i < w)) as [Hi|Hi].
  - rewrite Z.mod_pow2_bits_low by lia. by rewrite bool_decide_true by lia.
  - rewrite Z.mod_pow2_bits_high by lia. by rewrite bool_decide_false by lia.
Qed.

Lemma urange_testbit_high w z i : urange w z -> w <= i -> Z.testbit z i = false.
Proof.
  intros Hz Hi. rewrite <- (uwrap_small w z Hz).
  destruct (decide (0 <= w)); [|].
  - rewrite uwrap_testbit by lia. by rewrite bool_decide_false by lia.
  - unfold urange in Hz. rewrite Z.pow_neg_r in Hz by lia. lia.
Qed.

Lemma urange_bits w z :
  0 <= w -> 0 <= z -> (forall i, w <= i -> Z.testbit z i = false) -> urange w z.
Proof.
  intros Hw Hz H. replace z with (uwrap w z); [by apply uwrap_range|].
  apply Z.bits_inj'. intros i Hi. rewrite uwrap_testbit by lia.
  destruct (decide (i < w)); [by rewrite bool_decide_true by lia|].
  rewrite bool_decide_false by lia. symmetry. apply H. lia.
Qed.

Lemma urange_land w a b : 0 <= w -> urange w a -> 0 <= b -> urange w (a .& b).
Proof.
  intros Hw Ha Hb. apply urange_bits; [done|apply Z.land_nonneg; left; apply Ha|].
  intros i Hi. rewrite Z.land_spec, (urange_testbit_high w a) by done. done.
Qed.

Lemma urange_lor w a b : 0 <= w -> urange w a -> urange w b -> urange w (a .| b).
Proof.
  intros Hw Ha Hb. apply urange_bits; [done|apply Z.lor_nonneg; split; [apply Ha|apply Hb]|].
  intros i Hi. rewrite Z.lor_spec, !(urange_testbit_high w) by done. done.
Qed.

Lemma urange_lxor w a b : 0 <= w -> urange w a -> urange w b -> urange w (a .^ b).
Proof.
  intros Hw Ha Hb. apply urange_bits; [done|apply Z.lxor_nonneg; destruct Ha, Hb; lia|].
  intros i Hi. rewrite Z.lxor_spec, !(urange_testbit_high w) by done. done.
Qed.

Lemma swrap_bounds w z : 0 < w -> - 2 ^ (w - 1) <= swrap w z < 2 ^ (w - 1).
Proof.
  intros Hw. unfold swrap. pose proof (uwrap_range w z ltac:(lia)) as Hr.
  unfold uwrap, urange in Hr.
  assert (2 ^ w = 2 * 2 ^ (w - 1)).
  { rewrite <- Z.pow_succ_r by lia. f_equal. lia. }
  case_match eqn:E; lia.
Qed.

Lemma swrap_congr w z : 0 < w -> uwrap w (swrap w z) = uwrap w z.
Proof.
  intros Hw. unfold swrap, uwrap. case_match.
  - apply Z.mod_mod. lia.
  - replace (z mod 2 ^ w - 2 ^ w) with (z mod 2 ^ w + (-1) * 2 ^ w) by lia.
    rewrite Z_mod_plus_full. apply Z.mod_mod. lia.
Qed.

Lemma swrap_small w z : 0 < w -> - 2 ^ (w - 1) <= z < 2 ^ (w - 1) -> swrap w z = z.
Proof.
  intros Hw Hz. assert (Hp : 2 ^ w = 2 * 2 ^ (w - 1)).
  { rewrite <- Z.pow_succ_r by lia. f_equal. lia. }
  unfold swrap. destruct (decide (0 <= z)).
  - rewrite Z.mod_small by lia. case_match eqn:E; lia.
  - replace (z mod 2 ^ w) with (z + 2 ^ w).
    + case_match eqn:E; lia.
    + apply (Z.mod_unique z (2 ^ w) (-1)); lia.
Qed.

(** Concatenating bit fields. *)
Lemma lor_concat w x y : 0 <= w -> urange w y -> (x * 2 ^ w) .| y = x * 2 ^ w + y.
Proof.
  intros Hw Hy. rewrite <- Z.add_lor_land.
  replace ((x * 2 ^ w) .& y) with 0; [lia|]. symmetry. apply Z.bits_inj'. intros i Hi.
  rewrite Z.land_spec, Z.bits_0. destruct (decide (i < w)).
  - by rewrite Z.mul_pow2_bits_low.
  - by rewrite (urange_testbit_high w y), andb_false_r by (done || lia).
Qed.

(** Replacing the low [w] bits, as narrow writes do. *)
Lemma replace_low w old v :
  0 <= w -> (old .& .~ Z.ones w) .| (v .& Z.ones w) = old / 2 ^ w * 2 ^ w + uwrap w v.
Proof.
  intros Hw. rewrite land_ones_uwrap by done.
  rewrite <- Z.ldiff_land, Z.ldiff_ones_r, Z.shiftl_mul_pow2, Z.shiftr_div_pow2 by done.
  apply lor_concat; [done|by apply uwrap_range].
Qed.

#[export] Hint Resolve uwrap_range urange_land urange_lor urange_lxor : rsd.
#[export] Hint Rewrite uwrap_uwrap using lia : rsd.

(** Reduce [Z.div]/[Z.modulo] by constants to linear arithmetic. *)
Ltac zdm := unfold uwrap, swrap, urange in *; Z.div_mod_to_equations; lia.

(** Prove an equality of integers bit by bit. *)
Ltac bitwise i :=
  apply Z.bits_inj'; intros i ?;
  repeat first
    [ rewrite Z.land_spec | rewrite Z.lor_spec | rewrite Z.lxor_spec
    | rewrite Z.lnot_spec by lia | rewrite Z.shiftl_spec by lia
    | rewrite Z.shiftr_spec by lia | rewrite uwrap_testbit by lia ].

(** Evaluate the shifts and masks of numerals in the goal. *)
Ltac eval_consts :=
  repeat match goal with
  | |- context [Z.shiftr (Zpos ?a) 1] => let v := eval vm_compute in (Z.shiftr (Zpos a) 1) in
      change (Z.shiftr (Zpos a) 1) with v
  | |- context [Z.land (Zpos ?a) 1] => let v := eval vm_compute in (Z.land (Zpos a) 1) in
      change (Z.land (Zpos a) 1) with v
  | |- context [Z.shiftr Z0 1] => change (Z.shiftr Z0 1) with 0
  | |- context [Z.land Z0 1] => change (Z.land Z0 1) with 0
  end.
