(* ===== verification/AddressSpace.v ===== *)
(** The guest address space ([src/as.h], [src/as.c]): the table of regions
    rashid has handed to the guest, their permissions, and the two-entry hit
    caches that compiled code consults in line.  The host kernel ([mmap],
    [munmap], the allocator) is a parameter, [HostOS]. *)
From S2P Require Import Prelude.

(* ------------------------------------------------------------------ *)
(** ** The host kernel *)

(** What [as.c] and the system calls of [cpu.c] ask of the operating system.
    [host] is the kernel's private state; host memory is a finite map from
    addresses to bytes, an absent address being one the MMU faults on. *)
Class HostOS := {
  host : Type;
  host_page : Z;
  h_alloc : host -> Z -> bool;
  h_mmap : host -> gmap Z Z -> Z -> Z -> bool -> option Z * (host * gmap Z Z);
  h_munmap : host -> gmap Z Z -> Z -> Z -> bool * (host * gmap Z Z);
  h_read : host -> gmap Z Z -> Z -> Z -> Z -> Z * (host * gmap Z Z);
  h_write : host -> gmap Z Z -> Z -> Z -> Z -> Z * host;
  h_close : host -> Z -> Z * host
}.

Record world `{HostOS} := World { w_host : host; w_mem : gmap Z Z }.
Arguments World {_} _ _.

(** [[p, p+n)] as a set of mapped zero bytes. *)
Definition zero_range (p : Z) (n : Z) : gmap Z Z :=
  list_to_map ((fun i => (p + Z.of_nat i, 0)) <$> seq 0 (Z.to_nat n)).

Lemma lookup_zero_range p n b :
  zero_range p n !! b = if decide (p <= b < p + n) then Some 0 else None.
Proof.
  unfold zero_range. case_decide.
  - apply elem_of_list_to_map_1'.
    + intros y (i & [= _ ->] & _)%list_elem_of_fmap. done.
    + apply list_elem_of_fmap. exists (Z.to_nat (b - p)). split; [f_equal; lia|].
      apply elem_of_seq. lia.
  - apply not_elem_of_list_to_map_1. intros ([? ?] & -> & (i & [= -> ->] & Hi)%list_elem_of_fmap)%list_elem_of_fmap.
    apply elem_of_seq in Hi. cbn in *. lia.
Qed.

(** The documented behaviour of the kernel that the theorems rely on.  What
    happens to memory is stated for whole pages only: the kernel rounds other
    lengths and refuses other addresses. *)
Class HostOSOk `{HostOS} := {
  host_page_pow2 : exists k, 12 <= k <= 30 /\ host_page = 2 ^ k;
  h_mmap_addr : forall h m want len fixed p h' m',
    h_mmap h m want len fixed = (Some p, (h', m')) ->
    0 < p /\ p + len < 2 ^ 64 /\ p mod host_page = 0 /\ (fixed = true -> p = want);
  h_mmap_ok : forall h m want len fixed p h' m',
    len mod host_page = 0 ->
    h_mmap h m want len fixed = (Some p, (h', m')) ->
    (fixed = false -> forall b, p <= b < p + len -> m !! b = None) /\
    (forall b, p <= b < p + len -> m' !! b = Some 0) /\
    (forall b, ~ p <= b < p + len -> m' !! b = m !! b);
  h_mmap_fail : forall h m want len fixed h' m',
    h_mmap h m want len fixed = (None, (h', m')) -> m' = m;
  h_munmap_ok : forall h m p len h' m',
    p mod host_page = 0 -> len mod host_page = 0 ->
    h_munmap h m p len = (true, (h', m')) ->
    (forall b, p <= b < p + len -> m' !! b = None) /\
    (forall b, ~ p <= b < p + len -> m' !! b = m !! b);
  h_munmap_fail : forall h m p len h' m',
    h_munmap h m p len = (false, (h', m')) -> m' = m
}.

(* ------------------------------------------------------------------ *)
(** ** Data *)

Definition RSD_PROT_R : Z := 1.
Definition RSD_PROT_W : Z := 2.
Definition RSD_PROT_X : Z := 4.

Record rsd_region := Region { rg_start : Z; rg_end : Z; rg_prot : Z }.

Record rsd_as_hit := Hit { hit_lo : Z; hit_lim : Z }.

(** [n] is the length of [as_reg]. *)
Record rsd_as := As {
  as_reg : list rsd_region;
  as_cap : Z;
  as_rd : rsd_as_hit * rsd_as_hit;
  as_wr : rsd_as_hit * rsd_as_hit
}.

Definition no_hits : rsd_as_hit * rsd_as_hit := (Hit 0 0, Hit 0 0).

Definition sizeof_region : Z := 24.

(* ------------------------------------------------------------------ *)
(** ** Operations *)

Definition rsd_as_init : rsd_as := As [] 0 no_hits no_hits.

Definition in_region (a : Z) (r : rsd_region) : bool := (rg_start r <=? a) && (a <? rg_end r).

(** Index of the first region holding [a] ([None] for -1). *)
Fixpoint as_find_from (i : nat) (l : list rsd_region) (a : Z) : option nat :=
  match l with
  | [] => None
  | r :: l => if in_region a r then Some i else as_find_from (S i) l a
  end.

Definition as_find (s : rsd_as) (a : Z) : option nat := as_find_from 0 (as_reg s) a.

Definition as_forget (s : rsd_as) : rsd_as := As (as_reg s) (as_cap s) no_hits no_hits.

(** The position loop and the [memmove] of [insert] in [as.c]. *)
Fixpoint insert_region (r : rsd_region) (l : list rsd_region) : list rsd_region :=
  match l with
  | [] => [r]
  | x :: l => if rg_start x <? rg_start r then x :: insert_region r l else r :: x :: l
  end.

Section ops.
Context `{HostOS}.

(** [as_insert]: [None] for -1, when the table cannot grow. *)
Definition as_insert (w : world) (s : rsd_as) (st en pr : Z) : option rsd_as :=
  let s := as_forget s in
  let full := Z.of_nat (length (as_reg s)) =? as_cap s in
  let cap' := if full then (if nz (as_cap s) then as_cap s * 2 else 16) else as_cap s in
  if full && negb (h_alloc (w_host w) (cap' * sizeof_region)) then None
  else Some (As (insert_region (Region st en pr) (as_reg s)) cap' (as_rd s) (as_wr s)).

Definition round_down (x : Z) : Z := x .& u64 (.~ (host_page - 1)).

Definition try_mmap (w : world) (want len : Z) (fixed : bool) : option Z * world :=
  let '(p, (h, m)) := h_mmap (w_host w) (w_mem w) want len fixed in (p, World h m).

(** Returns the address (0 on failure), the new table and the new world. *)
Definition rsd_as_map (w : world) (s : rsd_as) (at_ len pr : Z) (fixed : bool)
    : Z * rsd_as * world :=
  if negb (nz len) then (0, s, w) else
  let hp := host_page in
  let lo := round_down at_ in
  let hi := round_down (u64 (at_ + len + hp - 1)) in
  let hi := if nz at_ then hi else round_down (u64 (len + hp - 1)) in
  let want := if nz at_ then lo else 0 in
  let '(p, w) := try_mmap w want (if nz at_ then u64 (hi - lo) else hi) (nz at_ && fixed) in
  let '(p, w) := match p with
                 | None => if nz at_ && negb fixed then try_mmap w 0 hi false else (None, w)
                 | Some _ => (p, w)
                 end in
  match p with
  | None => (0, s, w)
  | Some base =>
      let size := if nz at_ then u64 (hi - lo) else hi in
      match as_insert w s base (u64 (base + size)) pr with
      | None =>
          let '(_, (h, m)) := h_munmap (w_host w) (w_mem w) base size in
          (0, as_forget s, World h m)
      | Some s => ((if nz at_ && (base =? want) then at_ else base), s, w)
      end
  end.

(** One iteration of the loop of [rsd_as_protect]: what region [r] becomes. *)
Definition protect_region (at_ en pr : Z) (r : rsd_region) : list rsd_region :=
  if (rg_end r <=? at_) || (en <=? rg_start r) then [r] else
  (if rg_start r <? at_ then [Region (rg_start r) at_ (rg_prot r)] else []) ++
  [Region (if at_ <? rg_start r then rg_start r else at_)
          (if rg_end r <? en then rg_end r else en) pr] ++
  (if en <? rg_end r then [Region en (rg_end r) (rg_prot r)] else []).

(** Returns the C result and the new table. *)
Definition rsd_as_protect (w : world) (s : rsd_as) (at_ len pr : Z) : Z * rsd_as :=
  if negb (nz len) then (0, s) else
  let en := u64 (at_ + len) in
  let cap' := Z.of_nat (length (as_reg s)) * 3 + 1 in
  if negb (h_alloc (w_host w) (cap' * sizeof_region)) then (-1, s) else
  let s := as_forget s in
  (0, As (flat_map (protect_region at_ en pr) (as_reg s)) cap' (as_rd s) (as_wr s)).

(** The deletion loop of [rsd_as_unmap]. *)
Fixpoint drop_contained (lo hi : Z) (l : list rsd_region) : list rsd_region :=
  match l with
  | [] => []
  | r :: l => if (lo <=? rg_start r) && (rg_end r <=? hi) then drop_contained lo hi l
              else r :: drop_contained lo hi l
  end.

Definition rsd_as_unmap (w : world) (s : rsd_as) (at_ len : Z) : Z * rsd_as * world :=
  let hp := host_page in
  let lo := round_down at_ in
  let hi := round_down (u64 (at_ + len + hp - 1)) in
  let '(ok, (h, m)) := h_munmap (w_host w) (w_mem w) lo (u64 (hi - lo)) in
  let w := World h m in
  if negb ok then (-1, s, w) else
  let s := as_forget s in
  (0, As (drop_contained lo hi (as_reg s)) (as_cap s) (as_rd s) (as_wr s), w).

Definition unmap_region (w : world) (r : rsd_region) : world :=
  let '(_, (h, m)) :=
    h_munmap (w_host w) (w_mem w) (rg_start r) (u64 (rg_end r - rg_start r)) in
  World h m.

Definition rsd_as_free (w : world) (s : rsd_as) : rsd_as * world :=
  (rsd_as_init, fold_left unmap_region (as_reg s) w).
End ops.

(** Move the newest hit to the front; a region noted already stays. *)
Definition note_hit (h : rsd_as_hit * rsd_as_hit) (st len : Z) : rsd_as_hit * rsd_as_hit :=
  if hit_lo h.1 =? st then h else (Hit st (len - 7), h.1).

Definition rsd_as_note (s : rsd_as) (a pr : Z) : rsd_as :=
  match as_find s a ≫= fun i => as_reg s !! i with
  | None => s
  | Some r =>
      if negb (rg_prot r .& pr =? pr) then s else
      let len := u64 (rg_end r - rg_start r) in
      if len <? 8 then s else
      if pr =? RSD_PROT_R then As (as_reg s) (as_cap s) (note_hit (as_rd s) (rg_start r) len) (as_wr s)
      else if pr =? RSD_PROT_W then As (as_reg s) (as_cap s) (as_rd s) (note_hit (as_wr s) (rg_start r) len)
      else s
  end.

(** The [while (n)] loop of [rsd_as_mapped] and [rsd_as_ok], with the test on
    the region found as an argument.  [None] when the fuel runs out, which
    [S (length as_reg)] never does ([walk_enough_fuel]). *)
Fixpoint walk (fuel : nat) (test : rsd_region -> bool) (s : rsd_as) (a n : Z) : option bool :=
  match fuel with
  | O => None
  | S fuel =>
      if negb (nz n) then Some true else
      match as_find s a ≫= fun i => as_reg s !! i with
      | None => Some false
      | Some r =>
          if negb (test r) then Some false else
          let avail := u64 (rg_end r - a) in
          if n <=? avail then Some true
          else walk fuel test s (u64 (a + avail)) (u64 (n - avail))
      end
  end.

Definition walk_fuel (s : rsd_as) : nat := S (length (as_reg s)).

Definition rsd_as_mapped (s : rsd_as) (a n : Z) : bool :=
  if negb (nz n) then true else
  if u64 (a + n) <? a then false else
  default false (walk (walk_fuel s) (fun _ => true) s a n).

Definition rsd_as_ok (s : rsd_as) (a n pr : Z) : bool :=
  if negb (nz n) then true else
  if u64 (a + n) <? a then false else
  default false (walk (walk_fuel s) (fun r => rg_prot r .& pr =? pr) s a n).

(** The in-line check of compiled code ([put_region_check] in [src/jit.c]). *)
Definition hit_check (h : rsd_as_hit * rsd_as_hit) (a : Z) : bool :=
  (u64 (a - hit_lo h.1) <? hit_lim h.1) || (u64 (a - hit_lo h.2) <? hit_lim h.2).

(* ------------------------------------------------------------------ *)
(** ** Specification *)

Fixpoint first_region (l : list rsd_region) (a : Z) : option rsd_region :=
  match l with
  | [] => None
  | r :: l => if in_region a r then Some r else first_region l a
  end.

(** The permissions the table gives address [a]. *)
Definition prot_at (l : list rsd_region) (a : Z) : option Z := rg_prot <$> first_region l a.
Arguments prot_at : simpl never.

(** The table is sorted, its regions non-empty and disjoint, all above [b]. *)
Fixpoint regions_wf (b : Z) (l : list rsd_region) : Prop :=
  match l with
  | [] => True
  | r :: l => b <= rg_start r < rg_end r /\ rg_end r < 2 ^ 64 /\ regions_wf (rg_end r) l
  end.

Definition hit_sound (l : list rsd_region) (need : Z) (h : rsd_as_hit) : Prop :=
  hit_lim h = 0 \/
  exists r, r ∈ l /\ rg_start r = hit_lo h /\ 8 <= rg_end r - rg_start r /\
            hit_lim h = rg_end r - rg_start r - 7 /\ rg_prot r .& need = need.

(** What [rsd_as_note] leaves in a cache that starts empty: a hit that was
    never used, or exactly the bounds of a region that grants [need]. *)
Definition hit_noted (l : list rsd_region) (need : Z) (h : rsd_as_hit) : Prop :=
  h = Hit 0 0 \/
  exists r, r ∈ l /\ rg_prot r .& need = need /\ 8 <= rg_end r - rg_start r /\
            h = Hit (rg_start r) (rg_end r - rg_start r - 7).

Definition hits_noted (l : list rsd_region) (need : Z) (h : rsd_as_hit * rsd_as_hit) : Prop :=
  hit_noted l need h.1 /\ hit_noted l need h.2.

(** The notes [ns] (addresses and permissions) taken one after the other. *)
Definition note_all (s : rsd_as) (ns : list (Z * Z)) : rsd_as :=
  fold_left (fun s n => rsd_as_note s n.1 n.2) ns s.

Definition hits_sound (l : list rsd_region) (need : Z) (h : rsd_as_hit * rsd_as_hit) : Prop :=
  hit_sound l need h.1 /\ hit_sound l need h.2.

(** The invariant of the module. *)
Definition as_inv (s : rsd_as) : Prop :=
  regions_wf 0 (as_reg s) /\
  hits_sound (as_reg s) RSD_PROT_R (as_rd s) /\ hits_sound (as_reg s) RSD_PROT_W (as_wr s).

(** Every byte of [[a, a+n)] is in the table and its region passes [test]. *)
Definition covered (test : rsd_region -> bool) (l : list rsd_region) (a n : Z) : Prop :=
  forall b, a <= b < a + n -> exists r, first_region l b = Some r /\ test r = true.

(* ------------------------------------------------------------------ *)
(** ** Lemmas on region tables *)

Lemma in_region_true a r : in_region a r = true <-> rg_start r <= a < rg_end r.
Proof. unfold in_region. lia. Qed.

Lemma as_find_from_shift l i a : as_find_from i l a = (fun k => i + k)%nat <$> as_find_from 0 l a.
Proof.
  revert i. induction l as [|r l IH]; intros i; cbn; [done|].
  case_match; cbn; [f_equal; lia|].
  rewrite (IH (S i)), (IH 1%nat). destruct (as_find_from 0 l a); cbn; [f_equal; lia|done].
Qed.

Lemma as_find_first s a : as_find s a ≫= (fun i => as_reg s !! i) = first_region (as_reg s) a.
Proof.
  unfold as_find. induction (as_reg s) as [|r l IH]; cbn; [done|].
  case_match; cbn; [done|]. rewrite as_find_from_shift, <- IH.
  by destruct (as_find_from 0 l a).
Qed.

Lemma first_region_Some l a r :
  first_region l a = Some r -> r ∈ l /\ rg_start r <= a < rg_end r.
Proof.
  induction l as [|x l IH]; cbn; [done|]. case_match eqn:E.
  - intros [= <-]. apply in_region_true in E. split; [left|done].
  - intros Hf. destruct (IH Hf). split; [by right|done].
Qed.

Lemma first_region_None l a r : first_region l a = None -> r ∈ l -> in_region a r = false.
Proof.
  induction l as [|x l IH]; cbn; [set_solver|]. case_match; [done|].
  intros Hf [->|Hr]%elem_of_cons; [done|auto].
Qed.

Lemma regions_wf_mono b b' l : b' <= b -> regions_wf b l -> regions_wf b' l.
Proof. destruct l; cbn; [done|]. intros ? (? & ? & ?). repeat split; (done || lia). Qed.

Lemma regions_wf_elem b l r :
  regions_wf b l -> r ∈ l -> b <= rg_start r < rg_end r /\ rg_end r < 2 ^ 64.
Proof.
  revert b. induction l as [|x l IH]; intros b; [set_solver|].
  intros (? & ? & Hl) [->|Hr]%elem_of_cons; [done|].
  specialize (IH _ Hl Hr). lia.
Qed.

(** Regions of a well-formed table do not overlap: membership decides [first_region]. *)
Lemma first_region_elem b l a r :
  regions_wf b l -> r ∈ l -> rg_start r <= a < rg_end r -> first_region l a = Some r.
Proof.
  revert b. induction l as [|x l IH]; intros b; [set_solver|].
  intros (? & ? & Hl) [->|Hr]%elem_of_cons Ha; cbn.
  - by rewrite (proj2 (in_region_true a x) Ha).
  - case_match eqn:E; [|by eapply IH].
    apply in_region_true in E. pose proof (regions_wf_elem _ _ _ Hl Hr). lia.
Qed.

Lemma first_region_below b l a : regions_wf b l -> a < b -> first_region l a = None.
Proof.
  revert b. induction l as [|x l IH]; intros b; [done|].
  intros (? & ? & Hl) Ha; cbn. case_match eqn:E.
  - apply in_region_true in E. lia.
  - eapply IH; [done|lia].
Qed.

(* ------------------------------------------------------------------ *)
(** ** The walk over the table *)

Definition above (l : list rsd_region) (a : Z) : list rsd_region :=
  filter (fun r => a < rg_end r) l.

Lemma above_decreases l a r :
  r ∈ l -> a < rg_end r -> (length (above l (rg_end r)) < length (above l a))%nat.
Proof.
  intros Hr Ha. induction l as [|x l IH]; [set_solver|].
  assert (Hle : (length (above l (rg_end r)) <= length (above l a))%nat).
  { clear -Ha. unfold above. induction l as [|y l IH]; [done|]. rewrite !filter_cons.
    repeat case_decide; cbn; lia. }
  unfold above in *. rewrite !filter_cons. apply elem_of_cons in Hr as [->|Hr].
  - rewrite decide_False, decide_True by lia. cbn. lia.
  - specialize (IH Hr). repeat case_decide; cbn; lia.
Qed.

Lemma walk_enough_fuel fuel test s a n :
  (forall r, r ∈ as_reg s -> 0 <= rg_start r /\ rg_end r < 2 ^ 64) ->
  0 <= a -> 0 <= n < 2 ^ 64 ->
  (length (above (as_reg s) a) < fuel)%nat -> is_Some (walk fuel test s a n).
Proof.
  intros Hb. revert a n. induction fuel as [|fuel IH]; intros a n Ha Hn Hf; [lia|]. cbn.
  case_match; [by eexists|]. rewrite as_find_first.
  destruct (first_region (as_reg s) a) as [r|] eqn:E; [|by eexists].
  case_match; [by eexists|]. case_match eqn:E'; [by eexists|].
  apply first_region_Some in E as [Hr Hin]. specialize (Hb r Hr).
  assert (Hav : u64 (rg_end r - a) = rg_end r - a) by (apply uwrap_small; unfold urange; lia).
  rewrite Hav in *. apply Z.leb_gt in E'.
  rewrite (uwrap_small _ (n - _)) by (unfold urange; lia).
  replace (a + (rg_end r - a)) with (rg_end r) by lia.
  rewrite uwrap_small by (unfold urange; lia).
  apply IH; [lia|lia|]. pose proof (above_decreases _ _ _ Hr (proj2 Hin)). lia.
Qed.

Lemma walk_spec fuel test s a n b :
  regions_wf 0 (as_reg s) -> 0 <= a -> 0 <= n -> a + n < 2 ^ 64 ->
  walk fuel test s a n = Some b -> (b = true <-> covered test (as_reg s) a n).
Proof.
  intros Hwf. revert a n. induction fuel as [|fuel IH]; intros a n Ha Hn Hlt; cbn; [done|].
  unfold nz. case_match eqn:E0.
  { intros [= <-]. split; [|done]. intros _ x Hx. lia. }
  rewrite as_find_first. destruct (first_region (as_reg s) a) as [r|] eqn:E.
  2:{ intros [= <-]. split; [done|]. intros Hc. destruct (Hc a) as (r & Hr & _); [lia|congruence]. }
  pose proof (first_region_Some _ _ _ E) as [Hr Hin].
  pose proof (regions_wf_elem _ _ _ Hwf Hr).
  rewrite (uwrap_small _ (rg_end r - a)) by (unfold urange; lia).
  case_match eqn:Et.
  { intros [= <-]. split; [done|]. intros Hc. destruct (Hc a) as (r' & Hr' & Ht); [lia|].
    rewrite E in Hr'. simplify_eq. by rewrite Ht in Et. }
  apply negb_false_iff in Et. case_match eqn:El.
  - intros [= <-]. split; [|done]. intros _ x Hx. exists r. split; [|done].
    eapply first_region_elem; [done..|lia].
  - intros Hw. replace (a + (rg_end r - a)) with (rg_end r) in Hw by lia.
    rewrite !uwrap_small in Hw by (unfold urange; lia).
    apply IH in Hw; [|lia..]. rewrite Hw. split; intros Hc x Hx.
    + destruct (decide (x < rg_end r)); [|apply Hc; lia].
      exists r. split; [|done]. eapply first_region_elem; [done..|lia].
    + apply Hc. lia.
Qed.

Lemma walk_total test s a n :
  regions_wf 0 (as_reg s) -> 0 <= a -> 0 <= n -> a + n < 2 ^ 64 ->
  default false (walk (walk_fuel s) test s a n) = true <-> covered test (as_reg s) a n.
Proof.
  intros Hwf Ha Hn Hlt. destruct (walk_enough_fuel (walk_fuel s) test s a n) as [b Hb].
  - intros r Hr. pose proof (regions_wf_elem _ _ _ Hwf Hr). lia.
  - done.
  - lia.
  - unfold walk_fuel, above. pose proof (length_filter (fun r => (a < rg_end r)%Z) (as_reg s)). lia.
  - rewrite Hb. cbn. by eapply walk_spec.
Qed.

(* ------------------------------------------------------------------ *)
(** ** Each operation and the invariant *)

Lemma hits_sound_none l need : hits_sound l need no_hits.
Proof. by split; left. Qed.
#[export] Hint Resolve hits_sound_none : rsd.

Lemma as_inv_init : as_inv rsd_as_init.
Proof. split; [done|split; apply hits_sound_none]. Qed.

Definition disjoint_from (st en : Z) (l : list rsd_region) : Prop :=
  forall r, r ∈ l -> rg_end r <= st \/ en <= rg_start r.

Lemma insert_region_wf b st en pr l :
  regions_wf b l -> b <= st < en -> en < 2 ^ 64 -> disjoint_from st en l ->
  regions_wf b (insert_region (Region st en pr) l).
Proof.
  revert b. induction l as [|x l IH]; intros b; cbn; [lia|].
  intros (? & ? & Hl) Hb He Hd.
  assert (Hx := Hd x ltac:(left)). case_match eqn:E; cbn.
  - repeat split; try lia. apply IH; [done|lia|lia|]. intros r Hr. apply Hd. by right.
  - repeat split; try lia; done.
Qed.

Lemma insert_region_elem r l x : x ∈ insert_region r l <-> x = r \/ x ∈ l.
Proof.
  induction l as [|y l IH]; cbn; [set_solver|].
  destruct (_ <? _); rewrite ?elem_of_cons, ?IH; clear IH; tauto.
Qed.

Lemma prot_at_cons r l a :
  prot_at (r :: l) a =
  if decide (rg_start r <= a < rg_end r) then Some (rg_prot r) else prot_at l a.
Proof.
  unfold prot_at; cbn. destruct (in_region a r) eqn:E; cbn.
  - apply in_region_true in E. by rewrite decide_True.
  - rewrite decide_False; [done|]. rewrite <- in_region_true. congruence.
Qed.

Lemma prot_at_insert st en pr l a :
  disjoint_from st en l -> st < en ->
  prot_at (insert_region (Region st en pr) l) a =
  if decide (st <= a < en) then Some pr else prot_at l a.
Proof.
  intros Hd He. induction l as [|x l IH]; cbn; [by rewrite prot_at_cons|].
  assert (Hx := Hd x ltac:(left)). specialize (IH (fun r Hr => Hd r ltac:(by right))).
  destruct (_ <? _); rewrite !prot_at_cons, ?IH; cbn; repeat case_decide; (done || lia).
Qed.

Lemma protect_region_wf at_ en pr b r l :
  at_ < en -> b <= rg_start r < rg_end r -> rg_end r < 2 ^ 64 ->
  regions_wf (rg_end r) l -> regions_wf b (protect_region at_ en pr r ++ l).
Proof.
  intros Hlt Hb He Hl.
  assert (Hm : forall b', b' <= rg_end r -> regions_wf b' l) by (intros; by eapply regions_wf_mono).
  unfold protect_region. repeat (case_match; cbn -[Z.pow]); repeat split; try apply Hm; lia.
Qed.

Lemma prot_at_protect_region at_ en pr r l a :
  at_ < en ->
  prot_at (protect_region at_ en pr r ++ l) a =
  if decide (rg_start r <= a < rg_end r)
  then Some (if decide (at_ <= a < en) then pr else rg_prot r) else prot_at l a.
Proof.
  intros Hlt. unfold protect_region.
  repeat (case_match; cbn); rewrite ?prot_at_cons; cbn; repeat case_decide; (done || lia).
Qed.

Lemma regions_wf_protect at_ en pr b l :
  at_ < en -> regions_wf b l -> regions_wf b (flat_map (protect_region at_ en pr) l).
Proof.
  intros Hlt. revert b. induction l as [|r l IH]; intros b; cbn -[Z.pow]; [done|].
  intros (? & ? & ?). apply protect_region_wf; auto.
Qed.

Lemma prot_at_protect at_ en pr l a :
  at_ < en ->
  prot_at (flat_map (protect_region at_ en pr) l) a =
  (fun p => if decide (at_ <= a < en) then pr else p) <$> prot_at l a.
Proof.
  intros Hlt. induction l as [|r l IH]; cbn; [done|].
  rewrite prot_at_protect_region, IH, prot_at_cons by done.
  destruct (decide (rg_start r <= a < rg_end r)); cbn; done.
Qed.

Lemma drop_contained_elem lo hi l r :
  r ∈ drop_contained lo hi l <-> r ∈ l /\ ~ (lo <= rg_start r /\ rg_end r <= hi).
Proof.
  induction l as [|x l IH]; cbn; [set_solver|].
  destruct (_ && _) eqn:E; rewrite ?elem_of_cons, IH.
  - split; [naive_solver|]. intros [[->|?] ?]; [lia|done].
  - split; [|naive_solver]. intros [->|?]; [|naive_solver]. split; [by left|]. lia.
Qed.

Lemma regions_wf_drop lo hi b l : regions_wf b l -> regions_wf b (drop_contained lo hi l).
Proof.
  revert b. induction l as [|x l IH]; intros b; cbn -[Z.pow]; [done|].
  intros (? & ? & Hl). case_match; [|by repeat split; try lia; auto].
  apply (regions_wf_mono (rg_end x)); [lia|auto].
Qed.

Lemma prot_at_elem b l a p :
  regions_wf b l ->
  prot_at l a = Some p <-> exists r, r ∈ l /\ rg_start r <= a < rg_end r /\ rg_prot r = p.
Proof.
  intros Hwf. unfold prot_at. rewrite fmap_Some. split.
  - intros (r & [Hr Ha]%first_region_Some & ->). naive_solver.
  - intros (r & Hr & Ha & <-). exists r. split; [|done]. by eapply first_region_elem.
Qed.

(* ------------------------------------------------------------------ *)
(** ** The permission check *)

Lemma covered_prot_at l pr a n :
  covered (fun r => rg_prot r .& pr =? pr) l a n <->
  forall b, a <= b < a + n -> exists q, prot_at l b = Some q /\ q .& pr = pr.
Proof.
  unfold covered, prot_at. split; intros H b Hb; destruct (H b Hb) as (x & Hx & Ht).
  - exists (rg_prot x). rewrite Hx. split; [done|lia].
  - apply fmap_Some in Hx as (r & Hr & ->). exists r. split; [done|lia].
Qed.

Lemma check_unfold (P : Prop) x a n :
  urange 64 a -> urange 64 n -> (n <> 0 -> a + n < 2 ^ 64 -> x = true <-> P) ->
  (if negb (nz n) then true else if u64 (a + n) <? a then false else x) = true <->
  (n = 0 \/ a + n < 2 ^ 64 /\ P).
Proof.
  unfold urange, nz. intros Ha Hn Hx. destruct (n =? 0) eqn:E0; cbn.
  { split; [lia|done]. }
  destruct (u64 (a + n) <? a) eqn:E.
  - split; [done|]. intros [?|[Hlt _]]; [lia|].
    rewrite uwrap_small in E by (unfold urange; lia). lia.
  - assert (Hlt : a + n < 2 ^ 64).
    { destruct (decide (a + n < 2 ^ 64)); [done|]. exfalso.
      replace (u64 (a + n)) with (a + n - 2 ^ 64) in E; [lia|].
      unfold uwrap. apply (Z.mod_unique _ _ 1); lia. }
    rewrite Hx by lia. split; [by right|]. intros [?|[_ ?]]; [lia|done].
Qed.

Lemma rsd_as_ok_iff s a n pr :
  as_inv s -> urange 64 a -> urange 64 n ->
  rsd_as_ok s a n pr = true <->
  (n = 0 \/ a + n < 2 ^ 64 /\
   forall b, a <= b < a + n -> exists q, prot_at (as_reg s) b = Some q /\ q .& pr = pr).
Proof.
  intros [Hwf _] Ha Hn. apply check_unfold; [done..|]. intros _ Hlt.
  rewrite walk_total, covered_prot_at; (done || apply Ha || apply Hn).
Qed.

Lemma rsd_as_mapped_iff s a n :
  as_inv s -> urange 64 a -> urange 64 n ->
  rsd_as_mapped s a n = true <->
  (n = 0 \/ a + n < 2 ^ 64 /\
   forall b, a <= b < a + n -> is_Some (prot_at (as_reg s) b)).
Proof.
  intros [Hwf _] Ha Hn. apply check_unfold; [done..|]. intros _ Hlt.
  rewrite walk_total; [|done|apply Ha|apply Hn|done].
  unfold covered, prot_at. setoid_rewrite fmap_is_Some. unfold is_Some. naive_solver.
Qed.

(* ------------------------------------------------------------------ *)
(** ** The in-line check of compiled code *)

Lemma hit_sound_check s need h a n :
  as_inv s -> hit_sound (as_reg s) need h -> urange 64 a -> 0 < n <= 8 ->
  u64 (a - hit_lo h) < hit_lim h -> rsd_as_ok s a n need = true.
Proof.
  intros Hinv Hh Ha Hn Hlt. pose proof Hinv as [Hwf _].
  destruct Hh as [H0|(r & Hr & Hs & H8 & Hl & Hp)].
  { rewrite H0 in Hlt. pose proof (uwrap_range 64 (a - hit_lo h) ltac:(lia)). unfold urange in *. lia. }
  pose proof (regions_wf_elem _ _ _ Hwf Hr). unfold urange in Ha.
  assert (Hge : hit_lo h <= a /\ a + 8 <= rg_end r) by zdm.
  apply rsd_as_ok_iff; [done|unfold urange; lia..|]. right. split; [lia|].
  intros b Hb. exists (rg_prot r). split; [|done]. eapply prot_at_elem; [done|].
  exists r. repeat split; (done || lia).
Qed.

Lemma hit_check_ok s a n :
  as_inv s -> urange 64 a -> 0 < n <= 8 ->
  (hit_check (as_rd s) a = true -> rsd_as_ok s a n RSD_PROT_R = true) /\
  (hit_check (as_wr s) a = true -> rsd_as_ok s a n RSD_PROT_W = true).
Proof.
  intros Hinv Ha Hn. pose proof Hinv as (_ & [R1 R2] & [W1 W2]).
  unfold hit_check. rewrite !orb_true_iff, !Z.ltb_lt.
  split; intros [?|?]; [by eapply (hit_sound_check s _ _ a n Hinv R1)|by eapply (hit_sound_check s _ _ a n Hinv R2)
    |by eapply (hit_sound_check s _ _ a n Hinv W1)|by eapply (hit_sound_check s _ _ a n Hinv W2)].
Qed.

Lemma note_hit_sound l need h r :
  hits_sound l need h -> r ∈ l -> rg_prot r .& need = need ->
  8 <= rg_end r - rg_start r -> hits_sound l need (note_hit h (rg_start r) (rg_end r - rg_start r)).
Proof.
  intros [H1 H2] Hr Hp H8. unfold note_hit. case_match; [done|].
  split; cbn; [|done]. right. exists r. repeat split; cbn; (done || lia).
Qed.

Lemma rsd_as_note_reg s a pr : as_reg (rsd_as_note s a pr) = as_reg s.
Proof. unfold rsd_as_note. repeat case_match; done. Qed.

(** A property of hit caches that noting a region keeps, a note keeps. *)
Lemma note_preserves (P : Z -> rsd_as_hit * rsd_as_hit -> Prop) s a pr :
  regions_wf 0 (as_reg s) ->
  (forall need h r, P need h -> r ∈ as_reg s -> rg_prot r .& need = need ->
     8 <= rg_end r - rg_start r -> P need (note_hit h (rg_start r) (rg_end r - rg_start r))) ->
  P RSD_PROT_R (as_rd s) -> P RSD_PROT_W (as_wr s) ->
  P RSD_PROT_R (as_rd (rsd_as_note s a pr)) /\ P RSD_PROT_W (as_wr (rsd_as_note s a pr)).
Proof.
  intros Hwf HP HR HW. unfold rsd_as_note. rewrite as_find_first.
  destruct (first_region _ _) as [r|] eqn:E; [|done].
  apply first_region_Some in E as [Hr _]. pose proof (regions_wf_elem _ _ _ Hwf Hr) as Hb.
  rewrite (uwrap_small _ (_ - _)) by (unfold urange; lia).
  destruct (_ =? pr) eqn:Ep; [cbn|done]. apply Z.eqb_eq in Ep.
  destruct (_ <? 8) eqn:E8; [done|].
  destruct (pr =? RSD_PROT_R) eqn:E1; [apply Z.eqb_eq in E1|
  destruct (pr =? RSD_PROT_W) eqn:E2; [apply Z.eqb_eq in E2|done]]; subst pr; cbn.
  - split; [|done]. apply HP; (done || lia).
  - split; [done|]. apply HP; (done || lia).
Qed.

Lemma as_inv_note s a pr : as_inv s -> as_inv (rsd_as_note s a pr).
Proof.
  intros (Hwf & HR & HW). unfold as_inv. rewrite rsd_as_note_reg. split; [done|].
  apply (note_preserves (hits_sound (as_reg s))); try done.
  intros. by apply note_hit_sound.
Qed.

Lemma note_hit_noted l need h r :
  hits_noted l need h -> r ∈ l -> rg_prot r .& need = need -> 8 <= rg_end r - rg_start r ->
  hits_noted l need (note_hit h (rg_start r) (rg_end r - rg_start r)).
Proof.
  intros [H1 H2] Hr Hp H8. unfold note_hit. case_match; [done|].
  split; cbn; [|done]. right. by exists r.
Qed.

Lemma hits_noted_sound l need h : hits_noted l need h -> hits_sound l need h.
Proof.
  intros [H1 H2]; split; [destruct H1 as [->|(r & ? & ? & ? & ->)]
    |destruct H2 as [->|(r & ? & ? & ? & ->)]]; try (by left); right; by exists r.
Qed.

Lemma note_all_noted ns s :
  regions_wf 0 (as_reg s) -> hits_noted (as_reg s) RSD_PROT_R (as_rd s) ->
  hits_noted (as_reg s) RSD_PROT_W (as_wr s) ->
  as_reg (note_all s ns) = as_reg s /\
  hits_noted (as_reg s) RSD_PROT_R (as_rd (note_all s ns)) /\
  hits_noted (as_reg s) RSD_PROT_W (as_wr (note_all s ns)).
Proof.
  revert s. induction ns as [|[a pr] ns IH]; intros s Hwf HR HW; [done|]. cbn.
  destruct (note_preserves (hits_noted (as_reg s)) s a pr Hwf) as [HR' HW']; [|done..|].
  { intros. by apply note_hit_noted. }
  rewrite <- (rsd_as_note_reg s a pr) in Hwf, HR', HW' |- *. by apply IH.
Qed.

(** The newest hit is the region itself, unless it starts at 0. *)
Lemma note_hit_head b l need h r :
  regions_wf b l -> r ∈ l -> rg_start r <> 0 -> hits_noted l need h ->
  (note_hit h (rg_start r) (rg_end r - rg_start r)).1 = Hit (rg_start r) (rg_end r - rg_start r - 7).
Proof.
  intros Hwf Hr Hz [H1 _]. unfold note_hit. destruct (hit_lo h.1 =? _) eqn:E; [|done].
  apply Z.eqb_eq in E. destruct H1 as [H1|(q & Hq & _ & H8 & H1)]; rewrite H1 in E |- *; cbn in E; [lia|].
  pose proof (regions_wf_elem _ _ _ Hwf Hq). pose proof (regions_wf_elem _ _ _ Hwf Hr).
  assert (Hi : first_region l (rg_start r) = Some q) by (eapply first_region_elem; [done..|lia]).
  rewrite (first_region_elem _ _ _ _ Hwf Hr) in Hi by lia. by simplify_eq.
Qed.

(** Once a region is noted, an access of eight bytes inside it needs no call. *)
Lemma note_hit_checks b l need h r a :
  regions_wf b l -> r ∈ l -> rg_start r <> 0 -> hits_noted l need h ->
  rg_start r <= a -> a + 8 <= rg_end r ->
  hit_check (note_hit h (rg_start r) (rg_end r - rg_start r)) a = true.
Proof.
  intros Hwf Hr Hz Hh Ha He. unfold hit_check.
  rewrite (note_hit_head b l need h r) by done. cbn.
  pose proof (regions_wf_elem _ _ _ Hwf Hr). pose proof (uwrap_range 64 a).
  rewrite (proj2 (Z.ltb_lt _ _)); [done|]. zdm.
Qed.

Lemma note_checks s a c r :
  regions_wf 0 (as_reg s) -> hits_noted (as_reg s) RSD_PROT_R (as_rd s) ->
  hits_noted (as_reg s) RSD_PROT_W (as_wr s) ->
  first_region (as_reg s) c = Some r -> rg_start r <> 0 -> rg_start r <= a -> a + 8 <= rg_end r ->
  (rg_prot r .& RSD_PROT_R = RSD_PROT_R ->
   hit_check (as_rd (rsd_as_note s c RSD_PROT_R)) a = true) /\
  (rg_prot r .& RSD_PROT_W = RSD_PROT_W ->
   hit_check (as_wr (rsd_as_note s c RSD_PROT_W)) a = true).
Proof.
  intros Hwf HR HW Hc Hz Ha He. pose proof (first_region_Some _ _ _ Hc) as [Hr _].
  pose proof (regions_wf_elem _ _ _ Hwf Hr). unfold rsd_as_note.
  rewrite !as_find_first, Hc. rewrite !(uwrap_small _ (_ - _)) by (unfold urange; lia).
  split; intros ->; cbn [negb Z.eqb Pos.eqb RSD_PROT_R RSD_PROT_W];
    rewrite (proj2 (Z.ltb_ge _ _)) by lia; by eapply note_hit_checks.
Qed.

(* ------------------------------------------------------------------ *)
(** ** Changing the table *)

(** Every byte the table tracks exists in host memory. *)
Definition tracked_mapped (s : rsd_as) (m : gmap Z Z) : Prop :=
  forall b, is_Some (prot_at (as_reg s) b) -> is_Some (m !! b).

Lemma hit_check_none a : hit_check no_hits a = false.
Proof.
  unfold hit_check; cbn. pose proof (uwrap_range 64 (a - 0) ltac:(lia)). unfold urange in *. lia.
Qed.

Lemma disjoint_from_prot st en l b :
  st < en -> regions_wf b l -> (forall x, st <= x < en -> prot_at l x = None) ->
  disjoint_from st en l.
Proof.
  intros Hse Hwf Hn r Hr. pose proof (regions_wf_elem _ _ _ Hwf Hr).
  destruct (decide (rg_end r <= st \/ en <= rg_start r)) as [|Hx]; [done|]. exfalso.
  assert (Hs : prot_at l (Z.max st (rg_start r)) = Some (rg_prot r)).
  { eapply prot_at_elem; [done|]. exists r. repeat split; (done || lia). }
  rewrite Hn in Hs by lia. done.
Qed.

Lemma prot_at_insert_shadowed b st en pr l r a :
  regions_wf b l -> first_region l a = Some r -> rg_start r < st ->
  prot_at (insert_region (Region st en pr) l) a = Some (rg_prot r).
Proof.
  revert b. induction l as [|x l IH]; intros b; cbn; [done|]. intros (? & ? & Hl).
  destruct (in_region a x) eqn:Ex.
  - intros [= ->] ?. apply in_region_true in Ex.
    rewrite (proj2 (Z.ltb_lt _ _)) by lia. rewrite prot_at_cons, decide_True; done.
  - intros Hf ?. pose proof (first_region_Some _ _ _ Hf) as [Hr ?].
    pose proof (regions_wf_elem _ _ _ Hl Hr). rewrite (proj2 (Z.ltb_lt _ _)) by lia.
    rewrite prot_at_cons, decide_False; [by eapply IH|]. rewrite <- in_region_true. congruence.
Qed.

Section with_host.
Context `{HostOSOk}.

Lemma round_down_spec x : urange 64 x -> round_down x = x - x mod host_page.
Proof.
  intros Hx. destruct host_page_pow2 as (k & Hk & Hp). unfold round_down. rewrite Hp.
  replace (2 ^ k - 1) with (Z.ones k) by (rewrite Z.ones_equiv; lia).
  transitivity (Z.ldiff x (Z.ones k)).
  - bitwise i. rewrite Z.ldiff_spec. destruct (decide (i < 64)).
    + by rewrite bool_decide_true.
    + by rewrite (urange_testbit_high 64 x) by (done || lia).
  - rewrite Z.ldiff_ones_r, Z.shiftl_mul_pow2, Z.shiftr_div_pow2 by lia.
    pose proof (Z.div_mod x (2 ^ k)). lia.
Qed.

Lemma host_page_pos : 0 < host_page <= 2 ^ 30.
Proof.
  destruct host_page_pow2 as (k & Hk & ->). split; [lia|]. apply Z.pow_le_mono_r; lia.
Qed.

(** Rounding down and up to pages, as [rsd_as_map] and [rsd_as_unmap] do. *)
Lemma round_page x : urange 64 x -> x - host_page < round_down x <= x /\ round_down x mod host_page = 0.
Proof.
  intros Hx. rewrite round_down_spec by done. pose proof host_page_pos.
  pose proof (Z.mod_pos_bound x host_page). split; [lia|].
  replace (x - x mod host_page) with ((x / host_page) * host_page).
  - apply Z.mod_mul. lia.
  - pose proof (Z.div_mod x host_page). lia.
Qed.

Lemma as_inv_insert w s st en pr s' :
  regions_wf 0 (as_reg s) -> 0 <= st < en -> en < 2 ^ 64 -> disjoint_from st en (as_reg s) ->
  as_insert w s st en pr = Some s' -> as_inv s'.
Proof.
  intros Hwf Hs He Hd. unfold as_insert. case_match; [done|]. intros [= <-].
  split; [by apply insert_region_wf|]. split; apply hits_sound_none.
Qed.

Lemma as_insert_reg w s st en pr s' :
  as_insert w s st en pr = Some s' -> as_reg s' = insert_region (Region st en pr) (as_reg s).
Proof. unfold as_insert. case_match; [done|]. by intros [= <-]. Qed.

Lemma rsd_as_protect_effect w s at_ len pr s' :
  as_inv s -> urange 64 at_ -> 0 < len -> at_ + len < 2 ^ 64 ->
  rsd_as_protect w s at_ len pr = (0, s') ->
  as_inv s' /\
  (forall b, prot_at (as_reg s') b =
     (fun p => if decide (at_ <= b < at_ + len) then pr else p) <$> prot_at (as_reg s) b) /\
  (forall a, hit_check (as_rd s') a = false /\ hit_check (as_wr s') a = false).
Proof.
  intros [Hwf _] Ha Hlen Hlt. unfold rsd_as_protect, urange in *.
  rewrite (uwrap_small _ (at_ + len)) by (unfold urange; lia).
  destruct (nz len) eqn:E; cbn; [|unfold nz in E; lia].
  destruct (h_alloc _ _); [|done]. cbn. intros [= <-]. cbn. split; [|split].
  - split; [apply regions_wf_protect; (done || lia)|]. split; apply hits_sound_none.
  - intros b. apply prot_at_protect. lia.
  - intros a. split; apply hit_check_none.
Qed.

Lemma rsd_as_unmap_ok w s at_ len s' w' :
  rsd_as_unmap w s at_ len = (0, s', w') ->
  let lo := round_down at_ in
  let hi := round_down (u64 (at_ + len + host_page - 1)) in
  h_munmap (w_host w) (w_mem w) lo (u64 (hi - lo)) = (true, (w_host w', w_mem w')) /\
  as_reg s' = drop_contained lo hi (as_reg s) /\ as_rd s' = no_hits /\ as_wr s' = no_hits.
Proof.
  unfold rsd_as_unmap. destruct (h_munmap _ _ _ _) as [[] [h m]]; cbn; [|done].
  by intros [= <- <-].
Qed.

(** The two page roundings of an interval that does not wrap. *)
Lemma round_interval at_ len :
  urange 64 at_ -> 0 < len -> at_ + len + host_page - 1 < 2 ^ 64 ->
  let lo := round_down at_ in
  let hi := round_down (u64 (at_ + len + host_page - 1)) in
  u64 (hi - lo) = hi - lo /\ 0 <= lo <= at_ /\ at_ + len <= hi < 2 ^ 64 /\
  at_ - lo < host_page /\ hi - (at_ + len) < host_page.
Proof.
  intros Ha Hl Hlt lo hi. pose proof host_page_pos as [Hp _]. unfold urange in Ha.
  assert (Hr : urange 64 (at_ + len + host_page - 1)) by (unfold urange; lia).
  pose proof (uwrap_small _ _ Hr) as Hu.
  pose proof (round_page at_ Ha) as [HA _]. pose proof (round_page _ Hr) as [HB _].
  pose proof (round_down_spec at_ Ha). pose proof (Z.mod_pos_bound at_ host_page Hp).
  subst lo hi. rewrite Hu in *.
  pose proof (Z.mod_le at_ host_page (proj1 Ha) Hp).
  repeat split; try lia. apply uwrap_small. unfold urange. lia.
Qed.

(** Both ends are page boundaries, and so the length is a number of pages. *)
Lemma round_interval_pages at_ len :
  urange 64 at_ -> 0 < len -> at_ + len + host_page - 1 < 2 ^ 64 ->
  let lo := round_down at_ in
  let hi := round_down (u64 (at_ + len + host_page - 1)) in
  lo mod host_page = 0 /\ hi mod host_page = 0 /\ (hi - lo) mod host_page = 0.
Proof.
  intros Ha Hl Hlt lo hi. pose proof host_page_pos as [Hp _]. unfold urange in Ha.
  assert (Hr : urange 64 (at_ + len + host_page - 1)) by (unfold urange; lia).
  pose proof (round_page at_ Ha) as [_ HA]. pose proof (round_page _ Hr) as [_ HB].
  subst lo hi. rewrite (uwrap_small _ _ Hr) in *. repeat split; [done..|].
  rewrite Zminus_mod, HA, HB. done.
Qed.

(** What [rsd_as_unmap] does to the host and to the table, where it succeeds:
    the pages [[lo, hi)] that meet the interval go, and nothing else. *)
Definition unmap_outcome (w : world) (s : rsd_as) (at_ len : Z) (s' : rsd_as) (w' : world)
    (lo hi : Z) : Prop :=
  lo mod host_page = 0 /\ lo <= at_ < lo + host_page /\
  hi mod host_page = 0 /\ hi - host_page < at_ + len <= hi /\
  as_inv s' /\
  (forall b, lo <= b < hi -> w_mem w' !! b = None) /\
  (forall b, ~ lo <= b < hi -> w_mem w' !! b = w_mem w !! b) /\
  (forall b, prot_at (as_reg s') b =
     (first_region (as_reg s) b ≫= fun r =>
        if decide (lo <= rg_start r /\ rg_end r <= hi) then None else Some (rg_prot r))) /\
  (forall a, hit_check (as_rd s') a = false /\ hit_check (as_wr s') a = false).

Lemma rsd_as_unmap_effect w s at_ len s' w' :
  as_inv s -> urange 64 at_ -> 0 < len -> at_ + len + host_page - 1 < 2 ^ 64 ->
  rsd_as_unmap w s at_ len = (0, s', w') ->
  exists lo hi, unmap_outcome w s at_ len s' w' lo hi.
Proof.
  intros [Hwf _] Ha Hl Hlt [Hm (Hr & Hrd & Hwr)]%rsd_as_unmap_ok.
  pose proof (round_interval at_ len Ha Hl Hlt) as (Hu & ? & ? & ? & ?).
  pose proof (round_interval_pages at_ len Ha Hl Hlt) as (Hplo & Hphi & Hpl).
  rewrite Hu in Hm. apply (h_munmap_ok _ _ _ _ _ _ Hplo Hpl) in Hm as [Hm Hm'].
  clear Hpl. exists (round_down at_), (round_down (u64 (at_ + len + host_page - 1))).
  split; [done|split; [lia|split; [done|split; [lia|]]]].
  split; [|split; [|split; [|split]]].
  - split; [rewrite Hr; by apply regions_wf_drop|]. rewrite Hrd, Hwr.
    split; apply hits_sound_none.
  - intros b Hb. apply Hm. lia.
  - intros b Hb. apply Hm'. lia.
  - intros b. rewrite Hr.
    assert (Hwf' := regions_wf_drop (round_down at_)
      (round_down (u64 (at_ + len + host_page - 1))) _ _ Hwf).
    destruct (first_region (as_reg s) b) as [r|] eqn:E; cbn.
    + apply first_region_Some in E as [Hel Hin]. case_decide as Hc.
      * apply eq_None_not_Some. intros [p Hp].
        apply (prot_at_elem _ _ _ _ Hwf') in Hp as (r' & [Hr' Hn]%drop_contained_elem & Hin' & _).
        assert (first_region (as_reg s) b = Some r) by (by eapply first_region_elem).
        assert (first_region (as_reg s) b = Some r') by (by eapply first_region_elem).
        by simplify_eq.
      * apply (prot_at_elem _ _ _ _ Hwf'). exists r. by rewrite drop_contained_elem.
    + apply eq_None_not_Some. intros [p Hp].
      apply (prot_at_elem _ _ _ _ Hwf') in Hp as (r' & [Hr' _]%drop_contained_elem & Hin' & _).
      pose proof (first_region_None _ _ _ E Hr') as Hf.
      rewrite (proj2 (in_region_true b r') Hin') in Hf. done.
  - intros a. rewrite Hrd, Hwr. split; apply hit_check_none.
Qed.

Lemma try_mmap_addr w want len fixed p w' :
  try_mmap w want len fixed = (Some p, w') ->
  0 < p /\ p + len < 2 ^ 64 /\ p mod host_page = 0 /\ (fixed = true -> p = want).
Proof.
  unfold try_mmap. destruct (h_mmap _ _ _ _ _) as [p' [h m]] eqn:E.
  intros [= -> <-]. by apply h_mmap_addr in E.
Qed.

Lemma try_mmap_ok w want len fixed p w' :
  len mod host_page = 0 ->
  try_mmap w want len fixed = (Some p, w') ->
  (fixed = false -> forall b, p <= b < p + len -> w_mem w !! b = None) /\
  (forall b, p <= b < p + len -> w_mem w' !! b = Some 0) /\
  (forall b, ~ p <= b < p + len -> w_mem w' !! b = w_mem w !! b).
Proof.
  intros Hlen. unfold try_mmap. destruct (h_mmap _ _ _ _ _) as [p' [h m]] eqn:E.
  intros [= -> <-]. by apply h_mmap_ok in E.
Qed.

Lemma try_mmap_fail w want len fixed w' :
  try_mmap w want len fixed = (None, w') -> w_mem w' = w_mem w.
Proof.
  unfold try_mmap. destruct (h_mmap _ _ _ _ _) as [p' [h m]] eqn:E.
  intros [= -> <-]. by eapply h_mmap_fail.
Qed.

(** What a successful [rsd_as_map] did: one mapping of [map_len] zero bytes
    at [base], of which the first [size] are recorded as a region.  The
    mapping is longer than the region when the preferred address was refused. *)
Definition map_outcome (w : world) (s : rsd_as) (at_ len pr : Z) (fixed : bool)
    (p : Z) (s' : rsd_as) (w' : world) (base size map_len : Z) : Prop :=
  as_insert w' s base (base + size) pr = Some s' /\
  0 < base /\ len <= size <= map_len /\ base + map_len < 2 ^ 64 /\
  base <= p /\ p + len <= base + size /\
  (at_ <> 0 -> fixed = true ->
     p = at_ /\ base = round_down at_ /\ map_len = size /\ base + size < at_ + len + host_page) /\
  (at_ = 0 \/ fixed = false -> forall b, base <= b < base + map_len -> w_mem w !! b = None) /\
  (forall b, base <= b < base + map_len -> w_mem w' !! b = Some 0) /\
  (forall b, ~ base <= b < base + map_len -> w_mem w' !! b = w_mem w !! b).

Lemma rsd_as_map_inv w s at_ len pr fixed p s' w' :
  urange 64 at_ -> 0 < len -> at_ + len + host_page - 1 < 2 ^ 64 ->
  rsd_as_map w s at_ len pr fixed = (p, s', w') -> p <> 0 ->
  exists base size map_len, map_outcome w s at_ len pr fixed p s' w' base size map_len.
Proof.
  intros Ha Hl Hlt Hmap Hp. pose proof host_page_pos as [Hhp _].
  pose proof (round_interval at_ len Ha Hl Hlt) as (Hu & ? & ? & ? & ?).
  pose proof (round_interval 0 len ltac:(done) Hl ltac:(unfold urange in Ha; lia))
    as (Hu0 & ? & ? & ? & ?).
  pose proof (round_interval_pages at_ len Ha Hl Hlt) as (Hplo & Hphi & Hpl).
  pose proof (round_interval_pages 0 len ltac:(done) Hl ltac:(unfold urange in Ha; lia))
    as (_ & Hphi0 & _).
  unfold rsd_as_map in Hmap. cbv zeta in Hmap.
  destruct (nz len) eqn:En; cbn [negb] in Hmap; [|by simplify_eq].
  assert (Htail : forall w0 w1 base size map_len want fx,
    try_mmap w0 want map_len fx = (Some base, w1) -> w_mem w0 = w_mem w ->
    map_len mod host_page = 0 ->
    len <= size <= map_len ->
    (at_ <> 0 -> fixed = true -> fx = true /\ want = round_down at_ /\ map_len = size /\
       round_down at_ + size < at_ + len + host_page) ->
    (at_ = 0 \/ fixed = false -> fx = false) ->
    (base = round_down at_ -> at_ <> 0 -> at_ + len <= base + size) ->
    match as_insert w1 s base (u64 (base + size)) pr with
    | Some s0 => (if nz at_ && (base =? (if nz at_ then round_down at_ else 0)) then at_ else base, s0, w1)
    | None => let '(_, (h, m)) := h_munmap (w_host w1) (w_mem w1) base size in
              (0, as_forget s, World h m)
    end = (p, s', w') ->
    map_outcome w s at_ len pr fixed p s' w' base size map_len).
  { intros w0 w1 base size ml want fx Ht Hw Hl0 Hsz Hfx Hnf Hal Hm.
    destruct (try_mmap_addr _ _ _ _ _ _ Ht) as (? & ? & _ & Hwant).
    apply (try_mmap_ok _ _ _ _ _ _ Hl0) in Ht as (Hfree & Hin & Hout).
    clear Hl0 Hplo Hphi Hpl Hphi0.
    rewrite (uwrap_small _ (base + size)) in Hm by (unfold urange; lia).
    destruct (as_insert _ _ _ _ _) as [s0|] eqn:Ei.
    2:{ destruct (h_munmap _ _ _ _) as [? [? ?]]. simplify_eq. }
    unfold map_outcome. unfold nz in Hm. rewrite <- Hw. clear Hmap.
    assert (Hfix : at_ <> 0 -> fixed = true -> base = round_down at_).
    { intros Hz Hf. destruct (Hfx Hz Hf) as (-> & -> & _). auto. }
    destruct (at_ =? 0) eqn:E0; cbn in Hm; [|destruct (base =? round_down at_) eqn:Eb];
      simplify_eq; (split; [done|]); repeat split; try lia; auto.
    all: intros; try (exfalso; lia); auto.
    all: specialize (Hfix ltac:(lia) ltac:(done)); destruct Hfx as (? & ? & ? & ?); (done || lia). }
  unfold nz in *. destruct (at_ =? 0) eqn:E0; cbn [negb andb] in *.
  - apply Z.eqb_eq in E0. subst at_. rewrite !Z.add_0_l in *.
    destruct (try_mmap w 0 _ false) as [[base|] w1] eqn:E1; [|simplify_eq].
    eexists base, _, _. eapply Htail; [exact E1|done|..|exact Hmap]; (lia || done || auto).
  - rewrite Hu in Hmap. destruct (try_mmap w _ _ fixed) as [[base|] w1] eqn:E1.
    + eexists base, _, _. eapply Htail; [exact E1|done|..|exact Hmap]; try (intros; lia); auto.
      * intros _ Hf. repeat split; (done || lia).
      * intros [?|?]; (lia || done).
    + destruct fixed; cbn in Hmap; [simplify_eq|].
      destruct (try_mmap w1 0 _ false) as [[base|] w2] eqn:E2; [|simplify_eq].
      eexists base, _, _. apply try_mmap_fail in E1.
      eapply Htail; [exact E2|done|..|exact Hmap]; (lia || done || auto).
Qed.

Lemma rsd_as_map_effect w s at_ len pr fixed p s' w' :
  as_inv s -> tracked_mapped s (w_mem w) ->
  urange 64 at_ -> 0 < len -> at_ + len + host_page - 1 < 2 ^ 64 ->
  (at_ <> 0 -> fixed = true -> forall b, at_ - host_page < b < at_ + len + host_page ->
     prot_at (as_reg s) b = None) ->
  rsd_as_map w s at_ len pr fixed = (p, s', w') -> p <> 0 ->
  as_inv s' /\ tracked_mapped s' (w_mem w') /\
  (fixed = true -> at_ <> 0 -> p = at_) /\
  (forall b, p <= b < p + len -> prot_at (as_reg s') b = Some pr /\ w_mem w' !! b = Some 0) /\
  (forall b, is_Some (prot_at (as_reg s) b) -> prot_at (as_reg s') b = prot_at (as_reg s) b) /\
  (forall b, is_Some (prot_at (as_reg s) b) -> w_mem w' !! b = w_mem w !! b).
Proof.
  intros [Hwf Hh] Htm Ha Hl Hlt Hfree Hmap Hp.
  destruct (rsd_as_map_inv _ _ _ _ _ _ _ _ _ Ha Hl Hlt Hmap Hp)
    as (base & size & ml & Hi & ? & ? & ? & ? & ? & Hfix & Hnew & Hin & Hout).
  pose proof (round_interval at_ len Ha Hl Hlt) as (Hu & ? & ? & ? & ?).
  assert (Hnone : forall b, base <= b < base + ml -> prot_at (as_reg s) b = None).
  { intros b Hb. destruct (decide (at_ <> 0 /\ fixed = true)) as [[Hz Hf]|Hnf].
    - destruct (Hfix Hz Hf) as (? & ? & -> & ?). apply Hfree; [done..|lia].
    - apply eq_None_not_Some. intros Hs. apply Htm in Hs as [v Hv].
      rewrite Hnew in Hv by (done || (destruct fixed; [left; lia|by right])). done. }
  assert (Hd : disjoint_from base (base + size) (as_reg s)).
  { apply (disjoint_from_prot _ _ _ 0); [lia|done|]. intros x Hx. apply Hnone. lia. }
  assert (Hat : forall b, prot_at (as_reg s') b =
            if decide (base <= b < base + size) then Some pr else prot_at (as_reg s) b).
  { intros b. rewrite (as_insert_reg _ _ _ _ _ _ Hi). apply prot_at_insert; [done|lia]. }
  split; [by eapply as_inv_insert; [..|exact Hi]; (done || lia)|]. repeat split.
  - intros b. rewrite Hat. case_decide; [rewrite Hin by lia; eauto|]. intros Hs.
    destruct (decide (base <= b < base + ml)); [rewrite Hin by lia; eauto|].
    rewrite Hout by lia. auto.
  - intros Hf Hz. by destruct (Hfix Hz Hf).
  - rewrite Hat, decide_True; [done|lia].
  - rewrite Hin; [done|lia].
  - intros b Hs. rewrite Hat. case_decide; [|done]. rewrite Hnone in Hs by lia. by destruct Hs.
  - intros b Hs. apply Hout. intros Hb. rewrite Hnone in Hs by lia. by destruct Hs.
Qed.

(** A fixed mapping stays clear of the recorded regions, rounding included. *)
Definition fixed_free (s : rsd_as) (at_ len : Z) (fixed : bool) : Prop :=
  at_ <> 0 -> fixed = true -> forall b, at_ - host_page < b < at_ + len + host_page ->
    prot_at (as_reg s) b = None.

Lemma tracked_outside s m m' lo hi :
  tracked_mapped s m -> (forall b, lo <= b < hi -> prot_at (as_reg s) b = None) ->
  (forall b, ~ lo <= b < hi -> m' !! b = m !! b) -> tracked_mapped s m'.
Proof.
  intros Ht Hn Ho b Hb. destruct (decide (lo <= b < hi)) as [Hi|Hi].
  - rewrite Hn in Hb by done. by destruct Hb.
  - rewrite Ho by done. auto.
Qed.

Lemma munmap_tracked s w base size h m :
  tracked_mapped s (w_mem w) -> (forall b, base <= b < base + size -> prot_at (as_reg s) b = None) ->
  base mod host_page = 0 -> size mod host_page = 0 -> forall ok, h_munmap (w_host w) (w_mem w) base size = (ok, (h, m)) -> tracked_mapped s m.
Proof.
  intros Ht Hn Hb Hsz [] Hm.
  - apply h_munmap_ok in Hm as [_ Ho]; [|done..]. by eapply tracked_outside.
  - apply h_munmap_fail in Hm as ->. done.
Qed.

(** A mapping the table could not record is undone. *)
Lemma rsd_as_map_failed w s at_ len pr fixed s' w' :
  tracked_mapped s (w_mem w) -> urange 64 at_ -> 0 < len -> at_ + len + host_page - 1 < 2 ^ 64 ->
  fixed_free s at_ len fixed ->
  rsd_as_map w s at_ len pr fixed = (0, s', w') ->
  (s' = s \/ s' = as_forget s) /\ tracked_mapped s (w_mem w').
Proof.
  intros Htm Ha Hl Hlt Hfree Hmap. pose proof host_page_pos as [Hhp _].
  pose proof (round_interval at_ len Ha Hl Hlt) as (Hu & ? & ? & ? & ?).
  pose proof (round_interval 0 len ltac:(done) Hl ltac:(unfold urange in Ha; lia))
    as (Hu0 & ? & ? & ? & ?).
  pose proof (round_interval_pages at_ len Ha Hl Hlt) as (Hplo & Hphi & Hpl).
  pose proof (round_interval_pages 0 len ltac:(done) Hl ltac:(unfold urange in Ha; lia))
    as (_ & Hphi0 & _).
  assert (Hfresh : forall w0 w1 base size ml want fx,
    try_mmap w0 want ml fx = (Some base, w1) -> w_mem w0 = w_mem w -> 0 <= size <= ml ->
    ml mod host_page = 0 -> size mod host_page = 0 ->
    (fx = true -> forall b, want <= b < want + ml -> prot_at (as_reg s) b = None) ->
    match as_insert w1 s base (u64 (base + size)) pr with
    | Some s0 => (if nz at_ && (base =? (if nz at_ then round_down at_ else 0)) then at_ else base, s0, w1)
    | None => let '(_, (h, m)) := h_munmap (w_host w1) (w_mem w1) base size in
              (0, as_forget s, World h m)
    end = (0, s', w') ->
    (s' = s \/ s' = as_forget s) /\ tracked_mapped s (w_mem w')).
  { intros w0 w1 base size ml want fx Ht Hw Hsz Hpm Hps Hfx Hm.
    destruct (try_mmap_addr _ _ _ _ _ _ Ht) as (? & ? & Hpb & Hwant).
    apply (try_mmap_ok _ _ _ _ _ _ Hpm) in Ht as (Hnew & Hin & Hout). rewrite Hw in *.
    assert (Hnone : forall b, base <= b < base + ml -> prot_at (as_reg s) b = None).
    { intros b Hb. destruct fx; [apply Hfx; [done|rewrite <- Hwant by done; lia]|].
      apply eq_None_not_Some. intros [v Hv]%Htm. rewrite Hnew in Hv by done. done. }
    assert (Ht1 : tracked_mapped s (w_mem w1)) by by eapply tracked_outside.
    destruct (as_insert _ _ _ _ _) as [s0|] eqn:Ei.
    - exfalso. unfold nz in Hm. destruct (at_ =? 0) eqn:E0; cbn in Hm; [simplify_eq; lia|].
      destruct (base =? _) in Hm; simplify_eq; lia.
    - destruct (h_munmap _ _ _ _) as [ok [h m]] eqn:Eu. simplify_eq. split; [by right|].
      eapply munmap_tracked; [exact Ht1|..|exact Eu]; [|done..]. intros b Hb. apply Hnone. lia. }
  unfold rsd_as_map in Hmap. cbv zeta in Hmap. unfold nz in *.
  destruct (len =? 0) eqn:El; [lia|]. cbn [negb] in Hmap.
  destruct (at_ =? 0) eqn:E0; cbn [negb andb] in *.
  - apply Z.eqb_eq in E0. subst at_. rewrite !Z.add_0_l in *.
    destruct (try_mmap w 0 _ false) as [[base|] w1] eqn:E1.
    + eapply Hfresh; [exact E1|done|..|exact Hmap]; (lia || done).
    + simplify_eq. split; [by left|]. by rewrite (try_mmap_fail _ _ _ _ _ E1).
  - rewrite Hu in Hmap. destruct (try_mmap w _ _ fixed) as [[base|] w1] eqn:E1.
    + eapply Hfresh; [exact E1|done|..|exact Hmap]; [lia|done..|].
      intros -> b Hb. apply Hfree; [lia|done|lia].
    + apply try_mmap_fail in E1 as Hw1.
      destruct fixed; cbn in Hmap; [simplify_eq; split; [by left|by rewrite Hw1]|].
      destruct (try_mmap w1 0 _ false) as [[base|] w2] eqn:E2.
      * eapply Hfresh; [exact E2|done|..|exact Hmap]; (lia || done).
      * simplify_eq. split; [by left|]. by rewrite (try_mmap_fail _ _ _ _ _ E2), Hw1.
Qed.

(** C39.  A mapping placed over part of a lower-starting region does not change the
    permissions recorded there. *)
Theorem rsd_as_map_fixed_shadowed w s at_ len pr p s' w' r b :
  as_inv s -> urange 64 at_ -> 0 < len -> at_ + len + host_page - 1 < 2 ^ 64 ->
  at_ <> 0 -> first_region (as_reg s) b = Some r -> rg_start r < round_down at_ ->
  rsd_as_map w s at_ len pr true = (p, s', w') -> p <> 0 ->
  prot_at (as_reg s') b = Some (rg_prot r).
Proof.
  intros [Hwf _] Ha Hl Hlt Hz Hr Hst Hmap Hp.
  destruct (rsd_as_map_inv _ _ _ _ _ _ _ _ _ Ha Hl Hlt Hmap Hp)
    as (base & size & ml & Hi & _ & _ & _ & _ & _ & Hfix & _).
  destruct (Hfix Hz eq_refl) as (_ & -> & _).
  rewrite (as_insert_reg _ _ _ _ _ _ Hi). by eapply prot_at_insert_shadowed.
Qed.

(** C40.  Unmapping part of a region leaves all of it recorded. *)
Theorem rsd_as_unmap_partial w s at_ len s' w' r b pr :
  as_inv s -> urange 64 at_ -> 0 < len -> at_ + len + host_page - 1 < 2 ^ 64 ->
  rsd_as_unmap w s at_ len = (0, s', w') ->
  r ∈ as_reg s -> rg_prot r .& pr = pr -> at_ <= b < at_ + len -> rg_start r <= b < rg_end r ->
  (rg_start r + host_page <= at_ \/ at_ + len + host_page <= rg_end r) ->
  rsd_as_ok s' b 1 pr = true /\ w_mem w' !! b = None.
Proof.
  intros Hinv Ha Hl Hlt Hun Hr Hp Hb Hrb Hpart.
  destruct (rsd_as_unmap_effect _ _ _ _ _ _ Hinv Ha Hl Hlt Hun)
    as (lo & hi & _ & Hlo & _ & Hhi & Hinv' & Hgone & _ & Hat & _).
  pose proof host_page_pos as [Hhp _].
  destruct Hinv as [Hwf _]. pose proof (regions_wf_elem _ _ _ Hwf Hr). unfold urange in Ha.
  split; [|apply Hgone; lia]. apply rsd_as_ok_iff; [done|unfold urange; lia..|].
  right. split; [lia|]. intros x Hx. assert (x = b) as -> by lia.
  exists (rg_prot r). split; [|done]. rewrite Hat, (first_region_elem _ _ _ _ Hwf Hr Hrb).
  cbn. rewrite decide_False; [done|]. lia.
Qed.

(* ---------------------------------------------------------------- *)
(** ** The module as a transition system *)

(** One call of [as.c] with arguments that do not wrap, where fixed mappings
    are clear of the recorded regions and unmappings split no region.  [as.c]
    checks none of this and the guest's own mmap and munmap need not comply:
    [rsd_as_map_fixed_shadowed] and [rsd_as_unmap_partial] say what such calls
    do. *)
Inductive as_step (w : world) (s : rsd_as) : rsd_as -> world -> Prop :=
| step_map at_ len pr fixed p s' w' :
    urange 64 at_ -> 0 < len -> at_ + len + host_page - 1 < 2 ^ 64 -> fixed_free s at_ len fixed ->
    rsd_as_map w s at_ len pr fixed = (p, s', w') -> as_step w s s' w'
| step_protect at_ len pr ret s' :
    urange 64 at_ -> 0 < len -> at_ + len < 2 ^ 64 ->
    rsd_as_protect w s at_ len pr = (ret, s') -> as_step w s s' w
| step_unmap at_ len ret s' w' :
    urange 64 at_ -> 0 < len -> at_ + len + host_page - 1 < 2 ^ 64 ->
    (forall r, r ∈ as_reg s -> rg_end r <= round_down at_ \/
       round_down (u64 (at_ + len + host_page - 1)) <= rg_start r \/
       round_down at_ <= rg_start r /\ rg_end r <= round_down (u64 (at_ + len + host_page - 1))) ->
    rsd_as_unmap w s at_ len = (ret, s', w') -> as_step w s s' w'
| step_note a pr : as_step w s (rsd_as_note s a pr) w
| step_free s' w' : rsd_as_free w s = (s', w') -> as_step w s s' w'.

Inductive as_reachable : rsd_as -> world -> Prop :=
| reach_init w : as_reachable rsd_as_init w
| reach_step w s s' w' : as_reachable s w -> as_step w s s' w' -> as_reachable s' w'.

Lemma as_inv_forget s : as_inv s -> as_inv (as_forget s).
Proof. intros [Hwf _]. split; [done|]. split; apply hits_sound_none. Qed.

Lemma tracked_map_reg s s' m : as_reg s' = as_reg s -> tracked_mapped s m -> tracked_mapped s' m.
Proof. intros He Ht. unfold tracked_mapped. by rewrite He. Qed.

Lemma tracked_weaken s s' m :
  (forall b, is_Some (prot_at (as_reg s') b) -> is_Some (prot_at (as_reg s) b)) ->
  tracked_mapped s m -> tracked_mapped s' m.
Proof. intros H1 Ht b Hb. auto. Qed.

(** Every byte outside the rounded interval, or of a region wholly inside it. *)
Lemma unmap_tracked w s at_ len s' w' :
  as_inv s -> tracked_mapped s (w_mem w) ->
  urange 64 at_ -> 0 < len -> at_ + len + host_page - 1 < 2 ^ 64 ->
  (forall r, r ∈ as_reg s -> rg_end r <= round_down at_ \/
     round_down (u64 (at_ + len + host_page - 1)) <= rg_start r \/
     round_down at_ <= rg_start r /\ rg_end r <= round_down (u64 (at_ + len + host_page - 1))) ->
  rsd_as_unmap w s at_ len = (0, s', w') -> as_inv s' /\ tracked_mapped s' (w_mem w').
Proof.
  intros [Hwf Hh] Ht Ha Hl Hlt Hex [Hm (Hr & Hrd & Hwr)]%rsd_as_unmap_ok.
  pose proof (round_interval at_ len Ha Hl Hlt) as (Hu & ? & ? & ? & ?).
  pose proof (round_interval_pages at_ len Ha Hl Hlt) as (Hplo & Hphi & Hp).
  set (lo := round_down at_) in *. set (hi := round_down (u64 (at_ + len + host_page - 1))) in *.
  assert (Hwf' : regions_wf 0 (as_reg s')) by (rewrite Hr; by apply regions_wf_drop).
  split; [split; [done|rewrite Hrd, Hwr; split; apply hits_sound_none]|].
  rewrite Hu in Hm. apply (h_munmap_ok _ _ _ _ _ _ Hplo Hp) in Hm as [_ Hkeep]. clear Hp.
  intros b [p Hp]. apply (prot_at_elem _ _ _ _ Hwf') in Hp as (r & Hrs & Hb & _).
  rewrite Hr in Hrs. apply drop_contained_elem in Hrs as [Hel Hnc].
  assert (Hs : is_Some (prot_at (as_reg s) b)).
  { exists (rg_prot r). eapply prot_at_elem; [done|eauto]. }
  rewrite Hkeep; [auto|]. destruct (Hex r Hel) as [?|[?|?]]; [lia|lia|done].
Qed.

Lemma as_step_inv w s s' w' :
  as_step w s s' w' -> as_inv s -> tracked_mapped s (w_mem w) ->
  as_inv s' /\ tracked_mapped s' (w_mem w').
Proof.
  intros Hs Hi Ht. destruct Hs as [at_ len pr fixed p s' w' Ha Hl Hlt Hf Hm
    |at_ len pr ret s' Ha Hl Hlt Hm|at_ len ret s' w' Ha Hl Hlt Hex Hm|a pr|s' w' Hm].
  - destruct (decide (p = 0)) as [->|Hp].
    + destruct (rsd_as_map_failed _ _ _ _ _ _ _ _ Ht Ha Hl Hlt Hf Hm) as [[-> | ->] Ht']; [done|].
      split; [by apply as_inv_forget|done].
    + destruct (rsd_as_map_effect _ _ _ _ _ _ _ _ _ Hi Ht Ha Hl Hlt Hf Hm Hp) as (? & ? & _). done.
  - destruct (decide (ret = 0)) as [->|Hr].
    + destruct (rsd_as_protect_effect _ _ _ _ _ _ Hi Ha Hl Hlt Hm) as (Hi' & Hp & _).
      split; [done|]. eapply tracked_weaken; [|exact Ht]. intros b. by rewrite Hp, fmap_is_Some.
    + unfold rsd_as_protect in Hm. repeat case_match; simplify_eq; done.
  - destruct (decide (ret = 0)) as [->|Hr]; [by eapply unmap_tracked|].
    unfold rsd_as_unmap in Hm. destruct (h_munmap _ _ _ _) as [[] [h m]] eqn:E; cbn in Hm; [congruence|].
    apply h_munmap_fail in E as ->. injection Hm as <- <- <-. done.
  - split; [by apply as_inv_note|]. eapply tracked_map_reg; [|done]. apply rsd_as_note_reg.
  - injection Hm as <- _. split; [apply as_inv_init|]. by intros b [q Hq].
Qed.

(** C15.  Whatever sequence of calls brings the table of [as.c] about, of mappings
    (fixed ones clear of every recorded region), protection changes,
    unmappings that split no region, notes and frees, none with an interval
    that wraps around: its regions stay sorted, non-empty and disjoint, what
    the hit caches remember stays true of them, and every recorded byte is
    mapped in the host. *)
Theorem as_reachable_inv s w : as_reachable s w -> as_inv s /\ tracked_mapped s (w_mem w).
Proof.
  induction 1 as [w|w s s' w' _ [Hi Ht] Hs]; [|by eapply as_step_inv].
  split; [apply as_inv_init|]. intros b [q Hq]. done.
Qed.

(** C16.  [rsd_as_ok] accepts an access exactly when it does not wrap and the
    region of every byte grants every permission asked for; [rsd_as_mapped]
    exactly when every byte is recorded. *)
Theorem rsd_as_ok_spec s a n pr :
  as_inv s -> urange 64 a -> urange 64 n ->
  (rsd_as_ok s a n pr = true <->
   n = 0 \/ a + n < 2 ^ 64 /\
   forall b, a <= b < a + n -> exists q, prot_at (as_reg s) b = Some q /\ q .& pr = pr) /\
  (rsd_as_mapped s a n = true <->
   n = 0 \/ a + n < 2 ^ 64 /\ forall b, a <= b < a + n -> is_Some (prot_at (as_reg s) b)).
Proof. intros. split; [by apply rsd_as_ok_iff|by apply rsd_as_mapped_iff]. Qed.

(** C23.  [rsd_as_protect] gives exactly the bytes of the interval the new
    permissions, keeps every other byte's, keeps the invariant, and leaves no
    hit for compiled code to go by. *)
Theorem rsd_as_protect_spec w s at_ len pr s' :
  as_inv s -> urange 64 at_ -> 0 < len -> at_ + len < 2 ^ 64 ->
  rsd_as_protect w s at_ len pr = (0, s') ->
  as_inv s' /\
  (forall b, prot_at (as_reg s') b =
     (fun p => if decide (at_ <= b < at_ + len) then pr else p) <$> prot_at (as_reg s) b) /\
  (forall a, hit_check (as_rd s') a = false /\ hit_check (as_wr s') a = false).
Proof. apply rsd_as_protect_effect. Qed.

(** C24.  A successful [rsd_as_map] of an interval that does not wrap around,
    which, if its address is demanded, is clear of every recorded region after
    rounding to pages ([fixed_free]), returns memory recorded with the asked
    permissions and zeroed, at the demanded address, and disturbs neither the
    permissions nor the contents of other regions. *)
Theorem rsd_as_map_spec w s at_ len pr fixed p s' w' :
  as_inv s -> tracked_mapped s (w_mem w) ->
  urange 64 at_ -> 0 < len -> at_ + len + host_page - 1 < 2 ^ 64 ->
  fixed_free s at_ len fixed ->
  rsd_as_map w s at_ len pr fixed = (p, s', w') -> p <> 0 ->
  as_inv s' /\ tracked_mapped s' (w_mem w') /\
  (fixed = true -> at_ <> 0 -> p = at_) /\
  (forall b, p <= b < p + len -> prot_at (as_reg s') b = Some pr /\ w_mem w' !! b = Some 0) /\
  (forall b, is_Some (prot_at (as_reg s) b) -> prot_at (as_reg s') b = prot_at (as_reg s) b) /\
  (forall b, is_Some (prot_at (as_reg s) b) -> w_mem w' !! b = w_mem w !! b).
Proof. apply rsd_as_map_effect. Qed.

(** C26.  A successful [rsd_as_unmap] of an interval that does not wrap around
    takes exactly the pages that meet it away from the host, forgets exactly
    the regions inside those pages (one that only overlaps stays recorded) and
    empties the hit caches. *)
Theorem rsd_as_unmap_spec w s at_ len s' w' :
  as_inv s -> urange 64 at_ -> 0 < len -> at_ + len + host_page - 1 < 2 ^ 64 ->
  rsd_as_unmap w s at_ len = (0, s', w') ->
  exists lo hi, lo mod host_page = 0 /\ lo <= at_ < lo + host_page /\
  hi mod host_page = 0 /\ hi - host_page < at_ + len <= hi /\
  as_inv s' /\
  (forall b, lo <= b < hi -> w_mem w' !! b = None) /\
  (forall b, ~ lo <= b < hi -> w_mem w' !! b = w_mem w !! b) /\
  (forall b, prot_at (as_reg s') b =
     (first_region (as_reg s) b ≫= fun r =>
        if decide (lo <= rg_start r /\ rg_end r <= hi) then None else Some (rg_prot r))) /\
  (forall a, hit_check (as_rd s') a = false /\ hit_check (as_wr s') a = false).
Proof. apply rsd_as_unmap_effect. Qed.
End with_host.

(** C27.  The in-line check of compiled code, after any notes taken in a
    well-formed table whose hit caches were empty: where it passes, the full
    check passes too, for any access of at most eight bytes; and it passes for
    every access of eight bytes inside a region that does not start at 0, once
    that region, granting the permission, has been noted. *)
Theorem hit_check_sound s ns a n :
  regions_wf 0 (as_reg s) -> as_rd s = no_hits -> as_wr s = no_hits ->
  urange 64 a -> 0 < n <= 8 ->
  let s' := note_all s ns in
  as_reg s' = as_reg s /\
  (hit_check (as_rd s') a = true -> rsd_as_ok s' a n RSD_PROT_R = true) /\
  (hit_check (as_wr s') a = true -> rsd_as_ok s' a n RSD_PROT_W = true) /\
  (forall c r, first_region (as_reg s) c = Some r -> rg_start r <> 0 ->
     rg_start r <= a -> a + 8 <= rg_end r ->
     (rg_prot r .& RSD_PROT_R = RSD_PROT_R ->
      hit_check (as_rd (rsd_as_note s' c RSD_PROT_R)) a = true) /\
     (rg_prot r .& RSD_PROT_W = RSD_PROT_W ->
      hit_check (as_wr (rsd_as_note s' c RSD_PROT_W)) a = true)).
Proof.
  intros Hwf Hrd Hwr Ha Hn s'.
  destruct (note_all_noted ns s Hwf) as (He & HR & HW); [rewrite Hrd; by split; left|rewrite Hwr; by split; left|].
  fold s' in He, HR, HW. rewrite <- He in Hwf, HR, HW.
  assert (Hi : as_inv s') by (split; [done|split; by apply hits_noted_sound]).
  split; [done|]. destruct (hit_check_ok s' a n Hi Ha Hn) as [H1 H2].
  split; [done|split; [done|]]. intros c r Hc. rewrite <- He in Hc. by apply note_checks.
Qed.
