(* ===== verification/SampleHost.v ===== *)
(** A concrete host kernel, small enough to evaluate: mappings go above
    everything mapped so far unless a fixed address is asked for.  It satisfies
    the documented behaviour [HostOSOk], so that every theorem stated for an
    arbitrary kernel can be applied to concrete guests. *)
From S2P Require Import Prelude.
From S2P Require Import AddressSpace.

Definition sample_page : Z := 4096.

(** The first page above every mapped byte, and above 64 KiB. *)
Definition fresh_page (m : gmap Z Z) : Z :=
  (map_fold (fun k _ acc => Z.max k acc) 65535 m / sample_page + 1) * sample_page.

Definition sample_mmap (m : gmap Z Z) (want len : Z) (fixed : bool)
    : option Z * (unit * gmap Z Z) :=
  let p := if fixed then want else fresh_page m in
  if (0 <? p) && (p mod sample_page =? 0) && (0 <=? len) && (p + len <? 2 ^ 64)
  then (Some p, (tt, zero_range p len ∪ m)) else (None, (tt, m)).

Definition sample_munmap (m : gmap Z Z) (p len : Z) : bool * (unit * gmap Z Z) :=
  (true, (tt, filter (fun kv => ~ p <= kv.1 < p + len) m)).

#[local] Instance sample_host : HostOS := {|
  host := unit;
  host_page := sample_page;
  h_alloc := fun _ _ => true;
  h_mmap := fun _ => sample_mmap;
  h_munmap := fun _ => sample_munmap;
  h_read := fun _ m _ _ _ => (0, (tt, m));
  h_write := fun _ _ _ _ n => (n, tt);
  h_close := fun _ _ => (0, tt)
|}.

Lemma fresh_page_above m : forall k, is_Some (m !! k) -> k < fresh_page m.
Proof.
  assert (H : 65535 <= map_fold (fun k _ acc => Z.max k acc) 65535 m /\
              forall k, is_Some (m !! k) -> k <= map_fold (fun k _ acc => Z.max k acc) 65535 m).
  { apply (map_fold_weak_ind (fun acc (m : gmap Z Z) =>
      65535 <= acc /\ forall k, is_Some (m !! k) -> k <= acc)).
    - split; [done|]. intros k [? Hk]. by rewrite lookup_empty in Hk.
    - intros i x m' r _ [IH1 IH2]. split; [lia|]. intros k [y Hk].
      destruct (decide (i = k)) as [->|Hn]; [lia|].
      rewrite lookup_insert_ne in Hk by done. specialize (IH2 k ltac:(eauto)). lia. }
  intros k Hk. apply H in Hk. unfold fresh_page, sample_page.
  set (v := map_fold _ _ _) in *. clearbody v. zdm.
Qed.

Lemma fresh_page_pos m : 0 < fresh_page m.
Proof.
  assert (65535 <= map_fold (fun k _ acc => Z.max k acc) 65535 m).
  { apply (map_fold_weak_ind (fun acc (_ : gmap Z Z) => 65535 <= acc)); [done|lia]. }
  unfold fresh_page, sample_page. set (v := map_fold _ _ _) in *. clearbody v. zdm.
Qed.

Lemma sample_mmap_inv m want len fixed p h' m' :
  sample_mmap m want len fixed = (Some p, (h', m')) ->
  p = (if fixed then want else fresh_page m) /\ h' = tt /\ m' = zero_range p len ∪ m /\
  0 < p /\ p + len < 2 ^ 64 /\ p mod sample_page = 0.
Proof.
  unfold sample_mmap. set (q := if fixed then want else fresh_page m). case_match eqn:E; [|done].
  intros [= <- <- <-]. apply andb_true_iff in E as [[[E1 E2]%andb_true_iff _]%andb_true_iff E4].
  apply Z.ltb_lt in E1, E4. apply Z.eqb_eq in E2. done.
Qed.

#[local] Instance sample_host_ok : HostOSOk.
Proof.
  split.
  - exists 12. split; [lia|done].
  - intros h m want len fixed p h' m' (Hp & _ & _ & H1 & H2 & H3)%sample_mmap_inv.
    repeat split; [done..|]. intros ->. exact Hp.
  - intros h m want len fixed p h' m' _ (-> & _ & -> & _)%sample_mmap_inv.
    repeat split.
    + intros -> b Hb. apply eq_None_not_Some. intros Hs%fresh_page_above. lia.
    + intros b Hb. rewrite lookup_union_l'; rewrite lookup_zero_range; rewrite decide_True; (done || eauto).
    + intros b Hb. rewrite lookup_union_r; [done|]. by rewrite lookup_zero_range, decide_False.
  - intros h m want len fixed h' m'. cbn -[fresh_page zero_range]. unfold sample_mmap.
    case_match; [done|]. by intros [= <- <-].
  - intros h m p len h' m' _ _ [= <- <-]. split; intros b Hb; rewrite map_lookup_filter.
    + destruct (m !! b); cbn; [|done]. rewrite option_guard_False; [done|]. cbn. lia.
    + destruct (m !! b) eqn:E; cbn; [|done]. rewrite option_guard_True; [done|]. cbn. lia.
  - by intros h m p len h' m' [=].
Qed.

(* ------------------------------------------------------------------ *)
(** ** A concrete address space *)

Definition sample_w0 : world := World tt ∅.

(** One page mapped read/write. *)
Definition sample_as : rsd_as := As [Region 0x10000 0x11000 3] 16 no_hits no_hits.
Definition sample_w1 : world := World tt (zero_range 0x10000 4096 ∪ ∅).

Lemma sample_map : rsd_as_map sample_w0 rsd_as_init 0 100 3 false = (0x10000, sample_as, sample_w1).
Proof.
  unfold rsd_as_map, try_mmap. cbn -[uwrap round_down zero_range fresh_page].
  change (round_down (u64 (100 + 4095))) with 4096. reflexivity.
Qed.

Lemma sample_reachable : as_reachable sample_as sample_w1.
Proof.
  eapply reach_step; [apply (reach_init sample_w0)|].
  eapply (step_map _ _ 0 100 3 false); [done|lia|done|done|exact sample_map].
Qed.

Lemma sample_inv : as_inv sample_as.
Proof. repeat split; cbn; try lia; by left. Qed.

Lemma sample_tracked : tracked_mapped sample_as (w_mem sample_w1).
Proof.
  intros b [q Hb]. unfold sample_w1; cbn -[zero_range].
  assert (0x10000 <= b < 0x11000).
  { unfold prot_at in Hb. cbn in Hb. destruct (in_region b _) eqn:E; [|done].
    by apply in_region_true in E. }
  rewrite lookup_union_l'; rewrite lookup_zero_range, decide_True; (lia || eauto).
Qed.

Lemma as_reachable_inv_witness : as_reachable sample_as sample_w1 /\ as_inv sample_as.
Proof. split; [exact sample_reachable|]. apply (as_reachable_inv _ _ sample_reachable). Defined.

Lemma rsd_as_ok_spec_witness : as_inv sample_as /\ rsd_as_ok sample_as 0x10ff8 8 RSD_PROT_W = true.
Proof.
  split; [exact sample_inv|].
  apply (proj1 (rsd_as_ok_spec sample_as 0x10ff8 8 RSD_PROT_W sample_inv ltac:(done) ltac:(done))).
  right. split; [done|]. intros b Hb. exists 3. split; [|done]. apply (proj2 (prot_at_elem 0 (as_reg sample_as) b 3 (proj1 sample_inv))).
  exists (Region 0x10000 0x11000 3). cbn. split; [by left|split; [lia|done]].
Defined.

Lemma rsd_as_protect_spec_witness :
  let s' := As [Region 0x10000 0x10800 3; Region 0x10800 0x10900 1; Region 0x10900 0x11000 3] 4
    no_hits no_hits in
  rsd_as_protect sample_w1 sample_as 0x10800 0x100 RSD_PROT_R = (0, s') /\ as_inv s'.
Proof.
  split; [reflexivity|].
  apply (rsd_as_protect_spec sample_w1 sample_as 0x10800 0x100 RSD_PROT_R); [exact sample_inv|done|lia|lia|reflexivity].
Defined.

Lemma rsd_as_map_spec_witness :
  rsd_as_map sample_w0 rsd_as_init 0 100 3 false = (0x10000, sample_as, sample_w1) /\
  prot_at (as_reg sample_as) 0x10000 = Some 3.
Proof.
  split; [exact sample_map|].
  destruct (rsd_as_map_spec sample_w0 rsd_as_init 0 100 3 false 0x10000 sample_as sample_w1)
    as (_ & _ & _ & H & _); [exact as_inv_init|by intros b [? ?]|done|lia|done|done|exact sample_map|done|].
  apply (H 0x10000). lia.
Defined.

Lemma rsd_as_unmap_spec_witness :
  exists s' w', rsd_as_unmap sample_w1 sample_as 0x10000 1 = (0, s', w') /\ as_inv s'.
Proof.
  eexists _, _. split; [reflexivity|].
  edestruct (rsd_as_unmap_spec sample_w1 sample_as 0x10000 1) as (lo & hi & _ & _ & _ & _ & H & _);
    [exact sample_inv|done|lia|done|reflexivity|exact H].
Defined.

Lemma hit_check_sound_witness :
  let s := note_all sample_as [(0x10010, RSD_PROT_W)] in
  hit_check (as_wr s) 0x10ff8 = true /\ rsd_as_ok s 0x10ff8 8 RSD_PROT_W = true /\
  hit_check (as_rd (rsd_as_note s 0x10000 RSD_PROT_R)) 0x10ff8 = true.
Proof.
  intros s.
  destruct (hit_check_sound sample_as [(0x10010, RSD_PROT_W)] 0x10ff8 8) as (_ & _ & H & Hn);
    [exact (proj1 sample_inv)|done|done|done|lia|]. fold s in H, Hn.
  assert (Hc : hit_check (as_wr s) 0x10ff8 = true) by reflexivity.
  split; [exact Hc|split; [exact (H Hc)|]].
  refine (proj1 (Hn 0x10000 (Region 0x10000 0x11000 3) _ _ _ _) _); cbn; (done || lia).
Defined.

(** A region of two pages whose second page is unmapped, or mapped over. *)
Definition sample_as2 : rsd_as := As [Region 0x10000 0x12000 3] 16 no_hits no_hits.
Definition sample_w2 : world := World tt (zero_range 0x10000 0x2000).

Lemma rsd_as_unmap_partial_witness :
  exists s' w', rsd_as_unmap sample_w2 sample_as2 0x11000 1 = (0, s', w') /\
  rsd_as_ok s' 0x11000 1 RSD_PROT_W = true /\ w_mem w' !! 0x11000 = None.
Proof.
  eexists _, _. split; [reflexivity|].
  eapply (rsd_as_unmap_partial sample_w2 sample_as2 0x11000 1 _ _ (Region 0x10000 0x12000 3));
    [repeat split; cbn; try lia; by left|done|lia|done|reflexivity|by left|done|lia|cbn; lia|].
  left. cbn. unfold sample_page. lia.
Defined.

Lemma rsd_as_map_fixed_shadowed_witness :
  exists s' w', rsd_as_map sample_w2 sample_as2 0x11000 1 RSD_PROT_R true = (0x11000, s', w') /\
  prot_at (as_reg s') 0x11000 = Some 3.
Proof.
  eexists _, _. split; [reflexivity|].
  eapply (rsd_as_map_fixed_shadowed sample_w2 sample_as2 0x11000 1 RSD_PROT_R 0x11000 _ _
    (Region 0x10000 0x12000 3));
    [repeat split; cbn; try lia; by left|done|lia|done|done|reflexivity|done|reflexivity|done].
Defined.
