(* ===== verification/Flags.v ===== *)
(** Operand sizes, the arithmetic flags and the conditions ([src/cpu.c]): the
    one definition of what an x86 flag means, shared by the interpreter and by
    the helpers compiled code calls.  Flag functions are pure functions on the
    [flags] word of [rsd_cpu]. *)
From S2P Require Import Prelude.

(* ------------------------------------------------------------------ *)
(** ** Operand sizes *)

Definition trunc_sz (v size : Z) : Z :=
  if size =? 1 then v .& 0xff
  else if size =? 2 then v .& 0xffff
  else if size =? 4 then v .& 0xffffffff
  else u64 v.

(** The result is an [int64_t]. *)
Definition sext (v size : Z) : Z :=
  if size =? 1 then s8 v
  else if size =? 2 then s16 v
  else if size =? 4 then s32 v
  else s64 v.

(* ------------------------------------------------------------------ *)
(** ** Flags *)

Definition F_CF : Z := 1 << 0.
Definition F_PF : Z := 1 << 2.
Definition F_AF : Z := 1 << 4.
Definition F_ZF : Z := 1 << 6.
Definition F_SF : Z := 1 << 7.
Definition F_OF : Z := 1 << 11.

(** [if (b) flags |= f]. *)
Definition setf (f : Z) (b : bool) (fl : Z) : Z := if b then fl .| f else fl.

(** [__builtin_popcount]. *)
Definition popcount (z : Z) : Z :=
  foldr Z.add 0 ((fun i => bz (Z.testbit z (Z.of_nat i))) <$> seq 0 32).

Definition set_pzs (fl res size : Z) : Z :=
  let res := trunc_sz res size in
  let fl := fl .& .~ (F_ZF .| F_SF .| F_PF) in
  let fl := setf F_ZF (negb (nz res)) fl in
  let fl := setf F_SF (nz (res >> (size * 8 - 1))) fl in
  setf F_PF (negb (nz (popcount (res .& 0xff) .& 1))) fl.

Definition flags_logic (fl res size : Z) : Z :=
  set_pzs (fl .& .~ (F_CF .| F_OF)) res size.

Definition sign_of (size : Z) : Z := 1 << (size * 8 - 1).

Definition flags_add (fl a b res size : Z) : Z :=
  let a := trunc_sz a size in
  let b := trunc_sz b size in
  let r := trunc_sz res size in
  let sign := sign_of size in
  let fl := fl .& .~ (F_CF .| F_OF .| F_AF) in
  let fl := setf F_CF (r <? a) fl in
  let fl := setf F_OF (nz (.~ (a .^ b) .& (a .^ r) .& sign)) fl in
  let fl := setf F_AF (nz ((a .^ b .^ r) .& 0x10)) fl in
  set_pzs fl r size.

Definition flags_sub (fl a b res size : Z) : Z :=
  let a := trunc_sz a size in
  let b := trunc_sz b size in
  let r := trunc_sz res size in
  let sign := sign_of size in
  let fl := fl .& .~ (F_CF .| F_OF .| F_AF) in
  let fl := setf F_CF (a <? b) fl in
  let fl := setf F_OF (nz ((a .^ b) .& (a .^ r) .& sign)) fl in
  let fl := setf F_AF (nz ((a .^ b .^ r) .& 0x10)) fl in
  set_pzs fl r size.

Definition flags_adc (fl a b cf res size : Z) : Z :=
  let a := trunc_sz a size in
  let b := trunc_sz b size in
  let r := trunc_sz res size in
  let sign := sign_of size in
  let fl := fl .& .~ (F_CF .| F_OF .| F_AF) in
  let fl := setf F_CF ((r <? a) || (nz cf && (r =? a))) fl in
  let fl := setf F_OF (nz (.~ (a .^ b) .& (a .^ r) .& sign)) fl in
  let fl := setf F_AF (nz ((a .^ b .^ r) .& 0x10)) fl in
  set_pzs fl r size.

Definition flags_sbb (fl a b cf res size : Z) : Z :=
  let a := trunc_sz a size in
  let b := trunc_sz b size in
  let r := trunc_sz res size in
  let sign := sign_of size in
  let fl := fl .& .~ (F_CF .| F_OF .| F_AF) in
  let fl := setf F_CF ((a <? b) || (nz cf && (a =? b))) fl in
  let fl := setf F_OF (nz ((a .^ b) .& (a .^ r) .& sign)) fl in
  let fl := setf F_AF (nz ((a .^ b .^ r) .& 0x10)) fl in
  set_pzs fl r size.

(** [rsd_i_flags_inc] and [rsd_i_flags_dec]: CF is left alone. *)
Definition rsd_i_flags_inc (fl a r size : Z) : Z :=
  let cf := fl .& F_CF in
  (flags_add fl a 1 r size .& .~ F_CF) .| cf.

Definition rsd_i_flags_dec (fl a r size : Z) : Z :=
  let cf := fl .& F_CF in
  (flags_sub fl a 1 r size .& .~ F_CF) .| cf.

Definition cond (fl cc : Z) : bool :=
  let cf := nz (fl .& F_CF) in
  let zf := nz (fl .& F_ZF) in
  let sf := nz (fl .& F_SF) in
  let ovf := nz (fl .& F_OF) in
  let pf := nz (fl .& F_PF) in
  let odd := nz (cc .& 1) in
  let k := cc >> 1 in
  if k =? 0 then (if odd then negb ovf else ovf)
  else if k =? 1 then (if odd then negb cf else cf)
  else if k =? 2 then (if odd then negb zf else zf)
  else if k =? 3 then (if odd then negb (cf || zf) else cf || zf)
  else if k =? 4 then (if odd then negb sf else sf)
  else if k =? 5 then (if odd then negb pf else pf)
  else if k =? 6 then (if odd then eqb sf ovf else negb (eqb sf ovf))
  else (if odd then negb zf && eqb sf ovf else zf || negb (eqb sf ovf)).

(** [rsd_i_shift]: the result, and the flags. *)
Definition rsd_i_shift (fl a cnt size ext : Z) : Z * Z :=
  let w := size * 8 in
  let ta := trunc_sz a size in
  let '(r, cf, ovf) :=
    if (ext =? 4) || (ext =? 6) then
      let r := u64 (ta << cnt) in
      let cf := if cnt <=? w then (ta >> (w - cnt)) .& 1 else 0 in
      (r, cf, ((trunc_sz r size >> (w - 1)) .& 1) .^ cf)
    else if ext =? 5 then
      (ta >> cnt, (if cnt <=? w then (ta >> (cnt - 1)) .& 1 else 0), (ta >> (w - 1)) .& 1)
    else
      let sa := sext a size in
      let sh := if w <=? cnt then w - 1 else cnt in
      let cb := if w <=? cnt - 1 then w - 1 else cnt - 1 in
      (u64 (sa >> sh), u64 (sa >> cb) .& 1, 0) in
  let res := trunc_sz r size in
  let fl := fl .& .~ (F_CF .| F_OF) in
  let fl := setf F_CF (nz cf) fl in
  let fl := setf F_OF (nz ovf) fl in
  (res, set_pzs fl res size).

(* ------------------------------------------------------------------ *)
(** ** Specification *)

Definition opsize (size : Z) : Prop := size = 1 \/ size = 2 \/ size = 4 \/ size = 8.

Lemma opsize_u64 size : opsize size -> u64 size = size.
Proof. by intros [->|[->|[->| ->]]]. Qed.

Definition CF (fl : Z) : bool := Z.testbit fl 0.
Definition PF (fl : Z) : bool := Z.testbit fl 2.
Definition AF (fl : Z) : bool := Z.testbit fl 4.
Definition ZF (fl : Z) : bool := Z.testbit fl 6.
Definition SF (fl : Z) : bool := Z.testbit fl 7.
Definition OF (fl : Z) : bool := Z.testbit fl 11.

Definition FL_ALL : Z := F_CF .| F_PF .| F_AF .| F_ZF .| F_SF .| F_OF.

(** Even number of ones among the low eight bits. *)
Definition even_parity (z : Z) : bool :=
  negb (foldr xorb false ((fun i => Z.testbit z (Z.of_nat i)) <$> seq 0 8)).

(* ------------------------------------------------------------------ *)
(** ** Lemmas on sizes *)

Lemma trunc_sz_uwrap v size : opsize size -> trunc_sz v size = uwrap (size * 8) v.
Proof.
  intros [->|[->|[->| ->]]]; cbn -[uwrap Z.land]; [..|done].
  - change 255 with (Z.ones 8). by rewrite land_ones_uwrap.
  - change 65535 with (Z.ones 16). by rewrite land_ones_uwrap.
  - change 4294967295 with (Z.ones 32). by rewrite land_ones_uwrap.
Qed.

Lemma sext_swrap v size : opsize size -> sext v size = swrap (size * 8) v.
Proof. by intros [->|[->|[->| ->]]]. Qed.

Lemma opsize_width size : opsize size -> 8 <= size * 8 <= 64.
Proof. unfold opsize. lia. Qed.

Lemma trunc_sz_range v size : opsize size -> urange (size * 8) (trunc_sz v size).
Proof. intros H. rewrite trunc_sz_uwrap by done. apply uwrap_range. pose proof (opsize_width _ H). lia. Qed.

Lemma trunc_sz_idemp v size : opsize size -> trunc_sz (trunc_sz v size) size = trunc_sz v size.
Proof.
  intros H. rewrite !trunc_sz_uwrap by done. pose proof (opsize_width _ H). apply uwrap_uwrap. lia.
Qed.

Lemma testbit_top w x : 0 < w -> urange w x -> Z.testbit x (w - 1) = (2 ^ (w - 1) <=? x).
Proof.
  intros Hw [H0 H1]. assert (Hp : 2 ^ w = 2 * 2 ^ (w - 1)).
  { rewrite <- Z.pow_succ_r by lia. f_equal. lia. }
  rewrite Z.testbit_eqb by lia. destruct (2 ^ (w - 1) <=? x) eqn:E.
  - replace (x / 2 ^ (w - 1)) with 1; [done|]. apply (Z.div_unique _ _ 1 (x - 2 ^ (w - 1))); lia.
  - rewrite Z.div_small by lia. done.
Qed.

Lemma swrap_top w x :
  0 < w -> urange w x -> swrap w x = if Z.testbit x (w - 1) then x - 2 ^ w else x.
Proof.
  intros Hw Hx. rewrite testbit_top by done. unfold swrap.
  rewrite (Z.mod_small x) by apply Hx. destruct (x <? _) eqn:E1, (_ <=? x) eqn:E2; (done || lia).
Qed.

(* ------------------------------------------------------------------ *)
(** ** Lemmas on single flags *)

Lemma nz_land_bit x k : 0 <= k -> nz (x .& (1 << k)) = Z.testbit x k.
Proof.
  intros Hk. unfold nz. rewrite Z.shiftl_1_l. destruct (Z.testbit x k) eqn:E.
  - destruct (_ =? 0) eqn:E0; [|done]. apply Z.eqb_eq in E0.
    apply (f_equal (fun z => Z.testbit z k)) in E0.
    rewrite Z.land_spec, Z.pow2_bits_true, E, Z.bits_0 in E0 by done. done.
  - replace (x .& 2 ^ k) with 0; [done|]. apply Z.bits_inj'. intros i Hi.
    rewrite Z.land_spec, Z.pow2_bits_eqb, Z.bits_0 by done.
    destruct (Z.eqb_spec k i) as [<-|]; [by rewrite E|by rewrite andb_false_r].
Qed.

Lemma cond_flags fl :
  nz (fl .& F_CF) = CF fl /\ nz (fl .& F_PF) = PF fl /\ nz (fl .& F_AF) = AF fl /\
  nz (fl .& F_ZF) = ZF fl /\ nz (fl .& F_SF) = SF fl /\ nz (fl .& F_OF) = OF fl.
Proof. repeat split; by apply nz_land_bit. Qed.

Lemma testbit_setf f b fl i : Z.testbit (setf f b fl) i = Z.testbit fl i || b && Z.testbit f i.
Proof. destruct b; cbn; [apply Z.lor_spec|by rewrite orb_false_r]. Qed.

Lemma testbit_clear fl m i :
  0 <= i -> Z.testbit (fl .& .~ m) i = Z.testbit fl i && negb (Z.testbit m i).
Proof. intros Hi. by rewrite Z.land_spec, Z.lnot_spec. Qed.

(** Read one flag through a sequence of [setf] and clearings. *)
Ltac flag_bits :=
  unfold CF, PF, AF, ZF, SF, OF;
  repeat first [rewrite testbit_setf | rewrite testbit_clear by lia];
  repeat match goal with
  | |- context [Z.testbit ?m ?k] =>
      match m with
      | F_CF => idtac | F_PF => idtac | F_AF => idtac | F_ZF => idtac | F_SF => idtac | F_OF => idtac
      | Z.lor _ _ => idtac
      end;
      let v := eval vm_compute in (Z.testbit m k) in change (Z.testbit m k) with v
  end;
  cbn [negb];
  rewrite ?andb_false_r, ?andb_true_r, ?orb_false_r, ?orb_true_r, ?orb_false_l.

Lemma nz_top w x : 0 < w -> urange w x -> nz (x >> (w - 1)) = Z.testbit x (w - 1).
Proof.
  intros Hw Hx. rewrite testbit_top by done. unfold nz. rewrite Z.shiftr_div_pow2 by lia.
  destruct Hx as [H0 H1]. assert (0 < 2 ^ (w - 1)) by (apply Z.pow_pos_nonneg; lia).
  destruct (_ <=? x) eqn:E.
  - assert (1 <= x / 2 ^ (w - 1)) by (apply Z.div_le_lower_bound; lia). lia.
  - rewrite Z.div_small by lia. done.
Qed.

Lemma parity_popcount x : urange 8 x -> nz (popcount x .& 1) = negb (even_parity x).
Proof.
  intros Hx. assert (Hall : forallb (fun n => eqb (nz (popcount (Z.of_nat n) .& 1)) (negb (even_parity (Z.of_nat n))))
                      (seq 0 256) = true) by by vm_compute.
  rewrite forallb_forall in Hall. specialize (Hall (Z.to_nat x)).
  rewrite Z2Nat.id in Hall by apply Hx. apply eqb_prop, Hall, in_seq.
  unfold urange in Hx. change (2 ^ 8) with 256 in Hx. lia.
Qed.

Lemma even_parity_mod x : even_parity (x .& 0xff) = even_parity x.
Proof.
  unfold even_parity. do 2 f_equal. apply list_fmap_ext. intros i n Hn.
  apply lookup_seq in Hn as [-> Hi]. change 255 with (Z.ones 8).
  rewrite Z.land_spec, Z.ones_spec_low by lia. apply andb_true_r.
Qed.

Section pzs.
Context (fl res size : Z) (Hs : opsize size).

Lemma set_pzs_unfold :
  set_pzs fl res size =
  setf F_PF (even_parity (trunc_sz res size))
    (setf F_SF (Z.testbit (trunc_sz res size) (size * 8 - 1))
       (setf F_ZF (trunc_sz res size =? 0) (fl .& .~ (F_ZF .| F_SF .| F_PF)))).
Proof.
  unfold set_pzs. pose proof (opsize_width _ Hs). f_equal; [|f_equal; [|f_equal]].
  - rewrite parity_popcount, even_parity_mod, negb_involutive; [done|].
    change 255 with (Z.ones 8). rewrite land_ones_uwrap by lia. apply uwrap_range. lia.
  - apply nz_top; [lia|]. by apply trunc_sz_range.
  - apply negb_involutive.
Qed.

Lemma set_pzs_flags :
  ZF (set_pzs fl res size) = (trunc_sz res size =? 0) /\
  SF (set_pzs fl res size) = Z.testbit (trunc_sz res size) (size * 8 - 1) /\
  PF (set_pzs fl res size) = even_parity (trunc_sz res size) /\
  CF (set_pzs fl res size) = CF fl /\ AF (set_pzs fl res size) = AF fl /\
  OF (set_pzs fl res size) = OF fl.
Proof. rewrite set_pzs_unfold. repeat split; flag_bits; done. Qed.
End pzs.

(* ------------------------------------------------------------------ *)
(** ** Carries, borrows and signed overflow *)

Definition in_signed (w z : Z) : bool := (- 2 ^ (w - 1) <=? z) && (z <? 2 ^ (w - 1)).

Section overflow.
Context (w a b c r : Z) (Hw : 8 <= w) (Ha : urange w a) (Hb : urange w b) (Hc : c = 0 \/ c = 1).

Local Lemma half : 2 ^ w = 2 * 2 ^ (w - 1) /\ 0 < 2 ^ (w - 1).
Proof.
  split; [|apply Z.pow_pos_nonneg; lia]. rewrite <- Z.pow_succ_r by lia. f_equal. lia.
Qed.

Lemma add_overflow :
  r = uwrap w (a + b + c) ->
  nz (.~ (a .^ b) .& (a .^ r) .& (1 << (w - 1))) =
  negb (in_signed w (swrap w a + swrap w b + c)).
Proof.
  intros ->. rewrite nz_land_bit by lia. pose proof half as [Hp Hpos].
  assert (Hr : uwrap w (a + b + c) = a + b + c \/ uwrap w (a + b + c) = a + b + c - 2 ^ w).
  { unfold uwrap, urange in *. destruct (decide (a + b + c < 2 ^ w)); [left|right].
    - apply Z.mod_small. lia. - symmetry. apply (Z.mod_unique _ _ 1); lia. }
  pose proof (uwrap_range w (a + b + c) ltac:(lia)) as Hrr.
  rewrite Z.land_spec, Z.lnot_spec, !Z.lxor_spec by lia.
  rewrite !swrap_top, !testbit_top by (done || lia). unfold in_signed, urange in *.
  generalize dependent (uwrap w (a + b + c)). intros r' Hr Hrr.
  rewrite Hp in *. set (P := 2 ^ (w - 1)) in *. clearbody P.
  destruct (P <=? a) eqn:?, (P <=? b) eqn:?, (P <=? r') eqn:?; cbn; lia.
Qed.

Lemma sub_overflow :
  r = uwrap w (a - b - c) ->
  nz ((a .^ b) .& (a .^ r) .& (1 << (w - 1))) =
  negb (in_signed w (swrap w a - swrap w b - c)).
Proof.
  intros ->. rewrite nz_land_bit by lia. pose proof half as [Hp Hpos].
  assert (Hr : uwrap w (a - b - c) = a - b - c \/ uwrap w (a - b - c) = a - b - c + 2 ^ w).
  { unfold uwrap, urange in *. destruct (decide (0 <= a - b - c)); [left|right].
    - apply Z.mod_small. lia. - symmetry. apply (Z.mod_unique _ _ (-1)); lia. }
  pose proof (uwrap_range w (a - b - c) ltac:(lia)) as Hrr.
  rewrite Z.land_spec, !Z.lxor_spec by lia.
  rewrite !swrap_top, !testbit_top by (done || lia). unfold in_signed, urange in *.
  generalize dependent (uwrap w (a - b - c)). intros r' Hr Hrr.
  rewrite Hp in *. set (P := 2 ^ (w - 1)) in *. clearbody P.
  destruct (P <=? a) eqn:?, (P <=? b) eqn:?, (P <=? r') eqn:?; cbn; lia.
Qed.

Lemma add_carry : r = uwrap w (a + b + c) ->
  (r <? a) || (nz c && (r =? a)) = (2 ^ w <=? a + b + c).
Proof.
  intros ->. unfold uwrap, urange, nz in *. destruct (decide (a + b + c < 2 ^ w)).
  - rewrite Z.mod_small by lia. destruct Hc; subst c; cbn; lia.
  - replace ((a + b + c) mod 2 ^ w) with (a + b + c - 2 ^ w)
      by (apply (Z.mod_unique _ _ 1); lia). destruct Hc; subst c; cbn; lia.
Qed.

Lemma sub_borrow : (a <? b) || (nz c && (a =? b)) = (a - b - c <? 0).
Proof. unfold nz. destruct Hc; subst c; cbn; lia. Qed.

Local Lemma bit4 x : Z.testbit x 4 = (16 <=? x mod 32).
Proof. rewrite Z.testbit_eqb by lia. change (2 ^ 4) with 16. zdm. Qed.

Local Lemma mod32 x : uwrap w x mod 32 = x mod 32.
Proof. apply (uwrap_le 5 w x). lia. Qed.

Lemma add_nibble : r = uwrap w (a + b + c) ->
  nz ((a .^ b .^ r) .& 0x10) = (16 <=? a mod 16 + b mod 16 + c).
Proof.
  intros ->. change 16 with (1 << 4) at 1. rewrite nz_land_bit, !Z.lxor_spec, !bit4, mod32 by lia.
  clear Ha Hb. destruct (16 <=? a mod 32) eqn:?, (16 <=? b mod 32) eqn:?, (16 <=? (a + b + c) mod 32) eqn:?; cbn; zdm.
Qed.

Lemma sub_nibble : r = uwrap w (a - b - c) ->
  nz ((a .^ b .^ r) .& 0x10) = (a mod 16 - b mod 16 - c <? 0).
Proof.
  intros ->. change 16 with (1 << 4) at 1. rewrite nz_land_bit, !Z.lxor_spec, !bit4, mod32 by lia.
  clear Ha Hb. destruct (16 <=? a mod 32) eqn:?, (16 <=? b mod 32) eqn:?, (16 <=? (a - b - c) mod 32) eqn:?; cbn; zdm.
Qed.
End overflow.

(* ------------------------------------------------------------------ *)
(** ** The arithmetic flags *)

(** Every arithmetic flag of [fl'], and the other bits kept from [fl]. *)
Definition arith_flags (size fl fl' : Z) (carry ovf half : bool) (res : Z) : Prop :=
  CF fl' = carry /\ OF fl' = ovf /\ AF fl' = half /\
  ZF fl' = (uwrap (size * 8) res =? 0) /\ SF fl' = (swrap (size * 8) res <? 0) /\
  PF fl' = even_parity res /\ fl' .& .~ FL_ALL = fl .& .~ FL_ALL.

Lemma frame_setf f b fl : f .& .~ FL_ALL = 0 -> setf f b fl .& .~ FL_ALL = fl .& .~ FL_ALL.
Proof.
  intros Hf. destruct b; cbn; [|done]. by rewrite Z.land_lor_distr_l, Hf, Z.lor_0_r.
Qed.

Lemma frame_clear m fl : m .& .~ FL_ALL = 0 -> (fl .& .~ m) .& .~ FL_ALL = fl .& .~ FL_ALL.
Proof.
  intros Hm. bitwise i. apply (f_equal (fun z => Z.testbit z i)) in Hm.
  rewrite Z.land_spec, Z.lnot_spec, Z.bits_0 in Hm by done.
  destruct (Z.testbit fl i), (Z.testbit m i), (Z.testbit FL_ALL i); done.
Qed.

Lemma even_parity_uwrap w z : 8 <= w -> even_parity (uwrap w z) = even_parity z.
Proof.
  intros Hw. rewrite <- (even_parity_mod z), <- (even_parity_mod (uwrap w z)). f_equal.
  change 255 with (Z.ones 8). rewrite !land_ones_uwrap by lia. apply uwrap_le. lia.
Qed.

Lemma swrap_uwrap w z : 0 <= w -> swrap w (uwrap w z) = swrap w z.
Proof. intros Hw. unfold swrap, uwrap. by rewrite Z.mod_mod by (apply Z.pow_nonzero; lia). Qed.

Lemma top_swrap w z : 0 < w -> Z.testbit (uwrap w z) (w - 1) = (swrap w z <? 0).
Proof.
  intros Hw. pose proof (uwrap_range w z ltac:(lia)) as Hr.
  rewrite <- (swrap_uwrap w z) by lia. rewrite swrap_top by done. unfold urange in Hr.
  destruct (Z.testbit _ _); lia.
Qed.

Lemma uwrap_add_l w x y z : uwrap w (uwrap w x + uwrap w y + z) = uwrap w (x + y + z).
Proof.
  unfold uwrap. rewrite <- Z.add_assoc, Zplus_mod_idemp_l, (Z.add_comm x), <- Z.add_assoc,
    Zplus_mod_idemp_l. f_equal. lia.
Qed.

Lemma uwrap_sub_l w x y z : uwrap w (uwrap w x - uwrap w y - z) = uwrap w (x - y - z).
Proof.
  unfold uwrap. rewrite Zminus_mod, (Zminus_mod (_ mod _)), !Zmod_mod.
  rewrite <- (Zminus_mod x y), <- Zminus_mod. done.
Qed.

Section arith.
Context (fl a b c size : Z) (Hs : opsize size) (Hc : c = 0 \/ c = 1).
#[local] Abbreviation w := (size * 8).
#[local] Abbreviation x := (trunc_sz a size).
#[local] Abbreviation y := (trunc_sz b size).

Local Lemma pzs_arith fl0 res :
  let fl' := set_pzs fl0 (trunc_sz res size) size in
  CF fl' = CF fl0 /\ OF fl' = OF fl0 /\ AF fl' = AF fl0 /\
  ZF fl' = (uwrap w res =? 0) /\ SF fl' = (swrap w res <? 0) /\ PF fl' = even_parity res /\
  fl' .& .~ FL_ALL = fl0 .& .~ FL_ALL.
Proof.
  intros fl'. pose proof (opsize_width _ Hs).
  destruct (set_pzs_flags fl0 (trunc_sz res size) size Hs) as (Hz & Hsf & Hp & Hcf & Haf & Hof).
  rewrite trunc_sz_idemp in Hz, Hsf, Hp by done. subst fl'.
  rewrite Hz, Hsf, Hp, Hcf, Haf, Hof, trunc_sz_uwrap, top_swrap, even_parity_uwrap by (done || lia).
  repeat split. rewrite set_pzs_unfold, !frame_setf, frame_clear; done.
Qed.

Local Lemma trunc_u64 z : trunc_sz (u64 z) size = uwrap w z.
Proof. rewrite trunc_sz_uwrap by done. pose proof (opsize_width _ Hs). apply uwrap_le. lia. Qed.

(** What the four arithmetic flag routines share. *)
Local Lemma arith_core carry ovf half res :
  arith_flags size fl
    (set_pzs (setf F_AF half (setf F_OF ovf (setf F_CF carry
               (fl .& .~ (F_CF .| F_OF .| F_AF))))) (trunc_sz (u64 res) size) size)
    carry ovf half res.
Proof.
  pose proof (opsize_width _ Hs) as Hw. unfold arith_flags.
  destruct (pzs_arith (setf F_AF half (setf F_OF ovf (setf F_CF carry
               (fl .& .~ (F_CF .| F_OF .| F_AF))))) (u64 res))
    as (-> & -> & -> & -> & -> & -> & ->).
  rewrite !frame_setf, frame_clear by done.
  rewrite (uwrap_le w 64), even_parity_uwrap by lia.
  rewrite <- (swrap_uwrap w (u64 _)), (uwrap_le w 64), (swrap_uwrap w) by lia.
  repeat split; flag_bits; done.
Qed.

Local Lemma sext_trunc v : swrap w (trunc_sz v size) = sext v size.
Proof.
  pose proof (opsize_width _ Hs).
  by rewrite trunc_sz_uwrap, sext_swrap, swrap_uwrap by (done || lia).
Qed.

Lemma flags_adc_spec :
  arith_flags size fl (flags_adc fl a b c (u64 (a + b + c)) size)
    (2 ^ w <=? x + y + c) (negb (in_signed w (sext a size + sext b size + c)))
    (16 <=? x mod 16 + y mod 16 + c) (a + b + c).
Proof.
  pose proof (opsize_width _ Hs) as [Hw _].
  assert (Hx : urange w x) by by apply trunc_sz_range.
  assert (Hy : urange w y) by by apply trunc_sz_range.
  assert (Hr : trunc_sz (u64 (a + b + c)) size = uwrap w (x + y + c)).
  { rewrite trunc_u64, !trunc_sz_uwrap by done. symmetry. apply uwrap_add_l. }
  rewrite <- !sext_trunc, <- (add_overflow w x y c _ Hw Hx Hy Hc Hr),
    <- (add_carry w x y c _ Hw Hx Hy Hc Hr), <- (add_nibble w x y c _ Hw Hx Hy Hc Hr).
  apply arith_core.
Qed.

Lemma flags_sbb_spec :
  arith_flags size fl (flags_sbb fl a b c (u64 (a - b - c)) size)
    (x - y - c <? 0) (negb (in_signed w (sext a size - sext b size - c)))
    (x mod 16 - y mod 16 - c <? 0) (a - b - c).
Proof.
  pose proof (opsize_width _ Hs) as [Hw _].
  assert (Hx : urange w x) by by apply trunc_sz_range.
  assert (Hy : urange w y) by by apply trunc_sz_range.
  assert (Hr : trunc_sz (u64 (a - b - c)) size = uwrap w (x - y - c)).
  { rewrite trunc_u64, !trunc_sz_uwrap by done. symmetry. apply uwrap_sub_l. }
  rewrite <- !sext_trunc, <- (sub_overflow w x y c _ Hw Hx Hy Hc Hr),
    <- (sub_borrow x y c Hc), <- (sub_nibble w x y c _ Hw Hx Hy Hc Hr).
  apply arith_core.
Qed.
End arith.

Lemma flags_add_adc fl a b r size : flags_add fl a b r size = flags_adc fl a b 0 r size.
Proof. unfold flags_add, flags_adc. cbn [nz negb Z.eqb andb]. by rewrite orb_false_r. Qed.

Lemma flags_sub_sbb fl a b r size : flags_sub fl a b r size = flags_sbb fl a b 0 r size.
Proof. unfold flags_sub, flags_sbb. cbn [nz negb Z.eqb andb]. by rewrite orb_false_r. Qed.

Lemma flags_add_arith fl a b size :
  opsize size ->
  arith_flags size fl (flags_add fl a b (u64 (a + b)) size)
    (2 ^ (size * 8) <=? trunc_sz a size + trunc_sz b size)
    (negb (in_signed (size * 8) (sext a size + sext b size)))
    (16 <=? trunc_sz a size mod 16 + trunc_sz b size mod 16) (a + b).
Proof.
  intros Hs. pose proof (flags_adc_spec fl a b 0 size Hs (or_introl eq_refl)) as H.
  rewrite !Z.add_0_r in H. by rewrite flags_add_adc.
Qed.

Lemma flags_sub_arith fl a b size :
  opsize size ->
  arith_flags size fl (flags_sub fl a b (u64 (a - b)) size)
    (trunc_sz a size <? trunc_sz b size)
    (negb (in_signed (size * 8) (sext a size - sext b size)))
    (trunc_sz a size mod 16 <? trunc_sz b size mod 16) (a - b).
Proof.
  intros Hs. pose proof (flags_sbb_spec fl a b 0 size Hs (or_introl eq_refl)) as H.
  rewrite !Z.sub_0_r in H. rewrite flags_sub_sbb.
  replace (trunc_sz a size <? _) with (trunc_sz a size - trunc_sz b size <? 0) by lia.
  by replace (_ mod 16 <? _) with (trunc_sz a size mod 16 - trunc_sz b size mod 16 <? 0) by lia.
Qed.

Lemma flags_logic_spec fl res size :
  opsize size ->
  let fl' := flags_logic fl res size in
  CF fl' = false /\ OF fl' = false /\ AF fl' = AF fl /\
  ZF fl' = (uwrap (size * 8) res =? 0) /\ SF fl' = (swrap (size * 8) res <? 0) /\
  PF fl' = even_parity res /\ fl' .& .~ FL_ALL = fl .& .~ FL_ALL.
Proof.
  intros Hs fl'. pose proof (opsize_width _ Hs).
  assert (He : fl' = set_pzs (fl .& .~ (F_CF .| F_OF)) (trunc_sz res size) size).
  { subst fl'. unfold flags_logic. by rewrite !set_pzs_unfold, trunc_sz_idemp by done. }
  rewrite He. destruct (pzs_arith size Hs (fl .& .~ (F_CF .| F_OF)) res)
    as (-> & -> & -> & -> & -> & -> & ->).
  rewrite frame_clear by done. repeat split; flag_bits; done.
Qed.

(** What the sixteen conditions say of two operands just compared. *)
Definition cmp_conditions (w x y sx sy d : Z) (cc : Z) : bool :=
  match cc with
  | 0 => negb (in_signed w (sx - sy)) | 1 => in_signed w (sx - sy)
  | 2 => x <? y | 3 => y <=? x
  | 4 => x =? y | 5 => negb (x =? y)
  | 6 => x <=? y | 7 => y <? x
  | 8 => d <? 0 | 9 => 0 <=? d
  | 10 => even_parity d | 11 => negb (even_parity d)
  | 12 => sx <? sy | 13 => sy <=? sx
  | 14 => sx <=? sy | _ => sy <? sx
  end.

Lemma eqb_uwrap_sub w a b : 0 <= w -> (uwrap w (a - b) =? 0) = (uwrap w a =? uwrap w b).
Proof.
  intros Hw. pose proof (uwrap_range w a Hw) as Ha. pose proof (uwrap_range w b Hw) as Hb.
  pose proof (uwrap_sub_l w a b 0) as He. rewrite !Z.sub_0_r in He. rewrite <- He.
  unfold urange in *. set (x := uwrap w a) in *. set (y := uwrap w b) in *. clearbody x y. clear He.
  unfold uwrap. destruct (decide (y <= x)).
  - rewrite Z.mod_small by lia. lia.
  - replace ((x - y) mod 2 ^ w) with (x - y + 2 ^ w) by (apply (Z.mod_unique _ _ (-1)); lia). lia.
Qed.

Lemma swrap_sub_sign w a b :
  0 < w ->
  (swrap w (a - b) <? 0) =
  xorb (swrap w a <? swrap w b) (negb (in_signed w (swrap w a - swrap w b))).
Proof.
  intros Hw. pose proof (swrap_bounds w a Hw) as Ha. pose proof (swrap_bounds w b Hw) as Hb.
  assert (He : swrap w (a - b) = swrap w (swrap w a - swrap w b)).
  { rewrite <- (swrap_uwrap w (a - b)), <- (swrap_uwrap w (_ - swrap w b)) by lia. f_equal.
    pose proof (uwrap_sub_l w a b 0) as H1. pose proof (uwrap_sub_l w (swrap w a) (swrap w b) 0) as H2.
    rewrite !Z.sub_0_r in H1, H2. rewrite <- H1, <- H2, !swrap_congr by done. done. }
  rewrite He. set (s := swrap w a) in *. set (t := swrap w b) in *. clearbody s t. clear He.
  assert (Hp : 2 ^ w = 2 * 2 ^ (w - 1)) by (rewrite <- Z.pow_succ_r by lia; f_equal; lia).
  unfold in_signed. destruct (decide (- 2 ^ (w - 1) <= s - t < 2 ^ (w - 1))) as [Hin|Hout].
  - rewrite swrap_small by lia. destruct (s <? t) eqn:?, (_ && _) eqn:?; cbn; lia.
  - unfold swrap. destruct (decide (s < t)).
    + replace ((s - t) mod 2 ^ w) with (s - t + 2 ^ w) by (apply (Z.mod_unique _ _ (-1)); lia).
      destruct (_ + _ <? 2 ^ (w - 1)) eqn:?, (s <? t) eqn:?, (_ && _) eqn:?; cbn; lia.
    + rewrite (Z.mod_small (s - t)) by lia.
      destruct (s - t <? 2 ^ (w - 1)) eqn:?, (s <? t) eqn:?, (_ && _) eqn:?; cbn; lia.
Qed.

(** C22.  After the comparison of two operands each of the sixteen conditions
    says of them what its mnemonic says: above/below of the unsigned values,
    greater/less of the signed ones, and equality, sign, parity and overflow of
    the difference. *)
Theorem cond_after_cmp fl a b size cc :
  opsize size -> 0 <= cc < 16 ->
  cond (flags_sub fl a b (u64 (a - b)) size) cc =
  cmp_conditions (size * 8) (trunc_sz a size) (trunc_sz b size) (sext a size) (sext b size)
    (swrap (size * 8) (a - b)) cc.
Proof.
  intros Hs Hcc. pose proof (opsize_width _ Hs).
  destruct (flags_sub_arith fl a b size Hs) as (Hc & Ho & _ & Hz & Hsf & Hp & _).
  set (fl' := flags_sub _ _ _ _ _) in *. clearbody fl'.
  destruct (cond_flags fl') as (Ec & Ep & _ & Ez & Es & Eo).
  rewrite eqb_uwrap_sub, <- !trunc_sz_uwrap in Hz by (done || lia).
  assert (Hp' : even_parity (swrap (size * 8) (a - b)) = even_parity (a - b)).
  { rewrite <- (even_parity_uwrap (size * 8)), swrap_congr, even_parity_uwrap by lia. done. }
  assert (Hse : (sext a size =? sext b size) = (trunc_sz a size =? trunc_sz b size)).
  { pose proof (trunc_sz_range a size Hs). pose proof (trunc_sz_range b size Hs).
    rewrite !sext_swrap, !trunc_sz_uwrap in * by done.
    rewrite <- (swrap_congr _ a), <- (swrap_congr _ b) by lia.
    pose proof (swrap_bounds (size * 8) a ltac:(lia)). pose proof (swrap_bounds (size * 8) b ltac:(lia)).
    destruct (Z.eqb_spec (swrap (size * 8) a) (swrap (size * 8) b)) as [->|Hn]; [by rewrite Z.eqb_refl|].
    destruct (Z.eqb_spec (uwrap (size * 8) (swrap (size * 8) a)) (uwrap (size * 8) (swrap (size * 8) b)))
      as [He|]; [|done]. exfalso. apply Hn.
    rewrite <- (swrap_small (size * 8) (swrap _ a)), <- (swrap_small (size * 8) (swrap _ b)) by lia.
    rewrite <- (swrap_uwrap _ (swrap _ a)), He, swrap_uwrap by lia. done. }
  assert (Hsg := swrap_sub_sign (size * 8) a b ltac:(lia)).
  rewrite <- (sext_swrap a), <- (sext_swrap b), <- Hsf, <- Ho in Hsg by done.
  unfold cond. rewrite Ec, Ep, Ez, Es, Eo, Hp, Hc, Hz. clear Ec Ep Ez Es Eo Hp Hc Hz.
  generalize dependent (SF fl'). generalize dependent (OF fl'). clear fl'.
  intros o -> s Hsf Hlt.
  assert (Hall : cc = 0 \/ cc = 1 \/ cc = 2 \/ cc = 3 \/ cc = 4 \/ cc = 5 \/ cc = 6 \/ cc = 7 \/
    cc = 8 \/ cc = 9 \/ cc = 10 \/ cc = 11 \/ cc = 12 \/ cc = 13 \/ cc = 14 \/ cc = 15) by lia.
  clear Hs Hcc H. revert Hsf Hlt Hp' Hse.
  generalize (swrap (size * 8) (a - b)) as d. generalize (even_parity (a - b)) as p0.
  destruct_or! Hall; subst cc; cbv [cmp_conditions nz]; eval_consts;
  cbn -[uwrap swrap sext trunc_sz in_signed even_parity Z.mul].
  all: generalize (in_signed (size * 8) (sext a size - sext b size)) as i.
  all: generalize (sext a size) (sext b size) (trunc_sz a size) (trunc_sz b size).
  all: intros sx sy x y i p0 d Hsf Hlt Hp' Hse; rewrite ?Hp', ?Hsf, ?negb_involutive; try (done || lia).
  all: destruct (sx =? sy) eqn:?, (d <? 0) eqn:?, i; cbn in *; rewrite <- ?Hse; cbn;
    try lia; destruct (sx <? sy) eqn:?; cbn in *; try done; try congruence; try lia; try (exfalso; lia).
Qed.

(* ------------------------------------------------------------------ *)
(** ** inc and dec *)

Lemma keep_carry_bits fl fl0 i :
  0 <= i -> Z.testbit ((fl .& .~ F_CF) .| (fl0 .& F_CF)) i =
            if Z.eqb i 0 then Z.testbit fl0 i else Z.testbit fl i.
Proof.
  intros Hi. rewrite Z.lor_spec, !Z.land_spec, Z.lnot_spec by done.
  change F_CF with (2 ^ 0). rewrite Z.pow2_bits_eqb by done. rewrite (Z.eqb_sym 0).
  destruct (i =? 0); by rewrite ?andb_false_r, ?andb_true_r, ?orb_false_r.
Qed.

Lemma keep_carry size fl fl' carry ovf half res :
  arith_flags size fl fl' carry ovf half res ->
  arith_flags size fl ((fl' .& .~ F_CF) .| (fl .& F_CF)) (CF fl) ovf half res.
Proof.
  unfold arith_flags. intros (_ & <- & <- & <- & <- & <- & Hfr). unfold CF, PF, AF, ZF, SF, OF.
  rewrite !keep_carry_bits by done. repeat split. rewrite <- Hfr.
  bitwise i. destruct (decide (i = 0)) as [->|Hn].
  - by rewrite !andb_false_r.
  - change F_CF with (2 ^ 0). rewrite Z.pow2_bits_false by lia.
    by rewrite andb_true_r, andb_false_r, orb_false_r.
Qed.

Lemma rsd_i_flags_inc_arith fl a size :
  opsize size ->
  arith_flags size fl (rsd_i_flags_inc fl a (u64 (a + 1)) size) (CF fl)
    (negb (in_signed (size * 8) (sext a size + 1))) (trunc_sz a size mod 16 =? 15) (a + 1).
Proof.
  intros Hs. pose proof (keep_carry _ _ _ _ _ _ _ (flags_add_arith fl a 1 size Hs)) as H.
  assert (E1 : trunc_sz 1 size = 1) by by destruct Hs as [->|[->|[->| ->]]].
  assert (E2 : sext 1 size = 1) by by destruct Hs as [->|[->|[->| ->]]].
  rewrite E1, E2 in H. change (1 mod 16) with 1 in H.
  replace (trunc_sz a size mod 16 =? 15) with (16 <=? trunc_sz a size mod 16 + 1); [done|].
  pose proof (Z.mod_pos_bound (trunc_sz a size) 16 ltac:(lia)). lia.
Qed.

Lemma rsd_i_flags_dec_arith fl a size :
  opsize size ->
  arith_flags size fl (rsd_i_flags_dec fl a (u64 (a - 1)) size) (CF fl)
    (negb (in_signed (size * 8) (sext a size - 1))) (trunc_sz a size mod 16 =? 0) (a - 1).
Proof.
  intros Hs. pose proof (keep_carry _ _ _ _ _ _ _ (flags_sub_arith fl a 1 size Hs)) as H.
  assert (E1 : trunc_sz 1 size = 1) by by destruct Hs as [->|[->|[->| ->]]].
  assert (E2 : sext 1 size = 1) by by destruct Hs as [->|[->|[->| ->]]].
  rewrite E1, E2 in H. change (1 mod 16) with 1 in H.
  replace (trunc_sz a size mod 16 =? 0) with (trunc_sz a size mod 16 <? 1); [done|].
  pose proof (Z.mod_pos_bound (trunc_sz a size) 16 ltac:(lia)). lia.
Qed.

(* ------------------------------------------------------------------ *)
(** ** Shifts *)

(** The shifted operand, unbounded: left, logical right, arithmetic right. *)
Definition shifted (a cnt size ext : Z) : Z :=
  if (ext =? 4) || (ext =? 6) then trunc_sz a size * 2 ^ cnt
  else if ext =? 5 then trunc_sz a size / 2 ^ cnt
  else sext a size / 2 ^ cnt.

(** The last bit shifted out. *)
Definition shifted_out (a cnt size ext : Z) : bool :=
  if (ext =? 4) || (ext =? 6) then Z.testbit (trunc_sz a size * 2 ^ cnt) (size * 8)
  else if ext =? 5 then Z.testbit (trunc_sz a size) (cnt - 1)
  else Z.testbit (sext a size) (cnt - 1).

Lemma signed_shift_saturates w s k :
  0 < w -> - 2 ^ (w - 1) <= s < 2 ^ (w - 1) -> w - 1 <= k -> s >> k = s >> (w - 1).
Proof.
  intros Hw Hs Hk. rewrite !Z.shiftr_div_pow2 by lia.
  assert (H1 : 2 ^ (w - 1) <= 2 ^ k) by (apply Z.pow_le_mono_r; lia).
  assert (H2 : 0 < 2 ^ (w - 1)) by (apply Z.pow_pos_nonneg; lia).
  destruct (decide (0 <= s)).
  - rewrite !Z.div_small by lia. done.
  - transitivity (-1); [symmetry; apply (Z.div_unique _ _ _ (s + 2 ^ k))
                       |apply (Z.div_unique _ _ _ (s + 2 ^ (w - 1)))]; lia.
Qed.

Lemma nz_bit z : nz (z .& 1) = Z.odd z.
Proof.
  pose proof (Z.land_ones z 1 ltac:(lia)) as H. change (Z.ones 1) with 1 in H.
  unfold nz. rewrite H, Z.pow_1_r, Zmod_odd. by destruct (Z.odd z).
Qed.

Lemma nz_shr_bit z k : 0 <= k -> nz ((z >> k) .& 1) = Z.testbit z k.
Proof. intros Hk. by rewrite nz_bit, <- Z.bit0_odd, Z.shiftr_spec by lia. Qed.

(** Past the operand's width an arithmetic shift only repeats the sign, so
    capping the count changes nothing. *)
Lemma sar_capped w s cnt :
  0 < w -> - 2 ^ (w - 1) <= s < 2 ^ (w - 1) -> 0 <= cnt ->
  s >> (if w <=? cnt then w - 1 else cnt) = s / 2 ^ cnt.
Proof.
  intros Hw Hs Hc. rewrite <- Z.shiftr_div_pow2 by lia. destruct (w <=? cnt) eqn:E; [|done].
  symmetry. apply signed_shift_saturates; lia.
Qed.

Lemma sar_capped' w s cnt :
  0 < w -> - 2 ^ (w - 1) <= s < 2 ^ (w - 1) -> 0 <= cnt ->
  s >> (if w <=? cnt then w - 1 else cnt) = s >> cnt.
Proof. intros. by rewrite sar_capped, Z.shiftr_div_pow2 by lia. Qed.

Lemma land1_cases z : z .& 1 = 0 \/ z .& 1 = 1.
Proof.
  pose proof (Z.land_ones z 1 ltac:(lia)) as H. change (Z.ones 1) with 1 in H. rewrite H. zdm.
Qed.

Lemma nz_lxor_bits p q :
  p = 0 \/ p = 1 -> q = 0 \/ q = 1 -> nz (p .^ q) = xorb (nz p) (nz q).
Proof. by intros [->| ->] [->| ->]. Qed.

Lemma shift_flags fl r cf ovf size :
  opsize size ->
  let res := trunc_sz r size in
  let fl' := set_pzs (setf F_OF (nz ovf) (setf F_CF (nz cf) (fl .& .~ (F_CF .| F_OF)))) res size in
  CF fl' = nz cf /\ OF fl' = nz ovf /\ AF fl' = AF fl /\ ZF fl' = (res =? 0) /\
  SF fl' = Z.testbit res (size * 8 - 1) /\ PF fl' = even_parity res.
Proof.
  intros Hs res fl'.
  destruct (set_pzs_flags (setf F_OF (nz ovf) (setf F_CF (nz cf) (fl .& .~ (F_CF .| F_OF)))) res size Hs)
    as (Hz & Hsf & Hp & Hcf & Haf & Hof).
  subst fl' res. rewrite trunc_sz_idemp in * by done. rewrite Hz, Hsf, Hp, Hcf, Haf, Hof.
  repeat split; flag_bits; done.
Qed.

(** C33.  A shift by a count the callers let through (1 to 31, or 63 for 64-bit
    operands) returns the operand times or divided by the power of two, signed
    for sar, at the operand's width; CF is the last bit shifted out, ZF, SF and
    PF describe the result, AF is left alone, and OF after a shift by one is the
    architecture's. *)
Theorem rsd_i_shift_spec fl a cnt size ext res fl' :
  opsize size -> 1 <= cnt < (if size =? 8 then 64 else 32) -> 4 <= ext < 8 ->
  rsd_i_shift fl a cnt size ext = (res, fl') ->
  res = uwrap (size * 8) (shifted a cnt size ext) /\
  CF fl' = shifted_out a cnt size ext /\ AF fl' = AF fl /\
  ZF fl' = (res =? 0) /\ SF fl' = Z.testbit res (size * 8 - 1) /\ PF fl' = even_parity res /\
  (cnt = 1 -> OF fl' = xorb (Z.testbit (trunc_sz a size) (size * 8 - 1))
     (if (ext =? 4) || (ext =? 6) then Z.testbit (trunc_sz a size) (size * 8 - 2)
      else if ext =? 5 then false else Z.testbit (trunc_sz a size) (size * 8 - 1))).
Proof.
  intros Hs Hc He. pose proof (opsize_width _ Hs) as Hw.
  assert (Hx : urange (size * 8) (trunc_sz a size)) by by apply trunc_sz_range.
  unfold rsd_i_shift, shifted, shifted_out. set (x := trunc_sz a size) in *.
  destruct ((ext =? 4) || (ext =? 6)) eqn:E1; [|destruct (ext =? 5) eqn:E2].
  - intros [= <- <-].
    destruct (shift_flags fl (u64 (x << cnt)) (if cnt <=? size * 8 then (x >> (size * 8 - cnt)) .& 1 else 0)
      (((trunc_sz (u64 (x << cnt)) size >> (size * 8 - 1)) .& 1)
         .^ (if cnt <=? size * 8 then (x >> (size * 8 - cnt)) .& 1 else 0)) size Hs)
      as (Hcf & Hof & -> & -> & -> & ->).
    assert (Hr : trunc_sz (u64 (x << cnt)) size = uwrap (size * 8) (x * 2 ^ cnt)).
    { rewrite trunc_sz_uwrap, uwrap_le, Z.shiftl_mul_pow2 by (done || lia). done. }
    assert (Hout : nz (if cnt <=? size * 8 then (x >> (size * 8 - cnt)) .& 1 else 0) =
                   Z.testbit (x * 2 ^ cnt) (size * 8)).
    { rewrite Z.mul_pow2_bits by lia. destruct (cnt <=? size * 8) eqn:?.
      - by apply nz_shr_bit; lia.
      - by rewrite Z.testbit_neg_r by lia. }
    split; [done|]. split; [by rewrite Hcf|]. repeat split.
    intros ->. rewrite Hof, nz_lxor_bits, Hout by (destruct (1 <=? _); auto using land1_cases).
    rewrite nz_shr_bit by lia. rewrite Hr. rewrite uwrap_testbit by lia.
    rewrite bool_decide_true by lia. rewrite andb_true_l.  rewrite !(Z.mul_pow2_bits x 1) by lia.
    rewrite xorb_comm. f_equal; f_equal; lia.
  - intros [= <- <-].
    destruct (shift_flags fl (x >> cnt) (if cnt <=? size * 8 then (x >> (cnt - 1)) .& 1 else 0)
      ((x >> (size * 8 - 1)) .& 1) size Hs) as (Hcf & Hof & -> & -> & -> & ->).
    split; [by rewrite trunc_sz_uwrap, Z.shiftr_div_pow2 by (done || lia)|].
    split; [rewrite Hcf|repeat split].
    + destruct (cnt <=? size * 8) eqn:?; [by apply nz_shr_bit; lia|].
      by rewrite (urange_testbit_high (size * 8)) by (done || lia).
    + intros ->. rewrite Hof, nz_shr_bit, xorb_false_r by lia. done.
  - intros [<- <-]%pair_eq.
    destruct (shift_flags fl
      (u64 (sext a size >> (if size * 8 <=? cnt then size * 8 - 1 else cnt)))
      (u64 (sext a size >> (if size * 8 <=? cnt - 1 then size * 8 - 1 else cnt - 1)) .& 1)
      0 size Hs) as (Hcf & Hof & -> & -> & -> & ->).
    assert (Hb := swrap_bounds (size * 8) a ltac:(lia)). rewrite <- sext_swrap in Hb by done.
    split; [by rewrite trunc_sz_uwrap, uwrap_le, sar_capped by (done || lia)|].
    split; [rewrite Hcf|repeat split].
    + rewrite (nz_bit (u64 _)), <- Z.bit0_odd, uwrap_testbit, bool_decide_true by lia.
      rewrite (sar_capped' (size * 8)), Z.shiftr_spec by (done || lia). done.
    + intros ->. rewrite Hof. by rewrite xorb_nilpotent.
Qed.

(* ------------------------------------------------------------------ *)
(** ** The flag routines, together *)

(** C21.  For operands of any size, [flags_add], [flags_adc], [flags_sub] and
    [flags_sbb] set CF exactly on unsigned carry or borrow (carry-in included),
    OF exactly when the signed result does not fit, AF on carry or borrow out of
    the low four bits, ZF, SF and PF from the result, and touch no other bit. *)
Theorem flags_arith_spec fl a b c size :
  opsize size -> c = 0 \/ c = 1 ->
  let w := size * 8 in let x := trunc_sz a size in let y := trunc_sz b size in
  let sx := sext a size in let sy := sext b size in
  arith_flags size fl (flags_add fl a b (u64 (a + b)) size)
    (2 ^ w <=? x + y) (negb (in_signed w (sx + sy))) (16 <=? x mod 16 + y mod 16) (a + b) /\
  arith_flags size fl (flags_adc fl a b c (u64 (a + b + c)) size)
    (2 ^ w <=? x + y + c) (negb (in_signed w (sx + sy + c)))
    (16 <=? x mod 16 + y mod 16 + c) (a + b + c) /\
  arith_flags size fl (flags_sub fl a b (u64 (a - b)) size)
    (x <? y) (negb (in_signed w (sx - sy))) (x mod 16 <? y mod 16) (a - b) /\
  arith_flags size fl (flags_sbb fl a b c (u64 (a - b - c)) size)
    (x - y - c <? 0) (negb (in_signed w (sx - sy - c)))
    (x mod 16 - y mod 16 - c <? 0) (a - b - c).
Proof.
  intros Hs Hc. split; [by apply flags_add_arith|]. split; [by apply flags_adc_spec|].
  split; [by apply flags_sub_arith|by apply flags_sbb_spec].
Qed.

Lemma flags_arith_spec_witness :
  opsize 4 /\ CF (flags_add 0x202 0xffffffff 1 (u64 (0xffffffff + 1)) 4) = true.
Proof.
  split; [right; right; by left|].
  destruct (flags_arith_spec 0x202 0xffffffff 1 0 4) as [[-> _] _];
    [right; right; by left|by left|reflexivity].
Defined.

(** [rsd_i_flags_inc] and [rsd_i_flags_dec] set OF, AF, ZF, SF and PF as
    adding or subtracting one does, and leave CF and every other bit alone. *)
Theorem rsd_i_flags_inc_dec_spec fl a size :
  opsize size ->
  arith_flags size fl (rsd_i_flags_inc fl a (u64 (a + 1)) size) (CF fl)
    (negb (in_signed (size * 8) (sext a size + 1))) (trunc_sz a size mod 16 =? 15) (a + 1) /\
  arith_flags size fl (rsd_i_flags_dec fl a (u64 (a - 1)) size) (CF fl)
    (negb (in_signed (size * 8) (sext a size - 1))) (trunc_sz a size mod 16 =? 0) (a - 1).
Proof. intros Hs. split; [by apply rsd_i_flags_inc_arith|by apply rsd_i_flags_dec_arith]. Qed.

Lemma rsd_i_flags_inc_dec_spec_witness :
  opsize 1 /\ CF (rsd_i_flags_inc 0x203 0xff (u64 (0xff + 1)) 1) = true.
Proof.
  split; [by left|].
  destruct (rsd_i_flags_inc_dec_spec 0x203 0xff 1) as [[-> _] _]; [by left|reflexivity].
Defined.

Lemma cond_after_cmp_witness :
  opsize 2 /\ cond (flags_sub 0x202 0x8000 1 (u64 (0x8000 - 1)) 2) 12 = true.
Proof.
  split; [right; by left|]. rewrite cond_after_cmp; [reflexivity|right; by left|lia].
Defined.

Lemma rsd_i_shift_spec_witness :
  rsd_i_shift 0x202 0x81 1 1 5 = (0x40, 0xa03) /\ CF 0xa03 = true.
Proof.
  split; [reflexivity|].
  destruct (rsd_i_shift_spec 0x202 0x81 1 1 5 0x40 0xa03) as (_ & -> & _);
    [by left|cbn; lia|lia|reflexivity|reflexivity].
Defined.
