(* ===== verification/Stubs.v ===== *)
(** Imports and their stubs ([src/stubs.h], the tables and name rules of
    [src/thunk.c], the selector table and the class map of [src/objc.c]): which
    import an address stands for, and what is special about calling it. *)
From Stdlib Require Import Ascii.
From S2P Require Import Prelude.

(* ------------------------------------------------------------------ *)
(** ** Data *)

Definition RSD_STUB_STRIDE : Z := 16.

Record rsd_vaspec := VaSpec {
  va_nfixed : Z; va_fmt : Z; va_scan : bool; va_nsformat : bool; va_objc : bool
}.

(** An array pointer that may be NULL is an option; a NULL native
    implementation is 0. *)
Record rsd_stubs := Stubs {
  st_base : Z;
  st_n : Z;
  st_fns : option (list Z);
  st_cbarg : option (list Z);
  st_objcrecv : option (list bool);
  st_va : option (list (option rsd_vaspec))
}.

(* ------------------------------------------------------------------ *)
(** ** Operations *)

(** [-1] when the address belongs to no import. *)
Definition rsd_stub_index (so : option rsd_stubs) (addr : Z) : Z :=
  match so with
  | None => -1
  | Some s =>
      if negb (nz (st_base s)) || (addr <? st_base s) then -1 else
      let off := addr - st_base s in
      if u64 (u64 (st_n s) * RSD_STUB_STRIDE) <=? off then -1
      else s32 (off / RSD_STUB_STRIDE)
  end.

(** [symbol[0] == '_' ? symbol + 1 : symbol]. *)
Definition strip_underscore (symbol : string) : string :=
  match symbol with
  | String "_"%char n => n
  | _ => symbol
  end.

Definition variadics : list (string * rsd_vaspec) :=
  [ ("printf",    VaSpec 1 0 false false false);
    ("fprintf",   VaSpec 2 1 false false false);
    ("sprintf",   VaSpec 2 1 false false false);
    ("snprintf",  VaSpec 3 2 false false false);
    ("dprintf",   VaSpec 2 1 false false false);
    ("asprintf",  VaSpec 2 1 false false false);
    ("syslog",    VaSpec 2 1 false false false);
    ("scanf",     VaSpec 1 0 true false false);
    ("fscanf",    VaSpec 2 1 true false false);
    ("sscanf",    VaSpec 2 1 true false false);
    ("NSLog",     VaSpec 1 0 false true false);
    ("objc_msgSend", VaSpec 2 (-1) false true true) ]%string.

Definition callback_args : list (string * Z) :=
  [ ("qsort", 3); ("bsearch", 4); ("atexit", 0); ("heapsort", 3); ("mergesort", 3) ]%string.

Definition objc_variadic : list (string * Z) :=
  [ ("stringWithFormat:", 3); ("initWithFormat:", 3); ("localizedStringWithFormat:", 3);
    ("stringByAppendingFormat:", 3); ("appendFormat:", 3); ("predicateWithFormat:", 3);
    ("raise:format:", 4) ]%string.

(** The [strcmp] loops over the tables. *)
Fixpoint table_find {A} (n : string) (l : list (string * A)) : option A :=
  match l with
  | [] => None
  | (k, v) :: l => if String.eqb n k then Some v else table_find n l
  end.

Definition rsd_takes_objc_receiver (symbol : option string) : bool :=
  match symbol with
  | None => false
  | Some symbol =>
      let n := strip_underscore symbol in
      String.prefix "objc_" n || String.prefix "object_" n || String.prefix "class_" n
  end.

Definition rsd_callback_arg (symbol : option string) : Z :=
  match symbol with
  | None => -1
  | Some symbol => default (-1) (table_find (strip_underscore symbol) callback_args)
  end.

Definition rsd_variadic_spec (symbol : option string) : option rsd_vaspec :=
  symbol ≫= fun symbol => table_find (strip_underscore symbol) variadics.

(** [sel_name] is the Objective-C runtime's [sel_getName]. *)
Definition rsd_objc_variadic_sel (sel_name : Z -> option string) (sel : Z) : Z :=
  if negb (nz sel) then 0 else
  match sel_name sel with
  | None => 0
  | Some name => default 0 (table_find name objc_variadic)
  end.

(** The class map of [objc.c]: the image's structure and the native class. *)
Definition RSD_MAX_CLASSES : Z := 256.

Definition remember (cm : list (Z * Z)) (guest native : Z) : list (Z * Z) :=
  if Z.of_nat (length cm) <? RSD_MAX_CLASSES then cm ++ [(guest, native)] else cm.

Fixpoint rsd_objc_real_class (cm : list (Z * Z)) (c : Z) : Z :=
  match cm with
  | [] => c
  | (guest, native) :: cm => if guest =? c then native else rsd_objc_real_class cm c
  end.

(* ------------------------------------------------------------------ *)
(** ** Properties *)

(** What [call_native_variadic] relies on: at most eight fixed arguments, the
    format string among them.  [objc_msgSend] takes both from the selector. *)
Definition vaspec_ok (v : rsd_vaspec) : bool :=
  (0 <? va_nfixed v) && (va_nfixed v <=? 8) &&
  (va_objc v || ((0 <=? va_fmt v) && (va_fmt v <? va_nfixed v))).

Lemma table_find_elem {A} n (l : list (string * A)) v :
  table_find n l = Some v -> (n, v) ∈ l.
Proof.
  induction l as [|[k x] l IH]; cbn; [done|]. destruct (String.eqb_spec n k) as [->|]; [|].
  - intros [= ->]. by left.
  - intros H. right. auto.
Qed.

Lemma variadics_ok : forallb (fun p => vaspec_ok p.2) variadics = true.
Proof. done. Qed.

Lemma rsd_variadic_spec_ok symbol v : rsd_variadic_spec symbol = Some v -> vaspec_ok v = true.
Proof.
  destruct symbol as [n|]; [|done]. intros H%(table_find_elem (strip_underscore n)).
  pose proof variadics_ok as Hall. rewrite forallb_forall in Hall.
  apply (Hall _ (proj1 (list_elem_of_In _ _) H)).
Qed.

Lemma rsd_objc_variadic_sel_bounds sel_name sel :
  rsd_objc_variadic_sel sel_name sel = 0 \/ 3 <= rsd_objc_variadic_sel sel_name sel <= 4.
Proof.
  unfold rsd_objc_variadic_sel. case_match; [by left|]. destruct (sel_name sel) as [n|]; [|by left].
  destruct (table_find n objc_variadic) as [v|] eqn:E; cbn; [|by left]. right.
  apply table_find_elem in E.
  assert (Hall : forallb (fun p : string * Z => (3 <=? p.2) && (p.2 <=? 4)) objc_variadic = true) by done.
  rewrite forallb_forall in Hall. specialize (Hall _ (proj1 (list_elem_of_In _ _) E)). cbn in Hall. lia.
Qed.

(** The stub region holds [st_n] stubs of sixteen bytes and does not wrap. *)
Definition stubs_wf (s : rsd_stubs) : Prop :=
  0 < st_base s /\ 0 <= st_n s < 2 ^ 31 /\ st_base s + st_n s * RSD_STUB_STRIDE < 2 ^ 64.

(** C35.  The stub index of an address is the import whose sixteen-byte slot
    holds it, and -1 outside the stub region: the sixteen bytes of stub [i] are
    the only addresses that name import [i]. *)
Theorem rsd_stub_index_spec s addr i :
  stubs_wf s -> urange 64 addr -> 0 <= i ->
  (rsd_stub_index (Some s) addr = i <->
   i < st_n s /\
   st_base s + i * RSD_STUB_STRIDE <= addr < st_base s + (i + 1) * RSD_STUB_STRIDE) /\
  (rsd_stub_index (Some s) addr = -1 <->
   ~ st_base s <= addr < st_base s + st_n s * RSD_STUB_STRIDE).
Proof.
  intros (Hb & Hn & Hlt) Ha Hi. unfold rsd_stub_index, nz, RSD_STUB_STRIDE, urange in *.
  rewrite (uwrap_small 64 (st_n s)) by (unfold urange; lia).
  rewrite uwrap_small by (unfold urange; lia).
  destruct (st_base s =? 0) eqn:E0; [lia|]. cbn [negb orb].
  destruct (addr <? st_base s) eqn:E1; [lia|]. case_match eqn:E2; [lia|].
  assert (0 <= (addr - st_base s) / 16 < st_n s) by zdm.
  rewrite swrap_small by (change (2 ^ (32 - 1)) with (2 ^ 31); lia). zdm.
Qed.

Definition sample_stubs : rsd_stubs := Stubs 0x20000 2 None None None None.

Lemma rsd_stub_index_spec_witness : stubs_wf sample_stubs /\ rsd_stub_index (Some sample_stubs) 0x2001f = 1.
Proof.
  split; [repeat split; done|].
  apply (rsd_stub_index_spec sample_stubs 0x2001f 1); [repeat split; done|done|done|].
  cbn. unfold RSD_STUB_STRIDE. lia.
Defined.

(** Every variadic function the tables forward has between one and eight
    fixed arguments with the format string among them, and every variadic
    selector three or four: the indices [call_native_variadic] uses stay inside
    its eight-element register array. *)
Theorem variadic_tables_bounds symbol v sel_name sel :
  (rsd_variadic_spec symbol = Some v -> 0 < va_nfixed v <= 8 /\
     (va_objc v = false -> 0 <= va_fmt v < va_nfixed v)) /\
  (rsd_objc_variadic_sel sel_name sel <> 0 ->
     0 <= rsd_objc_variadic_sel sel_name sel - 1 < 8 /\ rsd_objc_variadic_sel sel_name sel <= 8).
Proof.
  split.
  - intros H%rsd_variadic_spec_ok. unfold vaspec_ok in H. destruct (va_objc v); cbn in H; [|].
    + split; [lia|done].
    + lia.
  - destruct (rsd_objc_variadic_sel_bounds sel_name sel); lia.
Qed.

(** What [remember] recorded first for a class is what [rsd_objc_real_class]
    answers; everything else passes through. *)
Lemma real_class_app cm cm' c :
  rsd_objc_real_class (cm ++ cm') c =
  if existsb (fun e => e.1 =? c) cm then rsd_objc_real_class cm c else rsd_objc_real_class cm' c.
Proof. induction cm as [|[g n] cm IH]; cbn; [done|]. by destruct (g =? c). Qed.
