(* ===== verification/Callbacks.v ===== *)
(** Native entry points that lead back into guest code ([src/callback.c]): the
    pool of trampolines, each bound to the guest function it runs.  The address
    and the stride of the assembled table ([src/trampoline.S]) are parameters. *)
From S2P Require Import Prelude.

Definition RSD_TRAMP_COUNT : Z := 512.

Class Trampolines := { rsd_tramp_table : Z; rsd_tramp_stride : Z }.

(** Where the table was assembled: not at zero, and inside the address space. *)
Class TrampolinesOk `{Trampolines} := {
  tramp_table_pos : 0 < rsd_tramp_table;
  tramp_stride_pos : 0 < rsd_tramp_stride;
  tramp_table_fits : rsd_tramp_table + RSD_TRAMP_COUNT * rsd_tramp_stride <= 2 ^ 64
}.

(** [targets[0..used)]; [used] is the length. *)
Abbreviation callbacks := (list Z) (only parsing).

Section ops.
Context `{Trampolines}.

Definition tramp_address (i : Z) : Z := u64 (rsd_tramp_table + u64 (i * rsd_tramp_stride)).

(** The search loop. *)
Fixpoint target_index (i : Z) (cb : callbacks) (guest_fn : Z) : option Z :=
  match cb with
  | [] => None
  | t :: cb => if t =? guest_fn then Some i else target_index (i + 1) cb guest_fn
  end.

Definition rsd_callback_for (cb : callbacks) (guest_fn : Z) : Z * callbacks :=
  if negb (nz guest_fn) then (0, cb) else
  match target_index 0 cb guest_fn with
  | Some i => (tramp_address i, cb)
  | None =>
      let used := Z.of_nat (length cb) in
      if used =? RSD_TRAMP_COUNT then (0, cb)
      else (tramp_address used, cb ++ [guest_fn])
  end.
End ops.

Definition rsd_callback_target (cb : callbacks) (index : Z) : Z :=
  if index <? Z.of_nat (length cb) then default 0 (cb !! Z.to_nat index) else 0.

(* ------------------------------------------------------------------ *)
(** ** Invariant and lemmas *)

(** Targets are distinct, none is NULL, and they fit the pool. *)
Definition cb_inv (cb : callbacks) : Prop :=
  NoDup cb /\ 0 ∉ cb /\ Z.of_nat (length cb) <= RSD_TRAMP_COUNT.

Lemma target_index_Some i cb g k :
  target_index i cb g = Some k -> i <= k /\ cb !! Z.to_nat (k - i) = Some g.
Proof.
  revert i. induction cb as [|t cb IH]; intros i; cbn; [done|]. case_match eqn:E.
  - intros [= <-]. rewrite Z.sub_diag. split; [lia|]. apply Z.eqb_eq in E as ->. done.
  - intros [Hk Hl]%IH. split; [lia|].
    replace (Z.to_nat (k - i)) with (S (Z.to_nat (k - (i + 1)))) by lia. done.
Qed.

Lemma target_index_None i cb g : target_index i cb g = None -> g ∉ cb.
Proof.
  revert i. induction cb as [|t cb IH]; intros i; cbn; [set_solver|].
  case_match eqn:E; [done|]. intros H%IH. apply Z.eqb_neq in E. set_solver.
Qed.

Lemma target_index_elem cb g j :
  NoDup cb -> cb !! j = Some g -> target_index 0 cb g = Some (Z.of_nat j).
Proof.
  intros Hnd Hj. destruct (target_index 0 cb g) as [k|] eqn:E.
  - apply target_index_Some in E as [Hk Hl]. rewrite Z.sub_0_r in Hl.
    rewrite (NoDup_lookup _ _ _ _ Hnd Hj Hl). f_equal. lia.
  - apply target_index_None in E. by apply list_elem_of_lookup_2 in Hj.
Qed.

Section props.
Context `{TrampolinesOk}.

Lemma tramp_address_val i :
  0 <= i < RSD_TRAMP_COUNT -> tramp_address i = rsd_tramp_table + i * rsd_tramp_stride.
Proof.
  intros Hi. pose proof tramp_table_pos. pose proof tramp_stride_pos. pose proof tramp_table_fits.
  unfold tramp_address. assert (i * rsd_tramp_stride < RSD_TRAMP_COUNT * rsd_tramp_stride) by nia.
  assert (0 <= i * rsd_tramp_stride) by nia.
  rewrite (uwrap_small 64 (i * _)) by (unfold urange; lia).
  apply uwrap_small. unfold urange. lia.
Qed.

Lemma rsd_callback_for_inv cb g a cb' :
  cb_inv cb -> rsd_callback_for cb g = (a, cb') -> cb_inv cb' /\ cb `prefix_of` cb'.
Proof.
  intros (Hnd & Hz0 & Hl) Hf. unfold rsd_callback_for, nz in Hf.
  destruct (g =? 0) eqn:Eg; cbn in Hf; [by simplify_eq|].
  destruct (target_index 0 cb g) as [i|] eqn:Ei; [by simplify_eq|].
  destruct (_ =? RSD_TRAMP_COUNT) eqn:Eu; simplify_eq; [done|].
  split; [|by eexists]. apply target_index_None in Ei. split; [|split].
  - apply NoDup_app. split; [done|]. split; [|apply NoDup_singleton]. set_solver.
  - apply Z.eqb_neq in Eg. set_solver.
  - rewrite length_app. cbn. lia.
Qed.

(** C34.  [rsd_callback_for] hands out, for a guest function, the address of
    a trampoline that leads back to it: 0 only for NULL or when all 512 are
    bound to other functions.  Asking again returns the same address, and no
    binding already handed out changes. *)
Theorem rsd_callback_roundtrip cb g a cb' :
  cb_inv cb -> rsd_callback_for cb g = (a, cb') ->
  cb_inv cb' /\ (forall i, 0 <= i < Z.of_nat (length cb) ->
    rsd_callback_target cb' i = rsd_callback_target cb i) /\
  ((a = 0 /\ cb' = cb /\
      (g = 0 \/ g ∉ cb /\ Z.of_nat (length cb) = RSD_TRAMP_COUNT)) \/
   (exists i, 0 <= i < RSD_TRAMP_COUNT /\ a = rsd_tramp_table + i * rsd_tramp_stride /\
      rsd_callback_target cb' i = g /\ rsd_callback_for cb' g = (a, cb'))).
Proof.
  intros Hinv Hf. destruct (rsd_callback_for_inv _ _ _ _ Hinv Hf) as [Hinv' [suf ->]].
  split; [done|]. split.
  { intros i Hi. unfold rsd_callback_target. rewrite length_app.
    rewrite !(proj2 (Z.ltb_lt _ _)) by lia.
    by rewrite lookup_app_l by lia. }
  destruct (decide (a = 0)) as [->|Ha].
  - left. unfold rsd_callback_for, nz in Hf. destruct (g =? 0) eqn:Eg; cbn in Hf.
    { simplify_eq. split; [done|]. split; [done|]. left. lia. }
    destruct Hinv as (Hnd & _ & Hl). pose proof tramp_table_pos. pose proof tramp_stride_pos.
    destruct (target_index 0 cb g) as [i|] eqn:Ei.
    + apply target_index_Some in Ei as [Hi Hlk%lookup_lt_Some]. assert (Hz : tramp_address i = 0) by congruence.
      rewrite tramp_address_val in Hz by (unfold RSD_TRAMP_COUNT in *; lia). nia.
    + destruct (_ =? RSD_TRAMP_COUNT) eqn:Eu.
      * split; [done|]. split; [congruence|]. right. apply target_index_None in Ei. split; [done|lia].
      * assert (Hz : tramp_address (Z.of_nat (length cb)) = 0) by congruence.
        rewrite tramp_address_val in Hz by (unfold RSD_TRAMP_COUNT in *; lia). nia.
  - right. assert (Hin : exists i, (cb ++ suf) !! i = Some g /\ a = tramp_address (Z.of_nat i)).
    { unfold rsd_callback_for in Hf. destruct (nz g); cbn in Hf; [|simplify_eq].
      destruct (target_index 0 cb g) as [i|] eqn:Ei.
      - apply target_index_Some in Ei as [Hi Hlk]. rewrite Z.sub_0_r in Hlk. simplify_eq.
        exists (Z.to_nat i). rewrite Z2Nat.id by done. split; [|done].
        replace (cb ++ suf) with cb by done. done.
      - destruct (_ =? RSD_TRAMP_COUNT); [by simplify_eq|]. injection Hf as <- Hs.
        exists (length cb). rewrite <- Hs. split; [by apply list_lookup_middle|done]. }
    destruct Hin as (i & Hi & ->). destruct Hinv' as (Hnd & Hz0 & Hl).
    pose proof (lookup_lt_Some _ _ _ Hi) as Hlt.
    exists (Z.of_nat i). split; [lia|]. split; [apply tramp_address_val; lia|]. split.
    + unfold rsd_callback_target. rewrite (proj2 (Z.ltb_lt _ _)) by lia. by rewrite Nat2Z.id, Hi.
    + unfold rsd_callback_for, nz. destruct (g =? 0) eqn:Eg.
      { apply Z.eqb_eq in Eg as ->. by apply list_elem_of_lookup_2 in Hi. }
      cbn. by rewrite (target_index_elem _ _ _ Hnd Hi).
Qed.
End props.

#[local] Instance sample_trampolines : Trampolines :=
  {| rsd_tramp_table := 0x100000; rsd_tramp_stride := 8 |}.

#[local] Instance sample_trampolines_ok : TrampolinesOk.
Proof. split; done. Qed.

Lemma rsd_callback_roundtrip_witness :
  cb_inv [0x4000] /\ rsd_callback_for [0x4000] 0x5000 = (0x100008, [0x4000; 0x5000]) /\
  rsd_callback_target [0x4000; 0x5000] 0 = 0x4000.
Proof.
  assert (H : cb_inv [0x4000]) by (split; [apply NoDup_singleton|split; [set_solver|done]]).
  assert (Hf : rsd_callback_for [0x4000] 0x5000 = (0x100008, [0x4000; 0x5000])) by reflexivity.
  split; [exact H|]. split; [exact Hf|].
  apply (rsd_callback_roundtrip [0x4000] 0x5000 0x100008 [0x4000; 0x5000] H Hf).
  split; [lia|reflexivity].
Defined.
