(* ===== verification/Memory.v ===== *)
(** Runs of bytes in a memory that is a finite map: reading and writing
    little-endian values, and what a write leaves alone. *)
From S2P Require Import Prelude.

Fixpoint read_bytes (mem : gmap Z Z) (a : Z) (n : nat) : option (list Z) :=
  match n with
  | O => Some []
  | S n => b ← mem !! a; bs ← read_bytes mem (a + 1) n; Some (b :: bs)
  end.

Fixpoint write_bytes (mem : gmap Z Z) (a : Z) (bs : list Z) : gmap Z Z :=
  match bs with
  | [] => mem
  | b :: bs => write_bytes (<[a := b]> mem) (a + 1) bs
  end.

Definition bytes_ok (bs : list Z) : Prop := Forall (urange 8) bs.

(** Every byte of the memory is one. *)
Definition mem_ok (mem : gmap Z Z) : Prop := map_Forall (fun _ => urange 8) mem.

Lemma length_le_bytes n v : length (le_bytes n v) = n.
Proof. revert v. induction n; intros v; cbn; [done|]. by rewrite IHn. Qed.

Lemma le_bytes_ok n v : bytes_ok (le_bytes n v).
Proof. revert v. induction n; intros v; cbn; constructor; [zdm|apply IHn]. Qed.

Lemma le_val_bytes n v : le_val (le_bytes n v) = uwrap (8 * Z.of_nat n) v.
Proof.
  revert v. induction n as [|n IH]; intros v; cbn [le_val le_bytes].
  - unfold uwrap. by rewrite Z.mod_1_r.
  - rewrite IH. unfold uwrap. replace (8 * Z.of_nat (S n)) with (8 + 8 * Z.of_nat n) by lia.
    rewrite Z.pow_add_r by lia. change (2 ^ 8) with 256.
    rewrite Z.rem_mul_r; [done|done|]. apply Z.pow_pos_nonneg; lia.
Qed.

Lemma le_val_range bs : bytes_ok bs -> urange (8 * Z.of_nat (length bs)) (le_val bs).
Proof.
  induction 1 as [|b bs Hb _ IH]; cbn [le_val length]; [done|]. unfold urange in *.
  replace (8 * Z.of_nat (S (length bs))) with (8 + 8 * Z.of_nat (length bs)) by lia.
  rewrite Z.pow_add_r by lia. change (2 ^ 8) with 256 in *. lia.
Qed.

Lemma le_bytes_val bs : bytes_ok bs -> le_bytes (length bs) (le_val bs) = bs.
Proof.
  induction 1 as [|b bs Hb _ IH]; cbn [le_val le_bytes length]; [done|].
  unfold urange in Hb. change (2 ^ 8) with 256 in Hb. f_equal.
  - rewrite Z.mul_comm, Z.mod_add by lia. apply Z.mod_small. lia.
  - replace ((b + 256 * le_val bs) / 256) with (le_val bs); [done|].
    apply (Z.div_unique _ _ _ b); lia.
Qed.

Lemma read_bytes_length mem a n bs : read_bytes mem a n = Some bs -> length bs = n.
Proof.
  revert a bs. induction n as [|n IH]; intros a bs; cbn; [by intros [= <-]|].
  destruct (mem !! a); cbn; [|done]. destruct (read_bytes mem (a + 1) n) eqn:E; cbn; [|done].
  intros [= <-]. cbn. f_equal. by eapply IH.
Qed.

Lemma read_bytes_lookup mem a n bs i :
  read_bytes mem a n = Some bs -> a <= i < a + Z.of_nat n -> mem !! i = bs !! Z.to_nat (i - a).
Proof.
  revert a bs. induction n as [|n IH]; intros a bs; cbn; [lia|].
  destruct (mem !! a) as [b|] eqn:Eb; cbn; [|done].
  destruct (read_bytes mem (a + 1) n) as [bs'|] eqn:E; cbn; [|done].
  intros [= <-] Hi. destruct (decide (i = a)) as [->|Hn].
  - by rewrite Z.sub_diag.
  - replace (Z.to_nat (i - a)) with (S (Z.to_nat (i - (a + 1)))) by lia. cbn.
    eapply IH; [done|lia].
Qed.

Lemma read_bytes_eq mem a bs :
  (forall i, a <= i < a + Z.of_nat (length bs) -> mem !! i = bs !! Z.to_nat (i - a)) ->
  read_bytes mem a (length bs) = Some bs.
Proof.
  revert a. induction bs as [|b bs IH]; intros a He; cbn [read_bytes length]; [done|].
  rewrite (He a) by (cbn; lia). rewrite Z.sub_diag. cbn. rewrite IH; [done|].
  intros i Hi. rewrite He by (cbn; lia). by replace (Z.to_nat (i - a)) with (S (Z.to_nat (i - (a + 1)))) by lia.
Qed.

Lemma read_bytes_mapped mem a n bs i :
  read_bytes mem a n = Some bs -> a <= i < a + Z.of_nat n -> is_Some (mem !! i).
Proof.
  intros Hr Hi. rewrite (read_bytes_lookup _ _ _ _ _ Hr Hi). apply lookup_lt_is_Some.
  rewrite (read_bytes_length _ _ _ _ Hr). lia.
Qed.

Lemma read_bytes_is_Some mem a n :
  is_Some (read_bytes mem a n) <-> forall i, a <= i < a + Z.of_nat n -> is_Some (mem !! i).
Proof.
  split.
  - intros [bs Hr] i Hi. by eapply read_bytes_mapped.
  - revert a. induction n as [|n IH]; intros a Hm; cbn; [by eexists|].
    destruct (Hm a ltac:(lia)) as [b ->]. cbn.
    destruct (IH (a + 1)) as [bs ->]; [intros; apply Hm; lia|]. by eexists.
Qed.

Lemma read_bytes_ext mem mem' a n :
  (forall i, a <= i < a + Z.of_nat n -> mem !! i = mem' !! i) ->
  read_bytes mem a n = read_bytes mem' a n.
Proof.
  revert a. induction n as [|n IH]; intros a He; cbn; [done|].
  rewrite (He a) by lia. by rewrite (IH (a + 1)) by (intros; apply He; lia).
Qed.

Lemma read_bytes_ok mem a n bs : mem_ok mem -> read_bytes mem a n = Some bs -> bytes_ok bs.
Proof.
  intros Hm. revert a bs. induction n as [|n IH]; intros a bs; cbn; [by intros [= <-]; constructor|].
  destruct (mem !! a) eqn:E; cbn; [|done]. destruct (read_bytes _ _ n) eqn:E'; cbn; [|done].
  intros [= <-]. constructor; [by apply (Hm a)|by eapply IH].
Qed.

Lemma write_bytes_lookup mem a bs i :
  write_bytes mem a bs !! i =
  if decide (a <= i < a + Z.of_nat (length bs)) then bs !! Z.to_nat (i - a) else mem !! i.
Proof.
  revert mem a. induction bs as [|b bs IH]; intros mem a; cbn [write_bytes length].
  - rewrite decide_False by lia. done.
  - rewrite IH. destruct (decide (i = a)) as [->|Hn].
    + rewrite decide_False, decide_True by lia. by rewrite lookup_insert_eq, Z.sub_diag.
    + rewrite lookup_insert_ne by done.
      destruct (decide (a + 1 <= i < a + 1 + Z.of_nat (length bs))).
      * rewrite decide_True by lia.
        by replace (Z.to_nat (i - a)) with (S (Z.to_nat (i - (a + 1)))) by lia.
      * by rewrite decide_False by lia.
Qed.

Lemma write_bytes_outside mem a bs i :
  ~ a <= i < a + Z.of_nat (length bs) -> write_bytes mem a bs !! i = mem !! i.
Proof. intros Hi. by rewrite write_bytes_lookup, decide_False. Qed.

Lemma write_bytes_mapped mem a bs i :
  is_Some (write_bytes mem a bs !! i) <->
  is_Some (mem !! i) \/ a <= i < a + Z.of_nat (length bs).
Proof.
  rewrite write_bytes_lookup. case_decide as Hd; [|tauto]. rewrite lookup_lt_is_Some.
  split; [auto|lia].
Qed.

Lemma read_write_same mem a bs : read_bytes (write_bytes mem a bs) a (length bs) = Some bs.
Proof.
  destruct (read_bytes (write_bytes mem a bs) a (length bs)) as [bs'|] eqn:E.
  - f_equal. apply list_eq. intros k. destruct (decide (k < length bs)%nat) as [Hk|Hk].
    + pose proof (read_bytes_lookup _ _ _ _ (a + Z.of_nat k) E ltac:(lia)) as Hr.
      rewrite write_bytes_lookup, decide_True in Hr by lia.
      replace (Z.to_nat (a + Z.of_nat k - a)) with k in Hr by lia. done.
    + apply read_bytes_length in E. rewrite !lookup_ge_None_2; (done || lia).
  - exfalso. apply eq_None_not_Some in E. apply E, read_bytes_is_Some.
    intros i Hi. apply write_bytes_mapped. by right.
Qed.

Lemma read_write_other mem a bs a' n :
  a' + Z.of_nat n <= a \/ a + Z.of_nat (length bs) <= a' ->
  read_bytes (write_bytes mem a bs) a' n = read_bytes mem a' n.
Proof. intros Hd. apply read_bytes_ext. intros i Hi. apply write_bytes_outside. lia. Qed.

Lemma mem_ok_write mem a bs : mem_ok mem -> bytes_ok bs -> mem_ok (write_bytes mem a bs).
Proof.
  intros Hm Hb i b. rewrite write_bytes_lookup. case_decide; [|apply Hm].
  intros Hl. eapply Forall_lookup_1; done.
Qed.

(** Writing back what was read undoes a write. *)
Lemma write_back mem a n old bs :
  read_bytes mem a n = Some old -> length bs = n ->
  write_bytes (write_bytes mem a bs) a old = mem.
Proof.
  intros Hr Hl. pose proof (read_bytes_length _ _ _ _ Hr) as Ho. apply map_eq. intros i.
  rewrite !write_bytes_lookup. case_decide as Hd.
  - symmetry. eapply read_bytes_lookup; [done|lia].
  - by rewrite decide_False by lia.
Qed.

Lemma write_same mem a n old : read_bytes mem a n = Some old -> write_bytes mem a old = mem.
Proof.
  intros Hr. pose proof (read_bytes_length _ _ _ _ Hr) as Ho. apply map_eq. intros i.
  rewrite write_bytes_lookup. case_decide as Hd; [|done].
  symmetry. eapply read_bytes_lookup; [done|lia].
Qed.
