(* ===== verification/Machine.v ===== *)
(** The machine the interpreter runs ([src/cpu.h]): the registers and the fault
    record of [rsd_cpu], the guest address space, the host world, the callback
    pool and the class map; the error monad every operation of [src/cpu.c] is
    written in; and guest memory access ([access_ok], [ld], [st], [log_write]).

    A run either returns with the machine it leaves, or is cut off by a trap: a
    host MMU fault (the host process would die of it), C behaviour the standard
    leaves undefined, or the fuel of an unbounded guest loop. *)
From S2P Require Import Prelude.
From S2P Require Import Memory.
From S2P Require Import AddressSpace.
From S2P Require Import Flags.
From S2P Require Import Stubs.
From S2P Require Import Callbacks.

(* ------------------------------------------------------------------ *)
(** ** Data *)

Definition RAX : Z := 0.
Definition RCX : Z := 1.
Definition RDX : Z := 2.
Definition RBX : Z := 3.
Definition RSP : Z := 4.
Definition RBP : Z := 5.
Definition RSI : Z := 6.
Definition RDI : Z := 7.
Definition R8 : Z := 8.
Definition R9 : Z := 9.
Definition R10 : Z := 10.

Definition RSD_WLOG_MAX : Z := 512.

Record wlog_entry := WEntry {
  we_addr : Z; we_old : Z; we_val : Z; we_size : Z; we_span : Z;
  we_before : list Z; we_after : list Z
}.

(** [n] is the length of [wl_e]. *)
Record writelog := WLog { wl_overflow : bool; wl_e : list wlog_entry }.

Definition empty_log : writelog := WLog false [].

(** [r] and [xmm] have sixteen entries; an XMM register is its 128 bits.  The
    pointer to the address space is a field of [machine]; the compiler's own
    fields ([jit], [jit_tmp]) belong to the parameter that stands for it. *)
Record rsd_cpu := Cpu {
  c_r : list Z;
  c_xmm : list Z;
  c_rip : Z;
  c_cur_rip : Z;
  c_flags : Z;
  c_gs_base : Z;
  c_fs_base : Z;
  c_wlog : option writelog;
  c_stubs : option rsd_stubs;
  c_stack_base : Z;
  c_stack_size : Z;
  c_running : bool;
  c_exit_code : Z;
  c_icount : Z;
  c_trace : bool;
  c_jit_check : bool;
  c_fault : option string;
  c_fault_import : Z;
  c_fault_rip : Z;
  c_fault_addr : Z;
  c_fault_has_addr : bool
}.

Definition with_r (v : list Z) (c : rsd_cpu) : rsd_cpu :=
  Cpu v (c_xmm c) (c_rip c) (c_cur_rip c) (c_flags c) (c_gs_base c) (c_fs_base c) (c_wlog c)
    (c_stubs c) (c_stack_base c) (c_stack_size c) (c_running c) (c_exit_code c) (c_icount c)
    (c_trace c) (c_jit_check c) (c_fault c) (c_fault_import c) (c_fault_rip c) (c_fault_addr
    c) (c_fault_has_addr c).
Definition with_xmm (v : list Z) (c : rsd_cpu) : rsd_cpu :=
  Cpu (c_r c) v (c_rip c) (c_cur_rip c) (c_flags c) (c_gs_base c) (c_fs_base c) (c_wlog c)
    (c_stubs c) (c_stack_base c) (c_stack_size c) (c_running c) (c_exit_code c) (c_icount c)
    (c_trace c) (c_jit_check c) (c_fault c) (c_fault_import c) (c_fault_rip c) (c_fault_addr
    c) (c_fault_has_addr c).
Definition with_rip (v : Z) (c : rsd_cpu) : rsd_cpu :=
  Cpu (c_r c) (c_xmm c) (u64 v) (c_cur_rip c) (c_flags c) (c_gs_base c) (c_fs_base c) (c_wlog
    c) (c_stubs c) (c_stack_base c) (c_stack_size c) (c_running c) (c_exit_code c) (c_icount
    c) (c_trace c) (c_jit_check c) (c_fault c) (c_fault_import c) (c_fault_rip c)
    (c_fault_addr c) (c_fault_has_addr c).
Definition with_cur_rip (v : Z) (c : rsd_cpu) : rsd_cpu :=
  Cpu (c_r c) (c_xmm c) (c_rip c) (u64 v) (c_flags c) (c_gs_base c) (c_fs_base c) (c_wlog c)
    (c_stubs c) (c_stack_base c) (c_stack_size c) (c_running c) (c_exit_code c) (c_icount c)
    (c_trace c) (c_jit_check c) (c_fault c) (c_fault_import c) (c_fault_rip c) (c_fault_addr
    c) (c_fault_has_addr c).
Definition with_flags (v : Z) (c : rsd_cpu) : rsd_cpu :=
  Cpu (c_r c) (c_xmm c) (c_rip c) (c_cur_rip c) (u32 v) (c_gs_base c) (c_fs_base c) (c_wlog c)
    (c_stubs c) (c_stack_base c) (c_stack_size c) (c_running c) (c_exit_code c) (c_icount c)
    (c_trace c) (c_jit_check c) (c_fault c) (c_fault_import c) (c_fault_rip c) (c_fault_addr
    c) (c_fault_has_addr c).
Definition with_gs_base (v : Z) (c : rsd_cpu) : rsd_cpu :=
  Cpu (c_r c) (c_xmm c) (c_rip c) (c_cur_rip c) (c_flags c) (u64 v) (c_fs_base c) (c_wlog c)
    (c_stubs c) (c_stack_base c) (c_stack_size c) (c_running c) (c_exit_code c) (c_icount c)
    (c_trace c) (c_jit_check c) (c_fault c) (c_fault_import c) (c_fault_rip c) (c_fault_addr
    c) (c_fault_has_addr c).
Definition with_fs_base (v : Z) (c : rsd_cpu) : rsd_cpu :=
  Cpu (c_r c) (c_xmm c) (c_rip c) (c_cur_rip c) (c_flags c) (c_gs_base c) (u64 v) (c_wlog c)
    (c_stubs c) (c_stack_base c) (c_stack_size c) (c_running c) (c_exit_code c) (c_icount c)
    (c_trace c) (c_jit_check c) (c_fault c) (c_fault_import c) (c_fault_rip c) (c_fault_addr
    c) (c_fault_has_addr c).
Definition with_wlog (v : option writelog) (c : rsd_cpu) : rsd_cpu :=
  Cpu (c_r c) (c_xmm c) (c_rip c) (c_cur_rip c) (c_flags c) (c_gs_base c) (c_fs_base c) v
    (c_stubs c) (c_stack_base c) (c_stack_size c) (c_running c) (c_exit_code c) (c_icount c)
    (c_trace c) (c_jit_check c) (c_fault c) (c_fault_import c) (c_fault_rip c) (c_fault_addr
    c) (c_fault_has_addr c).
Definition with_stubs (v : option rsd_stubs) (c : rsd_cpu) : rsd_cpu :=
  Cpu (c_r c) (c_xmm c) (c_rip c) (c_cur_rip c) (c_flags c) (c_gs_base c) (c_fs_base c)
    (c_wlog c) v (c_stack_base c) (c_stack_size c) (c_running c) (c_exit_code c) (c_icount c)
    (c_trace c) (c_jit_check c) (c_fault c) (c_fault_import c) (c_fault_rip c) (c_fault_addr
    c) (c_fault_has_addr c).
Definition with_stack_base (v : Z) (c : rsd_cpu) : rsd_cpu :=
  Cpu (c_r c) (c_xmm c) (c_rip c) (c_cur_rip c) (c_flags c) (c_gs_base c) (c_fs_base c)
    (c_wlog c) (c_stubs c) (u64 v) (c_stack_size c) (c_running c) (c_exit_code c) (c_icount c)
    (c_trace c) (c_jit_check c) (c_fault c) (c_fault_import c) (c_fault_rip c) (c_fault_addr
    c) (c_fault_has_addr c).
Definition with_stack_size (v : Z) (c : rsd_cpu) : rsd_cpu :=
  Cpu (c_r c) (c_xmm c) (c_rip c) (c_cur_rip c) (c_flags c) (c_gs_base c) (c_fs_base c)
    (c_wlog c) (c_stubs c) (c_stack_base c) (u64 v) (c_running c) (c_exit_code c) (c_icount c)
    (c_trace c) (c_jit_check c) (c_fault c) (c_fault_import c) (c_fault_rip c) (c_fault_addr
    c) (c_fault_has_addr c).
Definition with_running (v : bool) (c : rsd_cpu) : rsd_cpu :=
  Cpu (c_r c) (c_xmm c) (c_rip c) (c_cur_rip c) (c_flags c) (c_gs_base c) (c_fs_base c)
    (c_wlog c) (c_stubs c) (c_stack_base c) (c_stack_size c) v (c_exit_code c) (c_icount c)
    (c_trace c) (c_jit_check c) (c_fault c) (c_fault_import c) (c_fault_rip c) (c_fault_addr
    c) (c_fault_has_addr c).
Definition with_exit_code (v : Z) (c : rsd_cpu) : rsd_cpu :=
  Cpu (c_r c) (c_xmm c) (c_rip c) (c_cur_rip c) (c_flags c) (c_gs_base c) (c_fs_base c)
    (c_wlog c) (c_stubs c) (c_stack_base c) (c_stack_size c) (c_running c) (s32 v) (c_icount
    c) (c_trace c) (c_jit_check c) (c_fault c) (c_fault_import c) (c_fault_rip c)
    (c_fault_addr c) (c_fault_has_addr c).
Definition with_icount (v : Z) (c : rsd_cpu) : rsd_cpu :=
  Cpu (c_r c) (c_xmm c) (c_rip c) (c_cur_rip c) (c_flags c) (c_gs_base c) (c_fs_base c)
    (c_wlog c) (c_stubs c) (c_stack_base c) (c_stack_size c) (c_running c) (c_exit_code c)
    (u64 v) (c_trace c) (c_jit_check c) (c_fault c) (c_fault_import c) (c_fault_rip c)
    (c_fault_addr c) (c_fault_has_addr c).
Definition with_trace (v : bool) (c : rsd_cpu) : rsd_cpu :=
  Cpu (c_r c) (c_xmm c) (c_rip c) (c_cur_rip c) (c_flags c) (c_gs_base c) (c_fs_base c)
    (c_wlog c) (c_stubs c) (c_stack_base c) (c_stack_size c) (c_running c) (c_exit_code c)
    (c_icount c) v (c_jit_check c) (c_fault c) (c_fault_import c) (c_fault_rip c)
    (c_fault_addr c) (c_fault_has_addr c).
Definition with_jit_check (v : bool) (c : rsd_cpu) : rsd_cpu :=
  Cpu (c_r c) (c_xmm c) (c_rip c) (c_cur_rip c) (c_flags c) (c_gs_base c) (c_fs_base c)
    (c_wlog c) (c_stubs c) (c_stack_base c) (c_stack_size c) (c_running c) (c_exit_code c)
    (c_icount c) (c_trace c) v (c_fault c) (c_fault_import c) (c_fault_rip c) (c_fault_addr c)
    (c_fault_has_addr c).
Definition with_fault (v : option string) (c : rsd_cpu) : rsd_cpu :=
  Cpu (c_r c) (c_xmm c) (c_rip c) (c_cur_rip c) (c_flags c) (c_gs_base c) (c_fs_base c)
    (c_wlog c) (c_stubs c) (c_stack_base c) (c_stack_size c) (c_running c) (c_exit_code c)
    (c_icount c) (c_trace c) (c_jit_check c) v (c_fault_import c) (c_fault_rip c)
    (c_fault_addr c) (c_fault_has_addr c).
Definition with_fault_import (v : Z) (c : rsd_cpu) : rsd_cpu :=
  Cpu (c_r c) (c_xmm c) (c_rip c) (c_cur_rip c) (c_flags c) (c_gs_base c) (c_fs_base c)
    (c_wlog c) (c_stubs c) (c_stack_base c) (c_stack_size c) (c_running c) (c_exit_code c)
    (c_icount c) (c_trace c) (c_jit_check c) (c_fault c) (s32 v) (c_fault_rip c) (c_fault_addr
    c) (c_fault_has_addr c).
Definition with_fault_rip (v : Z) (c : rsd_cpu) : rsd_cpu :=
  Cpu (c_r c) (c_xmm c) (c_rip c) (c_cur_rip c) (c_flags c) (c_gs_base c) (c_fs_base c)
    (c_wlog c) (c_stubs c) (c_stack_base c) (c_stack_size c) (c_running c) (c_exit_code c)
    (c_icount c) (c_trace c) (c_jit_check c) (c_fault c) (c_fault_import c) (u64 v)
    (c_fault_addr c) (c_fault_has_addr c).
Definition with_fault_addr (v : Z) (c : rsd_cpu) : rsd_cpu :=
  Cpu (c_r c) (c_xmm c) (c_rip c) (c_cur_rip c) (c_flags c) (c_gs_base c) (c_fs_base c)
    (c_wlog c) (c_stubs c) (c_stack_base c) (c_stack_size c) (c_running c) (c_exit_code c)
    (c_icount c) (c_trace c) (c_jit_check c) (c_fault c) (c_fault_import c) (c_fault_rip c)
    (u64 v) (c_fault_has_addr c).
Definition with_fault_has_addr (v : bool) (c : rsd_cpu) : rsd_cpu :=
  Cpu (c_r c) (c_xmm c) (c_rip c) (c_cur_rip c) (c_flags c) (c_gs_base c) (c_fs_base c)
    (c_wlog c) (c_stubs c) (c_stack_base c) (c_stack_size c) (c_running c) (c_exit_code c)
    (c_icount c) (c_trace c) (c_jit_check c) (c_fault c) (c_fault_import c) (c_fault_rip c)
    (c_fault_addr c) v.

Definition RSD_RETURN_MAGIC : Z := 0xfffffffffffff000.
Definition RSD_CALLBACK_MAGIC : Z := 0xfffffffffffff100.

(** [memset(c, 0, sizeof *c)] and the scalar assignments after it. *)
Definition zero_cpu : rsd_cpu :=
  Cpu (replicate 16 0) (replicate 16 0) 0 0 0 0 0 None None 0 0 false 0 0 false false
    None 0 0 0 false.

Definition reset_cpu (entry : Z) : rsd_cpu :=
  with_running true (with_flags 0x202 (with_rip entry (with_fault_import (-1) zero_cpu))).

Record machine `{HostOS} := Machine {
  m_c : rsd_cpu;
  m_as : rsd_as;
  m_w : world;
  m_cb : callbacks;
  m_cm : list (Z * Z)
}.
Arguments Machine {_} _ _ _ _ _.

Inductive trap :=
| HostFault (a : Z)          (** the host MMU refuses the access *)
| Undefined (what : string)  (** undefined behaviour of C *)
| OutOfFuel.

Inductive outcome `{HostOS} (A : Type) :=
| Ok (a : A) (m : machine)
| Trap (t : trap).
Arguments Ok {_ _} _ _.
Arguments Trap {_ _} _.

(* ------------------------------------------------------------------ *)
(** ** The monad *)

Section monad.
Context `{HostOS}.

Definition M (A : Type) : Type := machine -> outcome A.

#[global] Instance M_ret : MRet M := fun A a m => Ok a m.
#[global] Instance M_bind : MBind M := fun A B f c m =>
  match c m with
  | Ok a m => f a m
  | Trap t => Trap t
  end.

Definition raise {A} (t : trap) : M A := fun _ => Trap t.
Definition gets {A} (f : machine -> A) : M A := fun m => Ok (f m) m.
Definition get_c {A} (f : rsd_cpu -> A) : M A := gets (fun m => f (m_c m)).
Definition modify (f : machine -> machine) : M unit := fun m => Ok tt (f m).
Definition upd (f : rsd_cpu -> rsd_cpu) : M unit :=
  modify (fun m => Machine (f (m_c m)) (m_as m) (m_w m) (m_cb m) (m_cm m)).
Definition set_as (s : rsd_as) : M unit :=
  modify (fun m => Machine (m_c m) s (m_w m) (m_cb m) (m_cm m)).
Definition set_world (w : world) : M unit :=
  modify (fun m => Machine (m_c m) (m_as m) w (m_cb m) (m_cm m)).
Definition set_mem (mem : gmap Z Z) : M unit :=
  modify (fun m => Machine (m_c m) (m_as m) (World (w_host (m_w m)) mem) (m_cb m) (m_cm m)).
Definition set_cb (cb : callbacks) : M unit :=
  modify (fun m => Machine (m_c m) (m_as m) (m_w m) cb (m_cm m)).
Definition when (b : bool) (c : M unit) : M unit := if b then c else mret tt.

(** Registers by number; every assignment converts to [uint64_t]. *)
Definition getr (i : Z) : M Z := get_c (fun c => c_r c !!! Z.to_nat i).
Definition setr (i v : Z) : M unit := upd (fun c => with_r (<[Z.to_nat i := u64 v]> (c_r c)) c).
Definition getx (i : Z) : M Z := get_c (fun c => c_xmm c !!! Z.to_nat i).
Definition setx (i v : Z) : M unit :=
  upd (fun c => with_xmm (<[Z.to_nat i := uwrap 128 v]> (c_xmm c)) c).
Definition set_flags (v : Z) : M unit := upd (with_flags v).
Definition set_rip (v : Z) : M unit := upd (with_rip v).

(** [c->fault = what; c->fault_rip = at; c->running = false]. *)
Definition stop (what : string) (at_ : Z) : M unit :=
  upd (fun c => with_running false (with_fault_rip at_ (with_fault (Some what) c))).
End monad.

(* ------------------------------------------------------------------ *)
(** ** Host memory *)

Section memory.
Context `{HostOS}.

Definition host_read (a size : Z) : M Z := fun m =>
  match read_bytes (w_mem (m_w m)) a (Z.to_nat size) with
  | Some bs => Ok (le_val bs) m
  | None => Trap (HostFault a)
  end.

Definition host_bytes (a size : Z) : M (list Z) := fun m =>
  match read_bytes (w_mem (m_w m)) a (Z.to_nat size) with
  | Some bs => Ok bs m
  | None => Trap (HostFault a)
  end.

Definition host_store (a : Z) (bs : list Z) : M unit := fun m =>
  match read_bytes (w_mem (m_w m)) a (length bs) with
  | Some _ => set_mem (write_bytes (w_mem (m_w m)) a bs) m
  | None => Trap (HostFault a)
  end.

Definition host_write (a size v : Z) : M unit := host_store a (le_bytes (Z.to_nat size) v).
End memory.

(* ------------------------------------------------------------------ *)
(** ** Guest memory *)

Definition memfault_cpu (a : Z) (what : string) (c : rsd_cpu) : rsd_cpu :=
  with_running false
    (match c_fault c with
     | None => with_fault_has_addr true (with_fault_addr a (with_fault_rip (c_cur_rip c)
                 (with_fault (Some what) c)))
     | Some _ => c
     end).

Definition RSD_MIN_VALID : Z := 0x1000.
Definition RSD_MAX_VALID : Z := 0x0001000000000000.

Definition access_ok (s : rsd_as) (a n prot : Z) : bool :=
  if rsd_as_ok s a n prot then true
  else if rsd_as_mapped s a n then false
  else (RSD_MIN_VALID <=? a) && (a <? RSD_MAX_VALID) && (n <=? u64 (RSD_MAX_VALID - a)).

Definition why (s : rsd_as) (a n : Z) : string :=
  if rsd_as_mapped s a n then "guest memory protection"
  else if a <? RSD_MIN_VALID then "null pointer"
  else "not a usable address".

Section access.
Context `{HostOS}.

Definition memfault (a : Z) (what : string) : M unit := upd (memfault_cpu a what).

(** [log_write]: [v] is masked to the write's size. *)
Definition log_write (a v size : Z) : M unit :=
  w ← get_c c_wlog;
  match w with
  | None => mret tt
  | Some w =>
      if RSD_WLOG_MAX <=? Z.of_nat (length (wl_e w))
      then upd (with_wlog (Some (WLog true (wl_e w))))
      else
        old ← host_read a size;
        s ← gets m_as;
        let span := if rsd_as_ok s a 16 RSD_PROT_R then 16 else size in
        before ← host_bytes a span;
        let e := WEntry a old (v .& (if size =? 8 then Z.ones 64 else (1 << (size * 8)) - 1))
                   size span before [] in
        upd (with_wlog (Some (WLog (wl_overflow w) (wl_e w ++ [e]))))
  end.

(** The [switch] on the size of an access: anything but 1, 2 and 4 is 8. *)
Definition access_width (size : Z) : Z := if is_one_of size [1; 2; 4] then size else 8.

Definition ld (a size : Z) : M Z :=
  s ← gets m_as;
  if negb (access_ok s a (u64 size) RSD_PROT_R)
  then memfault a (why s a (u64 size));; mret 0
  else host_read a (access_width size).

Definition st (a v size : Z) : M unit :=
  s ← gets m_as;
  if negb (access_ok s a (u64 size) RSD_PROT_W)
  then memfault a (why s a (u64 size))
  else log_write a v size;; host_write a (access_width size) v.

Definition ld128 (a : Z) : M Z :=
  s ← gets m_as;
  if negb (access_ok s a 16 RSD_PROT_R)
  then memfault a (why s a 16);; mret 0
  else host_read a 16.

Definition st128 (a v : Z) : M unit :=
  s ← gets m_as;
  if negb (access_ok s a 16 RSD_PROT_W)
  then memfault a (why s a 16)
  else log_write a (u64 v) 8;; log_write (u64 (a + 8)) (u64 (v >> 64)) 8;; host_write a 16 v.

(** Compiled code's loads and stores note the region that served them. *)
Definition note_if_ok (a prot : Z) : M unit :=
  f ← get_c c_fault;
  match f with
  | None => s ← gets m_as; set_as (rsd_as_note s a prot)
  | Some _ => mret tt
  end.

Definition rsd_i_ld (a size : Z) : M Z :=
  v ← ld a (s32 size); note_if_ok a RSD_PROT_R;; mret v.

Definition rsd_i_st (a v size : Z) : M unit :=
  st a v (s32 size);; note_if_ok a RSD_PROT_W.

Definition rsd_i_wlog (a v size : Z) : M unit := log_write a v (s32 size).
End access.
