(* ===== verification/Decode.v ===== *)
(** Registers at their widths, operands and the instruction decoder
    ([setreg] to [pop] in [src/cpu.c]).  The decoder's cursor [p] is an
    address: guest and host addresses coincide.  Fetching does not check guest
    permissions, exactly as the code does not; only the host MMU stops it. *)
From S2P Require Import Prelude.
From S2P Require Import Memory.
From S2P Require Import AddressSpace.
From S2P Require Import Flags.
From S2P Require Import Machine.

Record opnd := Opnd { is_reg : bool; o_reg : Z; o_addr : Z; o_seg : Z }.

Definition reg_opnd (r : Z) : opnd := Opnd true r 0 0.

(** The operand size a prefix can select: 2, 4 or 8 bytes. *)
Inductive osize := Size2 | Size4 | Size8.
Definition osz (s : osize) : Z := match s with Size2 => 2 | Size4 => 4 | Size8 => 8 end.

(** [c] is the machine; [addr32] is recorded by the code and never read. *)
Record dec := Dec {
  d_p : Z; d_p0 : Z; d_rip0 : Z; d_rex : Z; d_has_rex : bool; d_osize : osize;
  d_addr32 : bool; d_seg_base : Z; d_mand : Z
}.

Definition with_p (p : Z) (d : dec) : dec :=
  Dec p (d_p0 d) (d_rip0 d) (d_rex d) (d_has_rex d) (d_osize d) (d_addr32 d) (d_seg_base d) (d_mand d).

Definition d_opsize (d : dec) : Z := osz (d_osize d).

Definition dec_rip (d : dec) : Z := u64 (d_rip0 d + (d_p d - d_p0 d)).

(** One bit of the REX prefix, as the number a register index takes from it. *)
Definition rex_b (d : dec) : Z := if nz (d_rex d .& 1) then 8 else 0.
Definition rex_x (d : dec) : Z := if nz (d_rex d .& 2) then 8 else 0.
Definition rex_r (d : dec) : Z := if nz (d_rex d .& 4) then 8 else 0.

Section decode.
Context `{HostOS}.

(* ---------------------------------------------------------------- *)
(** ** Registers *)

Definition setreg (r v size : Z) : M unit :=
  old ← getr r;
  if size =? 1 then setr r ((old .& .~ 0xff) .| (v .& 0xff))
  else if size =? 2 then setr r ((old .& .~ 0xffff) .| (v .& 0xffff))
  else if size =? 4 then setr r (v .& 0xffffffff)
  else setr r v.

Definition getreg (r size : Z) : M Z := v ← getr r; mret (trunc_sz v size).

Definition getreg8 (r : Z) (rex : bool) : M Z :=
  if negb rex && (4 <=? r) && (r <? 8)
  then v ← getr (r - 4); mret ((v >> 8) .& 0xff)
  else v ← getr r; mret (v .& 0xff).

Definition setreg8 (r v : Z) (rex : bool) : M unit :=
  if negb rex && (4 <=? r) && (r <? 8)
  then old ← getr (r - 4); setr (r - 4) ((old .& .~ 0xff00) .| ((v .& 0xff) << 8))
  else old ← getr r; setr r ((old .& .~ 0xff) .| (v .& 0xff)).

(* ---------------------------------------------------------------- *)
(** ** The instruction stream *)

Definition fetch (n : Z) (d : dec) : M (Z * dec) :=
  v ← host_read (d_p d) n; mret (v, with_p (d_p d + n) d).

Definition fetch8 (d : dec) : M (Z * dec) := fetch 1 d.
Definition fetch16 (d : dec) : M (Z * dec) := fetch 2 d.
Definition fetch32 (d : dec) : M (Z * dec) := fetch 4 d.
Definition fetch64 (d : dec) : M (Z * dec) := fetch 8 d.

(** The SIB byte: the address before any displacement of [mod]. *)
Definition sib_addr (d : dec) (mod_ : Z) : M (Z * dec) :=
  '(sib, d) ← fetch8 d;
  let scale := sib >> 6 in
  let index := ((sib >> 3) .& 7) .| rex_x d in
  let base := (sib .& 7) .| rex_b d in
  iv ← getr index;
  let addr := if index =? RSP then 0 else u64 (iv << scale) in
  if (sib .& 7 =? 5) && (mod_ =? 0)
  then '(disp, d) ← fetch32 d; mret (u64 (addr + s32 disp), d)
  else bv ← getr base; mret (u64 (addr + bv), d).

(** The displacement [mod] asks for. *)
Definition modrm_disp (d : dec) (mod_ addr : Z) : M (Z * dec) :=
  if mod_ =? 1 then '(x, d) ← fetch8 d; mret (u64 (addr + s8 x), d)
  else if mod_ =? 2 then '(x, d) ← fetch32 d; mret (u64 (addr + s32 x), d)
  else mret (addr, d).

(** The reg field, the r/m operand and the cursor past them.  [o_reg] of a
    memory operand is -1 while a rip-relative address is pending. *)
Definition modrm (d : dec) : M (Z * opnd * dec) :=
  '(m, d) ← fetch8 d;
  let mod_ := m >> 6 in
  let reg := ((m >> 3) .& 7) .| rex_r d in
  let rm_bits := m .& 7 in
  if mod_ =? 3 then mret (reg, reg_opnd (rm_bits .| rex_b d), d)
  else if rm_bits =? 4 then
    '(addr, d) ← sib_addr d mod_;
    '(addr, d) ← modrm_disp d mod_ addr;
    mret (reg, Opnd false (-2) addr (d_seg_base d), d)
  else if (rm_bits =? 5) && (mod_ =? 0) then
    '(disp, d) ← fetch32 d;
    mret (reg, Opnd false (-1) (u64 (s32 disp)) (d_seg_base d), d)
  else
    addr ← getr (rm_bits .| rex_b d);
    '(addr, d) ← modrm_disp d mod_ addr;
    mret (reg, Opnd false (-2) addr (d_seg_base d), d).

Definition fixup_rip (d : dec) (rm : opnd) : opnd :=
  if negb (is_reg rm) && (o_reg rm =? -1)
  then Opnd false (o_reg rm) (u64 (dec_rip d + s32 (o_addr rm))) (o_seg rm)
  else rm.

(* ---------------------------------------------------------------- *)
(** ** Operands and the stack *)

Definition rd (o : opnd) (size : Z) (has_rex : bool) : M Z :=
  if is_reg o then (if size =? 1 then getreg8 (o_reg o) has_rex else getreg (o_reg o) size)
  else ld (u64 (o_addr o + o_seg o)) size.

Definition wr (o : opnd) (v size : Z) (has_rex : bool) : M unit :=
  if is_reg o then (if size =? 1 then setreg8 (o_reg o) v has_rex else setreg (o_reg o) v size)
  else st (u64 (o_addr o + o_seg o)) v size.

Definition push (v : Z) : M unit :=
  sp ← getr RSP; setr RSP (sp - 8);; sp ← getr RSP; st sp v 8.

Definition pop : M Z :=
  sp ← getr RSP; v ← ld sp 8; sp ← getr RSP; setr RSP (sp + 8);; mret v.

(* ---------------------------------------------------------------- *)
(** ** Prefixes *)

Definition with_opsize (n : osize) (d : dec) : dec :=
  Dec (d_p d) (d_p0 d) (d_rip0 d) (d_rex d) (d_has_rex d) n (d_addr32 d) (d_seg_base d) (d_mand d).
Definition with_addr32 (d : dec) : dec :=
  Dec (d_p d) (d_p0 d) (d_rip0 d) (d_rex d) (d_has_rex d) (d_osize d) true (d_seg_base d) (d_mand d).
Definition with_seg (s : Z) (d : dec) : dec :=
  Dec (d_p d) (d_p0 d) (d_rip0 d) (d_rex d) (d_has_rex d) (d_osize d) (d_addr32 d) s (d_mand d).
Definition with_mand (b : Z) (d : dec) : dec :=
  Dec (d_p d) (d_p0 d) (d_rip0 d) (d_rex d) (d_has_rex d) (d_osize d) (d_addr32 d) (d_seg_base d) b.
Definition with_rex (b : Z) (d : dec) : dec :=
  Dec (d_p d) (d_p0 d) (d_rip0 d) b true (d_osize d) (d_addr32 d) (d_seg_base d) (d_mand d).

(** What one legacy prefix does to the decoder; [None] when [b] is none. *)
Definition prefix (c : rsd_cpu) (b : Z) (d : dec) : option dec :=
  let d' := with_p (d_p d + 1) d in
  if b =? 0x66 then Some (with_mand 0x66 (with_opsize Size2 d'))
  else if b =? 0x67 then Some (with_addr32 d')
  else if is_one_of b [0xF2; 0xF3] then Some (with_mand b d')
  else if is_one_of b [0x2E; 0x36; 0x3E; 0x26] then Some d'
  else if b =? 0x64 then Some (with_seg (c_fs_base c) d')
  else if b =? 0x65 then Some (with_seg (c_gs_base c) d')
  else None.

Fixpoint prefixes (fuel : nat) (d : dec) : M dec :=
  match fuel with
  | O => raise OutOfFuel
  | S fuel =>
      b ← host_read (d_p d) 1;
      c ← get_c id;
      match prefix c b d with
      | Some d => prefixes fuel d
      | None => mret d
      end
  end.

(** More iterations than there are mapped bytes to read. *)
Definition prefix_fuel (m : machine) : nat := S (size (w_mem (m_w m))).

Definition rex_prefix (d : dec) : M dec :=
  b ← host_read (d_p d) 1;
  if b .& 0xF0 =? 0x40
  then let d := with_rex b (with_p (d_p d + 1) d) in
       mret (if nz (b .& 8) then with_opsize Size8 d else d)
  else mret d.

(** [c->rip = dec_rip(&d)]. *)
Definition ADVANCE (d : dec) : M unit := set_rip (dec_rip d).
End decode.

Lemma d_opsize_ok d : opsize (d_opsize d).
Proof. unfold d_opsize, opsize. destruct (d_osize d); cbn; auto. Qed.

(** The sizes instructions pass to memory are access sizes. *)
Ltac opsize_tac :=
  repeat case_match; first [apply d_opsize_ok | by left | right; by left | right; right; by left
                           | right; right; by right].
