(* ===== verification/Syscall.v ===== *)
(** The system calls the interpreter answers itself ([do_syscall] in
    [src/cpu.c]); the kernel's part is [HostOS]. *)
From S2P Require Import Prelude.
From S2P Require Import Memory.
From S2P Require Import AddressSpace.
From S2P Require Import Flags.
From S2P Require Import Machine.

Definition SYSCALL_CLASS (n : Z) : Z := (n >> 24) .& 0xff.
Definition SYSCALL_NUMBER (n : Z) : Z := n .& 0xffffff.
Definition CLASS_MACH : Z := 1.
Definition CLASS_BSD : Z := 2.
Definition CLASS_MDEP : Z := 3.
Definition ENOMEM : Z := 12.

Section syscall.
Context `{HostOS}.

(** [ret] is an [int64_t]. *)
Definition syscall_ret (ret : Z) : M unit :=
  fl ← get_c c_flags;
  if ret <? 0 then set_flags (fl .| F_CF);; setr RAX (- ret)
  else set_flags (fl .& .~ F_CF);; setr RAX ret.

Definition unimplemented_syscall : M unit :=
  rip ← get_c c_rip; stop "unimplemented syscall" rip.

Definition sys_exit (a0 : Z) : M unit :=
  upd (fun c => with_exit_code (s32 a0) (with_running false c)).

Definition sys_read (a0 a1 a2 : Z) : M unit :=
  s ← gets m_as;
  if negb (access_ok s a1 a2 RSD_PROT_W) then memfault a1 "read() buffer is not writable" else
  w ← gets m_w;
  let '(ret, (h, mem)) := h_read (w_host w) (w_mem w) (s32 a0) a1 a2 in
  set_world (World h mem);; syscall_ret ret.

Definition sys_write (a0 a1 a2 : Z) : M unit :=
  s ← gets m_as;
  if negb (access_ok s a1 a2 RSD_PROT_R) then memfault a1 "write() buffer is not readable" else
  w ← gets m_w;
  let '(ret, h) := h_write (w_host w) (w_mem w) (s32 a0) a1 a2 in
  set_world (World h (w_mem w));; syscall_ret ret.

Definition sys_close (a0 : Z) : M unit :=
  w ← gets m_w;
  let '(ret, h) := h_close (w_host w) (s32 a0) in
  set_world (World h (w_mem w));; syscall_ret ret.

Definition sys_munmap (a0 a1 : Z) : M unit :=
  s ← gets m_as; w ← gets m_w;
  let '(ret, s, w) := rsd_as_unmap w s a0 a1 in
  set_as s;; set_world w;; syscall_ret ret.

Definition sys_mprotect (a0 a1 a2 : Z) : M unit :=
  s ← gets m_as; w ← gets m_w;
  let '(ret, s) := rsd_as_protect w s a0 a1 (a2 .& 7) in
  set_as s;; syscall_ret ret.

Definition sys_mmap (a0 a1 a2 : Z) : M unit :=
  flags ← getr R10; r8 ← getr R8;
  let fd := s32 r8 in
  if negb (nz (flags .& 0x1000)) && (0 <=? fd) then unimplemented_syscall else
  s ← gets m_as; w ← gets m_w;
  let '(got, s, w) := rsd_as_map w s a0 a1 (a2 .& 7) (nz (flags .& 0x10)) in
  set_as s;; set_world w;;
  if negb (nz got) then syscall_ret (- ENOMEM)
  else fl ← get_c c_flags; set_flags (fl .& .~ F_CF);; setr RAX got.

Definition do_syscall : M unit :=
  rax ← getr RAX;
  let klass := SYSCALL_CLASS rax in
  let n := SYSCALL_NUMBER rax in
  a0 ← getr RDI; a1 ← getr RSI; a2 ← getr RDX;
  if klass =? CLASS_MDEP then
    (if n =? 3 then upd (with_gs_base a0);; syscall_ret 0 else unimplemented_syscall)
  else if negb (klass =? CLASS_BSD) then unimplemented_syscall
  else if n =? 1 then sys_exit a0
  else if n =? 3 then sys_read a0 a1 a2
  else if n =? 4 then sys_write a0 a1 a2
  else if n =? 6 then sys_close a0
  else if n =? 73 then sys_munmap a0 a1
  else if n =? 74 then sys_mprotect a0 a1 a2
  else if n =? 75 then syscall_ret 0
  else if n =? 197 then sys_mmap a0 a1 a2
  else unimplemented_syscall.
End syscall.
