(* ===== verification/Native.v ===== *)
(** Calls out of the guest into native code ([call_native] to
    [call_native_variadic] in [src/cpu.c], the gate of [src/callgate.S]).
    What a native function does is a parameter: a resumption that may call back
    into the guest any number of times before it returns. *)
From Stdlib Require Import Ascii.
From S2P Require Import Prelude.
From S2P Require Import Memory.
From S2P Require Import AddressSpace.
From S2P Require Import Flags.
From S2P Require Import Stubs.
From S2P Require Import Callbacks.
From S2P Require Import Machine.

(* ------------------------------------------------------------------ *)
(** ** XMM lanes *)

(** Lane [i] of width [w] of an XMM register. *)
Definition lane (w i x : Z) : Z := uwrap w (x >> (w * i)).
Definition set_lane (w i v x : Z) : Z :=
  (x .& .~ (Z.ones w << (w * i))) .| (uwrap w v << (w * i)).

(* ------------------------------------------------------------------ *)
(** ** Native code *)

(** A native call in progress: finished with x0, x1, d0 and d1, or entering
    trampoline [index] with the argument registers it passes. *)
Inductive nproc `{HostOS} :=
| NDone (ret : list Z) (w : world)
| NCall (w : world) (index : Z) (x d : list Z) (k : list Z -> list Z -> world -> nproc).

(** [native_run fn x d stack w]: enter [fn] with those registers and stack
    slots.  [sel_name] and [objc_cstring] are the Objective-C runtime's. *)
Class Native `{HostOS} := {
  native_run : Z -> list Z -> list Z -> list Z -> world -> nproc;
  sel_name : world -> Z -> option string;
  objc_cstring : world -> Z -> option Z * world
}.

Record sysv_reader := Sysv { sv_gp : Z; sv_sse : Z; sv_stack : Z }.

Definition sysv_order : list Z := [RDI; RSI; RDX; RCX; R8; R9].

Definition chr (c : ascii) : Z := Z.of_N (N_of_ascii c).

(** [strchr(s, ch) != NULL] for a non-zero [ch]. *)
Fixpoint strchr (s : string) (ch : Z) : bool :=
  match s with
  | EmptyString => false
  | String c s => (chr c =? ch) || strchr s ch
  end.

Section native.
Context `{Native} `{Trampolines}.

(** The handler for calls back into the guest, [rsd_guest_call]. *)
Variable guest_call : Z -> list Z -> list Z -> M (list Z * list Z).

Fixpoint run_native (p : nproc) : M (list Z) :=
  match p with
  | NDone ret w => set_world w;; mret ret
  | NCall w index x d k =>
      set_world w;;
      '(x, d) ← guest_call index x d;
      w ← gets m_w;
      run_native (k x d w)
  end.

Definition rsd_call_native (fn : Z) (x d stack : list Z) : M (list Z) :=
  w ← gets m_w; run_native (native_run fn x d stack w).

Definition set_xlane (w r i v : Z) : M unit := x ← getx r; setx r (set_lane w i v x).

Definition pop_rip : M unit :=
  sp ← getr RSP; v ← ld sp 8; sp ← getr RSP; setr RSP (sp + 8);; set_rip v.

Definition finish_native_call (ret : list Z) : M unit :=
  setr RAX (ret !!! 0%nat);; setr RDX (ret !!! 1%nat);;
  set_xlane 64 0 0 (ret !!! 2%nat);; set_xlane 64 1 0 (ret !!! 3%nat);;
  pop_rip.

Definition callback_for (g : Z) : M Z :=
  cb ← gets m_cb;
  let '(a, cb) := rsd_callback_for cb g in set_cb cb;; mret a.

Definition call_native (fn cbarg : Z) (objcrecv : bool) : M unit :=
  x ← get_c (fun c => (fun i => c_r c !!! Z.to_nat i) <$> sysv_order);
  let x := x ++ [0; 0] in
  x ← (if (0 <=? cbarg) && (cbarg <? 6)
       then a ← callback_for (x !!! Z.to_nat cbarg); mret (<[Z.to_nat cbarg := a]> x)
       else mret x);
  cm ← gets m_cm;
  let x := if objcrecv then <[0%nat := rsd_objc_real_class cm (x !!! 0%nat)]> x else x in
  d ← get_c (fun c => lane 64 0 <$> take 8 (c_xmm c));
  ret ← rsd_call_native fn x d [];
  finish_native_call ret.

(* ---------------------------------------------------------------- *)
(** ** Variadic calls *)

Definition stack_arg (a : sysv_reader) : M (Z * sysv_reader) :=
  v ← ld (sv_stack a) 8; mret (v, Sysv (sv_gp a) (sv_sse a) (u64 (sv_stack a + 8))).

Definition sysv_int (a : sysv_reader) : M (Z * sysv_reader) :=
  if sv_gp a <? 6
  then v ← getr (sysv_order !!! Z.to_nat (sv_gp a));
       mret (v, Sysv (sv_gp a + 1) (sv_sse a) (sv_stack a))
  else stack_arg a.

Definition sysv_sse (a : sysv_reader) : M (Z * sysv_reader) :=
  if sv_sse a <? 8
  then x ← getx (sv_sse a); mret (lane 64 0 x, Sysv (sv_gp a) (sv_sse a + 1) (sv_stack a))
  else stack_arg a.

(** The inner loop of [marshal_format]: one conversion after its [%].
    Returns the conversion character (0 for none), the flags and the cursor. *)
Fixpoint conversion (fuel : nat) (p : Z) (star ldbl : bool) : M (Z * bool * bool * Z) :=
  match fuel with
  | O => raise OutOfFuel
  | S fuel =>
      ch ← ld p 1;
      let p := u64 (p + 1) in
      running ← get_c c_running;
      if negb running || negb (nz ch) then mret (0, star, ldbl, p)
      else if ch =? chr "*" then conversion fuel p true ldbl
      else if ch =? chr "L" then conversion fuel p star true
      else if strchr "diouxXcspnfFeEgGaA@%" ch then mret (ch, star, ldbl, p)
      else conversion fuel p star ldbl
  end.

(** [None] for -1.  [slots] are the ones filled so far. *)
Fixpoint marshal_loop (fuel fuel0 : nat) (p : Z) (scan : bool) (a : sysv_reader)
    (slots : list Z) (max : Z) : M (option (list Z)) :=
  match fuel with
  | O => raise OutOfFuel
  | S fuel =>
      ch ← ld p 1;
      let p := u64 (p + 1) in
      running ← get_c c_running;
      if negb running then mret None
      else if negb (nz ch) then mret (Some slots)
      else if negb (ch =? chr "%") then marshal_loop fuel fuel0 p scan a slots max
      else
        '(conv, star, ldbl, p) ← conversion fuel0 p false false;
        if negb (nz conv) || (conv =? chr "%") then marshal_loop fuel fuel0 p scan a slots max
        else if (ldbl : bool) then mret None
        else if (star : bool) && scan then marshal_loop fuel fuel0 p scan a slots max
        else if (star : bool) && (max <=? Z.of_nat (length slots)) then mret None
        else
          '(slots, a) ← (if (star : bool) then '(v, a) ← sysv_int a; mret (slots ++ [v], a)
                         else mret (slots, a));
          if max <=? Z.of_nat (length slots) then mret None else
          '(v, a) ← (if negb scan && strchr "fFeEgGaA" conv then sysv_sse a else sysv_int a);
          marshal_loop fuel fuel0 p scan a (slots ++ [v]) max
  end.

Definition marshal_fuel (m : machine) : nat := S (S (size (w_mem (m_w m)))).

Definition marshal_format (fmt : Z) (scan : bool) (a : sysv_reader) (max : Z)
    : M (option (list Z)) :=
  fun m => marshal_loop (marshal_fuel m) (marshal_fuel m) fmt scan a [] max m.

(** The loop that reads the fixed arguments, from argument [i]. *)
Fixpoint fixed_args (n : nat) (i : nat) (a : sysv_reader) (x : list Z) : M (list Z * sysv_reader) :=
  match n with
  | O => mret (x, a)
  | S n => '(v, a) ← sysv_int a; fixed_args n (S i) a (<[i := v]> x)
  end.

Definition forward_variadic (fn nfixed fmt_index : Z) (sp : rsd_vaspec) (objcrecv : bool)
    (rsp : Z) : M unit :=
  '(x, a) ← fixed_args (Z.to_nat (Z.min nfixed 8)) 0 (Sysv 0 0 (u64 (rsp + 8))) (replicate 8 0);
  cm ← gets m_cm;
  let x := if objcrecv then <[0%nat := rsd_objc_real_class cm (x !!! 0%nat)]> x else x in
  let fmt := x !!! Z.to_nat fmt_index in
  w ← gets m_w;
  let '(cs, w') := if va_nsformat sp then objc_cstring w fmt else (Some fmt, w) in
  set_world w';;
  cur ← get_c c_cur_rip;
  match cs with
  | None => stop "cannot read the format string of a variadic call" cur
  | Some fmt =>
      n ← marshal_format fmt (va_scan sp) a 64;
      match n with
      | None =>
          f ← get_c c_fault;
          match f with
          | None => stop "cannot forward this variadic call" cur
          | Some _ => mret tt
          end
      | Some slots =>
          ret ← rsd_call_native fn x (replicate 8 0) slots;
          finish_native_call ret
      end
  end.

Definition call_native_variadic (fn : Z) (sp : rsd_vaspec) (objcrecv : bool) : M unit :=
  rsp ← getr RSP;
  if va_objc sp then
    sel ← getr RSI; w ← gets m_w;
    let nfixed := rsd_objc_variadic_sel (sel_name w) sel in
    if negb (nz nfixed) then call_native fn (-1) objcrecv
    else forward_variadic fn nfixed (nfixed - 1) sp objcrecv rsp
  else forward_variadic fn (va_nfixed sp) (va_fmt sp) sp objcrecv rsp.
End native.
