(* ===== verification/Float.v ===== *)
(** Floating point as the interpreter uses it ([rsd_i_cvt2si] to [x86_nan_s],
    [comis], [fcmp] and [fbin] in [src/cpu.c]): values are the bits of IEEE
    binary32 and binary64, the arithmetic is the Standard Library's [SpecFloat].
    The payload a host conversion gives a NaN is a parameter. *)
From Stdlib Require Import SpecFloat.
From S2P Require Import Prelude.
From S2P Require Import Flags.

(* ------------------------------------------------------------------ *)
(** ** The formats *)

(** A format: the width of its stored significand and of its exponent. *)
Record fmt := Fmt { f_mw : Z; f_ew : Z }.
Definition F32 : fmt := Fmt 23 8.
Definition F64 : fmt := Fmt 52 11.

Definition f_prec (f : fmt) : Z := f_mw f + 1.
Definition f_emax (f : fmt) : Z := 2 ^ (f_ew f - 1).
Definition f_width (f : fmt) : Z := 1 + f_ew f + f_mw f.
Definition f_emin (f : fmt) : Z := 3 - f_emax f - f_prec f.

Definition f_sign (f : fmt) (b : Z) : bool := Z.testbit b (f_ew f + f_mw f).
Definition f_exp (f : fmt) (b : Z) : Z := uwrap (f_ew f) (b >> f_mw f).
Definition f_man (f : fmt) (b : Z) : Z := uwrap (f_mw f) b.

Definition pos (z : Z) : positive := Z.to_pos z.

(** The value of a bit pattern, and the pattern of a canonical value. *)
Definition f_val (f : fmt) (b : Z) : spec_float :=
  let s := f_sign f b in let e := f_exp f b in let m := f_man f b in
  if e =? 0 then (if m =? 0 then S754_zero s else S754_finite s (pos m) (f_emin f))
  else if e =? 2 ^ f_ew f - 1 then (if m =? 0 then S754_infinity s else S754_nan)
  else S754_finite s (pos (m + 2 ^ f_mw f)) (f_emin f + e - 1).

Definition f_pack (f : fmt) (s : bool) (e m : Z) : Z :=
  bz s * 2 ^ (f_ew f + f_mw f) + e * 2 ^ f_mw f + m.

(** A NaN becomes the host's default one. *)
Definition f_bits (f : fmt) (v : spec_float) : Z :=
  match v with
  | S754_zero s => f_pack f s 0 0
  | S754_infinity s => f_pack f s (2 ^ f_ew f - 1) 0
  | S754_nan => f_pack f false (2 ^ f_ew f - 1) (2 ^ (f_mw f - 1))
  | S754_finite s m e =>
      if Zpos m <? 2 ^ f_mw f then f_pack f s 0 (Zpos m)
      else f_pack f s (e - f_emin f + 1) (Zpos m - 2 ^ f_mw f)
  end.

Definition f_isnan (f : fmt) (b : Z) : bool :=
  (f_exp f b =? 2 ^ f_ew f - 1) && negb (f_man f b =? 0).

(** How the host converts NaNs between the formats. *)
Class HostFloat := { nan_widen : Z -> Z; nan_narrow : Z -> Z }.

(** Round a value to a format, to nearest even. *)
Definition f_round (f : fmt) (v : spec_float) : spec_float :=
  match v with
  | S754_finite s m e => binary_round (f_prec f) (f_emax f) s m e
  | v => v
  end.

Section conversions.
Context `{HostFloat}.

(** [(double)x] and [(float)x]. *)
Definition f32_to_f64 (b : Z) : Z :=
  if f_isnan F32 b then nan_widen b else f_bits F64 (f_round F64 (f_val F32 b)).
Definition f64_to_f32 (b : Z) : Z :=
  if f_isnan F64 b then nan_narrow b else f_bits F32 (f_round F32 (f_val F64 b)).
End conversions.

(** [(double)v] and [(float)v] of an integer. *)
Definition f_of_int (f : fmt) (v : Z) : Z :=
  f_bits f (binary_normalize (f_prec f) (f_emax f) v 0 false).

(** C's [<], [==], [<=] on doubles. *)
Definition f64_cmp (x y : Z) : option comparison := SFcompare (f_val F64 x) (f_val F64 y).
Definition f64_lt (x y : Z) : bool := match f64_cmp x y with Some Lt => true | _ => false end.
Definition f64_eq (x y : Z) : bool := match f64_cmp x y with Some Eq => true | _ => false end.
Definition f64_le (x y : Z) : bool := f64_lt x y || f64_eq x y.
Definition f64_isnan (x : Z) : bool := f_isnan F64 x.

Definition f_sqrt (f : fmt) (x : Z) : Z := f_bits f (SFsqrt (f_prec f) (f_emax f) (f_val f x)).

(* ------------------------------------------------------------------ *)
(** ** Operations *)

Definition fbin (op2 x y : Z) : Z :=
  let vx := f_val F64 x in let vy := f_val F64 y in
  if op2 =? 0x58 then f_bits F64 (SFadd (f_prec F64) (f_emax F64) vx vy)
  else if op2 =? 0x59 then f_bits F64 (SFmul (f_prec F64) (f_emax F64) vx vy)
  else if op2 =? 0x5C then f_bits F64 (SFsub (f_prec F64) (f_emax F64) vx vy)
  else if op2 =? 0x5E then f_bits F64 (SFdiv (f_prec F64) (f_emax F64) vx vy)
  else if op2 =? 0x5D then (if f64_lt x y then x else y)
  else (if f64_lt y x then x else y).

Definition fcmp (pred x y : Z) : bool :=
  let un := f64_isnan x || f64_isnan y in
  let k := pred .& 7 in
  if k =? 0 then negb un && f64_eq x y
  else if k =? 1 then negb un && f64_lt x y
  else if k =? 2 then negb un && f64_le x y
  else if k =? 3 then un
  else if k =? 4 then un || negb (f64_eq x y)
  else if k =? 5 then un || negb (f64_lt x y)
  else if k =? 6 then un || negb (f64_le x y)
  else negb un.

(** [comis]: the new flags. *)
Definition comis (fl a b : Z) : Z :=
  let fl := fl .& .~ (F_OF .| F_AF .| F_SF .| F_ZF .| F_PF .| F_CF) in
  if f64_isnan a || f64_isnan b then fl .| F_ZF .| F_PF .| F_CF
  else if f64_lt a b then fl .| F_CF
  else if f64_eq a b then fl .| F_ZF
  else fl.

(** [trunc] and [nearbyint] of a finite value, as an integer. *)
Definition sf_trunc (s : bool) (m e : Z) : Z :=
  let a := if 0 <=? e then m * 2 ^ e else m / 2 ^ (- e) in if s then - a else a.

Definition sf_nearest (s : bool) (m e : Z) : Z :=
  let a :=
    if 0 <=? e then m * 2 ^ e else
    let q := m / 2 ^ (- e) in let r := m mod 2 ^ (- e) in
    if (2 * r <? 2 ^ (- e)) || ((2 * r =? 2 ^ (- e)) && Z.even q) then q else q + 1 in
  if s then - a else a.

(** The integer [r] of [rsd_i_cvt2si]; [None] for NaN and the infinities. *)
Definition rounded (nearest : bool) (v : spec_float) : option Z :=
  match v with
  | S754_zero _ => Some 0
  | S754_finite s m e => Some ((if nearest then sf_nearest else sf_trunc) s (Zpos m) e)
  | _ => None
  end.

(** The widening of a single to a double is exact, so [v] is the single's value. *)
Definition rsd_i_cvt2si (bits fsize : Z) (nearest : bool) (isize : Z) : Z :=
  let v := if fsize =? 8 then f_val F64 bits else f_val F32 (u32 bits) in
  match rounded nearest v with
  | Some r =>
      if isize =? 4
      then (if (-2147483648 <=? r) && (r <=? 2147483647) then u32 r else 0x80000000)
      else (if (- 2 ^ 63 <=? r) && (r <? 2 ^ 63) then u64 r else 0x8000000000000000)
  | None => if isize =? 4 then 0x80000000 else 0x8000000000000000
  end.

Definition rsd_i_nan_d (r first second : Z) (unary : bool) : Z :=
  if negb (f_isnan F64 r) then r
  else if f_isnan F64 first then first .| 0x0008000000000000
  else if negb unary && f_isnan F64 second then second .| 0x0008000000000000
  else 0xFFF8000000000000.

Definition rsd_i_nan_s (r first second : Z) (unary : bool) : Z :=
  let r32 := u32 r in let f32 := u32 first in let s32 := u32 second in
  if negb (f_isnan F32 r32) then r32
  else if f_isnan F32 f32 then f32 .| 0x00400000
  else if negb unary && f_isnan F32 s32 then s32 .| 0x00400000
  else 0xFFC00000.

Definition x86_nan_d (op2 r first second : Z) : Z :=
  if is_one_of op2 [0x5D; 0x5F] then r else
  let unary := op2 =? 0x51 in
  rsd_i_nan_d r (if unary then second else first) second unary.

Definition x86_nan_s (op2 r first second : Z) : Z :=
  if is_one_of op2 [0x5D; 0x5F] then r else
  let unary := op2 =? 0x51 in
  u32 (rsd_i_nan_s r (if unary then second else first) second unary).

(** One lane of the arithmetic instructions: [sqrt] or [fbin], then the NaN. *)
Definition arith_d (op2 a b : Z) : Z :=
  x86_nan_d op2 (if op2 =? 0x51 then f_sqrt F64 b else fbin op2 a b) a b.

Definition arith_s `{HostFloat} (op2 a b : Z) : Z :=
  x86_nan_s op2
    (if op2 =? 0x51 then f_sqrt F32 b else f64_to_f32 (fbin op2 (f32_to_f64 a) (f32_to_f64 b))) a b.
