(* ===== verification/Sse.v ===== *)
(** The SSE instructions ([xrd] to [rsd_i_comiss] in [src/cpu.c]).  An XMM
    register is its 128 bits, read and written by lanes.  [sse_exec] answers
    whether it handled the opcode, with the decoder as it left it. *)
From S2P Require Import Prelude.
From S2P Require Import Memory.
From S2P Require Import AddressSpace.
From S2P Require Import Flags.
From S2P Require Import Float.
From S2P Require Import Machine.
From S2P Require Import Decode.
From S2P Require Import Native.

(** Build a register from its lanes, lowest first. *)
Fixpoint of_lanes (w : Z) (l : list Z) : Z :=
  match l with
  | [] => 0
  | v :: l => uwrap w v .| (of_lanes w l << w)
  end.

Definition lanes (w : Z) (x : Z) : list Z :=
  (fun i => lane w (Z.of_nat i) x) <$> seq 0 (Z.to_nat (128 / w)).

(** Lane by lane. *)
Definition map2_lanes (w : Z) (f : Z -> Z -> Z) (a b : Z) : Z :=
  of_lanes w (zip_with f (lanes w a) (lanes w b)).

Section sse.
Context `{HostOS} `{HostFloat}.

Definition xrd (o : opnd) : M Z :=
  if is_reg o then getx (o_reg o) else ld128 (u64 (o_addr o + o_seg o)).

Definition xwr (o : opnd) (v : Z) : M unit :=
  if is_reg o then setx (o_reg o) v else st128 (u64 (o_addr o + o_seg o)) v.

Definition xrd_lo (o : opnd) (bytes : Z) : M Z :=
  if is_reg o then x ← getx (o_reg o); mret (if bytes =? 4 then lane 32 0 x else lane 64 0 x)
  else ld (u64 (o_addr o + o_seg o)) bytes.

(** [reg = modrm(d, &rm); fixup_rip(d, &rm); c->rip = dec_rip(d);] *)
Definition modrm_advance (d : dec) : M (Z * opnd * dec) :=
  '(reg, rm, d) ← modrm d;
  let rm := fixup_rip d rm in
  ADVANCE d;; mret (reg, rm, d).

(** The same with an immediate byte behind the operand. *)
Definition modrm_imm8_advance (d : dec) : M (Z * opnd * Z * dec) :=
  '(reg, rm, d) ← modrm d;
  '(imm, d) ← fetch8 d;
  let rm := fixup_rip d rm in
  ADVANCE d;; mret (reg, rm, imm, d).

Definition sse_move (d : dec) (op2 : Z) : M (bool * dec) :=
  let store := nz (op2 .& 1) in
  '(reg, rm, d) ← modrm_advance d;
  let ro := reg_opnd reg in
  let dst := if store then rm else ro in
  let src := if store then ro else rm in
  if (op2 <=? 0x11) && is_one_of (d_mand d) [0xF3; 0xF2] then
    let n := if d_mand d =? 0xF3 then 4 else 8 in
    v ← xrd_lo src n;
    (if is_reg dst then
       old ← getx (o_reg dst);
       let old := if is_reg src then old else 0 in
       setx (o_reg dst) (if n =? 4 then set_lane 32 0 v old else set_lane 64 0 v old)
     else st (u64 (o_addr dst + o_seg dst)) v n);;
    mret (true, d)
  else a ← xrd src; xwr dst a;; mret (true, d).

Definition sse_movdq (d : dec) (op2 : Z) : M (bool * dec) :=
  if negb (is_one_of (d_mand d) [0x66; 0xF3]) then mret (false, d) else
  let store := op2 =? 0x7F in
  '(reg, rm, d) ← modrm_advance d;
  let ro := reg_opnd reg in
  a ← xrd (if store then ro else rm);
  xwr (if store then rm else ro) a;; mret (true, d).

Definition rex_w_size (d : dec) : Z := if nz (d_rex d .& 8) then 8 else 4.

(** A general register or memory operand of [n] bytes. *)
Definition grd (rm : opnd) (n : Z) : M Z :=
  if is_reg rm then getreg (o_reg rm) n else ld (u64 (o_addr rm + o_seg rm)) n.

Definition sse_movd_to (d : dec) : M (bool * dec) :=
  if negb (d_mand d =? 0x66) then mret (false, d) else
  '(reg, rm, d) ← modrm_advance d;
  v ← grd rm (rex_w_size d);
  setx reg (u64 v);; mret (true, d).

Definition sse_movd_from (d : dec) : M (bool * dec) :=
  '(reg, rm, d) ← modrm_advance d;
  if d_mand d =? 0xF3 then v ← xrd_lo rm 8; setx reg (u64 v);; mret (true, d)
  else if negb (d_mand d =? 0x66) then mret (false, d)
  else
    x ← getx reg;
    let n := rex_w_size d in let v := lane 64 0 x in
    (if is_reg rm then setreg (o_reg rm) v n else st (u64 (o_addr rm + o_seg rm)) v n);;
    mret (true, d).

Definition sse_movq_store (d : dec) : M (bool * dec) :=
  if negb (d_mand d =? 0x66) then mret (false, d) else
  '(reg, rm, d) ← modrm_advance d;
  (if is_reg rm then
     setx (o_reg rm) 0;; x ← getx reg; y ← getx (o_reg rm);
     setx (o_reg rm) (set_lane 64 0 (lane 64 0 x) y)
   else x ← getx reg; st (u64 (o_addr rm + o_seg rm)) (lane 64 0 x) 8);;
  mret (true, d).

Definition bitwise_lane (op2 a b : Z) : Z :=
  if is_one_of op2 [0x54; 0xDB] then a .& b
  else if op2 =? 0x55 then u64 (.~ a) .& b
  else if is_one_of op2 [0x56; 0xEB] then a .| b
  else a .^ b.

Definition sse_bitwise (d : dec) (op2 : Z) : M (bool * dec) :=
  if (0xDB <=? op2) && negb (d_mand d =? 0x66) then mret (false, d) else
  '(reg, rm, d) ← modrm_advance d;
  b ← xrd rm;
  a ← getx reg;
  setx reg (map2_lanes 64 (bitwise_lane op2) a b);; mret (true, d).

Definition sse_arith (d : dec) (op2 : Z) : M (bool * dec) :=
  '(reg, rm, d) ← modrm_advance d;
  a ← getx reg;
  if d_mand d =? 0xF2 then
    s ← xrd_lo rm 8;
    setx reg (set_lane 64 0 (arith_d op2 (lane 64 0 a) s) a);; mret (true, d)
  else if d_mand d =? 0xF3 then
    s ← xrd_lo rm 4;
    setx reg (set_lane 32 0 (arith_s op2 (lane 32 0 a) (u32 s)) a);; mret (true, d)
  else if d_mand d =? 0x66 then
    b ← xrd rm; setx reg (map2_lanes 64 (arith_d op2) a b);; mret (true, d)
  else
    b ← xrd rm; setx reg (map2_lanes 32 (arith_s op2) a b);; mret (true, d).

Definition upd_flags (f : Z -> Z) : M unit := fl ← get_c c_flags; set_flags (f fl).

Definition sse_comis (d : dec) : M (bool * dec) :=
  '(reg, rm, d) ← modrm_advance d;
  (if d_mand d =? 0x66 then
     s ← xrd_lo rm 8; x ← getx reg; upd_flags (fun fl => comis fl (lane 64 0 x) s)
   else
     s ← xrd_lo rm 4; x ← getx reg;
     upd_flags (fun fl => comis fl (f32_to_f64 (lane 32 0 x)) (f32_to_f64 (u32 s))));;
  mret (true, d).

Definition scalar_mand (d : dec) : bool := is_one_of (d_mand d) [0xF2; 0xF3].

Definition sse_cvtsi2s (d : dec) : M (bool * dec) :=
  if negb (scalar_mand d) then mret (false, d) else
  '(reg, rm, d) ← modrm_advance d;
  let n := rex_w_size d in
  v ← grd rm n;
  let v := sext v n in
  x ← getx reg;
  setx reg (if d_mand d =? 0xF2 then set_lane 64 0 (f_of_int F64 v) x
            else set_lane 32 0 (f_of_int F32 v) x);;
  mret (true, d).

Definition sse_cvts2si (d : dec) (op2 : Z) : M (bool * dec) :=
  if negb (scalar_mand d) then mret (false, d) else
  '(reg, rm, d) ← modrm_advance d;
  let fsize := if d_mand d =? 0xF2 then 8 else 4 in
  bits ← xrd_lo rm fsize;
  let n := rex_w_size d in
  setreg reg (rsd_i_cvt2si bits fsize (op2 =? 0x2D) n) n;; mret (true, d).

Definition sse_cvtss2sd (d : dec) : M (bool * dec) :=
  if negb (scalar_mand d) then mret (false, d) else
  '(reg, rm, d) ← modrm_advance d;
  (if d_mand d =? 0xF3 then
     s ← xrd_lo rm 4; x ← getx reg; setx reg (set_lane 64 0 (f32_to_f64 (u32 s)) x)
   else
     s ← xrd_lo rm 8; x ← getx reg; setx reg (set_lane 32 0 (f64_to_f32 s) x));;
  mret (true, d).

Definition eq_mask (w a b : Z) : Z := if a =? b then Z.ones w else 0.

Definition sse_pcmpeq (d : dec) (op2 : Z) : M (bool * dec) :=
  if negb (d_mand d =? 0x66) then mret (false, d) else
  '(reg, rm, d) ← modrm_advance d;
  b ← xrd rm;
  a ← getx reg;
  let w := if op2 =? 0x74 then 8 else 32 in
  setx reg (map2_lanes w (eq_mask w) a b);; mret (true, d).

Definition movemask (x : Z) : Z :=
  foldr (fun i acc => (if nz (lane 8 (Z.of_nat i) x .& 0x80) then 1 << Z.of_nat i else 0) .| acc)
    0 (seq 0 16).

Definition sse_pmovmskb (d : dec) : M (bool * dec) :=
  if negb (d_mand d =? 0x66) then mret (false, d) else
  '(reg, rm, d) ← modrm_advance d;
  if negb (is_reg rm) then mret (false, d) else
  x ← getx (o_reg rm); setreg reg (movemask x) 8;; mret (true, d).

Definition shuffle (imm b : Z) : Z :=
  of_lanes 32 ((fun i => lane 32 ((imm >> (2 * Z.of_nat i)) .& 3) b) <$> seq 0 4).

Definition sse_pshufd (d : dec) : M (bool * dec) :=
  if negb (d_mand d =? 0x66) then mret (false, d) else
  '(reg, rm, imm, d) ← modrm_imm8_advance d;
  b ← xrd rm;
  setx reg (shuffle imm b);; mret (true, d).

Definition interleave (high wide : bool) (a b : Z) : Z :=
  if wide then
    (if high then of_lanes 64 [lane 64 1 a; lane 64 1 b] else of_lanes 64 [lane 64 0 a; lane 64 0 b])
  else
    (if high then of_lanes 32 [lane 32 2 a; lane 32 2 b; lane 32 3 a; lane 32 3 b]
     else of_lanes 32 [lane 32 0 a; lane 32 0 b; lane 32 1 a; lane 32 1 b]).

Definition sse_unpck (d : dec) (op2 : Z) : M (bool * dec) :=
  if is_one_of op2 [0x6C; 0x6D] && negb (d_mand d =? 0x66) then mret (false, d)
  else if scalar_mand d then mret (false, d) else
  '(reg, rm, d) ← modrm_advance d;
  b ← xrd rm;
  a ← getx reg;
  let high := is_one_of op2 [0x15; 0x6D] in
  setx reg (interleave high (d_mand d =? 0x66) a b);; mret (true, d).

Definition cmp_mask_d (imm x y : Z) : Z := if fcmp imm x y then Z.ones 64 else 0.
Definition cmp_mask_s (imm x y : Z) : Z :=
  if fcmp imm (f32_to_f64 x) (f32_to_f64 y) then 0xffffffff else 0.

Definition sse_cmp (d : dec) : M (bool * dec) :=
  '(reg, rm, imm, d) ← modrm_imm8_advance d;
  a ← getx reg;
  if d_mand d =? 0xF2 then
    t ← xrd_lo rm 8; setx reg (set_lane 64 0 (cmp_mask_d imm (lane 64 0 a) t) a);; mret (true, d)
  else if d_mand d =? 0xF3 then
    t ← xrd_lo rm 4;
    setx reg (set_lane 32 0 (cmp_mask_s imm (lane 32 0 a) (u32 t)) a);; mret (true, d)
  else if d_mand d =? 0x66 then
    b ← xrd rm; setx reg (map2_lanes 64 (cmp_mask_d imm) a b);; mret (true, d)
  else
    b ← xrd rm; setx reg (map2_lanes 32 (cmp_mask_s imm) a b);; mret (true, d).

Definition sse_pextrw (d : dec) : M (bool * dec) :=
  if negb (d_mand d =? 0x66) then mret (false, d) else
  '(reg, rm, imm, d) ← modrm_imm8_advance d;
  if negb (is_reg rm) then mret (false, d) else
  x ← getx (o_reg rm);
  setreg reg (lane 16 (imm .& 7) x) 8;; mret (true, d).

Definition sse_exec (d : dec) (op2 : Z) : M (bool * dec) :=
  if is_one_of op2 [0x10; 0x11; 0x28; 0x29] then sse_move d op2
  else if is_one_of op2 [0x6F; 0x7F] then sse_movdq d op2
  else if op2 =? 0x6E then sse_movd_to d
  else if op2 =? 0x7E then sse_movd_from d
  else if op2 =? 0xD6 then sse_movq_store d
  else if is_one_of op2 [0x54; 0x55; 0x56; 0x57; 0xDB; 0xEB; 0xEF] then sse_bitwise d op2
  else if is_one_of op2 [0x51; 0x58; 0x59; 0x5C; 0x5D; 0x5E; 0x5F] then sse_arith d op2
  else if is_one_of op2 [0x2E; 0x2F] then sse_comis d
  else if op2 =? 0x2A then sse_cvtsi2s d
  else if is_one_of op2 [0x2C; 0x2D] then sse_cvts2si d op2
  else if op2 =? 0x5A then sse_cvtss2sd d
  else if is_one_of op2 [0x74; 0x76] then sse_pcmpeq d op2
  else if op2 =? 0xD7 then sse_pmovmskb d
  else if op2 =? 0x70 then sse_pshufd d
  else if is_one_of op2 [0x14; 0x15; 0x6C; 0x6D] then sse_unpck d op2
  else if op2 =? 0xC2 then sse_cmp d
  else if op2 =? 0xC5 then sse_pextrw d
  else mret (false, d).

(** The pieces compiled code calls. *)
Definition rsd_i_ld128 (a : Z) : M Z := ld128 a.
Definition rsd_i_st128 (a v : Z) : M unit := st128 a v.
Definition rsd_i_comisd (a b : Z) : M unit := upd_flags (fun fl => comis fl a b).
Definition rsd_i_comiss (a b : Z) : M unit :=
  upd_flags (fun fl => comis fl (f32_to_f64 (u32 a)) (f32_to_f64 (u32 b))).
End sse.
