(* ===== verification/Step.v ===== *)
(** One instruction of the interpreter ([step] in [src/cpu.c]) and the entry
    from native code ([rsd_guest_call]).  Each group of opcodes is a
    definition; [exec_op] is the outer [switch], [exec_0f] the two-byte one.
    A signed 64-bit product that overflows is undefined, as C has it. *)
From S2P Require Import Prelude.
From S2P Require Import Memory.
From S2P Require Import AddressSpace.
From S2P Require Import Flags.
From S2P Require Import Stubs.
From S2P Require Import Callbacks.
From S2P Require Import Machine.
From S2P Require Import Decode.
From S2P Require Import Syscall.
From S2P Require Import Native.
From S2P Require Import Float.
From S2P Require Import Sse.

Section exec.
Context `{HostOS} `{HostFloat}.

Definition between (lo hi x : Z) : bool := (lo <=? x) && (x <=? hi).

(** The carry flag as the number ADC and SBB add. *)
Definition carry_in : M Z := fl ← get_c c_flags; mret (bz (nz (fl .& F_CF))).

Definition cond_m (cc : Z) : M bool := fl ← get_c c_flags; mret (cond fl cc).

(** The operation of an ALU opcode or group: [None] for the result of a
    comparison, which is not stored. *)
Definition alu (k a b sz : Z) : M (option Z) :=
  if k =? 0 then let r := u64 (a + b) in
    upd_flags (fun fl => flags_add fl a b r sz);; mret (Some r)
  else if k =? 1 then let r := a .| b in
    upd_flags (fun fl => flags_logic fl r sz);; mret (Some r)
  else if k =? 2 then cf ← carry_in; let r := u64 (a + b + cf) in
    upd_flags (fun fl => flags_adc fl a b cf r sz);; mret (Some r)
  else if k =? 3 then cf ← carry_in; let r := u64 (a - b - cf) in
    upd_flags (fun fl => flags_sbb fl a b cf r sz);; mret (Some r)
  else if k =? 4 then let r := a .& b in
    upd_flags (fun fl => flags_logic fl r sz);; mret (Some r)
  else if k =? 5 then let r := u64 (a - b) in
    upd_flags (fun fl => flags_sub fl a b r sz);; mret (Some r)
  else if k =? 6 then let r := a .^ b in
    upd_flags (fun fl => flags_logic fl r sz);; mret (Some r)
  else let r := u64 (a - b) in
    upd_flags (fun fl => flags_sub fl a b r sz);; mret None.

Definition store_result (o : opnd) (r : option Z) (sz : Z) (has_rex : bool) : M unit :=
  match r with
  | Some r => wr o r sz has_rex
  | None => mret tt
  end.

(** ALU, test and mov: op r/m, r and op r, r/m. *)
Definition op_alu_rm (d : dec) (op : Z) : M unit :=
  let sz := if negb (nz (op .& 1)) then 1 else d_opsize d in
  let to_reg := nz (op .& 2) && negb (is_one_of op [0x84; 0x85]) in
  '(reg, rm, d) ← modrm_advance d;
  let ro := reg_opnd reg in
  let dst := if to_reg then ro else rm in
  let src_o := if to_reg then rm else ro in
  a ← rd dst sz (d_has_rex d);
  b ← rd src_o sz (d_has_rex d);
  if op <? 0x40 then
    r ← alu (op >> 3) a b sz; store_result dst r sz (d_has_rex d)
  else if is_one_of op [0x84; 0x85] then upd_flags (fun fl => flags_logic fl (a .& b) sz)
  else wr dst b sz (d_has_rex d).

(** The immediate of the accumulator forms: 16 bits with a 0x66 prefix. *)
Definition imm_acc (d : dec) (byte : bool) (sz : Z) : M (Z * dec) :=
  if byte then fetch8 d
  else if sz =? 2 then fetch16 d
  else '(v, d) ← fetch32 d; mret (u64 (s32 v), d).

(** ALU: op eAX, imm. *)
Definition op_alu_acc (d : dec) (op : Z) : M unit :=
  let byte := negb (nz (op .& 1)) in
  let sz := if byte then 1 else d_opsize d in
  '(b, d) ← imm_acc d byte sz;
  ADVANCE d;;
  a ← getreg RAX sz;
  r ← alu (op >> 3) a b sz;
  match r with
  | Some r => setreg RAX r sz
  | None => mret tt
  end.

Definition op_test_acc (d : dec) (op : Z) : M unit :=
  let sz := if op =? 0xA8 then 1 else d_opsize d in
  '(b, d) ← imm_acc d (op =? 0xA8) sz;
  ADVANCE d;;
  a ← getreg RAX sz;
  upd_flags (fun fl => flags_logic fl (a .& b) sz).

(** The register a one-byte opcode encodes. *)
Definition op_reg (d : dec) (op : Z) : Z := (op .& 7) .| rex_b d.

Definition op_push_reg (d : dec) (op : Z) : M unit :=
  ADVANCE d;; v ← getr (op_reg d op); push v.

Definition op_pop_reg (d : dec) (op : Z) : M unit :=
  ADVANCE d;; v ← pop; setr (op_reg d op) v.

Definition op_movsxd (d : dec) : M unit :=
  '(reg, rm, d) ← modrm_advance d;
  v ← rd rm 4 (d_has_rex d);
  setreg reg (u64 (s32 v)) (d_opsize d).

Definition simm32 (d : dec) : M (Z * dec) := '(v, d) ← fetch32 d; mret (u64 (s32 v), d).
Definition simm8 (d : dec) : M (Z * dec) := '(v, d) ← fetch8 d; mret (u64 (s8 v), d).

Definition op_push_imm (d : dec) (op : Z) : M unit :=
  '(v, d) ← (if op =? 0x68 then simm32 d else simm8 d);
  ADVANCE d;; push v.

(** [a * b] on [int64_t]: overflow is undefined. *)
Definition smul64 (a b : Z) : M Z :=
  if (- 2 ^ 63 <=? a * b) && (a * b <? 2 ^ 63) then mret (u64 (a * b))
  else raise (Undefined "signed overflow").

Definition op_imul3 (d : dec) (op : Z) : M unit :=
  let sz := d_opsize d in
  '(reg, rm, d) ← modrm d;
  '(imm, d) ← (if op =? 0x6B then simm8 d else simm32 d);
  let rm := fixup_rip d rm in
  ADVANCE d;;
  v ← rd rm sz (d_has_rex d);
  r ← smul64 (sext v sz) (s64 imm);
  setreg reg r sz;;
  upd_flags (fun fl => flags_logic fl r sz).

(** [c->rip += rel]. *)
Definition jump_rel (rel : Z) : M unit := rip ← get_c c_rip; set_rip (rip + rel).

Definition op_jcc8 (d : dec) (op : Z) : M unit :=
  '(rel, d) ← fetch8 d;
  ADVANCE d;;
  b ← cond_m (op .& 0xF);
  when b (jump_rel (s8 rel)).

Definition op_grp1 (d : dec) (op : Z) : M unit :=
  let sz := if op =? 0x80 then 1 else d_opsize d in
  '(reg, rm, d) ← modrm d;
  let ext := reg .& 7 in
  '(b, d) ← (if op =? 0x81 then simm32 d else simm8 d);
  let rm := fixup_rip d rm in
  ADVANCE d;;
  a ← rd rm sz (d_has_rex d);
  r ← alu ext a b sz;
  store_result rm r sz (d_has_rex d).

Definition op_xchg (d : dec) : M unit :=
  let sz := d_opsize d in
  '(reg, rm, d) ← modrm_advance d;
  let ro := reg_opnd reg in
  a ← rd rm sz (d_has_rex d);
  b ← rd ro sz (d_has_rex d);
  wr rm b sz (d_has_rex d);; wr ro a sz (d_has_rex d).

Definition op_lea (d : dec) : M unit :=
  '(reg, rm, d) ← modrm_advance d;
  if is_reg rm then stop "lea with register operand" (d_rip0 d)
  else setreg reg (o_addr rm) (d_opsize d).

Definition op_pop_rm (d : dec) : M unit :=
  '(_, rm, d) ← modrm_advance d;
  v ← pop; wr rm v 8 (d_has_rex d).

Definition op_pushfq (d : dec) : M unit := ADVANCE d;; fl ← get_c c_flags; push fl.

Definition op_popfq (d : dec) : M unit :=
  ADVANCE d;; v ← pop;
  set_flags (u32 (v .& (F_CF .| F_PF .| F_AF .| F_ZF .| F_SF .| F_OF)) .| 0x202).

Definition op_cwde (d : dec) : M unit :=
  let sz := d_opsize d in
  ADVANCE d;; v ← getreg RAX (sz / 2);
  setreg RAX (u64 (sext v (sz / 2))) sz.

Definition op_cdq (d : dec) : M unit :=
  let sz := d_opsize d in
  ADVANCE d;; v ← getreg RAX sz;
  setreg RDX (if sext v sz <? 0 then Z.ones 64 else 0) sz.

Definition op_mov_imm8 (d : dec) (op : Z) : M unit :=
  '(v, d) ← fetch8 d;
  ADVANCE d;; setreg8 (op_reg d op) v (d_has_rex d).

Definition op_mov_imm (d : dec) (op : Z) : M unit :=
  let sz := d_opsize d in
  '(v, d) ← (if sz =? 8 then fetch64 d else if sz =? 2 then fetch16 d else fetch32 d);
  ADVANCE d;; setreg (op_reg d op) v sz.

Definition count_mask (sz : Z) : Z := if sz =? 8 then 63 else 31.

Definition op_shift (d : dec) (op : Z) : M unit :=
  let sz := if is_one_of op [0xC0; 0xD0; 0xD2] then 1 else d_opsize d in
  '(reg, rm, d) ← modrm d;
  let ext := reg .& 7 in
  '(cnt, d) ← (if is_one_of op [0xC0; 0xC1] then fetch8 d
               else if is_one_of op [0xD0; 0xD1] then mret (1, d)
               else rcx ← getr RCX; mret (rcx .& 0xff, d));
  let rm := fixup_rip d rm in
  ADVANCE d;;
  let cnt := cnt .& count_mask sz in
  if negb (nz cnt) then mret tt
  else if ext <? 4 then stop "rotate not implemented" (d_rip0 d)
  else
    a ← rd rm sz (d_has_rex d);
    fl ← get_c c_flags;
    let '(res, fl) := rsd_i_shift fl a cnt sz ext in
    set_flags fl;; wr rm res sz (d_has_rex d).

Definition op_ret (d : dec) (op : Z) : M unit :=
  '(n, d) ← (if op =? 0xC2 then fetch16 d else mret (0, d));
  rip ← pop;
  set_rip rip;;
  sp ← getr RSP; setr RSP (sp + n).

Definition op_mov_rm_imm (d : dec) (op : Z) : M unit :=
  let sz := if op =? 0xC6 then 1 else d_opsize d in
  '(_, rm, d) ← modrm d;
  '(v, d) ← (if op =? 0xC6 then fetch8 d else simm32 d);
  let rm := fixup_rip d rm in
  ADVANCE d;; wr rm v sz (d_has_rex d).

Definition op_leave (d : dec) : M unit :=
  ADVANCE d;; bp ← getr RBP; setr RSP bp;; v ← pop; setr RBP v.

Definition op_call (d : dec) : M unit :=
  '(rel, d) ← fetch32 d;
  ADVANCE d;; rip ← get_c c_rip; push rip;; jump_rel (s32 rel).

Definition op_jmp (d : dec) (op : Z) : M unit :=
  '(rel, d) ← (if op =? 0xE9 then '(v, d) ← fetch32 d; mret (s32 v, d)
               else '(v, d) ← fetch8 d; mret (s8 v, d));
  ADVANCE d;; jump_rel rel.

(* ---------------------------------------------------------------- *)
(** ** Multiplication and division *)

Definition mul_unsigned (a sz : Z) : M unit :=
  rax ← getr RAX;
  let p := trunc_sz rax sz * trunc_sz a sz in
  setreg RAX (u64 p) sz;;
  when (1 <? sz) (setreg RDX (u64 (p >> (sz * 8))) sz).

Definition mul_signed (a sz : Z) : M unit :=
  rax ← getr RAX;
  let p := sext rax sz * sext a sz in
  setreg RAX (u64 p) sz;;
  when (1 <? sz) (setreg RDX (u64 (uwrap 128 p >> (sz * 8))) sz).

Definition div_unsigned (a sz start : Z) : M unit :=
  if negb (nz a) then stop "divide by zero" start else
  rdx ← getr RDX; rax ← getr RAX;
  let num := (trunc_sz rdx sz << (sz * 8)) .| trunc_sz rax sz in
  setreg RAX (u64 (num / trunc_sz a sz)) sz;;
  setreg RDX (u64 (num mod trunc_sz a sz)) sz.

(** The one quotient no [__int128_t] holds is undefined.  The left shift of a
    negative numerator is the arithmetic one, as compilers define it. *)
Definition div_signed (a sz start : Z) : M unit :=
  if negb (nz a) then stop "divide by zero" start else
  rdx ← getr RDX; rax ← getr RAX;
  let num := (sext rdx sz << (sz * 8)) .| trunc_sz rax sz in
  if (num =? - 2 ^ 127) && (sext a sz =? -1) then raise (Undefined "quotient overflow") else
  setreg RAX (u64 (Z.quot num (sext a sz))) sz;;
  setreg RDX (u64 (Z.rem num (sext a sz))) sz.

Definition op_grp3 (d : dec) (op : Z) : M unit :=
  let sz := if op =? 0xF6 then 1 else d_opsize d in
  '(reg, rm, d) ← modrm d;
  let ext := reg .& 7 in
  '(imm, d) ← (if is_one_of ext [0; 1]
               then (if op =? 0xF6 then fetch8 d else simm32 d) else mret (0, d));
  let rm := fixup_rip d rm in
  ADVANCE d;;
  a ← rd rm sz (d_has_rex d);
  if is_one_of ext [0; 1] then upd_flags (fun fl => flags_logic fl (a .& imm) sz)
  else if ext =? 2 then wr rm (u64 (.~ a)) sz (d_has_rex d)
  else if ext =? 3 then
    let r := u64 (0 - a) in
    upd_flags (fun fl => flags_sub fl 0 a r sz);; wr rm r sz (d_has_rex d)
  else if ext =? 4 then mul_unsigned a sz
  else if ext =? 5 then mul_signed a sz
  else if ext =? 6 then div_unsigned a sz (d_rip0 d)
  else div_signed a sz (d_rip0 d).

Definition op_grp5 (d : dec) (op : Z) : M unit :=
  let sz := if op =? 0xFE then 1 else d_opsize d in
  '(reg, rm, d) ← modrm_advance d;
  let ext := reg .& 7 in
  a ← rd rm sz (d_has_rex d);
  if ext =? 0 then
    let r := u64 (a + 1) in
    upd_flags (fun fl => rsd_i_flags_inc fl a r sz);; wr rm r sz (d_has_rex d)
  else if ext =? 1 then
    let r := u64 (a - 1) in
    upd_flags (fun fl => rsd_i_flags_dec fl a r sz);; wr rm r sz (d_has_rex d)
  else if ext =? 2 then
    rip ← get_c c_rip; push rip;; v ← rd rm 8 (d_has_rex d); set_rip v
  else if ext =? 4 then v ← rd rm 8 (d_has_rex d); set_rip v
  else if ext =? 6 then v ← rd rm 8 (d_has_rex d); push v
  else stop "grp5 far call/jmp not supported" (d_rip0 d).

(* ---------------------------------------------------------------- *)
(** ** Two-byte opcodes *)

Definition op_nop_rm (d : dec) : M unit := '(_, _, _) ← modrm_advance d; mret tt.

Definition op_jcc32 (d : dec) (op2 : Z) : M unit :=
  '(rel, d) ← fetch32 d;
  ADVANCE d;; b ← cond_m (op2 .& 0xF);
  when b (jump_rel (s32 rel)).

Definition op_setcc (d : dec) (op2 : Z) : M unit :=
  '(_, rm, d) ← modrm_advance d;
  b ← cond_m (op2 .& 0xF);
  wr rm (bz b) 1 (d_has_rex d).

Definition op_cmovcc (d : dec) (op2 : Z) : M unit :=
  '(reg, rm, d) ← modrm_advance d;
  b ← cond_m (op2 .& 0xF);
  when b (v ← rd rm (d_opsize d) (d_has_rex d); setreg reg v (d_opsize d)).

(** A 16-bit operand shifted by more than its width makes [w - cnt] negative,
    and a shift by a negative count is undefined. *)
Definition op_shxd (d : dec) (op2 : Z) : M unit :=
  let sz := d_opsize d in
  let left := op2 <? 0xAC in
  '(reg, rm, d) ← modrm d;
  '(cnt, d) ← (if is_one_of op2 [0xA4; 0xAC] then fetch8 d
               else rcx ← getr RCX; mret (rcx .& 0xff, d));
  let rm := fixup_rip d rm in
  ADVANCE d;;
  let w := sz * 8 in
  let cnt := cnt .& count_mask sz in
  if negb (nz cnt) then mret tt else
  dst ← rd rm sz (d_has_rex d);
  src ← getreg reg sz;
  if w <? cnt then raise (Undefined "shift count") else
  let r := if left then u64 (dst << cnt) .| (src >> (w - cnt))
           else (dst >> cnt) .| u64 (src << (w - cnt)) in
  upd_flags (fun fl => flags_logic fl r sz);; wr rm r sz (d_has_rex d).

Definition op_imul2 (d : dec) : M unit :=
  let sz := d_opsize d in
  '(reg, rm, d) ← modrm_advance d;
  a ← getreg reg sz;
  b ← rd rm sz (d_has_rex d);
  r ← smul64 (sext a sz) (sext b sz);
  setreg reg r sz;;
  upd_flags (fun fl => flags_logic fl r sz).

Definition op_movx (d : dec) (op2 : Z) : M unit :=
  let ssz := if nz (op2 .& 1) then 2 else 1 in
  '(reg, rm, d) ← modrm_advance d;
  v ← (if (ssz =? 1) && is_reg rm then getreg8 (o_reg rm) (d_has_rex d)
       else rd rm ssz (d_has_rex d));
  setreg reg (if nz (op2 .& 8) then u64 (sext v ssz) else v) (d_opsize d).

Definition exec_0f_op (d : dec) (op2 : Z) : M unit :=
  '(handled, d) ← sse_exec d op2;
  if (handled : bool) then mret tt
  else if is_one_of op2 [0x1E; 0x1F] then op_nop_rm d
  else if between 0x80 0x8F op2 then op_jcc32 d op2
  else if between 0x90 0x9F op2 then op_setcc d op2
  else if between 0x40 0x4F op2 then op_cmovcc d op2
  else if is_one_of op2 [0xA4; 0xA5; 0xAC; 0xAD] then op_shxd d op2
  else if op2 =? 0xAF then op_imul2 d
  else if is_one_of op2 [0xB6; 0xB7; 0xBE; 0xBF] then op_movx d op2
  else stop "unimplemented 0F opcode" (d_rip0 d).

Definition exec_0f (d : dec) : M unit :=
  '(op2, d) ← fetch8 d;
  if op2 =? 0x05 then ADVANCE d;; do_syscall else exec_0f_op d op2.

(* ---------------------------------------------------------------- *)
(** ** The outer switch *)

Definition is_alu_rm (op : Z) : bool :=
  (between 0 0x3B op && (op .& 7 <? 4)) || is_one_of op [0x84; 0x85; 0x88; 0x89; 0x8A; 0x8B].

Definition is_alu_acc (op : Z) : bool := between 0 0x3D op && is_one_of (op .& 7) [4; 5].

Definition exec_op (d : dec) (op : Z) : M unit :=
  if is_alu_rm op then op_alu_rm d op
  else if is_alu_acc op then op_alu_acc d op
  else if is_one_of op [0xA8; 0xA9] then op_test_acc d op
  else if between 0x50 0x57 op then op_push_reg d op
  else if between 0x58 0x5F op then op_pop_reg d op
  else if op =? 0x63 then op_movsxd d
  else if is_one_of op [0x68; 0x6A] then op_push_imm d op
  else if is_one_of op [0x69; 0x6B] then op_imul3 d op
  else if between 0x70 0x7F op then op_jcc8 d op
  else if is_one_of op [0x80; 0x81; 0x83] then op_grp1 d op
  else if op =? 0x87 then op_xchg d
  else if op =? 0x8D then op_lea d
  else if op =? 0x8F then op_pop_rm d
  else if op =? 0x90 then ADVANCE d
  else if op =? 0x9C then op_pushfq d
  else if op =? 0x9D then op_popfq d
  else if op =? 0x98 then op_cwde d
  else if op =? 0x99 then op_cdq d
  else if between 0xB0 0xB7 op then op_mov_imm8 d op
  else if between 0xB8 0xBF op then op_mov_imm d op
  else if is_one_of op [0xC0; 0xC1; 0xD0; 0xD1; 0xD2; 0xD3] then op_shift d op
  else if is_one_of op [0xC2; 0xC3] then op_ret d op
  else if is_one_of op [0xC6; 0xC7] then op_mov_rm_imm d op
  else if op =? 0xC9 then op_leave d
  else if op =? 0xE8 then op_call d
  else if is_one_of op [0xE9; 0xEB] then op_jmp d op
  else if is_one_of op [0xF6; 0xF7] then op_grp3 d op
  else if is_one_of op [0xFE; 0xFF] then op_grp5 d op
  else if op =? 0x0F then exec_0f d
  else stop "unimplemented opcode" (d_rip0 d).

Definition start_dec (rip : Z) : dec := Dec rip rip rip 0 false Size4 false 0 0.

(** Prefixes, REX, opcode, execution of the instruction at [rip]. *)
Definition exec_insn (rip : Z) : M unit :=
  upd (with_cur_rip rip);;
  fuel ← gets prefix_fuel;
  d ← prefixes fuel (start_dec rip);
  d ← rex_prefix d;
  '(op, d) ← fetch8 d;
  exec_op d op.
End exec.

Section step.
Context `{Native} `{Trampolines} `{HostFloat}.

(** The stub the instruction pointer stands on, and its implementation. *)
Definition stub_fn (st : option rsd_stubs) (imp : Z) : Z :=
  match st with
  | None => 0
  | Some st => default 0 (l ← st_fns st; l !! Z.to_nat imp)
  end.

Definition call_import (guest_call : Z -> list Z -> list Z -> M (list Z * list Z))
    (st : rsd_stubs) (imp fn : Z) : M unit :=
  let sp := l ← st_va st; mjoin (l !! Z.to_nat imp) in
  let cb := default (-1) (l ← st_cbarg st; l !! Z.to_nat imp) in
  let rc := default false (l ← st_objcrecv st; l !! Z.to_nat imp) in
  match sp with
  | Some sp => call_native_variadic guest_call fn sp rc
  | None => call_native guest_call fn cb rc
  end.

(** [step], with the handler for calls back into the guest as a parameter. *)
Definition step (guest_call : Z -> list Z -> list Z -> M (list Z * list Z)) : M unit :=
  rip ← get_c c_rip;
  if rip =? RSD_CALLBACK_MAGIC then upd (with_running false)
  else if rip =? RSD_RETURN_MAGIC then
    rax ← getr RAX;
    upd (fun c => with_exit_code (rax .& 0xff) (with_running false c))
  else
    st ← get_c c_stubs;
    let imp := rsd_stub_index st rip in
    match st with
    | Some st' =>
        if (0 <=? imp) && nz (stub_fn st imp) then call_import guest_call st' imp (stub_fn st imp)
        else if 0 <=? imp then
          upd (fun c => with_running false (with_fault_import imp (with_fault_rip rip
            (with_fault (Some "call into an import that has no thunk yet") c))))
        else
          s ← gets m_as;
          if negb (rsd_as_ok s rip 1 RSD_PROT_X) then memfault rip (why s rip 1)
          else exec_insn rip
    | None =>
        s ← gets m_as;
        if negb (rsd_as_ok s rip 1 RSD_PROT_X) then memfault rip (why s rip 1)
        else exec_insn rip
    end.

(** [while (c->running) { step(c); c->icount++; }]. *)
Fixpoint run_while (fuel : nat) (stp : M unit) : M unit :=
  match fuel with
  | O => raise OutOfFuel
  | S fuel =>
      running ← get_c c_running;
      if (running : bool)
      then stp;; upd (fun c => with_icount (c_icount c + 1) c);; run_while fuel stp
      else mret tt
  end.

(** Load the six integer and eight floating-point argument registers. *)
Definition enter_args (x d : list Z) : M unit :=
  upd (fun c => with_r (fold_left (fun r iv => <[Z.to_nat iv.1 := u64 iv.2]> r)
                          (zip sysv_order x) (c_r c)) c);;
  upd (fun c => with_xmm (imap (fun i v => if decide (i < 8)%nat then set_lane 64 0 (d !!! i) v else v)
                            (c_xmm c)) c).

(** [rsd_guest_call], given what runs the guest until it stops; [index] and
    the frame's x and d come from the trampoline, x0, x1, d0 and d1 go back. *)
Definition guest_call_body (run : M unit) (index : Z) (x d : list Z) : M (list Z * list Z) :=
  cb ← gets m_cb;
  let target := rsd_callback_target cb index in
  if negb (nz target) then mret (<[0%nat := 0]> x, d) else
  saved ← get_c id;
  enter_args x d;;
  let sp := u64 (((c_r saved !!! Z.to_nat RSP - 256) .& .~ 15) - 8) in
  st sp RSD_CALLBACK_MAGIC 8;;
  setr RSP sp;;
  set_rip target;;
  upd (with_running true);;
  run;;
  c ← get_c id;
  let x := <[1%nat := c_r c !!! Z.to_nat RDX]> (<[0%nat := c_r c !!! Z.to_nat RAX]> x) in
  let d := <[1%nat := lane 64 0 (c_xmm c !!! 1%nat)]> (<[0%nat := lane 64 0 (c_xmm c !!! 0%nat)]> d) in
  upd (fun c => with_running (match c_fault c with Some _ => false | None => true end)
    (with_flags (c_flags saved) (with_rip (c_rip saved)
      (with_xmm (c_xmm saved) (with_r (c_r saved) c)))));;
  mret (x, d).

(** Each level of callback nesting, and each loop, has the fuel given it. *)
Fixpoint rsd_guest_call (fuel : nat) (index : Z) (x d : list Z) : M (list Z * list Z) :=
  match fuel with
  | O => raise OutOfFuel
  | S fuel => guest_call_body (run_while fuel (step (rsd_guest_call fuel))) index x d
  end.
End step.
