(* ===== verification/CpuApi.v ===== *)
(** Starting a guest and running it ([rsd_cpu_init] to [rsd_cpu_run] in
    [src/cpu.c]): the initial stack, the interpreter's loop, and the check that
    replays a compiled block.  The compiler itself is an interface,
    [JitEngine]. *)
From S2P Require Import Prelude.
From S2P Require Import Memory.
From S2P Require Import AddressSpace.
From S2P Require Import Flags.
From S2P Require Import Stubs.
From S2P Require Import Callbacks.
From S2P Require Import Machine.
From S2P Require Import Decode.
From S2P Require Import Native.
From S2P Require Import Float.
From S2P Require Import Sse.
From S2P Require Import Step.

Definition GUEST_STACK_SIZE : Z := 1 << 20.

Section init.
Context `{HostOS}.

(** Store 64-bit words upwards from [a], as the assignments [v[i] = ...] do. *)
Fixpoint store_words (a : Z) (ws : list Z) : M unit :=
  match ws with
  | [] => mret tt
  | w :: ws => host_write a 8 w;; store_words (a + 8) ws
  end.

(** Copy the argument strings, NUL included, downwards from [strp]. *)
Fixpoint copy_args (argv : list (list Z)) (strp : Z) : M (list Z * Z) :=
  match argv with
  | [] => mret ([], strp)
  | s :: argv =>
      let strp := u64 (strp - (Z.of_nat (length s) + 1)) in
      host_store strp (s ++ [0]);;
      '(ps, end_) ← copy_args argv strp;
      mret (strp :: ps, end_)
  end.

(** The part of [rsd_cpu_init] behind the mapping of the stack.  [argv] holds the
    strings without their terminators; [argc] is its length. *)
Definition init_stack (has_main : bool) (base : Z) (argv : list (list Z)) : M Z :=
  let argc := Z.of_nat (length argv) in
  '(gargv, strp) ← copy_args argv (u64 (base + GUEST_STACK_SIZE));
  let strp := strp .& .~ 15 in
  let vec := u64 (strp - (argc + 3) * 8) .& .~ 15 in
  store_words vec (gargv ++ [0; 0; 0]);;
  let sp := u64 (vec - 4096) .& .~ 15 in
  sp ← (if has_main then
          setr RDI argc;; setr RSI vec;;
          setr RDX (vec + (argc + 1) * 8);; setr RCX (vec + (argc + 2) * 8);;
          let sp := u64 (sp - 8) in
          st sp RSD_RETURN_MAGIC 8;; mret sp
        else
          let sp := u64 (sp - (argc + 4) * 8) .& .~ 15 in
          store_words sp (argc :: gargv ++ [0; 0; 0]);; mret sp);
  setr RSP sp;; mret 0.

(** Returns the C result. *)
Definition rsd_cpu_init (entry : Z) (has_main : bool) (argv : list (list Z)) : M Z :=
  upd (fun _ => reset_cpu entry);;
  s ← gets m_as; w ← gets m_w;
  let '(base, s, w) := rsd_as_map w s 0 GUEST_STACK_SIZE (RSD_PROT_R .| RSD_PROT_W) false in
  set_as s;; set_world w;;
  if negb (nz base) then mret (-1) else
  upd (fun c => with_stack_size GUEST_STACK_SIZE (with_stack_base base c));;
  init_stack has_main base (take 60 argv).

Definition rsd_cpu_free : M unit := upd (with_stack_base 0).
End init.

(* ------------------------------------------------------------------ *)
(** ** Checking a compiled block *)

(** [undo_writes]: newest first. *)
Definition undo_writes (mem : gmap Z Z) (es : list wlog_entry) : gmap Z Z :=
  foldr (fun e mem => write_bytes mem (we_addr e) (we_before e)) mem es.

(** What rashid's compiler provides: a compiled entry point and its instruction
    count, entering it, and the profile of what was interpreted. *)
Class JitEngine `{HostOS} := {
  rsd_jit_lookup : Z -> M (option (Z * Z));
  rsd_jit_enter : Z -> M Z;
  rsd_jit_note_interp : Z -> M unit
}.

Section run.
Context `{Native} `{Trampolines} `{HostFloat} `{!JitEngine}.
Variable guest_call : Z -> list Z -> list Z -> M (list Z * list Z).

(** At most [n] instructions, while the guest runs. *)
Fixpoint replay (n : nat) : M unit :=
  match n with
  | O => mret tt
  | S n =>
      running ← get_c c_running;
      if (running : bool) then step guest_call;; replay n else mret tt
  end.

(** Record what the compiled run left at each write. *)
Fixpoint record_after (es : list wlog_entry) : M (list wlog_entry) :=
  match es with
  | [] => mret []
  | e :: es =>
      after ← host_bytes (we_addr e) (we_span e);
      es ← record_after es;
      mret (WEntry (we_addr e) (we_old e) (we_val e) (we_size e) (we_span e)
              (we_before e) after :: es)
  end.

Fixpoint undo_log (es : list wlog_entry) : M unit :=
  match es with
  | [] => mret tt
  | e :: es => undo_log es;; host_store (we_addr e) (we_before e)
  end.

Definition same_write (e f : wlog_entry) : bool :=
  (we_addr e =? we_addr f) && (we_size e =? we_size f) && (we_val e =? we_val f).

(** The bytes around each write, as the interpreter left them. *)
Fixpoint windows_match (es : list wlog_entry) : M bool :=
  match es with
  | [] => mret true
  | e :: es =>
      now ← host_bytes (we_addr e) (we_span e);
      if bool_decide (now = we_after e) then windows_match es else mret false
  end.

Definition take_log : M writelog :=
  w ← get_c c_wlog; upd (with_wlog None);; mret (default empty_log w).

Definition is_fault (c : rsd_cpu) : bool := bool_decide (is_Some (c_fault c)).

Definition same_state (c d : rsd_cpu) : bool :=
  (is_fault c && is_fault d) ||
  (negb (is_fault c) && negb (is_fault d) &&
   (c_rip c =? c_rip d) && (c_flags c =? c_flags d) &&
   bool_decide (c_r c = c_r d) && bool_decide (c_xmm c = c_xmm d)).

Definition run_block (body ninsn : Z) : M bool :=
  check ← get_c c_jit_check;
  if negb check then
    rip ← rsd_jit_enter body;
    set_rip rip;;
    upd (fun c => with_icount (c_icount c + ninsn) c);; mret true
  else
    before ← get_c id;
    upd (with_wlog (Some empty_log));;
    rip ← rsd_jit_enter body;
    set_rip rip;;
    jit_log ← take_log;
    after ← get_c id;
    jes ← (if wl_overflow jit_log then mret (wl_e jit_log) else record_after (wl_e jit_log));
    undo_log jes;;
    upd (fun _ => before);;
    upd (with_wlog (Some empty_log));;
    replay (Z.to_nat ninsn);;
    int_log ← take_log;
    c ← get_c id;
    let ok := same_state after c in
    let over := wl_overflow jit_log || wl_overflow int_log in
    let mem_ok := (over || (Z.of_nat (length jes) =? Z.of_nat (length (wl_e int_log)))) &&
                  (wl_overflow jit_log ||
                   forallb (fun p => same_write p.1 p.2) (zip jes (wl_e int_log))) in
    mem_ok ← (if mem_ok && negb (wl_overflow jit_log) then windows_match jes else mret mem_ok);
    if negb ok || negb mem_ok
    then stop "jit disagreed with the interpreter" (c_rip before);; mret false
    else upd (fun c => with_icount (c_icount c + ninsn) c);; mret true.

Definition budget_exhausted : M unit :=
  rip ← get_c c_rip; stop "instruction budget exhausted" rip.

(** One turn of the loop of [rsd_cpu_run]; [true] to leave it. *)
Definition run_turn (jit : bool) (budget : Z) : M bool :=
  c ← get_c id;
  block ← (if jit && negb (c_trace c) then rsd_jit_lookup (c_rip c) else mret None);
  match block with
  | Some (body, n) =>
      agreed ← run_block body n;
      if negb agreed then mret true else
      icount ← get_c c_icount;
      when (nz budget && (budget <=? icount)) budget_exhausted;; mret false
  | None =>
      s ← gets m_as;
      when (jit && rsd_as_ok s (c_rip c) 4 RSD_PROT_X) (rsd_jit_note_interp (c_rip c));;
      step guest_call;;
      upd (fun c => with_icount (c_icount c + 1) c);;
      icount ← get_c c_icount;
      when ((icount =? budget) && nz budget) budget_exhausted;; mret false
  end.

Fixpoint rsd_cpu_run (fuel : nat) (jit : bool) (budget : Z) : M unit :=
  match fuel with
  | O => raise OutOfFuel
  | S fuel =>
      running ← get_c c_running;
      if negb running then mret tt else
      leave ← run_turn jit budget;
      if (leave : bool) then mret tt else rsd_cpu_run fuel jit budget
  end.
End run.
