(* ===== verification/Access.v ===== *)
(** What guest loads and stores do ([access_ok] to [st128] in [src/cpu.c]):
    which accesses are let through, what a store changes, what the write log
    records, and how a fault is recorded. *)
From S2P Require Import Prelude.
From S2P Require Import Memory.
From S2P Require Import AddressSpace.
From S2P Require Import SampleHost.
From S2P Require Import Flags.
From S2P Require Import Stubs.
From S2P Require Import Callbacks.
From S2P Require Import Machine.

(* ------------------------------------------------------------------ *)
(** ** Which accesses are let through *)

Lemma rsd_as_ok_range s a n pr : as_inv s -> 0 < n -> rsd_as_ok s a n pr = true -> urange 64 a.
Proof.
  intros [Hwf _] Hn. unfold rsd_as_ok. unfold nz. destruct (n =? 0) eqn:E; [lia|]. cbn [negb].
  case_match eqn:Hw; [done|]. unfold walk_fuel. cbn [walk]. unfold nz. rewrite E. cbn [negb].
  rewrite as_find_first. destruct (first_region (as_reg s) a) as [r|] eqn:Er; [|done].
  intros _. apply first_region_Some in Er as [Hel Hr].
  pose proof (regions_wf_elem _ _ _ Hwf Hel). unfold urange. lia.
Qed.

(** Every access let through is granted by the table, or is not all in it and
    lies between the null page and the top of user space. *)
Lemma access_ok_cases s a n pr :
  as_inv s -> urange 64 n -> 0 < n -> access_ok s a n pr = true ->
  urange 64 a /\ a + n < 2 ^ 64 /\
  ((forall b, a <= b < a + n -> exists q, prot_at (as_reg s) b = Some q /\ q .& pr = pr) \/
   (exists b, a <= b < a + n /\ prot_at (as_reg s) b = None) /\
   RSD_MIN_VALID <= a /\ a + n <= RSD_MAX_VALID).
Proof.
  intros Hi Hn Hpos. unfold access_ok. destruct (rsd_as_ok s a n pr) eqn:Eok.
  - intros _. pose proof (rsd_as_ok_range _ _ _ _ Hi Hpos Eok) as Ha.
    apply rsd_as_ok_iff in Eok as [?|[? ?]]; [lia|auto|done..].
  - destruct (rsd_as_mapped s a n) eqn:Em; [done|].
    intros [[H1%Z.leb_le H2%Z.ltb_lt]%andb_true_iff H3%Z.leb_le]%andb_true_iff.
    unfold RSD_MIN_VALID, RSD_MAX_VALID in *.
    assert (Ha : urange 64 a) by (unfold urange; lia).
    rewrite uwrap_small in H3 by (unfold urange; lia).
    split; [done|]. split; [lia|]. right. split; [|lia].
    destruct (decide (Forall (fun i => is_Some (prot_at (as_reg s) (a + Z.of_nat i))) (seq 0 (Z.to_nat n))))
      as [Hall|Hnot].
    + exfalso. enough (rsd_as_mapped s a n = true) by congruence.
      apply rsd_as_mapped_iff; [done..|]. right. split; [lia|]. intros b Hb.
      rewrite Forall_forall in Hall. specialize (Hall (Z.to_nat (b - a))).
      replace (a + Z.of_nat (Z.to_nat (b - a))) with b in Hall by lia.
      apply Hall, elem_of_seq. lia.
    + apply not_Forall_Exists in Hnot; [|intros; apply _].
      apply Exists_exists in Hnot as (i & Hi'%elem_of_seq & Hn').
      exists (a + Z.of_nat i). split; [lia|]. by apply eq_None_not_Some.
Qed.

(** C17.  An access is let through exactly when the table grants it, or when
    the table does not hold all of it and it lies within user space, above the
    null page: a wild or null pointer is refused, and so is an access that lies
    wholly in tracked memory without the permission. *)
Theorem access_ok_spec s a n pr :
  as_inv s -> urange 64 a -> urange 64 n -> 0 < n ->
  (access_ok s a n pr = true <->
   a + n < 2 ^ 64 /\
   ((forall b, a <= b < a + n -> exists q, prot_at (as_reg s) b = Some q /\ q .& pr = pr) \/
    (exists b, a <= b < a + n /\ prot_at (as_reg s) b = None) /\
    RSD_MIN_VALID <= a /\ a + n <= RSD_MAX_VALID)).
Proof.
  intros Hi Ha Hn Hpos. split; [intros H; by apply access_ok_cases in H as [_ H]|].
  intros [Hlt [Hall|[(b & Hb & Hnone) Hr]]]; unfold access_ok.
  - by rewrite (proj2 (rsd_as_ok_iff s a n pr Hi Ha Hn)) by (by right).
  - destruct (rsd_as_ok s a n pr); [done|]. destruct (rsd_as_mapped s a n) eqn:Em.
    + apply rsd_as_mapped_iff in Em as [?|[_ Hm]]; [lia| |done..].
      specialize (Hm b Hb). rewrite Hnone in Hm. by destruct Hm.
    + unfold RSD_MIN_VALID, RSD_MAX_VALID in *. rewrite uwrap_small by (unfold urange; lia). lia.
Qed.

Lemma access_ok_spec_witness :
  access_ok sample_as 0x10ff8 8 RSD_PROT_X = false /\ access_ok sample_as 0x5000000 8 RSD_PROT_X = true.
Proof.
  split; [reflexivity|].
  apply (proj2 (access_ok_spec sample_as 0x5000000 8 RSD_PROT_X sample_inv ltac:(done) ltac:(done) ltac:(lia))).
  split; [done|]. right. split; [|split; done]. exists 0x5000000. split; [lia|reflexivity].
Defined.

(** A byte no store of at most sixteen bytes may change: it is tracked and not
    writable, and so far inside tracked memory that no such store straddles out. *)
Definition protected (s : rsd_as) (b : Z) : Prop :=
  (exists q, prot_at (as_reg s) b = Some q /\ q .& RSD_PROT_W <> RSD_PROT_W) /\
  forall x, b - 16 < x < b + 16 -> is_Some (prot_at (as_reg s) x).

Lemma protected_outside s a n b :
  as_inv s -> 0 < n <= 16 -> protected s b -> access_ok s a n RSD_PROT_W = true -> ~ a <= b < a + n.
Proof.
  intros Hi Hn [(q & Hq & Hw) Hin] Hok Hb.
  apply access_ok_cases in Hok as (_ & _ & [Hall|[(x & Hx & Hnone) _]]);
    [|destruct (Hin x) as [? ?]; [lia|congruence]|done|unfold urange; lia|lia].
  destruct (Hall b Hb) as (q' & Hq' & Hw'). congruence.
Qed.

(* ------------------------------------------------------------------ *)
(** ** What a store does *)

Section store.
Context `{HostOS}.

(** What a run returns, if it returns, and the machine it leaves. *)
Definition value {A} (c : M A) (m : machine) : option A :=
  match c m with
  | Ok a _ => Some a
  | Trap _ => None
  end.
Definition after {A} (c : M A) (m : machine) : machine :=
  match c m with
  | Ok _ m => m
  | Trap _ => m
  end.

Lemma run_value {A} (c : M A) m a : value c m = Some a -> c m = Ok a (after c m).
Proof. unfold value, after. destruct (c m); [by intros [= ->]|done]. Qed.

Definition with_mem (mem : gmap Z Z) (m : machine) : machine :=
  Machine (m_c m) (m_as m) (World (w_host (m_w m)) mem) (m_cb m) (m_cm m).

Definition upd_m (f : rsd_cpu -> rsd_cpu) (m : machine) : machine :=
  Machine (f (m_c m)) (m_as m) (m_w m) (m_cb m) (m_cm m).

Definition mem_of (m : machine) : gmap Z Z := w_mem (m_w m).

(** What logging a write of [size] bytes at [a] may do to the log. *)
Definition logged (mem : gmap Z Z) (a size : Z) (w w' : option writelog) : Prop :=
  match w with
  | None => w' = None
  | Some w =>
      w' = Some (WLog true (wl_e w)) \/
      exists e, w' = Some (WLog (wl_overflow w) (wl_e w ++ [e])) /\ we_addr e = a /\
        size <= we_span e /\ read_bytes mem a (Z.to_nat (we_span e)) = Some (we_before e)
  end.

Lemma host_read_ok a n m v m' :
  host_read a n m = Ok v m' <->
  m' = m /\ exists bs, read_bytes (mem_of m) a (Z.to_nat n) = Some bs /\ v = le_val bs.
Proof.
  unfold host_read, mem_of. destruct (read_bytes _ _ _) as [bs|].
  - split; [intros [= <- <-]; eauto|]. by intros (-> & ? & [= ->] & ->).
  - split; [done|]. by intros (_ & ? & ? & _).
Qed.

Lemma log_write_ok a v size m u m' :
  opsize size -> log_write a v size m = Ok u m' ->
  exists w', m' = upd_m (with_wlog w') m /\ logged (mem_of m) a size (c_wlog (m_c m)) w'.
Proof.
  intros Hs. unfold log_write, get_c, gets, mbind, M_bind.
  destruct (c_wlog (m_c m)) as [w|] eqn:Ew.
  - destruct (_ <=? _); cbn [mbind M_bind].
    + intros [= <- <-]. eexists. split; [done|]. by left.
    + destruct (host_read a size m) as [old m1|] eqn:E1; [|done].
      apply host_read_ok in E1 as [-> _]. unfold host_bytes.
      set (span := if rsd_as_ok (m_as m) a 16 RSD_PROT_R then 16 else size).
      destruct (read_bytes _ a (Z.to_nat span)) as [bs|] eqn:Eb; [|done].
      intros [= <- <-]. eexists. split; [done|]. right. eexists. split; [done|]. cbn.
      split; [done|]. split; [|done]. unfold opsize in Hs. subst span. destruct (rsd_as_ok _ _ _ _); lia.
  - intros [= <- <-]. exists None. split; [|done]. destruct m as [c ? ? ? ?], c. cbn in *. by subst.
Qed.

Lemma host_store_ok a bs m u m' :
  host_store a bs m = Ok u m' <->
  m' = with_mem (write_bytes (mem_of m) a bs) m /\
  is_Some (read_bytes (mem_of m) a (length bs)).
Proof.
  unfold host_store, mem_of. destruct (read_bytes _ _ _) as [bs'|] eqn:E; destruct u.
  - split; [intros [= <-]; by eauto|]. by intros [-> _].
  - split; [done|]. intros [_ [? ?]]. congruence.
Qed.

Lemma access_width_ok size : opsize size -> access_width size = size.
Proof. by intros [->|[->|[->| ->]]]. Qed.

(** A store faults, or changes exactly its bytes and the log. *)
Lemma st_ok a v size m u m' :
  opsize size -> st a v size m = Ok u m' ->
  (access_ok (m_as m) a size RSD_PROT_W = false /\
   m' = upd_m (memfault_cpu a (why (m_as m) a size)) m) \/
  (access_ok (m_as m) a size RSD_PROT_W = true /\
   is_Some (read_bytes (mem_of m) a (Z.to_nat size)) /\
   exists w', m' = with_mem (write_bytes (mem_of m) a (le_bytes (Z.to_nat size) v)) (upd_m (with_wlog w') m) /\
     logged (mem_of m) a size (c_wlog (m_c m)) w').
Proof.
  intros Hs. unfold st, gets, mbind, M_bind. rewrite opsize_u64 by done.
  destruct (access_ok (m_as m) a size RSD_PROT_W) eqn:Ea; cbn [negb].
  - destruct (log_write a v size m) as [u1 m1|] eqn:El; [|done].
    apply (log_write_ok _ _ _ _ _ _ Hs) in El as (w' & -> & Hl). unfold host_write.
    rewrite access_width_ok by done. intros [-> Hr]%host_store_ok. right. split; [done|].
    rewrite length_le_bytes in Hr. split; [exact Hr|]. by exists w'.
  - intros [= <- <-]. by left.
Qed.

Lemma st128_ok a v m u m' :
  as_inv (m_as m) -> st128 a v m = Ok u m' ->
  (access_ok (m_as m) a 16 RSD_PROT_W = false /\
   m' = upd_m (memfault_cpu a (why (m_as m) a 16)) m) \/
  (access_ok (m_as m) a 16 RSD_PROT_W = true /\
   is_Some (read_bytes (mem_of m) a 16) /\
   exists w1 w', m' = with_mem (write_bytes (mem_of m) a (le_bytes 16 v)) (upd_m (with_wlog w') m) /\
     logged (mem_of m) a 8 (c_wlog (m_c m)) w1 /\ logged (mem_of m) (a + 8) 8 w1 w').
Proof.
  intros Hi. unfold st128, gets, mbind, M_bind.
  destruct (access_ok (m_as m) a 16 RSD_PROT_W) eqn:Ea; cbn [negb].
  - assert (H8 : opsize 8) by (right; right; by right).
    pose proof (access_ok_cases (m_as m) a 16 RSD_PROT_W Hi ltac:(done) ltac:(done) Ea) as (Hr & Hlt & _).
    destruct (log_write a _ 8 m) as [u1 m1|] eqn:E1; [|done].
    apply (log_write_ok _ _ _ _ _ _ H8) in E1 as (w1 & -> & Hl1).
    destruct (log_write _ _ 8 _) as [u2 m2|] eqn:E2; [|done].
    apply (log_write_ok _ _ _ _ _ _ H8) in E2 as (w' & -> & Hl2).
    rewrite uwrap_small in Hl2 by (unfold urange in *; lia).
    unfold host_write. intros [-> Hs]%host_store_ok. rewrite length_le_bytes in Hs.
    right. split; [done|]. split; [exact Hs|]. exists w1, w'. done.
  - intros [= <- <-]. by left.
Qed.

Lemma st_ld a v size m m1 m1' x m2 :
  opsize size -> access_ok (m_as m) a size RSD_PROT_W = true ->
  access_ok (m_as m) a size RSD_PROT_R = true ->
  st a v size m = Ok tt m1 -> m_as m1' = m_as m1 -> mem_of m1' = mem_of m1 ->
  ld a size m1' = Ok x m2 ->
  x = uwrap (size * 8) v /\ m2 = m1' /\ m_as m1 = m_as m /\
  c_r (m_c m1) = c_r (m_c m) /\ c_fault (m_c m1) = c_fault (m_c m) /\
  (forall b, ~ a <= b < a + size -> mem_of m1 !! b = mem_of m !! b).
Proof.
  intros Hs Hw Hr Hst Has Hmem Hld.
  apply (st_ok _ _ _ _ _ _ Hs) in Hst as [[? _]|(_ & _ & w' & -> & _)]; [congruence|].
  assert (Hn : Z.of_nat (Z.to_nat size) = size) by (destruct Hs as [->|[->|[->| ->]]]; done).
  unfold ld, gets, mbind, M_bind in Hld. rewrite opsize_u64, Has in Hld by done. cbn [m_as with_mem upd_m] in Hld.
  rewrite Hr in Hld. cbn [negb] in Hld. rewrite access_width_ok in Hld by done.
  apply host_read_ok in Hld as (-> & bs & Hb & ->). rewrite Hmem in Hb.
  unfold mem_of, with_mem in Hb. cbn in Hb.
  pose proof (read_write_same (w_mem (m_w m)) a (le_bytes (Z.to_nat size) v)) as Hrw.
  rewrite length_le_bytes in Hrw. unfold mem_of in Hb. rewrite Hrw in Hb. injection Hb as <-.
  rewrite le_val_bytes, Hn, (Z.mul_comm 8). repeat split; try done.
  intros b Hb'. cbn. apply write_bytes_outside. rewrite length_le_bytes, Hn. done.
Qed.

(** C28.  A store that is let through and then read back, by a load of the
    same size that is let through, yields the value stored at that width; every
    byte outside it is as it was, and so are the registers. *)
Theorem st_ld_roundtrip a v size m m1 x m2 :
  opsize size -> access_ok (m_as m) a size RSD_PROT_W = true ->
  access_ok (m_as m) a size RSD_PROT_R = true ->
  st a v size m = Ok tt m1 -> ld a size m1 = Ok x m2 ->
  x = uwrap (size * 8) v /\ m2 = m1 /\ m_as m1 = m_as m /\
  c_r (m_c m1) = c_r (m_c m) /\ c_fault (m_c m1) = c_fault (m_c m) /\
  (forall b, ~ a <= b < a + size -> mem_of m1 !! b = mem_of m !! b).
Proof. intros Hs Hw Hr Hst Hld. by eapply (st_ld a v size m m1 m1). Qed.

(** The first memory fault is the one reported: it stops the guest and
    records the instruction and the address, and a later one changes neither. *)
Theorem memfault_first a what a' what' c :
  c_running (memfault_cpu a what c) = false /\
  (c_fault c = None -> urange 64 a -> urange 64 (c_cur_rip c) ->
     c_fault (memfault_cpu a what c) = Some what /\ c_fault_addr (memfault_cpu a what c) = a /\
     c_fault_rip (memfault_cpu a what c) = c_cur_rip c /\
     c_fault_has_addr (memfault_cpu a what c) = true) /\
  memfault_cpu a' what' (memfault_cpu a what c) = memfault_cpu a what c.
Proof.
  unfold memfault_cpu. destruct c as [? ? ? ? ? ? ? ? ? ? ? ? ? ? ? ? f ? ? ? ?]; cbn.
  destruct f; cbn; [done|]. split; [done|]. split; [|done].
  intros _ Ha Hr. by rewrite !uwrap_small.
Qed.
End store.

#[local] Existing Instance sample_host.

(** A guest about to run the bytes [code], in a page of its own that is
    readable, writable and executable; 256 bytes of it are there. *)
Definition sample_guest (code : list Z) : machine :=
  Machine (reset_cpu 0x10000) (As [Region 0x10000 0x11000 7] 16 no_hits no_hits)
    (World tt (write_bytes (zero_range 0x10000 256) 0x10000 code)) [] [].

Lemma st_ld_roundtrip_witness :
  let m := sample_guest [] in let m1 := after (st 0x10010 0x1234567 4) m in
  st 0x10010 0x1234567 4 m = Ok tt m1 /\ value (ld 0x10010 4) m1 = Some 0x1234567 /\
  mem_of m1 !! 0x10020 = mem_of m !! 0x10020.
Proof.
  intros m m1. assert (H1 : st 0x10010 0x1234567 4 m = Ok tt m1).
  { apply run_value. vm_compute. reflexivity. }
  assert (H2 : value (ld 0x10010 4) m1 = Some 0x1234567) by (vm_compute; reflexivity).
  split; [exact H1|]. split; [exact H2|].
  apply (st_ld_roundtrip 0x10010 0x1234567 4 m m1 0x1234567 (after (ld 0x10010 4) m1));
    [right; right; by left|vm_compute; reflexivity|vm_compute; reflexivity|exact H1
    |apply run_value; exact H2|lia].
Defined.

Lemma memfault_first_witness :
  c_fault (memfault_cpu 0 "null pointer" (reset_cpu 0x10000)) = Some "null pointer"%string.
Proof.
  apply (memfault_first 0 "null pointer" 8 "null pointer" (reset_cpu 0x10000)); done.
Defined.
