(* ===== verification/Keeps.v ===== *)
(** Reasoning about runs: [keeps R c] says that whatever [c] returns from, the
    machine it leaves is related by [R] to the one it started on.  [StepRel]
    is the interface between the interpreter and the relations it keeps: a
    preorder that every assignment to the cpu and every guest store respects is
    respected by every instruction. *)
From S2P Require Import Prelude.
From S2P Require Import Memory.
From S2P Require Import AddressSpace.
From S2P Require Import Flags.
From S2P Require Import Float.
From S2P Require Import Stubs.
From S2P Require Import Callbacks.
From S2P Require Import Machine.
From S2P Require Import Access.
From S2P Require Import Decode.
From S2P Require Import Syscall.
From S2P Require Import Native.
From S2P Require Import Sse.
From S2P Require Import Step.

Create HintDb keeps discriminated.

(** The assignments instructions make to the cpu. *)
Inductive basic_upd : (rsd_cpu -> rsd_cpu) -> Prop :=
| bu_r i v : basic_upd (fun c => with_r (<[i := u64 v]> (c_r c)) c)
| bu_xmm i v : basic_upd (fun c => with_xmm (<[i := uwrap 128 v]> (c_xmm c)) c)
| bu_flags v : basic_upd (with_flags v)
| bu_rip v : basic_upd (with_rip v)
| bu_cur_rip v : basic_upd (with_cur_rip v)
| bu_stop what v : basic_upd (fun c => with_running false (with_fault_rip v (with_fault (Some what) c)))
| bu_memfault a what : basic_upd (memfault_cpu a what).

Section keeps.
Context `{HostOS}.

Definition keeps (R : machine -> machine -> Prop) {A} (c : M A) : Prop :=
  forall m a m', c m = Ok a m' -> R m m'.

Class StepRel (R : machine -> machine -> Prop) : Prop := {
  sr_preorder : PreOrder R;
  sr_upd : forall f m, basic_upd f -> R m (upd_m f m);
  sr_st : forall a v size, opsize size -> keeps R (st a v size);
  sr_st128 : forall a v, keeps R (st128 a v)
}.

Lemma bind_ok {A B} (c : M A) (k : A -> M B) m b m' :
  (c ≫= k) m = Ok b m' <-> exists a m1, c m = Ok a m1 /\ k a m1 = Ok b m'.
Proof.
  unfold mbind, M_bind. destruct (c m) as [a m1|t].
  - split; [by eauto|]. by intros (a' & m1' & [= <- <-] & ?).
  - split; [done|]. by intros (? & ? & ? & ?).
Qed.

Section rules.
Context (R : machine -> machine -> Prop) `{!PreOrder R}.

Lemma keeps_ret {A} (a : A) : keeps R (mret a).
Proof. intros m a' m' [= <- <-]. reflexivity. Qed.
Lemma keeps_bind {A B} (c : M A) (k : A -> M B) :
  keeps R c -> (forall a, keeps R (k a)) -> keeps R (c ≫= k).
Proof.
  intros Hc Hk m b m' (a & m1 & H1 & H2)%bind_ok.
  etransitivity; [by eapply Hc|by eapply Hk].
Qed.
Lemma keeps_raise {A} t : keeps R (raise t : M A).
Proof. by intros m a m' [=]. Qed.
Lemma keeps_gets {A} (f : machine -> A) : keeps R (gets f).
Proof. intros m a m' [= <- <-]. reflexivity. Qed.
Lemma keeps_get_c {A} (f : rsd_cpu -> A) : keeps R (get_c f).
Proof. apply keeps_gets. Qed.
Lemma keeps_when b c : keeps R c -> keeps R (when b c).
Proof. destruct b; [done|]. intros _. apply keeps_ret. Qed.
Lemma keeps_host_read a n : keeps R (host_read a n).
Proof. intros m v m'. unfold host_read. case_match; [|done]. intros [= <- <-]. reflexivity. Qed.
Lemma keeps_host_bytes a n : keeps R (host_bytes a n).
Proof. intros m v m'. unfold host_bytes. case_match; [|done]. intros [= <- <-]. reflexivity. Qed.
End rules.
End keeps.

#[export] Existing Instance sr_preorder.
#[export] Hint Extern 0 (opsize _) => opsize_tac : keeps.
#[export] Hint Extern 0 (PreOrder _) => apply _ : keeps.
#[export] Hint Resolve keeps_ret keeps_raise keeps_gets keeps_get_c keeps_host_read keeps_host_bytes
  sr_st sr_st128 : keeps.

(** Split a computation at its binds and tests, and close the leaves from the
    database. *)
Ltac keeps_step :=
  match goal with
  | |- forall _, _ => intros ?
  | |- keeps _ (mbind _ _) => apply keeps_bind; [apply _| |]
  | |- keeps _ (when _ _) => apply keeps_when; [apply _|]
  | |- keeps _ (if ?b then _ else _) => destruct b
  | |- keeps _ (match ?x with _ => _ end) => destruct x
  | |- keeps _ (let '(_, _) := ?x in _) => destruct x
  end.
Ltac keeps_tac := repeat (cbv beta zeta; first [solve [eauto 3 with keeps] | keeps_step]).

Lemma rex_w_size_ok d : opsize (rex_w_size d).
Proof. unfold rex_w_size. opsize_tac. Qed.
#[export] Hint Resolve rex_w_size_ok : keeps.

(* ------------------------------------------------------------------ *)
(** ** Every primitive and every instruction *)

Section instructions.
Context `{HostOS} `{HostFloat} (R : machine -> machine -> Prop) `{!StepRel R}.

Lemma keeps_upd f : basic_upd f -> keeps R (upd f).
Proof. intros Hf m a m' [= <- <-]. by apply sr_upd. Qed.

Lemma keeps_setr i v : keeps R (setr i v).
Proof. apply keeps_upd. constructor. Qed.
Lemma keeps_setx i v : keeps R (setx i v).
Proof. apply keeps_upd. constructor. Qed.
Lemma keeps_set_flags v : keeps R (set_flags v).
Proof. apply keeps_upd. constructor. Qed.
Lemma keeps_set_rip v : keeps R (set_rip v).
Proof. apply keeps_upd. constructor. Qed.
Lemma keeps_cur_rip v : keeps R (upd (with_cur_rip v)).
Proof. apply keeps_upd. constructor. Qed.
Lemma keeps_stop what a : keeps R (stop what a).
Proof. apply keeps_upd. constructor. Qed.
Lemma keeps_memfault a what : keeps R (memfault a what).
Proof. apply keeps_upd. constructor. Qed.
Lemma keeps_getr i : keeps R (getr i).
Proof. apply keeps_get_c, _. Qed.
Lemma keeps_getx i : keeps R (getx i).
Proof. apply keeps_get_c, _. Qed.
Hint Resolve keeps_setr keeps_setx keeps_set_flags keeps_set_rip keeps_cur_rip keeps_stop
  keeps_memfault keeps_getr keeps_getx : keeps.

Lemma keeps_ld a n : keeps R (ld a n).
Proof. unfold ld. keeps_tac. Qed.
Lemma keeps_ld128 a : keeps R (ld128 a).
Proof. unfold ld128. keeps_tac. Qed.
Lemma keeps_fetch n d : keeps R (fetch n d).
Proof. unfold fetch. keeps_tac. Qed.
Hint Resolve keeps_ld keeps_ld128 keeps_fetch : keeps.
Lemma keeps_fetch8 d : keeps R (fetch8 d). Proof. apply keeps_fetch. Qed.
Lemma keeps_fetch16 d : keeps R (fetch16 d). Proof. apply keeps_fetch. Qed.
Lemma keeps_fetch32 d : keeps R (fetch32 d). Proof. apply keeps_fetch. Qed.
Lemma keeps_fetch64 d : keeps R (fetch64 d). Proof. apply keeps_fetch. Qed.
Hint Resolve keeps_fetch8 keeps_fetch16 keeps_fetch32 keeps_fetch64 : keeps.

Lemma keeps_setreg r v n : keeps R (setreg r v n).
Proof. unfold setreg. keeps_tac. Qed.
Lemma keeps_getreg r n : keeps R (getreg r n).
Proof. unfold getreg. keeps_tac. Qed.
Lemma keeps_setreg8 r v b : keeps R (setreg8 r v b).
Proof. unfold setreg8. keeps_tac. Qed.
Lemma keeps_getreg8 r b : keeps R (getreg8 r b).
Proof. unfold getreg8. keeps_tac. Qed.
Hint Resolve keeps_setreg keeps_getreg keeps_setreg8 keeps_getreg8 : keeps.

Lemma keeps_modrm d : keeps R (modrm d).
Proof. unfold modrm, sib_addr, modrm_disp. keeps_tac. Qed.
Lemma keeps_rd o n b : keeps R (rd o n b).
Proof. unfold rd. keeps_tac. Qed.
Lemma keeps_wr o v n b : opsize n -> keeps R (wr o v n b).
Proof. intros Hn. unfold wr. keeps_tac. Qed.
Lemma keeps_push v : keeps R (push v).
Proof. unfold push. keeps_tac. Qed.
Lemma keeps_pop : keeps R pop.
Proof. unfold pop. keeps_tac. Qed.
Lemma keeps_ADVANCE d : keeps R (ADVANCE d).
Proof. apply keeps_set_rip. Qed.
Lemma keeps_upd_flags f : keeps R (upd_flags f).
Proof. unfold upd_flags. keeps_tac. Qed.
Hint Resolve keeps_modrm keeps_rd keeps_wr keeps_push keeps_pop keeps_ADVANCE keeps_upd_flags : keeps.

Lemma keeps_prefixes n d : keeps R (prefixes n d).
Proof. revert d. induction n as [|n IH]; intros d; cbn [prefixes]; keeps_tac. Qed.
Lemma keeps_rex_prefix d : keeps R (rex_prefix d).
Proof. unfold rex_prefix. keeps_tac. Qed.
Hint Resolve keeps_prefixes keeps_rex_prefix : keeps.

Lemma keeps_xrd o : keeps R (xrd o).
Proof. unfold xrd. keeps_tac. Qed.
Lemma keeps_xwr o v : keeps R (xwr o v).
Proof. unfold xwr. keeps_tac. Qed.
Lemma keeps_xrd_lo o n : keeps R (xrd_lo o n).
Proof. unfold xrd_lo. keeps_tac. Qed.
Lemma keeps_grd o n : keeps R (grd o n).
Proof. unfold grd. keeps_tac. Qed.
Lemma keeps_modrm_advance d : keeps R (modrm_advance d).
Proof. unfold modrm_advance. keeps_tac. Qed.
Lemma keeps_modrm_imm8_advance d : keeps R (modrm_imm8_advance d).
Proof. unfold modrm_imm8_advance. keeps_tac. Qed.
Hint Resolve keeps_xrd keeps_xwr keeps_xrd_lo keeps_grd keeps_modrm_advance
  keeps_modrm_imm8_advance : keeps.

Lemma keeps_sse_exec d op2 : keeps R (sse_exec d op2).
Proof.
  unfold sse_exec, sse_move, sse_movdq, sse_movd_to, sse_movd_from, sse_movq_store, sse_bitwise,
    sse_arith, sse_comis, sse_cvtsi2s, sse_cvts2si, sse_cvtss2sd, sse_pcmpeq, sse_pmovmskb,
    sse_pshufd, sse_unpck, sse_cmp, sse_pextrw. keeps_tac.
Qed.
Lemma keeps_alu k a b n : keeps R (alu k a b n).
Proof. unfold alu, carry_in. keeps_tac. Qed.
Lemma keeps_cond_m cc : keeps R (cond_m cc).
Proof. unfold cond_m. keeps_tac. Qed.
Lemma keeps_jump_rel rel : keeps R (jump_rel rel).
Proof. unfold jump_rel. keeps_tac. Qed.
Lemma keeps_simm32 d : keeps R (simm32 d).
Proof. unfold simm32. keeps_tac. Qed.
Lemma keeps_simm8 d : keeps R (simm8 d).
Proof. unfold simm8. keeps_tac. Qed.
Lemma keeps_smul64 a b : keeps R (smul64 a b).
Proof. unfold smul64. keeps_tac. Qed.
Hint Resolve keeps_sse_exec keeps_alu keeps_cond_m keeps_jump_rel keeps_simm32 keeps_simm8
  keeps_smul64 : keeps.

Lemma keeps_exec_0f_op d op2 : keeps R (exec_0f_op d op2).
Proof.
  unfold exec_0f_op, op_nop_rm, op_jcc32, op_setcc, op_cmovcc, op_shxd, op_imul2, op_movx.
  keeps_tac.
Qed.

Lemma keeps_exec_op d op : op <> 0x0F -> keeps R (exec_op d op).
Proof.
  intros Hop. unfold exec_op. rewrite (proj2 (Z.eqb_neq op 0x0F) Hop).
  unfold op_alu_rm, op_alu_acc, op_test_acc, op_push_reg, op_pop_reg, op_movsxd, op_push_imm,
    op_imul3, op_jcc8, op_grp1, op_xchg, op_lea, op_pop_rm, op_pushfq, op_popfq, op_cwde, op_cdq,
    op_mov_imm8, op_mov_imm, op_shift, op_ret, op_mov_rm_imm, op_leave, op_call, op_jmp, op_grp3,
    op_grp5, store_result, imm_acc, mul_unsigned, mul_signed, div_unsigned, div_signed.
  keeps_tac.
Qed.

(** Reading the instruction stream moves no register. *)
Definition same_regs (m m' : machine) : Prop := c_r (m_c m') = c_r (m_c m).

(** An instruction keeps [R] if the system call it may be does, from any
    machine with the same registers. *)
Definition syscall_keeps (m : machine) : Prop :=
  forall m1 u m', same_regs m m1 -> do_syscall m1 = Ok u m' -> R m1 m'.

Lemma keeps_exec_0f d m u m' : syscall_keeps m -> exec_0f d m = Ok u m' -> R m m'.
Proof.
  intros Hsys. unfold exec_0f. intros ([op2 d1] & m1 & H1 & H2)%bind_ok.
  etransitivity; [by eapply keeps_fetch8|].
  assert (Hr : same_regs m m1).
  { revert H1. unfold fetch8, fetch. intros (v & m2 & H1 & [= _ <- <-])%bind_ok.
    unfold host_read in H1. case_match; simplify_eq. done. }
  destruct (op2 =? 5); [|by eapply keeps_exec_0f_op].
  apply bind_ok in H2 as ([] & m2 & H2 & H3).
  etransitivity; [by eapply keeps_ADVANCE|]. eapply Hsys; [|done].
  injection H2 as <-. done.
Qed.
End instructions.

Section insn.
Context `{HostOS} `{HostFloat}.

#[export] Instance same_regs_preorder : PreOrder same_regs.
Proof. split; [done|]. intros ? ? ?. unfold same_regs. congruence. Qed.

Lemma same_regs_prefixes n d : keeps same_regs (prefixes n d).
Proof. revert d. induction n as [|n IH]; intros d; cbn [prefixes]; keeps_tac. Qed.
Lemma same_regs_rex d : keeps same_regs (rex_prefix d).
Proof. unfold rex_prefix. keeps_tac. Qed.
Lemma same_regs_fetch8 d : keeps same_regs (fetch8 d).
Proof. unfold fetch8, fetch. keeps_tac. Qed.

Lemma exec_insn_keeps R `{!StepRel R} rip m u m' :
  syscall_keeps R m -> exec_insn rip m = Ok u m' -> R m m'.
Proof.
  intros Hsys. unfold exec_insn.
  intros ([] & m1 & H1 & (n & ? & [= <- <-] & (d & m2 & H2 & (d' & m3 & H3 & ([op d2] & m4 & H4 & H5)%bind_ok)%bind_ok)%bind_ok)%bind_ok)%bind_ok.
  assert (Hr : same_regs m m4).
  { etransitivity; [|by eapply same_regs_fetch8]. etransitivity; [|by eapply same_regs_rex].
    etransitivity; [|by eapply same_regs_prefixes]. by injection H1 as <-. }
  etransitivity; [by eapply keeps_cur_rip|]. etransitivity; [by eapply keeps_prefixes|].
  etransitivity; [by eapply keeps_rex_prefix|]. etransitivity; [by eapply keeps_fetch8|].
  destruct (decide (op = 0x0F)) as [->|Hop]; [|by eapply keeps_exec_op].
  change (exec_op d2 0x0F) with (exec_0f d2) in H5.
  revert H5. apply (keeps_exec_0f R). intros m5 u' m6 Hr'. apply Hsys. by etransitivity.
Qed.
End insn.
