(* ===== verification/Safety.v ===== *)
(** What every instruction keeps: the types of the cpu's fields, the memory the
    guest was not given to write, and the write log's ability to undo. *)
From S2P Require Import Prelude.
From S2P Require Import Memory.
From S2P Require Import AddressSpace.
From S2P Require Import SampleHost.
From S2P Require Import Flags.
From S2P Require Import Float.
From S2P Require Import Stubs.
From S2P Require Import Callbacks.
From S2P Require Import Machine.
From S2P Require Import Access.
From S2P Require Import Decode.
From S2P Require Import Syscall.
From S2P Require Import Native.
From S2P Require Import Sse.
From S2P Require Import Step.
From S2P Require Import CpuApi.
From S2P Require Import Keeps.

(* ------------------------------------------------------------------ *)
(** ** Types *)

(** Every field of the cpu holds a value of its C type. *)
Record cpu_wf (c : rsd_cpu) : Prop := CpuWf {
  wf_r : length (c_r c) = 16%nat /\ Forall (urange 64) (c_r c);
  wf_xmm : length (c_xmm c) = 16%nat /\ Forall (urange 128) (c_xmm c);
  wf_rip : urange 64 (c_rip c) /\ urange 64 (c_cur_rip c);
  wf_flags : urange 32 (c_flags c);
  wf_seg : urange 64 (c_gs_base c) /\ urange 64 (c_fs_base c);
  wf_exit : - 2 ^ 31 <= c_exit_code c < 2 ^ 31 /\ - 2 ^ 31 <= c_fault_import c < 2 ^ 31;
  wf_count : urange 64 (c_icount c);
  wf_fault : urange 64 (c_fault_rip c) /\ urange 64 (c_fault_addr c)
}.

Definition keeps_types `{HostOS} (m m' : machine) : Prop := cpu_wf (m_c m) -> cpu_wf (m_c m').

(** An update of the cpu that respects the types. *)
Definition upd_wf (f : rsd_cpu -> rsd_cpu) : Prop := forall c, cpu_wf c -> cpu_wf (f c).

Create HintDb wf.
#[export] Hint Resolve uwrap_range : wf.

Ltac wf_field :=
  repeat match goal with
  | |- _ /\ _ => split
  | |- urange _ (uwrap _ _) => apply uwrap_range; lia
  | |- _ <= swrap 32 ?z => apply (swrap_bounds 32 z ltac:(lia))
  | |- swrap 32 ?z < _ => apply (swrap_bounds 32 z ltac:(lia))
  end; try tauto.
Ltac wf_upd :=
  let H := fresh in intros ? H; destruct H; constructor; cbn -[uwrap swrap Z.pow insert] in *; wf_field.

Lemma Forall_insert_urange w (l : list Z) i v :
  0 <= w -> Forall (urange w) l -> Forall (urange w) (<[i := uwrap w v]> l).
Proof. intros Hw Hl. apply Forall_insert; [done|]. by apply uwrap_range. Qed.

Lemma upd_wf_r i v : upd_wf (fun c => with_r (<[i := u64 v]> (c_r c)) c).
Proof. wf_upd; [rewrite length_insert; tauto|apply Forall_insert_urange; [lia|tauto]]. Qed.
Lemma upd_wf_xmm i v : upd_wf (fun c => with_xmm (<[i := uwrap 128 v]> (c_xmm c)) c).
Proof. wf_upd; [rewrite length_insert; tauto|apply Forall_insert_urange; [lia|tauto]]. Qed.
Lemma upd_wf_flags v : upd_wf (with_flags v). Proof. wf_upd. Qed.
Lemma upd_wf_rip v : upd_wf (with_rip v). Proof. wf_upd. Qed.
Lemma upd_wf_cur_rip v : upd_wf (with_cur_rip v). Proof. wf_upd. Qed.
Lemma upd_wf_running b : upd_wf (with_running b). Proof. wf_upd. Qed.
Lemma upd_wf_exit v : upd_wf (with_exit_code v). Proof. wf_upd. Qed.
Lemma upd_wf_gs v : upd_wf (with_gs_base v). Proof. wf_upd. Qed.
Lemma upd_wf_wlog w : upd_wf (with_wlog w). Proof. wf_upd. Qed.
Lemma upd_wf_fault f : upd_wf (with_fault f). Proof. wf_upd. Qed.
Lemma upd_wf_fault_rip v : upd_wf (with_fault_rip v). Proof. wf_upd. Qed.
Lemma upd_wf_fault_addr v : upd_wf (with_fault_addr v). Proof. wf_upd. Qed.
Lemma upd_wf_has_addr b : upd_wf (with_fault_has_addr b). Proof. wf_upd. Qed.
Lemma upd_wf_import v : upd_wf (with_fault_import v). Proof. wf_upd. Qed.
Lemma upd_wf_icount v : upd_wf (with_icount v). Proof. wf_upd. Qed.
#[export] Hint Resolve upd_wf_r upd_wf_xmm upd_wf_flags upd_wf_rip upd_wf_cur_rip upd_wf_running
  upd_wf_exit upd_wf_gs upd_wf_wlog upd_wf_fault upd_wf_fault_rip upd_wf_fault_addr
  upd_wf_has_addr upd_wf_import upd_wf_icount : wf.

Lemma basic_upd_wf f : basic_upd f -> upd_wf f.
Proof.
  destruct 1; auto with wf; intros c Hc.
  - apply upd_wf_running, upd_wf_fault_rip, upd_wf_fault, Hc.
  - unfold memfault_cpu. apply upd_wf_running. case_match; [done|].
    by apply upd_wf_has_addr, upd_wf_fault_addr, upd_wf_fault_rip, upd_wf_fault.
Qed.

Section types.
Context `{HostOS}.

#[export] Instance keeps_types_preorder : PreOrder keeps_types.
Proof. split; [intros m|intros m1 m2 m3]; unfold keeps_types; tauto. Qed.

Lemma types_upd f : upd_wf f -> keeps keeps_types (upd f).
Proof. intros Hf m a m' [= <- <-] Hc. by apply Hf. Qed.

(** Everything but the cpu may change freely. *)
Lemma types_modify f : (forall m, m_c (f m) = m_c m) -> keeps keeps_types (modify f).
Proof. intros Hf m a m' [= <- <-] Hc. by rewrite Hf. Qed.

Lemma types_log_write a v n : keeps keeps_types (log_write a v n).
Proof. unfold log_write. keeps_tac; apply types_upd; auto with wf. Qed.
Lemma types_host_write a n v : keeps keeps_types (host_write a n v).
Proof.
  intros m u m' Hm. unfold host_write in Hm. apply host_store_ok in Hm as [-> _].
  intros Hc. exact Hc.
Qed.

#[export] Instance keeps_types_step : StepRel keeps_types.
Proof.
  split; [apply _| | |].
  - intros f m Hf Hc. by apply basic_upd_wf.
  - intros a v n Hn. unfold st. keeps_tac;
      first [apply types_upd, basic_upd_wf; constructor|apply types_log_write|apply types_host_write].
  - intros a v. unfold st128. keeps_tac;
      first [apply types_upd, basic_upd_wf; constructor|apply types_log_write|apply types_host_write].
Qed.

Lemma types_stop what v : keeps keeps_types (stop what v).
Proof. apply keeps_stop, _. Qed.
Lemma types_setr i v : keeps keeps_types (setr i v).
Proof. apply keeps_setr, _. Qed.
Lemma types_set_flags v : keeps keeps_types (set_flags v).
Proof. apply keeps_set_flags, _. Qed.
Hint Resolve types_stop types_setr types_set_flags : keeps.

Lemma types_do_syscall : keeps keeps_types do_syscall.
Proof.
  unfold do_syscall, sys_exit, sys_read, sys_write, sys_close, sys_munmap, sys_mprotect, sys_mmap,
    unimplemented_syscall, syscall_ret, set_as, set_world, memfault, getr.
  keeps_tac.
  all: first [apply types_modify; done|apply types_upd, basic_upd_wf; constructor
             |apply types_upd, upd_wf_gs
             |apply types_upd; intros ? ?; by apply upd_wf_exit, upd_wf_running].
Qed.

Lemma exec_insn_types `{HostFloat} rip m m' :
  cpu_wf (m_c m) -> exec_insn rip m = Ok tt m' -> cpu_wf (m_c m').
Proof.
  intros Hc Hm. apply (exec_insn_keeps keeps_types rip m tt m'); [|done|done].
  intros m1 u m2 _. apply types_do_syscall.
Qed.
End types.

Lemma reset_cpu_wf entry : cpu_wf (reset_cpu entry).
Proof.
  unfold reset_cpu. apply upd_wf_running, upd_wf_flags, upd_wf_rip, upd_wf_import.
  constructor; cbn -[Z.pow replicate]; unfold urange; repeat split;
    first [done|lia|apply Forall_replicate; split; (done || lia)].
Qed.

(* ------------------------------------------------------------------ *)
(** ** Memory the guest may not write *)

(** A machine whose next system call, were there one, would neither write
    memory nor change the region table. *)
Definition quiet `{HostOS} (m : machine) : Prop :=
  let rax := c_r (m_c m) !!! Z.to_nat RAX in
  SYSCALL_CLASS rax <> CLASS_BSD \/ ~ SYSCALL_NUMBER rax ∈ [3; 73; 74; 197].

(** The region table, memory and the log are the same. *)
Definition same_store `{HostOS} (m m' : machine) : Prop :=
  m_as m' = m_as m /\ mem_of m' = mem_of m /\ c_wlog (m_c m') = c_wlog (m_c m).

Lemma basic_upd_wlog f c : basic_upd f -> c_wlog (f c) = c_wlog c.
Proof. intros []; try done. unfold memfault_cpu. by destruct (c_fault c) eqn:?; destruct c; cbn in *; subst. Qed.

Section quiet.
Context `{HostOS}.

#[export] Instance same_store_preorder : PreOrder same_store.
Proof.
  split; [intros m; by repeat split|]. intros m1 m2 m3 (? & ? & ?) (? & ? & ?).
  repeat split; congruence.
Qed.

Lemma store_upd f : (forall c, c_wlog (f c) = c_wlog c) -> keeps same_store (upd f).
Proof. intros Hf m a m' [= <- <-]. split; [done|]. split; [done|]. apply Hf. Qed.

Lemma store_syscall_ret ret : keeps same_store (syscall_ret ret).
Proof. unfold syscall_ret, set_flags, setr. keeps_tac; by apply store_upd. Qed.
Lemma store_memfault a what : keeps same_store (memfault a what).
Proof. apply store_upd. intros c. apply basic_upd_wlog. constructor. Qed.
Lemma store_unimplemented : keeps same_store unimplemented_syscall.
Proof. unfold unimplemented_syscall, stop. keeps_tac; by apply store_upd. Qed.
Hint Resolve store_syscall_ret store_memfault store_unimplemented : keeps.
Hint Extern 1 (keeps same_store (upd _)) => by apply store_upd : keeps.

(** Setting the world to one with the same memory, then returning. *)
Lemma store_host_state h ret m u m' :
  (set_world (World h (mem_of m));; syscall_ret ret) m = Ok u m' -> same_store m m'.
Proof.
  intros ([] & m1 & [= <-] & Hm)%bind_ok. apply store_syscall_ret in Hm.
  etransitivity; [|exact Hm]. done.
Qed.

Lemma store_sys_write a0 a1 a2 : keeps same_store (sys_write a0 a1 a2).
Proof.
  intros m u m'. unfold sys_write. intros (s & ? & [= <- <-] & Hm)%bind_ok.
  destruct (negb _); [by apply store_memfault in Hm|].
  apply bind_ok in Hm as (w & ? & [= <- <-] & Hm).
  destruct (h_write _ _ _ _ _) as [ret h]. by apply store_host_state in Hm.
Qed.

Lemma store_sys_close a0 : keeps same_store (sys_close a0).
Proof.
  intros m u m'. unfold sys_close. intros (w & ? & [= <- <-] & Hm)%bind_ok.
  destruct (h_close _ _) as [ret h]. by apply store_host_state in Hm.
Qed.
Hint Resolve store_sys_write store_sys_close : keeps.

Lemma quiet_syscall m u m' : quiet m -> do_syscall m = Ok u m' -> same_store m m'.
Proof.
  intros Hq. unfold do_syscall, sys_exit.
  intros (rax & ? & [= <- <-] & (a0 & ? & [= <- <-] & (a1 & ? & [= <- <-] &
    (a2 & ? & [= <- <-] & Hm)%bind_ok)%bind_ok)%bind_ok)%bind_ok.
  unfold quiet in Hq. revert u m' Hm. revert Hq.
  generalize (c_r (m_c m) !!! Z.to_nat RAX) as rax. intros rax Hq.
  match goal with |- forall u m', ?c m = Ok u m' -> _ => enough (keeps same_store c) by eauto end.
  destruct (SYSCALL_CLASS rax =? CLASS_BSD) eqn:Ec.
  - destruct Hq as [?|Hn]; [lia|]. keeps_step; [keeps_tac|]. cbn [negb].
    assert (Hk : forall k, (SYSCALL_NUMBER rax =? k) = true -> In k [3; 73; 74; 197] -> False).
    { intros k Hz%Z.eqb_eq Hk. apply Hn. rewrite Hz. by apply list_elem_of_In. }
    repeat match goal with
    | |- keeps _ (if ?n =? ?k then _ else _) => destruct (n =? k) eqn:?
    end; try solve [keeps_tac]; exfalso; eapply Hk; try eassumption; cbn; auto 6.
  - cbn [negb]. keeps_tac.
Qed.

End quiet.

(** The region table is the same, and so is every protected byte. *)
Definition keeps_protected `{HostOS} (m m' : machine) : Prop :=
  as_inv (m_as m) ->
  m_as m' = m_as m /\ forall b, protected (m_as m) b -> mem_of m' !! b = mem_of m !! b.

Section protected.
Context `{HostOS}.

#[export] Instance keeps_protected_preorder : PreOrder keeps_protected.
Proof.
  split; [intros m; unfold keeps_protected; auto|].
  intros m1 m2 m3 H12 H23 Hi. destruct (H12 Hi) as [He Hm]. rewrite <- He in Hi.
  destruct (H23 Hi) as [He' Hm']. rewrite He in *. split; [done|].
  intros b Hb. by rewrite Hm', Hm.
Qed.

(** A change that leaves the table and memory alone. *)
Lemma protected_same m m' :
  m_as m' = m_as m -> mem_of m' = mem_of m -> keeps_protected m m'.
Proof. intros He Hm _. split; [done|]. by rewrite Hm. Qed.

#[export] Instance keeps_protected_step : StepRel keeps_protected.
Proof.
  split; [apply _| | |].
  - intros f m _. by apply protected_same.
  - intros a v n Hn m u m' Hst. apply (st_ok _ _ _ _ _ _ Hn) in Hst
      as [[_ ->]|(Hok & _ & w' & -> & _)]; [by apply protected_same|].
    intros Hi. split; [done|]. intros b Hb. apply write_bytes_outside.
    rewrite length_le_bytes. eapply protected_outside; [done| |done|].
    + destruct Hn as [->|[->|[->| ->]]]; lia.
    + destruct Hn as [->|[->|[->| ->]]]; done.
  - intros a v m u m' Hst Hi. apply (st128_ok _ _ _ _ _ Hi) in Hst
      as [[_ ->]|(Hok & _ & w1 & w' & -> & _)]; [by apply protected_same|].
    split; [done|]. intros b Hb. apply write_bytes_outside. rewrite length_le_bytes.
    by eapply protected_outside.
Qed.

(** C4.  One instruction, unless it is a system call that may read into memory or
    remap it (read, munmap, mprotect, mmap), leaves the region table and every
    [protected] byte as they were, however it addresses memory and whatever
    its operands hold. A byte is protected when it is tracked, may not be
    written, and has the fifteen bytes before and behind it tracked too: an
    access that straddles out of tracked memory is let through, so that bytes
    nearer to an edge can be written. *)
Theorem exec_insn_protects `{HostFloat} rip m m' b :
  as_inv (m_as m) -> quiet m -> exec_insn rip m = Ok tt m' -> protected (m_as m) b ->
  mem_of m' !! b = mem_of m !! b /\ m_as m' = m_as m.
Proof.
  intros Hi Hq Hm Hb.
  destruct (exec_insn_keeps keeps_protected rip m tt m') with (2 := Hm) as [He Hp]; [|done|auto].
  intros m1 u m2 Hr Hs. apply quiet_syscall in Hs as (? & ? & _); [by apply protected_same|].
  unfold quiet. by rewrite Hr.
Qed.
End protected.

(* ------------------------------------------------------------------ *)
(** ** Undoing logged writes *)

(** The log grew by entries that, undone, give the old memory back; unless it
    overflowed, which it does not forget. *)
Definition keeps_undo `{HostOS} (m m' : machine) : Prop :=
  as_inv (m_as m) ->
  m_as m' = m_as m /\
  forall w, c_wlog (m_c m) = Some w -> exists w',
    c_wlog (m_c m') = Some w' /\ (wl_overflow w = true -> wl_overflow w' = true) /\
    (wl_overflow w' = false -> exists es,
       wl_e w' = wl_e w ++ es /\ undo_writes (mem_of m') es = mem_of m).

Lemma undo_writes_app mem es fs : undo_writes mem (es ++ fs) = undo_writes (undo_writes mem fs) es.
Proof. unfold undo_writes. by rewrite foldr_app. Qed.

(** Restoring at least the bytes written restores the memory. *)
Lemma restore_one mem a bs n old :
  read_bytes mem a n = Some old -> (length bs <= n)%nat ->
  write_bytes (write_bytes mem a bs) a old = mem.
Proof.
  intros Hr Hl. pose proof (read_bytes_length _ _ _ _ Hr) as Ho. apply map_eq. intros i.
  rewrite !write_bytes_lookup. case_decide as Hd.
  - symmetry. eapply read_bytes_lookup; [done|lia].
  - by rewrite decide_False by lia.
Qed.

Lemma restore_two mem a bs n1 n2 old1 old2 :
  length bs = 16%nat ->
  read_bytes mem a n1 = Some old1 -> (8 <= n1)%nat ->
  read_bytes mem (a + 8) n2 = Some old2 -> (8 <= n2)%nat ->
  write_bytes (write_bytes (write_bytes mem a bs) (a + 8) old2) a old1 = mem.
Proof.
  intros Hb H1 Hn1 H2 Hn2. pose proof (read_bytes_length _ _ _ _ H1).
  pose proof (read_bytes_length _ _ _ _ H2). apply map_eq. intros i.
  rewrite !write_bytes_lookup. case_decide as D1.
  { symmetry. eapply read_bytes_lookup; [done|lia]. }
  case_decide as D2; [symmetry; eapply read_bytes_lookup; [done|lia]|].
  by rewrite decide_False by lia.
Qed.

Section undo.
Context `{HostOS}.

#[export] Instance keeps_undo_preorder : PreOrder keeps_undo.
Proof.
  split.
  - intros m Hi. split; [done|]. intros w Hw. exists w. split; [done|]. split; [done|].
    intros _. exists []. by rewrite app_nil_r.
  - intros m1 m2 m3 H12 H23 Hi. destruct (H12 Hi) as [He H1]. rewrite <- He in Hi.
    destruct (H23 Hi) as [He' H2]. split; [congruence|]. intros w Hw.
    destruct (H1 w Hw) as (w2 & Hw2 & Ho2 & Hu2). destruct (H2 w2 Hw2) as (w3 & Hw3 & Ho3 & Hu3).
    exists w3. split; [done|]. split; [auto|]. intros Hf.
    destruct (Hu3 Hf) as (es3 & He3 & Hr3).
    assert (Hf2 : wl_overflow w2 = false) by (destruct (wl_overflow w2); [rewrite Ho3 in Hf|]; done).
    destruct (Hu2 Hf2) as (es2 & He2 & Hr2).
    exists (es2 ++ es3). rewrite He3, He2, app_assoc. split; [done|].
    by rewrite undo_writes_app, Hr3.
Qed.

Lemma undo_same m m' :
  m_as m' = m_as m -> mem_of m' = mem_of m -> c_wlog (m_c m') = c_wlog (m_c m) -> keeps_undo m m'.
Proof.
  intros He Hm Hl _. split; [done|]. intros w Hw. exists w. rewrite Hl. split; [done|].
  split; [done|]. intros _. exists []. by rewrite app_nil_r.
Qed.

#[export] Instance keeps_undo_step : StepRel keeps_undo.
Proof.
  split; [apply _| | |].
  - intros f m Hf. apply undo_same; [done..|]. by apply basic_upd_wlog.
  - intros a v n Hn m u m' Hst. apply (st_ok _ _ _ _ _ _ Hn) in Hst
      as [[_ ->]|(_ & _ & w' & -> & Hl)]; [apply undo_same; [done..|apply basic_upd_wlog; constructor]|].
    intros _. split; [done|]. intros w Hw. rewrite Hw in Hl. cbn.
    destruct Hl as [->|(e & -> & He & Hs & Hb)]; eexists; (split; [done|]); cbn; [done|].
    split; [done|]. intros _. exists [e]. split; [done|]. cbn. rewrite He.
    eapply restore_one; [exact Hb|]. rewrite length_le_bytes. lia.
  - intros a v m u m' Hst Hi. apply (st128_ok _ _ _ _ _ Hi) in Hst
      as [[_ ->]|(_ & _ & w1 & w' & -> & Hl1 & Hl2)].
    { apply undo_same; [done..|apply basic_upd_wlog; constructor|done]. }
    split; [done|]. intros w Hw. rewrite Hw in Hl1. cbn.
    destruct Hl1 as [->|(e1 & -> & He1 & Hs1 & Hb1)]; cbn in Hl2;
      destruct Hl2 as [->|(e2 & -> & He2 & Hs2 & Hb2)]; eexists; (split; [done|]); cbn; try done.
    split; [done|]. intros _. exists [e1; e2]. rewrite <- app_assoc. split; [done|].
    change (write_bytes (write_bytes (write_bytes (mem_of m) a (le_bytes 16 v)) (we_addr e2)
      (we_before e2)) (we_addr e1) (we_before e1) = mem_of m).
    rewrite He1, He2. eapply restore_two; [apply length_le_bytes|exact Hb1|lia|exact Hb2|lia].
Qed.

(** Machines [n] instructions apart, none of them a system call on memory. *)
Inductive insns `{HostFloat} : nat -> machine -> machine -> Prop :=
| insns_0 m : insns 0 m m
| insns_S n m m1 m' rip :
    quiet m -> exec_insn rip m = Ok tt m1 -> insns n m1 m' -> insns (S n) m m'.

Lemma insns_undo `{HostFloat} n m m' : insns n m m' -> keeps_undo m m'.
Proof.
  induction 1 as [m|n m m1 m' rip Hq Hm _ IH]; [reflexivity|]. etransitivity; [|exact IH].
  apply (exec_insn_keeps keeps_undo rip m tt m1); [|done].
  intros m2 u m3 Hr Hs. apply quiet_syscall in Hs as (? & ? & ?); [by apply undo_same|].
  unfold quiet. by rewrite Hr.
Qed.

(** C7.  Undoing the log is the inverse of running: after any number of
    instructions executed with an empty log that did not overflow, none of
    them a system call that may read into memory or remap it (read, munmap,
    mprotect, mmap: what these write is not logged), putting back what the
    entries found, newest first, gives the memory the run started from. *)
Theorem undo_writes_restores `{HostFloat} n m m' w :
  as_inv (m_as m) -> c_wlog (m_c m) = Some empty_log -> insns n m m' ->
  c_wlog (m_c m') = Some w -> wl_overflow w = false ->
  undo_writes (mem_of m') (wl_e w) = mem_of m.
Proof.
  intros Hi Hl Hn Hw Ho. destruct (insns_undo _ _ _ Hn Hi) as [_ Hu].
  destruct (Hu _ Hl) as (w' & Hw' & _ & Hr). rewrite Hw in Hw'. injection Hw' as <-.
  destruct (Hr Ho) as (es & He & Hr'). by rewrite He.
Qed.
End undo.

(* ------------------------------------------------------------------ *)
(** ** Concrete runs *)

#[local] Existing Instance sample_host.

(** A guest with a read-only page beside its code. *)
Definition sample_ro (code : list Z) : machine :=
  Machine (reset_cpu 0x10000) (As [Region 0x10000 0x11000 7; Region 0x20000 0x21000 1] 16 no_hits no_hits)
    (World tt (write_bytes (zero_range 0x10000 256 ∪ zero_range 0x20800 16) 0x10000 code)) [] [].

Lemma sample_ro_inv code : as_inv (m_as (sample_ro code)).
Proof. repeat split; cbn; try lia; by left. Qed.

(** mov byte [rip + 0x107f9], 0xaa, which names 0x20800. *)
Definition store_ro : list Z := [0xC6; 0x05; 0xF9; 0x07; 0x01; 0x00; 0xAA].

Lemma exec_insn_protects_witness :
  let m := sample_ro store_ro in
  let m' := after (exec_insn (H0 := Build_HostFloat id id) 0x10000) m in
  value (exec_insn (H0 := Build_HostFloat id id) 0x10000) m = Some tt /\
  mem_of m' !! 0x20800 = mem_of m !! 0x20800 /\
  c_fault (m_c m') = Some "guest memory protection"%string.
Proof.
  intros m m'.
  assert (H : value (exec_insn (H0 := Build_HostFloat id id) 0x10000) m = Some tt)
    by (vm_compute; reflexivity).
  split; [exact H|]. split; [|vm_compute; reflexivity].
  apply (exec_insn_protects (H0 := Build_HostFloat id id) 0x10000 m m' 0x20800);
    [apply sample_ro_inv|left; vm_compute; done|apply run_value, H|].
  split; [exists 1; split; [reflexivity|done]|]. intros x Hx. exists 1.
  apply (proj2 (prot_at_elem 0 _ x 1 (proj1 (sample_ro_inv store_ro)))).
  exists (Region 0x20000 0x21000 1). cbn. split; [right; by left|split; [lia|done]].
Defined.

(** mov [rip + 0x10], eax; mov [rip + 0xb], rsp: overlapping stores. *)
Definition two_stores : list Z :=
  [0x89; 0x05; 0x10; 0; 0; 0; 0x48; 0x89; 0x25; 0x0B; 0; 0; 0].

Definition logging (m : machine) : machine := after (upd (with_wlog (Some empty_log))) m.

Lemma undo_writes_restores_witness :
  let f := Build_HostFloat id id in
  let m := logging (sample_guest two_stores) in
  let m1 := after (exec_insn (H0 := f) 0x10000) m in
  let m2 := after (exec_insn (H0 := f) 0x10006) m1 in
  exists w, c_wlog (m_c m2) = Some w /\ length (wl_e w) = 2%nat /\
    undo_writes (mem_of m2) (wl_e w) = mem_of m.
Proof.
  intros f m m1 m2.
  assert (H1 : value (exec_insn (H0 := f) 0x10000) m = Some tt) by (vm_compute; reflexivity).
  assert (H2 : value (exec_insn (H0 := f) 0x10006) m1 = Some tt) by (vm_compute; reflexivity).
  assert (Hw : is_Some (c_wlog (m_c m2))) by (vm_compute; by eexists).
  destruct (c_wlog (m_c m2)) as [w|] eqn:E; [|by destruct Hw as [? ?]].
  assert (Ho : (w ← c_wlog (m_c m2); Some (wl_overflow w, length (wl_e w))) = Some (false, 2%nat))
    by (vm_compute; reflexivity).
  rewrite E in Ho. injection Ho as Ho Hl.
  exists w. split; [done|]. split; [exact Hl|].
  apply (undo_writes_restores (H0 := f) 2 m m2 w); [repeat split; cbn; try lia; by left|reflexivity| |exact E|exact Ho].
  eapply insns_S; [left; vm_compute; done|apply run_value, H1|].
  eapply insns_S; [left; vm_compute; done|apply run_value, H2|]. apply insns_0.
Defined.
