(* ===== verification/Registers.v ===== *)
(** What the register file and the stack promise ([setreg] to [pop] in
    [src/cpu.c]): widths, the legacy high bytes, and the stack discipline. *)
From S2P Require Import Prelude.
From S2P Require Import Memory.
From S2P Require Import AddressSpace.
From S2P Require Import SampleHost.
From S2P Require Import Flags.
From S2P Require Import Machine.
From S2P Require Import Access.
From S2P Require Import Decode.
From S2P Require Import Keeps.
From S2P Require Import Safety.

Section registers.
Context `{HostOS}.

Definition reg (m : machine) (i : Z) : Z := c_r (m_c m) !!! Z.to_nat i.

(** The machine with register [r] replaced. *)
Definition set_reg (r v : Z) (m : machine) : machine :=
  upd_m (fun c => with_r (<[Z.to_nat r := v]> (c_r c)) c) m.

(** Runs on a machine whose cpu is well typed. *)
Definition regs_ok (m : machine) : Prop := length (c_r (m_c m)) = 16%nat /\ Forall (urange 64) (c_r (m_c m)).

Lemma regs_ok_wf m : cpu_wf (m_c m) -> regs_ok m.
Proof. by intros [? _ _ _ _ _ _ _]. Qed.

Lemma reg_range m i : regs_ok m -> 0 <= i < 16 -> urange 64 (reg m i).
Proof.
  intros [Hl Hf] Hi. unfold reg. rewrite Forall_lookup in Hf.
  apply (Hf (Z.to_nat i)), list_lookup_lookup_total_lt. lia.
Qed.

Lemma reg_set m r j v :
  regs_ok m -> 0 <= r < 16 -> 0 <= j -> reg (set_reg r v m) j = if j =? r then v else reg m j.
Proof.
  intros [Hl _] Hr Hj. unfold reg, set_reg, upd_m; cbn [m_c c_r with_r].
  destruct (Z.eqb_spec j r) as [->|Hn].
  - apply list_lookup_total_insert_eq. lia.
  - apply list_lookup_total_insert_ne. lia.
Qed.

Lemma setr_run r v m : setr r v m = Ok tt (set_reg r (u64 v) m).
Proof. done. Qed.
Lemma getr_run r m : getr r m = Ok (reg m r) m.
Proof. done. Qed.

Lemma set_reg_ok r v m : regs_ok m -> urange 64 v -> regs_ok (set_reg r v m).
Proof.
  intros [Hl Hf] Hv. split; cbn [set_reg upd_m m_c c_r with_r].
  - by rewrite length_insert.
  - by apply Forall_insert.
Qed.

(** What a write of [size] bytes leaves in a register that held [old]. *)
Definition merged (old v size : Z) : Z :=
  if size =? 4 then trunc_sz v 4
  else old / 2 ^ (size * 8) * 2 ^ (size * 8) + trunc_sz v size.

Lemma concat_range w x y :
  8 <= w <= 64 -> urange 64 x -> urange w y -> urange 64 (x / 2 ^ w * 2 ^ w + y).
Proof.
  intros Hw [Hx0 Hx1] Hy. unfold urange in *.
  assert (Hp : 2 ^ 64 = 2 ^ (64 - w) * 2 ^ w) by (rewrite <- Z.pow_add_r by lia; f_equal; lia).
  assert (0 < 2 ^ w) by (apply Z.pow_pos_nonneg; lia).
  assert (x / 2 ^ w < 2 ^ (64 - w)) by (apply Z.div_lt_upper_bound; lia).
  assert (0 <= x / 2 ^ w) by (apply Z.div_pos; lia). nia.
Qed.

Lemma merged_range old v size : opsize size -> urange 64 old -> urange 64 (merged old v size).
Proof.
  intros Hs Ho. unfold merged. pose proof (opsize_width _ Hs). case_match.
  - eapply urange_mono; [|apply trunc_sz_range; right; right; by left]; lia.
  - apply concat_range; [done|done|by apply trunc_sz_range].
Qed.

Lemma setreg_run r v size m :
  opsize size -> regs_ok m -> 0 <= r < 16 ->
  setreg r v size m = Ok tt (set_reg r (merged (reg m r) v size) m).
Proof.
  intros Hs Hm Hr. pose proof (reg_range m r Hm Hr) as Ho.
  pose proof (merged_range _ v _ Hs Ho) as Hmr. unfold setreg.
  rewrite <- (uwrap_small 64 (merged _ _ _)) by done. unfold merged in *.
  unfold mbind, M_bind. rewrite getr_run.
  destruct Hs as [->|[->|[->| ->]]]; cbn [Z.eqb Pos.eqb Z.mul] in *; rewrite setr_run; do 2 f_equal.
  - change 0xff with (Z.ones 8). rewrite replace_low by lia. rewrite trunc_sz_uwrap by (by left). done.
  - change 0xffff with (Z.ones 16). rewrite replace_low by lia.
    rewrite trunc_sz_uwrap by (right; by left). done.
  - unfold urange in Ho. rewrite Z.div_small by done. rewrite Z.mul_0_l, Z.add_0_l.
    rewrite trunc_sz_uwrap by (right; right; by right). symmetry. by apply uwrap_uwrap.
Qed.

(** A register write of 1, 2, 4 or 8 bytes reads back as the value at
    that width; a 4-byte write clears the upper half, narrower ones keep it,
    and no other register changes. *)
Theorem setreg_spec r v size m :
  cpu_wf (m_c m) -> 0 <= r < 16 -> opsize size ->
  exists m', setreg r v size m = Ok tt m' /\
    value (getreg r size) m' = Some (trunc_sz v size) /\
    reg m' r = merged (reg m r) v size /\
    (forall j, 0 <= j -> j <> r -> reg m' j = reg m j).
Proof.
  intros Hm%regs_ok_wf Hr Hs. eexists. split; [by apply setreg_run|].
  assert (Hset : forall x, reg (set_reg r x m) r = x).
  { intros x. rewrite reg_set by (done || lia). by rewrite Z.eqb_refl. }
  split; [|split; [apply Hset|]].
  - unfold value, getreg, mbind, M_bind. rewrite getr_run, Hset. cbn. f_equal.
    pose proof (opsize_width _ Hs). unfold merged. destruct (size =? 4) eqn:E.
    + apply Z.eqb_eq in E as ->. apply trunc_sz_idemp. right; right; by left.
    + rewrite trunc_sz_uwrap by done. unfold uwrap. rewrite Z.add_comm, Z_mod_plus_full.
      rewrite trunc_sz_uwrap by done. by apply uwrap_uwrap; lia.
  - intros j Hj Hn. rewrite reg_set by (done || lia). by rewrite (proj2 (Z.eqb_neq j r)).
Qed.

(* ---------------------------------------------------------------- *)
(** ** The stack *)

(** The slot a push would use may be written and read. *)
Definition stack_slot (m : machine) : Prop :=
  access_ok (m_as m) (u64 (reg m RSP - 8)) 8 RSD_PROT_W = true /\
  access_ok (m_as m) (u64 (reg m RSP - 8)) 8 RSD_PROT_R = true.

Lemma push_inv v m u m1 :
  regs_ok m -> push v m = Ok u m1 ->
  st (u64 (reg m RSP - 8)) v 8 (set_reg RSP (u64 (reg m RSP - 8)) m) = Ok tt m1.
Proof.
  intros Hm. unfold push, mbind, M_bind. rewrite getr_run, setr_run, getr_run.
  rewrite reg_set by (done || lia). by destruct u.
Qed.

Lemma pop_inv m x m1 :
  pop m = Ok x m1 ->
  exists m2, ld (reg m RSP) 8 m = Ok x m2 /\ m1 = set_reg RSP (u64 (reg m2 RSP + 8)) m2.
Proof.
  unfold pop. intros (sp & ? & [= <- <-] & (v & m2 & H2 & (sp' & ? & [= <- <-] &
    ([] & ? & [= <-] & [= <- <-])%bind_ok)%bind_ok)%bind_ok)%bind_ok.
  by exists m2.
Qed.

(** What [pop] finds after [push], nothing but the stack slot having changed
    in between. *)
Lemma push_pop v m m1 m1' x m2 :
  regs_ok m -> stack_slot m -> push v m = Ok tt m1 ->
  m_as m1' = m_as m1 -> mem_of m1' = mem_of m1 -> c_r (m_c m1') = c_r (m_c m1) ->
  pop m1' = Ok x m2 ->
  x = u64 v /\ m2 = set_reg RSP (reg m RSP) m1' /\ regs_ok m2 /\ (forall j, 0 <= j < 16 -> reg m2 j = reg m j).
Proof.
  intros Hm [Hw Hr] Hpush Has Hmem Hregs Hpop. apply push_inv in Hpush; [|done].
  apply pop_inv in Hpop as (m3 & Hld & ->).
  pose proof (reg_range m RSP Hm ltac:(done)) as Hsp.
  assert (Hu : urange 64 (u64 (reg m RSP - 8))) by by apply uwrap_range.
  assert (H8 : opsize 8) by (right; right; by right).
  set (m0 := set_reg RSP (u64 (reg m RSP - 8)) m) in *.
  assert (Hreg1 : c_r (m_c m1) = c_r (m_c m0)).
  { apply (st_ok _ _ _ _ _ _ H8) in Hpush as [[Hf _]|(_ & _ & w' & -> & _)]; [|done].
    cbn in Hf. congruence. }
  assert (Hreg0 : forall j, 0 <= j -> reg m1' j = if j =? RSP then u64 (reg m RSP - 8) else reg m j).
  { intros j Hj. unfold reg at 1. rewrite Hregs, Hreg1. by apply (reg_set m RSP j). }
  rewrite Hreg0 in Hld by done. cbn [Z.eqb RSP Pos.eqb] in Hld.
  destruct (st_ld _ _ _ m0 m1 m1' x m3 H8 Hw Hr Hpush Has Hmem Hld) as (-> & -> & _).
  assert (Hm1 : regs_ok m1').
  { unfold regs_ok. rewrite Hregs, Hreg1. apply set_reg_ok; done. }
  assert (Hback : u64 (reg m1' RSP + 8) = reg m RSP).
  { rewrite Hreg0 by done. cbn [Z.eqb RSP Pos.eqb]. unfold urange, uwrap in *.
    rewrite Zplus_mod_idemp_l. fold RSP.
    replace (reg m RSP - 8 + 8) with (reg m RSP) by lia. by apply Z.mod_small. }
  rewrite Hback. split; [done|]. split; [done|]. split; [by apply set_reg_ok|].
  intros j Hj. rewrite reg_set by (done || lia).
  destruct (Z.eqb_spec j RSP) as [->|Hn]; [done|].
  rewrite Hreg0 by lia. by rewrite (proj2 (Z.eqb_neq j RSP)).
Qed.
End registers.
