(* ===== verification/Instructions.v ===== *)
(** What groups of instructions compute ([step] in [src/cpu.c]): calls and
    returns, saving the flags, multiplication and division. *)
From S2P Require Import Prelude.
From S2P Require Import Memory.
From S2P Require Import AddressSpace.
From S2P Require Import SampleHost.
From S2P Require Import Flags.
From S2P Require Import Float.
From S2P Require Import Machine.
From S2P Require Import Access.
From S2P Require Import Decode.
From S2P Require Import Sse.
From S2P Require Import Native.
From S2P Require Import Step.
From S2P Require Import Keeps.
From S2P Require Import Safety.
From S2P Require Import Registers.

Section instructions.
Context `{HostOS}.

(* ---------------------------------------------------------------- *)
(** ** Calls and returns *)

Lemma fetch_inv n d m v d' m' :
  fetch n d m = Ok (v, d') m' -> m' = m /\ d' = with_p (d_p d + n) d /\
  exists bs, read_bytes (mem_of m) (d_p d) (Z.to_nat n) = Some bs /\ v = le_val bs.
Proof.
  unfold fetch. intros (x & m1 & [-> Hbs]%host_read_ok & [= <- <- <-])%bind_ok. done.
Qed.

(** Machines that agree on the table, memory and general registers. *)
Definition agree (m m' : machine) : Prop :=
  m_as m' = m_as m /\ mem_of m' = mem_of m /\ c_r (m_c m') = c_r (m_c m).

Lemma agree_refl m : agree m m.
Proof. done. Qed.

Lemma agree_upd f m : (forall c, c_r (f c) = c_r c) -> agree m (upd_m f m).
Proof. intros Hf. split; [done|]. split; [done|]. apply Hf. Qed.

(** C29.  A near call with a stack slot below the stack pointer that may be read and
    written, and the return that answers it: the call goes to the next
    instruction plus the displacement in its four bytes, and a return executed
    with the stack as the call left it comes back to that instruction with
    every general register as it was before the call. *)
Theorem call_ret d d' m m1 m1' m2 :
  regs_ok m -> stack_slot m ->
  op_call d m = Ok tt m1 -> agree m1 m1' -> op_ret d' 0xC3 m1' = Ok tt m2 ->
  (forall rel, - 2 ^ 31 <= rel < 2 ^ 31 ->
     read_bytes (mem_of m) (d_p d) 4 = Some (le_bytes 4 rel) ->
     c_rip (m_c m1) = u64 (dec_rip (with_p (d_p d + 4) d) + rel)) /\
  c_rip (m_c m2) = dec_rip (with_p (d_p d + 4) d) /\
  (forall j, 0 <= j < 16 -> reg m2 j = reg m j).
Proof.
  intros Hm Hs Hcall (Has & Hmem & Hregs) Hret. set (next := dec_rip (with_p (d_p d + 4) d)).
  assert (Hn : urange 64 next) by by apply uwrap_range.
  unfold op_call in Hcall.
  apply bind_ok in Hcall as ([rel d1] & ma & (-> & -> & bs & Hbs & Hrel)%fetch_inv & Hcall).
  apply bind_ok in Hcall as ([] & mb & [= <-] & Hcall).
  apply bind_ok in Hcall as (rip & mc & [= <- <-] & Hcall). cbn [c_rip with_rip m_c] in Hcall.
  fold next in Hcall. rewrite uwrap_small in Hcall by done.
  apply bind_ok in Hcall as ([] & md & Hpush & Hjump).
  unfold jump_rel in Hjump. apply bind_ok in Hjump as (r & ? & [= <- <-] & [= <-]).
  cbn [m_as mem_of m_w m_c c_r with_rip] in Has, Hmem, Hregs.
  unfold op_ret in Hret. apply bind_ok in Hret as ([n d2] & ? & [= <- <- <-] & Hret).
  apply bind_ok in Hret as (x & m3 & Hpop & Hret).
  apply bind_ok in Hret as ([] & ? & [= <-] & Hret).
  apply bind_ok in Hret as (sp & ? & [= <- <-] & [= <-]).
  pose proof Hpush as Hpush'. change (Machine (with_rip next (m_c m)) (m_as m) (m_w m) (m_cb m) (m_cm m))
    with (upd_m (with_rip next) m) in Hpush, Hpush'.
  destruct (push_pop next (upd_m (with_rip next) m) md m1' x m3 Hm Hs Hpush Has Hmem Hregs Hpop)
    as (-> & -> & Hm4 & Hj).
  assert (Hrip : c_rip (m_c md) = next).
  { apply push_inv in Hpush'; [|done]. apply st_ok in Hpush' as [[_ ->]|(_ & _ & w' & -> & _)];
      [|by apply uwrap_small|right; right; by right].
    unfold memfault_cpu. cbn -[uwrap]. case_match; by apply uwrap_small. }
  split.
  { intros rel0 Hrel0 Hb. change (Z.to_nat 4) with 4%nat in Hbs.
    assert (Hv : s32 rel = rel0).
    { assert (bs = le_bytes 4 rel0) as -> by congruence. rewrite Hrel, le_val_bytes.
      rewrite swrap_uwrap by lia. apply swrap_small; lia. }
    rewrite <- Hrip, <- Hv. done. }
  split; [cbn -[uwrap]; rewrite uwrap_uwrap by done; by apply uwrap_small|].
  intros j Hjr. change (reg m j) with (reg (upd_m (with_rip next) m) j). rewrite <- (Hj j Hjr).
  set (m4 := set_reg RSP _ m1') in *. change (reg (set_reg RSP (u64 (reg m4 RSP + 0)) m4) j = reg m4 j).
  rewrite reg_set by (done || lia). destruct (Z.eqb_spec j RSP) as [->|]; [|done].
  rewrite Z.add_0_r. apply uwrap_small. by apply reg_range.
Qed.

(** [pushfq] and a later [popfq] from the same stack restore the six
    arithmetic flags whatever happened to them in between; the other bits
    read as the constant rashid uses, and the stack pointer is back. *)
Theorem pushfq_popfq d d' m m1 m1' m2 :
  regs_ok m -> stack_slot m -> urange 32 (c_flags (m_c m)) ->
  op_pushfq d m = Ok tt m1 -> agree m1 m1' -> op_popfq d' m1' = Ok tt m2 ->
  c_flags (m_c m2) = (c_flags (m_c m) .& FL_ALL) .| 0x202 /\
  (forall j, 0 <= j < 16 -> reg m2 j = reg m j).
Proof.
  intros Hm Hs Hfl Hpush (Has & Hmem & Hregs) Hpop.
  apply bind_ok in Hpush as ([] & ma & [= <-] & Hpush).
  apply bind_ok in Hpush as (fl & mb & [= <- <-] & Hpush).
  apply bind_ok in Hpop as ([] & mc & [= <-] & Hpop).
  apply bind_ok in Hpop as (v & m3 & Hpop & [= <-]).
  destruct (push_pop (c_flags (m_c m)) (upd_m (with_rip (dec_rip d)) m) m1
    (upd_m (with_rip (dec_rip d')) m1') v m3 Hm Hs Hpush Has Hmem Hregs Hpop) as (-> & -> & _ & Hj).
  split; [|exact Hj]. cbn -[uwrap Z.land Z.lor].
  assert (H64 : urange 64 (c_flags (m_c m))) by (eapply urange_mono; [|exact Hfl]; lia).
  rewrite (uwrap_small 64) by done.
  assert (Hr : urange 32 (c_flags (m_c m) .& FL_ALL)) by (apply urange_land; [lia|done|done]).
  change (F_CF .| F_PF .| F_AF .| F_ZF .| F_SF .| F_OF) with FL_ALL.
  rewrite (uwrap_small 32 (_ .& _)) by done. apply uwrap_small, urange_lor; done.
Qed.

(* ---------------------------------------------------------------- *)
(** ** Multiplication and division *)

Lemma merged_trunc old v size : opsize size -> trunc_sz (merged old v size) size = trunc_sz v size.
Proof.
  intros Hs. pose proof (opsize_width _ Hs). unfold merged. destruct (size =? 4) eqn:E.
  - apply Z.eqb_eq in E as ->. by apply trunc_sz_idemp.
  - rewrite trunc_sz_uwrap by done. unfold uwrap. rewrite Z.add_comm, Z_mod_plus_full.
    rewrite trunc_sz_uwrap by done. by apply uwrap_uwrap; lia.
Qed.

(** The two halves an instruction leaves in the accumulator pair. *)
Definition low_half (m : machine) (sz : Z) : Z := trunc_sz (reg m RAX) sz.
Definition high_half (m : machine) (sz : Z) : Z := trunc_sz (reg m RDX) sz.

(** Writing RAX and then RDX. *)
Lemma write_pair m lo hi sz :
  regs_ok m -> opsize sz ->
  exists m', (setreg RAX lo sz;; setreg RDX hi sz) m = Ok tt m' /\
    low_half m' sz = trunc_sz lo sz /\ high_half m' sz = trunc_sz hi sz /\
    (forall j, 0 <= j -> j <> RAX -> j <> RDX -> reg m' j = reg m j).
Proof.
  intros Hm Hs. pose proof (reg_range m RAX Hm ltac:(done)) as Hrax.
  set (m1 := set_reg RAX (merged (reg m RAX) lo sz) m).
  assert (Hm1 : regs_ok m1) by (apply set_reg_ok; [done|by apply merged_range]).
  exists (set_reg RDX (merged (reg m1 RDX) hi sz) m1).
  split; [|unfold low_half, high_half; split; [|split]].
  - unfold mbind, M_bind. rewrite setreg_run by done. fold m1. by apply setreg_run.
  - rewrite reg_set by done. cbn [Z.eqb RAX RDX]. unfold m1.
    rewrite reg_set by done. rewrite Z.eqb_refl. by apply merged_trunc.
  - rewrite reg_set by done. rewrite Z.eqb_refl. by apply merged_trunc.
  - intros j Hj Ha Hd. rewrite reg_set by done. rewrite (proj2 (Z.eqb_neq j RDX)) by done.
    unfold m1. rewrite reg_set by done. by rewrite (proj2 (Z.eqb_neq j RAX)).
Qed.

Lemma split_product w p : 8 <= w <= 64 -> uwrap w (u64 p) + 2 ^ w * uwrap w (u64 (uwrap 128 p >> w)) = uwrap (2 * w) p.
Proof.
  intros Hw. rewrite !(uwrap_le w 64) by lia. rewrite Z.shiftr_div_pow2 by lia.
  assert (Hpos : 0 < 2 ^ w) by (apply Z.pow_pos_nonneg; lia).
  replace (2 * w) with (w + w) by lia. unfold uwrap. rewrite Z.pow_add_r by lia.
  rewrite (Z.rem_mul_r p (2 ^ w) (2 ^ w)) by lia. do 2 f_equal.
  replace (2 ^ 128) with (2 ^ w * (2 ^ w * 2 ^ (128 - 2 * w))).
  2:{ rewrite <- !Z.pow_add_r by lia. f_equal. lia. }
  assert (0 < 2 ^ (128 - 2 * w)) by (apply Z.pow_pos_nonneg; lia).
  rewrite (Z.rem_mul_r p (2 ^ w)) by nia.
  rewrite Z.add_comm, Z.mul_comm, Z.div_add_l by lia.
  rewrite (Z.div_small (p mod 2 ^ w)) by (apply Z.mod_pos_bound; lia). rewrite Z.add_0_r.
  rewrite Z.rem_mul_r by lia. rewrite Z.mul_comm, Z_mod_plus_full. apply Z.mod_mod. lia.
Qed.

(** C32.  [mul] and [imul] by an operand of 2, 4 or 8 bytes leave the whole
    double-width product, unsigned or signed, in the accumulator pair, and
    change no other register. *)
Theorem mul_spec a sz m :
  regs_ok m -> opsize sz -> 1 < sz ->
  (exists m', mul_unsigned a sz m = Ok tt m' /\
    low_half m' sz + 2 ^ (sz * 8) * high_half m' sz = trunc_sz (reg m RAX) sz * trunc_sz a sz /\
    (forall j, 0 <= j -> j <> RAX -> j <> RDX -> reg m' j = reg m j)) /\
  (exists m', mul_signed a sz m = Ok tt m' /\
    swrap (2 * (sz * 8)) (low_half m' sz + 2 ^ (sz * 8) * high_half m' sz) =
      sext (reg m RAX) sz * sext a sz /\
    (forall j, 0 <= j -> j <> RAX -> j <> RDX -> reg m' j = reg m j)).
Proof.
  intros Hm Hs H1. pose proof (opsize_width _ Hs) as Hw. set (w := sz * 8) in *.
  assert (Hpos : 0 < 2 ^ (w - 1)) by (apply Z.pow_pos_nonneg; lia).
  assert (H2w : 2 ^ (2 * w) = 2 ^ w * 2 ^ w) by (rewrite <- Z.pow_add_r by lia; f_equal; lia).
  assert (Hhalf : 2 ^ (2 * w - 1) = 2 * (2 ^ (w - 1) * 2 ^ (w - 1))).
  { rewrite <- Z.pow_add_r, <- Z.pow_succ_r by lia. f_equal. lia. }
  split.
  - pose proof (trunc_sz_range (reg m RAX) sz Hs) as Hx. pose proof (trunc_sz_range a sz Hs) as Hy.
    fold w in Hx, Hy. set (p := trunc_sz (reg m RAX) sz * trunc_sz a sz).
    assert (Hp : urange (2 * w) p) by (unfold p, urange in *; nia).
    assert (Hp128 : urange 128 p) by (eapply urange_mono; [|exact Hp]; lia).
    destruct (write_pair m (u64 p) (u64 (p >> w)) sz Hm Hs) as (m' & Hrun & Hlo & Hhi & Hoth).
    exists m'. split; [|split; [|done]].
    + unfold mul_unsigned, when. rewrite (proj2 (Z.ltb_lt 1 sz)) by done. exact Hrun.
    + rewrite Hlo, Hhi, !trunc_sz_uwrap by done. fold w.
      rewrite <- (uwrap_small 128 p Hp128) at 2. rewrite split_product by done.
      by apply uwrap_small.
  - pose proof (swrap_bounds w (reg m RAX) ltac:(lia)) as Hx.
    pose proof (swrap_bounds w a ltac:(lia)) as Hy. unfold w in Hx, Hy.
    rewrite <- !sext_swrap in Hx, Hy by done. fold w in Hx, Hy.
    set (p := sext (reg m RAX) sz * sext a sz).
    destruct (write_pair m (u64 p) (u64 (uwrap 128 p >> w)) sz Hm Hs) as (m' & Hrun & Hlo & Hhi & Hoth).
    exists m'. split; [|split; [|done]].
    + unfold mul_signed, when. rewrite (proj2 (Z.ltb_lt 1 sz)) by done. exact Hrun.
    + rewrite Hlo, Hhi, !trunc_sz_uwrap by done. fold w. rewrite split_product by done.
      rewrite swrap_uwrap by lia. apply swrap_small; [lia|]. unfold p. rewrite Hhalf. nia.
Qed.

(** C30.  Division by a non-zero operand of 2, 4 or 8 bytes whose quotient fits
    leaves quotient and remainder of the double-width dividend in the
    accumulator pair, rounded toward zero for the signed form; a zero divisor
    stops the guest at the instruction and changes no register. *)
Theorem div_spec a sz start m :
  regs_ok m -> opsize sz -> 1 < sz -> urange (sz * 8) a -> urange 64 start ->
  let w := sz * 8 in
  let unum := high_half m sz * 2 ^ w + low_half m sz in
  let snum := sext (reg m RDX) sz * 2 ^ w + low_half m sz in
  (a = 0 -> forall f, In f [div_unsigned; div_signed] -> exists m',
     f a sz start m = Ok tt m' /\ c_fault (m_c m') = Some "divide by zero"%string /\
     c_fault_rip (m_c m') = start /\ c_running (m_c m') = false /\ c_r (m_c m') = c_r (m_c m)) /\
  (a <> 0 -> unum / a < 2 ^ w -> exists m', div_unsigned a sz start m = Ok tt m' /\
     low_half m' sz = unum / a /\ high_half m' sz = unum mod a) /\
  (a <> 0 -> - 2 ^ (w - 1) <= Z.quot snum (sext a sz) < 2 ^ (w - 1) ->
     exists m', div_signed a sz start m = Ok tt m' /\
     sext (reg m' RAX) sz = Z.quot snum (sext a sz) /\
     sext (reg m' RDX) sz = Z.rem snum (sext a sz)).
Proof.
  intros Hm Hs H1 Ha Hst w unum snum. pose proof (opsize_width _ Hs) as Hw. fold w in Hw, Ha.
  pose proof (trunc_sz_range (reg m RAX) sz Hs) as Hx. fold w in Hx.
  pose proof (trunc_sz_range (reg m RDX) sz Hs) as Hy. fold w in Hy.
  assert (Hta : trunc_sz a sz = a) by (rewrite trunc_sz_uwrap by done; by apply uwrap_small).
  split; [|split].
  - intros -> f [<-|[<-|[]]]; eexists; (split; [reflexivity|]); cbn -[uwrap];
      repeat split; by apply uwrap_small.
  - intros Hn Hq. unfold urange in Ha, Hx, Hy.
    destruct (write_pair m (u64 (unum / a)) (u64 (unum mod a)) sz Hm Hs) as (m' & Hrun & Hlo & Hhi & _).
    exists m'. split; [|split].
    + unfold div_unsigned, nz. rewrite (proj2 (Z.eqb_neq a 0) Hn). cbn [negb].
      unfold mbind at 1 2, M_bind at 1 2. rewrite !getr_run, Hta.
      rewrite Z.shiftl_mul_pow2 by lia. fold w. rewrite lor_concat by (unfold urange; lia). exact Hrun.
    + assert (0 <= unum / a) by (apply Z.div_pos; unfold unum, high_half, low_half; nia).
      rewrite Hlo, trunc_sz_uwrap, uwrap_le by (done || (fold w; lia)).
      apply uwrap_small. unfold urange. fold w. lia.
    + pose proof (Z.mod_pos_bound unum a ltac:(lia)).
      rewrite Hhi, trunc_sz_uwrap, uwrap_le by (done || (fold w; lia)).
      apply uwrap_small. unfold urange. fold w. lia.
  - intros Hn Hq. set (sa := sext a sz) in *.
    pose proof (swrap_bounds w a ltac:(lia)) as Hsa. unfold w in Hsa.
    rewrite <- sext_swrap in Hsa by done. fold sa w in Hsa.
    assert (Hsa0 : sa <> 0).
    { intros E. apply Hn. rewrite <- (uwrap_small w a Ha), <- swrap_congr by lia.
      unfold sa in E. rewrite sext_swrap in E by done. fold w in E. by rewrite E. }
    assert (Hrem : - 2 ^ (w - 1) <= Z.rem snum sa < 2 ^ (w - 1)).
    { pose proof (Z.rem_bound_abs snum sa Hsa0). lia. }
    destruct (write_pair m (u64 (Z.quot snum sa)) (u64 (Z.rem snum sa)) sz Hm Hs)
      as (m' & Hrun & Hlo & Hhi & _).
    assert (Hsgn : forall x v, trunc_sz x sz = trunc_sz (u64 v) sz ->
              - 2 ^ (w - 1) <= v < 2 ^ (w - 1) -> sext x sz = v).
    { intros x v Ht Hv. rewrite !trunc_sz_uwrap in Ht by done. fold w in Ht.
      rewrite sext_swrap by done. fold w. rewrite <- swrap_uwrap, Ht by lia.
      rewrite uwrap_le, swrap_uwrap by lia. by apply swrap_small; lia. }
    exists m'. split; [|split; by apply Hsgn].
    unfold div_signed, nz. rewrite (proj2 (Z.eqb_neq a 0) Hn). cbn [negb].
    unfold mbind at 1 2, M_bind at 1 2. rewrite !getr_run. fold sa.
    rewrite Z.shiftl_mul_pow2 by lia. fold w. rewrite lor_concat by (done || lia).
    fold (low_half m sz). fold snum.
    destruct ((snum =? - 2 ^ 127) && (sa =? -1)) eqn:E; [|exact Hrun].
    exfalso. apply andb_true_iff in E as [E1%Z.eqb_eq E2%Z.eqb_eq]. rewrite E1, E2 in Hq.
    change (Z.quot (- 2 ^ 127) (-1)) with (2 ^ 127) in Hq.
    assert (2 ^ (w - 1) <= 2 ^ 127) by (apply Z.pow_le_mono_r; lia). lia.
Qed.
End instructions.

(* ------------------------------------------------------------------ *)
(** ** Concrete runs *)

#[local] Existing Instance sample_host.

(** A guest with a stack: rsp at 0x10080, inside its page. *)
Definition sample_stack (code : list Z) : machine := set_reg RSP 0x10080 (sample_guest code).

Lemma sample_stack_ok code : regs_ok (sample_stack code).
Proof. apply set_reg_ok; [|done]. apply regs_ok_wf, reset_cpu_wf. Qed.

Lemma sample_stack_slot code : stack_slot (sample_stack code).
Proof. split; vm_compute; reflexivity. Qed.

Lemma sample_stack_flags code : urange 32 (c_flags (m_c (sample_stack code))).
Proof. by change (urange 32 0x202). Qed.

Lemma setreg_spec_witness :
  cpu_wf (m_c (sample_guest [])) /\
  exists m', setreg RBX 0x1ffffffff 4 (sample_guest []) = Ok tt m' /\ reg m' RBX = 0xffffffff.
Proof.
  split; [apply reset_cpu_wf|].
  destruct (setreg_spec RBX 0x1ffffffff 4 (sample_guest [])) as (m' & H & _ & Hr & _);
    [apply reset_cpu_wf|done|right; right; by left|]. exists m'. split; [exact H|].
  rewrite Hr. reflexivity.
Defined.

Lemma call_ret_witness :
  let d := start_dec 0x10001 in
  let m := sample_stack [0xE8; 0x20; 0; 0; 0] in
  let m1 := after (op_call d) m in let m2 := after (op_ret d 0xC3) m1 in
  c_rip (m_c m1) = 0x10025 /\ c_rip (m_c m2) = dec_rip (with_p (d_p d + 4) d).
Proof.
  intros d m m1 m2.
  assert (H1 : value (op_call d) m = Some tt) by (vm_compute; reflexivity).
  assert (H2 : value (op_ret d 0xC3) m1 = Some tt) by (vm_compute; reflexivity).
  destruct (call_ret d d m m1 m1 m2 (sample_stack_ok _) (sample_stack_slot _)
    (run_value _ _ _ H1) (agree_refl _) (run_value _ _ _ H2)) as (Hto & Hback & _).
  split; [|exact Hback]. rewrite (Hto 0x20) by (lia || vm_compute; reflexivity). vm_compute. reflexivity.
Defined.

Lemma pushfq_popfq_witness :
  let d := start_dec 0x10000 in let m := sample_stack [] in
  let m1 := after (op_pushfq d) m in
  let m1' := upd_m (with_flags 0xffff) m1 in
  c_flags (m_c (after (op_popfq d) m1')) = 0x202.
Proof.
  intros d m m1 m1'.
  assert (H1 : value (op_pushfq d) m = Some tt) by (vm_compute; reflexivity).
  assert (H2 : value (op_popfq d) m1' = Some tt) by (vm_compute; reflexivity).
  assert (He : (c_flags (m_c m) .& FL_ALL) .| 0x202 = 0x202) by (vm_compute; reflexivity).
  transitivity ((c_flags (m_c m) .& FL_ALL) .| 0x202); [|exact He].
  exact (proj1 (pushfq_popfq d d m m1 m1' (after (op_popfq d) m1') (sample_stack_ok _)
    (sample_stack_slot _) (sample_stack_flags _) (run_value _ _ _ H1) (agree_upd (with_flags 0xffff) m1 (fun _ => eq_refl))
    (run_value _ _ _ H2))).
Defined.

Lemma mul_spec_witness :
  let m := set_reg RAX 0xffffffffffffffff (sample_guest []) in
  exists m', mul_unsigned 0xffffffffffffffff 8 m = Ok tt m' /\
    low_half m' 8 + 2 ^ 64 * high_half m' 8 = 0xffffffffffffffff * 0xffffffffffffffff.
Proof.
  intros m. destruct (mul_spec 0xffffffffffffffff 8 m) as [(m' & H & He & _) _];
    [apply set_reg_ok; [apply regs_ok_wf, reset_cpu_wf|done]|right; right; by right|lia|].
  exists m'. split; [exact H|exact He].
Defined.

Lemma div_spec_witness :
  let m := set_reg RAX 100 (sample_guest []) in
  exists m', div_unsigned 7 8 0x10000 m = Ok tt m' /\ low_half m' 8 = 14 /\ high_half m' 8 = 2.
Proof.
  intros m. destruct (div_spec 7 8 0x10000 m) as (_ & H & _);
    [apply set_reg_ok; [apply regs_ok_wf, reset_cpu_wf|done]|right; right; by right|lia|done|done|].
  apply H; [lia|reflexivity].
Defined.
