(* ===== verification/Termination.v ===== *)
(** The loops of the interpreter that are bounded by the machine itself: the
    prefix loop and the format-string loops each read a fresh byte of host
    memory per turn, so they end; so does every instruction. *)
From Stdlib Require Import Ascii.
From S2P Require Import Prelude.
From S2P Require Import Memory.
From S2P Require Import AddressSpace.
From S2P Require Import SampleHost.
From S2P Require Import Flags.
From S2P Require Import Float.
From S2P Require Import Stubs.
From S2P Require Import Callbacks.
From S2P Require Import Machine.
From S2P Require Import Access.
From S2P Require Import Decode.
From S2P Require Import Syscall.
From S2P Require Import Native.
From S2P Require Import Sse.
From S2P Require Import Step.
From S2P Require Import Keeps.
From S2P Require Import Safety.

Create HintDb nofuel discriminated.

(* ------------------------------------------------------------------ *)
(** ** Bytes left to read *)

(** How many mapped bytes lie at [p] or above. *)
Definition bytes_from (mem : gmap Z Z) (p : Z) : nat := size (filter (fun kv => p <= kv.1) mem).

Lemma bytes_from_step mem p b : mem !! p = Some b -> (bytes_from mem (p + 1) < bytes_from mem p)%nat.
Proof.
  intros Hp. unfold bytes_from. rewrite <- !size_dom. apply subset_size.
  split.
  - intros k. rewrite !elem_of_dom. intros [x [Hx Hk]%map_lookup_filter_Some]. exists x.
    apply map_lookup_filter_Some. cbn in *. split; [done|lia].
  - intros Hsub. assert (Hin : p ∈ dom (filter (fun kv => p <= kv.1) mem)).
    { apply elem_of_dom. exists b. apply map_lookup_filter_Some. cbn. split; [done|lia]. }
    apply Hsub, elem_of_dom in Hin as [x [_ Hx]%map_lookup_filter_Some]. cbn in Hx. lia.
Qed.

Lemma bytes_from_size mem p : (bytes_from mem p <= size mem)%nat.
Proof. apply map_size_filter. Qed.

(* ------------------------------------------------------------------ *)
(** ** Computations that do not run out of fuel *)

Section nofuel.
Context `{HostOS}.

Definition nofuel {A} (c : M A) : Prop := forall m, c m <> Trap OutOfFuel.

Lemma nofuel_ret {A} (a : A) : nofuel (mret a).
Proof. done. Qed.
Lemma nofuel_bind {A B} (c : M A) (k : A -> M B) : nofuel c -> (forall a, nofuel (k a)) -> nofuel (c ≫= k).
Proof.
  intros Hc Hk m. unfold mbind, M_bind. specialize (Hc m). destruct (c m) as [a m'|t]; [apply Hk|].
  congruence.
Qed.
Lemma nofuel_raise_host {A} a : nofuel (raise (HostFault a) : M A).
Proof. done. Qed.
Lemma nofuel_raise_undef {A} s : nofuel (raise (Undefined s) : M A).
Proof. done. Qed.
Lemma nofuel_gets {A} (f : machine -> A) : nofuel (gets f).
Proof. done. Qed.
Lemma nofuel_modify f : nofuel (modify f).
Proof. done. Qed.
Lemma nofuel_when b c : nofuel c -> nofuel (when b c).
Proof. by destruct b. Qed.
Lemma nofuel_host_read a n : nofuel (host_read a n).
Proof. intros m. unfold host_read. by case_match. Qed.
Lemma nofuel_host_bytes a n : nofuel (host_bytes a n).
Proof. intros m. unfold host_bytes. by case_match. Qed.
Lemma nofuel_host_store a bs : nofuel (host_store a bs).
Proof. intros m. unfold host_store. by case_match. Qed.
End nofuel.
#[export] Hint Resolve nofuel_ret nofuel_raise_host nofuel_raise_undef nofuel_gets nofuel_modify
  nofuel_host_read nofuel_host_bytes nofuel_host_store : nofuel.

Ltac nofuel_step :=
  match goal with
  | |- forall _, _ => intros ?
  | |- nofuel (mbind _ _) => apply nofuel_bind
  | |- nofuel (when _ _) => apply nofuel_when
  | |- nofuel (if ?b then _ else _) => destruct b
  | |- nofuel (match ?x with _ => _ end) => destruct x
  | |- nofuel (let '(_, _) := ?x in _) => destruct x
  end.
Ltac nofuel_tac := repeat (cbv beta zeta; first [solve [eauto 2 with nofuel] | nofuel_step]).

Section instructions.
Context `{HostOS} `{HostFloat}.

Lemma nofuel_upd f : nofuel (upd f). Proof. done. Qed.
Lemma nofuel_get_c {A} (f : rsd_cpu -> A) : nofuel (get_c f). Proof. done. Qed.
Lemma nofuel_setr i v : nofuel (setr i v). Proof. done. Qed.
Lemma nofuel_getr i : nofuel (getr i). Proof. done. Qed.
Lemma nofuel_setx i v : nofuel (setx i v). Proof. done. Qed.
Lemma nofuel_getx i : nofuel (getx i). Proof. done. Qed.
Lemma nofuel_stop w v : nofuel (stop w v). Proof. done. Qed.
Lemma nofuel_set_rip v : nofuel (set_rip v). Proof. done. Qed.
Lemma nofuel_set_flags v : nofuel (set_flags v). Proof. done. Qed.
Lemma nofuel_memfault a w : nofuel (memfault a w). Proof. done. Qed.
Lemma nofuel_set_as s : nofuel (set_as s). Proof. done. Qed.
Lemma nofuel_set_world w : nofuel (set_world w). Proof. done. Qed.
Hint Resolve nofuel_upd nofuel_get_c nofuel_setr nofuel_getr nofuel_setx nofuel_getx nofuel_stop
  nofuel_set_rip nofuel_set_flags nofuel_memfault nofuel_set_as nofuel_set_world : nofuel.

Lemma nofuel_ld a n : nofuel (ld a n).
Proof. unfold ld. nofuel_tac. Qed.
Lemma nofuel_ld128 a : nofuel (ld128 a).
Proof. unfold ld128. nofuel_tac. Qed.
Lemma nofuel_log_write a v n : nofuel (log_write a v n).
Proof. unfold log_write. nofuel_tac. Qed.
Hint Resolve nofuel_ld nofuel_ld128 nofuel_log_write : nofuel.
Lemma nofuel_st a v n : nofuel (st a v n).
Proof. unfold st, host_write. nofuel_tac. Qed.
Lemma nofuel_st128 a v : nofuel (st128 a v).
Proof. unfold st128, host_write. nofuel_tac. Qed.
Lemma nofuel_fetch n d : nofuel (fetch n d).
Proof. unfold fetch. nofuel_tac. Qed.
Hint Resolve nofuel_st nofuel_st128 nofuel_fetch : nofuel.
Lemma nofuel_modrm d : nofuel (modrm d).
Proof. unfold modrm, sib_addr, modrm_disp, fetch8, fetch32. nofuel_tac. Qed.
Lemma nofuel_rd o n b : nofuel (rd o n b).
Proof. unfold rd, getreg, getreg8. nofuel_tac. Qed.
Lemma nofuel_wr o v n b : nofuel (wr o v n b).
Proof. unfold wr, setreg, setreg8. nofuel_tac. Qed.
Lemma nofuel_push v : nofuel (push v).
Proof. unfold push. nofuel_tac. Qed.
Lemma nofuel_pop : nofuel pop.
Proof. unfold pop. nofuel_tac. Qed.
Lemma nofuel_setreg r v n : nofuel (setreg r v n).
Proof. unfold setreg. nofuel_tac. Qed.
Lemma nofuel_getreg r n : nofuel (getreg r n).
Proof. unfold getreg. nofuel_tac. Qed.
Lemma nofuel_upd_flags f : nofuel (upd_flags f).
Proof. unfold upd_flags. nofuel_tac. Qed.
Lemma nofuel_alu k a b n : nofuel (alu k a b n).
Proof. unfold alu, carry_in. nofuel_tac; apply nofuel_upd_flags. Qed.
Hint Resolve nofuel_modrm nofuel_rd nofuel_wr nofuel_push nofuel_pop nofuel_setreg nofuel_getreg
  nofuel_upd_flags nofuel_alu : nofuel.
Lemma nofuel_modrm_advance d : nofuel (modrm_advance d).
Proof. unfold modrm_advance, ADVANCE. nofuel_tac. Qed.
Lemma nofuel_modrm_imm8_advance d : nofuel (modrm_imm8_advance d).
Proof. unfold modrm_imm8_advance, ADVANCE, fetch8. nofuel_tac. Qed.
Hint Resolve nofuel_modrm_advance nofuel_modrm_imm8_advance : nofuel.

Lemma nofuel_sse_exec d op2 : nofuel (sse_exec d op2).
Proof.
  unfold sse_exec, sse_move, sse_movdq, sse_movd_to, sse_movd_from, sse_movq_store, sse_bitwise,
    sse_arith, sse_comis, sse_cvtsi2s, sse_cvts2si, sse_cvtss2sd, sse_pcmpeq, sse_pmovmskb,
    sse_pshufd, sse_unpck, sse_cmp, sse_pextrw, xrd, xwr, xrd_lo, grd. nofuel_tac.
Qed.
Lemma nofuel_do_syscall : nofuel do_syscall.
Proof.
  unfold do_syscall, sys_exit, sys_read, sys_write, sys_close, sys_munmap, sys_mprotect, sys_mmap,
    unimplemented_syscall, syscall_ret. nofuel_tac.
Qed.
Hint Resolve nofuel_sse_exec nofuel_do_syscall : nofuel.

Lemma nofuel_exec_op d op : nofuel (exec_op d op).
Proof.
  unfold exec_op, exec_0f, exec_0f_op, op_alu_rm, op_alu_acc, op_test_acc, op_push_reg, op_pop_reg,
    op_movsxd, op_push_imm, op_imul3, op_jcc8, op_grp1, op_xchg, op_lea, op_pop_rm, op_pushfq,
    op_popfq, op_cwde, op_cdq, op_mov_imm8, op_mov_imm, op_shift, op_ret, op_mov_rm_imm, op_leave,
    op_call, op_jmp, op_grp3, op_grp5, store_result, imm_acc, mul_unsigned, mul_signed, div_unsigned,
    div_signed, op_nop_rm, op_jcc32, op_setcc, op_cmovcc, op_shxd, op_imul2, op_movx, simm32, simm8,
    smul64, jump_rel, cond_m, fetch8, fetch16, fetch32, fetch64, ADVANCE, setreg8, getreg8. nofuel_tac.
Qed.

(** The prefix loop reads one byte further each turn. *)
Lemma prefix_advances c b d d' : prefix c b d = Some d' -> d_p d' = d_p d + 1.
Proof. unfold prefix. intros Hp. repeat (case_match; [by simplify_eq|]). done. Qed.

Lemma prefixes_enough n d m : (bytes_from (mem_of m) (d_p d) < n)%nat -> prefixes n d m <> Trap OutOfFuel.
Proof.
  revert d. induction n as [|n IH]; intros d Hn; [lia|]. cbn [prefixes].
  unfold mbind at 1, M_bind at 1. destruct (host_read (d_p d) 1 m) as [b m1|t] eqn:E.
  - apply host_read_ok in E as (-> & bs & Hb & _). unfold get_c, gets, mbind, M_bind.
    destruct (prefix _ b d) as [d'|] eqn:Ep; [|done]. apply IH.
    rewrite (prefix_advances _ _ _ _ Ep).
    destruct (read_bytes_mapped _ _ _ _ (d_p d) Hb ltac:(cbn; lia)) as [x Hx].
    pose proof (bytes_from_step _ _ _ Hx). lia.
  - pose proof (nofuel_host_read (d_p d) 1 m) as Hr. rewrite E in Hr. congruence.
Qed.

Lemma exec_insn_nofuel rip : nofuel (exec_insn rip).
Proof.
  intros m. unfold exec_insn, upd, modify, gets. unfold mbind at 1 2, M_bind at 1 2.
  set (m1 := Machine _ _ _ _ _). unfold mbind at 1, M_bind at 1.
  pose proof (prefixes_enough (prefix_fuel m1) (start_dec rip) m1) as Hp.
  destruct (prefixes (prefix_fuel m1) (start_dec rip) m1) as [d m2|t].
  - assert (Hrest : nofuel (d ← rex_prefix d; '(op, d) ← fetch8 d; exec_op d op)).
    { pose proof nofuel_exec_op. unfold rex_prefix, fetch8. nofuel_tac. }
    apply Hrest.
  - intros [= ->]. apply Hp; [|done]. unfold prefix_fuel.
    pose proof (bytes_from_size (mem_of m1) (d_p (start_dec rip))). unfold mem_of in *. lia.
Qed.

(** C8.  Every instruction ends: whatever bytes stand at the instruction
    pointer, the prefix loop included, executing one instruction returns or is
    stopped by the host or by an operation C leaves undefined. *)
Theorem exec_insn_terminates rip m : exec_insn rip m <> Trap OutOfFuel.
Proof. apply exec_insn_nofuel. Qed.
End instructions.

(* ------------------------------------------------------------------ *)
(** ** The format-string loops *)

Section marshal.
Context `{HostOS}.

Lemma ld_same a n : keeps same_store (ld a n).
Proof.
  unfold ld. keeps_tac. intros m u m' [= <- <-]. split; [done|]. split; [done|]. apply basic_upd_wlog. constructor.
Qed.

(** A byte load reads a mapped byte short of the end of the address space, or
    stops the guest. *)
Lemma ld_byte p m v m' :
  as_inv (m_as m) -> ld p 1 m = Ok v m' ->
  (m' = m /\ urange 64 p /\ p + 1 < 2 ^ 64 /\ is_Some (mem_of m !! p)) \/
  (c_running (m_c m') = false /\ v = 0).
Proof.
  intros Hi. unfold ld. intros (s & ? & [= <- <-] & Hm)%bind_ok. change (u64 1) with 1 in Hm.
  destruct (access_ok (m_as m) p 1 RSD_PROT_R) eqn:Ea; cbn [negb] in Hm.
  - left. apply access_ok_cases in Ea as (Hr & Hlt & _); [|done|done|lia].
    apply host_read_ok in Hm as (-> & bs & Hb & _). split; [done|]. split; [done|]. split; [done|].
    eapply read_bytes_mapped; [exact Hb|cbn; lia].
  - right. apply bind_ok in Hm as ([] & m1 & [= <-] & [= <- <-]). split; [|done].
    cbn. unfold memfault_cpu. by destruct (m_c m).
Qed.

Lemma conversion_ok n p star ldbl m :
  as_inv (m_as m) -> (bytes_from (mem_of m) p < n)%nat ->
  match conversion n p star ldbl m with
  | Trap t => t <> OutOfFuel
  | Ok (conv, _, _, p') m' => same_store m m' /\
      (c_running (m_c m') = false /\ conv = 0 \/
       m' = m /\ (bytes_from (mem_of m) p' <= bytes_from (mem_of m) p)%nat)
  end.
Proof.
  intros Hi. revert p star ldbl. induction n as [|n IH]; intros p star ldbl Hn; [lia|].
  cbn [conversion]. unfold mbind at 1, M_bind at 1. destruct (ld p 1 m) as [ch m1|t] eqn:E.
  2:{ pose proof (nofuel_ld p 1 m). congruence. }
  pose proof (ld_same _ _ _ _ _ E) as Hsame. apply (ld_byte _ _ _ _ Hi) in E.
  unfold get_c, gets, mbind, M_bind. destruct E as [(-> & Hr & Hlt & [b Hb])|[Hrun ->]].
  - rewrite (uwrap_small 64 (p + 1)) by (unfold urange in *; lia).
    pose proof (bytes_from_step _ _ _ Hb) as Hs.
    assert (Hrec : forall st lb, match conversion n (p + 1) st lb m with
      | Trap t => t <> OutOfFuel
      | Ok (conv, _, _, p') m' => same_store m m' /\
          (c_running (m_c m') = false /\ conv = 0 \/
           m' = m /\ (bytes_from (mem_of m) p' <= bytes_from (mem_of m) p)%nat)
      end).
    { intros st lb. specialize (IH (p + 1) st lb ltac:(lia)).
      destruct (conversion _ _ _ _ _) as [[[[? ?] ?] ?] ?|]; [|done].
      destruct IH as [? [?|[-> ?]]]; (split; [done|]); [by left|right; split; [done|lia]]. }
    destruct (_ || _); [by split; [|right; split; [|lia]]|].
    destruct (ch =? chr "*"); [apply Hrec|]. destruct (ch =? chr "L"); [apply Hrec|].
    destruct (strchr _ _); [by split; [|right; split; [|lia]]|apply Hrec].
  - rewrite Hrun. cbn [negb orb]. split; [done|]. by left.
Qed.

Lemma stack_arg_same a : keeps same_store (stack_arg a).
Proof.
  unfold stack_arg. apply keeps_bind; [apply _|apply ld_same|intros; apply keeps_ret, _].
Qed.
Lemma sysv_int_same a : keeps same_store (sysv_int a).
Proof.
  unfold sysv_int. destruct (_ <? _); [|apply stack_arg_same].
  apply keeps_bind; [apply _|apply keeps_get_c, _|intros; apply keeps_ret, _].
Qed.
Lemma sysv_sse_same a : keeps same_store (sysv_sse a).
Proof.
  unfold sysv_sse. destruct (_ <? _); [|apply stack_arg_same].
  apply keeps_bind; [apply _|apply keeps_get_c, _|intros; apply keeps_ret, _].
Qed.
Lemma nofuel_sysv_int a : nofuel (sysv_int a).
Proof. unfold sysv_int, stack_arg, getr, get_c. nofuel_tac; apply nofuel_ld. Qed.
Lemma nofuel_sysv_sse a : nofuel (sysv_sse a).
Proof. unfold sysv_sse, stack_arg, getx, get_c. nofuel_tac; apply nofuel_ld. Qed.

Lemma optional_width_ok (star : bool) a slots m :
  match (if star then '(v, a) ← sysv_int a; mret (slots ++ [v], a) else mret (slots, a)) m with
  | Trap t => t <> OutOfFuel
  | Ok (slots', _) m' => same_store m m' /\
      length slots' = (length slots + (if star then 1 else 0))%nat
  end.
Proof.
  destruct star.
  - unfold mbind, M_bind. pose proof (nofuel_sysv_int a m) as Hf.
    destruct (sysv_int a m) as [[v a'] m'|t] eqn:E; [|congruence].
    cbn. split; [by eapply sysv_int_same|]. by rewrite length_app.
  - cbn. split; [done|lia].
Qed.

(** A guest that has stopped reads one more byte and gives up. *)
Lemma stopped_loop n n0 p scan a slots max m :
  c_running (m_c m) = false ->
  match marshal_loop (S n) n0 p scan a slots max m with
  | Trap t => t <> OutOfFuel
  | Ok r m' => same_store m m' /\ r = None
  end.
Proof.
  intros Hrun. cbn [marshal_loop]. unfold mbind at 1, M_bind at 1.
  destruct (ld p 1 m) as [ch m1|t] eqn:E.
  2:{ pose proof (nofuel_ld p 1 m). congruence. }
  pose proof (ld_same _ _ _ _ _ E) as Hs. unfold get_c, gets, mbind, M_bind.
  assert (Hr : c_running (m_c m1) = false).
  { unfold ld, gets, mbind, M_bind in E. destruct (negb _); [|by apply host_read_ok in E as [-> _]].
    injection E as _ <-. cbn. unfold memfault_cpu. by destruct (m_c m). }
  rewrite Hr. done.
Qed.

(** The whole walk: it ends, leaves memory alone, and never fills more than
    [max] slots. *)
Lemma marshal_loop_ok n n0 p scan a slots max m :
  as_inv (m_as m) -> (bytes_from (mem_of m) p < n)%nat ->
  (forall q, bytes_from (mem_of m) q < n0)%nat -> Z.of_nat (length slots) <= max ->
  match marshal_loop n n0 p scan a slots max m with
  | Trap t => t <> OutOfFuel
  | Ok r m' => same_store m m' /\
      match r with
      | Some slots' => Z.of_nat (length slots') <= max
      | None => True
      end
  end.
Proof.
  revert p a slots m. induction n as [|n IH]; intros p a slots m Hi Hn Hn0 Hl; [lia|].
  cbn [marshal_loop]. unfold mbind at 1, M_bind at 1. destruct (ld p 1 m) as [ch m1|t] eqn:E.
  2:{ pose proof (nofuel_ld p 1 m). congruence. }
  pose proof (ld_same _ _ _ _ _ E) as Hs1. apply (ld_byte _ _ _ _ Hi) in E.
  unfold get_c, gets. unfold mbind at 1, M_bind at 1.
  destruct E as [(-> & Hr & Hlt & [b Hb])|[Hrun ->]].
  2:{ rewrite Hrun. cbn. done. }
  rewrite (uwrap_small 64 (p + 1)) by (unfold urange in *; lia).
  pose proof (bytes_from_step _ _ _ Hb) as Hstep.
  (* continuing from a later cursor in a machine with the same store *)
  assert (Hrec : forall q a slots m', same_store m m' -> Z.of_nat (length slots) <= max ->
    (bytes_from (mem_of m) q <= bytes_from (mem_of m) (p + 1))%nat ->
    match marshal_loop n n0 q scan a slots max m' with
    | Trap t => t <> OutOfFuel
    | Ok r m'' => same_store m m'' /\
        match r with Some slots' => Z.of_nat (length slots') <= max | None => True end
    end).
  { intros q a' sl m' Hs Hsl Hq. pose proof Hs as (He & Hm & _).
    specialize (IH q a' sl m'). rewrite He, Hm in IH.
    specialize (IH Hi ltac:(lia) Hn0 Hsl). destruct (marshal_loop _ _ _ _ _ _ _ _) as [r m''|]; [|done].
    destruct IH as [IH ?]. split; [|done]. by etransitivity. }
  destruct (c_running (m_c m)); cbn [negb]; [|done].
  destruct (nz ch); cbn [negb]; [|done].
  destruct (ch =? chr "%"); cbn [negb]; [|by apply Hrec].
  unfold mbind at 1, M_bind at 1.
  pose proof (conversion_ok n0 (p + 1) false false m Hi (Hn0 _)) as Hc.
  destruct (conversion n0 (p + 1) false false m) as [[[[conv star] ldbl] p'] m2|]; [|done].
  destruct Hc as [Hs2 [[Hrun ->]|[-> Hp']]].
  { cbn. destruct n as [|n]; [lia|]. pose proof (stopped_loop n n0 p' scan a slots max m2 Hrun) as Hst.
    destruct (marshal_loop _ _ _ _ _ _ _ m2) as [r m3|]; [|done].
    destruct Hst as [Hs ->]. split; [by etransitivity|done]. }
  destruct (negb (nz conv) || _); [by apply Hrec|]. destruct ldbl; [done|].
  destruct (star && scan); [by apply Hrec|].
  destruct (star && (max <=? Z.of_nat (length slots))) eqn:Efull; [done|].
  unfold mbind at 1, M_bind at 1.
  pose proof (optional_width_ok star a slots m) as Hw.
  match type of Hw with match ?c with _ => _ end => destruct c as [[slots' a'] m3|]; [|done] end. destruct Hw as [Hs3 Hlen].
  destruct (max <=? Z.of_nat (length slots')) eqn:Emax; [done|].
  unfold mbind, M_bind.
  assert (Harg : match (if negb scan && strchr "fFeEgGaA" conv then sysv_sse a' else sysv_int a') m3 with
    | Trap t => t <> OutOfFuel
    | Ok _ m4 => same_store m3 m4
    end).
  { destruct (negb scan && _).
    - pose proof (nofuel_sysv_sse a' m3). destruct (sysv_sse a' m3) eqn:E; [by eapply sysv_sse_same|congruence].
    - pose proof (nofuel_sysv_int a' m3). destruct (sysv_int a' m3) eqn:E; [by eapply sysv_int_same|congruence]. }
  match type of Harg with match ?c with _ => _ end => destruct c as [[v a''] m4|]; [|done] end.
  apply Hrec; [by etransitivity|rewrite length_app; cbn; lia|done].
Qed.

(** C36.  Walking a format string ends, whatever the string holds, reads
    memory without changing it, and never takes more arguments than there are
    slots for. *)
Theorem marshal_format_ok fmt scan a max m :
  as_inv (m_as m) -> 0 <= max ->
  match marshal_format fmt scan a max m with
  | Trap t => t <> OutOfFuel
  | Ok r m' => mem_of m' = mem_of m /\ m_as m' = m_as m /\
      match r with
      | Some slots => Z.of_nat (length slots) <= max
      | None => True
      end
  end.
Proof.
  intros Hi Hmax. unfold marshal_format.
  assert (Hf : forall q, (bytes_from (mem_of m) q < marshal_fuel m)%nat).
  { intros q. unfold marshal_fuel. pose proof (bytes_from_size (mem_of m) q). unfold mem_of in *. lia. }
  pose proof (marshal_loop_ok (marshal_fuel m) (marshal_fuel m) fmt scan a [] max m Hi (Hf _) Hf Hmax) as H1.
  destruct (marshal_loop _ _ _ _ _ _ _ _) as [r m'|]; [|done]. destruct H1 as [(? & ? & _) ?]. done.
Qed.
End marshal.

Section past_nul.
Context `{HostOS, HostOSOk}.

(** C37.  A [%] that ends the format string does not end the walk: the inner
    loop leaves on the NUL with no conversion, and the outer loop takes that
    for "nothing to collect" and goes on with the byte after the terminator. *)
Theorem marshal_loop_past_nul n k p scan a slots max m m1 m2 :
  ld p 1 m = Ok (chr "%") m1 -> c_running (m_c m1) = true ->
  ld (u64 (p + 1)) 1 m1 = Ok 0 m2 -> c_running (m_c m2) = true ->
  marshal_loop (S n) (S k) p scan a slots max m =
  marshal_loop n (S k) (u64 (p + 2)) scan a slots max m2.
Proof.
  intros Hp R1 Hq R2. cbn [marshal_loop conversion].
  unfold mbind, M_bind, get_c, gets. rewrite Hp, R1.
  change (negb (nz (chr "%"))) with false. change (chr "%" =? chr "%") with true. cbv beta iota delta [negb].
  rewrite Hq, R2. cbv beta iota delta [negb orb nz Z.eqb].
  replace (u64 (u64 (p + 1) + 1)) with (u64 (p + 2)); [reflexivity|].
  unfold u64, uwrap. rewrite Zplus_mod_idemp_l. f_equal. lia.
Qed.
End past_nul.

#[local] Existing Instances sample_host sample_host_ok.

(** The string "%", a NUL, and "%d" in the bytes behind it. *)
Definition sample_format : machine := sample_guest [37; 0; 37; 100; 0].

Lemma sample_guest_inv code : as_inv (m_as (sample_guest code)).
Proof. repeat split; cbn; try lia; by left. Qed.

Lemma marshal_format_ok_witness :
  let f := marshal_format 0x10002 false (Sysv 0 0 0x10080) 64 in
  value f sample_format = Some (Some [0]) /\ mem_of (after f sample_format) = mem_of sample_format.
Proof.
  intros f. assert (Hv : value f sample_format = Some (Some [0])) by (vm_compute; reflexivity).
  split; [exact Hv|].
  pose proof (marshal_format_ok 0x10002 false (Sysv 0 0 0x10080) 64 sample_format
    (sample_guest_inv _) ltac:(lia)) as Hm. change (marshal_format _ _ _ _) with f in Hm.
  rewrite (run_value _ _ _ Hv) in Hm. exact (proj1 Hm).
Defined.

(** The "%" at 0x10000 is followed by its terminator, yet one slot is filled. *)
Lemma marshal_loop_past_nul_witness :
  let m1 := after (ld 0x10000 1) sample_format in let m2 := after (ld 0x10001 1) m1 in
  value (marshal_format 0x10000 false (Sysv 0 0 0x10080) 64) sample_format = Some (Some [0]) /\
  marshal_loop 5 5 0x10000 false (Sysv 0 0 0x10080) [] 64 sample_format =
  marshal_loop 4 5 0x10002 false (Sysv 0 0 0x10080) [] 64 m2.
Proof.
  intros m1 m2. split; [vm_compute; reflexivity|].
  assert (H1 : value (ld 0x10000 1) sample_format = Some (chr "%")) by (vm_compute; reflexivity).
  assert (H2 : value (ld (u64 (0x10000 + 1)) 1) m1 = Some 0) by (vm_compute; reflexivity).
  exact (marshal_loop_past_nul 4 4 0x10000 false (Sysv 0 0 0x10080) [] 64 sample_format m1 m2
    (run_value _ _ _ H1) ltac:(vm_compute; reflexivity) (run_value _ _ _ H2) ltac:(vm_compute; reflexivity)).
Defined.
