(* ===== verification/Calls.v ===== *)
(** Crossing the boundary between guest and native code ([call_native] to
    [rsd_guest_call] in [src/cpu.c]): what a callback gives back to the code it
    interrupted. *)
From Stdlib Require Import Ascii.
From S2P Require Import Prelude.
From S2P Require Import Memory.
From S2P Require Import AddressSpace.
From S2P Require Import SampleHost.
From S2P Require Import Flags.
From S2P Require Import Float.
From S2P Require Import Stubs.
From S2P Require Import Callbacks.
From S2P Require Import Machine.
From S2P Require Import Access.
From S2P Require Import Decode.
From S2P Require Import Syscall.
From S2P Require Import Native.
From S2P Require Import Sse.
From S2P Require Import Step.
From S2P Require Import Keeps.
From S2P Require Import Safety.
From S2P Require Import Registers.
From S2P Require Import Instructions.
From S2P Require Import Termination.

Section callbacks.
Context `{Native} `{Trampolines} `{HostFloat}.

(** C18.  A callback is transparent to the code it interrupted: when it
    returns, every register, the flags and the instruction pointer are as they
    were when native code called it.  The guest is left running unless it
    faulted, so a guest that asked to exit inside the callback runs on. *)
Theorem rsd_guest_call_restores fuel i x d m r m' :
  cpu_wf (m_c m) -> rsd_callback_target (m_cb m) i <> 0 ->
  rsd_guest_call fuel i x d m = Ok r m' ->
  c_r (m_c m') = c_r (m_c m) /\ c_xmm (m_c m') = c_xmm (m_c m) /\
  c_rip (m_c m') = c_rip (m_c m) /\ c_flags (m_c m') = c_flags (m_c m) /\
  (c_running (m_c m') = true <-> c_fault (m_c m') = None).
Proof.
  intros [_ _ [Hrip _] Hfl _ _ _ _] Ht. destruct fuel as [|fuel]; [done|]. cbn [rsd_guest_call].
  unfold guest_call_body. intros (cb & ? & [= <- <-] & Hm)%bind_ok. unfold nz in Hm.
  rewrite (proj2 (Z.eqb_neq _ 0) Ht) in Hm. cbn [negb] in Hm.
  apply bind_ok in Hm as (saved & ? & [= <- <-] & Hm).
  apply bind_ok in Hm as ([] & m1 & _ & Hm). apply bind_ok in Hm as ([] & m2 & _ & Hm).
  apply bind_ok in Hm as ([] & m3 & _ & Hm). apply bind_ok in Hm as ([] & m4 & _ & Hm).
  apply bind_ok in Hm as ([] & m5 & _ & Hm). apply bind_ok in Hm as ([] & m6 & _ & Hm).
  apply bind_ok in Hm as (c & ? & [= <- <-] & Hm).
  apply bind_ok in Hm as ([] & ? & [= <-] & [= _ <-]).
  cbn -[uwrap]. split; [done|]. split; [done|]. split; [by apply uwrap_small|].
  split; [by apply uwrap_small|]. by destruct (c_fault (m_c m6)).
Qed.
End callbacks.

(* ------------------------------------------------------------------ *)
(** ** Concrete runs *)

#[local] Existing Instances sample_host sample_trampolines.

#[export] Instance sample_float : HostFloat := {| nan_widen := id; nan_narrow := id |}.

(** Native function 1 returns 42; any other calls trampoline 0 with its own
    first argument and returns what the guest function returned. *)
#[local] Instance sample_native : Native := {|
  native_run := fun fn x d _ w =>
    if fn =? 1 then NDone [42; 0; 0; 0] w
    else NCall w 0 x d (fun x d w => NDone [x !!! 0%nat; x !!! 1%nat; d !!! 0%nat; d !!! 1%nat] w);
  sel_name := fun _ _ => None;
  objc_cstring := fun w s => (Some s, w)
|}.

(** Stub 0 is bound to native function 2; the guest calls it with rdi = 0x30,
    and the callback target at 0x10010 doubles it: lea rax, [rdi + rdi]; ret. *)
Definition sample_caller : machine :=
  let code := [0xE8; 0xFB; 0xFF; 0; 0] ++ replicate 11 0x90 ++ [0x48; 0x8D; 0x04; 0x3F; 0xC3] in
  Machine (Cpu (<[7%nat := 0x30]> (<[4%nat := 0x10300]> (replicate 16 0))) (replicate 16 0)
             0x20000 0 0x202 0 0 None
             (Some (Stubs 0x20000 1 (Some [2]) None None None)) 0 0 true 0 0 false false None (-1) 0 0 false)
    (As [Region 0x10000 0x11000 7] 16 no_hits no_hits)
    (World tt (write_bytes (zero_range 0x10000 1024) 0x10000 code)) [0x10010] [].

Lemma sample_caller_wf : cpu_wf (m_c sample_caller).
Proof.
  constructor; cbn -[Z.pow]; unfold urange; repeat split;
    first [done|lia|repeat (constructor; [done|]); constructor].
Qed.

Lemma rsd_guest_call_restores_witness :
  let x := [0x30; 0; 0; 0; 0; 0; 0; 0] in let d := replicate 8 0 in
  value (rsd_guest_call 10 0 x d) sample_caller = Some ([0x60; 0; 0; 0; 0; 0; 0; 0], d) /\
  c_r (m_c (after (rsd_guest_call 10 0 x d) sample_caller)) = c_r (m_c sample_caller).
Proof.
  intros x d.
  assert (Hv : value (rsd_guest_call 10 0 x d) sample_caller = Some ([0x60; 0; 0; 0; 0; 0; 0; 0], d))
    by (vm_compute; reflexivity).
  assert (Ht : rsd_callback_target (m_cb sample_caller) 0 <> 0) by (vm_compute; discriminate).
  split; [exact Hv|].
  exact (proj1 (rsd_guest_call_restores 10 0 x d sample_caller _
    (after (rsd_guest_call 10 0 x d) sample_caller) sample_caller_wf Ht (run_value _ _ _ Hv))).
Defined.
