(* ===== verification/Run.v ===== *)
(** Running a guest ([step] and [rsd_cpu_run] in [src/cpu.c]): how far the
    instruction budget bounds a run, where it does not, and that the guest only
    ever executes what it may. *)
From S2P Require Import Prelude.
From S2P Require Import Memory.
From S2P Require Import AddressSpace.
From S2P Require Import SampleHost.
From S2P Require Import Flags.
From S2P Require Import Float.
From S2P Require Import Stubs.
From S2P Require Import Callbacks.
From S2P Require Import Machine.
From S2P Require Import Access.
From S2P Require Import Decode.
From S2P Require Import Syscall.
From S2P Require Import Native.
From S2P Require Import Sse.
From S2P Require Import Step.
From S2P Require Import CpuApi.
From S2P Require Import Keeps.
From S2P Require Import Safety.
From S2P Require Import Registers.
From S2P Require Import Instructions.
From S2P Require Import Termination.
From S2P Require Import Calls.

(* ------------------------------------------------------------------ *)
(** ** What no instruction changes *)

(** The instruction count, the import table and the trace switch. *)
Definition same_count `{HostOS} (m m' : machine) : Prop :=
  c_icount (m_c m') = c_icount (m_c m) /\ c_stubs (m_c m') = c_stubs (m_c m) /\
  c_trace (m_c m') = c_trace (m_c m) /\ m_cb m' = m_cb m /\ m_cm m' = m_cm m.

Definition upd_count (f : rsd_cpu -> rsd_cpu) : Prop :=
  forall c, c_icount (f c) = c_icount c /\ c_stubs (f c) = c_stubs c /\ c_trace (f c) = c_trace c.

Lemma basic_upd_count f : basic_upd f -> upd_count f.
Proof. intros [] c; try done. unfold memfault_cpu. by destruct (c_fault c). Qed.

Section count.
Context `{HostOS}.

#[export] Instance same_count_preorder : PreOrder same_count.
Proof.
  split; [done|]. intros m1 m2 m3 (?&?&?&?&?) (?&?&?&?&?). repeat split; congruence.
Qed.

Lemma count_upd f : upd_count f -> keeps same_count (upd f).
Proof. intros Hf m a m' [= <- <-]. destruct (Hf (m_c m)) as (?&?&?). done. Qed.

Lemma count_modify f :
  (forall m, m_c (f m) = m_c m /\ m_cb (f m) = m_cb m /\ m_cm (f m) = m_cm m) ->
  keeps same_count (modify f).
Proof. intros Hf m a m' [= <- <-]. destruct (Hf m) as (He & ? & ?). unfold same_count. by rewrite He. Qed.

#[export] Instance same_count_step : StepRel same_count.
Proof.
  split; [apply _| | |].
  - intros f m Hf. by apply (count_upd f (basic_upd_count f Hf) m tt).
  - intros a v n Hn m u m' Hst. apply (st_ok _ _ _ _ _ _ Hn) in Hst as [[_ ->]|(_ & _ & w' & -> & _)]; [|done].
    by apply (count_upd _ (basic_upd_count _ (bu_memfault a (why (m_as m) a n))) m tt).
  - intros a v. unfold st128, log_write, host_write, memfault.
    assert (Hs : forall x bs, keeps same_count (host_store x bs)).
    { intros x bs m u m' Hst. by apply host_store_ok in Hst as [-> _]. }
    keeps_tac; first [apply Hs|by apply count_upd|apply count_upd, basic_upd_count; constructor].
Qed.

Lemma count_do_syscall : keeps same_count do_syscall.
Proof.
  unfold do_syscall, sys_exit, sys_read, sys_write, sys_close, sys_munmap, sys_mprotect, sys_mmap,
    unimplemented_syscall, syscall_ret, set_as, set_world, memfault, getr, setr, set_flags, stop.
  keeps_tac.
  all: first [by apply count_modify|apply count_upd, basic_upd_count; constructor|by apply count_upd].
Qed.

Lemma exec_insn_count `{HostFloat} rip : keeps same_count (exec_insn rip).
Proof.
  intros m u m' Hm. apply (exec_insn_keeps same_count rip m u m'); [|done].
  intros m1 u1 m2 _. apply count_do_syscall.
Qed.
End count.

(* ------------------------------------------------------------------ *)
(** ** The interpreter's loop and the instruction budget *)

Section run.
Context `{Native} `{Trampolines} `{HostFloat} `{!JitEngine}.
Variable guest_call : Z -> list Z -> list Z -> M (list Z * list Z).

(** Away from the import stubs a step is an instruction, a return to one of the
    two magic addresses, or a fault. *)
Lemma step_no_import R `{!StepRel R} m u m' :
  syscall_keeps R m -> (forall v, keeps R (upd (with_exit_code v))) ->
  keeps R (upd (with_running false)) ->
  rsd_stub_index (c_stubs (m_c m)) (c_rip (m_c m)) < 0 -> step guest_call m = Ok u m' -> R m m'.
Proof.
  intros Hsys Hexit Hstop Hs. unfold step.
  intros (rip & ? & [= <- <-] & Hm)%bind_ok.
  destruct (_ =? RSD_CALLBACK_MAGIC); [by eapply Hstop|].
  destruct (_ =? RSD_RETURN_MAGIC).
  { apply bind_ok in Hm as (rax & ? & [= <- <-] & [= _ <-]).
    etransitivity; [by apply (Hstop m tt)|]. by eapply (Hexit _ _ tt). }
  apply bind_ok in Hm as (st & ? & [= <- <-] & Hm).
  assert (Hx : exists u', (s ← gets m_as;
      if negb (rsd_as_ok s (c_rip (m_c m)) 1 RSD_PROT_X) then memfault (c_rip (m_c m)) (why s (c_rip (m_c m)) 1)
      else exec_insn (c_rip (m_c m))) m = Ok u' m').
  { destruct (c_stubs (m_c m)) as [st|]; [|by exists u].
    rewrite (proj2 (Z.leb_gt 0 _) Hs) in Hm. by exists u. }
  destruct Hx as [u' Hx]. apply bind_ok in Hx as (s & ? & [= <- <-] & Hx).
  destruct (negb _); [by eapply (keeps_memfault R)|].
  eapply exec_insn_keeps; [exact _|exact Hsys|exact Hx].
Qed.

Lemma step_count m u m' :
  rsd_stub_index (c_stubs (m_c m)) (c_rip (m_c m)) < 0 -> step guest_call m = Ok u m' -> same_count m m'.
Proof.
  apply step_no_import; [exact _|intros m1 u1 m2 _; apply count_do_syscall|..]; intros; by apply count_upd.
Qed.

(** No address belongs to an import: there is no table, or an empty one. *)
Definition no_imports (so : option rsd_stubs) : Prop := forall addr, rsd_stub_index so addr < 0.

Lemma step_nofuel m : no_imports (c_stubs (m_c m)) -> step guest_call m <> Trap OutOfFuel.
Proof.
  intros Hs. unfold step, get_c, gets, mbind, M_bind. cbn [m_c].
  destruct (_ =? RSD_CALLBACK_MAGIC); [done|]. destruct (_ =? RSD_RETURN_MAGIC); [done|].
  rewrite (proj2 (Z.leb_gt 0 _) (Hs _)). cbn [andb].
  destruct (c_stubs _); (destruct (negb _); [done|]); apply exec_insn_nofuel.
Qed.

(** One turn of the loop without compiled code: a step, then the count. *)
Lemma interp_turn budget m :
  run_turn guest_call false budget m =
  match step guest_call m with
  | Ok _ m1 =>
      let m2 := upd_m (fun c => with_icount (c_icount c + 1) c) m1 in
      Ok false (if (c_icount (m_c m2) =? budget) && nz budget
                then upd_m (fun c => with_running false (with_fault_rip (c_rip c)
                              (with_fault (Some "instruction budget exhausted"%string) c))) m2
                else m2)
  | Trap t => Trap t
  end.
Proof.
  unfold run_turn, get_c, gets, mbind, M_bind, mret, M_ret, when. cbn [andb].
  change (@mret M _ unit tt m) with (Ok tt m). cbv iota beta.
  destruct (step guest_call m) as [[] m1|t]; [|done]. unfold upd, modify. cbn [m_c].
  cbn [upd_m m_c]. by destruct (_ && nz budget).
Qed.

(** The run, with its budget. *)
Lemma cpu_run_ends fuel budget m :
  no_imports (c_stubs (m_c m)) -> 0 <= c_icount (m_c m) < budget -> budget < 2 ^ 64 ->
  (Z.to_nat (budget - c_icount (m_c m)) < fuel)%nat ->
  match rsd_cpu_run guest_call fuel false budget m with
  | Ok _ m' =>
      c_running (m_c m') = false /\ c_icount (m_c m) <= c_icount (m_c m') <= budget /\
      (c_icount (m_c m') = budget -> c_fault (m_c m') = Some "instruction budget exhausted"%string)
  | Trap t => t <> OutOfFuel
  end.
Proof.
  revert m. induction fuel as [|fuel IH]; intros m Hs Hc Hb Hf; [lia|]. cbn [rsd_cpu_run].
  unfold mbind at 1, M_bind at 1. unfold get_c at 1, gets at 1.
  destruct (c_running (m_c m)) eqn:Er; cbn [negb]; [|split; [done|]; split; [lia|lia]].
  unfold mbind, M_bind. rewrite interp_turn.
  pose proof (step_nofuel m Hs) as Hn. pose proof (step_count m) as Hk.
  destruct (step guest_call m) as [u m1|t]; [|congruence].
  destruct (Hk u m1) as (Hi & Hs1 & _); [apply Hs|done|]. cbn [m_c upd_m with_icount c_icount]. rewrite Hi.
  rewrite uwrap_small by (unfold urange; lia).
  destruct (Z.eqb_spec (c_icount (m_c m) + 1) budget) as [He|He]; cbn [andb].
  - unfold nz. rewrite (proj2 (Z.eqb_neq budget 0)) by lia. cbn [negb].
    destruct fuel as [|fuel]; [lia|]. cbn [rsd_cpu_run].
    unfold mbind at 1, M_bind at 1, get_c, gets. cbn -[uwrap]. rewrite Hi, uwrap_small by (unfold urange; lia).
    split; [done|]. split; [lia|done].
  - set (m2 := upd_m _ m1).
    assert (Hm2 : c_icount (m_c m2) = c_icount (m_c m) + 1).
    { subst m2. cbn -[uwrap]. rewrite Hi. by rewrite uwrap_small by (unfold urange; lia). }
    specialize (IH m2). rewrite Hm2 in IH.
    assert (Hs2 : no_imports (c_stubs (m_c m2))) by (cbn; by rewrite Hs1).
    specialize (IH Hs2 ltac:(lia) Hb ltac:(lia)).
    destruct (rsd_cpu_run guest_call fuel false budget m2); [|done].
    destruct IH as (? & ? & ?). split; [done|]. split; [lia|done].
Qed.

(** C9.  With an instruction budget and no imports a run of the interpreter
    ends: within as many turns as the budget leaves it stops the guest, having
    counted at most the budget, and a run that used all of it says so. *)
Theorem rsd_cpu_run_budget fuel budget m :
  no_imports (c_stubs (m_c m)) -> 0 <= c_icount (m_c m) < budget -> budget < 2 ^ 64 ->
  (Z.to_nat (budget - c_icount (m_c m)) < fuel)%nat ->
  match rsd_cpu_run guest_call fuel false budget m with
  | Ok _ m' =>
      c_running (m_c m') = false /\ c_icount (m_c m) <= c_icount (m_c m') <= budget /\
      (c_icount (m_c m') = budget -> c_fault (m_c m') = Some "instruction budget exhausted"%string)
  | Trap t => t <> OutOfFuel
  end.
Proof. apply cpu_run_ends. Qed.

(** C38.  Callbacks count their instructions too, and the interpreter tests the
    count against the budget for equality only: a step whose callbacks take the
    count to the budget or past it leaves the guest running, with no fault, and
    the budget behind it. *)
Theorem budget_overrun budget m m1 :
  step guest_call m = Ok tt m1 -> c_icount (m_c m) < budget <= c_icount (m_c m1) ->
  c_icount (m_c m1) + 1 < 2 ^ 64 -> 0 < budget ->
  exists m2, run_turn guest_call false budget m = Ok false m2 /\
    c_running (m_c m2) = c_running (m_c m1) /\ c_fault (m_c m2) = c_fault (m_c m1) /\
    budget < c_icount (m_c m2).
Proof.
  intros Hm Hc Hb Hp. rewrite interp_turn, Hm. cbn -[uwrap].
  rewrite uwrap_small by (unfold urange; lia).
  rewrite (proj2 (Z.eqb_neq (c_icount (m_c m1) + 1) budget)) by lia. cbn [andb].
  eexists. split; [reflexivity|]. cbn -[uwrap]. rewrite uwrap_small by (unfold urange; lia). split; [done|]. split; [done|lia].
Qed.

(** C10.  Execution is strict.  Away from the two magic addresses and the import
    stubs, a step executes an instruction only when its first byte is tracked
    memory with the execute permission, and otherwise only records the fault; on
    a stub without an implementation it stops the guest and names the import. *)
Theorem step_executes_only_code m m' :
  let rip := c_rip (m_c m) in let imp := rsd_stub_index (c_stubs (m_c m)) rip in
  as_inv (m_as m) -> urange 64 rip -> rip <> RSD_CALLBACK_MAGIC -> rip <> RSD_RETURN_MAGIC ->
  step guest_call m = Ok tt m' ->
  (imp < 0 /\ (exists q, prot_at (as_reg (m_as m)) rip = Some q /\ q .& RSD_PROT_X = RSD_PROT_X) /\
     exec_insn rip m = Ok tt m') \/
  (imp < 0 /\ ~ (exists q, prot_at (as_reg (m_as m)) rip = Some q /\ q .& RSD_PROT_X = RSD_PROT_X) /\
     m' = upd_m (memfault_cpu rip (why (m_as m) rip 1)) m) \/
  (0 <= imp /\ stub_fn (c_stubs (m_c m)) imp = 0 /\ c_running (m_c m') = false /\
     c_fault_import (m_c m') = s32 imp /\ mem_of m' = mem_of m /\ c_r (m_c m') = c_r (m_c m)) \/
  (0 <= imp /\ stub_fn (c_stubs (m_c m)) imp <> 0).
Proof.
  intros rip imp Hi Hr Hc Hx. unfold step. intros (rip' & ? & [= <- <-] & Hm)%bind_ok.
  fold rip in Hm. rewrite (proj2 (Z.eqb_neq _ _) Hc), (proj2 (Z.eqb_neq _ _) Hx) in Hm.
  apply bind_ok in Hm as (st & ? & [= <- <-] & Hm). fold imp in Hm.
  assert (Hok : rsd_as_ok (m_as m) rip 1 RSD_PROT_X = true <->
    exists q, prot_at (as_reg (m_as m)) rip = Some q /\ q .& RSD_PROT_X = RSD_PROT_X).
  { split.
    - intros Hok%rsd_as_ok_iff; [|done..]. destruct Hok as [?|[_ Hok]]; [lia|]. apply Hok. lia.
    - intros (q & Hq & Hp). apply rsd_as_ok_iff; [done..|]. right.
      apply (prot_at_elem 0 _ _ _ (proj1 Hi)) in Hq as Hel. destruct Hel as (r & Hel & Hin & _).
      pose proof (regions_wf_elem _ _ _ (proj1 Hi) Hel). split; [lia|].
      intros b Hb. replace b with rip by lia. by exists q. }
  destruct (c_stubs (m_c m)) as [st|] eqn:Es.
  - destruct (0 <=? imp) eqn:E0; cbn [andb] in Hm.
    + destruct (nz (stub_fn (Some st) imp)) eqn:En; unfold nz in En.
      * do 3 right. split; lia.
      * do 2 right. left. injection Hm as <-. split; [lia|]. split; [lia|done].
    + apply bind_ok in Hm as (s & ? & [= <- <-] & Hm).
      destruct (rsd_as_ok (m_as m) rip 1 RSD_PROT_X) eqn:Eok; cbn [negb] in Hm.
      * left. split; [lia|]. split; [by apply Hok|done].
      * right. left. split; [lia|]. split; [by rewrite <- Hok|]. by injection Hm as <-.
  - assert (Hneg : imp < 0) by done.
    apply bind_ok in Hm as (s & ? & [= <- <-] & Hm).
    destruct (rsd_as_ok (m_as m) rip 1 RSD_PROT_X) eqn:Eok; cbn [negb] in Hm.
    + left. split; [done|]. split; [by apply Hok|done].
    + right. left. split; [done|]. split; [by rewrite <- Hok|]. by injection Hm as <-.
Qed.
End run.

(* ------------------------------------------------------------------ *)
(** ** Concrete runs *)

#[local] Existing Instances sample_host sample_trampolines sample_native sample_float.

(** A compiler whose code for a block of [n] instructions does what the
    interpreter does with them. *)
#[local] Instance sample_jit : JitEngine := {|
  rsd_jit_lookup := fun _ => mret None;
  rsd_jit_enter := fun n => replay (rsd_guest_call 10) (Z.to_nat n);; get_c c_rip;
  rsd_jit_note_interp := fun _ => mret tt
|}.

(** A jump to itself, never stopped by the guest. *)
Definition spinning : machine := sample_guest [0xEB; 0xFE].

Lemma rsd_cpu_run_budget_witness :
  let f := rsd_cpu_run (rsd_guest_call 10) 6 false 5 in
  value f spinning = Some tt /\ c_running (m_c (after f spinning)) = false /\
  c_icount (m_c (after f spinning)) = 5.
Proof.
  intros f. assert (Hv : value f spinning = Some tt) by (vm_compute; reflexivity).
  split; [exact Hv|]. split; [|vm_compute; reflexivity].
  pose proof (rsd_cpu_run_budget (rsd_guest_call 10) 6 5 spinning (fun _ => eq_refl)) as Hr.
  change (rsd_cpu_run (rsd_guest_call 10) 6 false 5 spinning) with (f spinning) in Hr.
  rewrite (run_value _ _ _ Hv) in Hr. apply Hr; [split; done|done|vm_compute; lia].
Defined.

(** The guest of [sample_caller] stands on an import that calls it back: three
    callback instructions are counted in the one step, past a budget of two. *)
Lemma budget_overrun_witness :
  let m1 := after (step (rsd_guest_call 10)) sample_caller in
  exists m2, run_turn (rsd_guest_call 10) false 2 sample_caller = Ok false m2 /\
    c_running (m_c m2) = c_running (m_c m1) /\ c_running (m_c m1) = true /\ 2 < c_icount (m_c m2).
Proof.
  intros m1.
  assert (Hv : value (step (rsd_guest_call 10)) sample_caller = Some tt) by (vm_compute; reflexivity).
  assert (Hc : c_icount (m_c m1) = 3) by (vm_compute; reflexivity).
  assert (Hr : c_running (m_c m1) = true) by (vm_compute; reflexivity).
  assert (Hb : 0 < 2 <= c_icount (m_c m1)) by (rewrite Hc; lia).
  assert (Hw : c_icount (m_c m1) + 1 < 2 ^ 64) by (rewrite Hc; lia).
  destruct (budget_overrun (rsd_guest_call 10) 2 sample_caller m1 (run_value _ _ _ Hv) Hb Hw eq_refl)
    as (m2 & Hm & He & _ & Hl).
  exists m2. split; [exact Hm|]. split; [exact He|]. split; [exact Hr|exact Hl].
Defined.

Lemma step_executes_only_code_witness :
  let m := sample_guest [0x90] in let m' := after (step (rsd_guest_call 10)) m in
  value (step (rsd_guest_call 10)) m = Some tt /\
  (exists q, prot_at (as_reg (m_as m)) (c_rip (m_c m)) = Some q /\ q .& RSD_PROT_X = RSD_PROT_X).
Proof.
  intros m m'.
  assert (Hv : value (step (rsd_guest_call 10)) m = Some tt) by (vm_compute; reflexivity).
  split; [exact Hv|].
  destruct (step_executes_only_code (rsd_guest_call 10) m m') as [(_ & Hx & _)|[(_ & Hx & _)|[(Hx & _)|(Hx & _)]]];
    [exact (sample_guest_inv _)|by change (urange 64 0x10000)|done|done|exact (run_value _ _ _ Hv)
    |exact Hx| |done|done].
  exfalso. apply Hx. exists 7. done.
Defined.
