(* ===== verification/BlockCheck.v ===== *)
(** Checking compiled blocks ([run_block] in [src/cpu.c]): a block that passes
    left what the interpreter leaves, and a block that does what the
    interpreter does passes. *)
From S2P Require Import Prelude.
From S2P Require Import Memory.
From S2P Require Import AddressSpace.
From S2P Require Import SampleHost.
From S2P Require Import Flags.
From S2P Require Import Float.
From S2P Require Import Stubs.
From S2P Require Import Callbacks.
From S2P Require Import Machine.
From S2P Require Import Access.
From S2P Require Import Decode.
From S2P Require Import Syscall.
From S2P Require Import Native.
From S2P Require Import Sse.
From S2P Require Import Step.
From S2P Require Import CpuApi.
From S2P Require Import Keeps.
From S2P Require Import Safety.
From S2P Require Import Registers.
From S2P Require Import Instructions.
From S2P Require Import Termination.
From S2P Require Import Calls.
From S2P Require Import Run.

(* ------------------------------------------------------------------ *)
(** ** The pieces of the check *)

(** Everything of a log entry but the window recorded afterwards. *)
Definition same_entry (e f : wlog_entry) : Prop :=
  we_addr e = we_addr f /\ we_size e = we_size f /\ we_val e = we_val f /\
  we_span e = we_span f /\ we_before e = we_before f.

(** The window of [f] holds what memory has there. *)
Definition recorded (mem : gmap Z Z) (f : wlog_entry) : Prop :=
  read_bytes mem (we_addr f) (Z.to_nat (we_span f)) = Some (we_after f).

Section pieces.
Context `{Native} `{Trampolines} `{HostFloat} `{!JitEngine}.

Lemma host_bytes_ok a n m v m' :
  host_bytes a n m = Ok v m' <-> m' = m /\ read_bytes (mem_of m) a (Z.to_nat n) = Some v.
Proof.
  unfold host_bytes, mem_of. destruct (read_bytes _ _ _) as [bs|].
  - split; [by intros [= <- <-]|]. by intros [-> [= ->]].
  - split; [done|]. by intros [_ ?].
Qed.

Lemma record_after_ok es m fs m' :
  record_after es m = Ok fs m' ->
  m' = m /\ Forall2 same_entry es fs /\ Forall (recorded (mem_of m)) fs.
Proof.
  revert fs m'. induction es as [|e es IH]; intros fs m'; cbn [record_after].
  - intros [= <- <-]. by repeat constructor.
  - intros (bs & m1 & [-> Hb]%host_bytes_ok & (fs1 & m2 & Hf & [= <- <-])%bind_ok)%bind_ok.
    apply IH in Hf as (-> & ? & ?). split; [done|]. split; constructor; done.
Qed.

Lemma undo_same_entry mem es fs : Forall2 same_entry es fs -> undo_writes mem fs = undo_writes mem es.
Proof.
  induction 1 as [|e f es fs (Ha & _ & _ & _ & Hb) _ IH]; [done|]. cbn [undo_writes foldr] in *.
  unfold undo_writes in IH. by rewrite IH, Ha, Hb.
Qed.


Lemma record_after_run es m :
  Forall (fun e => is_Some (read_bytes (mem_of m) (we_addr e) (Z.to_nat (we_span e)))) es ->
  exists fs, record_after es m = Ok fs m.
Proof.
  induction 1 as [|e es [bs Hb] _ [fs IH]]; cbn [record_after]; [by eexists|].
  eexists. apply bind_ok. exists bs, m. split; [by apply host_bytes_ok|].
  apply bind_ok. by exists fs, m.
Qed.


Lemma windows_match_run es m : Forall (recorded (mem_of m)) es -> windows_match es m = Ok true m.
Proof.
  induction 1 as [|e es He _ IH]; cbn [windows_match]; [done|]. apply bind_ok.
  exists (we_after e), m. split; [by apply host_bytes_ok|]. by rewrite bool_decide_true.
Qed.


(** An entry whose window was read from memory mapped like [mem]. *)
Definition entry_mapped (mem : gmap Z Z) (e : wlog_entry) : Prop :=
  is_Some (read_bytes mem (we_addr e) (Z.to_nat (we_span e))) /\
  length (we_before e) = Z.to_nat (we_span e).

Definition same_mapped (mem mem' : gmap Z Z) : Prop := forall b, is_Some (mem' !! b) <-> is_Some (mem !! b).

Lemma same_mapped_read mem mem' a n :
  same_mapped mem mem' -> is_Some (read_bytes mem' a n) <-> is_Some (read_bytes mem a n).
Proof. intros Hs. rewrite !read_bytes_is_Some. split; intros Hb i Hi; by apply Hs, Hb. Qed.

Lemma same_mapped_write mem a bs :
  is_Some (read_bytes mem a (length bs)) -> same_mapped mem (write_bytes mem a bs).
Proof.
  intros Hr b. rewrite write_bytes_lookup. case_decide as Hd; [|done].
  rewrite read_bytes_is_Some in Hr. specialize (Hr b Hd). split; [done|].
  intros _. apply lookup_lt_is_Some. lia.
Qed.

Lemma undo_log_run es m :
  Forall (entry_mapped (mem_of m)) es ->
  undo_log es m = Ok tt (with_mem (undo_writes (mem_of m) es) m) /\
  same_mapped (mem_of m) (undo_writes (mem_of m) es).
Proof.
  induction 1 as [|e es [Hm Hl] _ [IH IHs]]; cbn [undo_log]; [split; [by destruct m as [? ? [? ?] ? ?]|done]|].
  assert (Hr : is_Some (read_bytes (undo_writes (mem_of m) es) (we_addr e) (length (we_before e)))).
  { rewrite Hl. by apply (same_mapped_read (mem_of m)). }
  split.
  - apply bind_ok. exists tt, (with_mem (undo_writes (mem_of m) es) m). split; [exact IH|].
    apply host_store_ok. by destruct m as [? ? [? ?] ? ?].
  - pose proof (same_mapped_write _ _ _ Hr) as Hw. intros b. cbn [undo_writes foldr].
    etransitivity; [apply Hw|apply IHs].
Qed.
End pieces.

(* ------------------------------------------------------------------ *)
(** ** Logs stay replayable *)

(** The same bytes are mapped, and every window the log gained was. *)
Definition keeps_mapped `{HostOS} (m m' : machine) : Prop :=
  as_inv (m_as m) ->
  m_as m' = m_as m /\ same_mapped (mem_of m) (mem_of m') /\
  forall w, c_wlog (m_c m) = Some w -> exists w' es,
    c_wlog (m_c m') = Some w' /\ wl_e w' = wl_e w ++ es /\ Forall (entry_mapped (mem_of m)) es.

Lemma entry_mapped_iff mem mem' e : same_mapped mem mem' -> entry_mapped mem' e -> entry_mapped mem e.
Proof. intros Hs [Hm Hl]. split; [by apply (same_mapped_read mem mem')|done]. Qed.

Lemma logged_entry mem a size w w' e :
  logged mem a size (Some w) w' -> w' = Some e ->
  exists es, wl_e e = wl_e w ++ es /\ Forall (entry_mapped mem) es.
Proof.
  intros [->|(x & -> & Ha & _ & Hb)] [= <-].
  - exists []. cbn. by rewrite app_nil_r.
  - exists [x]. split; [done|]. constructor; [|done]. rewrite <- Ha in Hb. split; [by eexists|].
    by eapply read_bytes_length.
Qed.

Section mapped.
Context `{HostOS}.

#[export] Instance keeps_mapped_preorder : PreOrder keeps_mapped.
Proof.
  split.
  - intros m _. split; [done|]. split; [done|]. intros w Hw. exists w, []. by rewrite app_nil_r.
  - intros m1 m2 m3 H12 H23 Hi. destruct (H12 Hi) as (Ha & Hs & Hl). rewrite <- Ha in Hi.
    destruct (H23 Hi) as (Ha' & Hs' & Hl'). split; [congruence|].
    split; [intros b; etransitivity; [apply Hs'|apply Hs]|]. intros w Hw.
    destruct (Hl w Hw) as (w2 & es & Hw2 & He2 & Hf2). destruct (Hl' w2 Hw2) as (w3 & fs & Hw3 & He3 & Hf3).
    exists w3, (es ++ fs). split; [done|]. split; [by rewrite He3, He2, app_assoc|].
    apply Forall_app. split; [done|]. eapply Forall_impl; [exact Hf3|]. intros e. by apply entry_mapped_iff.
Qed.

Lemma mapped_same m m' : same_store m m' -> keeps_mapped m m'.
Proof.
  intros (Ha & Hm & Hl) _. rewrite Hm, Hl. split; [done|]. split; [done|].
  intros w Hw. exists w, []. by rewrite app_nil_r.
Qed.

(** What a store that went through did, to memory and to the log. *)
Lemma mapped_write m a bs w' :
  is_Some (read_bytes (mem_of m) a (length bs)) ->
  (forall w, c_wlog (m_c m) = Some w -> exists w1 es,
     w' = Some w1 /\ wl_e w1 = wl_e w ++ es /\ Forall (entry_mapped (mem_of m)) es) ->
  keeps_mapped m (with_mem (write_bytes (mem_of m) a bs) (upd_m (with_wlog w') m)).
Proof. intros Hr Hl _. split; [done|]. split; [by apply same_mapped_write|done]. Qed.

Lemma logged_some mem a size w w' : logged mem a size (Some w) w' -> exists w1, w' = Some w1.
Proof. intros [->|(? & -> & _)]; eauto. Qed.

#[export] Instance keeps_mapped_step : StepRel keeps_mapped.
Proof.
  split; [apply _| | |].
  - intros f m Hf. apply mapped_same. split; [done|]. split; [done|]. by apply basic_upd_wlog.
  - intros a v n Hn m u m' Hst. apply (st_ok _ _ _ _ _ _ Hn) in Hst
      as [[_ ->]|(_ & Hr & w' & -> & Hl)].
    { apply mapped_same. split; [done|]. split; [done|]. apply basic_upd_wlog. constructor. }
    apply mapped_write; [by rewrite length_le_bytes|]. intros w Hw. rewrite Hw in Hl.
    destruct (logged_some _ _ _ _ _ Hl) as [w1 ->]. destruct (logged_entry _ _ _ _ _ _ Hl eq_refl) as (es & ?).
    by exists w1, es.
  - intros a v m u m' Hst Hi. apply (st128_ok _ _ _ _ _ Hi) in Hst
      as [[_ ->]|(_ & Hr & w1 & w' & -> & Hl1 & Hl2)].
    { apply mapped_same; [|done]. split; [done|]. split; [done|]. apply basic_upd_wlog. constructor. }
    apply mapped_write; [by rewrite length_le_bytes| |done]. intros w Hw. rewrite Hw in Hl1.
    destruct (logged_some _ _ _ _ _ Hl1) as [x1 ->]. destruct (logged_entry _ _ _ _ _ _ Hl1 eq_refl) as (es1 & He1 & Hf1).
    destruct (logged_some _ _ _ _ _ Hl2) as [x2 ->]. destruct (logged_entry _ _ _ _ _ _ Hl2 eq_refl) as (es2 & He2 & Hf2).
    exists x2, (es1 ++ es2). split; [done|]. split; [by rewrite He2, He1, app_assoc|]. by apply Forall_app.
Qed.
End mapped.

(* ------------------------------------------------------------------ *)
(** ** Replaying *)

(** The machine a checked block starts on. *)
Definition checked_start `{HostOS} (m : machine) : machine := upd_m (with_wlog (Some empty_log)) m.

Section replay.
Context `{Native} `{Trampolines} `{HostFloat} `{!JitEngine}.
Variable guest_call : Z -> list Z -> list Z -> M (list Z * list Z).

(** At most [n] steps, none of them a call to an import or a system call on
    memory, until the guest stops. *)
Inductive replays : nat -> machine -> machine -> Prop :=
  | replays_done m : replays 0 m m
  | replays_stopped n m : c_running (m_c m) = false -> replays (S n) m m
  | replays_step n m m1 m' :
    c_running (m_c m) = true -> quiet m ->
    rsd_stub_index (c_stubs (m_c m)) (c_rip (m_c m)) < 0 ->
    step guest_call m = Ok tt m1 -> replays n m1 m' -> replays (S n) m m'.

Lemma replays_run n m m' : replays n m m' -> replay guest_call n m = Ok tt m'.
Proof.
  induction 1 as [m|n m Hr|n m m1 m' Hr Hq Hs Hm _ IH]; cbn [replay]; [done|..];
    apply bind_ok; exists (c_running (m_c m)), m; (split; [done|]); rewrite Hr; [done|].
  apply bind_ok. by exists tt, m1.
Qed.

Lemma replays_keeps R `{!StepRel R} n m m' :
  (forall m1 u m2, quiet m1 -> do_syscall m1 = Ok u m2 -> R m1 m2) ->
  (forall v, keeps R (upd (with_exit_code v))) -> keeps R (upd (with_running false)) ->
  replays n m m' -> R m m'.
Proof.
  intros Hsys He Hs. induction 1 as [m|n m Hr|n m m1 m' Hr Hq Hi Hm _ IH]; [reflexivity..|].
  etransitivity; [|exact IH]. eapply (step_no_import guest_call R); [|done..|exact Hm].
  intros m2 u m3 Hsame. apply Hsys. unfold quiet. by rewrite Hsame.
Qed.

Lemma replays_undo n m m' : replays n m m' -> keeps_undo m m'.
Proof.
  apply replays_keeps; [exact _| | |].
  - intros m1 u m2 Hq Hs. apply quiet_syscall in Hs as (? & ? & ?); [by apply undo_same|done].
  - intros v m1 u m2 [= _ <-]. by apply undo_same.
  - intros m1 u m2 [= _ <-]. by apply undo_same.
Qed.

Lemma replays_mapped n m m' : replays n m m' -> keeps_mapped m m'.
Proof.
  apply replays_keeps; [exact _| | |].
  - intros m1 u m2 Hq Hs. by apply quiet_syscall in Hs; [apply mapped_same|].
  - intros v m1 u m2 [= _ <-]. by apply mapped_same.
  - intros m1 u m2 [= _ <-]. by apply mapped_same.
Qed.

Lemma replays_count n m m' : replays n m m' -> same_count m m'.
Proof.
  apply replays_keeps; [exact _| | |].
  - intros m1 u m2 _. apply count_do_syscall.
  - intros v m1 u m2 [= _ <-]. done.
  - intros m1 u m2 [= _ <-]. done.
Qed.

Lemma replays_types n m m' : replays n m m' -> keeps_types m m'.
Proof.
  apply replays_keeps; [exact _| | |].
  - intros m1 u m2 _. apply types_do_syscall.
  - intros v. apply types_upd, upd_wf_exit.
  - apply types_upd, upd_wf_running.
Qed.

(** Two cpus the check takes for equal. *)
Definition agreeing (c d : rsd_cpu) : Prop :=
  (is_fault c = true /\ is_fault d = true) \/
  (is_fault c = false /\ is_fault d = false /\ c_rip c = c_rip d /\ c_flags c = c_flags d /\
   c_r c = c_r d /\ c_xmm c = c_xmm d).

Lemma same_state_iff c d : same_state c d = true <-> agreeing c d.
Proof.
  unfold same_state, agreeing. rewrite orb_true_iff, !andb_true_iff, !negb_true_iff.
  rewrite !bool_decide_eq_true, !Z.eqb_eq. tauto.
Qed.

Lemma take_log_ok m w m' :
  take_log m = Ok w m' <-> m' = upd_m (with_wlog None) m /\ w = default empty_log (c_wlog (m_c m)).
Proof. split; [by intros [= <- <-]|]. by intros [-> ->]. Qed.


Lemma entry_mapped_window mem mem' es :
  same_mapped mem mem' -> Forall (entry_mapped mem) es ->
  Forall (entry_mapped mem') es /\
  Forall (fun e => is_Some (read_bytes mem' (we_addr e) (Z.to_nat (we_span e)))) es.
Proof.
  intros Hs Hf. split; (eapply Forall_impl; [exact Hf|]); intros e [Hm Hl];
    [split; [|done]|]; by apply (same_mapped_read mem mem').
Qed.

Lemma entry_mapped_copy mem es fs :
  Forall2 same_entry es fs -> Forall (entry_mapped mem) es -> Forall (entry_mapped mem) fs.
Proof.
  unfold entry_mapped. induction 1 as [|e f es fs (Ha & _ & _ & Hs & Hb) _ IH]; [done|].
  intros [Hx Hf]%Forall_cons. constructor; [by rewrite <- Ha, <- Hs, <- Hb|by apply IH].
Qed.

(** The log matches its own copy with the windows filled in. *)
Lemma same_write_copy es fs :
  Forall2 same_entry es fs -> forallb (fun p => same_write p.1 p.2) (zip fs es) = true.
Proof.
  induction 1 as [|e f es fs (Ha & Hs & Hv & _ & _) _ IH]; [done|]. cbn [zip zip_with forallb].
  unfold same_write. cbn [fst snd]. by rewrite Ha, Hs, Hv, !Z.eqb_refl.
Qed.

Lemma with_rip_same c : urange 64 (c_rip c) -> with_rip (c_rip c) c = c.
Proof. intros Hr. unfold with_rip. rewrite uwrap_small by done. by destruct c. Qed.

Lemma agreeing_refl c : agreeing c c.
Proof. unfold agreeing. destruct (is_fault c); [by left|by right]. Qed.

Lemma checked_start_restored m m1 mem :
  m_as m1 = m_as m -> w_host (m_w m1) = w_host (m_w m) -> mem = mem_of m ->
  m_cb m1 = m_cb m -> m_cm m1 = m_cm m ->
  Machine (with_wlog (Some empty_log) (m_c m)) (m_as m1) (World (w_host (m_w m1)) mem) (m_cb m1) (m_cm m1) =
  checked_start m.
Proof. intros -> -> -> -> ->. by destruct m as [? ? [? ?] ? ?]. Qed.

(** What a replay leaves behind for the check: its log can be recorded and
    undone, and undoing it gives the starting machine back. *)
Lemma replays_checkable n m m1 w :
  as_inv (m_as m) -> replays n (checked_start m) m1 -> w_host (m_w m1) = w_host (m_w m) ->
  c_wlog (m_c m1) = Some w -> wl_overflow w = false ->
  exists fs, let m2 := upd_m (with_wlog None) m1 in
    record_after (wl_e w) m2 = Ok fs m2 /\
    Forall2 same_entry (wl_e w) fs /\ Forall (recorded (mem_of m1)) fs /\
    undo_log fs m2 = Ok tt (with_mem (undo_writes (mem_of m1) fs) m2) /\
    Machine (with_wlog (Some empty_log) (m_c m)) (m_as m1)
      (World (w_host (m_w m1)) (undo_writes (mem_of m1) fs)) (m_cb m1) (m_cm m1) = checked_start m.
Proof.
  intros Hi Hrun Hhost Hw Ho.
  destruct (replays_undo _ _ _ Hrun Hi) as [Has Hu]. destruct (Hu empty_log eq_refl) as (w1 & Hw1 & _ & Hr).
  rewrite Hw in Hw1. injection Hw1 as <-. destruct (Hr Ho) as (es & He & Hback). cbn in He. clear Hr Hu.
  destruct (replays_mapped _ _ _ Hrun Hi) as (_ & Hsame & Hl).
  destruct (Hl empty_log eq_refl) as (w1 & es1 & Hw1 & He1 & Hf).
  rewrite Hw in Hw1. injection Hw1 as <-. cbn in He1. rewrite He1 in He. subst es1. clear Hl.
  destruct (replays_count _ _ _ Hrun) as (_ & _ & _ & Hcb & Hcm).
  destruct (entry_mapped_window _ _ _ Hsame Hf) as [Hmap Hread].
  destruct (record_after_run es (upd_m (with_wlog None) m1) Hread) as [fs Hrec].
  pose proof (record_after_ok _ _ _ _ Hrec) as (_ & Hent & Hwin).
  exists fs. cbn zeta. rewrite He1. split; [exact Hrec|]. split; [exact Hent|]. split; [exact Hwin|].
  split; [exact (proj1 (undo_log_run fs (upd_m (with_wlog None) m1) (entry_mapped_copy _ _ _ Hent Hmap)))|].
  apply checked_start_restored; [exact Has|exact Hhost| |exact Hcb|exact Hcm].
  rewrite (undo_same_entry _ _ _ Hent). exact Hback.
Qed.

(** C3.  The check raises no false alarm.  If compiled code does to the machine
    what the interpreter would - running the same instructions, none of them a
    call to an import or a system call on memory, with a log that holds all of
    their writes - then the block passes, and leaves that machine with its
    instructions counted. *)
Theorem run_block_complete body n m m1 w :
  as_inv (m_as m) -> cpu_wf (m_c m) -> c_jit_check (m_c m) = true ->
  replays (Z.to_nat n) (checked_start m) m1 -> w_host (m_w m1) = w_host (m_w m) ->
  c_wlog (m_c m1) = Some w -> wl_overflow w = false ->
  rsd_jit_enter body (checked_start m) = Ok (c_rip (m_c m1)) m1 ->
  run_block guest_call body n m =
    Ok true (upd_m (fun c => with_icount (c_icount c + n) (with_wlog None c)) m1).
Proof.
  intros Hi Hwf Hc Hrun Hhost Hw Ho Hjit.
  assert (Hwf1 : cpu_wf (m_c m1)) by (eapply replays_types; [exact Hrun|]; by apply upd_wf_wlog).
  destruct (replays_checkable _ _ _ _ Hi Hrun Hhost Hw Ho) as (fs & Hrec & Hent & Hwin & Hundo & Hback).
  unfold run_block. apply bind_ok. exists true, m. split; [unfold get_c, gets; by rewrite Hc|]. cbn [negb].
  apply bind_ok. exists (m_c m), m. split; [done|]. apply bind_ok. exists tt, (checked_start m). split; [done|].
  apply bind_ok. exists (c_rip (m_c m1)), m1. split; [exact Hjit|].
  apply bind_ok. exists tt, m1. split.
  { unfold set_rip, upd, modify. rewrite with_rip_same by apply Hwf1. by destruct m1. }
  apply bind_ok. exists w, (upd_m (with_wlog None) m1). split; [by apply take_log_ok; rewrite Hw|].
  apply bind_ok. eexists _, _. split; [reflexivity|]. rewrite Ho.
  apply bind_ok. eexists fs, _. split; [exact Hrec|]. apply bind_ok. eexists tt, _. split; [exact Hundo|].
  apply bind_ok. eexists tt, _. split; [reflexivity|]. apply bind_ok. exists tt, (checked_start m).
  split; [unfold upd, modify; f_equal; exact Hback|].
  apply bind_ok. exists tt, m1. split; [by apply replays_run|].
  apply bind_ok. exists w, (upd_m (with_wlog None) m1). split; [by apply take_log_ok; rewrite Hw|].
  apply bind_ok. eexists _, _. split; [reflexivity|]. rewrite Ho. cbn [orb negb m_c upd_m].
  rewrite (Forall2_length _ _ _ Hent), Z.eqb_refl, (same_write_copy _ _ Hent). cbn [andb orb].
  apply bind_ok. eexists true, _. split; [by apply windows_match_run|].
  rewrite (proj2 (same_state_iff _ _) (agreeing_refl _)). reflexivity.
Qed.
End replay.

(* ------------------------------------------------------------------ *)
(** ** Concrete runs *)

#[local] Existing Instances sample_host sample_trampolines sample_native sample_float sample_jit.

(** Two overlapping stores, with the check on. *)
Definition sample_checked : machine := upd_m (with_jit_check true) (sample_guest two_stores).

Lemma sample_checked_wf : cpu_wf (m_c sample_checked).
Proof. pose proof (reset_cpu_wf 0x10000) as []. by constructor. Qed.


Lemma run_block_complete_witness :
  let m0 := checked_start sample_checked in
  let m1 := after (replay (rsd_guest_call 10) 2) m0 in
  c_rip (m_c m1) = 0x1000d /\
  run_block (rsd_guest_call 10) 2 2 sample_checked =
    Ok true (upd_m (fun c => with_icount (c_icount c + 2) (with_wlog None c)) m1).
Proof.
  intros m0 m1. split; [vm_compute; reflexivity|].
  set (ma := after (step (rsd_guest_call 10)) m0).
  assert (Ha : value (step (rsd_guest_call 10)) m0 = Some tt) by (vm_compute; reflexivity).
  assert (Hb : value (step (rsd_guest_call 10)) ma = Some tt) by (vm_compute; reflexivity).
  assert (Hr : value (replay (rsd_guest_call 10) 2) m0 = Some tt) by (vm_compute; reflexivity).
  assert (Hs : replays (rsd_guest_call 10) 2 m0 (after (step (rsd_guest_call 10)) ma)).
  { eapply replays_step; [reflexivity|left; vm_compute; done|reflexivity|exact (run_value _ _ _ Ha)|].
    eapply replays_step; [vm_compute; reflexivity|left; vm_compute; done|vm_compute; reflexivity
      |exact (run_value _ _ _ Hb)|apply replays_done]. }
  assert (He : after (step (rsd_guest_call 10)) ma = m1).
  { pose proof (replays_run _ _ _ _ Hs) as Hx. unfold m1, after at 2. rewrite Hx. reflexivity. }
  rewrite He in Hs.
  assert (Ho : (w ← c_wlog (m_c m1); Some (wl_overflow w)) = Some false) by (vm_compute; reflexivity).
  destruct (c_wlog (m_c m1)) as [w|] eqn:E; [|discriminate Ho]. injection Ho as Ho.
  apply (run_block_complete (rsd_guest_call 10) 2 2 sample_checked m1 w);
    [repeat split; cbn; try lia; by left|exact sample_checked_wf|reflexivity|exact Hs
    |vm_compute; reflexivity|exact E|exact Ho|].
  cbn [rsd_jit_enter sample_jit]. apply bind_ok. exists tt, m1. split; [exact (run_value _ _ _ Hr)|reflexivity].
Defined.
