(* ===== verification/Encoding.v ===== *)
(** Decoding against an encoder.  [encode_arg] writes an operand the way the
    instruction set manual lays out ModRM, SIB and displacement bytes; the
    decoder ([modrm] and [fixup_rip] in [src/cpu.c]) reads it back, and so does
    a whole ALU instruction built on it. *)
From S2P Require Import Prelude.
From S2P Require Import Memory.
From S2P Require Import AddressSpace.
From S2P Require Import SampleHost.
From S2P Require Import Flags.
From S2P Require Import Float.
From S2P Require Import Machine.
From S2P Require Import Access.
From S2P Require Import Decode.
From S2P Require Import Sse.
From S2P Require Import Step.
From S2P Require Import Keeps.
From S2P Require Import Safety.
From S2P Require Import Registers.
From S2P Require Import Instructions.

(* ------------------------------------------------------------------ *)
(** ** The encoder *)

(** An operand: a register, an address relative to the next instruction, or
    base, scaled index and displacement. *)
Inductive arg :=
| AReg (r : Z)
| ARip (disp : Z)
| AMem (base : option Z) (index : option (Z * Z)) (disp : Z).

Definition modrm_byte (mod_ reg rm : Z) : Z := mod_ * 64 + reg mod 8 * 8 + rm mod 8.

Definition disp_bytes (mod_ disp : Z) : list Z :=
  if mod_ =? 1 then le_bytes 1 disp else if mod_ =? 2 then le_bytes 4 disp else [].

(** The SIB byte; an index field of 4 says there is none. *)
Definition sib_byte (index : option (Z * Z)) (base : Z) : Z :=
  match index with
  | None => modrm_byte 0 4 base
  | Some (i, s) => modrm_byte s i base
  end.

(** [mod_] chooses the width of the displacement of a memory operand. *)
Definition encode_arg (reg mod_ : Z) (a : arg) : list Z :=
  match a with
  | AReg r => [modrm_byte 3 reg r]
  | ARip disp => modrm_byte 0 reg 5 :: le_bytes 4 disp
  | AMem None index disp => modrm_byte 0 reg 4 :: sib_byte index 5 :: le_bytes 4 disp
  | AMem (Some b) None disp =>
      if b mod 8 =? 4 then modrm_byte mod_ reg 4 :: sib_byte None b :: disp_bytes mod_ disp
      else modrm_byte mod_ reg b :: disp_bytes mod_ disp
  | AMem (Some b) index disp => modrm_byte mod_ reg 4 :: sib_byte index b :: disp_bytes mod_ disp
  end.

Definition reg_num (r : Z) : Prop := 0 <= r < 16.

Definition signed (w z : Z) : Prop := - 2 ^ (w - 1) <= z < 2 ^ (w - 1).

(** Operands that have an encoding: [rsp] is no index, and without displacement
    [rbp] and [r13] are no base. *)
Definition arg_ok (mod_ : Z) (a : arg) : Prop :=
  match a with
  | AReg r => reg_num r
  | ARip disp => signed 32 disp
  | AMem base index disp =>
      match index with Some (i, s) => reg_num i /\ i <> 4 /\ 0 <= s <= 3 | None => True end /\
      match base with
      | None => signed 32 disp
      | Some b => reg_num b /\
          (mod_ = 0 /\ disp = 0 /\ b mod 8 <> 5 \/ mod_ = 1 /\ signed 8 disp \/ mod_ = 2 /\ signed 32 disp)
      end
  end.

(** The REX bits the operand needs. *)
Definition rex_for (reg : Z) (a : arg) (d : dec) : Prop :=
  rex_r d = reg / 8 * 8 /\
  match a with
  | AReg r => rex_b d = r / 8 * 8
  | ARip _ => True
  | AMem base index _ =>
      match base with Some b => rex_b d = b / 8 * 8 | None => True end /\
      rex_x d = match index with Some (i, _) => i / 8 * 8 | None => 0 end
  end.

Section encoding.
Context `{HostOS}.

(** The address the operand names, once the whole instruction is read. *)
Definition effective (m : machine) (d : dec) (a : arg) : Z :=
  match a with
  | AReg _ => 0
  | ARip disp => u64 (dec_rip d + disp)
  | AMem base index disp =>
      u64 (match base with Some b => reg m b | None => 0 end +
           match index with Some (i, s) => reg m i * 2 ^ s | None => 0 end + disp)
  end.

Definition names (m : machine) (d0 d : dec) (a : arg) (o : opnd) : Prop :=
  match a with
  | AReg r => fixup_rip d o = reg_opnd r
  | _ => is_reg (fixup_rip d o) = false /\ o_addr (fixup_rip d o) = effective m d a /\
         o_seg (fixup_rip d o) = d_seg_base d0
  end.

(** The bytes stand in memory from [p]. *)
Definition code_at (m : machine) (p : Z) (bs : list Z) : Prop :=
  read_bytes (mem_of m) p (length bs) = Some bs.

Lemma code_at_app m p bs cs :
  code_at m p (bs ++ cs) -> code_at m p bs /\ code_at m (p + Z.of_nat (length bs)) cs.
Proof.
  unfold code_at. intros Hr.
  assert (Hm : forall i, p <= i < p + Z.of_nat (length (bs ++ cs)) -> mem_of m !! i = (bs ++ cs) !! Z.to_nat (i - p)).
  { intros i Hi. by eapply read_bytes_lookup. }
  rewrite length_app in Hm. split; apply read_bytes_eq; intros i Hi; rewrite Hm by lia.
  - rewrite lookup_app_l by lia. done.
  - rewrite lookup_app_r by lia. f_equal. lia.
Qed.

Lemma code_at_cons m p b bs : code_at m p (b :: bs) -> code_at m p [b] /\ code_at m (p + 1) bs.
Proof. apply (code_at_app m p [b] bs). Qed.

Lemma fetch_run n d m bs :
  Z.of_nat (length bs) = n -> code_at m (d_p d) bs -> fetch n d m = Ok (le_val bs, with_p (d_p d + n) d) m.
Proof.
  intros <- Hc. unfold fetch. apply bind_ok. exists (le_val bs), m. split; [|done].
  apply host_read_ok. split; [done|]. exists bs. split; [|done]. by rewrite Nat2Z.id.
Qed.

Lemma fetch8_run d m b : code_at m (d_p d) [b] -> fetch8 d m = Ok (b, with_p (d_p d + 1) d) m.
Proof. intros Hc. unfold fetch8. rewrite (fetch_run 1 d m [b]) by done. cbn [le_val]. do 3 f_equal. lia. Qed.

Lemma fetch32_run d m v :
  code_at m (d_p d) (le_bytes 4 v) -> fetch32 d m = Ok (u32 v, with_p (d_p d + 4) d) m.
Proof.
  intros Hc. unfold fetch32. rewrite (fetch_run 4 d m (le_bytes 4 v)) by done. by rewrite le_val_bytes.
Qed.

Lemma modrm_fields mod_ r b :
  0 <= mod_ <= 3 ->
  modrm_byte mod_ r b >> 6 = mod_ /\ (modrm_byte mod_ r b >> 3) .& 7 = r mod 8 /\ modrm_byte mod_ r b .& 7 = b mod 8.
Proof.
  intros Hm. unfold modrm_byte. change 7 with (Z.ones 3). rewrite !land_ones_uwrap by lia.
  rewrite !Z.shiftr_div_pow2 by lia. change (2 ^ 6) with 64. change (2 ^ 3) with 8. unfold uwrap. change (2 ^ 3) with 8.
  repeat split; zdm.
Qed.

Lemma reg_halves r : reg_num r -> r mod 8 .| r / 8 * 8 = r.
Proof.
  intros Hr. rewrite Z.lor_comm. change 8 with (2 ^ 3) at 2. rewrite lor_concat by (unfold urange; zdm). zdm.
Qed.

Lemma signed_u w z : 0 < w -> signed w z -> swrap w (uwrap w z) = z.
Proof. intros Hw Hz. rewrite swrap_uwrap by lia. by apply swrap_small. Qed.

(** The displacement bytes of a memory operand with a base. *)
Definition disp_ok (mod_ disp : Z) : Prop :=
  mod_ = 0 /\ disp = 0 \/ mod_ = 1 /\ signed 8 disp \/ mod_ = 2 /\ signed 32 disp.

Lemma disp_run mod_ disp addr d m :
  disp_ok mod_ disp -> code_at m (d_p d) (disp_bytes mod_ disp) ->
  exists a', modrm_disp d mod_ addr m =
    Ok (a', with_p (d_p d + Z.of_nat (length (disp_bytes mod_ disp))) d) m /\
    u64 a' = u64 (addr + disp) /\ (urange 64 addr -> urange 64 a').
Proof.
  intros [[-> ->]|[[-> Hs]|[-> Hs]]] Hc; unfold modrm_disp, disp_bytes in *; cbn [Z.eqb Pos.eqb] in *.
  - exists addr. rewrite !Z.add_0_r. split; [by destruct d|done].
  - rewrite length_le_bytes. change (le_bytes 1 disp) with [uwrap 8 disp] in Hc.
    eexists. split; [apply bind_ok; eexists _, _; split; [by apply fetch8_run|]; reflexivity|].
    rewrite signed_u by (done || lia). split; [by rewrite uwrap_uwrap by lia|]. intros _. by apply uwrap_range.
  - rewrite length_le_bytes. eexists.
    split; [apply bind_ok; eexists _, _; split; [by apply fetch32_run|]; reflexivity|].
    rewrite signed_u by (done || lia). split; [by rewrite uwrap_uwrap by lia|]. intros _. by apply uwrap_range.
Qed.

Definition index_ok (index : option (Z * Z)) : Prop :=
  match index with Some (i, s) => reg_num i /\ i <> 4 /\ 0 <= s <= 3 | None => True end.

Definition index_val (m : machine) (index : option (Z * Z)) : Z :=
  match index with Some (i, s) => reg m i * 2 ^ s | None => 0 end.

(** Reading the fields of the SIB byte back. *)
Lemma sib_fields index b d :
  index_ok index -> rex_x d = match index with Some (i, _) => i / 8 * 8 | None => 0 end ->
  let sib := sib_byte index b in
  sib .& 7 = b mod 8 /\
  forall m, (if ((sib >> 3) .& 7) .| rex_x d =? RSP then 0 else u64 (reg m (((sib >> 3) .& 7) .| rex_x d) << (sib >> 6)))
    = match index with Some _ => u64 (index_val m index) | None => 0 end.
Proof.
  intros Hi Hx sib. subst sib. destruct index as [[i s]|]; cbn [index_ok sib_byte index_val] in *; rewrite Hx.
  - destruct Hi as (Hr & Hn & Hs). destruct (modrm_fields s i b Hs) as (-> & -> & ->). split; [done|].
    intros m. rewrite reg_halves by done. unfold RSP. rewrite (proj2 (Z.eqb_neq i 4)) by done.
    by rewrite Z.shiftl_mul_pow2 by lia.
  - destruct (modrm_fields 0 4 b ltac:(lia)) as (-> & -> & ->). split; [done|]. intros m. done.
Qed.

Lemma sib_run index b mod_ d m :
  index_ok index -> rex_x d = match index with Some (i, _) => i / 8 * 8 | None => 0 end ->
  rex_b d = b / 8 * 8 -> reg_num b -> ~ (mod_ = 0 /\ b mod 8 = 5) ->
  code_at m (d_p d) [sib_byte index b] ->
  sib_addr d mod_ m = Ok (u64 (index_val m index + reg m b), with_p (d_p d + 1) d) m.
Proof.
  intros Hi Hx Hb Hr Hm Hc. destruct (sib_fields index b d Hi Hx) as [Hf Ha]. unfold sib_addr.
  apply bind_ok. eexists _, m. split; [by apply fetch8_run|].
  apply bind_ok. eexists _, m. split; [apply getr_run|]. rewrite Hf.
  change (rex_x (with_p (d_p d + 1) d)) with (rex_x d). change (rex_b (with_p (d_p d + 1) d)) with (rex_b d).
  rewrite Ha, Hb, reg_halves by done.
  replace ((b mod 8 =? 5) && (mod_ =? 0)) with false by (symmetry; apply andb_false_iff; lia).
  apply bind_ok. eexists _, m. split; [apply getr_run|].
  unfold mret, M_ret. f_equal. f_equal. destruct index as [[i s]|]; cbn [index_val]; [|done].
  unfold uwrap. by rewrite Zplus_mod_idemp_l.
Qed.

Lemma sib_abs_run index disp d m :
  index_ok index -> rex_x d = match index with Some (i, _) => i / 8 * 8 | None => 0 end -> signed 32 disp ->
  code_at m (d_p d) (sib_byte index 5 :: le_bytes 4 disp) ->
  sib_addr d 0 m = Ok (u64 (index_val m index + disp), with_p (d_p d + 5) d) m.
Proof.
  intros Hi Hx Hs [Hc Hd]%code_at_cons. destruct (sib_fields index 5 d Hi Hx) as [Hf Ha]. unfold sib_addr.
  apply bind_ok. eexists _, m. split; [by apply fetch8_run|].
  apply bind_ok. eexists _, m. split; [apply getr_run|]. rewrite Hf.
  change (rex_x (with_p (d_p d + 1) d)) with (rex_x d). rewrite Ha. change ((5 mod 8 =? 5) && (0 =? 0)) with true. cbv iota.
  apply bind_ok. eexists _, m. split; [by apply fetch32_run|]. cbv beta iota.
  rewrite signed_u by (done || lia). unfold mret, M_ret. f_equal. f_equal;
    [|unfold with_p; cbn [d_p d_p0 d_rip0 d_rex d_has_rex d_osize d_addr32 d_seg_base d_mand];
      by replace (d_p d + 1 + 4) with (d_p d + 5) by lia].
  destruct index as [[i s]|]; cbn [index_val]; [|done]. unfold uwrap. by rewrite Zplus_mod_idemp_l.
Qed.

(** [modrm] once its first byte is read. *)
Lemma modrm_start mod_ reg rm d m :
  0 <= mod_ <= 3 -> reg_num reg -> rex_r d = reg / 8 * 8 -> code_at m (d_p d) [modrm_byte mod_ reg rm] ->
  modrm d m =
  (let d := with_p (d_p d + 1) d in
   if mod_ =? 3 then mret (reg, reg_opnd (rm mod 8 .| rex_b d), d)
   else if rm mod 8 =? 4 then
     '(addr, d) ← sib_addr d mod_;
     '(addr, d) ← modrm_disp d mod_ addr;
     mret (reg, Opnd false (-2) addr (d_seg_base d), d)
   else if (rm mod 8 =? 5) && (mod_ =? 0) then
     '(disp, d) ← fetch32 d;
     mret (reg, Opnd false (-1) (u64 (s32 disp)) (d_seg_base d), d)
   else
     addr ← getr (rm mod 8 .| rex_b d);
     '(addr, d) ← modrm_disp d mod_ addr;
     mret (reg, Opnd false (-2) addr (d_seg_base d), d)) m.
Proof.
  intros Hm Hr Hx Hc. unfold modrm. unfold mbind at 1, M_bind at 1.
  rewrite (fetch8_run d m _ Hc). cbv beta iota.
  destruct (modrm_fields mod_ reg rm Hm) as (-> & -> & ->).
  change (rex_r (with_p (d_p d + 1) d)) with (rex_r d). by rewrite Hx, reg_halves.
Qed.

(** A memory operand addressed through a base register. *)
Lemma names_mem m d0 base index disp a addr (seg : Z) d :
  u64 addr = u64 (index_val m index + reg m base) -> u64 a = u64 (addr + disp) -> urange 64 a ->
  seg = d_seg_base d0 -> names m d0 d (AMem (Some base) index disp) (Opnd false (-2) a seg).
Proof.
  intros H1 H2 Ha Hs. cbn [names]. unfold fixup_rip. cbn [is_reg o_reg negb andb Z.eqb Pos.eqb].
  cbn [is_reg o_addr o_seg effective]. split; [done|]. split; [|done].
  rewrite <- (uwrap_small 64 a Ha), H2. unfold index_val in H1. unfold uwrap in *.
  rewrite <- (Zplus_mod_idemp_l addr), H1, Zplus_mod_idemp_l. f_equal. ring.
Qed.

Lemma fixup_mem a seg d : fixup_rip d (Opnd false (-2) a seg) = Opnd false (-2) a seg.
Proof. done. Qed.

Lemma s32_u64 z : signed 32 z -> s32 (u64 z) = z.
Proof.
  intros Hz. rewrite <- swrap_uwrap, uwrap_le by lia. by apply signed_u.
Qed.

(** A base with a SIB byte. *)
Lemma modrm_sib mod_ g b index disp d m :
  regs_ok m -> 0 <= mod_ <= 2 -> reg_num g -> rex_r d = g / 8 * 8 -> index_ok index -> reg_num b ->
  ~ (mod_ = 0 /\ b mod 8 = 5) -> disp_ok mod_ disp -> rex_b d = b / 8 * 8 ->
  rex_x d = match index with Some (i, _) => i / 8 * 8 | None => 0 end ->
  let bs := modrm_byte mod_ g 4 :: sib_byte index b :: disp_bytes mod_ disp in
  code_at m (d_p d) bs ->
  exists o, modrm d m = Ok (g, o, with_p (d_p d + Z.of_nat (length bs)) d) m /\
    forall d', names m d d' (AMem (Some b) index disp) o.
Proof.
  intros Hm Hmod Hr Hrr Hi Hb Hn Hd Hrb Hrx bs [Hc [Hs Hp]%code_at_cons]%code_at_cons. cbn zeta in *.
  rewrite (modrm_start mod_ g 4 d m) by (done || lia). cbv zeta.
  rewrite (proj2 (Z.eqb_neq mod_ 3)) by lia. change (4 mod 8 =? 4) with true. cbv iota.
  set (d1 := with_p (d_p d + 1) d).
  destruct (disp_run mod_ disp (u64 (index_val m index + reg m b)) (with_p (d_p d1 + 1) d1) m Hd)
    as (a & Ha & He & Hu); [exact Hp|].
  eexists. split.
  - apply bind_ok. eexists _, m. split; [by apply (sib_run index b mod_ d1 m)|]. cbv beta iota.
    apply bind_ok. eexists _, m. split; [exact Ha|]. cbv beta iota. unfold mret, M_ret, bs. cbn [length].
    f_equal. f_equal. unfold d1, with_p. cbn [d_p d_p0 d_rip0 d_rex d_has_rex d_osize d_addr32 d_seg_base d_mand].
    f_equal. lia.
  - intros d'. eapply names_mem; [|exact He|by apply Hu, uwrap_range|done]. by rewrite uwrap_uwrap by lia.
Qed.

(** A base alone. *)
Lemma modrm_base mod_ g b disp d m :
  regs_ok m -> 0 <= mod_ <= 2 -> reg_num g -> rex_r d = g / 8 * 8 -> reg_num b -> b mod 8 <> 4 ->
  ~ (mod_ = 0 /\ b mod 8 = 5) -> disp_ok mod_ disp -> rex_b d = b / 8 * 8 ->
  let bs := modrm_byte mod_ g b :: disp_bytes mod_ disp in
  code_at m (d_p d) bs ->
  exists o, modrm d m = Ok (g, o, with_p (d_p d + Z.of_nat (length bs)) d) m /\
    forall d', names m d d' (AMem (Some b) None disp) o.
Proof.
  intros Hm Hmod Hr Hrr Hb H4 Hn Hd Hrb bs [Hc Hp]%code_at_cons. cbn zeta in *.
  rewrite (modrm_start mod_ g b d m) by (done || lia). cbv zeta.
  rewrite (proj2 (Z.eqb_neq mod_ 3)), (proj2 (Z.eqb_neq (b mod 8) 4)) by lia.
  replace ((b mod 8 =? 5) && (mod_ =? 0)) with false by (symmetry; apply andb_false_iff; lia). cbv iota.
  set (d1 := with_p (d_p d + 1) d). change (rex_b d1) with (rex_b d). rewrite Hrb, reg_halves by done.
  destruct (disp_run mod_ disp (reg m b) d1 m Hd) as (a & Ha & He & Hu); [exact Hp|].
  eexists. split.
  - apply bind_ok. eexists _, m. split; [apply getr_run|].
    apply bind_ok. eexists _, m. split; [exact Ha|]. cbv beta iota. unfold mret, M_ret, bs. cbn [length].
    f_equal. f_equal. unfold d1, with_p. cbn [d_p d_p0 d_rip0 d_rex d_has_rex d_osize d_addr32 d_seg_base d_mand].
    f_equal. lia.
  - intros d'. eapply names_mem; [|exact He|by apply Hu, reg_range|done]. done.
Qed.

(** C5.  The decoder reads back what the manual's encoding writes: for every
    register or memory operand, every displacement width and the REX bits the
    operand needs, [modrm] returns the reg field, consumes exactly the encoded
    bytes, changes nothing, and - once the whole instruction is read - names the
    operand that was encoded: the register, or the address its base, scaled
    index, displacement and instruction pointer add up to. *)
Theorem modrm_decodes mod_ g a d m :
  regs_ok m -> reg_num g -> arg_ok mod_ a -> rex_for g a d ->
  code_at m (d_p d) (encode_arg g mod_ a) ->
  exists o, modrm d m = Ok (g, o, with_p (d_p d + Z.of_nat (length (encode_arg g mod_ a))) d) m /\
    forall d', names m d d' a o.
Proof.
  intros Hm Hr Ha [Hrr Hra] Hc. destruct a as [r|disp|[b|] index disp]; cbn [encode_arg arg_ok] in *.
  - exists (reg_opnd r). rewrite (modrm_start 3 g r d m) by (done || lia). cbn [Z.eqb Pos.eqb].
    change (rex_b (with_p (d_p d + 1) d)) with (rex_b d). rewrite Hra, reg_halves by done. done.
  - apply code_at_cons in Hc as [Hc Hp]. rewrite (modrm_start 0 g 5 d m) by (done || lia).
    change (5 mod 8 =? 4) with false. change ((5 mod 8 =? 5) && (0 =? 0)) with true. cbn [Z.eqb].
    cbv zeta. eexists. split.
    + apply bind_ok. eexists _, m. split; [by apply fetch32_run|]. cbv beta iota. unfold mret, M_ret. f_equal.
      f_equal. unfold with_p. cbn [length le_bytes d_p d_p0 d_rip0 d_rex d_has_rex d_osize d_addr32 d_seg_base d_mand].
      f_equal. lia.
    + intros d'. cbn [names]. unfold fixup_rip. cbn [is_reg o_reg negb andb Z.eqb Pos.eqb o_addr o_seg effective].
      by rewrite signed_u, s32_u64 by (done || lia).
  - destruct Ha as [Hi [Hb Hd]]. destruct Hra as [Hrb Hrx].
    assert (Hd' : disp_ok mod_ disp) by (unfold disp_ok; tauto).
    assert (0 <= mod_ <= 2 /\ ~ (mod_ = 0 /\ b mod 8 = 5)) as [? ?] by lia.
    destruct index as [is_|].
    + by apply modrm_sib.
    + destruct (Z.eqb_spec (b mod 8) 4); [by apply modrm_sib|by apply modrm_base].
  - destruct Ha as [Hi Hd]. destruct Hra as [_ Hrx]. apply code_at_cons in Hc as [Hc Hp].
    rewrite (modrm_start 0 g 4 d m) by (done || lia). change (4 mod 8 =? 4) with true. cbn [Z.eqb]. cbv zeta.
    set (d1 := with_p (d_p d + 1) d). eexists. split.
    + apply bind_ok. eexists _, m. split; [by apply (sib_abs_run index disp d1 m)|]. cbv beta iota.
      apply bind_ok. eexists _, m. split; [reflexivity|]. cbv beta iota. unfold mret, M_ret. f_equal. f_equal.
      unfold d1, with_p. cbn [length le_bytes d_p d_p0 d_rip0 d_rex d_has_rex d_osize d_addr32 d_seg_base d_mand].
      f_equal. lia.
    + intros d'. cbn [names]. rewrite fixup_mem. cbn [is_reg o_addr o_seg effective]. split; [done|]. split; [|done].
      by destruct index as [[i s]|].
Qed.
End encoding.

(* ------------------------------------------------------------------ *)
(** ** A whole instruction *)

(** The eight operations of the ALU opcodes, in encoding order: add, or, adc,
    sbb, and, sub, xor, cmp. *)
Definition alu_value (k a b cf : Z) : Z :=
  if k =? 0 then a + b
  else if k =? 1 then a .| b
  else if k =? 2 then a + b + cf
  else if k =? 3 then a - b - cf
  else if k =? 4 then a .& b
  else if k =? 6 then a .^ b
  else a - b.

(** The flags they leave: [a] and [b] are the operands at their width. *)
Definition alu_flags (k size fl fl' a b cf : Z) : Prop :=
  let w := size * 8 in let v := alu_value k a b cf in
  let sx := sext a size in let sy := sext b size in
  if is_one_of k [1; 4; 6] then
    CF fl' = false /\ OF fl' = false /\ AF fl' = AF fl /\ ZF fl' = (uwrap w v =? 0) /\
    SF fl' = (swrap w v <? 0) /\ PF fl' = even_parity v /\ fl' .& .~ FL_ALL = fl .& .~ FL_ALL
  else if k =? 0 then
    arith_flags size fl fl' (2 ^ w <=? a + b) (negb (in_signed w (sx + sy))) (16 <=? a mod 16 + b mod 16) v
  else if k =? 2 then
    arith_flags size fl fl' (2 ^ w <=? a + b + cf) (negb (in_signed w (sx + sy + cf)))
      (16 <=? a mod 16 + b mod 16 + cf) v
  else if k =? 3 then
    arith_flags size fl fl' (a - b - cf <? 0) (negb (in_signed w (sx - sy - cf)))
      (a mod 16 - b mod 16 - cf <? 0) v
  else arith_flags size fl fl' (a <? b) (negb (in_signed w (sx - sy))) (a mod 16 <? b mod 16) v.

Section alu.
Context `{HostOS} `{HostFloat}.

Lemma frame_range fl fl' : urange 32 fl -> fl' .& .~ FL_ALL = fl .& .~ FL_ALL -> urange 32 fl'.
Proof.
  intros Hr Hf. assert (He : fl' = (fl' .& FL_ALL) .| (fl .& .~ FL_ALL)).
  { rewrite <- Hf. bitwise i. destruct (Z.testbit fl' i), (Z.testbit FL_ALL i); done. }
  rewrite He. apply urange_lor; [lia| |].
  - apply urange_bits; [lia|apply Z.land_nonneg; by right|]. intros i Hi.
    rewrite Z.land_spec, (urange_testbit_high 32 FL_ALL) by done. by rewrite andb_false_r.
  - apply urange_bits; [lia|apply Z.land_nonneg; left; apply Hr|]. intros i Hi.
    by rewrite Z.land_spec, (urange_testbit_high 32 fl) by done.
Qed.

Lemma upd_flags_run f m : upd_flags f m = Ok tt (upd_m (with_flags (f (c_flags (m_c m)))) m).
Proof. done. Qed.

Lemma carry_in_run m : carry_in m = Ok (bz (CF (c_flags (m_c m)))) m.
Proof.
  unfold carry_in, get_c, gets, mbind, M_bind, mret, M_ret, CF. do 2 f_equal.
  change F_CF with (1 << 0). by rewrite nz_land_bit.
Qed.

Lemma alu_run k a b size m :
  opsize size -> 0 <= k < 8 -> trunc_sz a size = a -> trunc_sz b size = b ->
  urange 32 (c_flags (m_c m)) ->
  let cf := bz (CF (c_flags (m_c m))) in
  exists fl', alu k a b size m =
    Ok (if k =? 7 then None else Some (if is_one_of k [1; 4; 6] then alu_value k a b cf else u64 (alu_value k a b cf)))
      (upd_m (with_flags fl') m) /\
    urange 32 fl' /\ alu_flags k size (c_flags (m_c m)) fl' a b cf.
Proof.
  intros Hs Hk Ha Hb Hfl cf. set (fl := c_flags (m_c m)) in *.
  assert (Hcf : cf = 0 \/ cf = 1) by (subst cf; destruct (CF fl); [by right|by left]).
  pose proof (flags_add_arith fl a b size Hs) as Hadd. pose proof (flags_sub_arith fl a b size Hs) as Hsub.
  pose proof (flags_adc_spec fl a b cf size Hs Hcf) as Hadc.
  pose proof (flags_sbb_spec fl a b cf size Hs Hcf) as Hsbb.
  rewrite Ha, Hb in Hadd, Hsub, Hadc, Hsbb. unfold alu.
  assert (k = 0 \/ k = 1 \/ k = 2 \/ k = 3 \/ k = 4 \/ k = 5 \/ k = 6 \/ k = 7) as Hc by lia.
  destruct Hc as [->|[->|[->|[->|[->|[->|[->| ->]]]]]]]; cbn [Z.eqb Pos.eqb is_one_of existsb orb];
    unfold alu_flags; cbn [Z.eqb Pos.eqb is_one_of existsb orb alu_value].
  all: unfold mbind, M_bind; rewrite ?carry_in_run, ?upd_flags_run; eexists; (split; [reflexivity|]);
    fold fl cf; (split; [|first [exact Hadd|exact Hsub|exact Hadc|exact Hsbb|by apply flags_logic_spec]]).
  all: apply (frame_range fl); [done|]; first [apply Hadd|apply Hsub|apply Hadc|apply Hsbb|by apply flags_logic_spec].
Qed.

Lemma bind_run {A B} (c : M A) (k : A -> M B) m a m1 : c m = Ok a m1 -> (c ≫= k) m = k a m1.
Proof. unfold mbind, M_bind. by intros ->. Qed.

(** REX bytes by their four bits. *)
Definition rex_byte (w r x b : Z) : Z := 0x40 + w * 8 + r * 4 + x * 2 + b.

Definition bit (z : Z) : Prop := z = 0 \/ z = 1.

Lemma rex_byte_fields w r x b :
  bit w -> bit r -> bit x -> bit b ->
  let v := rex_byte w r x b in
  v .& 0xF0 = 0x40 /\ nz (v .& 8) = nz w /\ nz (v .& 4) = nz r /\ nz (v .& 2) = nz x /\ nz (v .& 1) = nz b /\
  forall c d, prefix c v d = None.
Proof. by intros [->| ->] [->| ->] [->| ->] [->| ->]. Qed.

Lemma host_read1 m p b : code_at m p [b] -> host_read p 1 m = Ok b m.
Proof.
  intros Hc. apply host_read_ok. split; [done|]. exists [b]. split; [done|]. cbn. lia.
Qed.

(** The decoder behind a REX prefix and no other. *)
Definition rex_dec (rip v : Z) (wide : bool) : dec :=
  Dec (rip + 1) rip rip v true (if wide then Size8 else Size4) false 0 0.

(** An instruction that starts with a REX prefix. *)
Lemma exec_rex rip m w r x b op bs :
  bit w -> bit r -> bit x -> bit b -> code_at m rip (rex_byte w r x b :: op :: bs) ->
  exec_insn rip m =
  exec_op (with_p (rip + 2) (rex_dec rip (rex_byte w r x b) (nz w))) op (upd_m (with_cur_rip rip) m) /\
  code_at (upd_m (with_cur_rip rip) m) (rip + 2) bs.
Proof.
  intros Hw Hr Hx Hb [Hc [Ho Hrest]%code_at_cons]%code_at_cons.
  destruct (rex_byte_fields w r x b Hw Hr Hx Hb) as (Hf0 & Hf8 & _ & _ & _ & Hp).
  set (m0 := upd_m (with_cur_rip rip) m).
  split; [|by replace (rip + 2) with (rip + 1 + 1) by lia].
  assert (Hpre : forall n, prefixes (S n) (start_dec rip) m0 = Ok (start_dec rip) m0).
  { intros n. cbn [prefixes]. rewrite (bind_run _ _ _ _ _ (host_read1 m0 _ _ Hc)).
    erewrite bind_run by reflexivity. by rewrite Hp. }
  assert (Hrex : rex_prefix (start_dec rip) m0 = Ok (rex_dec rip (rex_byte w r x b) (nz w)) m0).
  { unfold rex_prefix. rewrite (bind_run _ _ _ _ _ (host_read1 m0 _ _ Hc)), Hf0. cbn [Z.eqb Pos.eqb].
    rewrite Hf8. by destruct (nz w). }
  unfold exec_insn. rewrite (bind_run _ _ m tt m0), (bind_run _ _ m0 (prefix_fuel m0) m0) by done. unfold prefix_fuel.
  rewrite (bind_run _ _ _ _ _ (Hpre _)), (bind_run _ _ _ _ _ Hrex).
  erewrite bind_run by (apply fetch8_run; exact Ho). cbv beta iota.
  unfold with_p, rex_dec. cbn [d_p d_p0 d_rip0 d_rex d_has_rex d_osize d_addr32 d_seg_base d_mand].
  by replace (rip + 1 + 1) with (rip + 2) by lia.
Qed.

Lemma exec_op_alu k d : 0 <= k < 8 -> exec_op d (8 * k + 1) = op_alu_rm d (8 * k + 1).
Proof.
  intros Hk. assert (k = 0 \/ k = 1 \/ k = 2 \/ k = 3 \/ k = 4 \/ k = 5 \/ k = 6 \/ k = 7) as Hc by lia.
  by destruct Hc as [->|[->|[->|[->|[->|[->|[->| ->]]]]]]].
Qed.

Lemma half_bit r : reg_num r -> bit (r / 8) /\ (if nz (r / 8) then 8 else 0) = r / 8 * 8.
Proof.
  intros Hr. assert (r / 8 = 0 \/ r / 8 = 1) as [He|He] by (unfold reg_num in Hr; zdm); rewrite He;
    (split; [|done]); [by left|by right].
Qed.

(** [rd] and [wr] of a register operand of 4 or 8 bytes. *)
Lemma rd_reg r size rex m : size = 4 \/ size = 8 -> rd (reg_opnd r) size rex m = Ok (trunc_sz (reg m r) size) m.
Proof. by intros [->| ->]. Qed.

Lemma wr_reg r v size rex m :
  size = 4 \/ size = 8 -> regs_ok m -> reg_num r ->
  wr (reg_opnd r) v size rex m = Ok tt (set_reg r (trunc_sz v size) m).
Proof.
  intros Hs Hm Hr. unfold wr. cbn [is_reg reg_opnd o_reg].
  rewrite (proj2 (Z.eqb_neq size 1)) by lia.
  rewrite setreg_run by (done || unfold opsize; lia). unfold merged.
  pose proof (reg_range m r Hm Hr) as Ho. destruct Hs as [->| ->]; cbn [Z.eqb Pos.eqb]; [done|].
  cbn [Z.mul Pos.mul]. by rewrite Z.div_small.
Qed.

Lemma alu_opcode k : 0 <= k < 8 ->
  nz ((8 * k + 1) .& 1) = true /\ nz ((8 * k + 1) .& 2) = false /\ (8 * k + 1 <? 0x40) = true /\ (8 * k + 1) >> 3 = k.
Proof.
  intros Hk. assert (k = 0 \/ k = 1 \/ k = 2 \/ k = 3 \/ k = 4 \/ k = 5 \/ k = 6 \/ k = 7) as Hc by lia.
  by destruct Hc as [->|[->|[->|[->|[->|[->|[->| ->]]]]]]].
Qed.

(** The body of such an instruction, its operands decoded. *)
Lemma op_alu_rm_run k g r d d1 m :
  regs_ok m -> urange 32 (c_flags (m_c m)) -> 0 <= k < 8 -> reg_num r ->
  d_opsize d = 4 \/ d_opsize d = 8 -> d_opsize d1 = d_opsize d ->
  modrm d m = Ok (g, reg_opnd r, d1) m ->
  let size := d_opsize d in
  let a := trunc_sz (reg m r) size in let b := trunc_sz (reg m g) size in
  let cf := bz (CF (c_flags (m_c m))) in
  exists fl', urange 32 fl' /\ alu_flags k size (c_flags (m_c m)) fl' a b cf /\
    op_alu_rm d (8 * k + 1) m =
    Ok tt (let m1 := upd_m (with_flags fl') (upd_m (with_rip (dec_rip d1)) m) in
           if k =? 7 then m1 else set_reg r (uwrap (size * 8) (alu_value k a b cf)) m1).
Proof.
  intros Hm Hfl Hk Hr Hs Hd1 Hmod size a b cf.
  assert (Hop : opsize size) by (unfold opsize; subst size; lia). pose proof (opsize_width _ Hop).
  set (m1 := upd_m (with_rip (dec_rip d1)) m).
  destruct (alu_run k a b size m1 Hop Hk) as (fl' & Hrun & Hfr & Hflags);
    [by apply trunc_sz_idemp|by apply trunc_sz_idemp|done|].
  exists fl'. split; [done|]. split; [done|].
  destruct (alu_opcode k Hk) as (E1 & E2 & E3 & E4).
  assert (Hadv : modrm_advance d m = Ok (g, reg_opnd r, d1) m1).
  { unfold modrm_advance. by rewrite (bind_run _ _ _ _ _ Hmod). }
  unfold op_alu_rm. rewrite E1, E2, E3, E4. cbn [negb andb]. fold size.
  rewrite (bind_run _ _ _ _ _ Hadv). cbv zeta.
  rewrite (bind_run _ _ _ _ _ (rd_reg r size _ m1 Hs)), (bind_run _ _ _ _ _ (rd_reg g size _ m1 Hs)).
  change (reg m1 r) with (reg m r). change (reg m1 g) with (reg m g). fold a b.
  rewrite (bind_run _ _ _ _ _ Hrun). destruct (Z.eqb_spec k 7) as [->|Hk7]; [done|].
  cbn [store_result]. rewrite wr_reg by (done || exact Hm). do 2 f_equal.
  change (c_flags (m_c m1)) with (c_flags (m_c m)). fold cf. rewrite trunc_sz_uwrap by done.
  destruct (is_one_of k [1; 4; 6]); [done|]. apply uwrap_le. lia.
Qed.

Lemma upd_same_r m : upd_m (with_r (c_r (m_c m))) m = m.
Proof. by destruct m as [[] ? ? ? ?]. Qed.

Lemma upd_rip_same f p p' q m :
  u64 p = u64 p' ->
  upd_m (with_flags f) (upd_m (with_rip p) (upd_m (with_cur_rip q) m)) =
  upd_m (fun c => with_flags f (with_rip p' (with_cur_rip q c))) m.
Proof. intros Hp. unfold upd_m, with_rip. cbn. by rewrite Hp. Qed.

(** C6.  ALU instructions between registers, decoded and executed from their
    bytes.  For each of add, or, adc, sbb, and, sub, xor and cmp, every pair of
    registers and both widths with a REX prefix, the instruction leaves the
    operation's value in the destination (cmp none) zero extended, its flags,
    the instruction pointer behind its three bytes, the address of the
    instruction in cur_rip, and everything else of the machine as it was: the
    last equation rebuilds it from the old one with these fields set. *)
Theorem alu_rex_registers k g r (wide : bool) rip m :
  regs_ok m -> urange 32 (c_flags (m_c m)) -> 0 <= k < 8 -> reg_num g -> reg_num r ->
  code_at m rip [rex_byte (bz wide) (g / 8) 0 (r / 8); 8 * k + 1; modrm_byte 3 g r] ->
  let size := if wide then 8 else 4 in
  let a := trunc_sz (reg m r) size in let b := trunc_sz (reg m g) size in
  let cf := bz (CF (c_flags (m_c m))) in
  exists m', exec_insn rip m = Ok tt m' /\
    (forall j, reg_num j ->
       reg m' j = if (j =? r) && negb (k =? 7) then uwrap (size * 8) (alu_value k a b cf) else reg m j) /\
    alu_flags k size (c_flags (m_c m)) (c_flags (m_c m')) a b cf /\
    c_rip (m_c m') = u64 (rip + 3) /\ mem_of m' = mem_of m /\ m_as m' = m_as m /\
    m' = upd_m (fun c => with_r (c_r (m_c m')) (with_flags (c_flags (m_c m'))
                           (with_rip (rip + 3) (with_cur_rip rip c)))) m.
Proof.
  intros Hm Hfl Hk Hg Hr Hc size a b cf.
  destruct (half_bit g Hg) as [Hgb Hg8]. destruct (half_bit r Hr) as [Hrb Hr8].
  assert (Hwb : bit (bz wide)) by (destruct wide; [by right|by left]).
  assert (Hs : size = 4 \/ size = 8) by (subst size; destruct wide; auto).
  assert (Hop : opsize size) by (unfold opsize; lia).
  destruct (exec_rex rip m _ _ _ _ _ _ Hwb Hgb (or_introl eq_refl) Hrb Hc) as [-> Hc'].
  destruct (rex_byte_fields _ _ _ _ Hwb Hgb (or_introl eq_refl : bit 0) Hrb) as (_ & _ & H4 & _ & H1 & _).
  set (rex := rex_byte _ _ _ _) in *. set (d := with_p (rip + 2) (rex_dec rip rex (nz (bz wide)))).
  set (m0 := upd_m (with_cur_rip rip) m) in *. rewrite exec_op_alu by done.
  assert (Hmod : modrm d m0 = Ok (g, reg_opnd r, with_p (rip + 3) d) m0).
  { rewrite (modrm_start 3 g r d m0); [|lia|done| |exact Hc'].
    - cbn [Z.eqb Pos.eqb]. change (rex_b (with_p (d_p d + 1) d)) with (rex_b d). unfold rex_b.
      change (d_rex d) with rex. rewrite H1, Hr8, reg_halves by done.
      change (d_p d + 1) with (rip + 2 + 1). by replace (rip + 2 + 1) with (rip + 3) by lia.
    - unfold rex_r. change (d_rex d) with rex. by rewrite H4. }
  assert (Hd : d_opsize d = size) by (subst d size; by destruct wide).
  destruct (op_alu_rm_run k g r d (with_p (rip + 3) d) m0) as (fl' & Hfr & Hflags & ->);
    [exact Hm|exact Hfl|done|done|by rewrite Hd|done|exact Hmod|].
  rewrite Hd in *. eexists. split; [reflexivity|]. fold size a b cf in Hflags |- *.
  set (m1 := upd_m (with_flags fl') _).
  assert (Hm1 : regs_ok m1) by exact Hm.
  assert (Hrip : c_rip (m_c m1) = u64 (rip + 3)).
  { change (u64 (u64 (rip + (rip + 3 - rip))) = u64 (rip + 3)). rewrite uwrap_uwrap by lia. f_equal. lia. }
  assert (Hf1 : c_flags (m_c m1) = fl') by (by apply uwrap_small).
  assert (He : m1 = upd_m (fun c => with_flags fl' (with_rip (rip + 3) (with_cur_rip rip c))) m).
  { by apply upd_rip_same. }
  clearbody m1. destruct (Z.eqb_spec k 7) as [->|Hk7]; cbn [negb].
  - rewrite Hf1. split; [intros j _; rewrite andb_false_r; by subst m1|]. do 4 (split; [by subst m1|]).
    rewrite <- (upd_same_r m1) at 1. by rewrite He.
  - split; [|split; [by rewrite <- Hf1 in Hflags|]].
    + intros j Hj. rewrite reg_set by (done || apply Hj). rewrite andb_true_r; by subst m1.
    + do 3 (split; [by subst m1|]). change (c_flags (m_c (set_reg r _ m1))) with (c_flags (m_c m1)).
      rewrite Hf1. unfold set_reg at 1. by rewrite He.
Qed.
End alu.

(* ------------------------------------------------------------------ *)
(** ** Concrete instructions *)

#[local] Existing Instance sample_host.

(** [rbx + rcx * 4 - 0x20], with a reg field of rdx. *)
Lemma modrm_decodes_witness :
  let m := set_reg RBX 0x1000 (set_reg RCX 0x10 (sample_guest [0x54; 0x8B; 0xE0])) in
  exists o, modrm (start_dec 0x10000) m = Ok (2, o, with_p 0x10003 (start_dec 0x10000)) m /\
    o_addr (fixup_rip (start_dec 0x10003) o) = 0x1020.
Proof.
  intros m. destruct (modrm_decodes 1 2 (AMem (Some 3) (Some (1, 2)) (- 0x20)) (start_dec 0x10000) m)
    as (o & Ho & Hn).
  - do 2 (apply set_reg_ok; [|done]). apply regs_ok_wf, reset_cpu_wf.
  - done.
  - cbn. unfold reg_num, signed. lia.
  - done.
  - vm_compute. reflexivity.
  - exists o. split; [exact Ho|]. destruct (Hn (start_dec 0x10003)) as (_ & -> & _). reflexivity.
Defined.

(** add rbx, r9 *)
Lemma alu_rex_registers_witness :
  let m := set_reg RBX 0xffffffffffffffff (set_reg R9 2 (sample_guest [0x4C; 0x01; 0xCB])) in
  exists m', exec_insn (H0 := Build_HostFloat id id) 0x10000 m = Ok tt m' /\ reg m' RBX = 1 /\
    CF (c_flags (m_c m')) = true.
Proof.
  intros m.
  destruct (alu_rex_registers (H0 := Build_HostFloat id id) 0 9 3 true 0x10000 m) as (m' & Hm & Hr & Hf & _);
    [do 2 (apply set_reg_ok; [|done]); apply regs_ok_wf, reset_cpu_wf|by change (urange 32 0x202)
    |done|done|done|vm_compute; reflexivity|].
  exists m'. split; [exact Hm|]. split; [rewrite (Hr RBX) by done; vm_compute; reflexivity|].
  destruct Hf as [-> _]. reflexivity.
Defined.
