(* ===== verification/Lanes.v ===== *)
(** The lanes of an XMM register ([rsd_xmm] and the packed integer and bitwise
    cases of [sse_exec] in [src/cpu.c]): what building, replacing, shuffling,
    interleaving and comparing lanes does to each of them, and from there what
    the instructions do, executed from their bytes. *)
From S2P Require Import Prelude.
From S2P Require Import Memory.
From S2P Require Import AddressSpace.
From S2P Require Import SampleHost.
From S2P Require Import Flags.
From S2P Require Import Float.
From S2P Require Import Machine.
From S2P Require Import Access.
From S2P Require Import Decode.
From S2P Require Import Native.
From S2P Require Import Sse.
From S2P Require Import Step.
From S2P Require Import Keeps.
From S2P Require Import Safety.
From S2P Require Import Registers.
From S2P Require Import Encoding.

(* ------------------------------------------------------------------ *)
(** ** Lanes *)

Lemma lane_testbit w i x k :
  0 <= w -> 0 <= i -> 0 <= k -> Z.testbit (lane w i x) k = bool_decide (k < w) && Z.testbit x (k + w * i).
Proof. intros Hw Hi Hk. unfold lane. rewrite uwrap_testbit, Z.shiftr_spec by lia. done. Qed.

Lemma lane_range w i x : 0 <= w -> urange w (lane w i x).
Proof. intros Hw. by apply uwrap_range. Qed.

(** A lane of a register built from lanes is that lane. *)
Lemma lane_of_lanes w l i :
  0 < w -> (i < length l)%nat -> lane w (Z.of_nat i) (of_lanes w l) = uwrap w (l !!! i).
Proof.
  intros Hw. revert i. induction l as [|v l IH]; intros [|i] Hi; cbn [length] in Hi; [lia..| |].
  - apply Z.bits_inj'. intros k Hk. rewrite lane_testbit, uwrap_testbit by lia. cbn [of_lanes].
    rewrite Z.lor_spec, uwrap_testbit, Z.shiftl_spec by lia.
    destruct (decide (k < w)) as [Hl|Hl]; [|by rewrite bool_decide_false by done].
    rewrite !bool_decide_true by lia. rewrite Z.mul_0_r, Z.add_0_r. cbn.
    rewrite (Z.testbit_neg_r _ (k - w)) by lia. by rewrite orb_false_r.
  - change ((v :: l) !!! S i) with (l !!! i). rewrite <- (IH i) by lia. apply Z.bits_inj'. intros k Hk. rewrite !lane_testbit by lia. f_equal. cbn [of_lanes].
    rewrite Z.lor_spec, uwrap_testbit, Z.shiftl_spec by lia.
    rewrite bool_decide_false by nia. cbn [andb orb]. f_equal. lia.
Qed.

(** A register computed lane by lane from two. *)
Lemma lane_map2 w f a b i :
  0 < w -> 0 <= i < 128 / w -> urange w (f (lane w i a) (lane w i b)) ->
  lane w i (map2_lanes w f a b) = f (lane w i a) (lane w i b).
Proof.
  intros Hw Hi Hf. unfold map2_lanes. rewrite <- (Z2Nat.id i) in * by lia.
  set (n := Z.to_nat i) in *. clearbody n. clear i. rename n into i.
  assert (Hl : forall x, length (lanes w x) = Z.to_nat (128 / w)) by (intros x; unfold lanes; by rewrite length_fmap, length_seq).
  assert (He : forall x, lanes w x !! i = Some (lane w (Z.of_nat i) x)).
  { intros x. unfold lanes. rewrite list_lookup_fmap, lookup_seq_lt by lia. done. }
  rewrite lane_of_lanes by (rewrite ?length_zip_with, ?Hl; lia).
  rewrite (list_lookup_total_correct _ _ (f (lane w (Z.of_nat i) a) (lane w (Z.of_nat i) b))).
  - by apply uwrap_small.
  - rewrite lookup_zip_with, !He. done.
Qed.

(** Bit [i] of the mask is the sign of byte [i]. *)
Lemma movemask_testbit x n k :
  0 <= k ->
  Z.testbit (foldr (fun i acc => (if nz (lane 8 (Z.of_nat i) x .& 0x80) then 1 << Z.of_nat i else 0) .| acc) 0 (seq 0 n)) k
  = bool_decide (k < Z.of_nat n) && Z.testbit x (8 * k + 7).
Proof.
  intros Hk. set (g := fun i acc => _).
  assert (Hg : forall l, Z.testbit (foldr g 0 l) k =
    existsb (fun i => (Z.of_nat i =? k) && Z.testbit x (8 * Z.of_nat i + 7)) l).
  { induction l as [|i l IH]; cbn [foldr existsb]; [by rewrite Z.bits_0|]. unfold g at 1.
    rewrite Z.lor_spec, IH. f_equal. change 0x80 with (1 << 7). rewrite nz_land_bit by lia.
    rewrite lane_testbit by lia. cbn [bool_decide]. change (bool_decide (7 < 8)) with true. cbn [andb].
    rewrite (Z.add_comm 7). destruct (Z.testbit x _); [|by rewrite Z.bits_0, andb_false_r].
    rewrite andb_true_r. rewrite Z.shiftl_1_l, Z.pow2_bits_eqb by lia. done. }
  rewrite Hg. destruct (decide (k < Z.of_nat n)) as [Hl|Hl].
  - rewrite bool_decide_true by done. cbn [andb]. destruct (Z.testbit x (8 * k + 7)) eqn:Ex.
    + apply existsb_exists. exists (Z.to_nat k). split; [apply in_seq; lia|]. rewrite Z2Nat.id, Z.eqb_refl by done. done.
    + apply not_true_iff_false. intros (i & _ & [Hi%Z.eqb_eq Hb]%andb_true_iff)%existsb_exists. subst k. congruence.
  - rewrite bool_decide_false by done. apply not_true_iff_false.
    intros (i & Hi%in_seq & [He%Z.eqb_eq _]%andb_true_iff)%existsb_exists. lia.
Qed.

(** Truncating a register to its 128 bits changes none of its lanes. *)
Lemma lane_u128 w i x : 0 <= w -> 0 <= i -> w * i + w <= 128 -> lane w i (uwrap 128 x) = lane w i x.
Proof.
  intros Hw Hi Hb. apply Z.bits_inj'. intros k Hk. rewrite !lane_testbit, uwrap_testbit by lia.
  destruct (decide (k < w)) as [Hl|Hl]; [|by rewrite !bool_decide_false by done].
  by rewrite !bool_decide_true by lia.
Qed.

Lemma lane_lane w i x : 0 <= w -> uwrap w (lane w i x) = lane w i x.
Proof. intros Hw. by apply uwrap_small, lane_range. Qed.

(** One case per element of a list. *)
Ltac elem_cases H :=
  repeat match type of H with
         | _ ∈ _ :: _ => apply elem_of_cons in H as [H|H]; [subst; try discriminate|]
         | _ ∈ [] => by apply elem_of_nil in H
         end.

(** A register computed bit by bit. *)
Lemma bits_map2 f g a b k :
  (forall x y, urange 64 x -> urange 64 y -> urange 64 (f x y)) ->
  (forall x y i, urange 64 x -> urange 64 y -> 0 <= i < 64 ->
     Z.testbit (f x y) i = g (Z.testbit x i) (Z.testbit y i)) ->
  0 <= k < 128 -> Z.testbit (map2_lanes 64 f a b) k = g (Z.testbit a k) (Z.testbit b k).
Proof.
  intros Hf Hg Hk.
  assert (He : forall x, Z.testbit x k = Z.testbit (lane 64 (k / 64) x) (k mod 64)).
  { intros x. rewrite lane_testbit by zdm. rewrite bool_decide_true by zdm. cbn [andb]. f_equal. zdm. }
  rewrite He, (He a), (He b).
  rewrite lane_map2 by first [lia | (change (128 / 64) with 2; zdm) | apply Hf; apply lane_range; lia].
  apply Hg; [apply lane_range; lia..|zdm].
Qed.

Lemma bitwise_lane_range op x y : urange 64 x -> urange 64 y -> urange 64 (bitwise_lane op x y).
Proof.
  intros Hx Hy. pose proof (uwrap_range 64 (.~ x)) as Hn. unfold bitwise_lane.
  repeat case_match; [apply urange_land|apply urange_land|apply urange_lor|apply urange_lxor]; try done;
    [apply Hy|by apply Hn|apply Hy].
Qed.

(** The boolean operation of a bitwise instruction. *)
Definition bitwise_bit (op : Z) (p q : bool) : bool :=
  if is_one_of op [0x54; 0xDB] then p && q
  else if op =? 0x55 then negb p && q
  else if is_one_of op [0x56; 0xEB] then p || q
  else xorb p q.

Lemma bitwise_lane_testbit op x y i :
  urange 64 x -> urange 64 y -> 0 <= i < 64 ->
  Z.testbit (bitwise_lane op x y) i = bitwise_bit op (Z.testbit x i) (Z.testbit y i).
Proof.
  intros Hx Hy Hi. unfold bitwise_lane, bitwise_bit.
  destruct (is_one_of op [0x54; 0xDB]); [by rewrite Z.land_spec|].
  destruct (op =? 0x55).
  { rewrite Z.land_spec, uwrap_testbit, Z.lnot_spec by lia. by rewrite bool_decide_true by lia. }
  destruct (is_one_of op [0x56; 0xEB]); [by rewrite Z.lor_spec|by rewrite Z.lxor_spec].
Qed.

Lemma eq_mask_range w x y : 0 < w -> urange w (eq_mask w x y).
Proof.
  intros Hw. unfold eq_mask, urange. rewrite Z.ones_equiv.
  assert (0 < 2 ^ w) by (apply Z.pow_pos_nonneg; lia). destruct (x =? y); lia.
Qed.

(* ------------------------------------------------------------------ *)
(** ** What the instructions compute *)

(** The opcodes behind 0F, those that exist without an operand-size prefix
    and those that need one. *)
Definition packed_form (p66 : bool) (op : Z) : Prop :=
  op ∈ [0x14; 0x15; 0x54; 0x55; 0x56; 0x57] \/
  p66 = true /\ op ∈ [0x6C; 0x6D; 0x70; 0x74; 0x76; 0xDB; 0xEB; 0xEF].

(** Each lane (or bit) of the result [x] on a destination holding [a] and a
    source holding [b]: a shuffle takes doublewords from where the immediate
    says, a packed comparison fills equal lanes with ones and clears the
    others, an interleave alternates the low or high halves of its operands,
    and the rest work bit by bit. *)
Definition packed_spec (p66 : bool) (op imm a b x : Z) : Prop :=
  if op =? 0x70 then
    forall i, 0 <= i < 4 -> lane 32 i x = lane 32 ((imm / 4 ^ i) mod 4) b
  else if is_one_of op [0x74; 0x76] then
    let w := if op =? 0x74 then 8 else 32 in
    forall i, 0 <= i < 128 / w -> lane w i x = if lane w i a =? lane w i b then 2 ^ w - 1 else 0
  else if is_one_of op [0x14; 0x15; 0x6C; 0x6D] then
    let w := if p66 then 64 else 32 in
    let half := if Z.odd op then 64 / w else 0 in
    forall i, 0 <= i < 64 / w ->
      lane w (2 * i) x = lane w (half + i) a /\ lane w (2 * i + 1) x = lane w (half + i) b
  else forall k, 0 <= k < 128 -> Z.testbit x k = bitwise_bit op (Z.testbit a k) (Z.testbit b k).

(** The value [sse_exec] stores. *)
Definition packed_value (p66 : bool) (op imm a b : Z) : Z :=
  if op =? 0x70 then shuffle imm b
  else if is_one_of op [0x74; 0x76] then
    let w := if op =? 0x74 then 8 else 32 in map2_lanes w (eq_mask w) a b
  else if is_one_of op [0x14; 0x15; 0x6C; 0x6D] then interleave (is_one_of op [0x15; 0x6D]) p66 a b
  else map2_lanes 64 (bitwise_lane op) a b.

Lemma shuffle_lane imm b i : 0 <= i < 4 -> lane 32 i (shuffle imm b) = lane 32 ((imm / 4 ^ i) mod 4) b.
Proof.
  intros Hi. unfold shuffle. rewrite <- (Z2Nat.id i) at 1 by lia.
  rewrite lane_of_lanes by (rewrite ?length_fmap, ?length_seq; lia).
  rewrite (list_lookup_total_correct _ _ (lane 32 ((imm >> (2 * i)) .& 3) b)).
  - rewrite lane_lane by lia. f_equal. change 3 with (Z.ones 2). rewrite land_ones_uwrap by lia.
    rewrite Z.shiftr_div_pow2, Z.pow_mul_r by lia. done.
  - rewrite list_lookup_fmap, lookup_seq_lt by lia. cbn. by rewrite Z2Nat.id by lia.
Qed.

Lemma interleave_lane (high p66 : bool) a b i :
  let w := if p66 then 64 else 32 in let half := if high then 64 / w else 0 in
  0 <= i < 64 / w ->
  lane w (2 * i) (interleave high p66 a b) = lane w (half + i) a /\
  lane w (2 * i + 1) (interleave high p66 a b) = lane w (half + i) b.
Proof.
  intros w half Hi. subst w half. unfold interleave.
  assert (HL : forall v l n, v = Z.of_nat n -> (n < length l)%nat -> forall w, 0 < w ->
            lane w v (of_lanes w l) = uwrap w (l !!! n)) by (intros ? ? ? -> ? ? ?; by apply lane_of_lanes).
  destruct p66; cbn [Z.div] in Hi.
  - change (64 / 64) with 1 in *. assert (i = 0) as -> by lia.
    destruct high; (rewrite (HL _ _ 0%nat), (HL _ _ 1%nat) by (done || cbn; lia));
      cbn; split; apply (lane_lane 64); lia.
  - change (64 / 32) with 2 in *. assert (i = 0 \/ i = 1) as [->| ->] by lia.
    + destruct high; (rewrite (HL _ _ 0%nat), (HL _ _ 1%nat) by (done || cbn; lia));
        cbn; split; apply (lane_lane 32); lia.
    + destruct high; (rewrite (HL _ _ 2%nat), (HL _ _ 3%nat) by (done || cbn; lia));
        cbn; split; apply (lane_lane 32); lia.
Qed.

Lemma packed_value_spec p66 op imm a b :
  packed_form p66 op -> packed_spec p66 op imm a b (uwrap 128 (packed_value p66 op imm a b)).
Proof.
  intros Hop. unfold packed_spec, packed_value. destruct (op =? 0x70) eqn:E70.
  { intros i Hi. rewrite lane_u128 by lia. by apply shuffle_lane. }
  destruct (is_one_of op [0x74; 0x76]) eqn:Ecmp.
  { cbv zeta. intros i Hi. set (w := if op =? 0x74 then 8 else 32) in *.
    assert (Hw : w = 8 \/ w = 32) by (subst w; destruct (op =? 0x74); auto).
    rewrite lane_u128 by (destruct Hw as [->| ->]; [change (128 / 8) with 16 in *|change (128 / 32) with 4 in *]; lia).
    rewrite lane_map2 by first [lia | done | apply eq_mask_range; lia].
    unfold eq_mask. rewrite Z.ones_equiv. by destruct (_ =? _). }
  destruct (is_one_of op [0x14; 0x15; 0x6C; 0x6D]) eqn:Eun.
  { intros i Hi. assert (Hodd : is_one_of op [0x15; 0x6D] = Z.odd op).
    { destruct Hop as [Hop|[_ Hop]]; by elem_cases Hop. }
    rewrite Hodd. rewrite !lane_u128 by (destruct p66; [change (64 / 64) with 1 in *|change (64 / 32) with 2 in *]; lia).
    by apply interleave_lane. }
  intros k Hk. rewrite uwrap_testbit by lia. rewrite bool_decide_true by lia. cbn [andb].
  apply bits_map2; [intros; by apply bitwise_lane_range|intros; by apply bitwise_lane_testbit|done].
Qed.

(* ------------------------------------------------------------------ *)
(** ** The instructions *)

Section packed.
Context `{HostOS} `{HostFloat}.

Definition xreg (m : machine) (r : Z) : Z := c_xmm (m_c m) !!! Z.to_nat r.

Definition set_xreg (r v : Z) (m : machine) : machine :=
  upd_m (fun c => with_xmm (<[Z.to_nat r := v]> (c_xmm c)) c) m.

Lemma with_rip_u64 p p' c : u64 p = u64 p' -> with_rip p c = with_rip p' c.
Proof. unfold with_rip. by intros ->. Qed.

(** The shape of every case with a register source: decode, read the source,
    then the destination, and store what [f] makes of both. *)
Lemma reg_form (f : dec -> Z -> Z -> Z) d m g r d1 m1 :
  modrm_advance d m = Ok (g, reg_opnd r, d1) m1 ->
  ('(reg, rm, d) ← modrm_advance d;
   b ← xrd rm;
   a ← getx reg;
   setx reg (f d a b);; mret (true, d)) m =
  Ok (true, d1) (set_xreg g (uwrap 128 (f d1 (xreg m1 g) (xreg m1 r))) m1).
Proof. intros Hm. by rewrite (bind_run _ _ _ _ _ Hm). Qed.

(** The immediate byte behind the operand. *)
Definition imm_bytes (op imm : Z) : list Z := if op =? 0x70 then [imm] else [].

Lemma modrm_regs g r d m bs :
  reg_num g -> reg_num r -> rex_r d = g / 8 * 8 -> rex_b d = r / 8 * 8 ->
  code_at m (d_p d) (modrm_byte 3 g r :: bs) ->
  modrm d m = Ok (g, reg_opnd r, with_p (d_p d + 1) d) m /\ code_at m (d_p d + 1) bs.
Proof.
  intros Hg Hr Hrr Hrb [Hc Hbs]%code_at_cons. split; [|done].
  rewrite (modrm_start 3 g r d m) by (done || lia). cbn [Z.eqb Pos.eqb].
  change (rex_b (with_p (d_p d + 1) d)) with (rex_b d). by rewrite Hrb, reg_halves.
Qed.

(** [sse_exec] on two registers. *)
Lemma packed_exec p66 op imm g r d m :
  packed_form p66 op -> reg_num g -> reg_num r -> d_mand d = (if p66 then 0x66 else 0) ->
  rex_r d = g / 8 * 8 -> rex_b d = r / 8 * 8 ->
  code_at m (d_p d) (modrm_byte 3 g r :: imm_bytes op imm) ->
  let d' := with_p (d_p d + 1 + Z.of_nat (length (imm_bytes op imm))) d in
  sse_exec d op m =
  Ok (true, d') (set_xreg g (uwrap 128 (packed_value p66 op imm (xreg m g) (xreg m r)))
                   (upd_m (with_rip (dec_rip d')) m)).
Proof.
  intros Hop Hg Hr Hd Hrr Hrb Hc. destruct (modrm_regs g r d m _ Hg Hr Hrr Hrb Hc) as [Hmod Hi].
  destruct (decide (op = 0x70)) as [->|Hn].
  - destruct Hop as [Hop|[-> _]]; [by elem_cases Hop|].
    change (sse_exec d 0x70) with (sse_pshufd d). unfold sse_pshufd. rewrite Hd. cbn [negb Z.eqb Pos.eqb].
    unfold modrm_imm8_advance. change (imm_bytes 0x70 imm) with [imm] in *.
    rewrite (bind_run _ _ m (g, reg_opnd r, imm, with_p (d_p d + 1 + 1) d) (upd_m (with_rip (dec_rip (with_p (d_p d + 1 + 1) d))) m)); [done|].
    rewrite (bind_run _ _ _ _ _ Hmod). by rewrite (bind_run _ _ _ _ _ (fetch8_run (with_p (d_p d + 1) d) m imm Hi)).
  - assert (imm_bytes op imm = []) as -> by (unfold imm_bytes; by rewrite (proj2 (Z.eqb_neq op 0x70))).
    cbn [length Z.of_nat]. rewrite Z.add_0_r. set (d1 := with_p (d_p d + 1) d) in *.
    assert (Hadv : modrm_advance d m = Ok (g, reg_opnd r, d1) (upd_m (with_rip (dec_rip d1)) m)).
    { unfold modrm_advance. by rewrite (bind_run _ _ _ _ _ Hmod). }
    assert (Hd1 : d_mand d1 = (if p66 then 0x66 else 0)) by done. clearbody d1.
    destruct Hop as [Hop|[-> Hop]];
      elem_cases Hop; try done;
      unfold sse_exec, sse_unpck, sse_pcmpeq, sse_bitwise, scalar_mand; rewrite ?Hd;
      try destruct p66; cbn [is_one_of existsb orb andb negb Z.eqb Pos.eqb Z.leb Z.compare Pos.compare Pos.compare_cont];
      rewrite (reg_form _ _ _ _ _ _ _ Hadv); rewrite ?Hd1; done.
Qed.
(** The bytes of an instruction on two XMM registers. *)
Definition packed_bytes (p66 : bool) (op g r imm : Z) : list Z :=
  (if p66 then [0x66] else []) ++
  rex_byte 0 (g / 8) 0 (r / 8) :: 0x0F :: op :: modrm_byte 3 g r :: imm_bytes op imm.

(** The decoder behind the prefixes and both opcode bytes. *)
Definition packed_dec (rip : Z) (p66 : bool) (rex : Z) : dec :=
  let n := if p66 then 1 else 0 in
  Dec (rip + n + 3) rip rip rex true (if p66 then Size2 else Size4) false 0 (if p66 then 0x66 else 0).

Lemma exec_0f_bytes (p66 : bool) rip m w r x b op bs :
  bit w -> w = 0 -> bit r -> bit x -> bit b -> op <> 0x05 ->
  code_at m rip ((if p66 then [0x66] else []) ++ rex_byte w r x b :: 0x0F :: op :: bs) ->
  let m0 := upd_m (with_cur_rip rip) m in
  let d := packed_dec rip p66 (rex_byte w r x b) in
  exec_insn rip m = exec_0f_op d op m0 /\ code_at m0 (d_p d) bs.
Proof.
  intros Hw Hw0 Hr Hx Hb Hop Hc m0 d. destruct (rex_byte_fields w r x b Hw Hr Hx Hb) as (Hf0 & Hf8 & _ & _ & _ & Hp).
  set (rex := rex_byte w r x b) in *. rewrite Hw0 in Hf8.
  set (p := rip + (if p66 then 1 else 0)).
  set (d0 := Dec p rip rip 0 false (if p66 then Size2 else Size4) false 0 (if p66 then 0x66 else 0)).
  assert (Hcp : code_at m0 p (rex :: 0x0F :: op :: bs)).
  { subst p. destruct p66; [by apply code_at_cons in Hc as [_ Hc]|by rewrite Z.add_0_r]. }
  apply code_at_cons in Hcp as [Hrex [H0f [Hopc Hbs]%code_at_cons]%code_at_cons].
  assert (Hpre : prefixes (prefix_fuel m0) (start_dec rip) m0 = Ok d0 m0).
  { assert (Hstop : forall n, prefixes (S n) d0 m0 = Ok d0 m0).
    { intros n. cbn [prefixes]. rewrite (bind_run _ _ _ _ _ (host_read1 m0 p _ Hrex)).
      erewrite bind_run by reflexivity. by rewrite Hp. }
    unfold prefix_fuel. subst d0 p. destruct p66; [|rewrite Z.add_0_r in *; apply Hstop].
    apply code_at_cons in Hc as [H66 _].
    assert (Hsz : size (w_mem (m_w m0)) <> 0%nat).
    { apply (read_bytes_mapped _ _ _ _ rip) in H66 as [v Hv]; [|cbn; lia]. by eapply map_size_ne_0_lookup_2. }
    destruct (size (w_mem (m_w m0))) as [|k]; [done|].
    cbn [prefixes]. rewrite (bind_run _ _ _ _ _ (host_read1 m0 rip _ H66)).
    erewrite bind_run by reflexivity. apply Hstop. }
  assert (Hrx : rex_prefix d0 m0 = Ok (with_rex rex (with_p (p + 1) d0)) m0).
  { unfold rex_prefix. rewrite (bind_run _ _ _ _ _ (host_read1 m0 p _ Hrex)), Hf0. cbn [Z.eqb Pos.eqb].
    rewrite Hf8. by destruct p66. }
  split; [|replace (d_p d) with (p + 1 + 1 + 1) by (subst d p; cbn; lia); exact Hbs].
  unfold exec_insn. rewrite (bind_run _ _ m tt m0), (bind_run _ _ m0 (prefix_fuel m0) m0) by done.
  rewrite (bind_run _ _ _ _ _ Hpre), (bind_run _ _ _ _ _ Hrx).
  rewrite (bind_run _ _ _ _ _ (fetch8_run (with_rex rex (with_p (p + 1) d0)) m0 0x0F H0f)).
  change (exec_0f (with_p (p + 1 + 1) (with_rex rex (with_p (p + 1) d0))) m0 = exec_0f_op d op m0). unfold exec_0f.
  rewrite (bind_run _ _ _ _ _ (fetch8_run (with_p (p + 1 + 1) (with_rex rex (with_p (p + 1) d0))) m0 op Hopc)).
  rewrite (proj2 (Z.eqb_neq op 0x05)) by done. f_equal. subst d d0 p. unfold packed_dec, with_p, with_rex.
  cbn [d_p d_p0 d_rip0 d_rex d_has_rex d_osize d_addr32 d_seg_base d_mand].
  f_equal. lia.
Qed.

(** C31.  Packed integer and bitwise instructions between XMM registers, executed
    from their bytes: an optional operand-size prefix, a REX prefix, 0F, one
    of the opcodes of [packed_form], the register operands and, for the
    shuffle, its immediate.  The destination holds, lane by lane or bit by bit,
    what [packed_spec] says of the two operands; the instruction pointer is
    behind the bytes and cur_rip at them; nothing else of the machine has
    changed. *)
Theorem packed_instructions p66 op imm g r rip m :
  packed_form p66 op -> reg_num g -> reg_num r -> code_at m rip (packed_bytes p66 op g r imm) ->
  exists x, urange 128 x /\ packed_spec p66 op imm (xreg m g) (xreg m r) x /\
    exec_insn rip m =
    Ok tt (set_xreg g x (upd_m (with_rip (rip + Z.of_nat (length (packed_bytes p66 op g r imm))))
                           (upd_m (with_cur_rip rip) m))).
Proof.
  intros Hop Hg Hr Hc. destruct (half_bit g Hg) as [Hgb Hg8]. destruct (half_bit r Hr) as [Hrb Hr8].
  assert (Hn : op <> 0x05) by (intros ->; destruct Hop as [Hop|[_ Hop]]; elem_cases Hop).
  destruct (exec_0f_bytes p66 rip m 0 (g / 8) 0 (r / 8) op (modrm_byte 3 g r :: imm_bytes op imm)
    ltac:(by left) eq_refl Hgb ltac:(by left) Hrb Hn Hc) as [-> Hc'].
  destruct (rex_byte_fields 0 (g / 8) 0 (r / 8) ltac:(by left) Hgb ltac:(by left) Hrb) as (_ & _ & H4 & _ & H1 & _).
  set (m0 := upd_m (with_cur_rip rip) m) in *. set (d := packed_dec rip p66 _) in *.
  assert (Hrr : rex_r d = g / 8 * 8) by (unfold rex_r; change (d_rex d) with (rex_byte 0 (g / 8) 0 (r / 8)); by rewrite H4).
  assert (Hrb' : rex_b d = r / 8 * 8) by (unfold rex_b; change (d_rex d) with (rex_byte 0 (g / 8) 0 (r / 8)); by rewrite H1).
  pose proof (packed_exec p66 op imm g r d m0 Hop Hg Hr eq_refl Hrr Hrb' Hc') as He.
  exists (uwrap 128 (packed_value p66 op imm (xreg m g) (xreg m r))).
  split; [by apply uwrap_range|]. split; [by apply packed_value_spec|].
  unfold exec_0f_op. rewrite (bind_run _ _ _ _ _ He). unfold mret, M_ret. do 2 f_equal.
  unfold upd_m. cbn [m_c m_as m_w m_cb m_cm]. f_equal. apply with_rip_u64.
  unfold dec_rip, packed_bytes. subst d. cbn [d_p d_p0 d_rip0 with_p packed_dec].
  rewrite uwrap_uwrap by lia. f_equal. rewrite length_app. destruct p66; cbn [length]; lia.
Qed.
End packed.

(* ------------------------------------------------------------------ *)
(** ** A concrete instruction *)

#[local] Existing Instance sample_host.

(** pshufd xmm9, xmm1, 0x1B reverses the four doublewords. *)
Lemma packed_instructions_witness :
  let v := 0x00000004000000030000000200000001 in
  let m := set_xreg 1 v (sample_guest [0x66; 0x44; 0x0F; 0x70; 0xC9; 0x1B]) in
  exists m', exec_insn (H0 := Build_HostFloat id id) 0x10000 m = Ok tt m' /\ lane 32 0 (xreg m' 9) = 4.
Proof.
  intros v m.
  destruct (packed_instructions (H0 := Build_HostFloat id id) true 0x70 0x1B 9 1 0x10000 m) as (x & _ & Hx & He);
    [right; split; [done|set_solver]|done|done|vm_compute; reflexivity|].
  eexists. split; [exact He|]. transitivity (lane 32 0 x); [reflexivity|].
  rewrite (Hx 0) by lia. vm_compute. reflexivity.
Defined.
