(* ===== verification/Startup.v ===== *)
(** The initial stack ([rsd_cpu_init] in [src/cpu.c]): where the argument
    strings, the vectors and the first frame lie, and what they hold. *)
From S2P Require Import Prelude.
From S2P Require Import Memory.
From S2P Require Import AddressSpace.
From S2P Require Import SampleHost.
From S2P Require Import Flags.
From S2P Require Import Machine.
From S2P Require Import Access.
From S2P Require Import Decode.
From S2P Require Import Float.
From S2P Require Import Native.
From S2P Require Import Step.
From S2P Require Import CpuApi.
From S2P Require Import Keeps.
From S2P Require Import Safety.
From S2P Require Import Registers.
From S2P Require Import BlockCheck.
From S2P Require Import Encoding.

(* ------------------------------------------------------------------ *)
(** ** Words and strings in memory *)

Definition words (ws : list Z) : list Z := concat (le_bytes 8 <$> ws).

Lemma length_words ws : length (words ws) = (8 * length ws)%nat.
Proof. induction ws as [|w ws IH]; [done|]. unfold words in *. cbn -[le_bytes]. rewrite length_app, length_le_bytes. lia. Qed.

Definition mapped_in (mem : gmap Z Z) (lo hi : Z) : Prop := forall b, lo <= b < hi -> is_Some (mem !! b).

Lemma mapped_in_read mem lo hi a n :
  mapped_in mem lo hi -> lo <= a -> a + Z.of_nat n <= hi -> is_Some (read_bytes mem a n).
Proof. intros Hm Hl Hh. apply read_bytes_is_Some. intros i Hi. apply Hm. lia. Qed.

Lemma mapped_in_write mem lo hi a bs : mapped_in mem lo hi -> mapped_in (write_bytes mem a bs) lo hi.
Proof.
  intros Hm b Hb. rewrite write_bytes_lookup. case_decide; [|by apply Hm].
  apply lookup_lt_is_Some. lia.
Qed.

Lemma write_bytes_app mem a bs cs :
  write_bytes mem a (bs ++ cs) = write_bytes (write_bytes mem a bs) (a + Z.of_nat (length bs)) cs.
Proof.
  revert mem a. induction bs as [|b bs IH]; intros mem a; cbn [write_bytes app length].
  - by rewrite Z.add_0_r.
  - rewrite IH. f_equal. lia.
Qed.

(** The space the argument strings take, terminators included. *)
Fixpoint args_size (argv : list (list Z)) : Z :=
  match argv with
  | [] => 0
  | s :: argv => Z.of_nat (length s) + 1 + args_size argv
  end.

Lemma args_size_nonneg argv : 0 <= args_size argv.
Proof. induction argv; cbn; lia. Qed.

(** Each pointer is to its string, NUL included, inside [[lo, hi)]. *)
Definition strings_at (mem : gmap Z Z) (lo hi : Z) (ptrs : list Z) (argv : list (list Z)) : Prop :=
  Forall2 (fun p s => lo <= p /\ p + Z.of_nat (length s) + 1 <= hi /\
                      read_bytes mem p (length (s ++ [0])) = Some (s ++ [0])) ptrs argv.

Lemma strings_at_frame mem mem' lo hi ptrs argv :
  (forall b, lo <= b < hi -> mem' !! b = mem !! b) -> strings_at mem lo hi ptrs argv -> strings_at mem' lo hi ptrs argv.
Proof.
  intros Hf Hs. eapply Forall2_impl; [exact Hs|]. intros p s (H1 & H2 & H3). split; [done|]. split; [done|].
  rewrite <- H3. apply read_bytes_ext. rewrite length_app. cbn. intros i Hi. apply Hf. lia.
Qed.

Lemma strings_at_mono mem lo hi lo' hi' ptrs argv :
  lo' <= lo -> hi <= hi' -> strings_at mem lo hi ptrs argv -> strings_at mem lo' hi' ptrs argv.
Proof.
  intros Hl Hh Hs. eapply Forall2_impl; [exact Hs|]. intros p s (? & ? & ?). split; [lia|]. split; [lia|done].
Qed.

Section startup.
Context `{HostOS}.

Lemma store_words_run a ws m lo hi :
  mapped_in (mem_of m) lo hi -> lo <= a -> a + 8 * Z.of_nat (length ws) <= hi ->
  store_words a ws m = Ok tt (with_mem (write_bytes (mem_of m) a (words ws)) m).
Proof.
  revert a m. induction ws as [|w ws IH]; intros a m Hm Hl Hh; cbn [store_words length] in *.
  - by destruct m as [? ? [? ?] ? ?].
  - assert (Hw : host_write a 8 w m = Ok tt (with_mem (write_bytes (mem_of m) a (le_bytes 8 w)) m)).
    { apply host_store_ok. split; [done|]. eapply mapped_in_read; [done|lia|]. rewrite length_le_bytes. lia. }
    rewrite (bind_run _ _ _ _ _ Hw), IH; [|by apply mapped_in_write|lia|lia].
    unfold words. cbn [fmap list_fmap concat]. rewrite write_bytes_app, length_le_bytes. done.
Qed.

Lemma copy_args_run argv strp m lo hi :
  mapped_in (mem_of m) lo hi -> 0 <= lo -> strp <= hi -> hi < 2 ^ 64 -> lo + args_size argv <= strp ->
  exists ptrs mem', copy_args argv strp m = Ok (ptrs, strp - args_size argv) (with_mem mem' m) /\
    length ptrs = length argv /\ mapped_in mem' lo hi /\
    strings_at mem' (strp - args_size argv) strp ptrs argv /\
    (forall b, ~ strp - args_size argv <= b < strp -> mem' !! b = mem_of m !! b).
Proof.
  revert strp m. induction argv as [|s argv IH]; intros strp m Hm Hl Hs Hh Ha; cbn [copy_args args_size] in *.
  - exists [], (mem_of m). rewrite Z.sub_0_r. split; [by destruct m as [? ? [? ?] ? ?]|].
    split; [done|]. split; [done|]. by split; [constructor|].
  - pose proof (args_size_nonneg argv) as Hn. set (len := Z.of_nat (length s)) in *.
    set (p := strp - (len + 1)). assert (Hp : u64 p = p) by (apply uwrap_small; unfold urange; lia).
    set (mem1 := write_bytes (mem_of m) p (s ++ [0])).
    assert (Hlen : Z.of_nat (length (s ++ [0])) = len + 1) by (rewrite length_app; cbn; lia).
    assert (Hw : host_store p (s ++ [0]) m = Ok tt (with_mem mem1 m)).
    { apply host_store_ok. split; [done|]. eapply mapped_in_read; [done|lia|lia]. }
    destruct (IH p (with_mem mem1 m)) as (ptrs & mem' & Hr & Hlp & Hm' & Hst & Hf);
      [by apply mapped_in_write|lia..|].
    exists (p :: ptrs), mem'. rewrite Hp, (bind_run _ _ _ _ _ Hw), (bind_run _ _ _ _ _ Hr).
    replace (strp - (len + 1 + args_size argv)) with (p - args_size argv) by lia.
    split; [done|]. split; [cbn; lia|]. split; [done|]. split.
    + constructor; [|by eapply strings_at_mono; [..|exact Hst]; lia]. fold len. split; [lia|]. split; [lia|].
      rewrite <- (read_write_same (mem_of m) p (s ++ [0])). apply read_bytes_ext. intros i Hi.
      rewrite Hf by lia. done.
    + intros b Hb. rewrite Hf by lia. change (mem_of (with_mem mem1 m)) with mem1. unfold mem1. apply write_bytes_outside. lia.
Qed.

Definition words_at (mem : gmap Z Z) (a : Z) (ws : list Z) : Prop :=
  read_bytes mem a (8 * length ws) = Some (words ws).

Lemma words_at_written mem a ws : words_at (write_bytes mem a (words ws)) a ws.
Proof. unfold words_at. rewrite <- length_words. apply read_write_same. Qed.

Lemma words_at_frame mem mem' a ws :
  (forall b, a <= b < a + 8 * Z.of_nat (length ws) -> mem' !! b = mem !! b) -> words_at mem a ws -> words_at mem' a ws.
Proof. unfold words_at. intros Hf <-. apply read_bytes_ext. intros i Hi. apply Hf. lia. Qed.

Lemma align16 z : z .& .~ 15 = z - z mod 16.
Proof.
  change 15 with (Z.ones 4). rewrite <- Z.ldiff_land, Z.ldiff_ones_r, Z.shiftl_mul_pow2, Z.shiftr_div_pow2 by lia.
  change (2 ^ 4) with 16. rewrite (Z.div_mod z 16) at 2 by lia. lia.
Qed.

(** What [rsd_cpu_init] promises of the vectors at [vec] and the first frame. *)
Record startup (has_main : bool) (lo hi : Z) (argv : list (list Z)) (ptrs : list Z) (m : machine) : Prop := {
  su_args : length ptrs = length argv;
  su_strings : strings_at (mem_of m) lo hi ptrs argv;
  su_align : reg m RSP mod 16 = if has_main then 8 else 0;
  su_room : lo + 2 ^ 18 <= reg m RSP < hi;
  su_frame :
    if has_main then
      words_at (mem_of m) (reg m RSP) [RSD_RETURN_MAGIC] /\
      words_at (mem_of m) (reg m RSI) (ptrs ++ [0; 0; 0]) /\
      reg m RDI = Z.of_nat (length argv) /\
      reg m RDX = reg m RSI + 8 * (Z.of_nat (length argv) + 1) /\
      reg m RCX = reg m RSI + 8 * (Z.of_nat (length argv) + 2)
    else words_at (mem_of m) (reg m RSP) (Z.of_nat (length argv) :: ptrs ++ [0; 0; 0])
}.

(** The stack just mapped: all of it mapped, recorded readable and writable. *)
Definition stack_ready (s : rsd_as) (mem : gmap Z Z) (lo hi : Z) : Prop :=
  as_inv s /\ 0 < lo /\ lo + GUEST_STACK_SIZE = hi /\ hi < 2 ^ 64 /\ mapped_in mem lo hi /\
  forall b, lo <= b < hi -> prot_at (as_reg s) b = Some (RSD_PROT_R .| RSD_PROT_W).

Lemma stack_access s mem lo hi a :
  stack_ready s mem lo hi -> lo <= a -> a + 8 <= hi -> access_ok s a 8 RSD_PROT_W = true.
Proof.
  intros (Hi & Hlo & _ & Hhi & _ & Hp) Hl Hh. unfold access_ok.
  rewrite (proj2 (rsd_as_ok_iff s a 8 RSD_PROT_W Hi ltac:(unfold urange; lia) ltac:(done))); [done|].
  right. split; [lia|]. intros b Hb. exists (RSD_PROT_R .| RSD_PROT_W). split; [apply Hp; lia|done].
Qed.

Lemma st_run a v m :
  access_ok (m_as m) a 8 RSD_PROT_W = true -> c_wlog (m_c m) = None ->
  is_Some (read_bytes (mem_of m) a 8) ->
  st a v 8 m = Ok tt (with_mem (write_bytes (mem_of m) a (le_bytes 8 v)) m).
Proof.
  intros Ha Hw Hr. unfold st. rewrite (bind_run _ _ m (m_as m) m) by done. change (u64 8) with 8.
  rewrite Ha. cbn [negb].
  assert (Hl : log_write a v 8 m = Ok tt m).
  { unfold log_write. rewrite (bind_run _ _ m (c_wlog (m_c m)) m) by done. by rewrite Hw. }
  rewrite (bind_run _ _ _ _ _ Hl). apply host_store_ok. split; [done|]. by rewrite length_le_bytes.
Qed.

(** The first frame of a [_start] image. *)
Lemma start_frame_run sp ws m lo hi :
  mapped_in (mem_of m) lo hi -> lo <= sp -> sp + 8 * Z.of_nat (length ws) <= hi ->
  exists m', (store_words sp ws;; mret sp) m = Ok sp m' /\ m_c m' = m_c m /\ words_at (mem_of m') sp ws /\
    forall b, ~ sp <= b < sp + 8 * Z.of_nat (length ws) -> mem_of m' !! b = mem_of m !! b.
Proof.
  intros Hm Hl Hh. eexists. rewrite (bind_run _ _ _ _ _ (store_words_run sp ws m lo hi Hm Hl Hh)).
  split; [reflexivity|]. split; [done|]. split; [apply words_at_written|].
  intros b Hb. apply write_bytes_outside. rewrite length_words. lia.
Qed.

(** The first frame of a [main] image: four argument registers and the return
    sentinel. *)
Lemma main_frame_run sp vec argc m lo hi :
  regs_ok m -> stack_ready (m_as m) (mem_of m) lo hi -> c_wlog (m_c m) = None ->
  urange 64 vec -> 0 <= argc -> vec + (argc + 2) * 8 < 2 ^ 64 -> lo + 8 <= sp -> sp <= hi ->
  exists m',
    (setr RDI argc;; setr RSI vec;; setr RDX (vec + (argc + 1) * 8);; setr RCX (vec + (argc + 2) * 8);;
     let sp := u64 (sp - 8) in st sp RSD_RETURN_MAGIC 8;; mret sp) m = Ok (sp - 8) m' /\
    regs_ok m' /\ reg m' RDI = argc /\ reg m' RSI = vec /\ reg m' RDX = vec + 8 * (argc + 1) /\
    reg m' RCX = vec + 8 * (argc + 2) /\ words_at (mem_of m') (sp - 8) [RSD_RETURN_MAGIC] /\
    forall b, ~ sp - 8 <= b < sp -> mem_of m' !! b = mem_of m !! b.
Proof.
  intros Hr Hs Hw Hv Ha Hlt Hl Hh. pose proof Hs as (_ & Hlo & _ & Hhi & Hmap & _).
  assert (Hu : forall z, 0 <= z < 2 ^ 64 -> u64 z = z) by (intros; by apply uwrap_small). unfold urange in Hv.
  do 4 (rewrite (bind_run _ _ _ _ _ (setr_run _ _ _))). rewrite !Hu by lia. cbv zeta.
  set (m4 := set_reg RCX _ _).
  assert (H4 : regs_ok m4) by (unfold m4; repeat (apply set_reg_ok; [|unfold urange; lia]); exact Hr).
  assert (Hst : st (sp - 8) RSD_RETURN_MAGIC 8 m4 =
    Ok tt (with_mem (write_bytes (mem_of m) (sp - 8) (words [RSD_RETURN_MAGIC])) m4)).
  { apply (st_run (sp - 8) _ m4); [eapply stack_access; [exact Hs|lia|lia]|exact Hw|].
    eapply mapped_in_read; [exact Hmap|lia|lia]. }
  rewrite (bind_run _ _ _ _ _ Hst). eexists. split; [reflexivity|]. split; [exact H4|].
  assert (Hreg : forall j, reg (with_mem (write_bytes (mem_of m) (sp - 8) (words [RSD_RETURN_MAGIC])) m4) j = reg m4 j) by done.
  rewrite !Hreg. unfold m4. rewrite !reg_set by
    (first [done|repeat (apply set_reg_ok; [|unfold urange; lia]); exact Hr]).
  cbn [Z.eqb Pos.eqb RCX RDX RSI RDI]. split; [done|]. split; [done|]. split; [lia|]. split; [lia|].
  split; [apply words_at_written|]. intros b Hb. apply write_bytes_outside. rewrite length_words. cbn. lia.
Qed.

(** Where everything goes: the vectors below the strings, the first frame a page
    below the vectors. *)
Lemma stack_layout lo hi total argc :
  0 < lo -> lo + GUEST_STACK_SIZE = hi -> hi < 2 ^ 64 -> 0 <= total <= 2 ^ 19 -> 0 <= argc <= 60 ->
  let strp := (hi - total) .& .~ 15 in
  let vec := u64 (strp - (argc + 3) * 8) .& .~ 15 in
  let sp := u64 (vec - 4096) .& .~ 15 in
  let sp' := u64 (sp - (argc + 4) * 8) .& .~ 15 in
  vec + (argc + 3) * 8 <= hi - total /\ urange 64 vec /\ sp mod 16 = 0 /\ sp + 4096 <= vec /\
  lo + 2 ^ 18 + 8 <= sp /\ sp' mod 16 = 0 /\ sp' + (argc + 4) * 8 <= sp /\ lo + 2 ^ 18 <= sp'.
Proof.
  intros Hlo Hhi Hlt Ht Ha. unfold GUEST_STACK_SIZE in Hhi. change (1 << 20) with 1048576 in Hhi.
  change (2 ^ 19) with 524288 in Ht. change (2 ^ 18) with 262144. change (2 ^ 64) with 18446744073709551616 in Hlt.
  assert (Hu : forall z, 0 <= z < 18446744073709551616 -> u64 z = z) by (intros; by apply uwrap_small).
  cbv zeta. rewrite !(align16 (hi - total)).
  pose proof (Z.mod_pos_bound (hi - total) 16 ltac:(lia)). set (strp := hi - total - (hi - total) mod 16) in *.
  rewrite !(Hu (strp - (argc + 3) * 8)), !(align16 (strp - (argc + 3) * 8)) by lia.
  pose proof (Z.mod_pos_bound (strp - (argc + 3) * 8) 16 ltac:(lia)).
  set (vec := strp - (argc + 3) * 8 - (strp - (argc + 3) * 8) mod 16) in *. rewrite !(Hu (vec - 4096)), !(align16 (vec - 4096)) by lia.
  pose proof (Z.mod_pos_bound (vec - 4096) 16 ltac:(lia)).
  assert (Hm : forall z, (z - z mod 16) mod 16 = 0) by (intros z; rewrite Z.mod_eq by lia; zdm).
  pose proof (Hm (vec - 4096)). set (sp := vec - 4096 - (vec - 4096) mod 16) in *. rewrite !(Hu (sp - (argc + 4) * 8)), !align16 by lia.
  pose proof (Z.mod_pos_bound (sp - (argc + 4) * 8) 16 ltac:(lia)). pose proof (Hm (sp - (argc + 4) * 8)).
  unfold urange. change (2 ^ 64) with 18446744073709551616. lia.
Qed.

Lemma init_stack_run has_main lo hi argv m :
  regs_ok m -> stack_ready (m_as m) (mem_of m) lo hi -> c_wlog (m_c m) = None ->
  (length argv <= 60)%nat -> args_size argv <= 2 ^ 19 ->
  exists ptrs m', init_stack has_main lo argv m = Ok 0 m' /\ startup has_main lo hi argv ptrs m'.
Proof.
  intros Hr Hs Hw Hlen Htot. pose proof Hs as (Hi & Hlo & Hsz & Hhi & Hmap & Hprot).
  set (argc := Z.of_nat (length argv)). pose proof (args_size_nonneg argv) as Hn.
  pose proof (stack_layout lo hi (args_size argv) argc Hlo Hsz Hhi ltac:(lia) ltac:(lia)) as Hlay.
  cbv zeta in Hlay.
  set (strp := (hi - args_size argv) .& .~ 15) in *. set (vec := u64 (strp - (argc + 3) * 8) .& .~ 15) in *.
  set (sp := u64 (vec - 4096) .& .~ 15) in *. set (sp' := u64 (sp - (argc + 4) * 8) .& .~ 15) in *.
  destruct Hlay as (Hvs & Hvr & Hspm & Hspv & Hspl & Hspm' & Hsps & Hspl').
  change (2 ^ 18) with 262144 in *. change (2 ^ 19) with 524288 in *.
  destruct (copy_args_run argv hi m lo hi Hmap ltac:(lia) ltac:(lia) Hhi) as (ptrs & mem1 & Hc & Hpl & Hm1 & Hst1 & Hf1).
  { unfold GUEST_STACK_SIZE in Hsz. change (1 << 20) with 1048576 in Hsz. lia. }
  set (m1 := with_mem mem1 m) in *. set (ws := ptrs ++ [0; 0; 0]).
  assert (Hwl : Z.of_nat (length ws) = argc + 3) by (unfold ws; rewrite length_app; cbn; lia).
  assert (Hv : store_words vec ws m1 = Ok tt (with_mem (write_bytes mem1 vec (words ws)) m1)).
  { apply (store_words_run vec ws m1 lo hi); [exact Hm1|lia|lia]. }
  set (m2 := with_mem (write_bytes mem1 vec (words ws)) m1) in *.
  assert (Hm2 : mapped_in (mem_of m2) lo hi) by (by apply mapped_in_write).
  assert (Hws : words_at (mem_of m2) vec ws) by apply words_at_written.
  assert (Hst2 : strings_at (mem_of m2) (hi - args_size argv) hi ptrs argv).
  { eapply strings_at_frame; [|exact Hst1]. intros b Hb. apply write_bytes_outside. rewrite length_words. lia. }
  assert (Hs2 : stack_ready (m_as m2) (mem_of m2) lo hi) by (repeat split; try done; apply Hi).
  unfold init_stack. fold argc. rewrite Hsz, (uwrap_small 64 hi) by (unfold urange; lia).
  rewrite (bind_run _ _ _ _ _ Hc). cbv zeta. fold strp vec ws. rewrite (bind_run _ _ _ _ _ Hv). fold sp sp'.
  assert (Hru : urange 64 (sp - 8) /\ urange 64 sp') by (unfold urange; lia). destruct Hru as [Hru1 Hru2].
  assert (Hmono : forall mem', (forall b, hi - args_size argv <= b < hi -> mem' !! b = mem_of m2 !! b) ->
    strings_at mem' lo hi ptrs argv).
  { intros mem' Hf. eapply strings_at_mono; [| |eapply strings_at_frame; [exact Hf|exact Hst2]]; lia. }
  destruct has_main.
  - destruct (main_frame_run sp vec argc m2 lo hi) as (m3 & Hrun & Hr3 & Hdi & Hsi & Hdx & Hcx & Hmg & Hfr);
      [exact Hr|exact Hs2|exact Hw|exact Hvr|lia..|].
    rewrite (bind_run _ _ _ _ _ Hrun), (bind_run _ _ _ _ _ (setr_run _ _ _)).
    exists ptrs, (set_reg RSP (u64 (sp - 8)) m3). split; [reflexivity|]. rewrite (uwrap_small 64 _ Hru1).
    assert (Hreg : forall j, 0 <= j -> reg (set_reg RSP (sp - 8) m3) j = if j =? RSP then sp - 8 else reg m3 j)
      by (intros; by apply reg_set).
    constructor; [exact Hpl|..]; rewrite ?Hreg by done; cbn [Z.eqb Pos.eqb RSP RDI RSI RDX RCX].
    + apply Hmono. intros b Hb. apply Hfr. lia.
    + zdm.
    + change (2 ^ 18) with 262144. lia.
    + rewrite Hsi, Hdi, Hdx, Hcx. split; [exact Hmg|]. split; [|done].
      eapply words_at_frame; [|exact Hws]. intros b Hb. apply Hfr. lia.
  - destruct (start_frame_run sp' (argc :: ws) m2 lo hi Hm2) as (m3 & Hrun & Hc3 & Hwd & Hfr);
      [lia|cbn [length]; lia|].
    rewrite (bind_run _ _ _ _ _ Hrun), (bind_run _ _ _ _ _ (setr_run _ _ _)).
    exists ptrs, (set_reg RSP (u64 sp') m3). split; [reflexivity|]. rewrite (uwrap_small 64 _ Hru2).
    assert (Hr3 : regs_ok m3) by (unfold regs_ok in *; by rewrite Hc3).
    assert (Hreg : reg (set_reg RSP sp' m3) RSP = sp') by (by rewrite reg_set).
    constructor; [exact Hpl|..]; rewrite ?Hreg.
    + apply Hmono. intros b Hb. apply Hfr. cbn [length]. lia.
    + exact Hspm'.
    + change (2 ^ 18) with 262144. lia.
    + exact Hwd.
Qed.
Context `{!HostOSOk}.

Lemma stack_mapped w s base s' w' :
  as_inv s -> tracked_mapped s (w_mem w) ->
  rsd_as_map w s 0 GUEST_STACK_SIZE (RSD_PROT_R .| RSD_PROT_W) false = (base, s', w') -> base <> 0 ->
  stack_ready s' (w_mem w') base (base + GUEST_STACK_SIZE).
Proof.
  intros Hi Ht Hmap Hb. pose proof host_page_pos as Hp.
  assert (Hlt : 0 + GUEST_STACK_SIZE + host_page - 1 < 2 ^ 64).
  { unfold GUEST_STACK_SIZE. change (1 << 20) with 1048576. change (2 ^ 30) with 1073741824 in Hp. lia. }
  destruct (rsd_as_map_effect _ _ 0 GUEST_STACK_SIZE _ false _ _ _ Hi Ht ltac:(done) ltac:(done) Hlt
    ltac:(intros Hz; by destruct Hz) Hmap Hb) as (Hi' & Ht' & _ & Hnew & _ & _).
  destruct (rsd_as_map_inv _ _ 0 GUEST_STACK_SIZE _ false _ _ _ ltac:(done) ltac:(done) Hlt Hmap Hb)
    as (st' & size & ml & _ & ? & ? & ? & ? & ? & _).
  split; [done|]. split; [lia|]. split; [done|]. split; [lia|].
  split; intros b Hr; [exists 0|]; by apply Hnew.
Qed.

(** C25.  When the system gives the stack, [rsd_cpu_init] returns 0 and leaves the
    stack as the ABI wants it: each argument pointer is to its string, the
    vectors hold the pointers and their terminators, the first frame is laid out
    for [main] or for [_start], [rsp] is aligned, and a quarter of the stack at
    least is still below it. *)
Theorem rsd_cpu_init_layout entry has_main argv m base s w :
  as_inv (m_as m) -> tracked_mapped (m_as m) (mem_of m) ->
  rsd_as_map (m_w m) (m_as m) 0 GUEST_STACK_SIZE (RSD_PROT_R .| RSD_PROT_W) false = (base, s, w) ->
  base <> 0 -> args_size (take 60 argv) <= 2 ^ 19 ->
  exists ptrs m', rsd_cpu_init entry has_main argv m = Ok 0 m' /\
    startup has_main base (base + GUEST_STACK_SIZE) (take 60 argv) ptrs m'.
Proof.
  intros Hi Ht Hmap Hb Ha. pose proof (stack_mapped _ _ _ _ _ Hi Ht Hmap Hb) as Hs.
  set (m1 := Machine (with_stack_size GUEST_STACK_SIZE (with_stack_base base (reset_cpu entry))) s w (m_cb m) (m_cm m)).
  assert (Hu : rsd_cpu_init entry has_main argv m = init_stack has_main base (take 60 argv) m1).
  { unfold rsd_cpu_init.
    rewrite (bind_run _ _ m tt (Machine (reset_cpu entry) (m_as m) (m_w m) (m_cb m) (m_cm m))) by done.
    do 2 (erewrite bind_run by reflexivity). cbn [m_as m_w]. rewrite Hmap.
    do 2 (erewrite bind_run by reflexivity). unfold nz. rewrite (proj2 (Z.eqb_neq base 0)) by done.
    cbn [negb]. by erewrite bind_run by reflexivity. }
  rewrite Hu. apply init_stack_run; [by split; [|repeat constructor]|done|done|rewrite length_take; lia|done].
Qed.
End startup.

#[local] Existing Instances sample_host sample_host_ok.

Definition sample_argv : list (list Z) := [[0x70]; [0x2d; 0x76]].

Definition sample_boot : machine := Machine zero_cpu rsd_as_init sample_w0 [] [].

(** A [main] image started with the arguments "p" and "-v". *)
Lemma rsd_cpu_init_layout_witness :
  exists ptrs m', rsd_cpu_init 0x5000 true sample_argv sample_boot = Ok 0 m' /\
    startup true 0x10000 0x110000 sample_argv ptrs m'.
Proof.
  pose (r := rsd_as_map sample_w0 rsd_as_init 0 GUEST_STACK_SIZE 3 false).
  apply (rsd_cpu_init_layout 0x5000 true sample_argv sample_boot 0x10000 (snd (fst r)) (snd r)).
  - exact as_inv_init.
  - by intros b [? ?].
  - reflexivity.
  - done.
  - cbn. lia.
Defined.
