(* ===== verification/A64.v ===== *)
(** The A64 instructions compiled blocks are made of, as the architecture manual
    has them: how a word decodes, and what an instruction does to the integer
    registers, the condition flags and memory.  This is the reference the
    emitter ([src/emit.h]) and the compiler ([src/jit.c]) are held against; it
    models no code of [src/].  Floating-point instructions decode but are not
    executed. *)
From S2P Require Import Prelude.
From S2P Require Import Memory.

(* ------------------------------------------------------------------ *)
(** ** Decoding *)

(** Bits [lo] to [lo + n - 1] of a word. *)
Definition bits (w lo n : Z) : Z := (w >> lo) .& Z.ones n.

(** One constructor for each class of the manual's index by encoding. *)
Inductive a64 :=
| AddSubImm (sf sub setf : bool) (imm n d : Z)
| LogImm (sf : bool) (opc immn immr imms n d : Z)
| MovWide (sf : bool) (opc hw imm d : Z)
| Bitfield (sf : bool) (opc immr imms n d : Z)
| BranchImm (imm : Z)
| BranchCond (c imm : Z)
| CmpBranch (sf nonzero : bool) (imm t : Z)
| BranchReg (opc n : Z)
| LdStImm (size : Z) (simd : bool) (opc imm n t : Z)
| LdStIdx (size opc : Z) (pre : bool) (imm n t : Z)
| LogReg (sf : bool) (opc shift : Z) (neg : bool) (m amount n d : Z)
| AddSubReg (sf sub setf : bool) (shift m amount n d : Z)
| CondSel (sf inv : bool) (op2 m c n d : Z)
| Madd (sf : bool) (m a n d : Z)
| FpArith (ty op m n d : Z)
| FpSel (ty m c n d : Z)
| FpCmp (ty m n : Z)
| FpUnary (ty op n d : Z)
| FpInt (sf : bool) (ty rmode op n d : Z).

(** Data processing, immediate: bits 28-26 are 100. *)
Definition decode_imm (w : Z) : option a64 :=
  let sf := nz (bits w 31 1) in
  let n := bits w 5 5 in let d := bits w 0 5 in
  let op := bits w 23 3 in
  if (op =? 2) && (bits w 22 1 =? 0)
  then Some (AddSubImm sf (nz (bits w 30 1)) (nz (bits w 29 1)) (bits w 10 12) n d)
  else if op =? 4 then Some (LogImm sf (bits w 29 2) (bits w 22 1) (bits w 16 6) (bits w 10 6) n d)
  else if op =? 5 then Some (MovWide sf (bits w 29 2) (bits w 21 2) (bits w 5 16) d)
  else if (op =? 6) && (bits w 22 1 =? bits w 31 1)
  then Some (Bitfield sf (bits w 29 2) (bits w 16 6) (bits w 10 6) n d)
  else None.

(** Branches: bits 28-26 are 101. *)
Definition decode_branch (w : Z) : option a64 :=
  if bits w 26 6 =? 5 then Some (BranchImm (swrap 26 (bits w 0 26)))
  else if (bits w 24 8 =? 0x54) && (bits w 4 1 =? 0)
  then Some (BranchCond (bits w 0 4) (swrap 19 (bits w 5 19)))
  else if bits w 25 6 =? 0x1A
  then Some (CmpBranch (nz (bits w 31 1)) (nz (bits w 24 1)) (swrap 19 (bits w 5 19)) (bits w 0 5))
  else if (bits w 25 7 =? 0x6B) && (bits w 10 11 =? 0x7C0) && (bits w 0 5 =? 0)
  then Some (BranchReg (bits w 21 4) (bits w 5 5))
  else None.

(** Loads and stores of one register: bits 29-27 are 111. *)
Definition decode_ldst (w : Z) : option a64 :=
  let size := bits w 30 2 in let opc := bits w 22 2 in
  let n := bits w 5 5 in let t := bits w 0 5 in
  if negb (bits w 27 3 =? 7) then None else
  if bits w 24 2 =? 1 then Some (LdStImm size (nz (bits w 26 1)) opc (bits w 10 12) n t)
  else if (bits w 24 3 =? 0) && (bits w 21 1 =? 0) && (bits w 10 1 =? 1)
  then Some (LdStIdx size opc (nz (bits w 11 1)) (swrap 9 (bits w 12 9)) n t)
  else None.

(** Data processing, register: bits 27-25 are 101. *)
Definition decode_reg (w : Z) : option a64 :=
  let sf := nz (bits w 31 1) in
  let m := bits w 16 5 in let n := bits w 5 5 in let d := bits w 0 5 in
  let op := bits w 24 5 in
  if op =? 0x0A
  then Some (LogReg sf (bits w 29 2) (bits w 22 2) (nz (bits w 21 1)) m (bits w 10 6) n d)
  else if (op =? 0x0B) && (bits w 21 1 =? 0)
  then Some (AddSubReg sf (nz (bits w 30 1)) (nz (bits w 29 1)) (bits w 22 2) m (bits w 10 6) n d)
  else if (bits w 21 8 =? 0xD4) && (bits w 29 1 =? 0) && (bits w 11 1 =? 0)
  then Some (CondSel sf (nz (bits w 30 1)) (bits w 10 2) m (bits w 12 4) n d)
  else if (bits w 21 10 =? 0xD8) && (bits w 15 1 =? 0)
  then Some (Madd sf m (bits w 10 5) n d)
  else None.

(** Scalar floating point: bits 30-24 are 0011110, bit 21 is 1. *)
Definition decode_fp (w : Z) : option a64 :=
  let ty := bits w 22 2 in
  let m := bits w 16 5 in let n := bits w 5 5 in let d := bits w 0 5 in
  if negb ((bits w 24 7 =? 0x1E) && (bits w 21 1 =? 1)) then None else
  if bits w 10 6 =? 0 then Some (FpInt (nz (bits w 31 1)) ty (bits w 19 2) (bits w 16 3) n d)
  else if nz (bits w 31 1) then None
  else if bits w 10 5 =? 0x10 then Some (FpUnary ty (bits w 15 6) n d)
  else if (bits w 10 6 =? 8) && (d =? 0) then Some (FpCmp ty m n)
  else if bits w 10 2 =? 2 then Some (FpArith ty (bits w 12 4) m n d)
  else if bits w 10 2 =? 3 then Some (FpSel ty m (bits w 12 4) n d)
  else None.

Definition a64_decode (w : Z) : option a64 :=
  let op0 := bits w 25 4 in
  if is_one_of op0 [8; 9] then decode_imm w
  else if is_one_of op0 [10; 11] then decode_branch w
  else if is_one_of op0 [4; 6; 12; 14] then decode_ldst w
  else if is_one_of op0 [5; 13] then decode_reg w
  else if is_one_of op0 [7; 15] then decode_fp w
  else None.

(* ------------------------------------------------------------------ *)
(** ** Execution *)

Record nzcv := NZCV { fl_n : bool; fl_z : bool; fl_c : bool; fl_v : bool }.

Record astate := AState { a_x : Z -> Z; a_sp : Z; a_fl : nzcv; a_mem : gmap Z Z }.

(** Register 31 is the zero register, or the stack pointer where the manual
    says so. *)
Definition xr (st : astate) (n : Z) : Z := if n =? 31 then 0 else a_x st n.
Definition xsp (st : astate) (n : Z) : Z := if n =? 31 then a_sp st else a_x st n.

Definition set_x (d v : Z) (st : astate) : astate :=
  if d =? 31 then st
  else AState (fun r => if r =? d then v else a_x st r) (a_sp st) (a_fl st) (a_mem st).
Definition set_xsp (d v : Z) (st : astate) : astate :=
  if d =? 31 then AState (a_x st) v (a_fl st) (a_mem st) else set_x d v st.
Definition set_fl (f : nzcv) (st : astate) : astate := AState (a_x st) (a_sp st) f (a_mem st).
Definition set_amem (mem : gmap Z Z) (st : astate) : astate :=
  AState (a_x st) (a_sp st) (a_fl st) mem.

Definition dsize (sf : bool) : Z := if sf then 64 else 32.

(** The manual's [AddWithCarry]. *)
Definition add_with_carry (w x y : Z) (c : bool) : Z * nzcv :=
  let usum := x + y + bz c in
  let ssum := swrap w x + swrap w y + bz c in
  let r := uwrap w usum in
  (r, NZCV (Z.testbit r (w - 1)) (r =? 0) (negb (r =? usum)) (negb (swrap w r =? ssum))).

Definition add_sub (w : Z) (sub : bool) (x y : Z) : Z * nzcv :=
  if sub then add_with_carry w x (uwrap w (.~ y)) true else add_with_carry w x y false.

Definition shift_reg (w ty x amount : Z) : Z :=
  if ty =? 0 then uwrap w (x << amount)
  else if ty =? 1 then x >> amount
  else if ty =? 2 then uwrap w (swrap w x >> amount)
  else (x >> amount) .| uwrap w (x << (w - amount)).

Definition cond_holds (f : nzcv) (c : Z) : bool :=
  let k := c >> 1 in
  let r := if k =? 0 then fl_z f else if k =? 1 then fl_c f
           else if k =? 2 then fl_n f else if k =? 3 then fl_v f
           else if k =? 4 then fl_c f && negb (fl_z f)
           else if k =? 5 then eqb (fl_n f) (fl_v f)
           else if k =? 6 then eqb (fl_n f) (fl_v f) && negb (fl_z f) else true in
  if nz (c .& 1) && negb (c =? 15) then negb r else r.

(** The field a bitfield move takes, where it puts it, and its length. *)
Definition bf_field (w immr imms src : Z) : Z * Z * Z :=
  if immr <=? imms then (bits src immr (imms - immr + 1), 0, imms - immr + 1)
  else (bits src 0 (imms + 1), w - immr, imms + 1).

Definition logic_op (opc a b : Z) : Z :=
  if opc =? 1 then a .| b else if opc =? 2 then a .^ b else a .& b.

Definition logic_flags (w r : Z) : nzcv := NZCV (Z.testbit r (w - 1)) (r =? 0) false false.

(** Where control goes: the next word, a relative word, a call to an address, or
    the address of a return. *)
Inductive control := Next | Jump (d : Z) | Call (a : Z) | Ret (a : Z).

(** A load or store of [n] bytes at [a]; bit 0 of [opc] tells them apart. *)
Definition access (opc a n t : Z) (st : astate) : option astate :=
  bs ← read_bytes (a_mem st) a (Z.to_nat n);
  if opc =? 1 then Some (set_x t (le_val bs) st)
  else if opc =? 0 then
    Some (set_amem (write_bytes (a_mem st) a (le_bytes (Z.to_nat n) (xr st t))) st)
  else None.

Definition exec (i : a64) (st : astate) : option (astate * control) :=
  match i with
  | AddSubImm sf sub setf imm n d =>
      let '(r, f) := add_sub (dsize sf) sub (uwrap (dsize sf) (xsp st n)) imm in
      Some (if setf then set_x d r (set_fl f st) else set_xsp d r st, Next)
  | LogImm sf opc immn immr imms n d =>
      if negb (sf && nz immn) then None else
      let mask := shift_reg 64 3 (Z.ones (imms + 1)) immr in
      let r := logic_op opc (xr st n) mask in
      Some (if opc =? 3 then set_x d r (set_fl (logic_flags 64 r) st) else set_xsp d r st, Next)
  | MovWide sf opc hw imm d =>
      let v := imm << (16 * hw) in
      if opc =? 2 then Some (set_x d v st, Next)
      else if opc =? 3 then
        Some (set_x d ((uwrap (dsize sf) (xr st d) .& .~ (Z.ones 16 << (16 * hw))) .| v) st, Next)
      else if opc =? 0 then Some (set_x d (uwrap (dsize sf) (.~ v)) st, Next)
      else None
  | Bitfield sf opc immr imms n d =>
      let w := dsize sf in
      let '(f, pos, len) := bf_field w immr imms (xr st n) in
      if opc =? 2 then Some (set_x d (f << pos) st, Next)
      else if opc =? 0 then Some (set_x d (uwrap w (swrap len f << pos)) st, Next)
      else if opc =? 1 then
        Some (set_x d ((uwrap w (xr st d) .& .~ (Z.ones len << pos)) .| (f << pos)) st, Next)
      else None
  | BranchImm imm => Some (st, Jump imm)
  | BranchCond c imm => Some (st, if cond_holds (a_fl st) c then Jump imm else Next)
  | CmpBranch sf nonzero imm t =>
      Some (st, if eqb (uwrap (dsize sf) (xr st t) =? 0) (negb nonzero) then Jump imm else Next)
  | BranchReg opc n =>
      if opc =? 1 then Some (st, Call (xr st n))
      else if opc =? 2 then Some (st, Ret (xr st n)) else None
  | LdStImm size simd opc imm n t =>
      if (simd : bool) then None else
      st ← access opc (u64 (xsp st n + (imm << size))) (1 << size) t st; Some (st, Next)
  | LdStIdx size opc pre imm n t =>
      let base := xsp st n in
      let back := u64 (base + imm) in
      st ← access opc (if (pre : bool) then back else base) (1 << size) t st;
      Some (set_xsp n back st, Next)
  | LogReg sf opc shift neg m amount n d =>
      let w := dsize sf in
      let b := shift_reg w shift (uwrap w (xr st m)) amount in
      let r := logic_op opc (uwrap w (xr st n)) (if (neg : bool) then uwrap w (.~ b) else b) in
      Some (set_x d r (if opc =? 3 then set_fl (logic_flags w r) st else st), Next)
  | AddSubReg sf sub setf shift m amount n d =>
      let w := dsize sf in
      let b := shift_reg w shift (uwrap w (xr st m)) amount in
      let '(r, f) := add_sub w sub (uwrap w (xr st n)) b in
      Some (set_x d r (if (setf : bool) then set_fl f st else st), Next)
  | CondSel sf inv op2 m c n d =>
      let w := dsize sf in
      let b := uwrap w (xr st m) in
      let b := if (inv : bool) then uwrap w (.~ b) else b in
      let b := if op2 =? 1 then uwrap w (b + 1) else b in
      Some (set_x d (if cond_holds (a_fl st) c then uwrap w (xr st n) else b) st, Next)
  | Madd sf m a n d =>
      let w := dsize sf in Some (set_x d (uwrap w (xr st a + xr st n * xr st m)) st, Next)
  | _ => None
  end.

(** Executing one word. *)
Definition exec_word (w : Z) (st : astate) : option (astate * control) :=
  i ← a64_decode w; exec i st.
