(* ===== verification/Emit.v ===== *)
(** Encoding A64 instructions ([src/emit.h]): each encoder, word for word, and
    the instruction the architecture reads in its word. *)
From S2P Require Import Prelude.
From S2P Require Import A64.

Abbreviation A64_X0 := 0 (only parsing).
Abbreviation A64_X1 := 1 (only parsing).
Abbreviation A64_X2 := 2 (only parsing).
Abbreviation A64_X3 := 3 (only parsing).
Abbreviation A64_X4 := 4 (only parsing).
Abbreviation A64_X5 := 5 (only parsing).
Abbreviation A64_X6 := 6 (only parsing).
Abbreviation A64_X9 := 9 (only parsing).
Abbreviation A64_X10 := 10 (only parsing).
Abbreviation A64_X11 := 11 (only parsing).
Abbreviation A64_X12 := 12 (only parsing).
Abbreviation A64_X19 := 19 (only parsing).
Abbreviation A64_X30 := 30 (only parsing).
Abbreviation A64_ZR := 31 (only parsing).
Abbreviation A64_EQ := 0 (only parsing).
Abbreviation A64_NE := 1 (only parsing).
Abbreviation A64_CS := 2 (only parsing).
Abbreviation A64_CC := 3 (only parsing).
Abbreviation A64_MI := 4 (only parsing).
Abbreviation A64_PL := 5 (only parsing).
Abbreviation A64_VS := 6 (only parsing).
Abbreviation A64_VC := 7 (only parsing).
Abbreviation A64_HI := 8 (only parsing).
Abbreviation A64_LS := 9 (only parsing).
Abbreviation A64_GT := 12 (only parsing).
Abbreviation FOP_MUL := 0x0800 (only parsing).
Abbreviation FOP_DIV := 0x1800 (only parsing).
Abbreviation FOP_ADD := 0x2800 (only parsing).
Abbreviation FOP_SUB := 0x3800 (only parsing).

(** [(uint32_t)x << s]. *)
Definition at_bit (x s : Z) : Z := u32 (u32 x << s).

Definition a64_ldr (t n off : Z) : Z :=
  0xF9400000 .| at_bit (off / 8) 10 .| at_bit n 5 .| u32 t.
Definition a64_str (t n off : Z) : Z :=
  0xF9000000 .| at_bit (off / 8) 10 .| at_bit n 5 .| u32 t.
Definition a64_push (t : Z) : Z :=
  0xF8000C00 .| at_bit (0x1F0 .& 0x1FF) 12 .| at_bit 31 5 .| u32 t.
Definition a64_pop (t : Z) : Z :=
  0xF8400400 .| at_bit (16 .& 0x1FF) 12 .| at_bit 31 5 .| u32 t.
Definition a64_movz (d imm hw : Z) : Z :=
  0xD2800000 .| at_bit hw 21 .| at_bit imm 5 .| u32 d.
Definition a64_movk (d imm hw : Z) : Z :=
  0xF2800000 .| at_bit hw 21 .| at_bit imm 5 .| u32 d.
Definition a64_mov (d m : Z) : Z :=
  0xAA0003E0 .| at_bit m 16 .| u32 d.
Definition a64_add (d n m : Z) : Z :=
  0x8B000000 .| at_bit m 16 .| at_bit n 5 .| u32 d.
Definition a64_sub (d n m : Z) : Z :=
  0xCB000000 .| at_bit m 16 .| at_bit n 5 .| u32 d.
Definition a64_and (d n m : Z) : Z :=
  0x8A000000 .| at_bit m 16 .| at_bit n 5 .| u32 d.
Definition a64_orr (d n m : Z) : Z :=
  0xAA000000 .| at_bit m 16 .| at_bit n 5 .| u32 d.
Definition a64_eor (d n m : Z) : Z :=
  0xCA000000 .| at_bit m 16 .| at_bit n 5 .| u32 d.
Definition a64_add_w (d n m : Z) : Z :=
  0x0B000000 .| at_bit m 16 .| at_bit n 5 .| u32 d.
Definition a64_sub_w (d n m : Z) : Z :=
  0x4B000000 .| at_bit m 16 .| at_bit n 5 .| u32 d.
Definition a64_and_w (d n m : Z) : Z :=
  0x0A000000 .| at_bit m 16 .| at_bit n 5 .| u32 d.
Definition a64_orr_w (d n m : Z) : Z :=
  0x2A000000 .| at_bit m 16 .| at_bit n 5 .| u32 d.
Definition a64_eor_w (d n m : Z) : Z :=
  0x4A000000 .| at_bit m 16 .| at_bit n 5 .| u32 d.
Definition a64_mov_w (d m : Z) : Z :=
  0x2A0003E0 .| at_bit m 16 .| u32 d.
Definition a64_add_imm (d n imm : Z) : Z :=
  0x91000000 .| at_bit imm 10 .| at_bit n 5 .| u32 d.
Definition a64_sub_imm (d n imm : Z) : Z :=
  0xD1000000 .| at_bit imm 10 .| at_bit n 5 .| u32 d.
Definition a64_add_shift (d n m shift : Z) : Z :=
  0x8B000000 .| at_bit m 16 .| at_bit shift 10 .| at_bit n 5 .| u32 d.
Definition a64_mul (d n m : Z) : Z :=
  0x9B007C00 .| at_bit m 16 .| at_bit n 5 .| u32 d.
Definition a64_mul_w (d n m : Z) : Z :=
  0x1B007C00 .| at_bit m 16 .| at_bit n 5 .| u32 d.
Definition a64_ldrh (t n off : Z) : Z :=
  0x79400000 .| at_bit (off / 2) 10 .| at_bit n 5 .| u32 t.
Definition a64_strh (t n off : Z) : Z :=
  0x79000000 .| at_bit (off / 2) 10 .| at_bit n 5 .| u32 t.
Definition a64_b (imm26 : Z) : Z :=
  0x14000000 .| (u32 imm26 .& 0x3FFFFFF).
Definition a64_ldrb (t n off : Z) : Z :=
  0x39400000 .| at_bit off 10 .| at_bit n 5 .| u32 t.
Definition a64_strb (t n off : Z) : Z :=
  0x39000000 .| at_bit off 10 .| at_bit n 5 .| u32 t.
Definition a64_ubfx (d n lsb width : Z) : Z :=
  0xD3400000 .| at_bit lsb 16 .| at_bit (lsb + width - 1) 10 .| at_bit n 5 .| u32 d.
Definition a64_bfi (d n lsb width : Z) : Z :=
  0xB3400000 .| at_bit ((64 - lsb) .& 63) 16 .| at_bit (width - 1) 10 .| at_bit n 5 .| u32 d.
Definition a64_sxt (d n bits : Z) : Z :=
  0x93400000 .| at_bit (bits - 1) 10 .| at_bit n 5 .| u32 d.
Definition a64_sxt_w (d n bits : Z) : Z :=
  0x13000000 .| at_bit (bits - 1) 10 .| at_bit n 5 .| u32 d.
Definition a64_cbz_w (t imm19 : Z) : Z :=
  0x34000000 .| at_bit (u32 imm19 .& 0x7FFFF) 5 .| u32 t.
Definition a64_cmp0 (n : Z) : Z :=
  0xF100001F .| at_bit n 5.
Definition a64_csel (d n m cond : Z) : Z :=
  0x9A800000 .| at_bit m 16 .| at_bit cond 12 .| at_bit n 5 .| u32 d.
Definition a64_bic (d n m : Z) : Z :=
  0x8A200000 .| at_bit m 16 .| at_bit n 5 .| u32 d.
Definition a64_csetm (d cond : Z) : Z :=
  0xDA9F03E0 .| at_bit (cond .^ 1) 12 .| u32 d.
Definition a64_csetm_w (d cond : Z) : Z :=
  0x5A9F03E0 .| at_bit (cond .^ 1) 12 .| u32 d.
Definition a64_adds_zr (n m : Z) (w : bool) : Z :=
  (if w then 0x2B00001F else 0xAB00001F) .| at_bit m 16 .| at_bit n 5.
Definition a64_subs_zr (n m : Z) (w : bool) : Z :=
  (if w then 0x6B00001F else 0xEB00001F) .| at_bit m 16 .| at_bit n 5.
Definition a64_ands_zr (n m : Z) (w : bool) : Z :=
  (if w then 0x6A00001F else 0xEA00001F) .| at_bit m 16 .| at_bit n 5.
Definition a64_orr_lsl (d n m sh : Z) : Z :=
  0xAA000000 .| at_bit m 16 .| at_bit sh 10 .| at_bit n 5 .| u32 d.
Definition a64_eor_lsr (d n m sh : Z) : Z :=
  0xCA400000 .| at_bit m 16 .| at_bit sh 10 .| at_bit n 5 .| u32 d.
Definition a64_eor_bit (d n k : Z) : Z :=
  0xD2400000 .| at_bit ((64 - k) .& 63) 16 .| at_bit n 5 .| u32 d.
Definition a64_cset (d cond : Z) : Z :=
  0x9A9F07E0 .| at_bit (cond .^ 1) 12 .| u32 d.
Definition a64_ldr_d (t n off : Z) : Z :=
  0xFD400000 .| at_bit (off / 8) 10 .| at_bit n 5 .| u32 t.
Definition a64_str_d (t n off : Z) : Z :=
  0xFD000000 .| at_bit (off / 8) 10 .| at_bit n 5 .| u32 t.
Definition a64_ldr_s (t n off : Z) : Z :=
  0xBD400000 .| at_bit (off / 4) 10 .| at_bit n 5 .| u32 t.
Definition a64_str_s (t n off : Z) : Z :=
  0xBD000000 .| at_bit (off / 4) 10 .| at_bit n 5 .| u32 t.
Definition a64_ldr_w (t n off : Z) : Z :=
  0xB9400000 .| at_bit (off / 4) 10 .| at_bit n 5 .| u32 t.
Definition a64_str_w (t n off : Z) : Z :=
  0xB9000000 .| at_bit (off / 4) 10 .| at_bit n 5 .| u32 t.
Definition a64_fop_d (op d n m : Z) : Z :=
  0x1E600000 .| u32 op .| at_bit m 16 .| at_bit n 5 .| u32 d.
Definition a64_fop_s (op d n m : Z) : Z :=
  0x1E200000 .| u32 op .| at_bit m 16 .| at_bit n 5 .| u32 d.
Definition a64_fsqrt_d (d n : Z) : Z :=
  0x1E61C000 .| at_bit n 5 .| u32 d.
Definition a64_fsqrt_s (d n : Z) : Z :=
  0x1E21C000 .| at_bit n 5 .| u32 d.
Definition a64_fcmp_d (n m : Z) : Z :=
  0x1E602000 .| at_bit m 16 .| at_bit n 5.
Definition a64_fcmp_s (n m : Z) : Z :=
  0x1E202000 .| at_bit m 16 .| at_bit n 5.
Definition a64_fcsel_d (d n m cond : Z) : Z :=
  0x1E600C00 .| at_bit m 16 .| at_bit cond 12 .| at_bit n 5 .| u32 d.
Definition a64_fcsel_s (d n m cond : Z) : Z :=
  0x1E200C00 .| at_bit m 16 .| at_bit cond 12 .| at_bit n 5 .| u32 d.
Definition a64_fmov_dx (d n : Z) : Z :=
  0x9E670000 .| at_bit n 5 .| u32 d.
Definition a64_fmov_xd (d n : Z) : Z :=
  0x9E660000 .| at_bit n 5 .| u32 d.
Definition a64_fmov_sw (d n : Z) : Z :=
  0x1E270000 .| at_bit n 5 .| u32 d.
Definition a64_fmov_ws (d n : Z) : Z :=
  0x1E260000 .| at_bit n 5 .| u32 d.
Definition a64_scvtf_dx (d n : Z) : Z :=
  0x9E620000 .| at_bit n 5 .| u32 d.
Definition a64_scvtf_dw (d n : Z) : Z :=
  0x1E620000 .| at_bit n 5 .| u32 d.
Definition a64_scvtf_sx (d n : Z) : Z :=
  0x9E220000 .| at_bit n 5 .| u32 d.
Definition a64_scvtf_sw (d n : Z) : Z :=
  0x1E220000 .| at_bit n 5 .| u32 d.
Definition a64_fcvt_sd (d n : Z) : Z :=
  0x1E624000 .| at_bit n 5 .| u32 d.
Definition a64_fcvt_ds (d n : Z) : Z :=
  0x1E22C000 .| at_bit n 5 .| u32 d.
Definition a64_bcond (cond imm19 : Z) : Z :=
  0x54000000 .| at_bit (u32 imm19 .& 0x7FFFF) 5 .| u32 cond.
Definition a64_blr (n : Z) : Z :=
  0xD63F0000 .| at_bit n 5.
Definition a64_ret : Z :=
  0xD65F03C0.

(* ------------------------------------------------------------------ *)
(** ** What each word says *)

Abbreviation xreg := (urange 5).

(** [emitted w i]: [w] is the word an encoder gives for operands it takes, and
    [i] the instruction its comment names. *)
Inductive emitted : Z -> a64 -> Prop :=
| em_ldr t n off : xreg t -> xreg n -> off mod 8 = 0 -> 0 <= off <= 32760 ->
    emitted (a64_ldr t n off) (LdStImm 3 false 1 (off / 8) n t)
| em_str t n off : xreg t -> xreg n -> off mod 8 = 0 -> 0 <= off <= 32760 ->
    emitted (a64_str t n off) (LdStImm 3 false 0 (off / 8) n t)
| em_push t : xreg t -> emitted (a64_push t) (LdStIdx 3 0 true (-16) 31 t)
| em_pop t : xreg t -> emitted (a64_pop t) (LdStIdx 3 1 false 16 31 t)
| em_movz d imm hw : xreg d -> urange 16 imm -> urange 2 hw ->
    emitted (a64_movz d imm hw) (MovWide true 2 hw imm d)
| em_movk d imm hw : xreg d -> urange 16 imm -> urange 2 hw ->
    emitted (a64_movk d imm hw) (MovWide true 3 hw imm d)
| em_mov d m : xreg d -> xreg m -> emitted (a64_mov d m) (LogReg true 1 0 false m 0 31 d)
| em_mov_w d m : xreg d -> xreg m -> emitted (a64_mov_w d m) (LogReg false 1 0 false m 0 31 d)
| em_add d n m : xreg d -> xreg n -> xreg m ->
    emitted (a64_add d n m) (AddSubReg true false false 0 m 0 n d)
| em_sub d n m : xreg d -> xreg n -> xreg m ->
    emitted (a64_sub d n m) (AddSubReg true true false 0 m 0 n d)
| em_add_w d n m : xreg d -> xreg n -> xreg m ->
    emitted (a64_add_w d n m) (AddSubReg false false false 0 m 0 n d)
| em_sub_w d n m : xreg d -> xreg n -> xreg m ->
    emitted (a64_sub_w d n m) (AddSubReg false true false 0 m 0 n d)
| em_and d n m : xreg d -> xreg n -> xreg m -> emitted (a64_and d n m) (LogReg true 0 0 false m 0 n d)
| em_orr d n m : xreg d -> xreg n -> xreg m -> emitted (a64_orr d n m) (LogReg true 1 0 false m 0 n d)
| em_eor d n m : xreg d -> xreg n -> xreg m -> emitted (a64_eor d n m) (LogReg true 2 0 false m 0 n d)
| em_and_w d n m : xreg d -> xreg n -> xreg m ->
    emitted (a64_and_w d n m) (LogReg false 0 0 false m 0 n d)
| em_orr_w d n m : xreg d -> xreg n -> xreg m ->
    emitted (a64_orr_w d n m) (LogReg false 1 0 false m 0 n d)
| em_eor_w d n m : xreg d -> xreg n -> xreg m ->
    emitted (a64_eor_w d n m) (LogReg false 2 0 false m 0 n d)
| em_bic d n m : xreg d -> xreg n -> xreg m -> emitted (a64_bic d n m) (LogReg true 0 0 true m 0 n d)
| em_add_imm d n imm : xreg d -> xreg n -> urange 12 imm ->
    emitted (a64_add_imm d n imm) (AddSubImm true false false imm n d)
| em_sub_imm d n imm : xreg d -> xreg n -> urange 12 imm ->
    emitted (a64_sub_imm d n imm) (AddSubImm true true false imm n d)
| em_add_shift d n m shift : xreg d -> xreg n -> xreg m -> urange 6 shift ->
    emitted (a64_add_shift d n m shift) (AddSubReg true false false 0 m shift n d)
| em_mul d n m : xreg d -> xreg n -> xreg m -> emitted (a64_mul d n m) (Madd true m 31 n d)
| em_mul_w d n m : xreg d -> xreg n -> xreg m -> emitted (a64_mul_w d n m) (Madd false m 31 n d)
| em_ldrh t n off : xreg t -> xreg n -> off mod 2 = 0 -> 0 <= off <= 8190 ->
    emitted (a64_ldrh t n off) (LdStImm 1 false 1 (off / 2) n t)
| em_strh t n off : xreg t -> xreg n -> off mod 2 = 0 -> 0 <= off <= 8190 ->
    emitted (a64_strh t n off) (LdStImm 1 false 0 (off / 2) n t)
| em_ldrb t n off : xreg t -> xreg n -> 0 <= off < 4096 ->
    emitted (a64_ldrb t n off) (LdStImm 0 false 1 off n t)
| em_strb t n off : xreg t -> xreg n -> 0 <= off < 4096 ->
    emitted (a64_strb t n off) (LdStImm 0 false 0 off n t)
| em_ldr_w t n off : xreg t -> xreg n -> off mod 4 = 0 -> 0 <= off <= 16380 ->
    emitted (a64_ldr_w t n off) (LdStImm 2 false 1 (off / 4) n t)
| em_str_w t n off : xreg t -> xreg n -> off mod 4 = 0 -> 0 <= off <= 16380 ->
    emitted (a64_str_w t n off) (LdStImm 2 false 0 (off / 4) n t)
| em_ldr_d t n off : xreg t -> xreg n -> off mod 8 = 0 -> 0 <= off <= 32760 ->
    emitted (a64_ldr_d t n off) (LdStImm 3 true 1 (off / 8) n t)
| em_str_d t n off : xreg t -> xreg n -> off mod 8 = 0 -> 0 <= off <= 32760 ->
    emitted (a64_str_d t n off) (LdStImm 3 true 0 (off / 8) n t)
| em_ldr_s t n off : xreg t -> xreg n -> off mod 4 = 0 -> 0 <= off <= 16380 ->
    emitted (a64_ldr_s t n off) (LdStImm 2 true 1 (off / 4) n t)
| em_str_s t n off : xreg t -> xreg n -> off mod 4 = 0 -> 0 <= off <= 16380 ->
    emitted (a64_str_s t n off) (LdStImm 2 true 0 (off / 4) n t)
| em_b imm : - 2 ^ 25 <= imm < 2 ^ 25 -> emitted (a64_b imm) (BranchImm imm)
| em_bcond c imm : urange 4 c -> - 2 ^ 18 <= imm < 2 ^ 18 ->
    emitted (a64_bcond c imm) (BranchCond c imm)
| em_cbz_w t imm : xreg t -> - 2 ^ 18 <= imm < 2 ^ 18 ->
    emitted (a64_cbz_w t imm) (CmpBranch false false imm t)
| em_blr n : xreg n -> emitted (a64_blr n) (BranchReg 1 n)
| em_ret : emitted a64_ret (BranchReg 2 30)
| em_ubfx d n lsb width : xreg d -> xreg n -> 0 <= lsb -> 0 < width -> lsb + width <= 64 ->
    emitted (a64_ubfx d n lsb width) (Bitfield true 2 lsb (lsb + width - 1) n d)
| em_bfi d n lsb width : xreg d -> xreg n -> 0 <= lsb -> 0 < width -> lsb + width <= 64 ->
    emitted (a64_bfi d n lsb width) (Bitfield true 1 ((64 - lsb) mod 64) (width - 1) n d)
| em_sxt d n b : xreg d -> xreg n -> 0 < b <= 32 ->
    emitted (a64_sxt d n b) (Bitfield true 0 0 (b - 1) n d)
| em_sxt_w d n b : xreg d -> xreg n -> 0 < b <= 32 ->
    emitted (a64_sxt_w d n b) (Bitfield false 0 0 (b - 1) n d)
| em_cmp0 n : xreg n -> emitted (a64_cmp0 n) (AddSubImm true true true 0 n 31)
| em_csel d n m c : xreg d -> xreg n -> xreg m -> urange 4 c ->
    emitted (a64_csel d n m c) (CondSel true false 0 m c n d)
| em_cset d c : xreg d -> urange 4 c ->
    emitted (a64_cset d c) (CondSel true false 1 31 (c .^ 1) 31 d)
| em_csetm d c : xreg d -> urange 4 c ->
    emitted (a64_csetm d c) (CondSel true true 0 31 (c .^ 1) 31 d)
| em_csetm_w d c : xreg d -> urange 4 c ->
    emitted (a64_csetm_w d c) (CondSel false true 0 31 (c .^ 1) 31 d)
| em_adds_zr n m w : xreg n -> xreg m ->
    emitted (a64_adds_zr n m w) (AddSubReg (negb w) false true 0 m 0 n 31)
| em_subs_zr n m w : xreg n -> xreg m ->
    emitted (a64_subs_zr n m w) (AddSubReg (negb w) true true 0 m 0 n 31)
| em_ands_zr n m w : xreg n -> xreg m ->
    emitted (a64_ands_zr n m w) (LogReg (negb w) 3 0 false m 0 n 31)
| em_orr_lsl d n m sh : xreg d -> xreg n -> xreg m -> urange 6 sh ->
    emitted (a64_orr_lsl d n m sh) (LogReg true 1 0 false m sh n d)
| em_eor_lsr d n m sh : xreg d -> xreg n -> xreg m -> urange 6 sh ->
    emitted (a64_eor_lsr d n m sh) (LogReg true 2 1 false m sh n d)
| em_eor_bit d n k : xreg d -> xreg n -> urange 6 k ->
    emitted (a64_eor_bit d n k) (LogImm true 2 1 ((64 - k) mod 64) 0 n d)
| em_fop_d op d n m : In op [FOP_MUL; FOP_DIV; FOP_ADD; FOP_SUB] -> xreg d -> xreg n -> xreg m ->
    emitted (a64_fop_d op d n m) (FpArith 1 (op >> 12) m n d)
| em_fop_s op d n m : In op [FOP_MUL; FOP_DIV; FOP_ADD; FOP_SUB] -> xreg d -> xreg n -> xreg m ->
    emitted (a64_fop_s op d n m) (FpArith 0 (op >> 12) m n d)
| em_fsqrt_d d n : xreg d -> xreg n -> emitted (a64_fsqrt_d d n) (FpUnary 1 3 n d)
| em_fsqrt_s d n : xreg d -> xreg n -> emitted (a64_fsqrt_s d n) (FpUnary 0 3 n d)
| em_fcmp_d n m : xreg n -> xreg m -> emitted (a64_fcmp_d n m) (FpCmp 1 m n)
| em_fcmp_s n m : xreg n -> xreg m -> emitted (a64_fcmp_s n m) (FpCmp 0 m n)
| em_fcsel_d d n m c : xreg d -> xreg n -> xreg m -> In c [A64_MI; A64_GT] ->
    emitted (a64_fcsel_d d n m c) (FpSel 1 m c n d)
| em_fcsel_s d n m c : xreg d -> xreg n -> xreg m -> In c [A64_MI; A64_GT] ->
    emitted (a64_fcsel_s d n m c) (FpSel 0 m c n d)
| em_fmov_dx d n : xreg d -> xreg n -> emitted (a64_fmov_dx d n) (FpInt true 1 0 7 n d)
| em_fmov_xd d n : xreg d -> xreg n -> emitted (a64_fmov_xd d n) (FpInt true 1 0 6 n d)
| em_fmov_sw d n : xreg d -> xreg n -> emitted (a64_fmov_sw d n) (FpInt false 0 0 7 n d)
| em_fmov_ws d n : xreg d -> xreg n -> emitted (a64_fmov_ws d n) (FpInt false 0 0 6 n d)
| em_scvtf_dx d n : xreg d -> xreg n -> emitted (a64_scvtf_dx d n) (FpInt true 1 0 2 n d)
| em_scvtf_dw d n : xreg d -> xreg n -> emitted (a64_scvtf_dw d n) (FpInt false 1 0 2 n d)
| em_scvtf_sx d n : xreg d -> xreg n -> emitted (a64_scvtf_sx d n) (FpInt true 0 0 2 n d)
| em_scvtf_sw d n : xreg d -> xreg n -> emitted (a64_scvtf_sw d n) (FpInt false 0 0 2 n d)
| em_fcvt_sd d n : xreg d -> xreg n -> emitted (a64_fcvt_sd d n) (FpUnary 1 4 n d)
| em_fcvt_ds d n : xreg d -> xreg n -> emitted (a64_fcvt_ds d n) (FpUnary 0 5 n d).

(* ------------------------------------------------------------------ *)
(** ** Fields of a word *)

Lemma bits_lor a b lo n : bits (a .| b) lo n = bits a lo n .| bits b lo n.
Proof. unfold bits. by rewrite Z.shiftr_lor, Z.land_lor_distr_l. Qed.

Lemma at_bit_small x s k :
  urange k x -> 0 <= k -> 0 <= s -> s + k <= 32 -> at_bit x s = x << s.
Proof.
  intros Hx Hk Hs Hl. unfold at_bit. rewrite (uwrap_small 32 x) by (eapply urange_mono, Hx; lia).
  apply uwrap_small. rewrite Z.shiftl_mul_pow2 by lia. unfold urange in *.
  assert (2 ^ (s + k) <= 2 ^ 32) by (apply Z.pow_le_mono_r; lia). rewrite Z.pow_add_r in * by lia.
  assert (0 < 2 ^ s) by (apply Z.pow_pos_nonneg; lia). nia.
Qed.

Lemma bits_at_field x s k n :
  urange k x -> 0 <= k <= n -> 0 <= s -> s + k <= 32 -> bits (at_bit x s) s n = x.
Proof.
  intros Hx Hk Hs Hl. rewrite (at_bit_small x s k) by (done || lia). unfold bits.
  rewrite Z.shiftr_shiftl_l, Z.sub_diag, Z.shiftl_0_r, land_ones_uwrap by lia.
  apply uwrap_small. eapply urange_mono, Hx; lia.
Qed.

Lemma bits_at_outside x s k lo n :
  urange k x -> 0 <= k -> 0 <= s -> s + k <= 32 -> 0 <= lo -> 0 <= n -> s + k <= lo \/ lo + n <= s ->
  bits (at_bit x s) lo n = 0.
Proof.
  intros Hx Hk Hs Hl Hlo Hn Hd. rewrite (at_bit_small x s k) by (done || lia). unfold bits.
  apply Z.bits_inj'. intros i Hi. rewrite Z.land_spec, Z.bits_0, Z.shiftr_spec, Z.shiftl_spec by lia.
  destruct (decide (i < n)) as [Hin|Hin].
  - destruct Hd as [Hd|Hd]; [|by rewrite (Z.testbit_neg_r x) by lia].
    by rewrite (urange_testbit_high k x) by (done || lia).
  - by rewrite Z.ones_spec_high, andb_false_r by lia.
Qed.

Lemma at_bit_0 x : u32 x = at_bit x 0.
Proof. unfold at_bit. rewrite Z.shiftl_0_r. by rewrite uwrap_uwrap. Qed.

Lemma low_bits k imm : 0 <= k <= 32 -> urange k (u32 imm .& Z.ones k) /\ u32 imm .& Z.ones k = uwrap k imm.
Proof.
  intros Hk. rewrite land_ones_uwrap by lia. split; [apply uwrap_range; lia|by apply uwrap_le].
Qed.

Lemma signed_field k imm :
  0 < k <= 32 -> - 2 ^ (k - 1) <= imm < 2 ^ (k - 1) -> swrap k (u32 imm .& Z.ones k) = imm.
Proof.
  intros Hk Hi. rewrite (proj2 (low_bits k imm ltac:(lia))).
  transitivity (swrap k imm); [|apply swrap_small; lia].
  unfold swrap. change (uwrap k imm) with (imm mod 2 ^ k). rewrite Z.mod_mod; [done|]. apply Z.pow_nonzero; lia.
Qed.

(** Evaluate the fields of a word built from fields of known width. *)
Ltac field_step :=
  match goal with
  | |- context [bits (Zpos ?p) ?lo ?n] =>
      let v := eval vm_compute in (bits (Zpos p) lo n) in change (bits (Zpos p) lo n) with v
  | H : urange ?k ?x |- context [bits (at_bit ?x ?s) ?s ?n] =>
      rewrite (bits_at_field x s k n H) by lia
  | H : urange ?k ?x |- context [bits (at_bit ?x ?s) ?lo ?n] =>
      rewrite (bits_at_outside x s k lo n H) by lia
  end.

Ltac fields := rewrite ?bits_lor; repeat field_step; rewrite ?Z.lor_0_r, ?Z.lor_0_l.

Ltac decode_word :=
  unfold a64_decode; cbv zeta; fields;
  cbn [Z.lor Pos.lor is_one_of existsb Z.eqb Pos.eqb orb];
  unfold decode_imm, decode_branch, decode_ldst, decode_reg, decode_fp; cbv zeta; fields;
  cbn [Z.lor Pos.lor Z.eqb Pos.eqb orb andb negb nz];
  reflexivity.

Lemma scaled_offset off k w :
  0 < k -> 0 <= off < k * 2 ^ w -> urange w (off / k).
Proof. intros Hk Ho. split; [apply Z.div_pos; lia|apply Z.div_lt_upper_bound; lia]. Qed.

Lemma width_field x : 0 <= x < 64 -> urange 6 x.
Proof. done. Qed.

Lemma wrap_field k : urange 6 ((64 - k) .& 63) /\ (64 - k) .& 63 = (64 - k) mod 64.
Proof.
  change 63 with (Z.ones 6). rewrite land_ones_uwrap by done. split; [by apply uwrap_range|done].
Qed.

Lemma cond_field c : urange 4 c -> urange 4 (c .^ 1).
Proof. intros Hc. by apply urange_lxor. Qed.

Lemma b_word imm : - 2 ^ 25 <= imm < 2 ^ 25 -> a64_decode (a64_b imm) = Some (BranchImm imm).
Proof.
  intros Hi. unfold a64_b. change 0x3FFFFFF with (Z.ones 26).
  pose proof (proj1 (low_bits 26 imm ltac:(lia))) as Hr.
  transitivity (Some (BranchImm (swrap 26 (u32 imm .& Z.ones 26)))); [|by rewrite signed_field by lia].
  set (x := u32 imm .& Z.ones 26) in *. clearbody x.
  assert (Hx : at_bit x 0 = x) by (rewrite <- at_bit_0; apply uwrap_small; by eapply urange_mono, Hr).
  (* the top bit of the offset is the low bit of the encoding group *)
  assert (Hb : bits x 25 4 = 0 \/ bits x 25 4 = 1).
  { unfold bits. rewrite land_ones_uwrap, Z.shiftr_div_pow2 by done. zdm. }
  unfold a64_decode. cbv zeta. rewrite bits_lor. change (bits 0x14000000 25 4) with 10.
  replace (is_one_of (10 .| bits x 25 4) [8; 9]) with false by (by destruct Hb as [-> | ->]).
  replace (is_one_of (10 .| bits x 25 4) [10; 11]) with true by (by destruct Hb as [-> | ->]).
  assert (H1 : bits x 26 6 = 0) by (rewrite <- Hx; fields; done).
  assert (H2 : bits x 0 26 = x) by (rewrite <- Hx at 1; fields; done).
  unfold decode_branch. rewrite !bits_lor, H1, H2. done.
Qed.

Lemma bcond_word c imm :
  urange 4 c -> - 2 ^ 18 <= imm < 2 ^ 18 -> a64_decode (a64_bcond c imm) = Some (BranchCond c imm).
Proof.
  intros Hc Hi. unfold a64_bcond. change 0x7FFFF with (Z.ones 19).
  pose proof (proj1 (low_bits 19 imm ltac:(lia))) as Hr.
  transitivity (Some (BranchCond c (swrap 19 (u32 imm .& Z.ones 19)))); [|by rewrite signed_field by lia].
  set (x := u32 imm .& Z.ones 19) in *. clearbody x. rewrite at_bit_0. decode_word.
Qed.

Lemma cbz_word t imm :
  xreg t -> - 2 ^ 18 <= imm < 2 ^ 18 ->
  a64_decode (a64_cbz_w t imm) = Some (CmpBranch false false imm t).
Proof.
  intros Ht Hi. unfold a64_cbz_w. change 0x7FFFF with (Z.ones 19).
  pose proof (proj1 (low_bits 19 imm ltac:(lia))) as Hr.
  transitivity (Some (CmpBranch false false (swrap 19 (u32 imm .& Z.ones 19)) t));
    [|by rewrite signed_field by lia].
  set (x := u32 imm .& Z.ones 19) in *. clearbody x. rewrite at_bit_0. decode_word.
Qed.

Lemma at_bit_range x s : urange 32 (at_bit x s).
Proof. by apply uwrap_range. Qed.

Lemma emitted_range w i : emitted w i -> urange 32 w.
Proof.
  destruct 1; repeat first
    [ apply at_bit_range | apply uwrap_range; lia | done
    | apply urange_lor; [lia| |] | apply urange_land; [lia| |done] | case_match
    | match goal with H : In _ _ |- _ => cbn in H; decompose sum H; subst; clear H end ].
Qed.

(** The word of every encoder is decoded to the instruction it is named after. *)
Lemma emitted_word w i : emitted w i -> a64_decode w = Some i.
Proof.
  destruct 1;
    lazymatch goal with
    | |- a64_decode (a64_b _) = _ => by apply b_word
    | |- a64_decode (a64_bcond _ _) = _ => by apply bcond_word
    | |- a64_decode (a64_cbz_w _ _) = _ => by apply cbz_word
    | _ => idtac
    end;
    unfold a64_ldr, a64_str, a64_push, a64_pop, a64_movz, a64_movk, a64_mov, a64_add,
      a64_sub, a64_and, a64_orr, a64_eor, a64_add_w, a64_sub_w, a64_and_w, a64_orr_w,
      a64_eor_w, a64_mov_w, a64_add_imm, a64_sub_imm, a64_add_shift, a64_mul, a64_mul_w, a64_ldrh,
      a64_strh, a64_ldrb, a64_strb, a64_ubfx, a64_bfi, a64_sxt, a64_sxt_w, a64_cmp0,
      a64_csel, a64_bic, a64_csetm, a64_csetm_w, a64_adds_zr, a64_subs_zr, a64_ands_zr, a64_orr_lsl,
      a64_eor_lsr, a64_eor_bit, a64_cset, a64_ldr_d, a64_str_d, a64_ldr_s, a64_str_s, a64_ldr_w,
      a64_str_w, a64_fop_d, a64_fop_s, a64_fsqrt_d, a64_fsqrt_s, a64_fcmp_d, a64_fcmp_s, a64_fcsel_d,
      a64_fcsel_s, a64_fmov_dx, a64_fmov_xd, a64_fmov_sw, a64_fmov_ws, a64_scvtf_dx, a64_scvtf_dw, a64_scvtf_sx,
      a64_scvtf_sw, a64_fcvt_sd, a64_fcvt_ds, a64_blr, a64_ret;
    rewrite ?at_bit_0.
  all: try (pose proof (scaled_offset off 8 12 ltac:(lia) ltac:(lia))).
  all: try (pose proof (scaled_offset off 4 12 ltac:(lia) ltac:(lia))).
  all: try (pose proof (scaled_offset off 2 12 ltac:(lia) ltac:(lia))).
  all: try (assert (urange 12 off) by done).
  all: try (pose proof (width_field (lsb + width - 1) ltac:(lia))).
  all: try (pose proof (width_field (width - 1) ltac:(lia))).
  all: try (pose proof (width_field lsb ltac:(lia))).
  all: try (pose proof (width_field (b - 1) ltac:(lia))).
  all: try (pose proof (proj1 (wrap_field lsb)); rewrite <- (proj2 (wrap_field lsb))).
  all: try (pose proof (proj1 (wrap_field k)); rewrite <- (proj2 (wrap_field k))).
  all: try (pose proof (cond_field c ltac:(assumption))).
  all: try (match goal with b : bool |- _ => destruct b end).
  all: try (match goal with H : In _ _ |- _ => cbn in H; decompose sum H; subst; clear H end).
  all: try contradiction.
  all: decode_word.
Qed.

(** C20.  Each of the emitter's encoders writes a 32-bit word that the architecture
    decodes to the instruction the encoder is named after, with exactly the
    operands it was given, over the whole range its callers may use. *)
Theorem emitted_decodes w i : emitted w i -> a64_decode w = Some i /\ urange 32 w.
Proof. intros Hw. split; [by apply emitted_word|by eapply emitted_range]. Qed.

(** [add x3, x1, x2], as an assembler writes it. *)
Lemma emitted_decodes_witness :
  a64_add 3 1 2 = 0x8B020023 /\ a64_decode 0x8B020023 = Some (AddSubReg true false false 0 2 0 1 3).
Proof. split; [reflexivity|]. apply (emitted_decodes (a64_add 3 1 2) _). by apply em_add. Defined.
