(* ===== verification/Jit.v ===== *)
(** What the block compiler understands ([decode] to [flag_liveness] in
    [src/jit.c]): guest instructions as records, read from guest memory, and
    the backward pass that finds the flags worth computing. *)
From S2P Require Import Prelude.
From S2P Require Import Memory.
From S2P Require Import AddressSpace.
From S2P Require Import Flags.
From S2P Require Import Machine.

(* ------------------------------------------------------------------ *)
(** ** The compilable subset *)

Definition OP_INC : Z := 0x100.
Definition OP_DEC : Z := 0x101.

(** [K_NONE] is the zero of [memset]. *)
Inductive ikind :=
| K_NONE | K_RR | K_RI | K_RM | K_MR | K_MI | K_LEA | K_PUSH | K_POP | K_NOP | K_SSE
| K_MOVX | K_SHIFT | K_IMUL | K_SETCC
| K_JCC | K_JMP | K_CALL | K_RET | K_CALLM | K_JMPM.

#[global] Instance ikind_eq_dec : EqDecision ikind.
Proof. solve_decision. Defined.

(** The memory operand of an instruction. *)
Record memop := MemOp {
  o_mem : bool; o_has_base : bool; o_has_index : bool; o_riprel : bool;
  o_base : Z; o_index : Z; o_scale : Z; o_disp : Z
}.

(** The fields only SSE instructions use. *)
Record sseop := SseOp {
  o_mand : Z; o_op2 : Z; o_xreg : Z; o_xsrc : Z; o_isize : Z; o_pred : Z
}.

Record insn := Insn {
  i_kind : ikind;
  i_op : Z;
  i_size : Z;
  i_len : Z;
  i_reg : Z;
  i_src : Z;
  i_mo : memop;
  i_imm : Z;
  i_no_write : bool;
  i_has_rex : bool;
  i_ssize : Z;
  i_sign : bool;
  i_ext : Z;
  i_by_cl : bool;
  i_imm_src : bool;
  i_cc : Z;
  i_fneed : Z;
  i_next : Z;
  i_target : Z;
  i_sse : sseop
}.

Definition iw_kind (v : ikind) (o : insn) : insn :=
  Insn v (i_op o) (i_size o) (i_len o) (i_reg o) (i_src o) (i_mo o) (i_imm o) (i_no_write o)
    (i_has_rex o) (i_ssize o) (i_sign o) (i_ext o) (i_by_cl o) (i_imm_src o) (i_cc o)
    (i_fneed o) (i_next o) (i_target o) (i_sse o).
Definition iw_op (v : Z) (o : insn) : insn :=
  Insn (i_kind o) v (i_size o) (i_len o) (i_reg o) (i_src o) (i_mo o) (i_imm o) (i_no_write
    o) (i_has_rex o) (i_ssize o) (i_sign o) (i_ext o) (i_by_cl o) (i_imm_src o) (i_cc o)
    (i_fneed o) (i_next o) (i_target o) (i_sse o).
Definition iw_size (v : Z) (o : insn) : insn :=
  Insn (i_kind o) (i_op o) v (i_len o) (i_reg o) (i_src o) (i_mo o) (i_imm o) (i_no_write o)
    (i_has_rex o) (i_ssize o) (i_sign o) (i_ext o) (i_by_cl o) (i_imm_src o) (i_cc o)
    (i_fneed o) (i_next o) (i_target o) (i_sse o).
Definition iw_len (v : Z) (o : insn) : insn :=
  Insn (i_kind o) (i_op o) (i_size o) v (i_reg o) (i_src o) (i_mo o) (i_imm o) (i_no_write
    o) (i_has_rex o) (i_ssize o) (i_sign o) (i_ext o) (i_by_cl o) (i_imm_src o) (i_cc o)
    (i_fneed o) (i_next o) (i_target o) (i_sse o).
Definition iw_reg (v : Z) (o : insn) : insn :=
  Insn (i_kind o) (i_op o) (i_size o) (i_len o) v (i_src o) (i_mo o) (i_imm o) (i_no_write
    o) (i_has_rex o) (i_ssize o) (i_sign o) (i_ext o) (i_by_cl o) (i_imm_src o) (i_cc o)
    (i_fneed o) (i_next o) (i_target o) (i_sse o).
Definition iw_src (v : Z) (o : insn) : insn :=
  Insn (i_kind o) (i_op o) (i_size o) (i_len o) (i_reg o) v (i_mo o) (i_imm o) (i_no_write
    o) (i_has_rex o) (i_ssize o) (i_sign o) (i_ext o) (i_by_cl o) (i_imm_src o) (i_cc o)
    (i_fneed o) (i_next o) (i_target o) (i_sse o).
Definition iw_mo (v : memop) (o : insn) : insn :=
  Insn (i_kind o) (i_op o) (i_size o) (i_len o) (i_reg o) (i_src o) v (i_imm o) (i_no_write
    o) (i_has_rex o) (i_ssize o) (i_sign o) (i_ext o) (i_by_cl o) (i_imm_src o) (i_cc o)
    (i_fneed o) (i_next o) (i_target o) (i_sse o).
Definition iw_imm (v : Z) (o : insn) : insn :=
  Insn (i_kind o) (i_op o) (i_size o) (i_len o) (i_reg o) (i_src o) (i_mo o) v (i_no_write
    o) (i_has_rex o) (i_ssize o) (i_sign o) (i_ext o) (i_by_cl o) (i_imm_src o) (i_cc o)
    (i_fneed o) (i_next o) (i_target o) (i_sse o).
Definition iw_no_write (v : bool) (o : insn) : insn :=
  Insn (i_kind o) (i_op o) (i_size o) (i_len o) (i_reg o) (i_src o) (i_mo o) (i_imm o) v
    (i_has_rex o) (i_ssize o) (i_sign o) (i_ext o) (i_by_cl o) (i_imm_src o) (i_cc o)
    (i_fneed o) (i_next o) (i_target o) (i_sse o).
Definition iw_has_rex (v : bool) (o : insn) : insn :=
  Insn (i_kind o) (i_op o) (i_size o) (i_len o) (i_reg o) (i_src o) (i_mo o) (i_imm o)
    (i_no_write o) v (i_ssize o) (i_sign o) (i_ext o) (i_by_cl o) (i_imm_src o) (i_cc o)
    (i_fneed o) (i_next o) (i_target o) (i_sse o).
Definition iw_ssize (v : Z) (o : insn) : insn :=
  Insn (i_kind o) (i_op o) (i_size o) (i_len o) (i_reg o) (i_src o) (i_mo o) (i_imm o)
    (i_no_write o) (i_has_rex o) v (i_sign o) (i_ext o) (i_by_cl o) (i_imm_src o) (i_cc o)
    (i_fneed o) (i_next o) (i_target o) (i_sse o).
Definition iw_sign (v : bool) (o : insn) : insn :=
  Insn (i_kind o) (i_op o) (i_size o) (i_len o) (i_reg o) (i_src o) (i_mo o) (i_imm o)
    (i_no_write o) (i_has_rex o) (i_ssize o) v (i_ext o) (i_by_cl o) (i_imm_src o) (i_cc o)
    (i_fneed o) (i_next o) (i_target o) (i_sse o).
Definition iw_ext (v : Z) (o : insn) : insn :=
  Insn (i_kind o) (i_op o) (i_size o) (i_len o) (i_reg o) (i_src o) (i_mo o) (i_imm o)
    (i_no_write o) (i_has_rex o) (i_ssize o) (i_sign o) v (i_by_cl o) (i_imm_src o) (i_cc o)
    (i_fneed o) (i_next o) (i_target o) (i_sse o).
Definition iw_by_cl (v : bool) (o : insn) : insn :=
  Insn (i_kind o) (i_op o) (i_size o) (i_len o) (i_reg o) (i_src o) (i_mo o) (i_imm o)
    (i_no_write o) (i_has_rex o) (i_ssize o) (i_sign o) (i_ext o) v (i_imm_src o) (i_cc o)
    (i_fneed o) (i_next o) (i_target o) (i_sse o).
Definition iw_imm_src (v : bool) (o : insn) : insn :=
  Insn (i_kind o) (i_op o) (i_size o) (i_len o) (i_reg o) (i_src o) (i_mo o) (i_imm o)
    (i_no_write o) (i_has_rex o) (i_ssize o) (i_sign o) (i_ext o) (i_by_cl o) v (i_cc o)
    (i_fneed o) (i_next o) (i_target o) (i_sse o).
Definition iw_cc (v : Z) (o : insn) : insn :=
  Insn (i_kind o) (i_op o) (i_size o) (i_len o) (i_reg o) (i_src o) (i_mo o) (i_imm o)
    (i_no_write o) (i_has_rex o) (i_ssize o) (i_sign o) (i_ext o) (i_by_cl o) (i_imm_src o)
    v (i_fneed o) (i_next o) (i_target o) (i_sse o).
Definition iw_fneed (v : Z) (o : insn) : insn :=
  Insn (i_kind o) (i_op o) (i_size o) (i_len o) (i_reg o) (i_src o) (i_mo o) (i_imm o)
    (i_no_write o) (i_has_rex o) (i_ssize o) (i_sign o) (i_ext o) (i_by_cl o) (i_imm_src o)
    (i_cc o) v (i_next o) (i_target o) (i_sse o).
Definition iw_next (v : Z) (o : insn) : insn :=
  Insn (i_kind o) (i_op o) (i_size o) (i_len o) (i_reg o) (i_src o) (i_mo o) (i_imm o)
    (i_no_write o) (i_has_rex o) (i_ssize o) (i_sign o) (i_ext o) (i_by_cl o) (i_imm_src o)
    (i_cc o) (i_fneed o) v (i_target o) (i_sse o).
Definition iw_target (v : Z) (o : insn) : insn :=
  Insn (i_kind o) (i_op o) (i_size o) (i_len o) (i_reg o) (i_src o) (i_mo o) (i_imm o)
    (i_no_write o) (i_has_rex o) (i_ssize o) (i_sign o) (i_ext o) (i_by_cl o) (i_imm_src o)
    (i_cc o) (i_fneed o) (i_next o) v (i_sse o).
Definition iw_sse (v : sseop) (o : insn) : insn :=
  Insn (i_kind o) (i_op o) (i_size o) (i_len o) (i_reg o) (i_src o) (i_mo o) (i_imm o)
    (i_no_write o) (i_has_rex o) (i_ssize o) (i_sign o) (i_ext o) (i_by_cl o) (i_imm_src o)
    (i_cc o) (i_fneed o) (i_next o) (i_target o) v.

Definition no_memop : memop := MemOp false false false false 0 0 0 0.
Definition zero_insn : insn :=
  Insn K_NONE 0 0 0 0 0 no_memop 0 false false 0 false 0 false false 0 0 0 0 (SseOp 0 0 0 0 0 0).

Definition terminates (k : ikind) : bool :=
  match k with
  | K_JCC | K_JMP | K_CALL | K_RET | K_CALLM | K_JMPM => true
  | _ => false
  end.

(* ------------------------------------------------------------------ *)
(** ** Reading instructions *)

Section decode.
Context `{HostOS}.

(** [p[n++]], and the [memcpy]s of signed 32-bit, unsigned 32-bit and 64-bit
    fields at [p + n]. *)
Definition rd8 (p n : Z) : M (Z * Z) := b ← host_read (p + n) 1; mret (b, n + 1).
Definition rd32 (p n : Z) : M (Z * Z) := v ← host_read (p + n) 4; mret (v, n + 4).
Definition rd64 (p n : Z) : M (Z * Z) := v ← host_read (p + n) 8; mret (v, n + 8).

(** The extension bit [b] of REX, in its place above a three-bit field. *)
Definition rex_ext (rex b : Z) : Z := if nz (rex .& b) then 8 else 0.

(** The reg and rm fields of a ModRM byte, extended. *)
Definition reg_field (rex m : Z) : Z := ((m >> 3) .& 7) .| rex_ext rex 4.
Definition rm_field (rex m : Z) : Z := (m .& 7) .| rex_ext rex 1.

(** The displacement that [mod] adds. *)
Definition add_disp (p n mod_ : Z) (a : memop) : M (Z * memop) :=
  let add d := MemOp (o_mem a) (o_has_base a) (o_has_index a) (o_riprel a) (o_base a) (o_index a)
                     (o_scale a) (s64 (o_disp a + d)) in
  if mod_ =? 1 then '(b, n) ← rd8 p n; mret (n, add (s8 b))
  else if mod_ =? 2 then '(v, n) ← rd32 p n; mret (n, add (s32 v))
  else mret (n, a).

Definition modrm_mem (p n rex m : Z) : M (Z * memop) :=
  let mod_ := m >> 6 in let rmb := m .& 7 in
  if rmb =? 4 then
    '(sib, n) ← rd8 p n;
    let index := ((sib >> 3) .& 7) .| rex_ext rex 2 in
    let base := (sib .& 7) .| rex_ext rex 1 in
    let '(hi, i, s) := if index =? 4 then (false, 0, 0) else (true, index, sib >> 6) in
    if (sib .& 7 =? 5) && (mod_ =? 0) then
      '(v, n) ← rd32 p n; add_disp p n mod_ (MemOp true false hi false 0 i s (s32 v))
    else add_disp p n mod_ (MemOp true true hi false base i s 0)
  else if (rmb =? 5) && (mod_ =? 0) then
    '(v, n) ← rd32 p n; add_disp p n mod_ (MemOp true false false true 0 0 0 (s32 v))
  else add_disp p n mod_ (MemOp true true false false (rm_field rex m) 0 0 0).

Definition decode_sse (p n rex mand op2 : Z) (o : insn) : M (option (Z * insn)) :=
  let scalar := is_one_of mand [0xF2; 0xF3] in
  let packed := is_one_of mand [0x00; 0x66] in
  let accepted :=
    if is_one_of op2 [0x10; 0x11] then true
    else if is_one_of op2 [0x28; 0x29; 0x54; 0x55; 0x56; 0x57; 0x2E; 0x2F] then packed
    else if is_one_of op2 [0xDB; 0xEB; 0xEF] then mand =? 0x66
    else if is_one_of op2 [0x51; 0x58; 0x59; 0x5C; 0x5D; 0x5E; 0x5F; 0xC2; 0x2A; 0x2C; 0x2D; 0x5A]
    then scalar
    else false in
  if negb accepted then mret None else
  '(m, n) ← rd8 p n;
  let isize := if nz (rex .& 8) then 8 else 4 in
  '(n, a, xsrc) ← (if m >> 6 =? 3 then mret (n, i_mo o, rm_field rex m)
                   else '(n, a) ← modrm_mem p n rex m; mret (n, a, 0));
  '(pred, n) ← (if op2 =? 0xC2 then '(b, n) ← rd8 p n; mret (b .& 7, n) else mret (0, n));
  mret (Some (n, iw_kind K_SSE (iw_mo a (iw_sse (SseOp mand op2 (reg_field rex m) xsrc isize pred) o)))).

(** [if ((m >> 6) == 3) o->field = rm; else modrm_mem(...)]. *)
Definition rm_or_mem (p n rex m : Z) (field : Z -> insn -> insn) (o : insn) : M (Z * insn) :=
  if m >> 6 =? 3 then mret (n, field (rm_field rex m) o)
  else '(n, a) ← modrm_mem p n rex m; mret (n, iw_mo a o).

(** The two-register and register-memory ALU forms, test and mov. *)
Definition dec_alu (p n rex op : Z) (o : insn) : M (option (Z * insn)) :=
  let o := if (op .& 1 =? 0) || is_one_of op [0x88; 0x8A] then iw_size 1 o else o in
  '(m, n) ← rd8 p n;
  let regf := reg_field rex m in
  let test := is_one_of op [0x84; 0x85] in
  let to_reg := nz (op .& 2) && negb test in
  '(n, o) ← (if m >> 6 =? 3 then
               let rm := rm_field rex m in
               mret (n, iw_kind K_RR (iw_reg (if to_reg then regf else rm)
                                        (iw_src (if to_reg then rm else regf) o)))
             else
               '(n, a) ← modrm_mem p n rex m;
               mret (n, iw_kind (if to_reg then K_RM else K_MR) (iw_reg regf (iw_mo a o))));
  let op' := if test then 0x85 else op .& .~ 3 in
  mret (Some (n, iw_no_write (is_one_of op' [0x38; 0x85]) (iw_op op' o))).

(** An immediate of a group: one byte, a sign-extended byte, or a sign-extended
    doubleword. *)
Definition imm_s8 (p n : Z) : M (Z * Z) := '(b, n) ← rd8 p n; mret (u64 (s8 b), n).
Definition imm_s32 (p n : Z) : M (Z * Z) := '(v, n) ← rd32 p n; mret (u64 (s32 v), n).

(** [if (o->size == 4) o->imm &= 0xffffffff]. *)
Definition narrow_imm (o : insn) : insn :=
  if i_size o =? 4 then iw_imm (i_imm o .& 0xffffffff) o else o.

Definition grp1_op (ext : Z) : Z :=
  [0x00; 0x08; 0; 0; 0x20; 0x28; 0x30; 0x38] !!! Z.to_nat ext.

Definition dec_grp1 (p n rex op : Z) (o : insn) : M (option (Z * insn)) :=
  let byte := is_one_of op [0x80; 0xC6] in
  let mov := is_one_of op [0xC6; 0xC7] in
  let o := if byte then iw_size 1 o else o in
  '(m, n) ← rd8 p n;
  let ext := (m >> 3) .& 7 in
  if mov && nz ext then mret None else
  if negb mov && is_one_of ext [2; 3] then mret None else
  '(n, o) ← rm_or_mem p n rex m iw_reg (iw_kind (if m >> 6 =? 3 then K_RI else K_MI) o);
  '(imm, n) ← (if byte then rd8 p n else if op =? 0x83 then imm_s8 p n else imm_s32 p n);
  let o := narrow_imm (iw_imm imm o) in
  mret (Some (n, if mov then iw_op 0x88 o else iw_no_write (ext =? 7) (iw_op (grp1_op ext) o))).

(** ALU operations and test on the accumulator. *)
Definition dec_acc (p n op : Z) (o : insn) : M (option (Z * insn)) :=
  let o := if is_one_of op [0x04; 0x0C; 0x24; 0x2C; 0x34; 0x3C; 0xA8] then iw_size 1 o else o in
  let o := iw_kind K_RI (iw_reg 0 o) in
  '(imm, n) ← (if i_size o =? 1 then rd8 p n else imm_s32 p n);
  let o := narrow_imm (iw_imm imm o) in
  let op' := if is_one_of op [0xA8; 0xA9] then 0x85 else op .& .~ 7 in
  mret (Some (n, iw_no_write (is_one_of op' [0x38; 0x85]) (iw_op op' o))).

Definition dec_mov_imm (p n rex op : Z) (o : insn) : M (option (Z * insn)) :=
  let o := iw_kind K_RI (iw_reg ((op .& 7) .| rex_ext rex 1) (iw_op 0x88 o)) in
  if op <? 0xB8 then '(b, n) ← rd8 p n; mret (Some (n, iw_size 1 (iw_imm b o)))
  else if i_size o =? 8 then '(v, n) ← rd64 p n; mret (Some (n, iw_imm v o))
  else '(v, n) ← rd32 p n; mret (Some (n, iw_imm v o)).

Definition dec_shift (p n rex op : Z) (o : insn) : M (option (Z * insn)) :=
  let o := if is_one_of op [0xC0; 0xD0; 0xD2] then iw_size 1 o else o in
  '(m, n) ← rd8 p n;
  let ext := (m >> 3) .& 7 in
  if ext <? 4 then mret None else
  '(n, o) ← rm_or_mem p n rex m iw_reg (iw_ext ext o);
  let o := iw_kind K_SHIFT o in
  if is_one_of op [0xC0; 0xC1] then '(b, n) ← rd8 p n; mret (Some (n, iw_imm b o))
  else if is_one_of op [0xD2; 0xD3] then mret (Some (n, iw_by_cl true o))
  else mret (Some (n, iw_imm 1 o)).

Definition dec_imul_imm (p n rex op : Z) (o : insn) : M (option (Z * insn)) :=
  '(m, n) ← rd8 p n;
  '(n, o) ← rm_or_mem p n rex m iw_src
              (iw_kind K_IMUL (iw_imm_src true (iw_reg (reg_field rex m) o)));
  '(imm, n) ← (if op =? 0x6B then imm_s8 p n else imm_s32 p n);
  mret (Some (n, iw_imm imm o)).

Definition dec_lea (p n rex : Z) (o : insn) : M (option (Z * insn)) :=
  '(m, n) ← rd8 p n;
  if m >> 6 =? 3 then mret None else
  '(n, a) ← modrm_mem p n rex m;
  mret (Some (n, iw_kind K_LEA (iw_reg (reg_field rex m) (iw_mo a o)))).

Definition dec_push_pop (n rex op : Z) (o : insn) : M (option (Z * insn)) :=
  let reg := (op .& 7) .| rex_ext rex 1 in
  if reg =? 4 then mret None
  else mret (Some (n, iw_kind (if op <? 0x58 then K_PUSH else K_POP) (iw_reg reg o))).

(** The two-byte opcodes. *)
Definition dec_0f (p n rex mand : Z) (o : insn) : M (option (Z * insn)) :=
  '(op2, n) ← rd8 p n;
  if (0x80 <=? op2) && (op2 <=? 0x8F) then
    if nz mand then mret None else
    '(imm, n) ← imm_s32 p n; mret (Some (n, iw_kind K_JCC (iw_cc (op2 .& 0xF) (iw_imm imm o))))
  else if op2 =? 0xAF then
    if nz mand then mret None else
    '(m, n) ← rd8 p n;
    '(n, o) ← rm_or_mem p n rex m iw_src (iw_kind K_IMUL (iw_reg (reg_field rex m) o));
    mret (Some (n, o))
  else if (0x90 <=? op2) && (op2 <=? 0x9F) then
    if nz mand then mret None else
    '(m, n) ← rd8 p n;
    '(n, o) ← rm_or_mem p n rex m iw_reg (iw_kind K_SETCC (iw_size 1 (iw_cc (op2 .& 0xF) o)));
    mret (Some (n, o))
  else if is_one_of op2 [0xB6; 0xB7; 0xBE; 0xBF] then
    if nz mand then mret None else
    '(m, n) ← rd8 p n;
    '(n, o) ← rm_or_mem p n rex m iw_src
                (iw_kind K_MOVX (iw_ssize (if nz (op2 .& 1) then 2 else 1)
                   (iw_sign (nz (op2 .& 8)) (iw_reg (reg_field rex m) o))));
    mret (Some (n, o))
  else if op2 =? 0x1F then
    if nz mand && negb (mand =? 0x66) then mret None else
    '(m, n) ← rd8 p n;
    '(n, a) ← (if m >> 6 =? 3 then mret (n, i_mo o) else modrm_mem p n rex m);
    let a := MemOp false (o_has_base a) (o_has_index a) (o_riprel a) (o_base a) (o_index a)
               (o_scale a) (o_disp a) in
    mret (Some (n, iw_kind K_NOP (iw_mo a o)))
  else decode_sse p n rex mand op2 o.

(** inc, dec, and the indirect call and jump. *)
Definition dec_grp5 (p n rex op : Z) (o : insn) : M (option (Z * insn)) :=
  let o := if op =? 0xFE then iw_size 1 o else o in
  '(m, n) ← rd8 p n;
  let ext := (m >> 3) .& 7 in
  if is_one_of ext [0; 1] then
    '(n, o) ← rm_or_mem p n rex m iw_reg (iw_kind (if m >> 6 =? 3 then K_RI else K_MI) o);
    mret (Some (n, iw_imm 1 (iw_op (if ext =? 0 then OP_INC else OP_DEC) o)))
  else if (op =? 0xFE) || negb (is_one_of ext [2; 4]) then mret None
  else if (m >> 6 =? 3) && (rm_field rex m =? 4) then mret None
  else
    '(n, o) ← rm_or_mem p n rex m iw_reg o;
    mret (Some (n, iw_kind (if ext =? 2 then K_CALLM else K_JMPM) o)).

Definition is_dec_alu (op : Z) : bool :=
  ((op <? 0x40) && (op .& 7 <? 4) && negb (is_one_of (op >> 3) [2; 3])) ||
  is_one_of op [0x84; 0x85; 0x88; 0x89; 0x8A; 0x8B].

Definition is_dec_acc (op : Z) : bool :=
  is_one_of op [0x04; 0x0C; 0x24; 0x2C; 0x34; 0x3C; 0xA8; 0x05; 0x0D; 0x25; 0x2D; 0x35; 0x3D; 0xA9].

(** The outer [switch] of [decode]. *)
Definition decode_op (p n rex mand op : Z) (o : insn) : M (option (Z * insn)) :=
  if is_dec_alu op then dec_alu p n rex op o
  else if is_one_of op [0x80; 0x81; 0x83; 0xC6; 0xC7] then dec_grp1 p n rex op o
  else if is_dec_acc op then dec_acc p n op o
  else if (0xB0 <=? op) && (op <=? 0xBF) then dec_mov_imm p n rex op o
  else if is_one_of op [0xC0; 0xC1; 0xD0; 0xD1; 0xD2; 0xD3] then dec_shift p n rex op o
  else if is_one_of op [0x69; 0x6B] then dec_imul_imm p n rex op o
  else if op =? 0x8D then dec_lea p n rex o
  else if (0x50 <=? op) && (op <=? 0x5F) then dec_push_pop n rex op o
  else if op =? 0x90 then
    if nz rex then mret None else mret (Some (n, iw_kind K_NOP o))
  else if (0x70 <=? op) && (op <=? 0x7F) then
    '(imm, n) ← imm_s8 p n; mret (Some (n, iw_kind K_JCC (iw_cc (op .& 0xF) (iw_imm imm o))))
  else if op =? 0x0F then dec_0f p n rex mand o
  else if op =? 0xEB then '(imm, n) ← imm_s8 p n; mret (Some (n, iw_kind K_JMP (iw_imm imm o)))
  else if op =? 0xE9 then '(imm, n) ← imm_s32 p n; mret (Some (n, iw_kind K_JMP (iw_imm imm o)))
  else if op =? 0xE8 then '(imm, n) ← imm_s32 p n; mret (Some (n, iw_kind K_CALL (iw_imm imm o)))
  else if op =? 0xC3 then mret (Some (n, iw_kind K_RET o))
  else if is_one_of op [0xFE; 0xFF] then dec_grp5 p n rex op o
  else mret None.

(** [None] is the C result 0. *)
Definition decode (p rip : Z) : M (option insn) :=
  '(b, n) ← rd8 p 0;
  '(mand, b, n) ← (if is_one_of b [0x66; 0xF2; 0xF3]
                   then '(b', n) ← rd8 p n; mret (b, b', n) else mret (0, b, n));
  '(rex, op, n) ← (if b .& 0xF0 =? 0x40
                   then '(op, n) ← rd8 p n; mret (b, op, n) else mret (0, b, n));
  let o := iw_has_rex (b .& 0xF0 =? 0x40) (iw_size (if nz (rex .& 8) then 8 else 4) zero_insn) in
  if nz mand && negb (op =? 0x0F) then mret None else
  r ← decode_op p n rex mand op o;
  match r with
  | None => mret None
  | Some (n, o) =>
      let o := iw_next (u64 (rip + n)) (iw_len n o) in
      mret (Some (match i_kind o with
                  | K_JCC | K_JMP | K_CALL => iw_target (u64 (i_next o + i_imm o)) o
                  | _ => o
                  end))
  end.
End decode.

(* ------------------------------------------------------------------ *)
(** ** Which flags are worth computing *)

Definition FL_LOGIC : Z := FL_ALL .& .~ F_AF.
Definition FL_INC : Z := FL_ALL .& .~ F_CF.

Definition cc_reads (cc : Z) : Z :=
  [F_OF; F_CF; F_ZF; F_CF .| F_ZF; F_SF; F_PF; F_SF .| F_OF; F_ZF .| F_SF .| F_OF]
    !!! Z.to_nat ((cc >> 1) .& 7).

Definition flags_written (o : insn) : Z :=
  match i_kind o with
  | K_RR | K_RI | K_RM | K_MR | K_MI =>
      if i_op o =? 0x88 then 0
      else if is_one_of (i_op o) [0x00; 0x28; 0x38] then FL_ALL
      else if is_one_of (i_op o) [OP_INC; OP_DEC] then FL_INC
      else FL_LOGIC
  | K_IMUL => FL_LOGIC
  | K_SHIFT =>
      if i_by_cl o || negb (nz (i_imm o .& (if i_size o =? 8 then 63 else 31))) then 0 else FL_LOGIC
  | _ => 0
  end.

Definition flags_read (o : insn) : Z :=
  match i_kind o with
  | K_JCC | K_SETCC => cc_reads (i_cc o)
  | _ => 0
  end.

(** The loop of [flag_liveness], from the last instruction to the first: the
    instructions with their needs, and what is live before them. *)
Fixpoint flag_liveness_from (v : list insn) (live : Z) : list insn * Z :=
  match v with
  | [] => ([], live)
  | o :: v =>
      let '(v, live) := flag_liveness_from v live in
      let w := flags_written o in
      (iw_fneed (w .& live) o :: v, (live .& .~ w) .| flags_read o)
  end.

Definition flag_liveness (v : list insn) : list insn := fst (flag_liveness_from v FL_ALL).
