(* ===== verification/JitEmit.v ===== *)
(** Emitting a block ([buf] to [put_insn] in [src/jit.c]): the buffer of words,
    and the code for each kind of instruction. *)
From S2P Require Import Prelude.
From S2P Require Import Flags.
From S2P Require Import Machine.
From S2P Require Import Emit.
From S2P Require Import Jit.

Abbreviation CPU := A64_X19 (only parsing).

(** The interpreter's routines compiled code calls ([fn_ld] is [rsd_i_ld]); the
    linker places them. *)
Inductive helper :=
| fn_ld | fn_st | fn_flags_add | fn_flags_sub | fn_flags_logic
| fn_ld128 | fn_st128 | fn_comisd | fn_comiss | fn_cvt2si
| fn_nan_d | fn_nan_s | fn_flags_inc | fn_flags_dec | fn_shift | fn_wlog.

#[global] Instance helper_eq_dec : EqDecision helper.
Proof. solve_decision. Defined.

Class Linked := { helper_addr : helper -> Z }.

(* ------------------------------------------------------------------ *)
(** ** The buffer *)

Record buf := Buf {
  b_out : list Z; b_max : Z; b_full : bool; b_check : bool; b_fix : list Z
}.

Definition b_n (b : buf) : Z := Z.of_nat (length (b_out b)).

(** An emission: a result and the buffer it leaves. *)
Definition E (A : Type) : Type := buf -> A * buf.
#[global] Instance E_ret : MRet E := fun A a b => (a, b).
#[global] Instance E_bind : MBind E := fun A B f c b => let '(a, b) := c b in f a b.

Definition here : E Z := fun b => (b_n b, b).
Definition give_up_block : E unit := fun b => (tt, Buf (b_out b) (b_max b) true (b_check b) (b_fix b)).
Definition checking : E bool := fun b => (b_check b, b).
Definition ewhen (c : bool) (e : E unit) : E unit := if c then e else mret tt.

Definition put (w : Z) : E unit := fun b =>
  if b_max b <=? b_n b then give_up_block b
  else (tt, Buf (b_out b ++ [w]) (b_max b) (b_full b) (b_check b) (b_fix b)).

(** [if (!b->full) b->out[at] = ...], with what lies between [at] and here. *)
Definition patch (at_ : Z) (w : Z -> Z) : E unit := fun b =>
  if b_full b then (tt, b)
  else (tt, Buf (<[Z.to_nat at_ := w (b_n b - at_)]> (b_out b)) (b_max b) (b_full b) (b_check b) (b_fix b)).

Definition put_imm (reg v : Z) : E unit :=
  put (a64_movz reg (u16 v) 0);;
  ewhen (nz (v >> 16)) (put (a64_movk reg (u16 (v >> 16)) 1));;
  ewhen (nz (v >> 32)) (put (a64_movk reg (u16 (v >> 32)) 2));;
  ewhen (nz (v >> 48)) (put (a64_movk reg (u16 (v >> 48)) 3)).

(** Offsets into [rsd_cpu] and [rsd_as], as LP64 lays the structures out. *)
Definition off_r (r : Z) : Z := 0 + r * 8.
Definition off_xmm (i : Z) : Z := 128 + i * 16.
Definition off_tmp (i : Z) : Z := 440 + i * 8.
Definition OFF_CURRIP : Z := 392.
Definition OFF_RUNNING : Z := 544.
Definition OFF_FLAGS : Z := 400.
Definition OFF_AS : Z := 512.
Definition OFF_AS_RD : Z := 16.
Definition OFF_AS_WR : Z := 48.

(** The test of [rsd_jit_init]. *)
Definition layout_in_reach : bool :=
  negb ((32768 <=? off_r 15) || nz (OFF_CURRIP mod 8) || (32768 <=? OFF_CURRIP) ||
        (4096 <=? off_tmp 7) || (4096 <=? OFF_RUNNING) || nz (OFF_AS mod 8) || (32768 <=? OFF_AS) ||
        nz (OFF_FLAGS mod 4) || (16384 <=? OFF_FLAGS) ||
        nz (off_xmm 0 mod 8) || (4096 <=? off_xmm 15 + 8)).

Definition put_set_rip (rip : Z) : E unit :=
  put_imm A64_X9 rip;; put (a64_str A64_X9 CPU OFF_CURRIP).

Definition put_fault_check : E unit :=
  put (a64_ldrb A64_X9 CPU OFF_RUNNING);;
  (fun b => if (Z.of_nat (length (b_fix b)) <? 256) && negb (b_full b)
            then (tt, Buf (b_out b) (b_max b) (b_full b) (b_check b) (b_fix b ++ [b_n b]))
            else give_up_block b);;
  put (a64_cbz_w A64_X9 0).

Definition put_leave : E unit := put (a64_pop A64_X30);; put a64_ret.

(* ------------------------------------------------------------------ *)
(** ** Conditions and the register file *)

(** The even condition of the pair [cc] is in, in x0, and compared with zero. *)
Definition put_cond_even (cc : Z) : E unit :=
  let k := (cc >> 1) .& 7 in
  put (a64_ldr_w A64_X9 CPU OFF_FLAGS);;
  (if k =? 0 then put (a64_ubfx A64_X0 A64_X9 11 1)
   else if k =? 1 then put (a64_ubfx A64_X0 A64_X9 0 1)
   else if k =? 2 then put (a64_ubfx A64_X0 A64_X9 6 1)
   else if k =? 3 then
     put (a64_ubfx A64_X0 A64_X9 0 1);; put (a64_ubfx A64_X10 A64_X9 6 1);;
     put (a64_orr A64_X0 A64_X0 A64_X10)
   else if k =? 4 then put (a64_ubfx A64_X0 A64_X9 7 1)
   else if k =? 5 then put (a64_ubfx A64_X0 A64_X9 2 1)
   else if k =? 6 then
     put (a64_ubfx A64_X0 A64_X9 7 1);; put (a64_ubfx A64_X10 A64_X9 11 1);;
     put (a64_eor A64_X0 A64_X0 A64_X10)
   else
     put (a64_ubfx A64_X0 A64_X9 7 1);; put (a64_ubfx A64_X10 A64_X9 11 1);;
     put (a64_eor A64_X0 A64_X0 A64_X10);; put (a64_ubfx A64_X10 A64_X9 6 1);;
     put (a64_orr A64_X0 A64_X0 A64_X10));;
  put (a64_cmp0 A64_X0).

Definition is_high_byte (o : insn) (reg size : Z) : bool :=
  (size =? 1) && negb (i_has_rex o) && (4 <=? reg) && (reg <? 8).

Definition put_rd_reg (dst : Z) (o : insn) (reg size : Z) : E unit :=
  if is_high_byte o reg size then
    put (a64_ldr dst CPU (off_r (reg - 4)));; put (a64_ubfx dst dst 8 8)
  else put (a64_ldr dst CPU (off_r reg)).

Definition put_wr_reg (src : Z) (o : insn) (reg size : Z) : E unit :=
  if size =? 1 then
    if is_high_byte o reg size then
      put (a64_ldr A64_X9 CPU (off_r (reg - 4)));; put (a64_bfi A64_X9 src 8 8);;
      put (a64_str A64_X9 CPU (off_r (reg - 4)))
    else put (a64_strb src CPU (off_r reg))
  else put (a64_str src CPU (off_r reg)).

(** The effective address, into x1. *)
Definition put_ea (o : insn) : E unit :=
  let a := i_mo o in
  let disp := o_disp a in
  if o_riprel a then put_imm A64_X1 (u64 (i_next o + disp))
  else if negb (o_has_base a) && negb (o_has_index a) then put_imm A64_X1 (u64 disp)
  else
    (if o_has_base a then put (a64_ldr A64_X1 CPU (off_r (o_base a)))
     else put (a64_movz A64_X1 0 0));;
    ewhen (o_has_index a)
      (put (a64_ldr A64_X6 CPU (off_r (o_index a)));;
       put (a64_add_shift A64_X1 A64_X1 A64_X6 (o_scale a)));;
    (if (0 <? disp) && (disp <? 4096) then put (a64_add_imm A64_X1 A64_X1 (u32 disp))
     else if (disp <? 0) && (-4096 <? disp) then put (a64_sub_imm A64_X1 A64_X1 (u32 (- disp)))
     else ewhen (nz disp)
       (put_imm A64_X6 (u64 disp);; put (a64_add A64_X1 A64_X1 A64_X6))).

(** The operation on x1 and x2, into x3, and its flag routine. *)
Definition put_op (o : insn) : E (option helper) :=
  let w := negb (i_size o =? 8) in
  let op := i_op o in
  if op =? 0x88 then
    put (if w then a64_mov_w A64_X3 A64_X2 else a64_mov A64_X3 A64_X2);; mret None
  else if op =? 0x00 then
    put (if w then a64_add_w A64_X3 A64_X1 A64_X2 else a64_add A64_X3 A64_X1 A64_X2);;
    mret (Some fn_flags_add)
  else if is_one_of op [0x28; 0x38] then
    put (if w then a64_sub_w A64_X3 A64_X1 A64_X2 else a64_sub A64_X3 A64_X1 A64_X2);;
    mret (Some fn_flags_sub)
  else if is_one_of op [0x20; 0x85] then
    put (if w then a64_and_w A64_X3 A64_X1 A64_X2 else a64_and A64_X3 A64_X1 A64_X2);;
    mret (Some fn_flags_logic)
  else if op =? 0x08 then
    put (if w then a64_orr_w A64_X3 A64_X1 A64_X2 else a64_orr A64_X3 A64_X1 A64_X2);;
    mret (Some fn_flags_logic)
  else if op =? OP_INC then
    put (if w then a64_add_w A64_X3 A64_X1 A64_X2 else a64_add A64_X3 A64_X1 A64_X2);;
    mret (Some fn_flags_inc)
  else if op =? OP_DEC then
    put (if w then a64_sub_w A64_X3 A64_X1 A64_X2 else a64_sub A64_X3 A64_X1 A64_X2);;
    mret (Some fn_flags_dec)
  else if op =? 0x30 then
    put (if w then a64_eor_w A64_X3 A64_X1 A64_X2 else a64_eor A64_X3 A64_X1 A64_X2);;
    mret (Some fn_flags_logic)
  else give_up_block;; mret None.

(* ------------------------------------------------------------------ *)
(** ** Flags *)

Definition is_add (fn : helper) : bool :=
  bool_decide (fn = fn_flags_add) || bool_decide (fn = fn_flags_inc).
Definition is_sub (fn : helper) : bool :=
  bool_decide (fn = fn_flags_sub) || bool_decide (fn = fn_flags_dec).
Definition is_logic (fn : helper) : bool := bool_decide (fn = fn_flags_logic).

(** One turn of the loop over N, Z, C and V: the flag [f] at [bit], from the A64
    condition [c]. *)
Definition put_nzcv (logic : bool) (need f bit c : Z) : E unit :=
  if negb (nz (need .& f)) || (logic && nz (f .& (F_CF .| F_OF))) then mret tt
  else put (a64_cset A64_X11 c);; put (a64_orr_lsl A64_X10 A64_X10 A64_X11 bit).

Definition put_flags_inline (fn : helper) (need : Z) (w : bool) : E bool :=
  let add := is_add fn in let sub := is_sub fn in let logic := is_logic fn in
  if negb add && negb sub && negb logic then mret false else
  ewhen (nz (need .& (F_CF .| F_ZF .| F_SF .| F_OF)))
    (if add then put (a64_adds_zr A64_X1 A64_X2 w)
     else if sub then put (a64_subs_zr A64_X1 A64_X2 w)
     else put (a64_ands_zr A64_X3 A64_X3 w));;
  put (a64_movz A64_X10 0 0);;
  put_nzcv logic need F_CF 0 (if sub then A64_CC else A64_CS);;
  put_nzcv logic need F_ZF 6 A64_EQ;;
  put_nzcv logic need F_SF 7 A64_MI;;
  put_nzcv logic need F_OF 11 A64_VS;;
  ewhen (nz (need .& F_PF))
    (put (a64_eor_lsr A64_X11 A64_X3 A64_X3 4);;
     put (a64_eor_lsr A64_X11 A64_X11 A64_X11 2);;
     put (a64_eor_lsr A64_X11 A64_X11 A64_X11 1);;
     put (a64_ubfx A64_X11 A64_X11 0 1);;
     put (a64_eor_bit A64_X11 A64_X11 0);;
     put (a64_orr_lsl A64_X10 A64_X10 A64_X11 2));;
  ewhen (nz (need .& F_AF))
    (put (a64_eor A64_X11 A64_X1 A64_X2);;
     put (a64_eor A64_X11 A64_X11 A64_X3);;
     put (a64_ubfx A64_X11 A64_X11 4 1);;
     put (a64_orr_lsl A64_X10 A64_X10 A64_X11 4));;
  put (a64_ldr_w A64_X9 CPU OFF_FLAGS);;
  put_imm A64_X12 need;;
  put (a64_bic A64_X9 A64_X9 A64_X12);;
  put (a64_orr A64_X9 A64_X9 A64_X10);;
  put (a64_str_w A64_X9 CPU OFF_FLAGS);;
  mret true.

Section linked.
Context `{Linked}.

Definition put_call (fn : helper) : E unit :=
  put_imm A64_X9 (helper_addr fn);; put (a64_blr A64_X9).

Definition put_flags (o : insn) (fn : option helper) (size : Z) : E unit :=
  match fn with
  | None => mret tt
  | Some fn =>
      if negb (nz (i_fneed o)) then mret tt else
      done ← (if negb (size =? 1) then put_flags_inline fn (i_fneed o) (size =? 4) else mret false);
      if (done : bool) then mret tt else
      put (a64_mov A64_X0 CPU);;
      (if is_logic fn then put (a64_mov A64_X1 A64_X3);; put_imm A64_X2 (u64 size)
       else if bool_decide (fn = fn_flags_inc) || bool_decide (fn = fn_flags_dec) then
         put (a64_mov A64_X2 A64_X3);; put_imm A64_X3 (u64 size)
       else put_imm A64_X4 (u64 size));;
      put_call fn
  end.

(* ------------------------------------------------------------------ *)
(** ** Loads and stores *)

Definition put_patch_bcond (at_ c : Z) : E unit := patch at_ (a64_bcond c).
Definition put_patch_b (at_ : Z) : E unit := patch at_ a64_b.

(** Returns where the branch to the slow path is. *)
Definition put_region_check (write : bool) : E Z :=
  let e := if write then OFF_AS_WR else OFF_AS_RD in
  put (a64_ldr A64_X9 CPU OFF_AS);;
  put (a64_ldr A64_X10 A64_X9 e);;
  put (a64_ldr A64_X11 A64_X9 (e + 8));;
  put (a64_sub A64_X12 A64_X1 A64_X10);;
  put (a64_subs_zr A64_X12 A64_X11 false);;
  hit ← here;
  put (a64_bcond A64_CC 0);;
  put (a64_ldr A64_X10 A64_X9 (e + 16));;
  put (a64_ldr A64_X11 A64_X9 (e + 24));;
  put (a64_sub A64_X12 A64_X1 A64_X10);;
  put (a64_subs_zr A64_X12 A64_X11 false);;
  at_ ← here;
  put (a64_bcond A64_CS 0);;
  put_patch_bcond hit A64_CC;;
  mret at_.

(** x1 = address -> x0 = value. *)
Definition put_load (size : Z) : E unit :=
  slow ← put_region_check false;
  put (if size =? 1 then a64_ldrb A64_X0 A64_X1 0
       else if size =? 2 then a64_ldrh A64_X0 A64_X1 0
       else if size =? 4 then a64_ldr_w A64_X0 A64_X1 0
       else a64_ldr A64_X0 A64_X1 0);;
  done ← here;
  put (a64_b 0);;
  put_patch_bcond slow A64_CS;;
  put (a64_mov A64_X0 CPU);;
  put_imm A64_X2 (u64 size);;
  put_call fn_ld;;
  put_fault_check;;
  put_patch_b done.

(** x1 = address, x2 = value. *)
Definition put_store (size : Z) : E unit :=
  slow ← put_region_check true;
  check ← checking;
  ewhen check
    (put (a64_str A64_X1 CPU (off_tmp 6));;
     put (a64_str A64_X2 CPU (off_tmp 7));;
     put (a64_mov A64_X0 CPU);;
     put_imm A64_X3 (u64 size);;
     put_call fn_wlog;;
     put (a64_ldr A64_X1 CPU (off_tmp 6));;
     put (a64_ldr A64_X2 CPU (off_tmp 7)));;
  put (if size =? 1 then a64_strb A64_X2 A64_X1 0
       else if size =? 2 then a64_strh A64_X2 A64_X1 0
       else if size =? 4 then a64_str_w A64_X2 A64_X1 0
       else a64_str A64_X2 A64_X1 0);;
  done ← here;
  put (a64_b 0);;
  put_patch_bcond slow A64_CS;;
  put (a64_mov A64_X0 CPU);;
  put_imm A64_X3 (u64 size);;
  put_call fn_st;;
  put_fault_check;;
  put_patch_b done.
End linked.
