(* ===== verification/JitInsn.v ===== *)
(** The code of each guest instruction ([put_fsrc], [put_sse] and [put_insn] in
    [src/jit.c]). *)
From S2P Require Import Prelude.
From S2P Require Import Flags.
From S2P Require Import Machine.
From S2P Require Import Emit.
From S2P Require Import Jit.
From S2P Require Import JitEmit.

Section linked.
Context `{Linked}.

(* ------------------------------------------------------------------ *)
(** ** SSE *)

Abbreviation D0 := 0 (only parsing).
Abbreviation D1 := 1 (only parsing).
Abbreviation D2 := 2 (only parsing).

Definition cmp_cond (pred : Z) : Z :=
  [A64_EQ; A64_MI; A64_LS; A64_VS; A64_NE; A64_PL; A64_HI; A64_VC] !!! Z.to_nat pred.

Definition ldr_f (dbl : bool) (t off : Z) : Z := if dbl then a64_ldr_d t CPU off else a64_ldr_s t CPU off.
Definition str_f (dbl : bool) (t off : Z) : Z := if dbl then a64_str_d t CPU off else a64_str_s t CPU off.
Definition fmov_in (dbl : bool) (d n : Z) : Z := if dbl then a64_fmov_dx d n else a64_fmov_sw d n.
Definition fmov_out (dbl : bool) (d n : Z) : Z := if dbl then a64_fmov_xd d n else a64_fmov_ws d n.
Definition fcmp_f (dbl : bool) (n m : Z) : Z := if dbl then a64_fcmp_d n m else a64_fcmp_s n m.
Definition fop_f (dbl : bool) (op d n m : Z) : Z := if dbl then a64_fop_d op d n m else a64_fop_s op d n m.
Definition fcsel_f (dbl : bool) (d n m c : Z) : Z :=
  if dbl then a64_fcsel_d d n m c else a64_fcsel_s d n m c.

Definition put_fsrc (o : insn) (rip : Z) (dbl : bool) : E unit :=
  if negb (o_mem (i_mo o)) then put (ldr_f dbl D1 (off_xmm (o_xsrc (i_sse o))))
  else
    put_set_rip rip;; put_ea o;; put_load (if dbl then 8 else 4);;
    put (fmov_in dbl D1 A64_X0).

(** A memory operand through the interpreter's routine, 16 bytes at [off]. *)
Definition put_128 (o : insn) (rip off : Z) (fn : helper) : E unit :=
  put_set_rip rip;; put_ea o;;
  put (a64_add_imm A64_X2 CPU off);; put (a64_mov A64_X0 CPU);;
  put_call fn;; put_fault_check.

(** movsd and movss. *)
Definition put_movs (o : insn) (rip : Z) : E unit :=
  let s := i_sse o in
  let dst := off_xmm (o_xreg s) in
  let nb := if o_mand s =? 0xF2 then 8 else 4 in
  let store := o_op2 s =? 0x11 in
  if negb (o_mem (i_mo o)) then
    let from := if store then dst else off_xmm (o_xsrc s) in
    let to := if store then off_xmm (o_xsrc s) else dst in
    if nb =? 8 then put (a64_ldr A64_X1 CPU from);; put (a64_str A64_X1 CPU to)
    else put (a64_ldr_w A64_X1 CPU from);; put (a64_str_w A64_X1 CPU to)
  else
    put_set_rip rip;; put_ea o;;
    if store then put (a64_ldr A64_X2 CPU dst);; put_store nb
    else put_load nb;; put (a64_str A64_X0 CPU dst);; put (a64_str A64_ZR CPU (dst + 8)).

(** 128-bit copies. *)
Definition put_movups (o : insn) (rip : Z) : E unit :=
  let s := i_sse o in
  let dst := off_xmm (o_xreg s) in
  let store := nz (o_op2 s .& 1) in
  if negb (o_mem (i_mo o)) then
    let from := if store then dst else off_xmm (o_xsrc s) in
    let to := if store then off_xmm (o_xsrc s) else dst in
    put (a64_ldr A64_X1 CPU from);; put (a64_ldr A64_X2 CPU (from + 8));;
    put (a64_str A64_X1 CPU to);; put (a64_str A64_X2 CPU (to + 8))
  else put_128 o rip dst (if store then fn_st128 else fn_ld128).

(** 128-bit bitwise operations. *)
Definition put_bitwise128 (o : insn) (rip : Z) : E unit :=
  let s := i_sse o in
  let dst := off_xmm (o_xreg s) in
  (if o_mem (i_mo o) then
     put_128 o rip (off_tmp 0) fn_ld128;;
     put (a64_ldr A64_X4 CPU (off_tmp 0));; put (a64_ldr A64_X5 CPU (off_tmp 1))
   else
     put (a64_ldr A64_X4 CPU (off_xmm (o_xsrc s)));;
     put (a64_ldr A64_X5 CPU (off_xmm (o_xsrc s) + 8)));;
  put (a64_ldr A64_X1 CPU dst);; put (a64_ldr A64_X2 CPU (dst + 8));;
  (if is_one_of (o_op2 s) [0x54; 0xDB] then
     put (a64_and A64_X1 A64_X1 A64_X4);; put (a64_and A64_X2 A64_X2 A64_X5)
   else if o_op2 s =? 0x55 then
     put (a64_bic A64_X1 A64_X4 A64_X1);; put (a64_bic A64_X2 A64_X5 A64_X2)
   else if is_one_of (o_op2 s) [0x56; 0xEB] then
     put (a64_orr A64_X1 A64_X1 A64_X4);; put (a64_orr A64_X2 A64_X2 A64_X5)
   else
     put (a64_eor A64_X1 A64_X1 A64_X4);; put (a64_eor A64_X2 A64_X2 A64_X5));;
  put (a64_str A64_X1 CPU dst);; put (a64_str A64_X2 CPU (dst + 8)).

(** Scalar arithmetic: the operation, then the NaN an x86 would give. *)
Definition put_scalar (o : insn) (rip : Z) : E unit :=
  let s := i_sse o in
  let op2 := o_op2 s in
  let dbl := o_mand s =? 0xF2 in
  let dst := off_xmm (o_xreg s) in
  let unary := op2 =? 0x51 in
  put_fsrc o rip dbl;;
  ewhen (negb unary) (put (ldr_f dbl D0 dst);; put (ldr_f dbl D2 dst));;
  (if op2 =? 0x58 then put (fop_f dbl FOP_ADD D0 D0 D1)
   else if op2 =? 0x59 then put (fop_f dbl FOP_MUL D0 D0 D1)
   else if op2 =? 0x5C then put (fop_f dbl FOP_SUB D0 D0 D1)
   else if op2 =? 0x5E then put (fop_f dbl FOP_DIV D0 D0 D1)
   else if op2 =? 0x51 then put (if dbl then a64_fsqrt_d D0 D1 else a64_fsqrt_s D0 D1)
   else if op2 =? 0x5D then put (fcmp_f dbl D0 D1);; put (fcsel_f dbl D0 D0 D1 A64_MI)
   else put (fcmp_f dbl D0 D1);; put (fcsel_f dbl D0 D0 D1 A64_GT));;
  ewhen (negb (is_one_of op2 [0x5D; 0x5F]))
    (put (fcmp_f dbl D0 D0);;
     skip ← here;
     put (a64_bcond A64_VC 0);;
     put (fmov_out dbl A64_X0 D0);;
     put (fmov_out dbl A64_X1 (if unary then D1 else D2));;
     put (fmov_out dbl A64_X2 D1);;
     put_imm A64_X3 (bz unary);;
     put_call (if dbl then fn_nan_d else fn_nan_s);;
     put (fmov_in dbl D0 A64_X0);;
     patch skip (a64_bcond A64_VC));;
  put (str_f dbl D0 dst).

(** cmpsd and cmpss. *)
Definition put_cmps (o : insn) (rip : Z) : E unit :=
  let s := i_sse o in
  let dbl := o_mand s =? 0xF2 in
  let dst := off_xmm (o_xreg s) in
  put_fsrc o rip dbl;;
  put (ldr_f dbl D0 dst);;
  put (fcmp_f dbl D0 D1);;
  if dbl then put (a64_csetm A64_X3 (cmp_cond (o_pred s)));; put (a64_str A64_X3 CPU dst)
  else put (a64_csetm_w A64_X3 (cmp_cond (o_pred s)));; put (a64_str_w A64_X3 CPU dst).

(** A scalar or integer source of [n] bytes into [x]: from memory, or from the
    cpu at [off]. *)
Definition put_src (o : insn) (rip n x : Z) (reg : E unit) : E unit :=
  if o_mem (i_mo o) then
    put_set_rip rip;; put_ea o;; put_load n;; put (a64_mov x A64_X0)
  else reg.

(** ucomis and comis. *)
Definition put_comis (o : insn) (rip : Z) : E unit :=
  let s := i_sse o in
  let d64 := o_mand s =? 0x66 in
  let dst := off_xmm (o_xreg s) in
  let ld x off := put (if d64 then a64_ldr x CPU off else a64_ldr_w x CPU off) in
  put_src o rip (if d64 then 8 else 4) A64_X2 (ld A64_X2 (off_xmm (o_xsrc s)));;
  ld A64_X1 dst;;
  put (a64_mov A64_X0 CPU);;
  put_call (if d64 then fn_comisd else fn_comiss).

Definition put_cvtsi2s (o : insn) (rip : Z) : E unit :=
  let s := i_sse o in
  let dbl := o_mand s =? 0xF2 in
  let wide := o_isize s =? 8 in
  put_src o rip (o_isize s) A64_X1 (put (a64_ldr A64_X1 CPU (off_r (o_xsrc s))));;
  put (if dbl then (if wide then a64_scvtf_dx D0 A64_X1 else a64_scvtf_dw D0 A64_X1)
       else if wide then a64_scvtf_sx D0 A64_X1 else a64_scvtf_sw D0 A64_X1);;
  put (str_f dbl D0 (off_xmm (o_xreg s))).

Definition put_cvts2si (o : insn) (rip : Z) : E unit :=
  let s := i_sse o in
  let fsize := if o_mand s =? 0xF2 then 8 else 4 in
  put_src o rip fsize A64_X1 (put (a64_ldr A64_X1 CPU (off_xmm (o_xsrc s))));;
  put (a64_mov A64_X0 CPU);;
  put_imm A64_X2 (u64 fsize);;
  put_imm A64_X3 (bz (o_op2 s =? 0x2D));;
  put_imm A64_X4 (u64 (o_isize s));;
  put_call fn_cvt2si;;
  put (a64_str A64_X0 CPU (off_r (o_xreg s))).

Definition put_cvtss2sd (o : insn) (rip : Z) : E unit :=
  let s := i_sse o in
  let dbl := o_mand s =? 0xF2 in
  let dst := off_xmm (o_xreg s) in
  put_fsrc o rip dbl;;
  if dbl then put (a64_fcvt_sd D0 D1);; put (a64_str_s D0 CPU dst)
  else put (a64_fcvt_ds D0 D1);; put (a64_str_d D0 CPU dst).

(** [put_sse]; what falls out of the [switch] closes the block. *)
Definition put_sse (o : insn) (rip : Z) : E unit :=
  let op2 := o_op2 (i_sse o) in
  if is_one_of op2 [0x10; 0x11] && is_one_of (o_mand (i_sse o)) [0xF2; 0xF3] then put_movs o rip
  else if is_one_of op2 [0x10; 0x11; 0x28; 0x29] then put_movups o rip
  else if is_one_of op2 [0x54; 0x55; 0x56; 0x57; 0xDB; 0xEB; 0xEF] then put_bitwise128 o rip
  else if is_one_of op2 [0x51; 0x58; 0x59; 0x5C; 0x5D; 0x5E; 0x5F] then put_scalar o rip
  else if op2 =? 0xC2 then put_cmps o rip
  else if is_one_of op2 [0x2E; 0x2F] then put_comis o rip
  else if op2 =? 0x2A then put_cvtsi2s o rip
  else if is_one_of op2 [0x2C; 0x2D] then put_cvts2si o rip
  else if op2 =? 0x5A then put_cvtss2sd o rip
  else give_up_block.

(* ------------------------------------------------------------------ *)
(** ** Instructions *)

(** The operation, the register written, the flags. *)
Definition put_op_reg (o : insn) : E unit :=
  fl ← put_op o;
  ewhen (negb (i_no_write o)) (put_wr_reg A64_X3 o (i_reg o) (i_size o));;
  put_flags o fl (i_size o).

(** [K_RR] and [K_RI]. *)
Definition put_rr (o : insn) : E unit :=
  put_rd_reg A64_X1 o (i_reg o) (i_size o);;
  (if bool_decide (i_kind o = K_RI) then put_imm A64_X2 (i_imm o)
   else put_rd_reg A64_X2 o (i_src o) (i_size o));;
  put_op_reg o.

Definition put_rm (o : insn) (rip : Z) : E unit :=
  put_set_rip rip;; put_ea o;; put_load (i_size o);;
  put (a64_mov A64_X2 A64_X0);;
  put_rd_reg A64_X1 o (i_reg o) (i_size o);;
  put_op_reg o.

Definition put_shift (o : insn) (rip : Z) : E unit :=
  let mask := if i_size o =? 8 then 63 else 31 in
  let mem := o_mem (i_mo o) in
  if negb (i_by_cl o) && negb (nz (i_imm o .& mask)) then mret tt else
  skip ← (if i_by_cl o then
            put (a64_ldr A64_X5 CPU (off_r 1));;
            put (a64_ubfx A64_X5 A64_X5 0 (if mask =? 63 then 6 else 5));;
            skip ← here; put (a64_cbz_w A64_X5 0);; mret skip
          else mret (-1));
  (if mem then
     ewhen (i_by_cl o) (put (a64_str A64_X5 CPU (off_tmp 1)));;
     put_set_rip rip;; put_ea o;;
     put (a64_str A64_X1 CPU (off_tmp 0));;
     put_load (i_size o);;
     put (a64_mov A64_X1 A64_X0);;
     ewhen (i_by_cl o) (put (a64_ldr A64_X5 CPU (off_tmp 1)))
   else put_rd_reg A64_X1 o (i_reg o) (i_size o));;
  (if i_by_cl o then put (a64_mov A64_X2 A64_X5) else put_imm A64_X2 (i_imm o .& mask));;
  put (a64_mov A64_X0 CPU);;
  put_imm A64_X3 (u64 (i_size o));;
  put_imm A64_X4 (u64 (i_ext o));;
  put_call fn_shift;;
  (if mem then
     put (a64_mov A64_X2 A64_X0);;
     put (a64_ldr A64_X1 CPU (off_tmp 0));;
     put_store (i_size o)
   else put_wr_reg A64_X0 o (i_reg o) (i_size o));;
  ewhen (0 <=? skip) (patch skip (a64_cbz_w A64_X5)).

Definition put_imul (o : insn) (rip : Z) : E unit :=
  put_src o rip (i_size o) A64_X1 (put (a64_ldr A64_X1 CPU (off_r (i_src o))));;
  (if i_imm_src o then put_imm A64_X2 (i_imm o)
   else put (a64_ldr A64_X2 CPU (off_r (i_reg o))));;
  put (if i_size o =? 8 then a64_mul A64_X3 A64_X1 A64_X2 else a64_mul_w A64_X3 A64_X1 A64_X2);;
  put (a64_str A64_X3 CPU (off_r (i_reg o)));;
  put_flags o (Some fn_flags_logic) (i_size o).

(** The A64 condition that selects on [cc] after [put_cond_even]. *)
Definition sense (cc : Z) : Z := if nz (cc .& 1) then A64_EQ else A64_NE.

Definition put_setcc (o : insn) (rip : Z) : E unit :=
  put_cond_even (i_cc o);;
  put (a64_cset A64_X0 (sense (i_cc o)));;
  if o_mem (i_mo o) then
    put (a64_str A64_X0 CPU (off_tmp 0));;
    put_set_rip rip;; put_ea o;;
    put (a64_ldr A64_X2 CPU (off_tmp 0));;
    put_store 1
  else put_wr_reg A64_X0 o (i_reg o) 1.

Definition put_movx (o : insn) (rip : Z) : E unit :=
  let bits := i_ssize o * 8 in
  (if o_mem (i_mo o) then put_set_rip rip;; put_ea o;; put_load (i_ssize o)
   else put_rd_reg A64_X0 o (i_src o) (i_ssize o));;
  put (if negb (i_sign o) then a64_ubfx A64_X0 A64_X0 0 bits
       else if i_size o =? 8 then a64_sxt A64_X0 A64_X0 bits
       else a64_sxt_w A64_X0 A64_X0 bits);;
  put (a64_str A64_X0 CPU (off_r (i_reg o))).

(** [K_MR] and [K_MI]. *)
Definition put_mr (o : insn) (rip : Z) : E unit :=
  let src := if bool_decide (i_kind o = K_MI) then put_imm A64_X2 (i_imm o)
             else put_rd_reg A64_X2 o (i_reg o) (i_size o) in
  put_set_rip rip;; put_ea o;;
  if i_op o =? 0x88 then src;; put_store (i_size o)
  else
    put (a64_str A64_X1 CPU (off_tmp 0));;
    put_load (i_size o);;
    put (a64_mov A64_X1 A64_X0);;
    src;;
    fl ← put_op o;
    ewhen (negb (i_no_write o))
      (put (a64_str A64_X1 CPU (off_tmp 1));;
       put (a64_str A64_X2 CPU (off_tmp 2));;
       put (a64_str A64_X3 CPU (off_tmp 3));;
       put (a64_mov A64_X2 A64_X3);;
       put (a64_ldr A64_X1 CPU (off_tmp 0));;
       put_store (i_size o);;
       put (a64_ldr A64_X1 CPU (off_tmp 1));;
       put (a64_ldr A64_X2 CPU (off_tmp 2));;
       put (a64_ldr A64_X3 CPU (off_tmp 3)));;
    put_flags o fl (i_size o).

Definition put_lea (o : insn) : E unit :=
  put_ea o;;
  if i_size o =? 4
  then put (a64_mov_w A64_X3 A64_X1);; put (a64_str A64_X3 CPU (off_r (i_reg o)))
  else put (a64_str A64_X1 CPU (off_r (i_reg o))).

(** rsp minus 8, in x1 and in the cpu. *)
Definition put_grow_stack : E unit :=
  put (a64_ldr A64_X1 CPU (off_r 4));;
  put (a64_sub_imm A64_X1 A64_X1 8);;
  put (a64_str A64_X1 CPU (off_r 4)).

Definition put_shrink_stack : E unit :=
  put (a64_ldr A64_X1 CPU (off_r 4));;
  put (a64_add_imm A64_X1 A64_X1 8);;
  put (a64_str A64_X1 CPU (off_r 4)).

Definition put_push (o : insn) (rip : Z) : E unit :=
  put_set_rip rip;;
  put_grow_stack;;
  put (a64_ldr A64_X2 CPU (off_r (i_reg o)));;
  put_store 8.

Definition put_pop (o : insn) (rip : Z) : E unit :=
  put_set_rip rip;;
  put (a64_ldr A64_X1 CPU (off_r 4));;
  put_load 8;;
  put (a64_str A64_X0 CPU (off_r (i_reg o)));;
  put_shrink_stack.

Definition put_jcc (o : insn) : E unit :=
  put_cond_even (i_cc o);;
  put_imm A64_X2 (i_target o);;
  put_imm A64_X3 (i_next o);;
  put (a64_csel A64_X0 A64_X2 A64_X3 (sense (i_cc o)));;
  put_leave.

Definition put_call_rel (o : insn) (rip : Z) : E unit :=
  put_set_rip rip;;
  put_grow_stack;;
  put_imm A64_X2 (i_next o);;
  put_store 8;;
  put_imm A64_X0 (i_target o);;
  put_leave.

Definition put_ret (rip : Z) : E unit :=
  put_set_rip rip;;
  put (a64_ldr A64_X1 CPU (off_r 4));;
  put_load 8;;
  put (a64_str A64_X0 CPU (off_tmp 0));;
  put_shrink_stack;;
  put (a64_ldr A64_X0 CPU (off_tmp 0));;
  put_leave.

Definition put_callm (o : insn) (rip : Z) : E unit :=
  let mem := o_mem (i_mo o) in
  put_set_rip rip;;
  ewhen mem (put_ea o;; put (a64_str A64_X1 CPU (off_tmp 0)));;
  put_grow_stack;;
  put_imm A64_X2 (i_next o);;
  put_store 8;;
  (if mem then put (a64_ldr A64_X1 CPU (off_tmp 0));; put_load 8
   else put (a64_ldr A64_X0 CPU (off_r (i_reg o))));;
  put_leave.

Definition put_jmpm (o : insn) (rip : Z) : E unit :=
  (if o_mem (i_mo o) then put_set_rip rip;; put_ea o;; put_load 8
   else put (a64_ldr A64_X0 CPU (off_r (i_reg o))));;
  put_leave.

Definition put_insn (o : insn) (rip : Z) : E unit :=
  match i_kind o with
  | K_NOP => mret tt
  | K_SSE => put_sse o rip
  | K_RR | K_RI => put_rr o
  | K_RM => put_rm o rip
  | K_SHIFT => put_shift o rip
  | K_IMUL => put_imul o rip
  | K_SETCC => put_setcc o rip
  | K_MOVX => put_movx o rip
  | K_MR | K_MI => put_mr o rip
  | K_LEA => put_lea o
  | K_PUSH => put_push o rip
  | K_POP => put_pop o rip
  | K_JMP => put_imm A64_X0 (i_target o);; put_leave
  | K_JCC => put_jcc o
  | K_CALL => put_call_rel o rip
  | K_RET => put_ret rip
  | K_CALLM => put_callm o rip
  | K_JMPM => put_jmpm o rip
  | K_NONE => give_up_block
  end.
End linked.
