(* ===== verification/JitCache.v ===== *)
(** The arena and the cache of compiled blocks ([rsd_jit_init] to
    [rsd_jit_lookup] in [src/jit.c], the structure in [src/jit.h], less the
    count of blocks entered, which only a report reads).  Compiled words are
    written to host memory; what the host does so that they may be
    executed (write protection, the instruction cache) is left out, as is
    diagnostic output. *)
From S2P Require Import Prelude.
From S2P Require Import Memory.
From S2P Require Import AddressSpace.
From S2P Require Import Flags.
From S2P Require Import Stubs.
From S2P Require Import Machine.
From S2P Require Import Emit.
From S2P Require Import Jit.
From S2P Require Import JitEmit.
From S2P Require Import JitInsn.

Definition ARENA : Z := 4 << 20.
Definition PROF_MAX : Z := 1024.
Definition CACHE_BITS : Z := 12.
Definition MAX_BLOCK : Z := 2048.
Definition MAX_INSNS : nat := 48.

(** [je_code] is 0 for NULL. *)
Record rsd_jit_entry := JitEntry { je_tag : Z; je_code : Z; je_count : Z }.

(** An entry of the profile: four bytes and how often they were met. *)
Record rsd_jit_prof := JitProf { jp_b : list Z; jp_n : Z }.

Record rsd_jit := Jit {
  j_arena : Z; j_size : Z; j_used : Z;
  j_cache : list rsd_jit_entry; j_cache_bits : Z;
  j_compiled : Z; j_bailed : Z; j_interp : Z;
  j_prof : option (list rsd_jit_prof)
}.

Section cache.
Context `{Linked} `{HostOS}.

(** The C result, and the structure it leaves; [profile] is whether
    RASHID_JIT_PROFILE is set. *)
Definition rsd_jit_init (profile : bool) : M (Z * option rsd_jit) :=
  w ← gets m_w;
  let '(p, w) := try_mmap w 0 ARENA false in
  set_world w;;
  match p with
  | None => mret (-1, None)
  | Some arena =>
      if negb layout_in_reach then mret (-1, None)
      else if negb (h_alloc (w_host w) (1 << CACHE_BITS)) then mret (-1, None)
      else mret (0, Some (Jit arena ARENA 0 (replicate (Z.to_nat (1 << CACHE_BITS)) (JitEntry 0 0 0))
                            CACHE_BITS 0 0 0 (if profile then Some [] else None)))
  end.

Definition rsd_jit_free (j : rsd_jit) : M rsd_jit :=
  w ← gets m_w;
  (if nz (j_arena j) then
     let '(_, (h, mem)) := h_munmap (w_host w) (w_mem w) (j_arena j) (j_size j) in set_world (World h mem)
   else mret tt);;
  mret (Jit 0 0 0 [] 0 0 0 0 None).

(** Count [code], in the first entry that has it or a new one. *)
Fixpoint note_prof (code : list Z) (l : list rsd_jit_prof) (room : Z) : list rsd_jit_prof :=
  match l with
  | [] => if 0 <? room then [JitProf code 1] else []
  | p :: l =>
      if bool_decide (jp_b p = code) then JitProf (jp_b p) (u64 (jp_n p + 1)) :: l
      else p :: note_prof code l (room - 1)
  end.

Definition rsd_jit_note_interp (j : rsd_jit) (code : Z) : M rsd_jit :=
  match j_prof j with
  | None => mret (Jit (j_arena j) (j_size j) (j_used j) (j_cache j) (j_cache_bits j)
                    (j_compiled j) (j_bailed j) (u64 (j_interp j + 1)) None)
  | Some l =>
      bs ← host_bytes code 4;
      mret (Jit (j_arena j) (j_size j) (j_used j) (j_cache j) (j_cache_bits j)
              (j_compiled j) (j_bailed j) (u64 (j_interp j + 1)) (Some (note_prof bs l PROF_MAX)))
  end.

Definition slot_of (j : rsd_jit) (rip : Z) : Z :=
  u64 (rip * 0x9E3779B97F4A7C15) >> (64 - j_cache_bits j).

Definition entry_at (j : rsd_jit) (s : Z) : rsd_jit_entry :=
  default (JitEntry 0 0 0) (j_cache j !! Z.to_nat s).

Definition rsd_jit_count (j : rsd_jit) (rip : Z) : Z :=
  let e := entry_at j (slot_of j rip) in
  if je_tag e =? rip then je_count e else 0.

(** [while (count < MAX_INSNS && ...)]: the instructions, whether a terminator
    ended them, and the address behind them. *)
Fixpoint decode_block (room : nat) (pc : Z) : M (list insn * bool * Z) :=
  match room with
  | O => mret ([], false, pc)
  | S room =>
      s ← gets m_as;
      if negb (rsd_as_ok s pc 16 RSD_PROT_X) then mret ([], false, pc) else
      r ← decode pc pc;
      match r with
      | None => mret ([], false, pc)
      | Some o =>
          if terminates (i_kind o) then mret ([o], true, i_next o)
          else '(v, ended, pc) ← decode_block room (i_next o); mret (o :: v, ended, pc)
      end
  end.

(** The inner loop: the instructions that fit, counted, and the address of the
    first that does not. *)
Fixpoint put_insns (v : list insn) (i at_ : Z) : E (Z * Z) :=
  match v with
  | [] => mret (i, at_)
  | o :: v => fun b =>
      let '(_, b) := put_insn o at_ b in
      if b_full b then ((i, at_), b) else put_insns v (i + 1) (i_next o) b
  end.

(** The outer loop; each turn but the last cuts the block.  [None] when the fuel
    runs out. *)
Fixpoint emit_block (fuel : nat) (check : bool) (rip : Z) (v : list insn) (ended : bool) (pc : Z)
    : option (list insn * bool * Z * buf) :=
  match fuel with
  | O => None
  | S fuel =>
      let v := flag_liveness v in
      let '(_, b) := put (a64_push A64_X30) (Buf [] (MAX_BLOCK - 24) false check []) in
      let '((i, at_), b) := put_insns v 0 rip b in
      if i =? Z.of_nat (length v) then Some (v, ended, pc, b)
      else emit_block fuel check rip (take (Z.to_nat i) v) false at_
  end.

(** The end of a block: where to continue, and where a faulting helper leaves. *)
Definition close_block (ended : bool) (pc : Z) : E Z :=
  ewhen (negb ended) (put_imm A64_X0 pc;; put_leave);;
  exit_at ← here;
  put (a64_ldr A64_X0 CPU OFF_CURRIP);;
  put_leave;;
  mret exit_at.

(** Point the fault checks at the fault exit. *)
Definition patch_fixes (exit_at : Z) (b : buf) : list Z :=
  foldl (fun ws at_ => <[Z.to_nat at_ := a64_cbz_w A64_X9 (exit_at - at_)]> ws) (b_out b) (b_fix b).

Definition code_bytes (ws : list Z) : list Z := concat (le_bytes 4 <$> ws).

Definition set_entry (j : rsd_jit) (s : Z) (e : rsd_jit_entry) (used compiled bailed : Z) : rsd_jit :=
  Jit (j_arena j) (j_size j) used (<[Z.to_nat s := e]> (j_cache j)) (j_cache_bits j)
    compiled bailed (j_interp j) (j_prof j).

(** Nothing worth compiling here. *)
Definition bail (j : rsd_jit) (rip s : Z) : rsd_jit :=
  set_entry j s (JitEntry rip 0 (je_count (entry_at j s))) (j_used j) (j_compiled j) (u64 (j_bailed j + 1)).

(** The compiled entry point, 0 for NULL. *)
Definition rsd_jit_lookup (j : rsd_jit) (rip : Z) : M (rsd_jit * Z) :=
  let s := slot_of j rip in
  let e := entry_at j s in
  if je_tag e =? rip then mret (j, je_code e) else
  if nz (je_code e) then mret (j, 0) else
  stubs ← get_c c_stubs;
  if 0 <=? rsd_stub_index stubs rip then mret (j, 0) else
  as_ ← gets m_as;
  if negb (rsd_as_ok as_ rip 16 RSD_PROT_X) then mret (j, 0) else
  '(v, ended, pc) ← decode_block MAX_INSNS rip;
  check ← get_c c_jit_check;
  match emit_block (S (length v)) check rip v ended pc with
  | None => raise OutOfFuel
  | Some (v, ended, pc, b) =>
      let count := Z.of_nat (length v) in
      if count <? 2 then mret (bail j rip s, 0) else
      let '(exit_at, b) := close_block ended pc (Buf (b_out b) MAX_BLOCK (b_full b) (b_check b) (b_fix b)) in
      if b_full b then mret (bail j rip s, 0) else
      let words := patch_fixes exit_at b in
      let bytes := b_n b * 4 in
      if j_size j <? j_used j + bytes then mret (j, 0) else
      let code := j_arena j + j_used j in
      host_store code (code_bytes words);;
      mret (set_entry j s (JitEntry rip code (u32 count)) (j_used j + bytes)
              (u64 (j_compiled j + 1)) (j_bailed j), code)
  end.
End cache.
