(* ===== verification/JitRun.v ===== *)
(** Running emitted code: which words an emission appends ([straight], for code
    without branches), and what each word does to the A64 state. *)
From S2P Require Import Prelude.
From S2P Require Import Memory.
From S2P Require Import A64.
From S2P Require Import Emit.
From S2P Require Import JitEmit.

(* ------------------------------------------------------------------ *)
(** ** Emission of straight-line code *)

(** [c] returns [a] and appends exactly [ws], wherever it is run; or the buffer
    is full. *)
Definition straight {A} (c : E A) (a : A) (ws : list Z) : Prop :=
  forall b, (c b).1 = a /\
    (b_full (c b).2 = false ->
     b_full b = false /\ (c b).2 = Buf (b_out b ++ ws) (b_max b) false (b_check b) (b_fix b)).

Lemma straight_ret {A} (a : A) : straight (mret a) a [].
Proof.
  intros [out mx fl ch fx]. split; [done|]. intros Hf. cbn in *. by rewrite Hf, app_nil_r.
Qed.

Lemma straight_put w : straight (put w) tt [w].
Proof.
  intros b. unfold put. destruct (b_max b <=? b_n b); cbn; [done|]. split; [done|]. by intros ->.
Qed.

Lemma straight_bind {A B} (c : E A) (f : A -> E B) a ws r ws' :
  straight c a ws -> straight (f a) r ws' -> straight (c ≫= f) r (ws ++ ws').
Proof.
  intros Hc Hd b. unfold mbind, E_bind. destruct (Hc b) as [Ha Hc'].
  destruct (c b) as [a' b1]. cbn in *. subst a'. destruct (Hd b1) as [Hr Hd']. split; [done|].
  intros Hf. destruct (Hd' Hf) as [Hf1 ->]. destruct (Hc' Hf1) as [Hb ->]. split; [done|].
  cbn. by rewrite app_assoc.
Qed.

Lemma straight_when (c : bool) e ws :
  straight e tt ws -> straight (ewhen c e) tt (if c then ws else []).
Proof. destruct c; [done|]. intros _. apply straight_ret. Qed.

Lemma straight_if {A} (c : bool) (e f : E A) a ws ws' :
  straight e a ws -> straight f a ws' -> straight (if c then e else f) a (if c then ws else ws').
Proof. by destruct c. Qed.

(* ------------------------------------------------------------------ *)
(** ** Execution *)

Fixpoint exec_words (ws : list Z) (st : astate) : option astate :=
  match ws with
  | [] => Some st
  | w :: ws =>
      '(st, ctl) ← exec_word w st;
      match ctl with Next => exec_words ws st | _ => None end
  end.

Lemma exec_words_app ws ws' st st' :
  exec_words ws st = Some st' -> exec_words (ws ++ ws') st = exec_words ws' st'.
Proof.
  revert st. induction ws as [|w ws IH]; intros st; cbn; [by intros [= ->]|].
  destruct (exec_word w st) as [[s []]|]; cbn; try done. apply IH.
Qed.

Lemma exec_words_cons w ws st st' :
  exec_word w st = Some (st', Next) -> exec_words (w :: ws) st = exec_words ws st'.
Proof. intros Hw. cbn. by rewrite Hw. Qed.

(** Registers of a state built by writes. *)
Lemma xr_set_x d v st n : xr (set_x d v st) n = if (n =? d) && negb (d =? 31) then v else xr st n.
Proof.
  unfold xr, set_x. destruct (Z.eqb_spec d 31) as [->|Hd]; cbn [negb]; [by rewrite andb_false_r|].
  rewrite andb_true_r. cbn [a_x]. destruct (Z.eqb_spec n 31) as [->|Hn]; [|done].
  rewrite (proj2 (Z.eqb_neq 31 d)); done.
Qed.

Lemma mem_set_x d v st : a_mem (set_x d v st) = a_mem st.
Proof. unfold set_x. by case_match. Qed.
Lemma fl_set_x d v st : a_fl (set_x d v st) = a_fl st.
Proof. unfold set_x. by case_match. Qed.

Lemma u64_add_wrap a b : u64 (u64 a + u64 b) = u64 (a + b).
Proof. unfold uwrap. by rewrite <- Z.add_mod. Qed.
Lemma u32_add_wrap a b : u32 (u32 a + u32 b) = u32 (a + b).
Proof. unfold uwrap. by rewrite <- Z.add_mod. Qed.

(** Wrapping commutes with the bitwise operations. *)
Lemma uwrap_land w a b : 0 <= w -> uwrap w a .& uwrap w b = uwrap w (a .& b).
Proof. intros Hw. bitwise i. by destruct (bool_decide _). Qed.
Lemma uwrap_lor w a b : 0 <= w -> uwrap w a .| uwrap w b = uwrap w (a .| b).
Proof. intros Hw. bitwise i. by destruct (bool_decide _). Qed.
Lemma uwrap_lxor w a b : 0 <= w -> uwrap w a .^ uwrap w b = uwrap w (a .^ b).
Proof. intros Hw. bitwise i. by destruct (bool_decide _). Qed.
Lemma uwrap_lnot w a : 0 <= w -> uwrap w (.~ uwrap w a) = uwrap w (.~ a).
Proof. intros Hw. bitwise i. by destruct (bool_decide _). Qed.

Lemma sub_wrap w a b : 0 <= w -> uwrap w (uwrap w a + uwrap w (.~ uwrap w b) + 1) = uwrap w (a - b).
Proof.
  intros Hw. rewrite uwrap_lnot by done. unfold uwrap.
  assert (0 < 2 ^ w) by (by apply Z.pow_pos_nonneg).
  rewrite <- Z.add_mod_idemp_l, <- Z.add_mod, Z.add_mod_idemp_l by lia. f_equal.
  unfold Z.lnot. lia.
Qed.

Lemma uwrap_shift_0 w x : 0 <= w -> uwrap w (uwrap w x << 0) = uwrap w x.
Proof. intros Hw. by rewrite Z.shiftl_0_r, uwrap_uwrap. Qed.

Section words.
Context (st : astate).

Ltac word em :=
  intros; unfold exec_word; erewrite emitted_word by (apply em; (assumption || done || lia));
  cbn -[uwrap swrap Z.pow set_x bits Z.div read_bytes write_bytes le_bytes Z.ones Z.modulo Z.lxor];
  rewrite ?Z.add_0_r, ?uwrap_shift_0 by done.

Lemma exec_add d n m : xreg d -> xreg n -> xreg m ->
  exec_word (a64_add d n m) st = Some (set_x d (u64 (xr st n + xr st m)) st, Next).
Proof. word em_add. by rewrite u64_add_wrap. Qed.

Lemma exec_sub d n m : xreg d -> xreg n -> xreg m ->
  exec_word (a64_sub d n m) st = Some (set_x d (u64 (xr st n - xr st m)) st, Next).
Proof. word em_sub. by rewrite sub_wrap. Qed.

Lemma exec_add_w d n m : xreg d -> xreg n -> xreg m ->
  exec_word (a64_add_w d n m) st = Some (set_x d (u32 (xr st n + xr st m)) st, Next).
Proof. word em_add_w. by rewrite u32_add_wrap. Qed.

Lemma exec_sub_w d n m : xreg d -> xreg n -> xreg m ->
  exec_word (a64_sub_w d n m) st = Some (set_x d (u32 (xr st n - xr st m)) st, Next).
Proof. word em_sub_w. by rewrite sub_wrap. Qed.

Lemma exec_and d n m : xreg d -> xreg n -> xreg m ->
  exec_word (a64_and d n m) st = Some (set_x d (u64 (xr st n .& xr st m)) st, Next).
Proof. word em_and. by rewrite uwrap_land. Qed.
Lemma exec_orr d n m : xreg d -> xreg n -> xreg m ->
  exec_word (a64_orr d n m) st = Some (set_x d (u64 (xr st n .| xr st m)) st, Next).
Proof. word em_orr. by rewrite uwrap_lor. Qed.
Lemma exec_eor d n m : xreg d -> xreg n -> xreg m ->
  exec_word (a64_eor d n m) st = Some (set_x d (u64 (xr st n .^ xr st m)) st, Next).
Proof. word em_eor. by rewrite uwrap_lxor. Qed.
Lemma exec_and_w d n m : xreg d -> xreg n -> xreg m ->
  exec_word (a64_and_w d n m) st = Some (set_x d (u32 (xr st n .& xr st m)) st, Next).
Proof. word em_and_w. by rewrite uwrap_land. Qed.
Lemma exec_orr_w d n m : xreg d -> xreg n -> xreg m ->
  exec_word (a64_orr_w d n m) st = Some (set_x d (u32 (xr st n .| xr st m)) st, Next).
Proof. word em_orr_w. by rewrite uwrap_lor. Qed.
Lemma exec_eor_w d n m : xreg d -> xreg n -> xreg m ->
  exec_word (a64_eor_w d n m) st = Some (set_x d (u32 (xr st n .^ xr st m)) st, Next).
Proof. word em_eor_w. by rewrite uwrap_lxor. Qed.
Lemma exec_bic d n m : xreg d -> xreg n -> xreg m ->
  exec_word (a64_bic d n m) st = Some (set_x d (u64 (xr st n .& .~ xr st m)) st, Next).
Proof. word em_bic. by rewrite uwrap_lnot, uwrap_land. Qed.

Lemma exec_mov d m : xreg d -> xreg m ->
  exec_word (a64_mov d m) st = Some (set_x d (u64 (xr st m)) st, Next).
Proof. word em_mov. done. Qed.
Lemma exec_mov_w d m : xreg d -> xreg m ->
  exec_word (a64_mov_w d m) st = Some (set_x d (u32 (xr st m)) st, Next).
Proof. word em_mov_w. done. Qed.

Lemma not_sp n st' : n <> 31 -> xsp st' n = xr st' n.
Proof. intros Hn. unfold xsp, xr. by rewrite (proj2 (Z.eqb_neq n 31)). Qed.
Lemma set_not_sp d v st' : d <> 31 -> set_xsp d v st' = set_x d v st'.
Proof. intros Hd. unfold set_xsp. by rewrite (proj2 (Z.eqb_neq d 31)). Qed.
Lemma imm12 imm : urange 12 imm -> u64 imm = imm.
Proof. intros Hi. apply uwrap_small. by eapply urange_mono, Hi. Qed.

Lemma exec_add_imm d n imm : xreg d -> xreg n -> n <> 31 -> d <> 31 -> urange 12 imm ->
  exec_word (a64_add_imm d n imm) st = Some (set_x d (u64 (xr st n + imm)) st, Next).
Proof.
  intros Hd Hn Hn' Hd' Hi. word em_add_imm. rewrite not_sp, set_not_sp by done.
  by rewrite <- (imm12 imm Hi) at 1; rewrite u64_add_wrap.
Qed.
Lemma exec_sub_imm d n imm : xreg d -> xreg n -> n <> 31 -> d <> 31 -> urange 12 imm ->
  exec_word (a64_sub_imm d n imm) st = Some (set_x d (u64 (xr st n - imm)) st, Next).
Proof.
  intros Hd Hn Hn' Hd' Hi. word em_sub_imm. rewrite not_sp, set_not_sp by done.
  by rewrite <- (imm12 imm Hi) at 1; rewrite sub_wrap.
Qed.
Lemma exec_cmp0 n : xreg n -> n <> 31 ->
  exec_word (a64_cmp0 n) st = Some (set_fl (add_sub 64 true (u64 (xr st n)) 0).2 st, Next).
Proof. intros Hn Hn'. word em_cmp0. by rewrite not_sp. Qed.

Lemma exec_add_shift d n m sh : xreg d -> xreg n -> xreg m -> urange 6 sh ->
  exec_word (a64_add_shift d n m sh) st = Some (set_x d (u64 (xr st n + (xr st m << sh))) st, Next).
Proof.
  word em_add_shift. rewrite u64_add_wrap. do 3 f_equal.
  unfold urange in *. rewrite !Z.shiftl_mul_pow2 by lia. unfold uwrap.
  by rewrite <- Z.add_mod_idemp_r, Z.mul_mod_idemp_l, Z.add_mod_idemp_r.
Qed.
Lemma exec_mul d n m : xreg d -> xreg n -> xreg m ->
  exec_word (a64_mul d n m) st = Some (set_x d (u64 (xr st n * xr st m)) st, Next).
Proof. word em_mul. done. Qed.
Lemma exec_mul_w d n m : xreg d -> xreg n -> xreg m ->
  exec_word (a64_mul_w d n m) st = Some (set_x d (u32 (xr st n * xr st m)) st, Next).
Proof. word em_mul_w. done. Qed.

Lemma exec_orr_lsl d n m sh : xreg d -> xreg n -> xreg m -> urange 6 sh ->
  exec_word (a64_orr_lsl d n m sh) st = Some (set_x d (u64 (xr st n .| (xr st m << sh))) st, Next).
Proof.
  word em_orr_lsl. rewrite uwrap_lor by done. do 3 f_equal.
  unfold urange in *. bitwise i. destruct (decide (i < 64)); [|by rewrite bool_decide_false].
  rewrite bool_decide_true by done. cbn. by rewrite bool_decide_true by lia.
Qed.
Lemma exec_eor_lsr d n m sh : xreg d -> xreg n -> xreg m -> urange 6 sh ->
  exec_word (a64_eor_lsr d n m sh) st = Some (set_x d (u64 (xr st n) .^ (u64 (xr st m) >> sh)) st, Next).
Proof. word em_eor_lsr. done. Qed.
Lemma exec_eor_bit0 d n : xreg d -> xreg n -> d <> 31 ->
  exec_word (a64_eor_bit d n 0) st = Some (set_x d (xr st n .^ 1) st, Next).
Proof.
  word em_eor_bit. by rewrite set_not_sp.
Qed.

Lemma exec_movz d imm hw : xreg d -> urange 16 imm -> urange 2 hw ->
  exec_word (a64_movz d imm hw) st = Some (set_x d (imm << (16 * hw)) st, Next).
Proof. word em_movz. done. Qed.
Lemma exec_movk d imm hw : xreg d -> urange 16 imm -> urange 2 hw ->
  exec_word (a64_movk d imm hw) st =
  Some (set_x d ((u64 (xr st d) .& .~ (Z.ones 16 << (16 * hw))) .| (imm << (16 * hw))) st, Next).
Proof. word em_movk. done. Qed.

Lemma exec_ubfx d n lsb width : xreg d -> xreg n -> 0 <= lsb -> 0 < width -> lsb + width <= 64 ->
  exec_word (a64_ubfx d n lsb width) st = Some (set_x d (bits (xr st n) lsb width) st, Next).
Proof.
  word em_ubfx. unfold bf_field.
  rewrite (proj2 (Z.leb_le lsb (lsb + width - 1))) by lia.
  cbn [Z.eqb Pos.eqb]. rewrite Z.shiftl_0_r. by replace (lsb + width - 1 - lsb + 1) with width by lia.
Qed.
Lemma exec_bfi d n lsb width : xreg d -> xreg n -> 0 < lsb -> 0 < width -> lsb + width <= 64 ->
  exec_word (a64_bfi d n lsb width) st =
  Some (set_x d ((u64 (xr st d) .& .~ (Z.ones width << lsb)) .| (bits (xr st n) 0 width << lsb)) st, Next).
Proof.
  word em_bfi. rewrite Z.mod_small by lia. unfold bf_field.
  rewrite (proj2 (Z.leb_gt (64 - lsb) (width - 1))) by lia. cbn [Z.eqb Pos.eqb].
  replace (width - 1 + 1) with width by lia. by replace (64 - (64 - lsb)) with lsb by lia.
Qed.
Lemma exec_sxt d n b : xreg d -> xreg n -> 0 < b <= 32 ->
  exec_word (a64_sxt d n b) st = Some (set_x d (u64 (swrap b (bits (xr st n) 0 b))) st, Next).
Proof.
  word em_sxt. unfold bf_field. rewrite (proj2 (Z.leb_le 0 (b - 1))) by lia.
  cbn [Z.eqb Pos.eqb]. rewrite Z.shiftl_0_r. by replace (b - 1 - 0 + 1) with b by lia.
Qed.
Lemma exec_sxt_w d n b : xreg d -> xreg n -> 0 < b <= 32 ->
  exec_word (a64_sxt_w d n b) st = Some (set_x d (u32 (swrap b (bits (xr st n) 0 b))) st, Next).
Proof.
  word em_sxt_w. unfold bf_field. rewrite (proj2 (Z.leb_le 0 (b - 1))) by lia.
  cbn [Z.eqb Pos.eqb]. rewrite Z.shiftl_0_r. by replace (b - 1 - 0 + 1) with b by lia.
Qed.

Lemma cond_inverse f c : urange 4 c -> c < 14 -> cond_holds f (c .^ 1) = negb (cond_holds f c).
Proof.
  intros Hc Hl. unfold urange in Hc.
  assert (Hx : c = 0 \/ c = 1 \/ c = 2 \/ c = 3 \/ c = 4 \/ c = 5 \/ c = 6 \/ c = 7 \/ c = 8 \/ c = 9 \/
               c = 10 \/ c = 11 \/ c = 12 \/ c = 13) by lia.
  by destruct f as [[] [] [] []]; decompose sum Hx; subst c.
Qed.

Lemma exec_csel d n m c : xreg d -> xreg n -> xreg m -> urange 4 c ->
  exec_word (a64_csel d n m c) st =
  Some (set_x d (if cond_holds (a_fl st) c then u64 (xr st n) else u64 (xr st m)) st, Next).
Proof. word em_csel. done. Qed.
Lemma exec_cset d c : xreg d -> urange 4 c -> c < 14 ->
  exec_word (a64_cset d c) st = Some (set_x d (bz (cond_holds (a_fl st) c)) st, Next).
Proof.
  word em_cset. rewrite cond_inverse by done. by destruct (cond_holds _ _).
Qed.

Lemma exec_adds_zr n m w : xreg n -> xreg m ->
  exec_word (a64_adds_zr n m w) st =
  Some (set_fl (add_sub (dsize (negb w)) false (uwrap (dsize (negb w)) (xr st n))
                  (uwrap (dsize (negb w)) (xr st m))).2 st, Next).
Proof. word em_adds_zr. destruct w; cbn [negb dsize]; by rewrite uwrap_shift_0. Qed.
Lemma exec_subs_zr n m w : xreg n -> xreg m ->
  exec_word (a64_subs_zr n m w) st =
  Some (set_fl (add_sub (dsize (negb w)) true (uwrap (dsize (negb w)) (xr st n))
                  (uwrap (dsize (negb w)) (xr st m))).2 st, Next).
Proof. word em_subs_zr. destruct w; cbn [negb dsize]; by rewrite uwrap_shift_0. Qed.
Lemma exec_ands_zr n m w : xreg n -> xreg m ->
  exec_word (a64_ands_zr n m w) st =
  Some (set_fl (logic_flags (dsize (negb w)) (uwrap (dsize (negb w)) (xr st n .& xr st m))) st, Next).
Proof.
  word em_ands_zr. destruct w; cbn [negb dsize]; rewrite uwrap_shift_0, uwrap_land by done; done.
Qed.
End words.

(** Loads and stores off a base register that is not the stack pointer. *)
Section memory_words.
Context (st : astate) (t n off : Z) (Ht : xreg t) (Hn : xreg n) (Hsp : n <> 31).

Ltac mem_word em :=
  unfold exec_word; erewrite emitted_word by (apply em; (assumption || done || lia)); cbn -[Z.div Z.mul Z.shiftl read_bytes write_bytes le_bytes u64];
  rewrite not_sp by done; unfold access; cbn -[Z.div Z.mul Z.shiftl read_bytes write_bytes le_bytes u64].

Lemma unscale k j : 0 <= j -> k = 2 ^ j -> off mod k = 0 -> (off / k) << j = off.
Proof.
  intros Hj -> Ho. rewrite Z.shiftl_mul_pow2 by done.
  assert (0 < 2 ^ j) by (by apply Z.pow_pos_nonneg). pose proof (Z.div_mod off (2 ^ j)). lia.
Qed.

Lemma exec_ldr bs : off mod 8 = 0 -> 0 <= off <= 32760 ->
  read_bytes (a_mem st) (u64 (xr st n + off)) 8 = Some bs ->
  exec_word (a64_ldr t n off) st = Some (set_x t (le_val bs) st, Next).
Proof.
  intros Hm Ho Hr. mem_word em_ldr. rewrite (unscale 8 3) by done. change (Z.to_nat (1 << 3)) with 8%nat.
  by rewrite Hr.
Qed.
Lemma exec_ldr_w bs : off mod 4 = 0 -> 0 <= off <= 16380 ->
  read_bytes (a_mem st) (u64 (xr st n + off)) 4 = Some bs ->
  exec_word (a64_ldr_w t n off) st = Some (set_x t (le_val bs) st, Next).
Proof.
  intros Hm Ho Hr. mem_word em_ldr_w. rewrite (unscale 4 2) by done. change (Z.to_nat (1 << 2)) with 4%nat.
  by rewrite Hr.
Qed.
Lemma exec_ldrb bs : 0 <= off < 4096 ->
  read_bytes (a_mem st) (u64 (xr st n + off)) 1 = Some bs ->
  exec_word (a64_ldrb t n off) st = Some (set_x t (le_val bs) st, Next).
Proof.
  intros Ho Hr. mem_word em_ldrb. rewrite Z.shiftl_0_r. change (Z.to_nat (1 << 0)) with 1%nat.
  by rewrite Hr.
Qed.

Lemma exec_ldrh bs : off mod 2 = 0 -> 0 <= off <= 8190 ->
  read_bytes (a_mem st) (u64 (xr st n + off)) 2 = Some bs ->
  exec_word (a64_ldrh t n off) st = Some (set_x t (le_val bs) st, Next).
Proof.
  intros Hm Ho Hr. mem_word em_ldrh. rewrite (unscale 2 1) by done. change (Z.to_nat (1 << 1)) with 2%nat.
  by rewrite Hr.
Qed.
Lemma exec_strh : off mod 2 = 0 -> 0 <= off <= 8190 ->
  is_Some (read_bytes (a_mem st) (u64 (xr st n + off)) 2) ->
  exec_word (a64_strh t n off) st =
  Some (set_amem (write_bytes (a_mem st) (u64 (xr st n + off)) (le_bytes 2 (xr st t))) st, Next).
Proof.
  intros Hm Ho [bs Hr]. mem_word em_strh. rewrite (unscale 2 1) by done.
  change (Z.to_nat (1 << 1)) with 2%nat. by rewrite Hr.
Qed.

Lemma exec_str : off mod 8 = 0 -> 0 <= off <= 32760 ->
  is_Some (read_bytes (a_mem st) (u64 (xr st n + off)) 8) ->
  exec_word (a64_str t n off) st =
  Some (set_amem (write_bytes (a_mem st) (u64 (xr st n + off)) (le_bytes 8 (xr st t))) st, Next).
Proof.
  intros Hm Ho [bs Hr]. mem_word em_str. rewrite (unscale 8 3) by done.
  change (Z.to_nat (1 << 3)) with 8%nat. by rewrite Hr.
Qed.
Lemma exec_str_w : off mod 4 = 0 -> 0 <= off <= 16380 ->
  is_Some (read_bytes (a_mem st) (u64 (xr st n + off)) 4) ->
  exec_word (a64_str_w t n off) st =
  Some (set_amem (write_bytes (a_mem st) (u64 (xr st n + off)) (le_bytes 4 (xr st t))) st, Next).
Proof.
  intros Hm Ho [bs Hr]. mem_word em_str_w. rewrite (unscale 4 2) by done.
  change (Z.to_nat (1 << 2)) with 4%nat. by rewrite Hr.
Qed.
Lemma exec_strb : 0 <= off < 4096 ->
  is_Some (read_bytes (a_mem st) (u64 (xr st n + off)) 1) ->
  exec_word (a64_strb t n off) st =
  Some (set_amem (write_bytes (a_mem st) (u64 (xr st n + off)) (le_bytes 1 (xr st t))) st, Next).
Proof.
  intros Ho [bs Hr]. mem_word em_strb. rewrite Z.shiftl_0_r. change (Z.to_nat (1 << 0)) with 1%nat.
  by rewrite Hr.
Qed.
End memory_words.

(** The stack, and the return. *)
Definition set_sp (v : Z) (st : astate) : astate := AState (a_x st) v (a_fl st) (a_mem st).

Lemma exec_push t st : xreg t ->
  is_Some (read_bytes (a_mem st) (u64 (a_sp st - 16)) 8) ->
  exec_word (a64_push t) st =
  Some (set_sp (u64 (a_sp st - 16)) (set_amem (write_bytes (a_mem st) (u64 (a_sp st - 16)) (le_bytes 8 (xr st t))) st), Next).
Proof.
  intros Ht [bs Hr]. unfold exec_word. erewrite emitted_word by (by apply em_push).
  cbn -[read_bytes write_bytes le_bytes u64]. unfold access, xsp.
  cbn -[read_bytes write_bytes le_bytes u64]. change (Z.to_nat (1 << 3)) with 8%nat.
  change (a_sp st + -16) with (a_sp st - 16). by rewrite Hr.
Qed.

Lemma exec_pop t bs st : xreg t -> t <> 31 ->
  read_bytes (a_mem st) (a_sp st) 8 = Some bs ->
  exec_word (a64_pop t) st = Some (set_sp (u64 (a_sp st + 16)) (set_x t (le_val bs) st), Next).
Proof.
  intros Ht Hz Hr. unfold exec_word. erewrite emitted_word by (by apply em_pop).
  cbn -[read_bytes write_bytes le_bytes u64 set_x]. unfold access, xsp.
  cbn -[read_bytes write_bytes le_bytes u64 set_x]. change (Z.to_nat (1 << 3)) with 8%nat. rewrite Hr.
  cbn -[le_val u64 set_x]. unfold set_sp, set_xsp. cbn [Z.eqb Pos.eqb].
  do 3 f_equal; unfold set_x; by rewrite (proj2 (Z.eqb_neq t 31)).
Qed.

Lemma exec_ret st : exec_word a64_ret st = Some (st, Ret (xr st 30)).
Proof. unfold exec_word. by erewrite emitted_word by apply em_ret. Qed.

(** Branches. *)
Lemma exec_b d st : - 2 ^ 25 <= d < 2 ^ 25 -> exec_word (a64_b d) st = Some (st, Jump d).
Proof. intros Hd. unfold exec_word. by erewrite emitted_word by by apply em_b. Qed.
Lemma exec_bcond c d st : urange 4 c -> - 2 ^ 18 <= d < 2 ^ 18 ->
  exec_word (a64_bcond c d) st = Some (st, if cond_holds (a_fl st) c then Jump d else Next).
Proof. intros Hc Hd. unfold exec_word. by erewrite emitted_word by by apply em_bcond. Qed.
Lemma exec_cbz_w t d st : xreg t -> - 2 ^ 18 <= d < 2 ^ 18 ->
  exec_word (a64_cbz_w t d) st = Some (st, if u32 (xr st t) =? 0 then Jump d else Next).
Proof.
  intros Ht Hd. unfold exec_word. erewrite emitted_word by by apply em_cbz_w. cbn -[uwrap].
  by destruct (u32 (xr st t) =? 0).
Qed.
Lemma exec_blr n st : xreg n -> exec_word (a64_blr n) st = Some (st, Call (xr st n)).
Proof. intros Hn. unfold exec_word. by erewrite emitted_word by by apply em_blr. Qed.

(* ------------------------------------------------------------------ *)
(** ** Emitting and running at once *)

(** The words [c] appends take [st] to [st'], and it returns [a]. *)
Definition emit_runs {A} (c : E A) (a : A) (st st' : astate) : Prop :=
  exists ws, straight c a ws /\ exec_words ws st = Some st'.

Lemma run_put w st st' : exec_word w st = Some (st', Next) -> emit_runs (put w) tt st st'.
Proof. intros Hw. exists [w]. split; [apply straight_put|]. by rewrite (exec_words_cons _ _ _ _ Hw). Qed.

Lemma run_ret {A} (a : A) st : emit_runs (mret a) a st st.
Proof. exists []. split; [apply straight_ret|done]. Qed.

Lemma run_bind {A B} (c : E A) (f : A -> E B) a r st st1 st2 :
  emit_runs c a st st1 -> emit_runs (f a) r st1 st2 -> emit_runs (c ≫= f) r st st2.
Proof.
  intros (ws & Hs & He) (ws' & Hs' & He'). exists (ws ++ ws'). split; [by eapply straight_bind|].
  by rewrite (exec_words_app _ _ _ _ He).
Qed.

Lemma run_put_bind {B} w (f : unit -> E B) r st st1 st2 :
  exec_word w st = Some (st1, Next) -> emit_runs (f tt) r st1 st2 -> emit_runs (put w ≫= f) r st st2.
Proof. intros Hw. by apply run_bind, run_put. Qed.

(** The emitted words depend on the emission alone. *)
Lemma straight_unique {A} (c : E A) a a' ws ws' :
  straight c a ws -> straight c a' ws' -> (exists b, b_full (c b).2 = false) -> ws = ws'.
Proof.
  intros H1 H2 [b Hb]. destruct (proj2 (H1 b) Hb) as [_ E1], (proj2 (H2 b) Hb) as [_ E2].
  rewrite E1 in E2. injection E2. apply app_inv_head.
Qed.

(** What a stretch of code may change: these registers only. *)
Record keeps_regs (rs : list Z) (st st' : astate) : Prop := {
  kr_mem : a_mem st' = a_mem st;
  kr_fl : a_fl st' = a_fl st;
  kr_sp : a_sp st' = a_sp st;
  kr_x : forall n, ~ In n rs -> xr st' n = xr st n
}.

Lemma keeps_regs_refl rs st : keeps_regs rs st st.
Proof. by split. Qed.

Lemma keeps_regs_trans rs st st1 st2 : keeps_regs rs st st1 -> keeps_regs rs st1 st2 -> keeps_regs rs st st2.
Proof.
  intros [H1 H2 H3 H4] [H5 H6 H7 H8]. split; [congruence..|]. intros n Hn. by rewrite H8, H4.
Qed.

Lemma keeps_regs_set rs d v st : In d rs -> keeps_regs rs st (set_x d v st).
Proof.
  intros Hd. split; [apply mem_set_x|apply fl_set_x|by unfold set_x; case_match|].
  intros n Hn. rewrite xr_set_x. destruct (Z.eqb_spec n d) as [->|]; [contradiction|done].
Qed.

(** From here on a word is what its encoder says. *)
#[global] Opaque exec_word
  a64_ldr a64_str a64_push a64_pop a64_movz a64_movk a64_mov a64_add a64_sub a64_and a64_orr
  a64_eor a64_add_w a64_sub_w a64_and_w a64_orr_w a64_eor_w a64_mov_w a64_add_imm a64_sub_imm
  a64_add_shift a64_mul a64_mul_w a64_ldrh a64_strh a64_b a64_ldrb a64_strb a64_ubfx a64_bfi
  a64_sxt a64_sxt_w a64_cbz_w a64_cmp0 a64_csel a64_bic a64_csetm a64_csetm_w a64_adds_zr
  a64_subs_zr a64_ands_zr a64_orr_lsl a64_eor_lsr a64_eor_bit a64_cset a64_ldr_d a64_str_d
  a64_ldr_s a64_str_s a64_ldr_w a64_str_w a64_fop_d a64_fop_s a64_fsqrt_d a64_fsqrt_s a64_fcmp_d
  a64_fcmp_s a64_fcsel_d a64_fcsel_s a64_fmov_dx a64_fmov_xd a64_fmov_sw a64_fmov_ws
  a64_scvtf_dx a64_scvtf_dw a64_scvtf_sx a64_scvtf_sw a64_fcvt_sd a64_fcvt_ds a64_bcond a64_blr
  a64_ret.
