(* ===== verification/JitFlags.v ===== *)
(** Compiled flags and conditions ([put_imm], [put_cond_even] and
    [put_flags_inline] in [src/jit.c]): run on the A64 machine they compute what
    the interpreter's routines compute. *)
From S2P Require Import Prelude.
From S2P Require Import Memory.
From S2P Require Import Flags.
From S2P Require Import A64.
From S2P Require Import Emit.
From S2P Require Import Jit.
From S2P Require Import JitEmit.
From S2P Require Import JitRun.

(* ------------------------------------------------------------------ *)
(** ** Constants *)

(** [movk] fills in the next sixteen bits of a value. *)
Lemma insert_halfword v k :
  0 <= k <= 3 ->
  (u64 (uwrap (16 * k) v) .& .~ (Z.ones 16 << (16 * k))) .| (u16 (v >> (16 * k)) << (16 * k)) = uwrap (16 * (k + 1)) v.
Proof.
  intros Hk. bitwise i. destruct (decide (i < 16 * k)).
  - rewrite !(Z.testbit_neg_r _ (i - 16 * k)) by lia. rewrite !bool_decide_true by lia.
    cbn. by rewrite andb_true_r, orb_false_r.
  - rewrite (bool_decide_false (i < 16 * k)), andb_false_r, Z.shiftr_spec by lia. cbn.
    replace (i - 16 * k + 16 * k) with i by lia. f_equal. apply bool_decide_ext. lia.
Qed.

(** A 64-bit constant ends up in its register, and nothing else changes. *)
Lemma run_imm reg v st :
  xreg reg -> reg <> 31 -> urange 64 v ->
  exists st', emit_runs (put_imm reg v) tt st st' /\ xr st' reg = v /\ keeps_regs [reg] st st'.
Proof.
  intros Hreg Hz Hv.
  assert (Hget : forall x s, xr (set_x reg x s) reg = x).
  { intros x s. rewrite xr_set_x, Z.eqb_refl. by rewrite (proj2 (Z.eqb_neq reg 31)). }
  assert (Hk : forall x s, keeps_regs [reg] s (set_x reg x s)) by (intros; apply keeps_regs_set; by left).
  (* one movk, taken when what is left of the value is not zero *)
  assert (Hstep : forall k s, 1 <= k <= 3 -> xr s reg = uwrap (16 * k) v ->
    exists s', emit_runs (ewhen (nz (v >> (16 * k))) (put (a64_movk reg (u16 (v >> (16 * k))) k))) tt s s' /\
      xr s' reg = uwrap (16 * (k + 1)) v /\ keeps_regs [reg] s s').
  { intros k s Hk3 Hs. unfold nz. destruct (Z.eqb_spec (v >> (16 * k)) 0) as [E|E]; cbn [negb ewhen].
    - exists s. split; [apply run_ret|]. split; [|apply keeps_regs_refl]. rewrite Hs.
      rewrite Z.shiftr_div_pow2 in E by lia. unfold urange in Hv.
      assert (v < 2 ^ (16 * k)) by (apply Z.div_small_iff in E; [lia|apply Z.pow_nonzero; lia]).
      rewrite !uwrap_small; [done|split; [lia|]|split; lia].
      eapply Z.lt_le_trans; [done|]. apply Z.pow_le_mono_r; lia.
    - eexists. split; [apply run_put, exec_movk; [done|by apply uwrap_range|unfold urange; cbn; lia]|].
      split; [|apply Hk]. rewrite Hget, Hs.
      apply insert_halfword. lia. }
  set (s1 := set_x reg (u16 v << (16 * 0)) st).
  assert (H1 : xr s1 reg = uwrap (16 * 1) v) by (unfold s1; rewrite Hget; apply Z.shiftl_0_r).
  destruct (Hstep 1 s1 ltac:(lia) H1) as (s2 & R2 & H2 & K2).
  destruct (Hstep 2 s2 ltac:(lia) H2) as (s3 & R3 & H3 & K3).
  destruct (Hstep 3 s3 ltac:(lia) H3) as (s4 & R4 & H4 & K4).
  exists s4. split.
  - eapply run_put_bind; [apply exec_movz; [done|by apply uwrap_range|done]|].
    eapply run_bind; [exact R2|]. eapply run_bind; [exact R3|exact R4].
  - split; [rewrite H4; by apply uwrap_small|].
    eapply keeps_regs_trans; [apply (Hk (u16 v << (16 * 0)))|].
    eapply keeps_regs_trans; [exact K2|]. eapply keeps_regs_trans; [exact K3|exact K4].
Qed.

(* ------------------------------------------------------------------ *)
(** ** Reading the flags *)

(** x19 points at the cpu, whose flags word is [fl]. *)
Record at_cpu (base fl : Z) (st : astate) : Prop := {
  ac_base : xr st A64_X19 = base;
  ac_range : 0 <= base /\ base + 4096 <= 2 ^ 64;
  ac_flags : read_bytes (a_mem st) (base + OFF_FLAGS) 4 = Some (le_bytes 4 fl);
  ac_fl : urange 32 fl
}.

Lemma at_cpu_keeps base fl rs st st' :
  ~ In A64_X19 rs -> keeps_regs rs st st' -> at_cpu base fl st -> at_cpu base fl st'.
Proof. intros Hn [Hm _ _ Hx] [Hb Hr Hf Hl]. split; [by rewrite Hx|done|by rewrite Hm|done]. Qed.

Lemma cpu_addr base off : 0 <= base /\ base + 4096 <= 2 ^ 64 -> 0 <= off < 4096 -> u64 (base + off) = base + off.
Proof. intros Hb Ho. apply uwrap_small. unfold urange. lia. Qed.

Lemma run_ldr_flags base fl st :
  at_cpu base fl st -> exec_word (a64_ldr_w A64_X9 CPU OFF_FLAGS) st = Some (set_x 9 fl st, Next).
Proof.
  intros [Hb Hr Hf Hl]. erewrite exec_ldr_w by (try done; rewrite Hb, cpu_addr by done; exact Hf).
  rewrite le_val_bytes. by rewrite uwrap_small.
Qed.

Lemma bits_flag x i : 0 <= i -> bits x i 1 = bz (Z.testbit x i).
Proof.
  intros Hi. unfold bits. rewrite land_ones_uwrap, Z.shiftr_div_pow2 by lia.
  symmetry. apply Z.testbit_spec'. lia.
Qed.

Lemma bz_or a b : u64 (bz a .| bz b) = bz (a || b).
Proof. by destruct a, b. Qed.
Lemma bz_xor a b : u64 (bz a .^ bz b) = bz (xorb a b).
Proof. by destruct a, b. Qed.

(** Run one word, and see which registers it left. *)
Ltac xregs := rewrite ?xr_set_x; cbn [Z.eqb Pos.eqb andb negb].
Ltac run_step lem :=
  lazymatch goal with
  | |- emit_runs (_ ≫= _) _ _ _ => eapply run_put_bind; [apply lem; (done || lia)|]
  | |- _ => apply run_put, lem; (done || lia)
  end; xregs.

(** The even condition of the pair [cc] belongs to. *)
Definition even_cond (fl cc : Z) : bool := cond fl (cc .& .~ 1).

Lemma cmp0_zero st n b : xr st n = bz b -> xreg n -> n <> 31 ->
  exists f, exec_word (a64_cmp0 n) st = Some (set_fl f st, Next) /\ fl_z f = negb b.
Proof. intros Hx Hn Hs. eexists. split; [by apply exec_cmp0|]. rewrite Hx. by destruct b. Qed.

(** The middle of [put_cond_even]: from the flags in x9 to the condition in x0. *)
Definition cond_code (e : E unit) (fl : Z) (b : bool) : Prop :=
  forall st, xr st 9 = fl -> exists st', emit_runs e tt st st' /\ xr st' 0 = bz b /\ keeps_regs [0; 9; 10] st st'.

Ltac keeps := repeat (eapply keeps_regs_trans; [|apply keeps_regs_set; cbn; tauto]); apply keeps_regs_refl.

(** One bit of the flags, or a combination of bits. *)
Lemma cond_code_bit fl i : 0 <= i < 32 -> cond_code (put (a64_ubfx A64_X0 A64_X9 i 1)) fl (Z.testbit fl i).
Proof.
  intros Hi st Hf. eexists. split; [apply run_put, exec_ubfx; (done || lia)|].
  xregs. split; [|keeps]. by rewrite Hf, bits_flag by lia.
Qed.

Ltac cond_steps :=
  intros st Hf; eexists; split;
  [repeat first [run_step exec_ubfx | run_step exec_orr | run_step exec_eor]
  |xregs; split; [rewrite Hf, !bits_flag, ?bz_xor, ?bz_or by lia; reflexivity|keeps]].

Lemma cond_code_cf_zf fl :
  cond_code (put (a64_ubfx A64_X0 A64_X9 0 1);; put (a64_ubfx A64_X10 A64_X9 6 1);;
             put (a64_orr A64_X0 A64_X0 A64_X10)) fl (CF fl || ZF fl).
Proof. cond_steps. Qed.

Lemma cond_code_sf_of fl :
  cond_code (put (a64_ubfx A64_X0 A64_X9 7 1);; put (a64_ubfx A64_X10 A64_X9 11 1);;
             put (a64_eor A64_X0 A64_X0 A64_X10)) fl (xorb (SF fl) (OF fl)).
Proof. cond_steps. Qed.

Lemma cond_code_le fl :
  cond_code (put (a64_ubfx A64_X0 A64_X9 7 1);; put (a64_ubfx A64_X10 A64_X9 11 1);;
             put (a64_eor A64_X0 A64_X0 A64_X10);; put (a64_ubfx A64_X10 A64_X9 6 1);;
             put (a64_orr A64_X0 A64_X0 A64_X10)) fl (xorb (SF fl) (OF fl) || ZF fl).
Proof. cond_steps. Qed.

Lemma even_cond_cases fl cc :
  0 <= cc < 16 ->
  even_cond fl cc =
  let k := (cc >> 1) .& 7 in
  if k =? 0 then OF fl else if k =? 1 then CF fl else if k =? 2 then ZF fl
  else if k =? 3 then CF fl || ZF fl else if k =? 4 then SF fl else if k =? 5 then PF fl
  else if k =? 6 then xorb (SF fl) (OF fl) else xorb (SF fl) (OF fl) || ZF fl.
Proof.
  intros Hcc. unfold even_cond, cond. destruct (cond_flags fl) as (-> & -> & _ & -> & -> & ->).
  generalize (OF fl) (CF fl) (ZF fl) (SF fl) (PF fl). intros o c z s p.
  assert (Hc : cc = 0 \/ cc = 1 \/ cc = 2 \/ cc = 3 \/ cc = 4 \/ cc = 5 \/ cc = 6 \/ cc = 7 \/ cc = 8 \/
    cc = 9 \/ cc = 10 \/ cc = 11 \/ cc = 12 \/ cc = 13 \/ cc = 14 \/ cc = 15) by lia.
  by decompose sum Hc; subst cc; destruct o, c, z, s, p; vm_compute.
Qed.

Lemma run_cond_even base fl cc st :
  at_cpu base fl st -> 0 <= cc < 16 ->
  exists st', emit_runs (put_cond_even cc) tt st st' /\
    fl_z (a_fl st') = negb (even_cond fl cc) /\
    a_mem st' = a_mem st /\ a_sp st' = a_sp st /\ (forall n, ~ In n [0; 9; 10] -> xr st' n = xr st n).
Proof.
  intros Hc Hcc. rewrite even_cond_cases by done. unfold put_cond_even. cbv zeta.
  set (k := (cc >> 1) .& 7). set (e := if k =? 0 then _ else _ : E unit). set (b := if k =? 0 then _ else _ : bool).
  assert (He : cond_code e fl b).
  { unfold e, b. repeat case_match; first [by apply cond_code_bit|apply cond_code_cf_zf|apply cond_code_sf_of|apply cond_code_le]. }
  destruct (He (set_x 9 fl st)) as (s & Hr & Hx & [Hm Hfl Hsp Hk]); [by rewrite xr_set_x|].
  destruct (cmp0_zero s 0 b Hx ltac:(done) ltac:(done)) as (f & Hw & Hz).
  exists (set_fl f s). split.
  - eapply run_put_bind; [by eapply run_ldr_flags|]. eapply run_bind; [exact Hr|]. by apply run_put.
  - split; [done|]. split; [exact Hm|]. split; [exact Hsp|]. intros n Hn.
    transitivity (xr s n); [done|]. rewrite Hk, xr_set_x by done.
    destruct (Z.eqb_spec n 9) as [->|]; [|done]. destruct Hn. cbn. tauto.
Qed.

(* ------------------------------------------------------------------ *)
(** ** Computing the flags *)

Lemma urange_setf f b x w : 0 <= w -> urange w f -> urange w x -> urange w (setf f b x).
Proof. intros Hw Hf Hx. destruct b; [|done]. by apply urange_lor. Qed.

Lemma or_flag x b i : 0 <= i < 32 -> urange 32 x -> u64 (x .| (bz b << i)) = setf (1 << i) b x.
Proof.
  intros Hi Hx. destruct b; cbn [bz setf].
  - apply uwrap_small. apply (urange_mono 32); [lia|]. apply urange_lor; [lia|done|].
    rewrite Z.shiftl_1_l. split; [by apply Z.pow_nonneg|]. apply Z.pow_lt_mono_r; lia.
  - rewrite Z.shiftl_0_l, Z.lor_0_r. apply uwrap_small. by eapply urange_mono, Hx.
Qed.

(** x10 collects the flags: the one at bit [i] is added when [b] holds. *)
Definition collects (e : E unit) (i : Z) (b : bool) (st : astate) : Prop :=
  urange 32 (xr st 10) ->
  exists st', emit_runs e tt st st' /\ xr st' 10 = setf (1 << i) b (xr st 10) /\ keeps_regs [10; 11] st st'.

Lemma collects_nothing i st : collects (mret tt) i false st.
Proof. intros Hx. exists st. split; [apply run_ret|]. split; [done|apply keeps_regs_refl]. Qed.

Lemma collects_nzcv logic need f i c st :
  urange 4 c -> c < 14 -> 0 <= i < 32 ->
  collects (put_nzcv logic need f i c) i
    (nz (need .& f) && negb (logic && nz (f .& (F_CF .| F_OF))) && cond_holds (a_fl st) c) st.
Proof.
  intros Hc Hc' Hi Hx. unfold put_nzcv.
  set (t := logic && nz (f .& (F_CF .| F_OF))). destruct (nz (need .& f)); [destruct t|]; cbn [negb andb orb].
  1,3: by apply collects_nothing.
  assert (Hi6 : urange 6 i) by (unfold urange; lia).
  eexists. split; [run_step exec_cset; run_step exec_orr_lsl|].
  xregs. split; [by apply or_flag|keeps].
Qed.

(** Shifting right keeps a word's bits; only the low eight matter to parity. *)
Lemma parity_fold x :
  let x1 := u64 x .^ (u64 x >> 4) in
  let x2 := u64 x1 .^ (u64 x1 >> 2) in
  let x3 := u64 x2 .^ (u64 x2 >> 1) in
  bits x3 0 1 .^ 1 = bz (even_parity x).
Proof.
  assert (Hs : forall y j k, 0 <= j -> 0 <= k -> j + k < 64 ->
    Z.testbit (u64 y .^ (u64 y >> k)) j = xorb (Z.testbit y j) (Z.testbit y (j + k))).
  { intros y j k Hj Hk Hl. rewrite Z.lxor_spec, Z.shiftr_spec, !uwrap_testbit by lia.
    by rewrite !bool_decide_true by lia. }
  cbv zeta. rewrite bits_flag by lia. rewrite !Hs by lia.
  unfold even_parity. cbn [foldr fmap list_fmap seq].
  repeat match goal with
  | |- context [Z.testbit x ?k] =>
      let v := eval vm_compute in k in progress change (Z.testbit x k) with (Z.testbit x v)
  end.
  destruct (Z.testbit x 0), (Z.testbit x 1), (Z.testbit x 2), (Z.testbit x 3), (Z.testbit x 4),
    (Z.testbit x 5), (Z.testbit x 6), (Z.testbit x 7); reflexivity.
Qed.

Definition parity_code : E unit :=
  put (a64_eor_lsr A64_X11 A64_X3 A64_X3 4);;
  put (a64_eor_lsr A64_X11 A64_X11 A64_X11 2);;
  put (a64_eor_lsr A64_X11 A64_X11 A64_X11 1);;
  put (a64_ubfx A64_X11 A64_X11 0 1);;
  put (a64_eor_bit A64_X11 A64_X11 0);;
  put (a64_orr_lsl A64_X10 A64_X10 A64_X11 2).

Lemma collects_parity (need : bool) st :
  collects (ewhen need parity_code) 2 (need && even_parity (xr st 3)) st.
Proof.
  destruct need; [|apply collects_nothing]. intros Hx. cbn [ewhen]. unfold parity_code. eexists. split.
  - run_step exec_eor_lsr. run_step exec_eor_lsr. run_step exec_eor_lsr. run_step exec_ubfx.
    run_step exec_eor_bit0. run_step exec_orr_lsl.
  - xregs. rewrite parity_fold. split; [by apply or_flag|keeps].
Qed.

Definition nibble_code : E unit :=
  put (a64_eor A64_X11 A64_X1 A64_X2);;
  put (a64_eor A64_X11 A64_X11 A64_X3);;
  put (a64_ubfx A64_X11 A64_X11 4 1);;
  put (a64_orr_lsl A64_X10 A64_X10 A64_X11 4).

Lemma collects_nibble (need : bool) st :
  collects (ewhen need nibble_code) 4 (need && Z.testbit (xr st 1 .^ xr st 2 .^ xr st 3) 4) st.
Proof.
  destruct need; [|apply collects_nothing]. intros Hx. cbn [ewhen]. unfold nibble_code. eexists. split.
  - run_step exec_eor. run_step exec_eor. run_step exec_ubfx. run_step exec_orr_lsl.
  - xregs. split; [|keeps]. rewrite <- or_flag by done. do 3 f_equal.
    rewrite bits_flag by lia. f_equal. rewrite uwrap_testbit, !Z.lxor_spec, uwrap_testbit, Z.lxor_spec by lia.
    by rewrite bool_decide_true by lia.
Qed.

(** A64's flags of a sum and of a difference, as facts of arithmetic. *)
Lemma swrap_in_signed w z : 0 < w -> - 2 ^ w <= z < 2 ^ w -> (swrap w z =? z) = in_signed w z.
Proof.
  intros Hw Hz. unfold in_signed. pose proof (swrap_bounds w z Hw).
  destruct (Z.eqb_spec (swrap w z) z) as [E|E]; [lia|].
  destruct ((_ <=? z) && (z <? _)) eqn:Eb; [|done]. exfalso. apply E, swrap_small; [done|lia].
Qed.

Section sums.
Context (w a b : Z) (Hw : 8 <= w).
#[local] Abbreviation x := (uwrap w a).
#[local] Abbreviation y := (uwrap w b).

Lemma half_width : 2 ^ w = 2 * 2 ^ (w - 1) /\ 0 < 2 ^ (w - 1).
Proof. split; [|apply Z.pow_pos_nonneg; lia]. rewrite <- Z.pow_succ_r by lia. f_equal. lia. Qed.

(** Signed values agree when their words do. *)
Lemma swrap_eq z z' : uwrap w z = uwrap w z' -> swrap w z = swrap w z'.
Proof. intros He. rewrite <- (swrap_uwrap w z), He by lia. apply swrap_uwrap. lia. Qed.

Lemma uwrap_add : uwrap w (x + y) = uwrap w (a + b).
Proof. pose proof (uwrap_add_l w a b 0) as H. by rewrite !Z.add_0_r in H. Qed.

Lemma swrap_add : swrap w (swrap w a + swrap w b) = swrap w (a + b).
Proof.
  apply swrap_eq. rewrite <- uwrap_add, <- (swrap_congr w a), <- (swrap_congr w b) by lia.
  pose proof (uwrap_add_l w (swrap w a) (swrap w b) 0) as H. by rewrite !Z.add_0_r in H.
Qed.

Lemma swrap_sub : swrap w (swrap w a - swrap w b) = swrap w (a - b).
Proof.
  apply swrap_eq. pose proof (uwrap_sub_l w (swrap w a) (swrap w b) 0) as H1.
  pose proof (uwrap_sub_l w a b 0) as H2. rewrite !Z.sub_0_r, !swrap_congr in * by lia. congruence.
Qed.

Lemma nzcv_add :
  (add_sub w false x y).2 =
  NZCV (swrap w (a + b) <? 0) (uwrap w (a + b) =? 0) (2 ^ w <=? x + y)
       (negb (in_signed w (swrap w a + swrap w b))).
Proof.
  unfold add_sub, add_with_carry. cbv zeta. cbn [bz snd]. rewrite !Z.add_0_r, !uwrap_add, !swrap_uwrap by lia.
  pose proof (uwrap_range w a ltac:(lia)). pose proof (uwrap_range w b ltac:(lia)).
  f_equal.
  - apply top_swrap. lia.
  - rewrite <- uwrap_add. unfold urange in *. destruct (Z.leb_spec (2 ^ w) (x + y)) as [E|E].
    + destruct (Z.eqb_spec (uwrap w (x + y)) (x + y)) as [E'|]; [|done].
      pose proof (uwrap_range w (x + y) ltac:(lia)). unfold urange in *. lia.
    + rewrite uwrap_small, Z.eqb_refl by (unfold urange; lia). done.
  - f_equal. rewrite <- swrap_add.
    pose proof half_width. pose proof (swrap_bounds w a ltac:(lia)). pose proof (swrap_bounds w b ltac:(lia)).
    apply swrap_in_signed; lia.
Qed.

(** [subs] adds the complement and one: its carry is the absence of a borrow. *)
Lemma nzcv_sub :
  (add_sub w true x y).2 =
  NZCV (swrap w (a - b) <? 0) (uwrap w (a - b) =? 0) (negb (x <? y))
       (negb (in_signed w (swrap w a - swrap w b))).
Proof.
  pose proof (uwrap_range w a ltac:(lia)). pose proof (uwrap_range w b ltac:(lia)).
  pose proof half_width. pose proof (swrap_bounds w a ltac:(lia)). pose proof (swrap_bounds w b ltac:(lia)).
  assert (Hr : uwrap w (x + uwrap w (.~ y) + 1) = uwrap w (a - b)) by (apply sub_wrap; lia).
  assert (Hn : uwrap w (.~ y) = 2 ^ w - 1 - y).
  { unfold urange in *. symmetry. apply (Z.mod_unique _ _ (-1)); unfold Z.lnot; lia. }
  assert (Hs : swrap w (.~ y) = - 1 - swrap w b).
  { transitivity (swrap w (- 1 - swrap w b)); [|apply swrap_small; lia]. apply swrap_eq.
    unfold Z.lnot. replace (Z.pred (- y)) with (- 1 - y - 0) by lia.
    rewrite <- (uwrap_sub_l w (-1) y 0), <- (Z.sub_0_r (-1 - swrap w b)), <- (uwrap_sub_l w (-1) (swrap w b) 0), swrap_congr, uwrap_uwrap by lia.
    done. }
  unfold add_sub, add_with_carry. cbv zeta. cbn [bz snd]. rewrite Hr, !swrap_uwrap, Hs by lia. f_equal.
  - apply top_swrap. lia.
  - rewrite <- Hr, Hn. f_equal. unfold urange in *. destruct (Z.ltb_spec x y) as [E|E].
    + rewrite uwrap_small by (unfold urange; lia). apply Z.eqb_eq. lia.
    + apply Z.eqb_neq. pose proof (uwrap_range w (x + (2 ^ w - 1 - y) + 1) ltac:(lia)). unfold urange in *. lia.
  - f_equal. replace (swrap w a + (-1 - swrap w b) + 1) with (swrap w a - swrap w b) by lia.
    rewrite <- swrap_sub. apply swrap_in_signed; lia.
Qed.
End sums.

(* ------------------------------------------------------------------ *)
(** ** The in-line flags *)

(** The interpreter's routine behind each flag helper. *)
Definition flags_of (fn : helper) (fl a b r size : Z) : Z :=
  match fn with
  | fn_flags_add => flags_add fl a b r size
  | fn_flags_sub => flags_sub fl a b r size
  | fn_flags_logic => flags_logic fl r size
  | fn_flags_inc => rsd_i_flags_inc fl a r size
  | fn_flags_dec => rsd_i_flags_dec fl a r size
  | _ => fl
  end.

(** The flags it is sure to write. *)
Definition fn_writes (fn : helper) : Z :=
  match fn with
  | fn_flags_add | fn_flags_sub => FL_ALL
  | fn_flags_logic => FL_LOGIC
  | fn_flags_inc | fn_flags_dec => FL_INC
  | _ => 0
  end.

(** [r] is the result of the operation, as far as its size goes. *)
Definition computes (fn : helper) (a b r size : Z) : Prop :=
  match fn with
  | fn_flags_add => uwrap (size * 8) r = uwrap (size * 8) (a + b)
  | fn_flags_sub => uwrap (size * 8) r = uwrap (size * 8) (a - b)
  | fn_flags_inc => b = 1 /\ uwrap (size * 8) r = uwrap (size * 8) (a + 1)
  | fn_flags_dec => b = 1 /\ uwrap (size * 8) r = uwrap (size * 8) (a - 1)
  | fn_flags_logic => True
  | _ => False
  end.

Lemma flags_res_add fl a b r r' size :
  opsize size -> uwrap (size * 8) r = uwrap (size * 8) r' -> flags_add fl a b r size = flags_add fl a b r' size.
Proof. intros Hs He. unfold flags_add. by rewrite !trunc_sz_uwrap, He by done. Qed.
Lemma flags_res_sub fl a b r r' size :
  opsize size -> uwrap (size * 8) r = uwrap (size * 8) r' -> flags_sub fl a b r size = flags_sub fl a b r' size.
Proof. intros Hs He. unfold flags_sub. by rewrite !trunc_sz_uwrap, He by done. Qed.

Lemma collected F need c p n z s o :
  need .& .~ FL_ALL = 0 ->
  c = Z.testbit need 0 && CF F -> p = Z.testbit need 2 && PF F -> n = Z.testbit need 4 && AF F ->
  z = Z.testbit need 6 && ZF F -> s = Z.testbit need 7 && SF F -> o = Z.testbit need 11 && OF F ->
  setf (1 << 4) n (setf (1 << 2) p (setf (1 << 11) o (setf (1 << 7) s (setf (1 << 6) z (setf (1 << 0) c 0))))) =
  F .& need.
Proof.
  intros Hn -> -> -> -> -> ->. apply Z.bits_inj'. intros i Hi.
  rewrite !testbit_setf, Z.bits_0, Z.land_spec, !Z.shiftl_1_l, !Z.pow2_bits_eqb by done.
  apply (f_equal (fun z => Z.testbit z i)) in Hn. rewrite Z.land_spec, Z.lnot_spec, Z.bits_0 in Hn by done.
  unfold CF, PF, AF, ZF, SF, OF.
  destruct (Z.eqb_spec 4 i) as [<-|]; [|destruct (Z.eqb_spec 2 i) as [<-|]; [|destruct (Z.eqb_spec 11 i) as [<-|];
    [|destruct (Z.eqb_spec 7 i) as [<-|]; [|destruct (Z.eqb_spec 6 i) as [<-|]; [|destruct (Z.eqb_spec 0 i) as [<-|]]]]]].
  1-6: by rewrite !andb_false_r, ?andb_true_r, ?orb_false_r, andb_comm.
  rewrite !andb_false_r. cbn.
  assert (Hf : Z.testbit FL_ALL i = false).
  { destruct (decide (i < 12)).
    - assert (i = 1 \/ i = 3 \/ i = 5 \/ i = 8 \/ i = 9 \/ i = 10) as Hc by lia.
      by decompose sum Hc; subst i.
    - by apply (urange_testbit_high 12); [|lia]. }
  rewrite Hf, andb_true_r in Hn. by rewrite Hn, andb_false_r.
Qed.

(** The value written over the flags, once x10 holds the needed ones. *)
Definition merge_flags (fl need F : Z) : Z := (fl .& .~ need) .| (F .& need).

Definition store_flags (need : Z) : E unit :=
  put (a64_ldr_w A64_X9 CPU OFF_FLAGS);;
  put_imm A64_X12 need;;
  put (a64_bic A64_X9 A64_X9 A64_X12);;
  put (a64_orr A64_X9 A64_X9 A64_X10);;
  put (a64_str_w A64_X9 CPU OFF_FLAGS).

Lemma run_str_flags base fl v st :
  at_cpu base fl st -> xr st 9 = v ->
  exec_word (a64_str_w A64_X9 CPU OFF_FLAGS) st =
  Some (set_amem (write_bytes (a_mem st) (base + OFF_FLAGS) (le_bytes 4 v)) st, Next).
Proof.
  intros [Hb Hr Hf Hl] Hv. rewrite exec_str_w by (try done; rewrite Hb, cpu_addr, Hf by done; by eexists).
  by rewrite Hb, cpu_addr, Hv.
Qed.

Lemma merge_flags_range fl need F : urange 32 fl -> urange 32 F -> urange 32 need -> urange 32 (merge_flags fl need F).
Proof.
  intros Hl HF Hn. apply urange_lor; [done| |by apply urange_land; [|done|apply Hn]].
  apply urange_bits; [done|apply Z.land_nonneg; left; apply Hl|].
  intros i Hi. by rewrite Z.land_spec, (urange_testbit_high 32 fl).
Qed.

Lemma run_store_flags base fl need F st :
  at_cpu base fl st -> urange 32 need -> urange 32 F -> xr st 10 = F .& need ->
  exists st', emit_runs (store_flags need) tt st st' /\
    a_mem st' = write_bytes (a_mem st) (base + OFF_FLAGS) (le_bytes 4 (merge_flags fl need F)) /\
    a_sp st' = a_sp st /\ (forall n, ~ In n [9; 12] -> xr st' n = xr st n).
Proof.
  intros Hc Hn HF Hx. pose proof Hc as [Hb Hr Hf Hl].
  destruct (run_imm 12 need (set_x 9 fl st)) as (s2 & R2 & H2 & K2); [done|done|by eapply urange_mono, Hn|].
  assert (K : keeps_regs [9; 12] st s2).
  { eapply keeps_regs_trans; [apply (keeps_regs_set _ 9 fl); cbn; tauto|].
    destruct K2 as [? ? ? K]. split; [done..|]. intros n Hin. apply K. cbn in *. tauto. }
  assert (H9 : xr s2 9 = fl) by (rewrite (kr_x _ _ _ K2) by (cbn; lia); by rewrite xr_set_x).
  assert (H10 : xr s2 10 = F .& need) by (by rewrite (kr_x _ _ _ K) by (cbn; lia)).
  set (s4 := set_x 9 (merge_flags fl need F) (set_x 9 (u64 (fl .& .~ need)) s2)).
  assert (K4 : keeps_regs [9; 12] st s4).
  { eapply keeps_regs_trans; [exact K|]. eapply keeps_regs_trans; apply keeps_regs_set; cbn; tauto. }
  exists (set_amem (write_bytes (a_mem s4) (base + OFF_FLAGS) (le_bytes 4 (merge_flags fl need F))) s4). split.
  - unfold store_flags. eapply run_put_bind; [by eapply run_ldr_flags|]. eapply run_bind; [exact R2|].
    run_step exec_bic. eapply run_put_bind; [by apply exec_orr|]. xregs. rewrite H9, H2, H10.
    replace (u64 (u64 (fl .& .~ need) .| (F .& need))) with (merge_flags fl need F); [fold s4|].
    + apply run_put. eapply run_str_flags; [|unfold s4; by rewrite xr_set_x].
      eapply at_cpu_keeps; [|exact K4|exact Hc]. cbn. lia.
    + rewrite <- (uwrap_lor 64), uwrap_uwrap, uwrap_lor by done. symmetry. apply uwrap_small.
      eapply urange_mono; [|by apply merge_flags_range]. lia.
  - destruct K4 as [Hm Hfl Hsp Hk]. cbn [a_mem set_amem a_sp]. rewrite Hm. done.
Qed.

Lemma nz_need need i : 0 <= i -> nz (need .& (1 << i)) = Z.testbit need i.
Proof. apply nz_land_bit. Qed.

Lemma need_any need m f : need .& f <> 0 -> f .& .~ m = 0 -> nz (need .& m) = true.
Proof.
  intros Hn Hf. unfold nz. destruct (Z.eqb_spec (need .& m) 0) as [E|]; [|done]. exfalso. apply Hn.
  apply Z.bits_inj'. intros i Hi. apply (f_equal (fun z => Z.testbit z i)) in E, Hf.
  rewrite Z.land_spec, ?Z.lnot_spec, Z.bits_0 in * by done.
  destruct (Z.testbit need i), (Z.testbit f i), (Z.testbit m i); done.
Qed.

(** A64's flags after the flag-setting form, where they are asked for. *)
Definition arm_flags (fn : helper) (w a b r : Z) : nzcv :=
  if is_add fn then (add_sub w false (uwrap w a) (uwrap w b)).2
  else if is_sub fn then (add_sub w true (uwrap w a) (uwrap w b)).2
  else logic_flags w (uwrap w (r .& r)).

Definition set_arm_flags (fn : helper) (need : Z) (w : bool) : E unit :=
  ewhen (nz (need .& (F_CF .| F_ZF .| F_SF .| F_OF)))
    (if is_add fn then put (a64_adds_zr A64_X1 A64_X2 w)
     else if is_sub fn then put (a64_subs_zr A64_X1 A64_X2 w)
     else put (a64_ands_zr A64_X3 A64_X3 w)).

Lemma run_set_arm_flags fn need w st :
  exists st', emit_runs (set_arm_flags fn need w) tt st st' /\
    (nz (need .& (F_CF .| F_ZF .| F_SF .| F_OF)) = true ->
     a_fl st' = arm_flags fn (dsize (negb w)) (xr st 1) (xr st 2) (xr st 3)) /\
    a_mem st' = a_mem st /\ a_sp st' = a_sp st /\ (forall n, xr st' n = xr st n).
Proof.
  unfold set_arm_flags, arm_flags. destruct (nz _); cbn [ewhen].
  2:{ exists st. by split; [apply run_ret|]. }
  destruct (is_add fn); [|destruct (is_sub fn)]; eexists; (split; [apply run_put|]).
  - by apply exec_adds_zr.
  - done.
  - by apply exec_subs_zr.
  - done.
  - by apply exec_ands_zr.
  - done.
Qed.

(** The six flags of a sum or a difference [F] against A64's [f]. *)
Definition same_flags (F : Z) (f : nzcv) (carry : bool) (a b r : Z) : Prop :=
  CF F = carry /\ ZF F = fl_z f /\ SF F = fl_n f /\ OF F = fl_v f /\ PF F = even_parity r /\
  AF F = Z.testbit (a .^ b .^ r) 4.

Lemma nibble_bit w a b r :
  8 <= w -> nz ((uwrap w a .^ uwrap w b .^ uwrap w r) .& 0x10) = Z.testbit (a .^ b .^ r) 4.
Proof.
  intros Hw. change 0x10 with (1 << 4). rewrite nz_land_bit, !Z.lxor_spec, !uwrap_testbit by lia.
  by rewrite !bool_decide_true by lia.
Qed.

Lemma same_parity w r r' : 8 <= w -> uwrap w r = uwrap w r' -> even_parity r' = even_parity r.
Proof. intros Hw He. by rewrite <- (even_parity_uwrap w r), He, even_parity_uwrap. Qed.

Lemma add_same_flags fl a b r size :
  opsize size -> uwrap (size * 8) r = uwrap (size * 8) (a + b) ->
  let f := (add_sub (size * 8) false (uwrap (size * 8) a) (uwrap (size * 8) b)).2 in
  same_flags (flags_add fl a b r size) f (fl_c f) a b r.
Proof.
  intros Hs Hr. pose proof (opsize_width _ Hs) as [Hw Hw64]. rewrite nzcv_add by lia. cbn zeta.
  assert (Hr' : uwrap (size * 8) (u64 (a + b)) = uwrap (size * 8) (a + b)) by (apply uwrap_le; lia).
  rewrite (flags_res_add fl a b r (u64 (a + b))) by (done || congruence).
  destruct (flags_add_arith fl a b size Hs) as (Hc & Ho & Ha & Hz & Hsf & Hp & _).
  unfold same_flags. cbn [fl_c fl_z fl_n fl_v]. rewrite Hc, Ho, Ha, Hz, Hsf, Hp, !trunc_sz_uwrap, !sext_swrap by done.
  split; [done|]. split; [done|]. split; [done|]. split; [done|].
  split; [by apply (same_parity (size * 8))|]. rewrite <- (nibble_bit (size * 8)), Hr by lia.
  pose proof (add_nibble (size * 8) (uwrap (size * 8) a) (uwrap (size * 8) b) 0 (uwrap (size * 8) (a + b)) Hw
    ltac:(apply uwrap_range; lia) ltac:(apply uwrap_range; lia) ltac:(by left)) as Hn.
  rewrite !Z.add_0_r in Hn. symmetry. apply Hn. symmetry. apply uwrap_add.
Qed.

Lemma sub_same_flags fl a b r size :
  opsize size -> uwrap (size * 8) r = uwrap (size * 8) (a - b) ->
  let f := (add_sub (size * 8) true (uwrap (size * 8) a) (uwrap (size * 8) b)).2 in
  same_flags (flags_sub fl a b r size) f (negb (fl_c f)) a b r.
Proof.
  intros Hs Hr. pose proof (opsize_width _ Hs) as [Hw Hw64]. rewrite nzcv_sub by lia. cbn zeta.
  assert (Hr' : uwrap (size * 8) (u64 (a - b)) = uwrap (size * 8) (a - b)) by (apply uwrap_le; lia).
  rewrite (flags_res_sub fl a b r (u64 (a - b))) by (done || congruence).
  destruct (flags_sub_arith fl a b size Hs) as (Hc & Ho & Ha & Hz & Hsf & Hp & _).
  unfold same_flags. cbn [fl_c fl_z fl_n fl_v].
  rewrite Hc, Ho, Ha, Hz, Hsf, Hp, !trunc_sz_uwrap, !sext_swrap, negb_involutive by done.
  split; [done|]. split; [done|]. split; [done|]. split; [done|].
  split; [by apply (same_parity (size * 8))|]. rewrite <- (nibble_bit (size * 8)), Hr by lia.
  pose proof (sub_nibble (size * 8) (uwrap (size * 8) a) (uwrap (size * 8) b) 0 (uwrap (size * 8) (a - b)) Hw
    ltac:(apply uwrap_range; lia) ltac:(apply uwrap_range; lia) ltac:(by left)) as Hn.
  rewrite !Z.sub_0_r in Hn. rewrite Hn; [lia|]. symmetry. pose proof (uwrap_sub_l (size * 8) a b 0) as Hu.
  by rewrite !Z.sub_0_r in Hu.
Qed.

(** inc and dec keep CF and agree on the rest. *)
Lemma keep_cf_flags F fl f carry a b r :
  same_flags F f carry a b r -> same_flags ((F .& .~ F_CF) .| (fl .& F_CF)) f (CF fl) a b r.
Proof.
  intros (Hc & Hz & Hs & Ho & Hp & Ha).
  assert (Hb : forall i, 0 < i -> Z.testbit ((F .& .~ F_CF) .| (fl .& F_CF)) i = Z.testbit F i).
  { intros i Hi. rewrite Z.lor_spec, testbit_clear, Z.land_spec by lia.
    replace (Z.testbit F_CF i) with false; [by rewrite andb_true_r, andb_false_r, orb_false_r|].
    symmetry. apply (urange_testbit_high 1); [done|lia]. }
  unfold same_flags, ZF, SF, OF, PF, AF. rewrite !Hb by lia. split; [|done].
  unfold CF. rewrite Z.lor_spec, testbit_clear, Z.land_spec by lia. change (Z.testbit F_CF 0) with true.
  by rewrite andb_false_r, andb_true_r.
Qed.

(** Which bits an operation leaves alone bounds its flags word. *)
Lemma urange_kept F fl : F .& .~ FL_ALL = fl .& .~ FL_ALL -> urange 32 fl -> urange 32 F.
Proof.
  intros He Hl. apply urange_bits; [done| |].
  - assert (0 <= F .& .~ FL_ALL) as H by (rewrite He; apply Z.land_nonneg; left; apply Hl).
    apply Z.land_nonneg in H as [H|H]; [done|]. by vm_compute in H.
  - intros i Hi. apply (f_equal (fun z => Z.testbit z i)) in He.
    rewrite !Z.land_spec, Z.lnot_spec, (urange_testbit_high 32 fl) in He by (done || lia).
    by rewrite (urange_testbit_high 12 FL_ALL), andb_true_r in He by (done || lia).
Qed.

(** The flags the operation asks for, against the A64 conditions the code reads. *)
Definition reads_nzcv (fn : helper) (need F : Z) (f : nzcv) (i bit c : Z) : Prop :=
  nz (need .& bit) && negb (is_logic fn && nz (bit .& (F_CF .| F_OF))) && cond_holds f c =
  Z.testbit need i && Z.testbit F i.

Record inline_flags (fn : helper) (need F : Z) (f : nzcv) (a b r : Z) : Prop := {
  il_c : reads_nzcv fn need F f 0 F_CF (if is_sub fn then A64_CC else A64_CS);
  il_z : reads_nzcv fn need F f 6 F_ZF A64_EQ;
  il_s : reads_nzcv fn need F f 7 F_SF A64_MI;
  il_o : reads_nzcv fn need F f 11 F_OF A64_VS;
  il_p : nz (need .& F_PF) && even_parity r = Z.testbit need 2 && PF F;
  il_a : nz (need .& F_AF) && Z.testbit (a .^ b .^ r) 4 = Z.testbit need 4 && AF F
}.

Lemma need_bit need m i : need .& .~ m = 0 -> 0 <= i -> Z.testbit m i = false -> Z.testbit need i = false.
Proof.
  intros Hn Hi Hm. apply (f_equal (fun z => Z.testbit z i)) in Hn.
  rewrite Z.land_spec, Z.lnot_spec, Z.bits_0, Hm in Hn by done. by rewrite andb_true_r in Hn.
Qed.

Ltac need_bits :=
  change F_CF with (1 << 0); change F_PF with (1 << 2); change F_AF with (1 << 4); change F_ZF with (1 << 6);
  change F_SF with (1 << 7); change F_OF with (1 << 11); rewrite !nz_land_bit by lia.

Lemma same_inline_flags fn need F f carry a b r :
  same_flags F f carry a b r -> is_logic fn = false ->
  Z.testbit need 0 && carry = Z.testbit need 0 && (if is_sub fn then negb (fl_c f) else fl_c f) ->
  inline_flags fn need F f a b r.
Proof.
  intros (Hc & Hz & Hs & Ho & Hp & Ha) Hl Hcarry.
  split; unfold reads_nzcv; rewrite ?Hl; need_bits; cbn [andb negb]; rewrite ?andb_true_r.
  - fold (CF F). rewrite Hc, Hcarry. by destruct (is_sub fn).
  - by fold (ZF F); rewrite Hz.
  - by fold (SF F); rewrite Hs.
  - by fold (OF F); rewrite Ho.
  - by rewrite Hp.
  - by rewrite Ha.
Qed.

Lemma arm_flags_logic w a b r :
  0 < w -> arm_flags fn_flags_logic w a b r = NZCV (swrap w r <? 0) (uwrap w r =? 0) false false.
Proof.
  intros Hw. unfold arm_flags, logic_flags.
  change (is_add fn_flags_logic) with false. change (is_sub fn_flags_logic) with false. cbv iota.
  by rewrite Z.land_diag, top_swrap.
Qed.

Lemma logic_inline_flags fl need a b r size :
  opsize size -> need .& .~ FL_LOGIC = 0 ->
  inline_flags fn_flags_logic need (flags_logic fl r size) (arm_flags fn_flags_logic (size * 8) a b r) a b r.
Proof.
  intros Hs Hn. pose proof (opsize_width _ Hs). rewrite arm_flags_logic by lia.
  destruct (flags_logic_spec fl r size Hs) as (Hc & Ho & _ & Hz & Hsf & Hp & _).
  split; unfold reads_nzcv; need_bits; change (is_logic fn_flags_logic) with true; cbn -[Z.testbit Z.mul].
  - fold (CF (flags_logic fl r size)). by rewrite Hc, !andb_false_r.
  - fold (ZF (flags_logic fl r size)). by rewrite Hz, andb_true_r.
  - fold (SF (flags_logic fl r size)). by rewrite Hsf, andb_true_r.
  - fold (OF (flags_logic fl r size)). by rewrite Ho, !andb_false_r.
  - by rewrite Hp.
  - by rewrite (need_bit need FL_LOGIC 4).
Qed.

(** A flag routine changes the six flags only. *)
Definition keeps_rest (F fl : Z) : Prop := F .& .~ FL_ALL = fl .& .~ FL_ALL.

Lemma add_keeps_rest fl a b r size :
  opsize size -> uwrap (size * 8) r = uwrap (size * 8) (a + b) -> keeps_rest (flags_add fl a b r size) fl.
Proof.
  intros Hs Hr. pose proof (opsize_width _ Hs).
  rewrite (flags_res_add fl a b r (u64 (a + b))) by (done || rewrite uwrap_le by lia; done).
  by destruct (flags_add_arith fl a b size Hs) as (_ & _ & _ & _ & _ & _ & ?).
Qed.

Lemma sub_keeps_rest fl a b r size :
  opsize size -> uwrap (size * 8) r = uwrap (size * 8) (a - b) -> keeps_rest (flags_sub fl a b r size) fl.
Proof.
  intros Hs Hr. pose proof (opsize_width _ Hs).
  rewrite (flags_res_sub fl a b r (u64 (a - b))) by (done || rewrite uwrap_le by lia; done).
  by destruct (flags_sub_arith fl a b size Hs) as (_ & _ & _ & _ & _ & _ & ?).
Qed.

Lemma keep_cf_keeps_rest F fl : keeps_rest F fl -> keeps_rest ((F .& .~ F_CF) .| (fl .& F_CF)) fl.
Proof.
  unfold keeps_rest. intros H. apply Z.bits_inj'. intros i Hi. apply (f_equal (fun z => Z.testbit z i)) in H.
  rewrite !Z.land_spec, Z.lor_spec, !Z.land_spec, !Z.lnot_spec in * by done.
  destruct (Z.testbit FL_ALL i) eqn:E; [by rewrite !andb_false_r|].
  replace (Z.testbit F_CF i) with false; [by destruct (Z.testbit F i), (Z.testbit fl i)|].
  destruct (decide (i = 0)) as [->|]; [done|]. symmetry. apply (urange_testbit_high 1); [done|lia].
Qed.

Lemma computes_inline fn fl need a b r size :
  opsize size -> computes fn a b r size -> need .& .~ fn_writes fn = 0 ->
  inline_flags fn need (flags_of fn fl a b r size) (arm_flags fn (size * 8) a b r) a b r /\
  keeps_rest (flags_of fn fl a b r size) fl.
Proof.
  intros Hs Hc Hn.
  destruct fn; cbn [computes flags_of fn_writes] in *; try done.
  - split; [|by apply add_keeps_rest]. by eapply same_inline_flags; [apply add_same_flags| |].
  - split; [|by apply sub_keeps_rest]. by eapply same_inline_flags; [apply sub_same_flags| |].
  - split; [by apply logic_inline_flags|]. by destruct (flags_logic_spec fl r size Hs) as (_ & _ & _ & _ & _ & _ & ?).
  - destruct Hc as [-> Hc]. split; [|by apply keep_cf_keeps_rest, add_keeps_rest].
    eapply same_inline_flags; [eapply keep_cf_flags; by apply add_same_flags|done|by rewrite (need_bit need FL_INC 0)].
  - destruct Hc as [-> Hc]. split; [|by apply keep_cf_keeps_rest, sub_keeps_rest].
    eapply same_inline_flags; [eapply keep_cf_flags; by apply sub_same_flags|done|by rewrite (need_bit need FL_INC 0)].
Qed.

(* ------------------------------------------------------------------ *)
(** ** The whole in-line computation *)

(** What the run of [put_flags_inline] leaves. *)
Record inlined (base fl need F : Z) (st st' : astate) : Prop := {
  in_mem : a_mem st' = write_bytes (a_mem st) (base + OFF_FLAGS) (le_bytes 4 (merge_flags fl need F));
  in_sp : a_sp st' = a_sp st;
  in_x : forall n, ~ In n [9; 10; 11; 12] -> xr st' n = xr st n
}.

(** The flags gathered in x10. *)
Definition gather (fn : helper) (need : Z) : E unit :=
  put_nzcv (is_logic fn) need F_CF 0 (if is_sub fn then A64_CC else A64_CS);;
  put_nzcv (is_logic fn) need F_ZF 6 A64_EQ;;
  put_nzcv (is_logic fn) need F_SF 7 A64_MI;;
  put_nzcv (is_logic fn) need F_OF 11 A64_VS;;
  ewhen (nz (need .& F_PF)) parity_code;;
  ewhen (nz (need .& F_AF)) nibble_code.

Lemma urange_flag i b x : 0 <= i < 32 -> urange 32 x -> urange 32 (setf (1 << i) b x).
Proof.
  intros Hi. apply urange_setf; [done|]. rewrite Z.shiftl_1_l.
  split; [by apply Z.pow_nonneg|apply Z.pow_lt_mono_r; lia].
Qed.

(** One step of gathering, with what later steps need of the state it leaves. *)
Record gathering (s0 st : astate) (v : Z) : Prop := {
  ga_v : xr st 10 = v;
  ga_range : urange 32 v;
  ga_keeps : keeps_regs [10; 11] s0 st
}.

Lemma gather_step e i b v s0 st :
  gathering s0 st v -> 0 <= i < 32 -> collects e i b st ->
  exists st', emit_runs e tt st st' /\ gathering s0 st' (setf (1 << i) b v).
Proof.
  intros [<- Hr Hk] Hi Hc. destruct (Hc Hr) as (st' & R & Hv & K). exists st'. split; [done|]. split; [done| |].
  - by apply urange_flag.
  - by eapply keeps_regs_trans.
Qed.

Section gather.
Context (fn : helper) (need F : Z) (f : nzcv) (s0 : astate).
Context (Hf : nz (need .& (F_CF .| F_ZF .| F_SF .| F_OF)) = true -> a_fl s0 = f).

Lemma gather_nzcv i bit c st v :
  gathering s0 st v -> reads_nzcv fn need F f i bit c -> bit .& .~ (F_CF .| F_ZF .| F_SF .| F_OF) = 0 ->
  urange 4 c -> c < 14 -> 0 <= i < 32 ->
  exists st', emit_runs (put_nzcv (is_logic fn) need bit i c) tt st st' /\
    gathering s0 st' (setf (1 << i) (Z.testbit need i && Z.testbit F i) v).
Proof.
  intros G Hr Hb Hc Hc' Hi. apply gather_step; [done|done|]. rewrite <- Hr.
  pose proof (collects_nzcv (is_logic fn) need bit i c st Hc Hc' Hi) as H.
  destruct G as [_ _ K]. rewrite (kr_fl _ _ _ K) in H.
  destruct (nz (need .& bit)) eqn:E; [|exact H].
  rewrite Hf in H; [exact H|]. apply (need_any _ _ bit); [|done]. intros E'. by rewrite E' in E.
Qed.

Lemma gather_run st :
  inline_flags fn need F f (xr s0 1) (xr s0 2) (xr s0 3) -> need .& .~ FL_ALL = 0 -> gathering s0 st 0 ->
  exists st', emit_runs (gather fn need) tt st st' /\ gathering s0 st' (F .& need).
Proof.
  intros [Hc Hz Hs Ho Hp Ha] Hn G.
  assert (Hcc : urange 4 (if is_sub fn then A64_CC else A64_CS) /\ (if is_sub fn then A64_CC else A64_CS) < 14)
    by by destruct (is_sub fn).
  destruct (gather_nzcv _ _ _ _ _ G Hc) as (s1 & R1 & G1); [done|apply Hcc|apply Hcc|done|].
  destruct (gather_nzcv _ _ _ _ _ G1 Hz) as (s2 & R2 & G2); [done..|].
  destruct (gather_nzcv _ _ _ _ _ G2 Hs) as (s3 & R3 & G3); [done..|].
  destruct (gather_nzcv _ _ _ _ _ G3 Ho) as (s4 & R4 & G4); [done..|].
  destruct (gather_step _ 2 _ _ _ _ G4 ltac:(done) (collects_parity (nz (need .& F_PF)) s4)) as (s5 & R5 & G5).
  destruct (gather_step _ 4 _ _ _ _ G5 ltac:(done) (collects_nibble (nz (need .& F_AF)) s5)) as (s6 & R6 & G6).
  exists s6. split.
  - unfold gather. do 5 (eapply run_bind; [eassumption|]). exact R6.
  - destruct G4 as [_ _ K4], G5 as [_ _ K5].
    rewrite (kr_x _ _ _ K4 3) in G6 by (cbn; lia). rewrite !(kr_x _ _ _ K5) in G6 by (cbn; lia).
    by erewrite collected in G6.
Qed.
End gather.

(** Emission is a monad: how a sequence is bracketed does not matter. *)
Definition same_code {A} (c c' : E A) : Prop := forall b, c b = c' b.

Lemma same_code_assoc {A B C} (c : E A) (f : A -> E B) (g : B -> E C) :
  same_code ((c ≫= f) ≫= g) (c ≫= (fun a => f a ≫= g)).
Proof. intros b. unfold mbind, E_bind. by destruct (c b). Qed.

Lemma same_code_trans {A} (c c1 c2 : E A) : same_code c c1 -> same_code c1 c2 -> same_code c c2.
Proof. intros H1 H2 b. by rewrite H1. Qed.

Lemma same_code_bind {A B} (c : E A) (f g : A -> E B) :
  (forall a, same_code (f a) (g a)) -> same_code (c ≫= f) (c ≫= g).
Proof. intros H b. unfold mbind, E_bind. destruct (c b). apply H. Qed.

Lemma straight_same {A} (c c' : E A) a ws : same_code c c' -> straight c' a ws -> straight c a ws.
Proof. intros H Hs b. rewrite H. apply Hs. Qed.

Lemma run_same {A} (c c' : E A) a st st' : same_code c c' -> emit_runs c' a st st' -> emit_runs c a st st'.
Proof. intros H (ws & Hs & He). exists ws. split; [|done]. intros b. rewrite H. apply Hs. Qed.

Lemma put_flags_inline_parts fn need w :
  is_add fn || is_sub fn || is_logic fn = true ->
  same_code (set_arm_flags fn need w;; put (a64_movz A64_X10 0 0);; gather fn need;; store_flags need;; mret true)
    (put_flags_inline fn need w).
Proof.
  intros Hk. unfold put_flags_inline, gather, store_flags.
  replace (negb (is_add fn) && negb (is_sub fn) && negb (is_logic fn)) with false
    by by destruct (is_add fn), (is_sub fn), (is_logic fn).
  fold parity_code nibble_code. fold (set_arm_flags fn need w).
  repeat first
    [ done
    | intros b; by rewrite same_code_assoc
    | apply same_code_bind; intros []
    | eapply same_code_trans; [apply same_code_assoc|] ].
Qed.

Lemma need_sub need m m' : need .& .~ m = 0 -> m .& .~ m' = 0 -> need .& .~ m' = 0.
Proof.
  intros H1 H2. apply Z.bits_inj'. intros i Hi. apply (f_equal (fun z => Z.testbit z i)) in H1, H2.
  rewrite !Z.land_spec, !Z.lnot_spec, Z.bits_0 in * by done.
  by destruct (Z.testbit need i), (Z.testbit m i), (Z.testbit m' i).
Qed.

Lemma run_movz_zero d st : xreg d -> d <> 31 -> emit_runs (put (a64_movz d 0 0)) tt st (set_x d 0 st).
Proof. intros Hd Hz. apply run_put. by rewrite exec_movz. Qed.

(** One of the five in-line operations. *)
Lemma computes_inlined fn a b r size : computes fn a b r size -> is_add fn || is_sub fn || is_logic fn = true.
Proof. by destruct fn. Qed.

Lemma fn_writes_all fn : fn_writes fn .& .~ FL_ALL = 0.
Proof. by destruct fn. Qed.

Lemma computes_range fn fl need a b r size :
  opsize size -> computes fn a b r size -> need .& .~ fn_writes fn = 0 -> urange 32 fl ->
  urange 32 (merge_flags fl need (flags_of fn fl a b r size)).
Proof.
  intros Hs Hr Hn Hf. destruct (computes_inline fn fl need _ _ _ size Hs Hr Hn) as [_ Hk].
  apply merge_flags_range; [done|by eapply urange_kept|]. apply (urange_kept _ 0); [|done].
  eapply need_sub; [exact Hn|apply fn_writes_all].
Qed.

Lemma run_flags_inline base fl fn need w st :
  let size := if w : bool then 4 else 8 in
  at_cpu base fl st -> computes fn (xr st 1) (xr st 2) (xr st 3) size -> need .& .~ fn_writes fn = 0 ->
  exists st', emit_runs (put_flags_inline fn need w) true st st' /\
    inlined base fl need (flags_of fn fl (xr st 1) (xr st 2) (xr st 3) size) st st'.
Proof.
  intros size Hc Hr Hn.
  assert (Hs : opsize size) by (unfold opsize, size; destruct w; tauto).
  assert (Hd : dsize (negb w) = size * 8) by by destruct w.
  assert (Hall : need .& .~ FL_ALL = 0) by (eapply need_sub; [exact Hn|apply fn_writes_all]).
  destruct (computes_inline fn fl need _ _ _ size Hs Hr Hn) as [Hi Hk].
  set (F := flags_of _ _ _ _ _ _) in *.
  destruct (run_set_arm_flags fn need w st) as (s1 & R1 & Hf & Hm1 & Hsp1 & Hx1). rewrite Hd in Hf.
  set (s2 := set_x 10 0 s1).
  assert (G : gathering s1 s2 0).
  { split; [by unfold s2; rewrite xr_set_x|done|apply keeps_regs_set; by left]. }
  destruct (gather_run fn need F _ s1 Hf s2) as (s3 & R3 & [H3 _ [Hm3 _ Hsp3 Hx3]]); [by rewrite !Hx1|done|done|].
  assert (Hc3 : at_cpu base fl s3).
  { destruct Hc as [Hb Hr' Hfl Hl]. split; [by rewrite Hx3, Hx1 by (cbn; lia)|done|by rewrite Hm3, Hm1|done]. }
  destruct (run_store_flags base fl need F s3 Hc3) as (s4 & R4 & Hm4 & Hsp4 & Hx4); [|by eapply urange_kept, Hc|done|].
  { by apply (urange_kept _ 0). }
  exists s4. split.
  - eapply run_same; [intros b'; symmetry; apply put_flags_inline_parts, (computes_inlined _ _ _ _ _ Hr)|].
    eapply run_bind; [exact R1|]. eapply run_bind; [by apply run_movz_zero|].
    eapply run_bind; [exact R3|]. eapply run_bind; [exact R4|apply run_ret].
  - split; [by rewrite Hm4, Hm3, Hm1|by rewrite Hsp4, Hsp3, Hsp1|].
    intros n Hin. rewrite Hx4, Hx3, Hx1 by (cbn in *; tauto). done.
Qed.
