(* ===== verification/JitRegs.v ===== *)
(** Compiled register instructions ([put_rd_reg] to [put_op_reg] and the
    register forms of [put_insn] in [src/jit.c]): run on the A64 machine they
    do to the cpu in memory what the interpreter does to its registers and
    flags. *)
From S2P Require Import Prelude.
From S2P Require Import Memory.
From S2P Require Import Flags.
From S2P Require Import Registers.
From S2P Require Import A64.
From S2P Require Import Emit.
From S2P Require Import Jit.
From S2P Require Import JitEmit.
From S2P Require Import JitInsn.
From S2P Require Import JitRun.
From S2P Require Import JitFlags.

(* ------------------------------------------------------------------ *)
(** ** The cpu in memory *)

Definition greg (r : Z) : Prop := 0 <= r < 16.
Definition upd_reg (r v : Z) (R : Z -> Z) : Z -> Z := fun j => if j =? r then v else R j.

(** x19 points at a cpu with registers [R] and flags [fl]. *)
Record cpu_at (base : Z) (R : Z -> Z) (fl : Z) (st : astate) : Prop := {
  ca_at : at_cpu base fl st;
  ca_read : forall r, greg r -> read_bytes (a_mem st) (base + off_r r) 8 = Some (le_bytes 8 (R r));
  ca_range : forall r, greg r -> urange 64 (R r)
}.

(** The bytes of the registers and of the flags. *)
Definition reg_file (base i : Z) : Prop := base <= i < base + 128 \/ base + 400 <= i < base + 404.

(** What compiled register code leaves alone. *)
Record keeps_cpu (base : Z) (st st' : astate) : Prop := {
  kc_mem : forall i, ~ reg_file base i -> a_mem st' !! i = a_mem st !! i;
  kc_sp : a_sp st' = a_sp st;
  kc_x : forall n, 13 <= n -> xr st' n = xr st n
}.

Lemma keeps_cpu_refl base st : keeps_cpu base st st.
Proof. by split. Qed.

Lemma keeps_cpu_trans base st st1 st2 : keeps_cpu base st st1 -> keeps_cpu base st1 st2 -> keeps_cpu base st st2.
Proof.
  intros [H1 H2 H3] [H4 H5 H6]. split; [|congruence|].
  - intros i Hi. by rewrite H4, H1.
  - intros n Hn. by rewrite H6, H3.
Qed.

Lemma keeps_cpu_set base d v st : d < 13 -> keeps_cpu base st (set_x d v st).
Proof.
  intros Hd. split; [intros; by rewrite mem_set_x|by unfold set_x; case_match|].
  intros n Hn. rewrite xr_set_x, (proj2 (Z.eqb_neq n d)) by lia. done.
Qed.

Lemma keeps_cpu_regs base rs st st' : Forall (fun n => n < 13) rs -> keeps_regs rs st st' -> keeps_cpu base st st'.
Proof.
  intros Hrs [Hm _ Hsp Hx]. split; [intros; by rewrite Hm|done|]. intros n Hn. apply Hx. intros Hin.
  rewrite Forall_forall in Hrs. apply list_elem_of_In in Hin. apply Hrs in Hin. lia.
Qed.

Lemma cpu_at_regs base R fl rs st st' :
  Forall (fun n => n < 13) rs -> keeps_regs rs st st' -> cpu_at base R fl st -> cpu_at base R fl st'.
Proof.
  intros Hrs K [Ha Hr Hl]. split; [|by rewrite (kr_mem _ _ _ K)|done].
  eapply at_cpu_keeps; [|exact K|done]. intros Hin. rewrite Forall_forall in Hrs.
  apply list_elem_of_In in Hin. apply Hrs in Hin. done.
Qed.

Lemma cpu_at_set base R fl d v st : d < 13 -> cpu_at base R fl st -> cpu_at base R fl (set_x d v st).
Proof. intros Hd. apply (cpu_at_regs _ _ _ [d]); [by repeat constructor|]. apply keeps_regs_set. by left. Qed.

Lemma cell_off r : greg r -> off_r r mod 8 = 0 /\ 0 <= off_r r <= 32760.
Proof.
  unfold greg, off_r. intros Hg. rewrite Z.add_0_l. split; [apply Z.mod_mul; lia|lia].
Qed.

Lemma keeps_regs_sub rs rs' st st' :
  keeps_regs rs st st' -> (forall n, In n rs -> In n rs') -> keeps_regs rs' st st'.
Proof. intros [? ? ? Hx] Hs. split; [done..|]. intros n Hn. apply Hx. eauto. Qed.

Section access.
Context (base : Z) (R : Z -> Z) (fl : Z).

Lemma cell_addr st r : cpu_at base R fl st -> greg r -> u64 (xr st A64_X19 + off_r r) = base + off_r r.
Proof. intros [[Hb Hr _ _] _ _] Hg. rewrite Hb. apply cpu_addr; [done|]. unfold greg, off_r in *. lia. Qed.

Lemma run_ldr_reg d r st :
  cpu_at base R fl st -> greg r -> xreg d ->
  exec_word (a64_ldr d A64_X19 (off_r r)) st = Some (set_x d (R r) st, Next).
Proof.
  intros Hc Hg Hd. pose proof (ca_read _ _ _ _ Hc r Hg) as Hr. rewrite <- (cell_addr _ _ Hc Hg) in Hr.
  destruct (cell_off r Hg) as [Hal Hle]. erewrite exec_ldr by done.
  rewrite le_val_bytes. rewrite uwrap_small; [done|by apply Hc].
Qed.

(** A register's cell written. *)
Definition write_cell (r : Z) (bs : list Z) (st : astate) : astate :=
  set_amem (write_bytes (a_mem st) (base + off_r r) bs) st.

Lemma keeps_cpu_cell r bs st : greg r -> (length bs <= 8)%nat -> keeps_cpu base st (write_cell r bs st).
Proof.
  intros Hg Hl. split; [|done|done]. intros i Hi. apply write_bytes_outside.
  intros Hin. apply Hi. left. unfold greg, off_r in *. lia.
Qed.

Lemma cpu_at_cell r bs v st :
  cpu_at base R fl st -> greg r -> (length bs <= 8)%nat -> urange 64 v ->
  read_bytes (a_mem (write_cell r bs st)) (base + off_r r) 8 = Some (le_bytes 8 v) ->
  cpu_at base (upd_reg r v R) fl (write_cell r bs st).
Proof.
  intros [[Hb Hr Hf Hl] Hread Hrange] Hg Hlen Hv Hcell. split.
  - split; [done|done| |done]. cbn [a_mem set_amem write_cell]. rewrite read_write_other; [done|].
    unfold greg, off_r, OFF_FLAGS in *. lia.
  - intros j Hj. unfold upd_reg. destruct (Z.eqb_spec j r) as [->|Hn]; [done|].
    cbn [a_mem set_amem write_cell]. rewrite read_write_other; [by apply Hread|].
    unfold greg, off_r in *. lia.
  - intros j Hj. unfold upd_reg. destruct (Z.eqb_spec j r); [done|by apply Hrange].
Qed.

Lemma run_str_reg s r st :
  cpu_at base R fl st -> greg r -> xreg s -> urange 64 (xr st s) ->
  exists st', exec_word (a64_str s A64_X19 (off_r r)) st = Some (st', Next) /\
    cpu_at base (upd_reg r (xr st s) R) fl st' /\ keeps_cpu base st st' /\ (forall n, xr st' n = xr st n).
Proof.
  intros Hc Hg Hs Hv. exists (write_cell r (le_bytes 8 (xr st s)) st). split; [|split; [|split]].
  - pose proof (ca_read _ _ _ _ Hc r Hg) as Hr. rewrite <- (cell_addr _ _ Hc Hg) in Hr.
    destruct (cell_off r Hg) as [Hal Hle]. rewrite exec_str by (done || by eexists).
    by rewrite (cell_addr _ _ Hc Hg).
  - apply cpu_at_cell; [done|done|by rewrite length_le_bytes|done|].
    pose proof (read_write_same (a_mem st) (base + off_r r) (le_bytes 8 (xr st s))) as H.
    by rewrite length_le_bytes in H.
  - apply keeps_cpu_cell; [done|by rewrite length_le_bytes].
  - done.
Qed.
End access.

Lemma cpu_at_ext base R R' fl st : (forall r, greg r -> R r = R' r) -> cpu_at base R fl st -> cpu_at base R' fl st.
Proof.
  intros He [Ha Hr Hl]. split; [done| |]; intros r Hg; rewrite <- He by done; [by apply Hr|by apply Hl].
Qed.

(* ------------------------------------------------------------------ *)
(** ** Operand registers *)

(** The interpreter's reads and writes of a register operand ([rd] and [wr]). *)
Definition high_byte (rex : bool) (r size : Z) : bool := (size =? 1) && negb rex && (4 <=? r) && (r <? 8).

Definition reg_rd (rex : bool) (R : Z -> Z) (r size : Z) : Z :=
  if high_byte rex r size then uwrap 8 (R (r - 4) >> 8) else uwrap (size * 8) (R r).

Definition reg_wr (rex : bool) (R : Z -> Z) (r v size : Z) : Z -> Z :=
  if high_byte rex r size then upd_reg (r - 4) ((R (r - 4) .& .~ 0xff00) .| ((v .& 0xff) << 8)) R
  else upd_reg r (Registers.merged (R r) v size) R.

Lemma high_byte_greg rex r size : high_byte rex r size = true -> greg (r - 4) /\ size = 1.
Proof. unfold high_byte, greg. lia. Qed.

Lemma reg_rd_range rex R r size : opsize size -> uwrap (size * 8) (reg_rd rex R r size) = reg_rd rex R r size.
Proof.
  intros Hs. pose proof (opsize_width _ Hs). unfold reg_rd. destruct (high_byte _ _ _) eqn:E.
  - apply high_byte_greg in E as [_ ->]. apply uwrap_uwrap. lia.
  - apply uwrap_uwrap. lia.
Qed.

Section operands.
Context (base : Z) (R : Z -> Z) (fl : Z) (o : insn).
#[local] Abbreviation rex := (i_has_rex o).

Lemma is_high_byte_eq r size : is_high_byte o r size = high_byte rex r size.
Proof. done. Qed.

Lemma run_rd_reg d r size st :
  cpu_at base R fl st -> greg r -> xreg d -> d < 13 -> opsize size ->
  exists st', emit_runs (put_rd_reg d o r size) tt st st' /\
    uwrap (size * 8) (xr st' d) = reg_rd rex R r size /\ urange 64 (xr st' d) /\ keeps_regs [d] st st'.
Proof.
  intros Hc Hg Hd Hd13 Hs. unfold put_rd_reg, reg_rd. rewrite is_high_byte_eq.
  assert (Hx : forall x s, xr (set_x d x s) d = x).
  { intros x s. rewrite xr_set_x, Z.eqb_refl. by rewrite (proj2 (Z.eqb_neq d 31)) by lia. }
  assert (Hk : forall x s, keeps_regs [d] s (set_x d x s)) by (intros; apply keeps_regs_set; by left).
  destruct (high_byte _ _ _) eqn:E.
  - apply high_byte_greg in E as [Hg4 ->]. pose proof (ca_range _ _ _ _ Hc _ Hg4).
    eexists. split; [|split; [|split]].
    + eapply run_put_bind; [by eapply run_ldr_reg|]. apply run_put, exec_ubfx; done || lia.
    + rewrite !Hx. unfold bits. rewrite land_ones_uwrap by lia. by rewrite uwrap_uwrap.
    + rewrite !Hx. unfold bits. rewrite land_ones_uwrap by lia.
      eapply urange_mono; [|by apply uwrap_range]. lia.
    + eapply keeps_regs_trans; apply Hk.
  - eexists. split; [|split; [|split]].
    + apply run_put. by eapply run_ldr_reg.
    + by rewrite Hx.
    + rewrite Hx. by apply Hc.
    + apply Hk.
Qed.

Lemma read_bytes_S mem a n b bs :
  read_bytes mem a (S n) = Some (b :: bs) <-> mem !! a = Some b /\ read_bytes mem (a + 1) n = Some bs.
Proof.
  cbn [read_bytes]. destruct (mem !! a) as [x|]; cbn; [|by split; [|intros []]].
  destruct (read_bytes mem (a + 1) n) as [l|]; cbn; [|by split; [|intros []]]. split; [by intros [= <- <-]|].
  by intros [[= ->] [= ->]].
Qed.

(** Writing one byte of a cell. *)
Lemma byte_cell mem a v x :
  read_bytes mem a 8 = Some (le_bytes 8 v) ->
  read_bytes (write_bytes mem a (le_bytes 1 x)) a 8 = Some (le_bytes 8 (Registers.merged v x 1)).
Proof.
  assert (Hm : Registers.merged v x 1 = v / 256 * 256 + x mod 256).
  { unfold Registers.merged. cbn [Z.eqb Pos.eqb]. by rewrite trunc_sz_uwrap by (by left). }
  change (le_bytes 8 (Registers.merged v x 1)) with
    (Registers.merged v x 1 mod 256 :: le_bytes 7 (Registers.merged v x 1 / 256)).
  change (le_bytes 8 v) with (v mod 256 :: le_bytes 7 (v / 256)).
  replace (Registers.merged v x 1 mod 256) with (x mod 256) by (rewrite Hm; zdm).
  replace (Registers.merged v x 1 / 256) with (v / 256) by (rewrite Hm; zdm).
  intros [_ Ht]%read_bytes_S. apply read_bytes_S. split; [apply lookup_insert_eq|].
  rewrite read_write_other; [done|]. right. cbn. lia.
Qed.

Lemma run_strb_reg s r st :
  cpu_at base R fl st -> greg r -> xreg s ->
  exists st', exec_word (a64_strb s A64_X19 (off_r r)) st = Some (st', Next) /\
    cpu_at base (upd_reg r (Registers.merged (R r) (xr st s) 1) R) fl st' /\ keeps_cpu base st st' /\
    (forall n, xr st' n = xr st n).
Proof.
  intros Hc Hg Hs. pose proof (ca_read _ _ _ _ Hc r Hg) as Hr.
  exists (write_cell base r (le_bytes 1 (xr st s)) st). split; [|split; [|split]].
  - assert (Hb : is_Some (read_bytes (a_mem st) (u64 (xr st A64_X19 + off_r r)) 1)).
    { rewrite (cell_addr _ _ _ _ _ Hc Hg). apply read_bytes_is_Some. intros i Hi.
      eapply read_bytes_mapped; [exact Hr|lia]. }
    rewrite exec_strb by (done || unfold greg, off_r in *; lia).
    by rewrite (cell_addr _ _ _ _ _ Hc Hg).
  - apply cpu_at_cell; [done|done|by rewrite length_le_bytes; lia| |by apply byte_cell].
    apply Registers.merged_range; [by left|by apply Hc].
  - apply keeps_cpu_cell; [done|by rewrite length_le_bytes; lia].
  - done.
Qed.

(** A 32-bit result arrives zero extended. *)
Lemma merged_word old v size :
  size = 4 \/ size = 8 -> urange 64 old -> urange (size * 8) v -> Registers.merged old v size = v.
Proof.
  intros Hs Ho Hv. assert (Hop : opsize size) by (unfold opsize; lia).
  unfold Registers.merged. rewrite !trunc_sz_uwrap by (done || right; right; by left).
  destruct Hs as [->| ->]; cbn [Z.eqb Pos.eqb Z.mul Pos.mul] in *; [by apply uwrap_small|].
  unfold urange in Ho. rewrite Z.div_small by done. by rewrite uwrap_small.
Qed.

Lemma bfi_high x y :
  urange 64 x ->
  (u64 x .& .~ (Z.ones 8 << 8)) .| (bits y 0 8 << 8) = (x .& .~ 0xff00) .| ((y .& 0xff) << 8) /\
  urange 64 ((x .& .~ 0xff00) .| ((y .& 0xff) << 8)).
Proof.
  intros Hx. rewrite uwrap_small by done. unfold bits. rewrite Z.shiftr_0_r. split; [done|].
  apply urange_lor; [done| |].
  - apply urange_bits; [done|apply Z.land_nonneg; left; apply Hx|].
    intros i Hi. by rewrite Z.land_spec, (urange_testbit_high 64 x).
  - assert (0 <= y .& 0xff < 256) by (change 0xff with (Z.ones 8); rewrite land_ones_uwrap by lia; by apply uwrap_range).
    rewrite Z.shiftl_mul_pow2 by lia. unfold urange. lia.
Qed.

Lemma run_wr_reg s r size st :
  cpu_at base R fl st -> greg r -> xreg s -> s <> 9 -> size = 1 \/ size = 4 \/ size = 8 ->
  urange 64 (xr st s) -> (size <> 1 -> urange (size * 8) (xr st s)) ->
  exists st', emit_runs (put_wr_reg s o r size) tt st st' /\
    cpu_at base (reg_wr rex R r (xr st s) size) fl st' /\ keeps_cpu base st st' /\
    (forall n, n <> 9 -> xr st' n = xr st n).
Proof.
  intros Hc Hg Hs Hs9 Hsz Hv Hv'. unfold put_wr_reg, reg_wr. rewrite is_high_byte_eq.
  destruct (high_byte (i_has_rex o) r size) eqn:E.
  - apply high_byte_greg in E as [Hg4 ->]. cbn [Z.eqb Pos.eqb].
    destruct (bfi_high (R (r - 4)) (xr st s)) as [Hbf Hrg]; [by apply Hc|].
    set (v := (R (r - 4) .& .~ 0xff00) .| ((xr st s .& 0xff) << 8)) in *.
    set (st2 := set_x 9 v (set_x 9 (R (r - 4)) st)).
    assert (Hx9 : xr st2 9 = v) by (unfold st2; by rewrite xr_set_x).
    destruct (run_str_reg base R fl 9 (r - 4) st2) as (st3 & R3 & C3 & K3 & X3); [|done|done|by rewrite Hx9|].
    { unfold st2. by do 2 (apply cpu_at_set; [done|]). }
    rewrite Hx9 in C3. exists st3. split; [|split; [done|split]].
    + eapply run_put_bind; [by eapply run_ldr_reg|].
      eapply run_put_bind; [apply exec_bfi; done || lia|]. apply run_put.
      rewrite !xr_set_x, (proj2 (Z.eqb_neq s 9)) by done. cbn [Z.eqb Pos.eqb andb negb].
      rewrite Hbf. exact R3.
    + eapply keeps_cpu_trans; [|exact K3]. unfold st2. eapply keeps_cpu_trans; by apply keeps_cpu_set.
    + intros n Hn. rewrite X3. unfold st2. by rewrite !xr_set_x, (proj2 (Z.eqb_neq n 9)).
  - destruct (Z.eqb_spec size 1) as [->|Hn1].
    + destruct (run_strb_reg s r st Hc Hg Hs) as (st' & R1 & C1 & K1 & X1).
      exists st'. split; [by apply run_put|]. split; [exact C1|]. by split.
    + destruct (run_str_reg base R fl s r st Hc Hg Hs Hv) as (st' & R1 & C1 & K1 & X1).
      exists st'. split; [by apply run_put|]. split; [|by split].
      rewrite merged_word; [exact C1|lia|by apply Hc|by apply Hv'].
Qed.
End operands.

(* ------------------------------------------------------------------ *)
(** ** The operation and its flags *)

Definition reg_ops : list Z := [0x88; 0x00; 0x28; 0x38; 0x20; 0x85; 0x08; OP_INC; OP_DEC; 0x30].

(** The routine behind [op]'s flags, and its value. *)
Definition op_helper (op : Z) : option helper :=
  if op =? 0x88 then None
  else if op =? 0x00 then Some fn_flags_add
  else if is_one_of op [0x28; 0x38] then Some fn_flags_sub
  else if op =? OP_INC then Some fn_flags_inc
  else if op =? OP_DEC then Some fn_flags_dec
  else Some fn_flags_logic.

Definition op_value (op a b : Z) : Z :=
  if op =? 0x88 then b
  else if is_one_of op [0x00; OP_INC] then a + b
  else if is_one_of op [0x28; 0x38; OP_DEC] then a - b
  else if is_one_of op [0x20; 0x85] then a .& b
  else if op =? 0x08 then a .| b
  else a .^ b.

Definition op_result (op size a b : Z) : Z := uwrap (if size =? 8 then 64 else 32) (op_value op a b).

Lemma reg_ops_cases (P : Z -> Prop) :
  P 0x88 -> P 0x00 -> P 0x28 -> P 0x38 -> P 0x20 -> P 0x85 -> P 0x08 -> P OP_INC -> P OP_DEC -> P 0x30 ->
  forall op, is_one_of op reg_ops = true -> P op.
Proof.
  intros H0 H1 H2 H3 H4 H5 H6 H7 H8 H9 op Hop. unfold is_one_of in Hop. cbn [existsb reg_ops] in Hop.
  rewrite !orb_true_iff, !Z.eqb_eq in Hop.
  destruct Hop as [->|[->|[->|[->|[->|[->|[->|[->|[->|[->|]]]]]]]]]]; done.
Qed.

Lemma run_op o st :
  is_one_of (i_op o) reg_ops = true ->
  emit_runs (put_op o) (op_helper (i_op o)) st
    (set_x 3 (op_result (i_op o) (i_size o) (xr st 1) (xr st 2)) st).
Proof.
  intros Hop. unfold put_op. generalize dependent (i_op o). unfold op_result.
  generalize (i_size o). intros size.
  apply reg_ops_cases; destruct (size =? 8); cbn [negb]; eapply run_put_bind;
    first [apply exec_mov|apply exec_mov_w|apply exec_add|apply exec_add_w|apply exec_sub|apply exec_sub_w
          |apply exec_and|apply exec_and_w|apply exec_orr|apply exec_orr_w|apply exec_eor|apply exec_eor_w|idtac];
    first [done|apply run_ret].
Qed.

Lemma flags_of_mod fn fl a a' b b' r r' size :
  opsize size -> uwrap (size * 8) a = uwrap (size * 8) a' -> uwrap (size * 8) b = uwrap (size * 8) b' ->
  uwrap (size * 8) r = uwrap (size * 8) r' ->
  flags_of fn fl a b r size = flags_of fn fl a' b' r' size.
Proof.
  intros Hs Ha Hb Hr.
  assert (T : forall x x', uwrap (size * 8) x = uwrap (size * 8) x' -> trunc_sz x size = trunc_sz x' size).
  { intros x x' He. by rewrite !trunc_sz_uwrap, He by done. }
  destruct fn; try done; cbn [flags_of]; unfold rsd_i_flags_inc, rsd_i_flags_dec, flags_add, flags_sub, flags_logic, set_pzs;
    by rewrite ?(T a a' Ha), ?(T b b' Hb), ?(T r r' Hr).
Qed.

(** The low bits of a value depend on the low bits of the operands. *)
Lemma op_value_mod op w a a' b b' :
  0 <= w -> uwrap w a = uwrap w a' -> uwrap w b = uwrap w b' -> is_one_of op reg_ops = true ->
  uwrap w (op_value op a b) = uwrap w (op_value op a' b').
Proof.
  intros Hw Ha Hb. revert op.
  apply reg_ops_cases; cbn [op_value Z.eqb Pos.eqb is_one_of existsb orb OP_INC OP_DEC]; try done.
  all: try (by rewrite <- !uwrap_land, Ha, Hb); try (by rewrite <- !uwrap_lor, Ha, Hb);
    try (by rewrite <- !uwrap_lxor, Ha, Hb).
  all: unfold uwrap in *; first [by rewrite Z.add_mod, Ha, Hb, <- Z.add_mod by (apply Z.pow_nonzero; lia)
    |by rewrite Zminus_mod, Ha, Hb, <- Zminus_mod].
Qed.

(* ------------------------------------------------------------------ *)
(** ** Instructions *)

(** Registers and flags, as the interpreter keeps them. *)
Definition gstate : Type := (Z -> Z) * Z.

Definition helper_flags (fn : option helper) (fl a b r size : Z) : Z :=
  match fn with Some fn => flags_of fn fl a b r size | None => fl end.

(** What the interpreter does for [K_RR] and [K_RI]: the operation on two
    operands, its result and its flags. *)
Definition operand2 (o : insn) (R : Z -> Z) : Z :=
  if bool_decide (i_kind o = K_RI) then i_imm o else reg_rd (i_has_rex o) R (i_src o) (i_size o).

Definition ref_op (o : insn) (a b : Z) (s : gstate) : gstate :=
  let r := op_result (i_op o) (i_size o) a b in
  (if i_no_write o then s.1 else reg_wr (i_has_rex o) s.1 (i_reg o) r (i_size o),
   helper_flags (op_helper (i_op o)) s.2 a b r (i_size o)).

Definition ref_alu (o : insn) (s : gstate) : gstate :=
  ref_op o (reg_rd (i_has_rex o) s.1 (i_reg o) (i_size o)) (operand2 o s.1) s.

(** Running [e] takes the cpu in memory from one state to the other, as far as
    the flags of [need] go: the others stay. *)
Definition compiles (e : E unit) (s s' : gstate) (need : Z) : Prop :=
  forall base st, cpu_at base s.1 s.2 st ->
  exists st', emit_runs e tt st st' /\ cpu_at base s'.1 (merge_flags s.2 need s'.2) st' /\ keeps_cpu base st st'.

Record alu_ok (o : insn) : Prop := {
  ao_kind : i_kind o = K_RR \/ i_kind o = K_RI;
  ao_op : is_one_of (i_op o) reg_ops = true;
  ao_reg : greg (i_reg o);
  ao_src : greg (i_src o);
  ao_size : i_size o = 1 \/ i_size o = 4 \/ i_size o = 8;
  ao_imm : urange 64 (i_imm o);
  ao_one : is_one_of (i_op o) [OP_INC; OP_DEC] = true -> i_kind o = K_RI /\ i_imm o = 1;
  ao_need : i_fneed o .& .~ flags_written o = 0
}.

(** No flags of a byte operation are wanted, which a routine would compute. *)
Definition in_line (o : insn) : Prop := i_size o = 1 -> i_fneed o = 0.

Lemma alu_opsize o : alu_ok o -> opsize (i_size o).
Proof. intros [_ _ _ _ Hs _ _ _]. unfold opsize. lia. Qed.

(** What the end of an ALU instruction asks for, wherever its operands come
    from. *)
Record op_ok (o : insn) : Prop := {
  po_kind : i_kind o = K_RR \/ i_kind o = K_RI \/ i_kind o = K_RM \/ i_kind o = K_MR \/ i_kind o = K_MI;
  po_op : is_one_of (i_op o) reg_ops = true;
  po_reg : greg (i_reg o);
  po_size : i_size o = 1 \/ i_size o = 4 \/ i_size o = 8;
  po_need : i_fneed o .& .~ flags_written o = 0
}.

Lemma alu_op_ok o : alu_ok o -> op_ok o.
Proof. intros [? ? ? ? ? ? ? ?]. split; (done || tauto). Qed.

Lemma op_opsize o : op_ok o -> opsize (i_size o).
Proof. intros [_ _ _ Hs _]. unfold opsize. lia. Qed.

(** Linking flags computed from registers to flags computed from operands. *)
Lemma opsize_48 (w : bool) size : size = (if w then 4 else 8) -> opsize size.
Proof. unfold opsize. destruct w; lia. Qed.

Lemma merge_none fl F : merge_flags fl 0 F = fl.
Proof. unfold merge_flags. rewrite Z.land_0_r, Z.lor_0_r. apply Z.land_m1_r. Qed.

(** [inlined] code leaves the register file alone. *)
Lemma inlined_cpu base R fl need F st st' :
  inlined base fl need F st st' -> urange 32 (merge_flags fl need F) -> cpu_at base R fl st ->
  cpu_at base R (merge_flags fl need F) st' /\ keeps_cpu base st st'.
Proof.
  intros [Hm Hsp Hx] HF [[Hb Hr Hf Hl] Hread Hrange]. split.
  - split; [split; [by rewrite Hx by (cbn; lia)|done| |done]|intros r Hg; rewrite Hm|done].
    + rewrite Hm. pose proof (read_write_same (a_mem st) (base + OFF_FLAGS) (le_bytes 4 (merge_flags fl need F))) as H.
      by rewrite length_le_bytes in H.
    + rewrite read_write_other; [by apply Hread|]. rewrite length_le_bytes. unfold greg, off_r, OFF_FLAGS in *. lia.
  - split; [|done|].
    + intros i Hi. rewrite Hm. apply write_bytes_outside. rewrite length_le_bytes. intros Hin. apply Hi. right.
      unfold OFF_FLAGS in Hin. lia.
    + intros n Hn. apply Hx. cbn. lia.
Qed.

Section put_flags.
Context `{Linked}.

(** [put_flags] after an operation of four or eight bytes. *)
Lemma run_put_flags base R fl o fn st :
  cpu_at base R fl st -> i_fneed o = 0 \/ ((i_size o = 4 \/ i_size o = 8) /\
  match fn with Some fn => computes fn (xr st 1) (xr st 2) (xr st 3) (i_size o) /\ i_fneed o .& .~ fn_writes fn = 0
  | None => i_fneed o = 0 end) ->
  exists st', emit_runs (put_flags o fn (i_size o)) tt st st' /\
    cpu_at base R (merge_flags fl (i_fneed o) (helper_flags fn fl (xr st 1) (xr st 2) (xr st 3) (i_size o))) st' /\
    keeps_cpu base st st'.
Proof.
  intros Hc Hfn. unfold put_flags.
  assert (Hnone : i_fneed o = 0 -> forall F, exists st', emit_runs (mret tt) tt st st' /\
    cpu_at base R (merge_flags fl (i_fneed o) F) st' /\ keeps_cpu base st st').
  { intros -> F. exists st. rewrite merge_none. split; [apply run_ret|]. split; [done|apply keeps_cpu_refl]. }
  destruct Hfn as [H0|[Hs Hfn]].
  { replace (negb (nz (i_fneed o))) with true by by rewrite H0. destruct fn; by apply Hnone. }
  destruct fn as [fn|]; [|by apply Hnone]. destruct Hfn as [Hcomp Hneed].
  unfold nz. destruct (Z.eqb_spec (i_fneed o) 0) as [E|E]; cbn [negb]; [by apply Hnone|].
  set (w := i_size o =? 4).
  assert (Hsz : i_size o = if w then 4 else 8) by (subst w; destruct (Z.eqb_spec (i_size o) 4); lia).
  rewrite Hsz in Hcomp.
  destruct (run_flags_inline base fl fn (i_fneed o) w st (ca_at _ _ _ _ Hc) Hcomp Hneed) as (st' & R1 & I1).
  rewrite <- Hsz in I1. exists st'. split.
  - rewrite (proj2 (Z.eqb_neq (i_size o) 1)) by (destruct w; lia). cbn [negb].
    eapply run_bind; [exact R1|]. apply run_ret.
  - eapply inlined_cpu; [exact I1| |done].
    rewrite <- Hsz in Hcomp. apply computes_range; [|done|done|by apply Hc].
    by apply (opsize_48 w).
Qed.

(** The operands in x1 and x2. *)
Record operands (o : insn) (a b : Z) (st : astate) : Prop := {
  op_a : uwrap (i_size o * 8) (xr st 1) = uwrap (i_size o * 8) a;
  op_b : uwrap (i_size o * 8) (xr st 2) = uwrap (i_size o * 8) b;
  op_one : is_one_of (i_op o) [OP_INC; OP_DEC] = true -> xr st 2 = 1
}.

Lemma run_operands base R fl o st :
  alu_ok o -> cpu_at base R fl st ->
  exists st', emit_runs (put_rd_reg A64_X1 o (i_reg o) (i_size o);;
      if bool_decide (i_kind o = K_RI) then put_imm A64_X2 (i_imm o)
      else put_rd_reg A64_X2 o (i_src o) (i_size o)) tt st st' /\
    operands o (reg_rd (i_has_rex o) R (i_reg o) (i_size o)) (operand2 o R) st' /\ keeps_regs [1; 2] st st'.
Proof.
  intros Ho Hc. pose proof (alu_opsize o Ho) as Hsz. pose proof Ho as [Hk Hop Hr Hsrc Hs Hi H1 Hn].
  set (size := i_size o) in *.
  destruct (run_rd_reg base R fl o 1 (i_reg o) size st Hc) as (s1 & R1 & V1 & U1 & K1); [done..|].
  assert (C1 : cpu_at base R fl s1) by (eapply cpu_at_regs; [|exact K1|done]; by repeat constructor).
  assert (E2 : exists s2, emit_runs (if bool_decide (i_kind o = K_RI) then put_imm A64_X2 (i_imm o)
      else put_rd_reg A64_X2 o (i_src o) size) tt s1 s2 /\
    uwrap (size * 8) (xr s2 2) = uwrap (size * 8) (operand2 o R) /\
    (i_kind o = K_RI -> xr s2 2 = i_imm o) /\ keeps_regs [2] s1 s2).
  { unfold operand2. fold size. case_bool_decide as Hki.
    - destruct (run_imm 2 (i_imm o) s1) as (s2 & R2 & V2 & K2); [done|done|done|].
      exists s2. rewrite V2. by split_and!.
    - destruct (run_rd_reg base R fl o 2 (i_src o) size s1 C1) as (s2 & R2 & V2 & U2 & K2); [done..|].
      exists s2. split; [done|]. split_and!; [|done..]. rewrite V2. symmetry. by apply reg_rd_range. }
  destruct E2 as (s2 & R2 & V2 & I2 & K2). exists s2. split; [by eapply run_bind|]. split.
  - split; [|done|intros [Hki <-]%H1; by apply I2]. fold size.
    rewrite (kr_x _ _ _ K2) by (cbn; lia). rewrite V1. symmetry. by apply reg_rd_range.
  - eapply keeps_regs_trans; eapply keeps_regs_sub; try eassumption; intros n; cbn; tauto.
Qed.

(** A write depends on the value's low bits only. *)
Lemma reg_wr_mod rex R r v v' size :
  opsize size -> uwrap (size * 8) v = uwrap (size * 8) v' -> reg_wr rex R r v size = reg_wr rex R r v' size.
Proof.
  intros Hs Hv. unfold reg_wr. destruct (high_byte _ _ _) eqn:E.
  - apply high_byte_greg in E as [_ ->]. change 0xff with (Z.ones 8). rewrite !land_ones_uwrap by lia.
    change (1 * 8) with 8 in Hv. by rewrite Hv.
  - unfold Registers.merged. rewrite !(trunc_sz_uwrap _ _ Hs), Hv.
    destruct (Z.eqb_spec size 4) as [->|]; [|done].
    rewrite !trunc_sz_uwrap by (right; right; by left). change (4 * 8) with 32 in *. by rewrite Hv.
Qed.

Lemma op_result_range op size a b :
  opsize size -> urange 64 (op_result op size a b) /\ (size = 4 \/ size = 8 -> urange (size * 8) (op_result op size a b)).
Proof.
  intros Hs. assert (Hr : urange (if size =? 8 then 64 else 32) (op_result op size a b)).
  { apply uwrap_range. by destruct (size =? 8). }
  split; [eapply urange_mono; [|exact Hr]; by destruct (size =? 8)|]. by intros [->| ->].
Qed.

Lemma op_result_mod op size a a' b b' :
  opsize size -> is_one_of op reg_ops = true ->
  uwrap (size * 8) a = uwrap (size * 8) a' -> uwrap (size * 8) b = uwrap (size * 8) b' ->
  uwrap (size * 8) (op_result op size a b) = uwrap (size * 8) (op_result op size a' b').
Proof.
  intros Hs Hop Ha Hb. pose proof (opsize_width _ Hs). unfold op_result.
  assert (Hw : 0 <= size * 8 <= (if size =? 8 then 64 else 32)).
  { destruct Hs as [->|[->|[->| ->]]]; cbn; lia. }
  rewrite !uwrap_le by done. apply op_value_mod; (done || lia).
Qed.

(** The helper computes its flags from the operation's result. *)
Lemma op_computes o a b :
  is_one_of (i_op o) reg_ops = true -> i_kind o = K_RR \/ i_kind o = K_RI \/ i_kind o = K_RM \/ i_kind o = K_MR \/ i_kind o = K_MI ->
  i_size o = 4 \/ i_size o = 8 -> i_fneed o .& .~ flags_written o = 0 ->
  (is_one_of (i_op o) [OP_INC; OP_DEC] = true -> b = 1) ->
  match op_helper (i_op o) with
  | Some fn => computes fn a b (op_result (i_op o) (i_size o) a b) (i_size o) /\ i_fneed o .& .~ fn_writes fn = 0
  | None => i_fneed o = 0
  end.
Proof.
  intros Hop Hk Hs Hn H1. set (r := op_result _ _ _ _).
  assert (Hr : uwrap (i_size o * 8) r = uwrap (i_size o * 8) (op_value (i_op o) a b)).
  { subst r. unfold op_result. destruct Hs as [->| ->]; cbn [Z.eqb Pos.eqb]; by apply uwrap_le. }
  assert (Hw : flags_written o = if i_op o =? 0x88 then 0
      else if is_one_of (i_op o) [0x00; 0x28; 0x38] then FL_ALL
      else if is_one_of (i_op o) [OP_INC; OP_DEC] then FL_INC else FL_LOGIC).
  { unfold flags_written. by destruct Hk as [->|[->|[->|[->| ->]]]]. }
  rewrite Hw in Hn. clear Hw Hk. clearbody r. revert H1 Hn Hr. generalize (i_op o), Hop. clear Hop.
  apply (reg_ops_cases (fun op => _ -> _ -> _ -> _)); cbn [op_helper op_value computes fn_writes]; intros H1 Hn Hr;
    try (split; [exact Hr || exact I|exact Hn]); try (split; [split|]; [by apply H1|by rewrite Hr, H1|exact Hn]).
  change (i_fneed o .& -1 = 0) in Hn. by rewrite Z.land_m1_r in Hn.
Qed.

Lemma helper_flags_mod fn fl a a' b b' r r' size :
  opsize size -> uwrap (size * 8) a = uwrap (size * 8) a' -> uwrap (size * 8) b = uwrap (size * 8) b' ->
  uwrap (size * 8) r = uwrap (size * 8) r' ->
  helper_flags fn fl a b r size = helper_flags fn fl a' b' r' size.
Proof. intros. destruct fn; [by apply flags_of_mod|done]. Qed.

(** The operation and the register written; then what its flags are computed
    from. *)
Definition put_op_wr (o : insn) : E (option helper) :=
  fl ← put_op o; ewhen (negb (i_no_write o)) (put_wr_reg A64_X3 o (i_reg o) (i_size o));; mret fl.

Record flag_args (o : insn) (a b : Z) (st : astate) : Prop := {
  fa_ops : operands o a b st;
  fa_r : xr st 3 = op_result (i_op o) (i_size o) (xr st 1) (xr st 2)
}.

Definition op_flags (o : insn) (a b fl : Z) : Z :=
  helper_flags (op_helper (i_op o)) fl a b (op_result (i_op o) (i_size o) a b) (i_size o).

Lemma flag_args_flags o a b fl st :
  op_ok o -> flag_args o a b st ->
  helper_flags (op_helper (i_op o)) fl (xr st 1) (xr st 2) (xr st 3) (i_size o) = op_flags o a b fl.
Proof.
  intros Ho [[Ha Hb _] Hr]. pose proof (op_opsize o Ho) as Hsz. apply helper_flags_mod; [done..|].
  rewrite Hr. apply op_result_mod; (done || apply Ho).
Qed.

Lemma run_op_wr base R fl o a b st :
  op_ok o -> cpu_at base R fl st -> operands o a b st ->
  exists st', emit_runs (put_op_wr o) (op_helper (i_op o)) st st' /\
    cpu_at base (ref_op o a b (R, fl)).1 fl st' /\ keeps_cpu base st st' /\ flag_args o a b st'.
Proof.
  intros Ho Hc [Ha Hb H1]. pose proof (op_opsize o Ho) as Hsz. pose proof Ho as [Hk Hop Hr Hs Hn].
  unfold ref_op. cbn [fst snd]. set (size := i_size o) in *.
  set (r := op_result (i_op o) size (xr st 1) (xr st 2)).
  destruct (op_result_range (i_op o) size (xr st 1) (xr st 2) Hsz) as [Hr64 Hrsz].
  pose proof (op_result_mod (i_op o) size _ _ _ _ Hsz Hop Ha Hb) as Hmod. fold r in Hr64, Hrsz, Hmod.
  assert (C3 : cpu_at base R fl (set_x 3 r st)) by (by apply cpu_at_set).
  assert (X3 : xr (set_x 3 r st) 3 = r) by (by rewrite xr_set_x).
  assert (E4 : exists s4, emit_runs (ewhen (negb (i_no_write o)) (put_wr_reg A64_X3 o (i_reg o) size)) tt (set_x 3 r st) s4 /\
    cpu_at base (if i_no_write o then R else reg_wr (i_has_rex o) R (i_reg o) r size) fl s4 /\
    keeps_cpu base (set_x 3 r st) s4 /\ (forall n, n <> 9 -> xr s4 n = xr (set_x 3 r st) n)).
  { destruct (i_no_write o); cbn [negb ewhen].
    - exists (set_x 3 r st). split; [apply run_ret|]. split; [done|]. split; [apply keeps_cpu_refl|done].
    - destruct (run_wr_reg base R fl o 3 (i_reg o) size _ C3) as (s4 & R4 & C4 & K4 & X4); try done.
      + rewrite X3. intros Hn1. apply Hrsz. lia.
      + rewrite X3 in C4. by exists s4. }
  destruct E4 as (s4 & R4 & C4 & K4 & X4).
  assert (Hx : forall n, n <> 9 -> n <> 3 -> xr s4 n = xr st n).
  { intros n Hn9 Hn3. rewrite X4, xr_set_x by done. by rewrite (proj2 (Z.eqb_neq n 3)). }
  exists s4. split; [|split; [|split]].
  - unfold put_op_wr. eapply run_bind; [by apply run_op|]. eapply run_bind; [exact R4|apply run_ret].
  - by rewrite (reg_wr_mod _ _ _ _ r) by done.
  - eapply keeps_cpu_trans; [by apply (keeps_cpu_set _ 3 r)|exact K4].
  - split; [split|]; fold size; rewrite ?(Hx 1), ?(Hx 2), ?X4, ?X3 by done; done.
Qed.

Lemma run_op_flags base R fl o a b st :
  op_ok o -> in_line o -> cpu_at base R fl st -> flag_args o a b st ->
  exists st', emit_runs (put_flags o (op_helper (i_op o)) (i_size o)) tt st st' /\
    cpu_at base R (merge_flags fl (i_fneed o) (op_flags o a b fl)) st' /\ keeps_cpu base st st'.
Proof.
  intros Ho Hin Hc Ha. pose proof Ho as [Hk Hop _ Hs Hn].
  destruct (run_put_flags base R fl o (op_helper (i_op o)) st Hc) as (s5 & R5 & C5 & K5).
  { destruct Hs as [Hs1|Hs]; [left; by apply Hin|right]. split; [exact Hs|]. rewrite (fa_r _ _ _ _ Ha).
    apply op_computes; [done..|]. apply Ha. }
  exists s5. rewrite <- (flag_args_flags o a b fl st) by done. done.
Qed.

Lemma put_op_reg_parts o b : (fl ← put_op_wr o; put_flags o fl (i_size o)) b = put_op_reg o b.
Proof.
  unfold put_op_wr, put_op_reg, mbind, E_bind. destruct (put_op o b) as [fl b1].
  by destruct (ewhen _ _ b1) as [[] b2].
Qed.

Lemma run_op_reg base R fl o a b st :
  op_ok o -> in_line o -> cpu_at base R fl st -> operands o a b st ->
  exists st', emit_runs (put_op_reg o) tt st st' /\
    cpu_at base (ref_op o a b (R, fl)).1 (merge_flags fl (i_fneed o) (ref_op o a b (R, fl)).2) st' /\
    keeps_cpu base st st'.
Proof.
  intros Ho Hin Hc Ha. destruct (run_op_wr base R fl o a b st Ho Hc Ha) as (s4 & R4 & C4 & K4 & A4).
  destruct (run_op_flags base _ fl o a b s4 Ho Hin C4 A4) as (s5 & R5 & C5 & K5).
  exists s5. split; [|split; [exact C5|by eapply keeps_cpu_trans]].
  eapply run_same; [intros c; symmetry; apply put_op_reg_parts|]. by eapply run_bind.
Qed.

Lemma put_rr_parts o b :
  ((put_rd_reg A64_X1 o (i_reg o) (i_size o);;
    if bool_decide (i_kind o = K_RI) then put_imm A64_X2 (i_imm o) else put_rd_reg A64_X2 o (i_src o) (i_size o));;
   put_op_reg o) b = put_rr o b.
Proof. apply (same_code_assoc _ _ (fun _ => put_op_reg o)). Qed.

Lemma run_alu o s : alu_ok o -> in_line o -> compiles (put_rr o) s (ref_alu o s) (i_fneed o).
Proof.
  intros Ho Hin base st Hc. destruct s as [R fl].
  destruct (run_operands base R fl o st Ho Hc) as (s2 & R2 & O2 & K2).
  assert (C2 : cpu_at base R fl s2) by (eapply cpu_at_regs; [|exact K2|done]; by repeat constructor).
  destruct (run_op_reg base R fl o _ _ s2 (alu_op_ok o Ho) Hin C2 O2) as (s3 & R3 & C3 & K3).
  exists s3. split; [|split; [exact C3|]].
  - eapply run_same; [intros b; symmetry; apply put_rr_parts|]. by eapply run_bind.
  - eapply keeps_cpu_trans; [|exact K3]. eapply keeps_cpu_regs; [|exact K2]. by repeat constructor.
Qed.

(** The two- and three-operand imul between registers. *)
Record imul_ok (o : insn) : Prop := {
  io_mem : o_mem (i_mo o) = false;
  io_reg : greg (i_reg o);
  io_src : greg (i_src o);
  io_size : i_size o = 4 \/ i_size o = 8;
  io_imm : urange 64 (i_imm o);
  io_need : i_fneed o .& .~ FL_LOGIC = 0
}.

Definition ref_imul (o : insn) (s : gstate) : gstate :=
  let '(R, fl) := s in
  let r := uwrap (i_size o * 8) (R (i_src o) * (if i_imm_src o then i_imm o else R (i_reg o))) in
  (upd_reg (i_reg o) r R, flags_logic fl r (i_size o)).

(** The multiplication, once the source is in x1. *)
Definition put_mul_tail (o : insn) : E unit :=
  (if i_imm_src o then put_imm A64_X2 (i_imm o) else put (a64_ldr A64_X2 CPU (off_r (i_reg o))));;
  put (if i_size o =? 8 then a64_mul A64_X3 A64_X1 A64_X2 else a64_mul_w A64_X3 A64_X1 A64_X2);;
  put (a64_str A64_X3 CPU (off_r (i_reg o)));;
  put_flags o (Some fn_flags_logic) (i_size o).

Definition mul_result (o : insn) (x : Z) (s : gstate) : gstate :=
  let r := uwrap (i_size o * 8) (x * (if i_imm_src o then i_imm o else s.1 (i_reg o))) in
  (upd_reg (i_reg o) r s.1, flags_logic s.2 r (i_size o)).

Lemma run_mul_tail base R fl o x s1 :
  greg (i_reg o) -> i_size o = 4 \/ i_size o = 8 -> urange 64 (i_imm o) -> i_fneed o .& .~ FL_LOGIC = 0 ->
  cpu_at base R fl s1 -> xr s1 1 = x ->
  exists st', emit_runs (put_mul_tail o) tt s1 st' /\
    cpu_at base (mul_result o x (R, fl)).1 (merge_flags fl (i_fneed o) (mul_result o x (R, fl)).2) st' /\ keeps_cpu base s1 st'.
Proof.
  intros Hr Hs Hi Hn C1 V1. set (y := if i_imm_src o then i_imm o else R (i_reg o)).
  assert (E2 : exists s2, emit_runs (if i_imm_src o then put_imm A64_X2 (i_imm o)
      else put (a64_ldr A64_X2 CPU (off_r (i_reg o)))) tt s1 s2 /\ xr s2 2 = y /\ keeps_regs [2] s1 s2).
  { subst y. destruct (i_imm_src o); [by apply run_imm|]. eexists. split; [apply run_put; by eapply run_ldr_reg|].
    rewrite xr_set_x. split; [done|]. apply keeps_regs_set. by left. }
  destruct E2 as (s2 & R2 & V2 & K2).
  assert (C2 : cpu_at base R fl s2) by (eapply cpu_at_regs; [|exact K2|done]; by repeat constructor).
  assert (X1 : xr s2 1 = x) by (by rewrite (kr_x _ _ _ K2) by (cbn; lia)).
  set (r := uwrap (i_size o * 8) (x * y)).
  set (s3 := set_x 3 r s2).
  assert (W3 : exec_word (if i_size o =? 8 then a64_mul A64_X3 A64_X1 A64_X2 else a64_mul_w A64_X3 A64_X1 A64_X2) s2 = Some (s3, Next)).
  { subst s3 r. destruct Hs as [->| ->]; cbn [Z.eqb Pos.eqb]; [rewrite exec_mul_w by done|rewrite exec_mul by done];
      by rewrite X1, V2. }
  assert (X3 : xr s3 3 = r) by (unfold s3; by rewrite xr_set_x).
  assert (U3 : urange 64 (xr s3 3)).
  { rewrite X3. eapply urange_mono; [|apply uwrap_range; lia]. lia. }
  destruct (run_str_reg base R fl 3 (i_reg o) s3) as (s4 & R4 & C4 & K4 & X4); [by apply cpu_at_set|done..|].
  rewrite X3 in C4.
  destruct (run_put_flags base _ fl o (Some fn_flags_logic) s4 C4) as (s5 & R5 & C5 & K5); [by right|].
  exists s5. split; [|split].
  - eapply run_bind; [exact R2|]. eapply run_put_bind; [exact W3|]. eapply run_put_bind; [exact R4|exact R5].
  - rewrite (X4 3), X3 in C5. exact C5.
  - eapply keeps_cpu_trans; [eapply keeps_cpu_regs; [|exact K2]; by repeat constructor|].
    eapply keeps_cpu_trans; [by apply (keeps_cpu_set _ 3 r)|]. by eapply keeps_cpu_trans.
Qed.

Lemma run_imul o rip s : imul_ok o -> compiles (put_imul o rip) s (ref_imul o s) (i_fneed o).
Proof.
  intros [Hm Hr Hsrc Hs Hi Hn] base st Hc. destruct s as [R fl]. cbn [fst snd] in Hc.
  set (s1 := set_x 1 (R (i_src o)) st).
  assert (C1 : cpu_at base R fl s1) by (by apply cpu_at_set).
  destruct (run_mul_tail base R fl o (R (i_src o)) s1) as (s2 & R2 & C2 & K2); try done.
  exists s2. split; [|split; [exact C2|]].
  - unfold put_imul, put_src. rewrite Hm. eapply run_put_bind; [by eapply run_ldr_reg|exact R2].
  - eapply keeps_cpu_trans; [by apply (keeps_cpu_set _ 1 (R (i_src o)))|exact K2].
Qed.

(** movzx and movsx between registers. *)
Record movx_ok (o : insn) : Prop := {
  xo_mem : o_mem (i_mo o) = false;
  xo_reg : greg (i_reg o);
  xo_src : greg (i_src o);
  xo_size : i_size o = 4 \/ i_size o = 8;
  xo_ssize : i_ssize o = 1 \/ i_ssize o = 2
}.

(** The value read, extended. *)
Definition extended (o : insn) (v : Z) : Z :=
  if i_sign o then uwrap (i_size o * 8) (swrap (i_ssize o * 8) v) else v.

Definition ref_movx (o : insn) (s : gstate) : gstate :=
  (upd_reg (i_reg o) (extended o (reg_rd (i_has_rex o) s.1 (i_src o) (i_ssize o))) s.1, s.2).

Definition put_extend (o : insn) : E unit :=
  put (if negb (i_sign o) then a64_ubfx A64_X0 A64_X0 0 (i_ssize o * 8)
       else if i_size o =? 8 then a64_sxt A64_X0 A64_X0 (i_ssize o * 8)
       else a64_sxt_w A64_X0 A64_X0 (i_ssize o * 8));;
  put (a64_str A64_X0 CPU (off_r (i_reg o))).

Lemma run_extend base R fl o v s1 :
  greg (i_reg o) -> i_size o = 4 \/ i_size o = 8 -> i_ssize o = 1 \/ i_ssize o = 2 ->
  cpu_at base R fl s1 -> uwrap (i_ssize o * 8) (xr s1 0) = v ->
  exists st', emit_runs (put_extend o) tt s1 st' /\ cpu_at base (upd_reg (i_reg o) (extended o v) R) fl st' /\ keeps_cpu base s1 st'.
Proof.
  intros Hr Hs Hss C1 V1.
  set (r := extended o v).
  assert (Hb : bits (xr s1 0) 0 (i_ssize o * 8) = v).
  { unfold bits. by rewrite Z.shiftr_0_r, land_ones_uwrap by lia. }
  set (s2 := set_x 0 r s1).
  assert (W2 : exec_word (if negb (i_sign o) then a64_ubfx A64_X0 A64_X0 0 (i_ssize o * 8)
       else if i_size o =? 8 then a64_sxt A64_X0 A64_X0 (i_ssize o * 8)
       else a64_sxt_w A64_X0 A64_X0 (i_ssize o * 8)) s1 = Some (s2, Next)).
  { subst s2 r. unfold extended. destruct (i_sign o); cbn [negb].
    - destruct Hs as [->| ->]; cbn [Z.eqb Pos.eqb]; [rewrite exec_sxt_w by (done || lia)|rewrite exec_sxt by (done || lia)];
        by rewrite Hb.
    - rewrite exec_ubfx by (done || lia). by rewrite Hb. }
  assert (X2 : xr s2 0 = r) by (unfold s2; by rewrite xr_set_x).
  assert (U2 : urange 64 r).
  { subst r. unfold extended. destruct (i_sign o).
    - eapply urange_mono; [|apply uwrap_range; lia]. lia.
    - rewrite <- Hb. unfold bits. rewrite land_ones_uwrap by lia. eapply urange_mono; [|apply uwrap_range; lia]. lia. }
  destruct (run_str_reg base R fl 0 (i_reg o) s2) as (s3 & R3 & C3 & K3 & _); [by apply cpu_at_set|done|done|by rewrite X2|].
  rewrite X2 in C3. exists s3. split; [|split; [exact C3|]].
  - eapply run_put_bind; [exact W2|]. by apply run_put.
  - eapply keeps_cpu_trans; [by apply (keeps_cpu_set _ 0 r)|exact K3].
Qed.

Lemma run_movx o rip s : movx_ok o -> compiles (put_movx o rip) s (ref_movx o s) 0.
Proof.
  intros [Hm Hr Hsrc Hs Hss] base st Hc. destruct s as [R fl]. cbn [fst snd] in Hc.
  rewrite merge_none. assert (Hop : opsize (i_ssize o)) by (unfold opsize; lia).
  destruct (run_rd_reg base R fl o 0 (i_src o) (i_ssize o) st Hc) as (s1 & R1 & V1 & U1 & K1); [done..|].
  assert (C1 : cpu_at base R fl s1) by (eapply cpu_at_regs; [|exact K1|done]; by repeat constructor).
  destruct (run_extend base R fl o _ s1 Hr Hs Hss C1 V1) as (s2 & R2 & C2 & K2).
  exists s2. split; [|split; [exact C2|]].
  - unfold put_movx. rewrite Hm. by eapply run_bind.
  - eapply keeps_cpu_trans; [eapply keeps_cpu_regs; [|exact K1]; by repeat constructor|exact K2].
Qed.

(** setcc on a register. *)
Record setcc_ok (o : insn) : Prop := {
  so_mem : o_mem (i_mo o) = false;
  so_reg : greg (i_reg o);
  so_cc : 0 <= i_cc o < 16
}.

Definition ref_setcc (o : insn) (s : gstate) : gstate :=
  (reg_wr (i_has_rex o) s.1 (i_reg o) (bz (cond s.2 (i_cc o))) 1, s.2).

(** The odd condition of a pair is the negation of the even one. *)
Lemma cond_sense fl cc f :
  0 <= cc < 16 -> fl_z f = negb (even_cond fl cc) -> cond_holds f (sense cc) = cond fl cc.
Proof.
  intros Hcc Hz. unfold sense. assert (Hc : cond fl cc = if nz (cc .& 1) then negb (even_cond fl cc) else even_cond fl cc).
  { unfold even_cond, cond. destruct (cond_flags fl) as (-> & -> & _ & -> & -> & ->).
    generalize (OF fl) (CF fl) (ZF fl) (SF fl) (PF fl). intros x c z s p.
    assert (Hc : cc = 0 \/ cc = 1 \/ cc = 2 \/ cc = 3 \/ cc = 4 \/ cc = 5 \/ cc = 6 \/ cc = 7 \/ cc = 8 \/
      cc = 9 \/ cc = 10 \/ cc = 11 \/ cc = 12 \/ cc = 13 \/ cc = 14 \/ cc = 15) by lia.
    by decompose sum Hc; subst cc; destruct x, c, z, s, p. }
  rewrite Hc. destruct f as [n z c v]. cbn [fl_z] in Hz. subst z. by destruct (nz (cc .& 1)), (even_cond fl cc).
Qed.

Lemma run_setcc o rip s : setcc_ok o -> compiles (put_setcc o rip) s (ref_setcc o s) 0.
Proof.
  intros [Hm Hr Hcc] base st Hc. destruct s as [R fl]. cbn [fst snd] in Hc.
  unfold put_setcc, ref_setcc. rewrite Hm, merge_none. cbn [fst snd].
  destruct (run_cond_even base fl (i_cc o) st (ca_at _ _ _ _ Hc) Hcc) as (s1 & R1 & Z1 & M1 & P1 & X1).
  set (b := bz (cond fl (i_cc o))). set (s2 := set_x 0 b s1).
  assert (W2 : exec_word (a64_cset A64_X0 (sense (i_cc o))) s1 = Some (s2, Next)).
  { rewrite exec_cset by by unfold sense; destruct (nz (i_cc o .& 1)). by rewrite (cond_sense fl). }
  assert (C1 : cpu_at base R fl s1).
  { destruct Hc as [[Hb Hrg Hf Hl] Hread Hrange]. split; [split|..]; rewrite ?M1; try done. by rewrite X1 by (cbn; lia). }
  assert (X2 : xr s2 0 = b) by (unfold s2; by rewrite xr_set_x).
  assert (U2 : urange 64 (xr s2 0)) by (rewrite X2; subst b; by destruct (cond _ _)).
  destruct (run_wr_reg base R fl o 0 (i_reg o) 1 s2) as (s3 & R3 & C3 & K3 & _); [by apply cpu_at_set|done|done|done|by left|done|done|].
  rewrite X2 in C3. exists s3. split; [|split; [exact C3|]].
  - eapply run_bind; [exact R1|]. eapply run_put_bind; [exact W2|exact R3].
  - eapply keeps_cpu_trans; [|eapply keeps_cpu_trans; [by apply (keeps_cpu_set _ 0 b)|exact K3]].
    split; [intros; by rewrite M1|done|]. intros n Hn. apply X1. cbn. lia.
Qed.

(** The effective address of a decoded memory operand. *)
Record ea_ok (o : insn) : Prop := {
  eo_base : o_has_base (i_mo o) = true -> greg (o_base (i_mo o));
  eo_index : o_has_index (i_mo o) = true -> greg (o_index (i_mo o)) /\ 0 <= o_scale (i_mo o) <= 3
}.

Definition ref_ea (o : insn) (R : Z -> Z) : Z :=
  let a := i_mo o in
  if o_riprel a then u64 (i_next o + o_disp a)
  else u64 ((if o_has_base a then R (o_base a) else 0) +
            (if o_has_index a then R (o_index a) << o_scale a else 0) + o_disp a).

(** Adding the displacement, whatever its size. *)
Lemma run_disp d x st :
  xr st 1 = x -> urange 64 x ->
  exists st', emit_runs (if (0 <? d) && (d <? 4096) then put (a64_add_imm A64_X1 A64_X1 (u32 d))
     else if (d <? 0) && (-4096 <? d) then put (a64_sub_imm A64_X1 A64_X1 (u32 (- d)))
     else ewhen (nz d) (put_imm A64_X6 (u64 d);; put (a64_add A64_X1 A64_X1 A64_X6))) tt st st' /\
    xr st' 1 = u64 (x + d) /\ keeps_regs [1; 6] st st'.
Proof.
  intros <- Hx. destruct ((0 <? d) && (d <? 4096)) eqn:E1; [|destruct ((d <? 0) && (-4096 <? d)) eqn:E2].
  - rewrite uwrap_small by (unfold urange; lia).
    eexists. split; [apply run_put, exec_add_imm; unfold urange; (done || lia)|].
    rewrite xr_set_x. split; [done|apply keeps_regs_set; by left].
  - rewrite uwrap_small by (unfold urange; lia).
    eexists. split; [apply run_put, exec_sub_imm; unfold urange; (done || lia)|].
    rewrite xr_set_x. split; [|apply keeps_regs_set; by left]. cbn. f_equal. lia.
  - unfold nz. destruct (Z.eqb_spec d 0) as [->|Hd]; cbn [negb ewhen].
    + exists st. split; [apply run_ret|]. rewrite Z.add_0_r, uwrap_small by done. split; [done|apply keeps_regs_refl].
    + destruct (run_imm 6 (u64 d) st) as (s1 & R1 & V1 & K1); [done|done|by apply uwrap_range|].
      eexists. split; [eapply run_bind; [exact R1|]; by apply run_put, exec_add|].
      rewrite xr_set_x. cbn [Z.eqb Pos.eqb andb negb]. rewrite V1, (kr_x _ _ _ K1) by (cbn; lia). split.
      * unfold uwrap. by rewrite Z.add_mod_idemp_r.
      * eapply keeps_regs_trans; [eapply keeps_regs_sub; [exact K1|]; intros n; cbn; tauto|].
        apply keeps_regs_set. by left.
Qed.

Lemma run_ea base R fl o st :
  ea_ok o -> cpu_at base R fl st ->
  exists st', emit_runs (put_ea o) tt st st' /\ xr st' 1 = ref_ea o R /\ keeps_regs [1; 6] st st'.
Proof.
  intros [Hb Hi] Hc. unfold put_ea, ref_ea. set (a := i_mo o) in *.
  assert (Himm : forall v, exists st', emit_runs (put_imm A64_X1 (u64 v)) tt st st' /\ xr st' 1 = u64 v /\ keeps_regs [1; 6] st st').
  { intros v. destruct (run_imm 1 (u64 v) st) as (s1 & R1 & V1 & K1); [done|done|by apply uwrap_range|].
    exists s1. split; [done|]. rewrite V1. split; [done|].
    eapply keeps_regs_sub; [exact K1|]. intros n; cbn; tauto. }
  destruct (o_riprel a); [apply Himm|].
  destruct (negb (o_has_base a) && negb (o_has_index a)) eqn:E.
  { apply andb_true_iff in E as [->%negb_true_iff ->%negb_true_iff]. apply Himm. }
  clear E Himm. set (x := if o_has_base a then R (o_base a) else 0).
  assert (Hx : urange 64 x).
  { subst x. destruct (o_has_base a); [|done]. by apply Hc, Hb. }
  set (s1 := set_x 1 x st).
  assert (R1 : emit_runs (if o_has_base a then put (a64_ldr A64_X1 CPU (off_r (o_base a))) else put (a64_movz A64_X1 0 0)) tt st s1).
  { subst s1 x. destruct (o_has_base a); [|by apply run_movz_zero].
    apply run_put. eapply run_ldr_reg; [done|by apply Hb|done]. }
  assert (C1 : cpu_at base R fl s1) by (by apply cpu_at_set).
  set (y := if o_has_index a then R (o_index a) << o_scale a else 0).
  assert (E2 : exists s2, emit_runs (ewhen (o_has_index a) (put (a64_ldr A64_X6 CPU (off_r (o_index a)));;
       put (a64_add_shift A64_X1 A64_X1 A64_X6 (o_scale a)))) tt s1 s2 /\ xr s2 1 = u64 (x + y) /\ keeps_regs [1; 6] s1 s2).
  { subst y. destruct (o_has_index a); cbn [ewhen].
    - destruct (Hi eq_refl) as [Hg Hsc]. eexists. split.
      + eapply run_put_bind; [by eapply run_ldr_reg|]. apply run_put, exec_add_shift; try done. unfold urange. lia.
      + unfold s1. rewrite !xr_set_x. cbn [Z.eqb Pos.eqb andb negb]. split; [done|].
        eapply keeps_regs_trans; apply keeps_regs_set; cbn; tauto.
    - exists s1. split; [apply run_ret|]. unfold s1. rewrite xr_set_x, Z.add_0_r, uwrap_small by done. split; [done|apply keeps_regs_refl]. }
  destruct E2 as (s2 & R2 & V2 & K2).
  destruct (run_disp (o_disp a) (xr s2 1) s2 eq_refl ltac:(rewrite V2; by apply uwrap_range)) as (s3 & R3 & V3 & K3).
  exists s3. split; [eapply run_bind; [exact R1|]; eapply run_bind; [exact R2|exact R3]|]. split.
  - rewrite V3, V2. unfold uwrap. by rewrite Z.add_mod_idemp_l.
  - eapply keeps_regs_trans; [apply (keeps_regs_set _ 1 x); by left|]. by eapply keeps_regs_trans.
Qed.

(** lea. *)
Record lea_ok (o : insn) : Prop := {
  lo_reg : greg (i_reg o);
  lo_ea : ea_ok o;
  lo_size : i_size o = 4 \/ i_size o = 8
}.

Definition ref_lea (o : insn) (s : gstate) : gstate :=
  (upd_reg (i_reg o) (uwrap (i_size o * 8) (ref_ea o s.1)) s.1, s.2).

Lemma ref_ea_range o R : urange 64 (ref_ea o R).
Proof. unfold ref_ea. case_match; by apply uwrap_range. Qed.

Lemma run_lea o s : lea_ok o -> compiles (put_lea o) s (ref_lea o s) 0.
Proof.
  intros [Hr He Hs] base st Hc. destruct s as [R fl]. cbn [fst snd] in Hc.
  unfold put_lea, ref_lea. rewrite merge_none. cbn [fst snd].
  destruct (run_ea base R fl o st He Hc) as (s1 & R1 & V1 & K1).
  assert (C1 : cpu_at base R fl s1) by (eapply cpu_at_regs; [|exact K1|done]; by repeat constructor).
  assert (K1' : keeps_cpu base st s1) by (eapply keeps_cpu_regs; [|exact K1]; by repeat constructor).
  pose proof (ref_ea_range o R) as Hea. destruct Hs as [->| ->]; cbn [Z.eqb Pos.eqb Z.mul Pos.mul].
  - set (s2 := set_x 3 (u32 (ref_ea o R)) s1).
    assert (X2 : xr s2 3 = u32 (ref_ea o R)) by (unfold s2; by rewrite xr_set_x).
    destruct (run_str_reg base R fl 3 (i_reg o) s2) as (s3 & R3 & C3 & K3 & _); [by apply cpu_at_set|done|done| |].
    { rewrite X2. eapply urange_mono; [|by apply uwrap_range]. lia. }
    assert (W2 : exec_word (a64_mov_w A64_X3 A64_X1) s1 = Some (s2, Next)) by (rewrite exec_mov_w by done; by rewrite V1).
    rewrite X2 in C3. exists s3. split; [|split; [exact C3|]].
    + eapply run_bind; [exact R1|]. eapply run_put_bind; [exact W2|]. by apply run_put.
    + eapply keeps_cpu_trans; [exact K1'|]. eapply keeps_cpu_trans; [by apply (keeps_cpu_set _ 3 (u32 (ref_ea o R)))|exact K3].
  - destruct (run_str_reg base R fl 1 (i_reg o) s1) as (s3 & R3 & C3 & K3 & _); [done|done|done|by rewrite V1|].
    rewrite V1 in C3. exists s3. rewrite uwrap_small by done. split; [|split; [exact C3|by eapply keeps_cpu_trans]].
    eapply run_bind; [exact R1|by apply run_put].
Qed.
End put_flags.
