(* ===== verification/JitLive.v ===== *)
(** Why skipping flags is safe ([flag_liveness] in [src/jit.c]): whatever the
    instructions do, as long as they read and write the flags the analysis
    says, leaving out the flags it finds dead changes nothing at the end of
    the block. *)
From S2P Require Import Prelude.
From S2P Require Import Flags.
From S2P Require Import Jit.
From S2P Require Import JitFlags.

(** What the analysis asks of the instructions' meaning [sem] on a state and a
    flags word. *)
Class FlagSem (S : Type) := {
  sem : insn -> S -> Z -> S * Z;
  covers : insn -> Prop;
  sem_need o n : sem (iw_fneed n o) = sem o;
  sem_state o s fl fl' : covers o -> fl .& flags_read o = fl' .& flags_read o -> (sem o s fl).1 = (sem o s fl').1;
  sem_overwrites o s fl fl' i :
    covers o -> 0 <= i -> fl .& flags_read o = fl' .& flags_read o -> Z.testbit (flags_written o) i = true ->
    Z.testbit (sem o s fl).2 i = Z.testbit (sem o s fl').2 i;
  sem_local o s fl fl' i :
    covers o -> 0 <= i -> fl .& flags_read o = fl' .& flags_read o -> Z.testbit fl i = Z.testbit fl' i ->
    Z.testbit (sem o s fl).2 i = Z.testbit (sem o s fl').2 i
}.

Section liveness.
Context {S : Type} `{FlagSem S}.

(** Flags of bytes, and of shifts, are left to a routine, which computes all of
    them or is not called. *)
Definition by_routine (o : insn) : bool :=
  match i_kind o with
  | K_RR | K_RI | K_RM | K_MR | K_MI => (i_size o =? 1) && nz (i_fneed o)
  | K_SHIFT => true
  | _ => false
  end.

(** The flags compiled code computes, and those it leaves as they were. *)
Definition computed (o : insn) : Z := if by_routine o then -1 else i_fneed o.
Definition skips (o : insn) : Z := flags_written o .& .~ computed o.

Definition lazy_sem (o : insn) (s : S) (fl : Z) : S * Z :=
  let r := sem o s fl in (r.1, merge_flags r.2 (skips o) fl).

Definition run_sem (f : insn -> S -> Z -> S * Z) (v : list insn) (s : S * Z) : S * Z :=
  foldl (fun s o => f o s.1 s.2) s v.

(** Two flags words that agree where [live] or no flag lies. *)
Definition agree (live fl fl' : Z) : Prop :=
  forall i, 0 <= i -> Z.testbit live i = true \/ Z.testbit FL_ALL i = false -> Z.testbit fl i = Z.testbit fl' i.

Lemma merge_bit fl need F i :
  0 <= i -> Z.testbit (merge_flags fl need F) i = if Z.testbit need i then Z.testbit F i else Z.testbit fl i.
Proof.
  intros Hi. unfold merge_flags. rewrite Z.lor_spec, !Z.land_spec, Z.lnot_spec by done.
  destruct (Z.testbit need i); cbn; by rewrite ?andb_false_r, ?andb_true_r, ?orb_false_r.
Qed.

Lemma agree_land live m fl fl' : agree live fl fl' -> m .& .~ live = 0 -> fl .& m = fl' .& m.
Proof.
  intros Ha Hm. apply Z.bits_inj'. intros i Hi. rewrite !Z.land_spec.
  destruct (Z.testbit m i) eqn:E; [|by rewrite !andb_false_r]. rewrite !andb_true_r. apply Ha; [done|left].
  apply (f_equal (fun z => Z.testbit z i)) in Hm. rewrite Z.land_spec, Z.lnot_spec, E, Z.bits_0 in Hm by done.
  by destruct (Z.testbit live i).
Qed.

Lemma flags_written_all o i : Z.testbit (flags_written o) i = true -> Z.testbit FL_ALL i = true.
Proof.
  assert (Hs : forall a, a .& .~ FL_ALL = 0 -> Z.testbit a i = true -> Z.testbit FL_ALL i = true).
  { intros a Ha Hb. destruct (Z.ltb_spec i 0); [by rewrite Z.testbit_neg_r in Hb|].
    destruct (Z.testbit FL_ALL i) eqn:E; [done|]. by rewrite (need_bit a FL_ALL i) in Hb. }
  apply Hs. unfold flags_written. destruct (i_kind o); repeat case_match; done.
Qed.

(** One instruction, its need filled in. *)
Lemma lazy_step o live s fl fl' :
  covers o -> agree ((live .& .~ flags_written o) .| flags_read o) fl fl' ->
  let o' := iw_fneed (flags_written o .& live) o in
  (lazy_sem o' s fl').1 = (sem o s fl).1 /\ agree live (sem o s fl).2 (lazy_sem o' s fl').2.
Proof.
  intros Hc Ha o'. unfold lazy_sem. cbn [fst snd]. unfold o' at 1 2. rewrite sem_need.
  assert (Hrd : fl .& flags_read o = fl' .& flags_read o).
  { eapply agree_land; [exact Ha|]. apply Z.bits_inj'. intros i Hi.
    rewrite Z.land_spec, Z.lnot_spec, Z.lor_spec, Z.bits_0 by done.
    destruct (Z.testbit (flags_read o) i); by rewrite ?orb_true_r. }
  split; [symmetry; by apply sem_state|].
  intros i Hi Hl. rewrite merge_bit by done.
  assert (Hskip : Z.testbit (skips o') i = negb (by_routine o') && (Z.testbit (flags_written o) i && negb (Z.testbit live i))).
  { unfold skips, computed. change (flags_written o') with (flags_written o).
    rewrite Z.land_spec, Z.lnot_spec by done. destruct (by_routine o'); [by rewrite Z.bits_m1, andb_false_r|].
    change (i_fneed o') with (flags_written o .& live). rewrite Z.land_spec.
    by destruct (Z.testbit (flags_written o) i), (Z.testbit live i). }
  rewrite Hskip.
  destruct (Z.testbit (flags_written o) i) eqn:Hw; cbn [andb negb].
  - pose proof (flags_written_all o i Hw) as Hall. destruct Hl as [Hl|Hl]; [|congruence].
    rewrite Hl, andb_false_r. by apply sem_overwrites.
  - rewrite andb_false_r. apply sem_local; [done..|]. apply Ha; [done|]. destruct Hl as [Hl|Hl]; [left|by right].
    by rewrite Z.lor_spec, Z.land_spec, Z.lnot_spec, Hl, Hw.
Qed.

Lemma lazy_run v live s fl fl' :
  Forall covers v ->
  agree (flag_liveness_from v live).2 fl fl' ->
  let v' := (flag_liveness_from v live).1 in
  (run_sem lazy_sem v' (s, fl')).1 = (run_sem sem v (s, fl)).1 /\
  agree live (run_sem sem v (s, fl)).2 (run_sem lazy_sem v' (s, fl')).2.
Proof.
  revert s fl fl'. induction v as [|o v IH]; intros s fl fl' Hv; cbn [flag_liveness_from]; [done|].
  apply Forall_cons in Hv as [Ho Hv]. specialize (fun s fl fl' => IH s fl fl' Hv).
  destruct (flag_liveness_from v live) as [v' live'] eqn:E. cbn [fst snd] in *. intros Ha.
  destruct (lazy_step o live' s fl fl' Ho Ha) as [H1 H2].
  set (o' := iw_fneed _ o) in *. unfold run_sem in *. cbn [foldl fst snd].
  destruct (lazy_sem o' s fl') as [s1 fl1], (sem o s fl) as [s1' fl1']. cbn [fst snd] in *. subst s1. by apply IH.
Qed.

Lemma flag_liveness_ok v s fl :
  Forall covers v -> run_sem lazy_sem (flag_liveness v) (s, fl) = run_sem sem v (s, fl).
Proof.
  intros Hv. destruct (lazy_run v FL_ALL s fl fl Hv) as [H1 H2]; [done|].
  fold (flag_liveness v) in H1, H2.
  destruct (run_sem lazy_sem _ _) as [s1 fl1], (run_sem sem _ _) as [s2 fl2]. cbn [fst snd] in *. f_equal; [done|].
  apply Z.bits_inj'. intros i Hi. symmetry. apply H2; [done|]. destruct (Z.testbit FL_ALL i); auto.
Qed.

(** Computing only the flags the backward pass asks for is enough: for any
    instructions that read and write flags as the analysis assumes, and any
    state, running the block with the dead flags left stale ends in the same
    state and the same flags as running it with all of them computed.  Where a
    routine computes flags, for bytes and shifts, it computes them all. *)
Theorem flag_liveness_sound v s fl :
  Forall covers v -> run_sem lazy_sem (flag_liveness v) (s, fl) = run_sem sem v (s, fl).
Proof. apply flag_liveness_ok. Qed.
End liveness.
