(* ===== verification/JitBlock.v ===== *)
(** Compiled blocks of register instructions ([put_insn] and the loop of
    [rsd_jit_lookup] in [src/jit.c]): with the flags the analysis asks for, and
    from entry to return, they leave the cpu as the interpreter's operations,
    one after the other, would. *)
From S2P Require Import Prelude.
From S2P Require Import Memory.
From S2P Require Import Flags.
From S2P Require Import Registers.
From S2P Require Import A64.
From S2P Require Import Emit.
From S2P Require Import Jit.
From S2P Require Import JitEmit.
From S2P Require Import JitInsn.
From S2P Require Import JitCache.
From S2P Require Import JitRun.
From S2P Require Import JitFlags.
From S2P Require Import JitRegs.
From S2P Require Import JitLive.

(* ------------------------------------------------------------------ *)
(** ** Register instructions, as the analysis sees them *)

Definition reg_sem (o : insn) (R : Z -> Z) (fl : Z) : gstate :=
  match i_kind o with
  | K_RR | K_RI => ref_alu o (R, fl)
  | K_LEA => ref_lea o (R, fl)
  | K_IMUL => ref_imul o (R, fl)
  | K_MOVX => ref_movx o (R, fl)
  | K_SETCC => ref_setcc o (R, fl)
  | _ => (R, fl)
  end.

Definition reg_covers (o : insn) : Prop :=
  match i_kind o with
  | K_RR | K_RI => opsize (i_size o) /\ is_one_of (i_op o) reg_ops = true
  | K_IMUL => opsize (i_size o)
  | K_LEA | K_MOVX | K_NOP => True
  | K_SETCC => 0 <= i_cc o < 16
  | _ => False
  end.

(** The masks are single bits. *)
Lemma flag_masks i :
  0 <= i ->
  Z.testbit F_CF i = (0 =? i) /\ Z.testbit F_PF i = (2 =? i) /\ Z.testbit F_AF i = (4 =? i) /\
  Z.testbit F_ZF i = (6 =? i) /\ Z.testbit F_SF i = (7 =? i) /\ Z.testbit F_OF i = (11 =? i).
Proof.
  intros Hi. rewrite <- !Z.pow2_bits_eqb by done. done.
Qed.

(** Bit [i] of the flags an operation leaves. *)
Ltac flag_word_bits fl fl' i Hi Hw :=
  unfold rsd_i_flags_inc, rsd_i_flags_dec, flags_add, flags_sub, flags_logic, FL_LOGIC, FL_INC, FL_ALL in *;
  rewrite !set_pzs_unfold by done; repeat rewrite ?Z.lor_spec, ?Z.land_spec, ?Z.lnot_spec, ?testbit_setf in * by done;
  destruct (flag_masks i Hi) as (E0 & E2 & E4 & E6 & E7 & E11); rewrite ?E0, ?E2, ?E4, ?E6, ?E7, ?E11 in *;
  clear E0 E2 E4 E6 E7 E11;
  destruct (Z.eqb_spec 0 i) as [E|_]; [|destruct (Z.eqb_spec 2 i) as [E|_]; [|destruct (Z.eqb_spec 4 i) as [E|_];
    [|destruct (Z.eqb_spec 6 i) as [E|_]; [|destruct (Z.eqb_spec 7 i) as [E|_]; [|destruct (Z.eqb_spec 11 i) as [E|_]]]]]];
  try (subst i); cbn [Z.eqb Pos.eqb andb orb negb] in *;
  rewrite ?andb_false_r, ?andb_true_r, ?orb_false_r; cbn [andb orb negb]; rewrite ?andb_false_r, ?orb_false_r;
  try done; try (destruct Hw as [Hw|Hw]; [done|]; by rewrite ?Hw).

(** Each flag is either overwritten or left. *)
Lemma flags_of_bit fn fl fl' a b r size i :
  opsize size -> 0 <= i -> Z.testbit (fn_writes fn) i = true \/ Z.testbit fl i = Z.testbit fl' i ->
  Z.testbit (flags_of fn fl a b r size) i = Z.testbit (flags_of fn fl' a b r size) i.
Proof.
  intros Hs Hi Hw. destruct fn; cbn [fn_writes flags_of] in *;
    try (destruct Hw as [Hw|Hw]; [by rewrite Z.testbit_0_l in Hw|done]); flag_word_bits fl fl' i Hi Hw.
Qed.

Lemma flags_of_kept fn fl a b r size i :
  opsize size -> 0 <= i -> Z.testbit (fn_writes fn) i = false ->
  Z.testbit (flags_of fn fl a b r size) i = Z.testbit fl i.
Proof. intros Hs Hi Hw. destruct fn; cbn [fn_writes flags_of] in *; try done; flag_word_bits fl fl i Hi Hw. Qed.

(** The flags a condition tests. *)
Lemma cond_reads fl fl' cc :
  0 <= cc < 16 -> fl .& cc_reads cc = fl' .& cc_reads cc -> cond fl cc = cond fl' cc.
Proof.
  intros Hcc He.
  assert (Hb : forall i, 0 <= i -> Z.testbit (cc_reads cc) i = true -> Z.testbit fl i = Z.testbit fl' i).
  { intros i Hi Hr. apply (f_equal (fun z => Z.testbit z i)) in He. rewrite !Z.land_spec, Hr, !andb_true_r in He. done. }
  pose proof (Hb 0 ltac:(done)) as H0. pose proof (Hb 2 ltac:(done)) as H2. pose proof (Hb 6 ltac:(done)) as H6.
  pose proof (Hb 7 ltac:(done)) as H7. pose proof (Hb 11 ltac:(done)) as H11. clear Hb He.
  unfold cond. destruct (cond_flags fl) as (-> & -> & _ & -> & -> & ->). destruct (cond_flags fl') as (-> & -> & _ & -> & -> & ->).
  unfold CF, PF, ZF, SF, OF.
  assert (Hc : cc = 0 \/ cc = 1 \/ cc = 2 \/ cc = 3 \/ cc = 4 \/ cc = 5 \/ cc = 6 \/ cc = 7 \/ cc = 8 \/
    cc = 9 \/ cc = 10 \/ cc = 11 \/ cc = 12 \/ cc = 13 \/ cc = 14 \/ cc = 15) by lia.
  decompose sum Hc; subst cc;
    repeat match goal with
    | H : ?c = true -> _ |- _ =>
        let v := eval vm_compute in c in
        lazymatch v with true => specialize (H eq_refl); try rewrite H | false => clear H end
    end; reflexivity.
Qed.

Lemma helper_flags_bit fn fl fl' a b r size i :
  opsize size -> 0 <= i ->
  Z.testbit (match fn with Some fn => fn_writes fn | None => 0 end) i = true \/ Z.testbit fl i = Z.testbit fl' i ->
  Z.testbit (helper_flags fn fl a b r size) i = Z.testbit (helper_flags fn fl' a b r size) i.
Proof.
  intros Hs Hi. destruct fn; [by apply flags_of_bit|]. intros [Hw|Hw]; [by rewrite Z.testbit_0_l in Hw|done].
Qed.

Lemma helper_flags_kept fn fl a b r size i :
  opsize size -> 0 <= i -> Z.testbit (match fn with Some fn => fn_writes fn | None => 0 end) i = false ->
  Z.testbit (helper_flags fn fl a b r size) i = Z.testbit fl i.
Proof. intros. destruct fn; [by apply flags_of_kept|done]. Qed.

(** The analysis' idea of what an operation writes is its helper's. *)
Lemma flags_written_helper o :
  i_kind o = K_RR \/ i_kind o = K_RI -> is_one_of (i_op o) reg_ops = true ->
  flags_written o = match op_helper (i_op o) with Some fn => fn_writes fn | None => 0 end.
Proof.
  intros Hk Hop. transitivity (if i_op o =? 0x88 then 0
    else if is_one_of (i_op o) [0x00; 0x28; 0x38] then FL_ALL
    else if is_one_of (i_op o) [OP_INC; OP_DEC] then FL_INC else FL_LOGIC).
  - unfold flags_written. by destruct Hk as [->| ->].
  - revert Hop. generalize (i_op o). by apply reg_ops_cases.
Qed.

Lemma reg_sem_bit o R fl fl' i :
  reg_covers o -> 0 <= i -> Z.testbit (flags_written o) i = true \/ Z.testbit fl i = Z.testbit fl' i ->
  Z.testbit (reg_sem o R fl).2 i = Z.testbit (reg_sem o R fl').2 i.
Proof.
  unfold reg_covers, reg_sem. intros Hc Hi Hw. destruct (i_kind o) eqn:Hk; try done.
  all: try (by destruct Hw as [Hw|Hw]; [unfold flags_written in Hw; rewrite Hk, Z.testbit_0_l in Hw|]).
  - destruct Hc as [Hs Hop]. apply helper_flags_bit; [done..|].
    rewrite flags_written_helper in Hw by auto. exact Hw.
  - destruct Hc as [Hs Hop]. apply helper_flags_bit; [done..|].
    rewrite flags_written_helper in Hw by auto. exact Hw.
  - apply (flags_of_bit fn_flags_logic _ _ 0 0); [done..|]. unfold flags_written in Hw. rewrite Hk in Hw. exact Hw.
Qed.

Lemma reg_sem_kept o R fl i :
  reg_covers o -> 0 <= i -> Z.testbit (flags_written o) i = false -> Z.testbit (reg_sem o R fl).2 i = Z.testbit fl i.
Proof.
  unfold reg_covers, reg_sem. intros Hc Hi Hw. destruct (i_kind o) eqn:Hk; try done.
  1,2: destruct Hc as [Hs Hop]; apply helper_flags_kept; [done..|]; by rewrite flags_written_helper in Hw by auto.
  apply (flags_of_kept fn_flags_logic _ 0 0); [done..|]. unfold flags_written in Hw. rewrite Hk in Hw. exact Hw.
Qed.

Lemma reg_sem_regs o R fl fl' :
  reg_covers o -> fl .& flags_read o = fl' .& flags_read o -> (reg_sem o R fl).1 = (reg_sem o R fl').1.
Proof.
  unfold reg_covers, reg_sem, flags_read. intros Hc He. destruct (i_kind o); try done.
  cbn. by rewrite (cond_reads fl fl').
Qed.

#[export] Instance reg_flag_sem : FlagSem (Z -> Z).
Proof.
  refine {| sem := reg_sem; covers := reg_covers |}.
  - intros o n. unfold reg_sem. by destruct o as [[]].
  - intros. by apply reg_sem_regs.
  - intros. apply reg_sem_bit; auto.
  - intros. apply reg_sem_bit; auto.
Defined.

(* ------------------------------------------------------------------ *)
(** ** Compiled instructions *)

(** An instruction the compiler turns into straight code on registers. *)
Definition reg_insn (o : insn) : Prop :=
  match i_kind o with
  | K_RR | K_RI => alu_ok o /\ in_line o
  | K_LEA => lea_ok o
  | K_IMUL => imul_ok o
  | K_MOVX => movx_ok o
  | K_SETCC => setcc_ok o
  | K_NOP => True
  | _ => False
  end.

Lemma reg_insn_covers o : reg_insn o -> reg_covers o.
Proof.
  unfold reg_insn, reg_covers. destruct (i_kind o) eqn:Hk; try done.
  1,2: intros [Ho _]; split; [by apply alu_opsize|apply Ho].
  - intros [_ _ _ Hs _ _]. unfold opsize. lia.
  - by intros [_ _ ?].
Qed.

Lemma reg_insn_computed o : reg_insn o -> computed o = i_fneed o.
Proof.
  unfold reg_insn, computed, by_routine, in_line. destruct (i_kind o); try done.
  all: intros [_ Hb]; destruct (Z.eqb_spec (i_size o) 1) as [E|]; [|done]; by rewrite (Hb E).
Qed.

Section block.
Context `{Linked}.

Lemma merge_same fl need : merge_flags fl need fl = fl.
Proof. apply Z.bits_inj'. intros i Hi. rewrite merge_bit by done. by case_match. Qed.

(** Keeping what is skipped is merging what is needed: the rest is as it was. *)
Lemma merge_skips o R fl :
  reg_insn o -> i_fneed o .& .~ flags_written o = 0 ->
  merge_flags (reg_sem o R fl).2 (skips o) fl = merge_flags fl (i_fneed o) (reg_sem o R fl).2.
Proof.
  intros Ho Hn. pose proof (reg_insn_covers o Ho) as Hc.
  apply Z.bits_inj'. intros i Hi. rewrite !merge_bit by done. unfold skips. rewrite reg_insn_computed by done.
  rewrite Z.land_spec, Z.lnot_spec by done.
  destruct (Z.testbit (i_fneed o) i) eqn:E.
  - by rewrite andb_false_r.
  - destruct (Z.testbit (flags_written o) i) eqn:Hw; [done|]. by apply reg_sem_kept.
Qed.

(** One instruction, compiled. *)
Lemma run_insn o rip s :
  reg_insn o -> i_fneed o .& .~ flags_written o = 0 ->
  compiles (put_insn o rip) s (reg_sem o s.1 s.2) (i_fneed o).
Proof.
  unfold reg_insn, reg_sem, put_insn. destruct s as [R fl]. intros Ho Hn.
  assert (Hz : forall e s', flags_written o = 0 -> compiles e (R, fl) s' 0 -> compiles e (R, fl) s' (i_fneed o)).
  { intros e s' Hw. rewrite Hw in Hn. change (i_fneed o .& -1 = 0) in Hn. by rewrite Z.land_m1_r in Hn; rewrite Hn. }
  unfold flags_written in Hz.
  destruct (i_kind o) eqn:Hk; try done; try (by apply run_alu; apply Ho); try (by apply run_imul).
  - apply Hz; [done|]. by apply run_lea.
  - apply Hz; [done|]. intros base st Hc. exists st. rewrite merge_none. split; [apply run_ret|].
    split; [done|apply keeps_cpu_refl].
  - apply Hz; [done|]. by apply run_movx.
  - apply Hz; [done|]. by apply run_setcc.
Qed.

(** The instructions of a block, one after the other. *)
Fixpoint put_block (v : list insn) (at_ : Z) : E unit :=
  match v with
  | [] => mret tt
  | o :: v => put_insn o at_;; put_block v (i_next o)
  end.

Definition well_needed (v : list insn) : Prop := Forall (fun o => reg_insn o /\ i_fneed o .& .~ flags_written o = 0) v.

Lemma run_insns v at_ s base st :
  well_needed v -> cpu_at base s.1 s.2 st ->
  let s' := run_sem lazy_sem v s in
  exists st', emit_runs (put_block v at_) tt st st' /\ cpu_at base s'.1 s'.2 st' /\ keeps_cpu base st st'.
Proof.
  revert at_ s st. induction v as [|o v IH]; intros at_ s st Hv Hc; cbn [put_block].
  { exists st. split; [apply run_ret|]. split; [done|apply keeps_cpu_refl]. }
  apply Forall_cons in Hv as [[Ho Hn] Hv]. destruct s as [R fl].
  destruct (run_insn o at_ (R, fl) Ho Hn base st Hc) as (s1 & R1 & C1 & K1). cbn [fst snd] in *.
  rewrite <- merge_skips in C1 by done.
  change (cpu_at base (lazy_sem o R fl).1 (lazy_sem o R fl).2 s1) in C1.
  destruct (IH (i_next o) (lazy_sem o R fl) s1 Hv C1) as (s2 & R2 & C2 & K2).
  exists s2. split; [by eapply run_bind|]. split; [exact C2|by eapply keeps_cpu_trans].
Qed.

(* ------------------------------------------------------------------ *)
(** ** From entry to return *)

(** Running a block's words until they return: the state and the address
    returned to.  Code that branches is not run. *)
Fixpoint exec_block (ws : list Z) (st : astate) : option (astate * Z) :=
  match ws with
  | [] => None
  | w :: ws =>
      '(st, ctl) ← exec_word w st;
      match ctl with Next => exec_block ws st | Ret a => Some (st, a) | _ => None end
  end.

Lemma exec_block_app ws ws' st st' :
  exec_words ws st = Some st' -> exec_block (ws ++ ws') st = exec_block ws' st'.
Proof.
  revert st. induction ws as [|w ws IH]; intros st; cbn; [by intros [= ->]|].
  destruct (exec_word w st) as [[s []]|]; cbn; try done. apply IH.
Qed.

(** How a block ends: falling through to the next instruction, jumping, or
    jumping on a condition. *)
Definition reg_end (t : option insn) : Prop :=
  match t with
  | None => True
  | Some o =>
      urange 64 (i_target o) /\ urange 64 (i_next o) /\
      match i_kind o with K_JMP => True | K_JCC => 0 <= i_cc o < 16 | _ => False end
  end.

Definition next_rip (t : option insn) (pc fl : Z) : Z :=
  match t with
  | None => pc
  | Some o =>
      match i_kind o with
      | K_JCC => if cond fl (i_cc o) then i_target o else i_next o
      | _ => i_target o
      end
  end.

(** The code in front of the return: the next instruction's address, in x0. *)
Definition put_next (t : option insn) (pc : Z) : E unit :=
  match t with
  | None => put_imm A64_X0 pc
  | Some o =>
      match i_kind o with
      | K_JCC =>
          put_cond_even (i_cc o);; put_imm A64_X2 (i_target o);; put_imm A64_X3 (i_next o);;
          put (a64_csel A64_X0 A64_X2 A64_X3 (sense (i_cc o)))
      | _ => put_imm A64_X0 (i_target o)
      end
  end.

Lemma put_next_leave o rip pc : reg_end (Some o) -> same_code (put_insn o rip) (put_next (Some o) pc;; put_leave).
Proof.
  intros (_ & _ & Hk). unfold put_insn, put_next. destruct (i_kind o); try done. unfold put_jcc.
  intros b. symmetry. revert b. change (same_code ((put_cond_even (i_cc o);; put_imm A64_X2 (i_target o);; put_imm A64_X3 (i_next o);;
    put (a64_csel A64_X0 A64_X2 A64_X3 (sense (i_cc o))));; put_leave) (put_cond_even (i_cc o);; put_imm A64_X2 (i_target o);;
    put_imm A64_X3 (i_next o);; put (a64_csel A64_X0 A64_X2 A64_X3 (sense (i_cc o)));; put_leave)).
  do 3 (eapply same_code_trans; [apply same_code_assoc|]; apply same_code_bind; intros []). done.
Qed.

Lemma run_next base R fl t pc st :
  reg_end t -> urange 64 pc -> cpu_at base R fl st ->
  exists st', emit_runs (put_next t pc) tt st st' /\ xr st' 0 = next_rip t pc fl /\
    cpu_at base R fl st' /\ keeps_cpu base st st'.
Proof.
  intros Ht Hpc Hc.
  assert (Himm : forall v, urange 64 v -> exists st', emit_runs (put_imm A64_X0 v) tt st st' /\ xr st' 0 = v /\
    cpu_at base R fl st' /\ keeps_cpu base st st').
  { intros v Hv. destruct (run_imm 0 v st) as (s1 & R1 & V1 & K1); [done..|]. exists s1. split; [done|]. split; [done|].
    split; [eapply cpu_at_regs; [|exact K1|done]|eapply keeps_cpu_regs; [|exact K1]]; by repeat constructor. }
  destruct t as [o|]; [|by apply Himm]. destruct Ht as (Htg & Hnx & Hk). unfold put_next, next_rip.
  destruct (i_kind o); try done; [|by apply Himm].
  destruct (run_cond_even base fl (i_cc o) st (ca_at _ _ _ _ Hc) Hk) as (s1 & R1 & Z1 & M1 & P1 & X1).
  destruct (run_imm 2 (i_target o) s1) as (s2 & R2 & V2 & K2); [done..|].
  destruct (run_imm 3 (i_next o) s2) as (s3 & R3 & V3 & K3); [done..|].
  set (b := if cond fl (i_cc o) then i_target o else i_next o). set (s4 := set_x 0 b s3).
  assert (W4 : exec_word (a64_csel A64_X0 A64_X2 A64_X3 (sense (i_cc o))) s3 = Some (s4, Next)).
  { rewrite exec_csel by by unfold sense; destruct (nz (i_cc o .& 1)).
    rewrite (kr_fl _ _ _ K3), (kr_fl _ _ _ K2), (cond_sense fl) by done.
    rewrite V3, (kr_x _ _ _ K3), V2, !uwrap_small by (done || cbn; lia). done. }
  assert (Hx : keeps_cpu base st s1).
  { split; [intros; by rewrite M1|done|]. intros n Hn. apply X1. cbn. lia. }
  assert (C1 : cpu_at base R fl s1).
  { destruct Hc as [[Hb Hrg Hf Hl] Hread Hrange]. split; [split|..]; rewrite ?M1; try done. by rewrite X1 by (cbn; lia). }
  exists s4. split; [|split; [unfold s4; by rewrite xr_set_x|split]].
  - eapply run_bind; [exact R1|]. eapply run_bind; [exact R2|]. eapply run_bind; [exact R3|]. by apply run_put.
  - apply cpu_at_set; [done|]. eapply cpu_at_regs; [|exact K3|eapply cpu_at_regs; [|exact K2|exact C1]]; by repeat constructor.
  - eapply keeps_cpu_trans; [exact Hx|]. eapply keeps_cpu_trans; [eapply keeps_cpu_regs; [|exact K2]; by repeat constructor|].
    eapply keeps_cpu_trans; [eapply keeps_cpu_regs; [|exact K3]; by repeat constructor|]. by apply keeps_cpu_set.
Qed.

(** The stack slot the entry code saves x30 in. *)
Record has_slot (base : Z) (st : astate) : Prop := {
  hs_sp : 16 <= a_sp st < 2 ^ 64;
  hs_map : is_Some (read_bytes (a_mem st) (a_sp st - 16) 8);
  hs_apart : forall i, a_sp st - 16 <= i < a_sp st - 8 -> ~ reg_file base i;
  hs_link : urange 64 (xr st 30)
}.

(** What a whole block leaves: the register file and the slot may change. *)
Record block_kept (base : Z) (st st' : astate) : Prop := {
  bk_sp : a_sp st' = a_sp st;
  bk_x : forall n, 13 <= n -> xr st' n = xr st n;
  bk_mem : forall i, ~ reg_file base i -> ~ a_sp st - 16 <= i < a_sp st - 8 -> a_mem st' !! i = a_mem st !! i
}.

Lemma cpu_at_mem base R fl st st' :
  cpu_at base R fl st -> xr st' A64_X19 = xr st A64_X19 ->
  (forall i, reg_file base i -> a_mem st' !! i = a_mem st !! i) -> cpu_at base R fl st'.
Proof.
  intros [[Hb Hr Hf Hl] Hread Hrange] Hx Hm. split; [split; [congruence|done| |done]| |done].
  - rewrite <- Hf. apply read_bytes_ext. intros i Hi. apply Hm. right. unfold OFF_FLAGS in *. lia.
  - intros r Hg. rewrite <- Hread by done. apply read_bytes_ext. intros i Hi. apply Hm. left.
    unfold greg, off_r in *. lia.
Qed.

(** A whole block: entry and instructions, then the way out. *)
Definition put_entry (v : list insn) (rip : Z) : E unit := put (a64_push A64_X30);; put_block v rip.
Definition put_exit (t : option insn) (pc : Z) : E unit := put_next t pc;; put (a64_pop A64_X30).

Lemma run_whole base R fl v t rip pc st :
  well_needed v -> reg_end t -> urange 64 pc -> cpu_at base R fl st -> has_slot base st ->
  let s' := run_sem lazy_sem v (R, fl) in
  exists s2 st', emit_runs (put_entry v rip) tt st s2 /\ emit_runs (put_exit t pc) tt s2 st' /\
    xr st' 0 = next_rip t pc s'.2 /\ cpu_at base s'.1 s'.2 st' /\ block_kept base st st'.
Proof.
  intros Hv Ht Hpc Hc [Hsp Hmap Hap Hlk] s'.
  assert (Hu : u64 (a_sp st - 16) = a_sp st - 16) by (apply uwrap_small; unfold urange; lia).
  set (slot := a_sp st - 16) in *.
  set (s1 := set_sp slot (set_amem (write_bytes (a_mem st) slot (le_bytes 8 (xr st 30))) st)).
  assert (W1 : exec_word (a64_push A64_X30) st = Some (s1, Next)).
  { rewrite exec_push; change (a_sp st - 16) with slot; rewrite ?Hu; done. }
  assert (Hout : forall i, ~ slot <= i < slot + 8 -> a_mem s1 !! i = a_mem st !! i).
  { intros i Hi. apply write_bytes_outside. by rewrite length_le_bytes. }
  assert (C1 : cpu_at base R fl s1).
  { apply (cpu_at_mem base R fl st); [done|done|]. intros i Hi. apply Hout. intros Hin. apply (Hap i); [subst slot; lia|done]. }
  destruct (run_insns v rip (R, fl) base s1 Hv C1) as (s2 & R2 & C2 & K2). fold s' in C2.
  destruct (run_next base s'.1 s'.2 t pc s2 Ht Hpc C2) as (s3 & R3 & V3 & C3 & K3).
  pose proof (keeps_cpu_trans _ _ _ _ K2 K3) as [Km Ksp Kx].
  assert (Hslot : read_bytes (a_mem s3) slot 8 = Some (le_bytes 8 (xr st 30))).
  { rewrite (read_bytes_ext _ (a_mem s1)).
    - pose proof (read_write_same (a_mem st) slot (le_bytes 8 (xr st 30))) as H1. by rewrite length_le_bytes in H1.
    - intros i Hi. apply Km, Hap. subst slot. lia. }
  assert (Hsp3 : a_sp s3 = slot) by done.
  set (s4 := set_sp (u64 (slot + 16)) (set_x 30 (xr st 30) s3)).
  assert (W4 : exec_word (a64_pop A64_X30) s3 = Some (s4, Next)).
  { erewrite exec_pop by (done || rewrite Hsp3; exact Hslot). rewrite le_val_bytes, Hsp3.
    change (8 * Z.of_nat 8) with 64. by rewrite (uwrap_small 64 (xr st 30)). }
  assert (Hx4 : forall n, n <> 30 -> xr s4 n = xr s3 n).
  { intros n Hn. change (xr s4 n) with (xr (set_x 30 (xr st 30) s3) n). by rewrite xr_set_x, (proj2 (Z.eqb_neq n 30)). }
  exists s2, s4. split; [|split; [|split; [by rewrite Hx4|split]]].
  - eapply run_put_bind; [exact W1|exact R2].
  - eapply run_bind; [exact R3|]. by apply run_put.
  - apply (cpu_at_mem base _ _ s3); [done|by apply Hx4|]. intros i Hi. unfold s4. cbn [a_mem set_sp]. by rewrite mem_set_x.
  - split.
    + change (u64 (slot + 16) = a_sp st). subst slot. rewrite Z.sub_add. apply uwrap_small. unfold urange. lia.
    + intros n Hn. destruct (decide (n = 30)) as [->|Hn30]; [done|]. rewrite Hx4 by done. by rewrite Kx.
    + intros i Hi Hs. unfold s4. cbn [a_mem set_sp]. rewrite mem_set_x, Km, Hout by (done || subst slot; lia). done.
Qed.
End block.
