(* ===== verification/JitCompile.v ===== *)
(** Compiling a block ([rsd_jit_lookup] in [src/jit.c]): the loop that cuts a
    block until it fits ends, and the words it leaves do what the block's
    instructions do. *)
From S2P Require Import Prelude.
From S2P Require Import Memory.
From S2P Require Import Flags.
From S2P Require Import A64.
From S2P Require Import Emit.
From S2P Require Import Jit.
From S2P Require Import JitEmit.
From S2P Require Import JitInsn.
From S2P Require Import JitCache.
From S2P Require Import JitRun.
From S2P Require Import JitFlags.
From S2P Require Import JitRegs.
From S2P Require Import JitLive.
From S2P Require Import JitBlock.

(* ------------------------------------------------------------------ *)
(** ** The analysis *)

Lemma liveness_length v live : length (flag_liveness_from v live).1 = length v.
Proof.
  induction v as [|o v IH]; cbn [flag_liveness_from]; [done|].
  destruct (flag_liveness_from v live). cbn in *. by rewrite IH.
Qed.

Lemma length_flag_liveness v : length (flag_liveness v) = length v.
Proof. apply liveness_length. Qed.

(** Analysing again finds the same. *)
Lemma liveness_idemp v live : flag_liveness_from (flag_liveness_from v live).1 live = flag_liveness_from v live.
Proof.
  induction v as [|o v IH]; cbn [flag_liveness_from]; [done|].
  destruct (flag_liveness_from v live) as [v' l] eqn:E. cbn [fst flag_liveness_from] in *. rewrite IH. done.
Qed.

Lemma flag_liveness_idemp v : flag_liveness (flag_liveness v) = flag_liveness v.
Proof. unfold flag_liveness. by rewrite liveness_idemp. Qed.

(** An instruction needs only flags it writes. *)
Lemma liveness_need v live : Forall (fun o => i_fneed o .& .~ flags_written o = 0) (flag_liveness_from v live).1.
Proof.
  induction v as [|o v IH]; cbn [flag_liveness_from]; [done|].
  destruct (flag_liveness_from v live) as [v' l]. cbn [fst] in *. constructor; [|done].
  change (flags_written (iw_fneed (flags_written o .& l) o)) with (flags_written o).
  change (i_fneed (iw_fneed (flags_written o .& l) o)) with (flags_written o .& l).
  apply Z.bits_inj'. intros i Hi. rewrite !Z.land_spec, Z.lnot_spec, Z.bits_0 by done.
  by destruct (Z.testbit (flags_written o) i), (Z.testbit l i).
Qed.

Lemma liveness_snoc u o live :
  flag_liveness_from (u ++ [o]) live =
  let l := (live .& .~ flags_written o) .| flags_read o in
  ((flag_liveness_from u l).1 ++ [iw_fneed (flags_written o .& live) o], (flag_liveness_from u l).2).
Proof.
  cbn zeta. induction u as [|x u IH]; cbn [flag_liveness_from app]; [done|]. rewrite IH.
  destruct (flag_liveness_from u _). done.
Qed.

(** What ends a block writes no flag, and reads some at most. *)
Definition ends_block (t : option insn) : Prop :=
  match t with
  | Some o => terminates (i_kind o) = true /\ (i_kind o = K_JCC -> 0 <= i_cc o < 16)
  | None => True
  end.

Lemma reg_end_ends t : reg_end t -> ends_block t.
Proof. destruct t as [o|]; [|done]. intros (_ & _ & Hk). unfold ends_block. by destruct (i_kind o). Qed.

Lemma cc_reads_live cc : 0 <= cc < 16 -> FL_ALL .| cc_reads cc = FL_ALL.
Proof.
  intros Hcc.
  assert (Hc : cc = 0 \/ cc = 1 \/ cc = 2 \/ cc = 3 \/ cc = 4 \/ cc = 5 \/ cc = 6 \/ cc = 7 \/ cc = 8 \/ cc = 9 \/
    cc = 10 \/ cc = 11 \/ cc = 12 \/ cc = 13 \/ cc = 14 \/ cc = 15) by lia.
  by repeat destruct Hc as [->|Hc]; [..|subst cc].
Qed.

(** It leaves every flag live. *)
Lemma liveness_end u o :
  ends_block (Some o) -> flag_liveness (u ++ [o]) = flag_liveness u ++ [iw_fneed 0 o].
Proof.
  intros [Hk Hcc]. unfold flag_liveness. rewrite liveness_snoc. cbn [fst].
  assert (Hw : flags_written o = 0) by (unfold flags_written; by destruct (i_kind o)).
  assert (Hl : (FL_ALL .& .~ flags_written o) .| flags_read o = FL_ALL).
  { rewrite Hw. unfold flags_read. destruct (i_kind o); try done. by apply cc_reads_live, Hcc. }
  by rewrite Hl, Hw.
Qed.

(* ------------------------------------------------------------------ *)
(** ** Cutting a block *)

Section compile.
Context `{Linked}.

(** The address behind the instructions. *)
Definition block_end (rip : Z) (v : list insn) : Z := foldl (fun _ o => i_next o) rip v.

(** What [put_insns] counts. *)
Lemma put_insns_count v i at_ b :
  let '((i', at'), b') := put_insns v i at_ b in
  i <= i' <= i + Z.of_nat (length v) /\ at' = block_end at_ (take (Z.to_nat (i' - i)) v) /\
  (i' = i + Z.of_nat (length v) -> b' = (put_block v at_ b).2 /\ (b_full b = false -> b_full b' = false)).
Proof.
  revert i at_ b. induction v as [|o v IH]; intros i at_ b; cbn [put_insns put_block].
  { cbn. split; [lia|]. rewrite Z.sub_diag. done. }
  unfold mbind, E_bind. destruct (put_insn o at_ b) as [[] b1] eqn:E1. cbn [length]. destruct (b_full b1) eqn:Ef.
  { split; [lia|]. rewrite Z.sub_diag. split; [done|]. lia. }
  specialize (IH (i + 1) (i_next o) b1). destruct (put_insns v (i + 1) (i_next o) b1) as [[i' at'] b'].
  destruct IH as (H1 & H2 & H3). split; [lia|]. split.
  - rewrite H2. replace (Z.to_nat (i' - i)) with (S (Z.to_nat (i' - (i + 1)))) by lia. done.
  - intros He. destruct H3 as [H3 H4]; [lia|]. split; [done|]. intros _. by apply H4.
Qed.

(** What the loop returns: the longest prefix that fits, analysed afresh. *)
Record emitted_block (check : bool) (rip : Z) (v : list insn) (ended : bool) (pc : Z)
    (v' : list insn) (ended' : bool) (pc' : Z) (b : buf) (k : nat) : Prop := {
  eb_take : (k <= length v)%nat;
  eb_v : v' = flag_liveness (take k v);
  eb_buf : b = (put_entry v' rip (Buf [] (MAX_BLOCK - 24) false check [])).2;
  eb_fits : b_full b = false;
  eb_end : if decide (k = length v) then ended' = ended /\ pc' = pc
           else ended' = false /\ pc' = block_end rip (take k v)
}.

Lemma block_end_liveness k v live rip : block_end rip (take k (flag_liveness_from v live).1) = block_end rip (take k v).
Proof.
  revert k rip. induction v as [|o v IH]; intros [|k] rip; cbn [flag_liveness_from]; try done.
  specialize (IH k (i_next o)). destruct (flag_liveness_from v live). cbn in *. done.
Qed.

(** Analysing part of what was analysed. *)
Lemma flag_liveness_take k v live : flag_liveness (take k (flag_liveness_from v live).1) = flag_liveness (take k v).
Proof.
  unfold flag_liveness. f_equal. revert k. induction v as [|o v IH]; intros [|k]; cbn [flag_liveness_from]; try done.
  specialize (IH k). destruct (flag_liveness_from v live) as [v' l]. cbn [fst take flag_liveness_from] in *.
  rewrite IH. done.
Qed.

Lemma emit_block_ok fuel check rip v ended pc :
  (length v < fuel)%nat ->
  exists v' ended' pc' b k, emit_block fuel check rip v ended pc = Some (v', ended', pc', b) /\
    emitted_block check rip v ended pc v' ended' pc' b k.
Proof.
  revert v ended pc. induction fuel as [|fuel IH]; intros v ended pc Hf; [lia|]. cbn [emit_block].
  destruct (put (a64_push A64_X30) (Buf [] (MAX_BLOCK - 24) false check [])) as [[] b0] eqn:E0.
  pose proof (put_insns_count (flag_liveness v) 0 rip b0) as Hc.
  destruct (put_insns (flag_liveness v) 0 rip b0) as [[i at_] b] eqn:E1. rewrite length_flag_liveness in *.
  destruct Hc as (Hi & Hat & Hall). destruct (Z.eqb_spec i (Z.of_nat (length v))) as [Ei|Ei].
  - exists (flag_liveness v), ended, pc, b, (length v). split; [done|]. destruct (Hall ltac:(lia)) as [Hb Hfull].
    split; [done|by rewrite firstn_all| | |by rewrite decide_True].
    + unfold put_entry, mbind, E_bind. by rewrite E0.
    + apply Hfull. injection E0 as <-. done.
  - destruct (IH (take (Z.to_nat i) (flag_liveness v)) false at_) as (v' & e' & pc' & b' & k & He & [Hk Hv Hb Hfl Hend]).
    { rewrite length_take, length_flag_liveness. lia. }
    rewrite length_take, length_flag_liveness in Hk, Hend.
    exists v', e', pc', b', k. split; [exact He|].
    rewrite take_take in *. replace (Nat.min k (Z.to_nat i)) with k in * by lia.
    split; [lia| |done|done|].
    + rewrite Hv. apply (flag_liveness_take k v FL_ALL).
    + rewrite decide_False by lia. unfold flag_liveness in Hend. rewrite block_end_liveness in Hend.
      case_decide as Hki; [|done]. split; [apply Hend|]. destruct Hend as [_ ->]. rewrite Hat.
      unfold flag_liveness. rewrite block_end_liveness, Z.sub_0_r. f_equal. f_equal. lia.
Qed.

(** The loop that cuts a block until it fits ends within as many turns as
    there are instructions, with a prefix of the block, its flags analysed for
    that prefix, its words complete, and the address to continue at: the
    block's own when nothing was cut, the first instruction left out when
    something was. *)
Theorem emit_block_fits check rip v ended pc :
  exists v' ended' pc' b k, emit_block (S (length v)) check rip v ended pc = Some (v', ended', pc', b) /\
    emitted_block check rip v ended pc v' ended' pc' b k.
Proof. apply emit_block_ok. lia. Qed.

(* ------------------------------------------------------------------ *)
(** ** What the words do *)

(** The end of a block only appends. *)
Lemma close_block_out ended pc b exit_at b' ws :
  straight (ewhen (negb ended) (put_imm A64_X0 pc;; put_leave)) tt ws ->
  close_block ended pc b = (exit_at, b') -> b_full b' = false ->
  exists rest, b_out b' = b_out b ++ ws ++ rest /\ b_fix b' = b_fix b.
Proof.
  intros Hs. unfold close_block, mbind, E_bind. destruct (Hs b) as [Ha Hb].
  destruct (ewhen _ _ b) as [[] b1]. cbn [fst snd] in *. unfold here.
  assert (Hl : straight (put (a64_ldr A64_X0 CPU OFF_CURRIP);; put_leave) tt
    ([a64_ldr A64_X0 CPU OFF_CURRIP] ++ [a64_pop A64_X30] ++ [a64_ret])).
  { eapply straight_bind; [apply straight_put|]. eapply straight_bind; apply straight_put. }
  destruct (Hl b1) as [_ Hb1]. unfold mbind, E_bind in Hb1.
  destruct (put (a64_ldr A64_X0 CPU OFF_CURRIP) b1) as [[] b2]. destruct (put_leave b2) as [[] b3].
  intros [= <- <-] Hf. cbn [fst snd] in *. destruct (Hb1 Hf) as [Hf1 ->]. destruct (Hb Hf1) as [_ ->].
  eexists. cbn [b_out b_fix]. by rewrite <- app_assoc.
Qed.

Lemma exec_whole wsA wsB rest st s2 st' :
  exec_words wsA st = Some s2 -> exec_words wsB s2 = Some st' ->
  exec_block (wsA ++ wsB ++ [a64_ret] ++ rest) st = Some (st', xr st' 30).
Proof.
  intros HA HB. rewrite (exec_block_app _ _ _ _ HA), (exec_block_app _ _ _ _ HB). cbn [exec_block app].
  by rewrite exec_ret.
Qed.

Lemma put_block_snoc u o rip : same_code (put_block (u ++ [o]) rip) (put_block u rip;; put_insn o (block_end rip u)).
Proof.
  revert rip. induction u as [|x u IH]; intros rip; cbn [put_block app].
  - intros b. unfold mbind, E_bind, mret, E_ret. change (block_end rip []) with rip.
    by destruct (put_insn o rip b) as [[] b1].
  - intros b. rewrite same_code_assoc. apply same_code_bind. intros []. apply IH.
Qed.

(** The words of a block in front of its fault exit. *)
Lemma block_words u t rip pc ended wsA wsB b b1 exit_at b2 mx check :
  (match t with Some _ => ended = true | None => ended = false end) -> reg_end t ->
  straight (put_entry u rip) tt wsA -> straight (put_exit t pc) tt wsB ->
  b = (put_entry (u ++ option_list t) rip (Buf [] mx false check [])).2 -> b_full b = false ->
  b1 = Buf (b_out b) MAX_BLOCK (b_full b) (b_check b) (b_fix b) ->
  close_block ended pc b1 = (exit_at, b2) -> b_full b2 = false ->
  exists rest, patch_fixes exit_at b2 = wsA ++ wsB ++ [a64_ret] ++ rest.
Proof.
  intros Ht Hr HA HB Hb Hf -> Hc Hf2.
  assert (HBr : straight (put_exit t pc;; put a64_ret) tt (wsB ++ [a64_ret])) by (eapply straight_bind; [exact HB|apply straight_put]).
  assert (Hx : same_code (put_next t pc;; put_leave) (put_exit t pc;; put a64_ret)).
  { intros b'. symmetry. apply same_code_assoc. }
  destruct t as [o|]; subst ended.
  - change (option_list (Some o)) with [o] in Hb. assert (HW : straight (put_entry (u ++ [o]) rip) tt (wsA ++ wsB ++ [a64_ret])).
    { eapply straight_same; [|exact (straight_bind _ (fun _ => put_exit (Some o) pc;; put a64_ret) _ _ _ _ HA HBr)].
      intros b'. unfold put_entry.
      rewrite same_code_assoc. apply same_code_bind. intros []. intros b3. rewrite put_block_snoc.
      apply same_code_bind. intros []. intros b4. rewrite (put_next_leave o _ pc) by done. apply Hx. }
    destruct (HW (Buf [] mx false check [])) as [_ HW']. rewrite <- Hb in HW'. destruct (HW' Hf) as [_ ->].
    destruct (close_block_out true pc _ exit_at b2 [] (straight_ret tt) Hc Hf2) as (rest & Ho & Hfx).
    exists rest. unfold patch_fixes. rewrite Hfx. cbn [b_fix foldl]. rewrite Ho. cbn [b_out app].
    by rewrite <- !app_assoc.
  - change (option_list (@None insn)) with (@nil insn) in Hb. rewrite app_nil_r in Hb. destruct (HA (Buf [] mx false check [])) as [_ HA']. rewrite <- Hb in HA'.
    destruct (HA' Hf) as [_ ->].
    destruct (close_block_out false pc _ exit_at b2 (wsB ++ [a64_ret]) (straight_same _ _ _ _ Hx HBr) Hc Hf2)
      as (rest & Ho & Hfx).
    exists rest. unfold patch_fixes. rewrite Hfx. cbn [b_fix foldl]. rewrite Ho. cbn [b_out app].
    by rewrite <- !app_assoc.
Qed.

(** The instructions in front of the end are analysed too. *)
Lemma analysed_body u t :
  ends_block t -> flag_liveness (u ++ option_list t) = u ++ option_list t -> flag_liveness u = u.
Proof.
  intros Ht. destruct t as [o|].
  - change (option_list (Some o)) with [o]. rewrite liveness_end by done. by intros [? _]%app_inj_tail.
  - change (option_list (@None insn)) with (@nil insn). by rewrite app_nil_r.
Qed.

Lemma analysed_needed u : flag_liveness u = u -> Forall reg_insn u -> well_needed u.
Proof.
  intros He Hu. apply Forall_and. split; [done|]. rewrite <- He. apply liveness_need.
Qed.

(** A compiled block does what its instructions do.  For a block of
    register instructions [u], ended by a jump, a conditional jump or nothing,
    as the compiler decoded, cut, analysed and emitted it: running the words
    from the first one, on any cpu in memory, returns to the caller with the
    address of the next instruction in x0 and with the registers and flags the
    interpreter's operations leave one after the other, the flags nobody reads
    included; the stack pointer, x13 to x30 and all other memory but the slot
    below the stack are as they were. *)
Theorem compiled_block_correct check rip v ended pc u t ended' pc' b exit_at b' base R fl st :
  emit_block (S (length v)) check rip v ended pc = Some (u ++ option_list t, ended', pc', b) ->
  close_block ended' pc' (Buf (b_out b) MAX_BLOCK (b_full b) (b_check b) (b_fix b)) = (exit_at, b') ->
  b_full b' = false ->
  (match t with Some _ => ended' = true | None => ended' = false end) ->
  Forall reg_insn u -> reg_end t -> urange 64 pc' ->
  cpu_at base R fl st -> has_slot base st ->
  let s := run_sem reg_sem u (R, fl) in
  exists st', exec_block (patch_fixes exit_at b') st = Some (st', xr st 30) /\
    xr st' 0 = next_rip t pc' s.2 /\ cpu_at base s.1 s.2 st' /\ block_kept base st st'.
Proof.
  intros He Hclose Hfull Ht Hu Hend Hpc Hc Hslot s.
  destruct (emit_block_ok (S (length v)) check rip v ended pc ltac:(lia)) as (v' & e' & p' & b0 & k & He' & [_ Hv Hb Hf _]).
  rewrite He in He'. injection He' as <- <- <- <-.
  assert (Hlive : flag_liveness u = u).
  { apply (analysed_body u t (reg_end_ends _ Hend)). rewrite Hv at 1. rewrite flag_liveness_idemp. by symmetry. }
  destruct (run_whole base R fl u t rip pc' st (analysed_needed u Hlive Hu) Hend Hpc Hc Hslot)
    as (s2 & st' & (wsA & HA & XA) & (wsB & HB & XB) & X0 & C' & K').
  assert (Hs : run_sem lazy_sem u (R, fl) = s).
  { subst s. rewrite <- Hlive at 1.
    change (run_sem lazy_sem (flag_liveness u) (R, fl) = run_sem sem u (R, fl)). apply flag_liveness_ok. eapply Forall_impl; [exact Hu|apply reg_insn_covers]. }
  rewrite Hs in X0, C'. exists st'. split; [|done].
  destruct (block_words u t rip pc' ended' wsA wsB b _ exit_at b' _ check Ht Hend HA HB Hb Hf eq_refl Hclose Hfull) as [rest ->].
  rewrite (exec_whole wsA wsB rest st s2 st' XA XB). do 2 f_equal. by apply K'.
Qed.
End compile.

(* ------------------------------------------------------------------ *)
(** ** A concrete block *)

(** add rax, rbx; setc cl; jz. *)
Definition sample_block : list insn :=
  [iw_kind K_RR (iw_size 8 (iw_src 3 (iw_has_rex true (iw_next 0x2003 zero_insn))));
   iw_kind K_SETCC (iw_size 1 (iw_reg 1 (iw_cc 2 (iw_next 0x2006 zero_insn))))].
Definition sample_end : insn := iw_kind K_JCC (iw_cc 4 (iw_target 0x3000 (iw_next 0x2008 zero_insn))).

Definition sample_regs (r : Z) : Z := if r =? 0 then 2 ^ 64 - 1 else if r =? 3 then 1 else r.

(** A cpu at 0x1000 and a stack at 0x8000. *)
Definition sample_cpu : astate :=
  AState (fun n => if n =? 19 then 0x1000 else if n =? 30 then 0x7000 else 0) 0x8000 (NZCV false false false false)
    (foldl (fun m r => write_bytes m (0x1000 + off_r r) (le_bytes 8 (sample_regs r)))
       (write_bytes (write_bytes ∅ (0x1000 + OFF_FLAGS) (le_bytes 4 0x202)) 0x7FF0 (le_bytes 8 0))
       (Z.of_nat <$> seq 0 16)).

Lemma sample_cpu_at : cpu_at 0x1000 sample_regs 0x202 sample_cpu.
Proof.
  assert (Hall : forall P : Z -> Prop, P 0 -> P 1 -> P 2 -> P 3 -> P 4 -> P 5 -> P 6 -> P 7 -> P 8 -> P 9 -> P 10 ->
    P 11 -> P 12 -> P 13 -> P 14 -> P 15 -> forall r, greg r -> P r).
  { intros P H0 H1 H2 H3 H4 H5 H6 H7 H8 H9 H10 H11 H12 H13 H14 H15 r Hr. unfold greg in Hr.
    assert (r = 0 \/ r = 1 \/ r = 2 \/ r = 3 \/ r = 4 \/ r = 5 \/ r = 6 \/ r = 7 \/ r = 8 \/ r = 9 \/ r = 10 \/
      r = 11 \/ r = 12 \/ r = 13 \/ r = 14 \/ r = 15) as Hc by lia.
    repeat destruct Hc as [->|Hc]; try done. by subst r. }
  split.
  - split; [done|done|by vm_compute|done].
  - by apply Hall; vm_compute.
  - by apply Hall; vm_compute.
Qed.

Lemma sample_block_regs : Forall reg_insn (flag_liveness sample_block).
Proof.
  constructor; [|constructor; [|done]].
  - split; [|done]. split; cbn; unfold greg; try (done || lia); auto.
  - split; cbn; unfold greg; (done || lia).
Qed.

Lemma compiled_block_correct_witness :
  let L := Build_Linked (fun _ => 0) in
  exists ws st' R fl, exec_block ws sample_cpu = Some (st', 0x7000) /\ xr st' 0 = 0x3000 /\
    cpu_at 0x1000 R fl st' /\ R 0 = 0 /\ R 1 = 1 /\ fl = 0x257.
Proof.
  intros L.
  assert (Hs : has_slot 0x1000 sample_cpu).
  { split; [done|vm_compute; by eexists| |done]. intros i Hi. unfold reg_file. cbn in Hi. lia. }
  eexists.
  epose proof (compiled_block_correct false 0x2000 (sample_block ++ [sample_end]) true 0x2008
    (flag_liveness sample_block) (Some (iw_fneed 0 sample_end)) true 0x2008 _ _ _ 0x1000 sample_regs 0x202 sample_cpu) as Hblock.
  edestruct Hblock as (st' & Hx & H0 & Hc & _);
    [vm_compute; reflexivity|vm_compute; reflexivity|reflexivity|reflexivity|exact sample_block_regs
    |split_and!; done|done|apply sample_cpu_at|exact Hs|].
  exists st', (run_sem reg_sem (flag_liveness sample_block) (sample_regs, 0x202)).1,
    (run_sem reg_sem (flag_liveness sample_block) (sample_regs, 0x202)).2.
  split; [exact Hx|]. split; [exact H0|]. split; [exact Hc|]. split_and!; vm_compute; reflexivity.
Defined.

(** The flags analysis on the sample block. *)
Lemma flag_liveness_sound_witness :
  run_sem lazy_sem (flag_liveness sample_block) (sample_regs, 0x202) = run_sem sem sample_block (sample_regs, 0x202).
Proof.
  apply (flag_liveness_sound sample_block sample_regs 0x202).
  constructor; [|constructor; [|done]]; unfold covers; cbn; unfold opsize; split_and?; (done || lia || auto).
Defined.

(* ------------------------------------------------------------------ *)
(** ** Flags and conditions in line *)

Section inline.
Context `{Linked}.

(** The flags compiled in line are the interpreter's: run on the
    operands and result of an addition, subtraction, logical operation,
    increment or decrement, the code [put_flags_inline] emits takes the branch,
    writes to the guest's flags exactly the needed bits of what the helper of
    the same name computes, keeps every other bit of them, and touches only
    scratch registers. *)
Theorem put_flags_inline_correct base fl fn need w st :
  let size := if w : bool then 4 else 8 in
  at_cpu base fl st -> computes fn (xr st 1) (xr st 2) (xr st 3) size -> need .& .~ fn_writes fn = 0 ->
  exists st', emit_runs (put_flags_inline fn need w) true st st' /\
    inlined base fl need (flags_of fn fl (xr st 1) (xr st 2) (xr st 3) size) st st'.
Proof. apply run_flags_inline. Qed.

(** The condition compiled in line is the interpreter's: after the
    code of [put_cond_even], the host's condition [sense] names holds exactly
    when the interpreter's [cond] does of the guest's flags, for each of the
    sixteen condition codes, and only scratch registers change. *)
Theorem put_cond_even_correct base fl cc st :
  at_cpu base fl st -> 0 <= cc < 16 ->
  exists st', emit_runs (put_cond_even cc) tt st st' /\ cond_holds (a_fl st') (sense cc) = cond fl cc /\
    a_mem st' = a_mem st /\ a_sp st' = a_sp st /\ (forall n, ~ In n [0; 9; 10] -> xr st' n = xr st n).
Proof.
  intros Hc Hcc. destruct (run_cond_even base fl cc st Hc Hcc) as (st' & Hr & Hz & Hk). exists st'.
  split; [exact Hr|]. split; [by apply cond_sense|exact Hk].
Qed.
End inline.

(** 0xffffffff + 1 carries out of 32 bits. *)
Lemma put_flags_inline_correct_witness :
  let st := set_x 1 0xffffffff (set_x 2 1 sample_cpu) in
  exists st', emit_runs (put_flags_inline fn_flags_add FL_ALL true) true st st' /\
    a_mem st' = write_bytes (a_mem st) (0x1000 + OFF_FLAGS) (le_bytes 4 0x257).
Proof.
  intros st.
  destruct (put_flags_inline_correct 0x1000 0x202 fn_flags_add FL_ALL true st) as (st' & Hr & [Hm _ _]);
    [split; [done|done|by vm_compute|done]|by vm_compute|done|].
  exists st'. split; [exact Hr|]. rewrite Hm. do 2 f_equal.
Defined.

(** Above, of flags with the carry clear and ZF clear. *)
Lemma put_cond_even_correct_witness :
  exists st', emit_runs (put_cond_even 7) tt sample_cpu st' /\ cond_holds (a_fl st') (sense 7) = true.
Proof.
  destruct (put_cond_even_correct 0x1000 0x202 7 sample_cpu) as (st' & Hr & Hc & _);
    [split; [done|done|by vm_compute|done]|done|].
  exists st'. split; [exact Hr|]. rewrite Hc. vm_compute. reflexivity.
Defined.
