(* ===== verification/JitAgree.v ===== *)
(** The compiler's decoder against the interpreter ([decode] in [src/jit.c] and
    [step] in [src/cpu.c]): what the compiler takes an instruction for is what
    the interpreter does for the same bytes. *)
From S2P Require Import Prelude.
From S2P Require Import Memory.
From S2P Require Import AddressSpace.
From S2P Require Import SampleHost.
From S2P Require Import Flags.
From S2P Require Import Float.
From S2P Require Import Machine.
From S2P Require Import Access.
From S2P Require Import Decode.
From S2P Require Import Sse.
From S2P Require Import Step.
From S2P Require Import Keeps.
From S2P Require Import Safety.
From S2P Require Import Registers.
From S2P Require Import Encoding.
From S2P Require Import Jit.
From S2P Require Import JitEmit.
From S2P Require Import JitFlags.
From S2P Require Import JitRegs.
From S2P Require Import JitLive.
From S2P Require Import JitBlock.

Section agree.
Context `{HostOS} `{HostFloat}.

(* ------------------------------------------------------------------ *)
(** ** Registers *)

(** The interpreter's register operands are those of the reference. *)
Lemma rd_operand r size rex m :
  size = 1 \/ size = 4 \/ size = 8 -> rd (reg_opnd r) size rex m = Ok (reg_rd rex (reg m) r size) m.
Proof.
  intros Hs. unfold rd, reg_rd, high_byte. cbn [is_reg reg_opnd o_reg].
  destruct Hs as [->|Hs].
  - cbn [Z.eqb Pos.eqb andb]. unfold getreg8. change 0xff with (Z.ones 8).
    destruct (negb rex && (4 <=? r) && (r <? 8)); unfold mbind, M_bind; rewrite getr_run;
      rewrite land_ones_uwrap by lia; done.
  - rewrite (proj2 (Z.eqb_neq size 1)) by lia. cbn [andb]. unfold getreg, mbind, M_bind. rewrite getr_run.
    rewrite trunc_sz_uwrap by (unfold opsize; lia). done.
Qed.

Lemma wr_operand r v size rex m :
  size = 1 \/ size = 4 \/ size = 8 -> regs_ok m -> greg r ->
  exists r' x, wr (reg_opnd r) v size rex m = Ok tt (set_reg r' x m) /\ greg r' /\ urange 64 x /\
    (forall j, greg j -> reg (set_reg r' x m) j = reg_wr rex (reg m) r v size j).
Proof.
  intros Hs Hm Hr. unfold wr, reg_wr. cbn [is_reg reg_opnd o_reg].
  assert (Hset : forall r' x, greg r' -> forall j, greg j -> reg (set_reg r' x m) j = upd_reg r' x (reg m) j).
  { intros r' x Hr' j Hj. rewrite reg_set by (done || apply Hj). done. }
  destruct (high_byte rex r size) eqn:E.
  - pose proof (high_byte_greg _ _ _ E) as [Hr4 ->]. cbn [Z.eqb Pos.eqb]. unfold high_byte in E. cbn [Z.eqb Pos.eqb andb] in E.
    unfold setreg8. rewrite E. unfold mbind, M_bind. rewrite getr_run, setr_run.
    destruct (bfi_high (reg m (r - 4)) v) as [_ Hx]; [by apply reg_range|].
    eexists _, _. split; [reflexivity|]. rewrite uwrap_small by done. split; [done|]. split; [done|]. by apply Hset.
  - assert (Hop : opsize size) by (unfold opsize; lia).
    exists r, (Registers.merged (reg m r) v size). split; [|split; [done|split; [|by apply Hset]]].
    + destruct (Z.eqb_spec size 1) as [->|Hn]; [|by apply setreg_run].
      unfold high_byte in E. cbn [Z.eqb Pos.eqb andb] in E. rewrite <- setreg_run by done.
      unfold setreg8, setreg. rewrite E. done.
    + apply Registers.merged_range; [done|by apply reg_range].
Qed.

(** An operation keeps the flags it does not write, so its flags fit. *)
Lemma helper_flags_range fn fl a b r size : opsize size -> urange 32 fl -> urange 32 (helper_flags fn fl a b r size).
Proof.
  intros Hs Hfl. destruct fn as [fn|]; [|done]. apply (urange_kept _ fl); [|done].
  apply Z.bits_inj'. intros i Hi. rewrite !Z.land_spec, !Z.lnot_spec by done.
  destruct (Z.testbit FL_ALL i) eqn:E; [by rewrite !andb_false_r|]. f_equal. apply flags_of_kept; [done|done|].
  apply (need_bit (fn_writes fn) FL_ALL); [apply fn_writes_all|done|done].
Qed.

(* ------------------------------------------------------------------ *)
(** ** The operation *)

(** The value an ALU opcode stores, and the flags it leaves. *)
Lemma alu_agrees k a b size m :
  opsize size -> is_one_of k [0; 1; 4; 5; 6; 7] = true -> urange 32 (c_flags (m_c m)) ->
  exists r, alu k a b size m =
    Ok (if k =? 7 then None else Some r)
      (upd_m (with_flags (helper_flags (op_helper (8 * k)) (c_flags (m_c m)) a b r size)) m) /\
    uwrap (size * 8) r = uwrap (size * 8) (op_value (8 * k) a b).
Proof.
  intros Hs Hk Hfl. pose proof (opsize_width _ Hs).
  assert (k = 0 \/ k = 1 \/ k = 4 \/ k = 5 \/ k = 6 \/ k = 7) as Hc.
  { unfold is_one_of in Hk. cbn [existsb] in Hk. lia. }
  unfold alu. repeat destruct Hc as [->|Hc]; [..|subst k]; cbn [Z.eqb Pos.eqb Z.mul Pos.mul]; unfold mbind, M_bind;
    rewrite upd_flags_run; eexists; (split; [reflexivity|]); cbn; try done; by rewrite uwrap_le by lia.
Qed.

(** The operation the compiler records for an opcode. *)
Definition dec_op (op : Z) : Z := if is_one_of op [0x84; 0x85] then 0x85 else op .& .~ 3.
Definition dec_to_reg (op : Z) : bool := nz (op .& 2) && negb (is_one_of op [0x84; 0x85]).
Definition dec_size (op wide : Z) : Z := if negb (nz (op .& 1)) then 1 else wide.

(** The opcodes of [dec_alu]: an ALU operation and a form, test, or mov. *)
Lemma dec_alu_forms op :
  is_dec_alu op = true -> 0 <= op ->
  (exists k, is_one_of k [0; 1; 4; 5; 6; 7] = true /\ (op <? 0x40) = true /\ op >> 3 = k /\ dec_op op = 8 * k) \/
  ((op <? 0x40) = false /\ is_one_of op [0x84; 0x85] = true /\ dec_op op = 0x85) \/
  ((op <? 0x40) = false /\ is_one_of op [0x84; 0x85] = false /\ dec_op op = 0x88).
Proof.
  intros Ha Hop0. unfold is_dec_alu in Ha. apply orb_true_iff in Ha as [Ha|Ha].
  - left. apply andb_true_iff in Ha as [[H1 H2]%andb_true_iff H3].
    assert (Hn : is_one_of op [0x84; 0x85] = false) by (unfold is_one_of; cbn [existsb]; lia).
    change 7 with (Z.ones 3) in H2. rewrite land_ones_uwrap in H2 by lia. unfold uwrap in H2. change (2 ^ 3) with 8 in H2.
    rewrite Z.shiftr_div_pow2 in * by lia. change (2 ^ 3) with 8 in *. unfold is_one_of in H3. cbn [existsb] in H3.
    exists (op / 8). split; [|split; [done|split; [done|]]].
    + assert (0 <= op / 8 < 8) by zdm. unfold is_one_of. cbn [existsb]. lia.
    + unfold dec_op. rewrite Hn. change 3 with (Z.ones 2).
      rewrite <- Z.ldiff_land, Z.ldiff_ones_r, Z.shiftl_mul_pow2, Z.shiftr_div_pow2 by lia.
      change (2 ^ 2) with 4. zdm.
  - right. unfold is_one_of in Ha. cbn [existsb] in Ha.
    assert (op = 0x84 \/ op = 0x85 \/ op = 0x88 \/ op = 0x89 \/ op = 0x8A \/ op = 0x8B) as Hc by lia.
    repeat destruct Hc as [->|Hc]; [left|left|right..|subst op; right]; done.
Qed.

(** What compiled and interpreted instructions must share. *)
Record agrees (s : gstate) (m m' : machine) : Prop := {
  ag_regs : forall j, greg j -> reg m' j = s.1 j;
  ag_flags : c_flags (m_c m') = s.2;
  ag_mem : mem_of m' = mem_of m;
  ag_as : m_as m' = m_as m
}.

Lemma op_result_value op size a b : opsize size -> uwrap (size * 8) (op_result op size a b) = uwrap (size * 8) (op_value op a b).
Proof.
  intros Hs. unfold op_result. apply uwrap_le. destruct Hs as [->|[->|[->| ->]]]; cbn; lia.
Qed.

(** An instruction that leaves flags, and one that writes a register too. *)
Lemma flags_only F rip m :
  urange 32 F -> urange 64 rip ->
  exists m', Ok tt (upd_m (with_flags F) (upd_m (with_rip rip) m)) = Ok tt m' /\ agrees (reg m, F) m m' /\ c_rip (m_c m') = rip.
Proof. intros HF Hrip. eexists. split; [reflexivity|]. split; [split; try done|]; by apply uwrap_small. Qed.

Lemma store_agrees dst v v' size rex m1 F rip m :
  size = 1 \/ size = 4 \/ size = 8 -> regs_ok m -> greg dst ->
  c_flags (m_c m1) = F -> c_rip (m_c m1) = rip -> reg m1 = reg m -> regs_ok m1 -> mem_of m1 = mem_of m -> m_as m1 = m_as m ->
  uwrap (size * 8) v' = uwrap (size * 8) v ->
  exists m', wr (reg_opnd dst) v size rex m1 = Ok tt m' /\
    agrees (reg_wr rex (reg m) dst v' size, F) m m' /\ c_rip (m_c m') = rip.
Proof.
  intros Hs Hm Hd HF Hrip Hr Hm1 Hmem Has Hv. destruct (wr_operand dst v size rex m1 Hs Hm1 Hd) as (r' & x & Hw & Hg' & Hx & Hj).
  exists (set_reg r' x m1). split; [done|]. split; [|done]. split; [|done..].
  intros j Hgj. rewrite Hj by done. cbn [fst]. rewrite Hr. by rewrite (reg_wr_mod _ _ _ v' v) by (done || unfold opsize; lia).
Qed.

(** The rest of an ALU instruction, once its operands are read: flags, then the
    result, unless there is none. *)
Definition alu_rest (op : Z) (dst : opnd) (a b sz : Z) (rex : bool) : M unit :=
  if op <? 0x40 then r ← alu (op >> 3) a b sz; store_result dst r sz rex
  else if is_one_of op [0x84; 0x85] then upd_flags (fun fl => flags_logic fl (a .& b) sz)
  else wr dst b sz rex.

Lemma alu_rest_run op dst a b size rex m :
  is_dec_alu op = true -> 0 <= op -> opsize size -> urange 32 (c_flags (m_c m)) ->
  let F := helper_flags (op_helper (dec_op op)) (c_flags (m_c m)) a b (op_result (dec_op op) size a b) size in
  exists r, uwrap (size * 8) r = uwrap (size * 8) (op_result (dec_op op) size a b) /\
    alu_rest op dst a b size rex m =
    (if is_one_of (dec_op op) [0x38; 0x85] then Ok tt (upd_m (with_flags F) m)
     else wr dst r size rex (upd_m (with_flags F) m)).
Proof.
  intros Hop Hop0 Hs Hfl F. unfold alu_rest. subst F.
  destruct (dec_alu_forms op Hop Hop0) as [(k & Hkl & -> & -> & ->)|[(-> & -> & ->)|(-> & -> & ->)]].
  - destruct (alu_agrees k a b size m Hs Hkl Hfl) as (v & Halu & Hv). exists v. split; [by rewrite Hv, op_result_value|].
    rewrite (bind_run _ _ _ _ _ Halu).
    rewrite (helper_flags_mod (op_helper (8 * k)) (c_flags (m_c m)) a a b b (op_result (8 * k) size a b) v size Hs eq_refl eq_refl)
      by by rewrite op_result_value.
    replace (is_one_of (8 * k) [56; 133]) with (k =? 7) by (unfold is_one_of in *; cbn [existsb] in *; lia).
    by destruct (k =? 7).
  - exists (op_result 0x85 size a b). split; [done|]. rewrite upd_flags_run. do 3 f_equal.
    apply (flags_of_mod fn_flags_logic _ a a b b); [done..|]. by rewrite op_result_value.
  - exists b. split; [by rewrite op_result_value|]. cbn [is_one_of existsb]. f_equal.
    destruct m as [[] as_ w cb cm]. unfold upd_m, with_flags. cbn in *. by rewrite uwrap_small.
Qed.

Lemma op_alu_rm_agrees d d1 op g r o m :
  is_dec_alu op = true -> 0 <= op -> greg g -> greg r -> d_opsize d = 4 \/ d_opsize d = 8 -> d_has_rex d1 = d_has_rex d ->
  modrm d m = Ok (g, reg_opnd r, d1) m -> regs_ok m -> urange 32 (c_flags (m_c m)) ->
  i_kind o = K_RR -> i_op o = dec_op op -> i_size o = dec_size op (d_opsize d) -> i_has_rex o = d_has_rex d ->
  i_reg o = (if dec_to_reg op then g else r) -> i_src o = (if dec_to_reg op then r else g) ->
  i_no_write o = is_one_of (dec_op op) [0x38; 0x85] ->
  exists m', op_alu_rm d op m = Ok tt m' /\ agrees (ref_alu o (reg m, c_flags (m_c m))) m m' /\ c_rip (m_c m') = dec_rip d1.
Proof.
  intros Hop Hop0 Hg Hr Hsz Hrex Hmod Hm Hfl Hk Eop Es Ex Er Esrc Enw.
  set (size := dec_size op (d_opsize d)) in *.
  assert (Hs : size = 1 \/ size = 4 \/ size = 8) by (subst size; unfold dec_size; destruct (nz _); cbn [negb]; tauto).
  assert (Hops : opsize size) by (unfold opsize; lia).
  set (m1 := upd_m (with_rip (dec_rip d1)) m).
  assert (Hadv : modrm_advance d m = Ok (g, reg_opnd r, d1) m1).
  { unfold modrm_advance. by rewrite (bind_run _ _ _ _ _ Hmod). }
  assert (Hpc : urange 64 (dec_rip d1)) by by apply uwrap_range.
  assert (Hrip : c_rip (m_c m1) = dec_rip d1) by by apply uwrap_small.
  unfold op_alu_rm. fold (dec_size op (d_opsize d)) (dec_to_reg op). fold size.
  rewrite (bind_run _ _ _ _ _ Hadv). cbv beta iota zeta.
  set (dst := if dec_to_reg op then g else r) in *. set (src := if dec_to_reg op then r else g) in *.
  replace (if dec_to_reg op then reg_opnd g else reg_opnd r) with (reg_opnd dst) by by subst dst; destruct (dec_to_reg op).
  replace (if dec_to_reg op then reg_opnd r else reg_opnd g) with (reg_opnd src) by by subst src; destruct (dec_to_reg op).
  assert (Hdst : greg dst) by by subst dst; destruct (dec_to_reg op).
  rewrite (bind_run _ _ _ _ _ (rd_operand dst size _ m1 Hs)), (bind_run _ _ _ _ _ (rd_operand src size _ m1 Hs)).
  rewrite Hrex. change (reg m1) with (reg m). unfold ref_alu, ref_op, operand2. cbn [fst snd].
  rewrite Hk, Eop, Es, Ex, Er, Esrc, Enw. change (bool_decide (K_RR = K_RI)) with false. cbv iota.
  set (a := reg_rd _ _ dst size). set (b := reg_rd _ _ src size).
  destruct (alu_rest_run op (reg_opnd dst) a b size (d_has_rex d) m1 Hop Hop0 Hops Hfl) as (v & Hv & Hrest).
  unfold alu_rest in Hrest. rewrite Hrest. change (c_flags (m_c m1)) with (c_flags (m_c m)).
  destruct (is_one_of (dec_op op) _).
  - apply flags_only; [by apply helper_flags_range|done].
  - apply store_agrees; try done; by apply uwrap_small, helper_flags_range.
Qed.

(* ------------------------------------------------------------------ *)
(** ** The bytes *)

(** An optional REX prefix, by its W bit and the registers [g], [x] and [b] of
    the reg field, the index and the r/m field or base. *)
Definition rex_value (pre : option bool) (g x b : Z) : Z :=
  match pre with Some w => rex_byte (bz w) (g / 8) (x / 8) (b / 8) | None => 0 end.
Definition rex_bytes (pre : option bool) (g x b : Z) : list Z :=
  match pre with Some _ => [rex_value pre g x b] | None => [] end.
Definition rex_len (pre : option bool) : Z := if pre then 1 else 0.

(** Without a prefix only the first eight registers can be named. *)
Definition nameable (pre : option bool) (r : Z) : Prop := match pre with Some _ => greg r | None => 0 <= r < 8 end.

Lemma nameable_greg pre r : nameable pre r -> greg r.
Proof. destruct pre; cbn; unfold greg; lia. Qed.

Definition wide_size (pre : option bool) : Z := if default false pre then 8 else 4.

(** The first opcode byte of an ALU instruction is no prefix. *)
Lemma dec_alu_byte op :
  is_dec_alu op = true -> 0 <= op ->
  (forall c d, prefix c op d = None) /\ (op .& 0xF0 =? 0x40) = false /\ is_one_of op [0x66; 0xF2; 0xF3] = false /\
  (forall d, exec_op d op = op_alu_rm d op) /\ op <> 0x0F.
Proof.
  intros Ha Hop0.
  assert (Hr : op < 0x40 \/ op = 0x84 \/ op = 0x85 \/ op = 0x88 \/ op = 0x89 \/ op = 0x8A \/ op = 0x8B).
  { unfold is_dec_alu, is_one_of in Ha. cbn [existsb] in Ha. lia. }
  destruct Hr as [Hr|Hr].
  - assert (In op (Z.of_nat <$> seq 0 64)) as Hin.
    { apply list_elem_of_In, list_elem_of_fmap. exists (Z.to_nat op). split; [lia|]. apply elem_of_seq. lia. }
    revert Ha. revert Hin. clear. cbn. intros Hin Ha.
    repeat destruct Hin as [<-|Hin]; try done; try (vm_compute in Ha; discriminate).
  - repeat destruct Hr as [->|Hr]; [..|subst op]; done.
Qed.

(** An opcode that is no prefix and starts no two-byte opcode. *)
Record plain_op (op : Z) : Prop := {
  pn_prefix : forall c d, prefix c op d = None;
  pn_rex : (op .& 0xF0 =? 0x40) = false;
  pn_mand : is_one_of op [0x66; 0xF2; 0xF3] = false
}.

Lemma dec_alu_plain op : is_dec_alu op = true -> 0 <= op -> plain_op op.
Proof. intros Ha Hop. destruct (dec_alu_byte op Ha Hop) as (? & ? & ? & _). by split. Qed.

(** The interpreter, up to the opcode. *)
Lemma exec_front rip m pre g x b op bs :
  nameable pre g -> nameable pre x -> nameable pre b -> plain_op op ->
  code_at m rip (rex_bytes pre g x b ++ op :: bs) ->
  let m0 := upd_m (with_cur_rip rip) m in
  exists d, exec_insn rip m = exec_op d op m0 /\ code_at m0 (d_p d) bs /\ d_p d = rip + rex_len pre + 1 /\
    (rex_r d = g / 8 * 8 /\ rex_x d = x / 8 * 8 /\ rex_b d = b / 8 * 8) /\ d_opsize d = wide_size pre /\
    d_has_rex d = bool_decide (is_Some pre) /\ d_seg_base d = 0 /\
    (forall n, dec_rip (with_p (d_p d + n) d) = u64 (rip + rex_len pre + 1 + n)).
Proof.
  intros Hg Hx Hr [Hp H4 _] Hc m0. destruct pre as [w|]; cbn [rex_bytes rex_value app rex_len nameable] in *.
  - destruct (half_bit g Hg) as [Hgb Hg8]. destruct (half_bit b Hr) as [Hrb Hr8]. destruct (half_bit x Hx) as [Hxb Hx8].
    assert (Hwb : bit (bz w)) by (destruct w; [by right|by left]).
    destruct (exec_rex rip m _ _ _ _ _ _ Hwb Hgb Hxb Hrb Hc) as [He Hc'].
    destruct (rex_byte_fields _ _ _ _ Hwb Hgb Hxb Hrb) as (_ & _ & H4' & H2' & H1 & _).
    eexists. split; [exact He|]. split; [exact Hc'|]. split; [cbn; lia|]. split; [split_and!|].
    + unfold rex_r. cbn [d_rex with_p rex_dec]. by rewrite H4'.
    + unfold rex_x. cbn [d_rex with_p rex_dec]. by rewrite H2'.
    + unfold rex_b. cbn [d_rex with_p rex_dec]. by rewrite H1.
    + split; [by destruct w|]. split; [done|]. split; [done|]. intros n. unfold dec_rip. cbn. f_equal. lia.
  - apply code_at_cons in Hc as [Ho Hbs].
    exists (with_p (rip + 1) (start_dec rip)). split.
    + assert (Hpre : forall n, prefixes (S n) (start_dec rip) m0 = Ok (start_dec rip) m0).
      { intros n. cbn [prefixes]. rewrite (bind_run _ _ _ _ _ (host_read1 m0 _ _ Ho)).
        erewrite bind_run by reflexivity. by rewrite Hp. }
      assert (Hrex : rex_prefix (start_dec rip) m0 = Ok (start_dec rip) m0).
      { unfold rex_prefix. rewrite (bind_run _ _ _ _ _ (host_read1 m0 _ _ Ho)). by rewrite H4. }
      unfold exec_insn. rewrite (bind_run _ _ m tt m0), (bind_run _ _ m0 (prefix_fuel m0) m0) by done. unfold prefix_fuel.
      rewrite (bind_run _ _ _ _ _ (Hpre _)), (bind_run _ _ _ _ _ Hrex).
      by erewrite bind_run by (apply fetch8_run; exact Ho).
    + split; [exact Hbs|]. split; [cbn; lia|].
      assert (Hg8 : g / 8 = 0) by zdm. assert (Hr8 : b / 8 = 0) by zdm. assert (Hx8 : x / 8 = 0) by zdm.
      rewrite Hg8, Hr8, Hx8. split; [done|]. split; [done|]. split; [done|]. split; [done|].
      intros n. unfold dec_rip. cbn. f_equal. lia.
Qed.

(** The compiler's decoder. *)
Lemma rd8_run p n m b : code_at m (p + n) [b] -> rd8 p n m = Ok (b, n + 1) m.
Proof. intros Hc. unfold rd8. by rewrite (bind_run _ _ _ _ _ (host_read1 m _ _ Hc)). Qed.

Lemma rex_exts pre g x b :
  nameable pre g -> nameable pre x -> nameable pre b ->
  rex_ext (rex_value pre g x b) 4 = g / 8 * 8 /\ rex_ext (rex_value pre g x b) 2 = x / 8 * 8 /\
  rex_ext (rex_value pre g x b) 1 = b / 8 * 8 /\ nz (rex_value pre g x b .& 8) = default false pre.
Proof.
  intros Hg Hx Hb. unfold rex_ext. destruct pre as [w|]; cbn [rex_value nameable default] in *.
  - destruct (half_bit g Hg) as [Hgb Hg8]. destruct (half_bit b Hb) as [Hbb Hb8]. destruct (half_bit x Hx) as [Hxb Hx8].
    assert (Hwb : bit (bz w)) by (destruct w; [by right|by left]).
    destruct (rex_byte_fields _ _ _ _ Hwb Hgb Hxb Hbb) as (_ & -> & -> & -> & -> & _).
    rewrite Hg8, Hx8, Hb8. by destruct w.
  - assert (Hg8 : g / 8 = 0) by zdm. assert (Hx8 : x / 8 = 0) by zdm. assert (Hb8 : b / 8 = 0) by zdm. by rewrite Hg8, Hx8, Hb8.
Qed.

(** The fields of a ModRM byte. *)
Lemma rex_fields mod_ pre g x r :
  0 <= mod_ <= 3 -> nameable pre g -> nameable pre x -> nameable pre r ->
  reg_field (rex_value pre g x r) (modrm_byte mod_ g r) = g /\ rm_field (rex_value pre g x r) (modrm_byte mod_ g r) = r.
Proof.
  intros Hm Hg Hx Hr. destruct (modrm_fields mod_ g r Hm) as (_ & E3 & E7). destruct (rex_exts pre g x r Hg Hx Hr) as (E4 & _ & E1 & _).
  unfold reg_field, rm_field. rewrite E3, E7, E4, E1, !reg_halves by by eapply nameable_greg. done.
Qed.

(** What [dec_alu] makes of a register form. *)
Definition alu_insn (pre : option bool) (op g r rip : Z) : insn :=
  let n := rex_len pre + 2 in
  let o := iw_has_rex (bool_decide (is_Some pre)) (iw_size (wide_size pre) zero_insn) in
  let o := if negb (nz (op .& 1)) then iw_size 1 o else o in
  let o := iw_kind K_RR (iw_reg (if dec_to_reg op then g else r) (iw_src (if dec_to_reg op then r else g) o)) in
  iw_next (u64 (rip + n)) (iw_len n (iw_no_write (is_one_of (dec_op op) [0x38; 0x85]) (iw_op (dec_op op) o))).

Lemma dec_alu_run pre g r op p n o m :
  nameable pre g -> nameable pre r -> code_at m (p + n) [modrm_byte 3 g r] ->
  dec_alu p n (rex_value pre g 0 r) op o m =
  Ok (Some (n + 1, iw_no_write (is_one_of (dec_op op) [0x38; 0x85]) (iw_op (dec_op op)
    (iw_kind K_RR (iw_reg (if dec_to_reg op then g else r) (iw_src (if dec_to_reg op then r else g)
      (if (op .& 1 =? 0) || is_one_of op [0x88; 0x8A] then iw_size 1 o else o))))))) m.
Proof.
  intros Hg Hr Hc. destruct (rex_fields 3 pre g 0 r ltac:(lia) Hg ltac:(by destruct pre) Hr) as (Er & Em).
  unfold dec_alu. rewrite (bind_run _ _ _ _ _ (rd8_run _ _ _ _ Hc)). cbv beta iota zeta.
  destruct (modrm_fields 3 g r ltac:(lia)) as (E6 & _ & _). rewrite E6. cbn [Z.eqb Pos.eqb].
  rewrite Er, Em. unfold mbind, M_bind, mret, M_ret. done.
Qed.

(** An even opcode is a byte operation. *)
Lemma dec_byte op : (op .& 1 =? 0) || is_one_of op [0x88; 0x8A] = negb (nz (op .& 1)).
Proof.
  unfold nz. rewrite negb_involutive. destruct (op .& 1 =? 0) eqn:E; [done|].
  destruct (is_one_of op [0x88; 0x8A]) eqn:E2; [|done]. unfold is_one_of in E2. cbn [existsb] in E2.
  assert (op = 0x88 \/ op = 0x8A) as [->| ->] by lia; done.
Qed.

(** The compiler's decoder, up to the opcode, and behind it. *)
Definition blank (pre : option bool) : insn := iw_has_rex (bool_decide (is_Some pre)) (iw_size (wide_size pre) zero_insn).

Definition finished (rip n : Z) (o : insn) : insn :=
  let o := iw_next (u64 (rip + n)) (iw_len n o) in
  match i_kind o with
  | K_JCC | K_JMP | K_CALL => iw_target (u64 (i_next o + i_imm o)) o
  | _ => o
  end.

Lemma decode_front pre g x b op bs rip n o m :
  nameable pre g -> nameable pre x -> nameable pre b -> plain_op op ->
  code_at m rip (rex_bytes pre g x b ++ op :: bs) ->
  (code_at m (rip + (rex_len pre + 1)) bs ->
    decode_op rip (rex_len pre + 1) (rex_value pre g x b) 0 op (blank pre) m = Ok (Some (n, o)) m) ->
  decode rip rip m = Ok (Some (finished rip n o)) m.
Proof.
  intros Hg Hx Hb [Hpn H4 Hpre] Hc Hop. destruct (rex_exts pre g x b Hg Hx Hb) as (_ & _ & _ & E8).
  unfold decode, blank in *. destruct pre as [w|]; cbn [rex_bytes rex_len app nameable default] in *.
  - destruct (half_bit g Hg) as [Hgb _]. destruct (half_bit b Hb) as [Hbb _]. destruct (half_bit x Hx) as [Hxb _].
    assert (Hwb : bit (bz w)) by (destruct w; [by right|by left]). cbn [rex_value] in *.
    destruct (rex_byte_fields _ _ _ _ Hwb Hgb Hxb Hbb) as (H40 & _).
    assert (Hnm : is_one_of (rex_byte (bz w) (g / 8) (x / 8) (b / 8)) [0x66; 0xF2; 0xF3] = false).
    { by destruct Hgb as [-> | ->], Hbb as [-> | ->], Hxb as [-> | ->], w. }
    set (rex := rex_byte _ _ _ _) in *. apply code_at_cons in Hc as [Hrex Hc]. apply code_at_cons in Hc as [Ho Hm].
    rewrite (bind_run _ _ _ _ _ (rd8_run rip 0 m rex ltac:(by rewrite Z.add_0_r))).
    cbv beta iota. rewrite Hnm. erewrite bind_run by reflexivity. cbv beta iota. rewrite H40. cbn [Z.eqb Pos.eqb].
    erewrite bind_run by (rewrite (bind_run _ _ _ _ _ (rd8_run rip 1 m op Ho)); reflexivity). cbv beta iota zeta.
    cbn [nz Z.eqb negb andb].
    erewrite bind_run by (rewrite E8; replace (wide_size (Some w)) with (if w then 8 else 4) in Hop by (by destruct w);
      apply Hop; by rewrite Z.add_assoc). done.
  - apply code_at_cons in Hc as [Ho Hm].
    rewrite (bind_run _ _ _ _ _ (rd8_run rip 0 m op ltac:(by rewrite Z.add_0_r))).
    cbv beta iota. rewrite Hpre. erewrite bind_run by reflexivity. cbv beta iota. rewrite H4.
    erewrite bind_run by reflexivity. cbv beta iota zeta.
    cbn [nz Z.eqb negb andb]. erewrite bind_run by (apply Hop; done). done.
Qed.

Lemma decode_alu_run pre g r op rip m :
  nameable pre g -> nameable pre r -> is_dec_alu op = true -> 0 <= op ->
  code_at m rip (rex_bytes pre g 0 r ++ [op; modrm_byte 3 g r]) ->
  decode rip rip m = Ok (Some (alu_insn pre op g r rip)) m.
Proof.
  intros Hg Hr Hop Hop0 Hc. assert (Hx : nameable pre 0) by (by destruct pre).
  rewrite (decode_front pre g 0 r op _ rip (rex_len pre + 2) (iw_no_write (is_one_of (dec_op op) [0x38; 0x85]) (iw_op (dec_op op)
    (iw_kind K_RR (iw_reg (if dec_to_reg op then g else r) (iw_src (if dec_to_reg op then r else g)
      (if negb (nz (op .& 1)) then iw_size 1 (blank pre) else blank pre)))))) m Hg Hx Hr (dec_alu_plain op Hop Hop0) Hc); [done|].
  intros Hm. unfold decode_op. rewrite Hop, dec_alu_run by done. rewrite dec_byte, <- Z.add_assoc. reflexivity.
Qed.

Lemma reg_sem_rr o R fl : i_kind o = K_RR -> reg_sem o R fl = ref_alu o (R, fl).
Proof. intros E. unfold reg_sem. by rewrite E. Qed.

(** The compiler and the interpreter take ALU instructions between
    registers for the same thing.  For each of add, or, and, sub, xor, cmp, test
    and mov, in every form with a register operand on both sides, with or
    without REX, on bytes (the legacy high ones included), doublewords and
    quadwords: [decode] accepts the bytes, and the interpreter, run on them,
    leaves the registers and flags the compiler's record of the instruction
    stands for, the instruction pointer where the record says the next
    instruction is, and memory as it was. *)
Theorem decode_alu_agrees pre op g r rip m :
  regs_ok m -> urange 32 (c_flags (m_c m)) -> is_dec_alu op = true -> 0 <= op -> nameable pre g -> nameable pre r ->
  code_at m rip (rex_bytes pre g 0 r ++ [op; modrm_byte 3 g r]) ->
  exists o m', decode rip rip m = Ok (Some o) m /\ i_kind o = K_RR /\ exec_insn rip m = Ok tt m' /\
    agrees (reg_sem o (reg m) (c_flags (m_c m))) m m' /\ c_rip (m_c m') = i_next o.
Proof.
  intros Hm Hfl Hop Hop0 Hg Hr Hc. exists (alu_insn pre op g r rip).
  destruct (exec_front rip m pre g 0 r op [modrm_byte 3 g r] Hg ltac:(by destruct pre) Hr (dec_alu_plain op Hop Hop0) Hc)
    as (d & He & Hc' & Hp & (Erex & _ & Eb) & Es & Ex & _ & Hrip).
  destruct (dec_alu_byte op Hop Hop0) as (_ & _ & _ & Hexec & _). rewrite Hexec in He.
  set (m0 := upd_m (with_cur_rip rip) m) in *.
  assert (Hmod : modrm d m0 = Ok (g, reg_opnd r, with_p (d_p d + 1) d) m0).
  { rewrite (modrm_start 3 g r d m0); [|lia|by eapply nameable_greg|done|exact Hc'].
    cbn [Z.eqb Pos.eqb]. change (rex_b (with_p (d_p d + 1) d)) with (rex_b d).
    rewrite Eb, reg_halves by by eapply nameable_greg. done. }
  destruct (op_alu_rm_agrees d (with_p (d_p d + 1) d) op g r (alu_insn pre op g r rip) m0) as (m' & Hx & [A1 A2 A3 A4] & A5);
    try done; [by eapply nameable_greg|by eapply nameable_greg|rewrite Es; destruct pre as [[]|]; cbn; auto
    |rewrite Es; unfold alu_insn, dec_size; cbn; by destruct (negb (nz (op .& 1)))
    |unfold alu_insn; rewrite Ex; cbn; by destruct (negb (nz (op .& 1)))|].
  exists m'. split; [by apply decode_alu_run|]. split; [done|]. split; [by rewrite He|]. split.
  - rewrite reg_sem_rr by done. by split.
  - rewrite A5, Hrip. unfold alu_insn. cbn [i_next iw_next]. f_equal. lia.
Qed.
End agree.

(* ------------------------------------------------------------------ *)
(** ** A concrete instruction *)

#[local] Existing Instance sample_host.

(** mov ah, bl *)
Lemma decode_alu_agrees_witness :
  let L := Build_Linked (fun _ => 0x1234) in
  let m := set_reg RBX 0x77 (sample_guest [0x88; 0xDC]) in
  exists o m', decode 0x10000 0x10000 m = Ok (Some o) m /\
    exec_insn (H0 := Build_HostFloat id id) 0x10000 m = Ok tt m' /\ reg m' RAX = 0x7700 /\ c_rip (m_c m') = 0x10002.
Proof.
  intros L m.
  destruct (decode_alu_agrees (H0 := Build_HostFloat id id) None 0x88 3 4 0x10000 m) as (o & m' & Hd & Hk & Hx & Ha & Hr);
    [apply set_reg_ok; [apply regs_ok_wf, reset_cpu_wf|done]|done|done|done|done|done|vm_compute; reflexivity|].
  exists o, m'. split; [exact Hd|]. split; [exact Hx|].
  assert (Ho : match decode 0x10000 0x10000 m with
    | Ok (Some o) _ => ((reg_sem o (reg m) (c_flags (m_c m))).1 RAX =? 0x7700) && (i_next o =? 0x10002)
    | _ => false end = true) by (vm_compute; reflexivity).
  rewrite Hd in Ho. apply andb_true_iff in Ho as [Ho1%Z.eqb_eq Ho2%Z.eqb_eq].
  split; [|by rewrite Hr]. destruct Ha as [Ha _ _ _]. rewrite (Ha RAX); [exact Ho1|unfold greg, RAX; lia].
Defined.
