(* ===== verification/JitArena.v ===== *)
(** The arena and the cache, kept in order ([rsd_jit_init] and
    [rsd_jit_lookup] in [src/jit.c]): compiled code stays inside the arena, is
    never written over, and is found again. *)
From S2P Require Import Prelude.
From S2P Require Import Memory.
From S2P Require Import AddressSpace.
From S2P Require Import SampleHost.
From S2P Require Import Flags.
From S2P Require Import Stubs.
From S2P Require Import Machine.
From S2P Require Import Access.
From S2P Require Import Keeps.
From S2P Require Import Encoding.
From S2P Require Import Emit.
From S2P Require Import Jit.
From S2P Require Import JitEmit.
From S2P Require Import JitInsn.
From S2P Require Import JitCache.
From S2P Require Import JitFlags.
From S2P Require Import JitLive.
From S2P Require Import JitBlock.
From S2P Require Import JitCompile.

(* ------------------------------------------------------------------ *)
(** ** Decoding changes nothing *)

Section reads.
Context `{HostOS}.

#[local] Abbreviation reads c := (keeps eq c).

Lemma reads_rd8 p n : reads (rd8 p n).
Proof. unfold rd8. keeps_tac. Qed.
Lemma reads_rd32 p n : reads (rd32 p n).
Proof. unfold rd32. keeps_tac. Qed.
Lemma reads_rd64 p n : reads (rd64 p n).
Proof. unfold rd64. keeps_tac. Qed.
#[local] Hint Resolve reads_rd8 reads_rd32 reads_rd64 : keeps.

Lemma reads_add_disp p n md a : reads (add_disp p n md a).
Proof. unfold add_disp. keeps_tac. Qed.
#[local] Hint Resolve reads_add_disp : keeps.
Lemma reads_modrm_mem p n rex m : reads (modrm_mem p n rex m).
Proof. unfold modrm_mem. keeps_tac. Qed.
#[local] Hint Resolve reads_modrm_mem : keeps.
Lemma reads_rm_or_mem p n rex m f o : reads (rm_or_mem p n rex m f o).
Proof. unfold rm_or_mem. keeps_tac. Qed.
Lemma reads_imm_s8 p n : reads (imm_s8 p n).
Proof. unfold imm_s8. keeps_tac. Qed.
Lemma reads_imm_s32 p n : reads (imm_s32 p n).
Proof. unfold imm_s32. keeps_tac. Qed.
#[local] Hint Resolve reads_rm_or_mem reads_imm_s8 reads_imm_s32 : keeps.

Lemma reads_decode_sse p n rex mand op2 o : reads (decode_sse p n rex mand op2 o).
Proof. unfold decode_sse. keeps_tac. Qed.
#[local] Hint Resolve reads_decode_sse : keeps.
Lemma reads_0f p n rex mand o : reads (dec_0f p n rex mand o).
Proof. unfold dec_0f. keeps_tac. Qed.
#[local] Hint Resolve reads_0f : keeps.

Lemma reads_decode_op p n rex mand op o : reads (decode_op p n rex mand op o).
Proof.
  unfold decode_op, dec_alu, dec_grp1, dec_acc, dec_mov_imm, dec_shift, dec_imul_imm, dec_lea, dec_push_pop, dec_grp5.
  keeps_tac.
Qed.
#[local] Hint Resolve reads_decode_op : keeps.

Lemma reads_decode p rip : reads (decode p rip).
Proof. unfold decode. keeps_tac. Qed.
#[local] Hint Resolve reads_decode : keeps.

Lemma reads_decode_block room pc : reads (decode_block room pc).
Proof. revert pc. induction room as [|room IH]; intros pc; cbn [decode_block]; keeps_tac. Qed.
End reads.

(* ------------------------------------------------------------------ *)
(** ** The invariant *)

(** An entry holds code inside the used part of the arena, or none. *)
Definition entry_ok (j : rsd_jit) (e : rsd_jit_entry) : Prop :=
  if je_code e =? 0 then je_count e = 0
  else j_arena j <= je_code e < j_arena j + j_used j /\ 2 <= je_count e <= Z.of_nat MAX_INSNS.

Record jit_ok (j : rsd_jit) : Prop := {
  jo_arena : 0 < j_arena j;
  jo_used : 0 <= j_used j <= j_size j;
  jo_bits : 0 < j_cache_bits j <= 64;
  jo_cache : length (j_cache j) = Z.to_nat (2 ^ j_cache_bits j);
  jo_entries : Forall (entry_ok j) (j_cache j)
}.

Lemma slot_range j rip : jit_ok j -> 0 <= slot_of j rip < 2 ^ j_cache_bits j.
Proof.
  intros [_ _ Hb _ _]. unfold slot_of. rewrite Z.shiftr_div_pow2 by lia.
  pose proof (uwrap_range 64 (rip * 0x9E3779B97F4A7C15) ltac:(lia)) as Hr. unfold urange in Hr.
  assert (Hp : 2 ^ 64 = 2 ^ (64 - j_cache_bits j) * 2 ^ j_cache_bits j) by (rewrite <- Z.pow_add_r by lia; f_equal; lia).
  assert (0 < 2 ^ (64 - j_cache_bits j)) by (apply Z.pow_pos_nonneg; lia).
  split; [apply Z.div_pos; lia|apply Z.div_lt_upper_bound; lia].
Qed.

Lemma slot_lookup j s : jit_ok j -> 0 <= s < 2 ^ j_cache_bits j -> exists e, j_cache j !! Z.to_nat s = Some e /\ entry_at j s = e.
Proof.
  intros [_ _ Hb Hl _] Hs. destruct (lookup_lt_is_Some_2 (j_cache j) (Z.to_nat s)) as [e He]; [lia|].
  exists e. split; [done|]. unfold entry_at. by rewrite He.
Qed.

Lemma entry_at_ok j s : jit_ok j -> 0 <= s < 2 ^ j_cache_bits j -> entry_ok j (entry_at j s).
Proof.
  intros Hj Hs. destruct (slot_lookup j s Hj Hs) as (e & He & ->). eapply Forall_lookup_1; [apply Hj|done].
Qed.

Lemma entry_at_set j s s' e used compiled bailed :
  jit_ok j -> 0 <= s < 2 ^ j_cache_bits j -> 0 <= s' ->
  entry_at (set_entry j s e used compiled bailed) s' = if s' =? s then e else entry_at j s'.
Proof.
  intros [_ _ Hb Hl _] Hs Hs'. unfold entry_at, set_entry. cbn [j_cache].
  destruct (Z.eqb_spec s' s) as [->|Hn].
  - rewrite list_lookup_insert_eq by lia. done.
  - rewrite list_lookup_insert_ne by lia. done.
Qed.

(** More room used, one entry replaced. *)
Lemma jit_ok_set j s e used compiled bailed :
  jit_ok j -> j_used j <= used <= j_size j ->
  entry_ok (Jit (j_arena j) (j_size j) used [] 0 0 0 0 None) e ->
  jit_ok (set_entry j s e used compiled bailed).
Proof.
  intros [Ha Hu Hb Hl He] Hused Hnew. split; cbn; [done|lia|done|by rewrite length_insert|].
  apply Forall_insert; [|exact Hnew]. eapply Forall_impl; [exact He|].
  intros x. unfold entry_ok. cbn. destruct (je_code x =? 0); [done|lia].
Qed.

(* ------------------------------------------------------------------ *)
(** ** A lookup *)

Section lookup.
Context `{Linked} `{HostOS}.

Lemma decode_block_length room pc m v ended pc' m' :
  decode_block room pc m = Ok (v, ended, pc') m' -> (length v <= room)%nat /\ m' = m.
Proof.
  intros Hd. pose proof (reads_decode_block room pc m _ m' Hd) as <-. split; [|done].
  revert pc v ended pc' Hd. induction room as [|room IH]; intros pc v ended pc'; cbn [decode_block]; [by intros [= <- _ _]|].
  intros (s & m1 & [= <- <-] & Hd)%bind_ok. destruct (rsd_as_ok _ _ _ _); cbn [negb] in Hd; [|injection Hd as <- _ _; cbn; lia].
  apply bind_ok in Hd as (r & m1 & Hr & Hd). pose proof (reads_decode _ _ _ _ _ Hr) as <-.
  destruct r as [o|]; [|injection Hd as <- _ _; cbn; lia].
  destruct (terminates (i_kind o)); [injection Hd as <- _ _; cbn; lia|].
  apply bind_ok in Hd as ([[v' e'] p'] & m1 & Hb & Hd). injection Hd as <- _ _ <-.
  pose proof (reads_decode_block _ _ _ _ _ Hb) as _. apply IH in Hb. cbn. lia.
Qed.

Lemma put_nonempty w b : b_full (put w b).2 = false -> 1 <= b_n (put w b).2.
Proof.
  unfold put, b_n. destruct (b_max b <=? _); cbn; [done|]. intros _. rewrite length_app. cbn. lia.
Qed.

Lemma close_block_nonempty ended pc b exit_at b' : close_block ended pc b = (exit_at, b') -> b_full b' = false -> 1 <= b_n b'.
Proof.
  unfold close_block, put_leave, mbind, E_bind. destruct (ewhen _ _ b) as [[] b1]. unfold here.
  destruct (put (a64_ldr _ _ _) b1) as [[] b2]. destruct (put (a64_pop A64_X30) b2) as [[] b3].
  destruct (put a64_ret b3) as [[] b4] eqn:E. intros [= <- <-] Hf.
  pose proof (put_nonempty a64_ret b3) as Hn. rewrite E in Hn. by apply Hn.
Qed.

Lemma length_patch_fixes exit_at b : length (patch_fixes exit_at b) = length (b_out b).
Proof.
  unfold patch_fixes. generalize (b_out b). induction (b_fix b) as [|at_ fx IH]; intros ws; cbn [foldl]; [done|].
  by rewrite IH, length_insert.
Qed.

Lemma length_code_bytes ws : length (code_bytes ws) = (4 * length ws)%nat.
Proof. unfold code_bytes. induction ws as [|w ws IH]; [done|]. cbn [fmap list_fmap concat]. rewrite length_app, IH, length_le_bytes. cbn. lia. Qed.

(** The outcome of a lookup: the structure [j'] it leaves, on memory [mem'],
    with the code of the block or 0. *)
Record looked_up (j : rsd_jit) (rip : Z) (mem : gmap Z Z) (j' : rsd_jit) (code : Z) (mem' : gmap Z Z) : Prop := {
  lu_ok : jit_ok j';
  lu_arena : j_arena j' = j_arena j /\ j_size j' = j_size j /\ j_cache_bits j' = j_cache_bits j;
  lu_used : j_used j <= j_used j';
  lu_mem : forall i, ~ j_arena j + j_used j <= i < j_arena j + j_used j' -> mem' !! i = mem !! i;
  lu_code : code = 0 \/ j_arena j <= code < j_arena j + j_used j';
  lu_slot : forall s, 0 <= s < 2 ^ j_cache_bits j -> je_code (entry_at j s) <> 0 -> entry_at j' s = entry_at j s;
  lu_again : code <> 0 -> je_tag (entry_at j' (slot_of j' rip)) = rip /\ je_code (entry_at j' (slot_of j' rip)) = code
}.

Lemma looked_up_same j rip mem code :
  jit_ok j -> (code = 0 \/ je_tag (entry_at j (slot_of j rip)) = rip /\ je_code (entry_at j (slot_of j rip)) = code) ->
  looked_up j rip mem j code mem.
Proof.
  intros Hj Hc. split; try done.
  - destruct Hc as [->|[_ <-]]; [by left|]. pose proof (entry_at_ok j _ Hj (slot_range j rip Hj)) as He.
    unfold entry_ok in He. destruct (Z.eqb_spec (je_code (entry_at j (slot_of j rip))) 0); [by left|right; apply He].
  - destruct Hc as [->|Hc]; [done|]. intros _. exact Hc.
Qed.

(** Where nothing was compiled, [bail] only marks the entry. *)
Lemma looked_up_bail j rip mem :
  jit_ok j -> je_code (entry_at j (slot_of j rip)) = 0 -> looked_up j rip mem (bail j rip (slot_of j rip)) 0 mem.
Proof.
  intros Hj Hc. pose proof (slot_range j rip Hj) as Hs. pose proof (entry_at_ok j _ Hj Hs) as He.
  unfold entry_ok in He. rewrite Hc in He. cbn in He. split; try done; [|by left|].
  - apply jit_ok_set; [done|pose proof (jo_used j Hj); lia|]. unfold entry_ok. cbn. exact He.
  - intros s Hs' Hn. unfold bail. rewrite entry_at_set by (done || lia). destruct (Z.eqb_spec s (slot_of j rip)) as [->|]; congruence.
Qed.

(** Where a block was compiled, its words follow the code before them. *)
Lemma looked_up_compiled j rip mem ws count compiled :
  jit_ok j -> je_code (entry_at j (slot_of j rip)) = 0 -> 1 <= Z.of_nat (length ws) ->
  j_used j + Z.of_nat (length ws) * 4 <= j_size j -> 2 <= count <= Z.of_nat MAX_INSNS ->
  let code := j_arena j + j_used j in
  looked_up j rip mem
    (set_entry j (slot_of j rip) (JitEntry rip code (u32 count)) (j_used j + Z.of_nat (length ws) * 4) compiled (j_bailed j))
    code (write_bytes mem code (code_bytes ws)).
Proof.
  intros Hj Hc Hws Hroom Hcount code. pose proof (slot_range j rip Hj) as Hs. pose proof Hj as [Ha Hu _ _ _].
  assert (Hu32 : u32 count = count) by (apply uwrap_small; unfold urange; change (Z.of_nat MAX_INSNS) with 48 in Hcount; lia).
  assert (Hnz : je_code (JitEntry rip code (u32 count)) =? 0 = false) by (cbn; subst code; lia).
  split.
  - apply jit_ok_set; [done|lia|]. unfold entry_ok. rewrite Hnz. cbn [je_code je_count j_arena j_used]. rewrite Hu32. subst code. lia.
  - done.
  - cbn [set_entry j_used]. lia.
  - intros i Hi. apply write_bytes_outside. rewrite length_code_bytes. cbn [set_entry j_used] in Hi. subst code. lia.
  - right. cbn [set_entry j_used]. subst code. lia.
  - intros s Hs' Hn. rewrite entry_at_set by (done || lia). destruct (Z.eqb_spec s (slot_of j rip)) as [->|]; congruence.
  - intros _. change (slot_of (set_entry _ _ _ _ _ _) rip) with (slot_of j rip). rewrite entry_at_set by (done || lia).
    by rewrite Z.eqb_refl.
Qed.

(** The lookup that compiles, or does not. *)
Lemma rsd_jit_lookup_ok j rip m j' code m' :
  jit_ok j -> rsd_jit_lookup j rip m = Ok (j', code) m' ->
  looked_up j rip (mem_of m) j' code (mem_of m') /\ m_c m' = m_c m /\ m_as m' = m_as m.
Proof.
  intros Hj. unfold rsd_jit_lookup. set (s := slot_of j rip). set (e := entry_at j s).
  destruct (Z.eqb_spec (je_tag e) rip) as [Et|_].
  { intros [= <- <- <-]. split; [|done]. apply looked_up_same; [done|by right]. }
  unfold nz at 1. destruct (Z.eqb_spec (je_code e) 0) as [Ec|_]; cbn [negb].
  2:{ intros [= <- <- <-]. split; [|done]. apply looked_up_same; [done|by left]. }
  intros (stubs & m1 & [= <- <-] & Hr)%bind_ok.
  destruct (0 <=? rsd_stub_index _ _).
  { injection Hr as <- <- <-. split; [|done]. apply looked_up_same; [done|by left]. }
  apply bind_ok in Hr as (as_ & m1 & [= <- <-] & Hr).
  destruct (negb (rsd_as_ok _ _ _ _)).
  { injection Hr as <- <- <-. split; [|done]. apply looked_up_same; [done|by left]. }
  apply bind_ok in Hr as ([[v ended] pc] & m1 & Hd & Hr).
  apply decode_block_length in Hd as [Hlen ->].
  apply bind_ok in Hr as (check & m1 & [= <- <-] & Hr).
  destruct (emit_block_ok (S (length v)) (c_jit_check (m_c m)) rip v ended pc ltac:(lia))
    as (v' & e' & p' & b & k & He & [Hk Hv _ _ _]). rewrite He in Hr.
  assert (Hcount : (length v' <= MAX_INSNS)%nat).
  { rewrite Hv, length_flag_liveness, length_take. lia. }
  destruct (Z.ltb_spec (Z.of_nat (length v')) 2) as [|H2].
  { injection Hr as <- <- <-. split; [|done]. by apply looked_up_bail. }
  destruct (close_block _ _ _) as [exit_at b'] eqn:Hclose.
  destruct (b_full b') eqn:Hfull.
  { injection Hr as <- <- <-. split; [|done]. by apply looked_up_bail. }
  destruct (Z.ltb_spec (j_size j) (j_used j + b_n b' * 4)) as [|Hroom].
  { injection Hr as <- <- <-. split; [|done]. apply looked_up_same; [done|by left]. }
  apply bind_ok in Hr as ([] & m1 & [-> _]%host_store_ok & Hr). injection Hr as <- <- <-.
  pose proof (close_block_nonempty _ _ _ _ _ Hclose Hfull) as Hne. pose proof (length_patch_fixes exit_at b') as Hl.
  unfold b_n in *. rewrite <- Hl in *. split; [|done]. apply looked_up_compiled; [done..|]. split; [done|]. lia.
Qed.

(* ------------------------------------------------------------------ *)
(** ** Any sequence of lookups *)

(** Lookups, between which the guest runs and everything but the arena may
    change. *)
Inductive jit_steps : rsd_jit -> gmap Z Z -> rsd_jit -> gmap Z Z -> Prop :=
| js_refl j mem : jit_steps j mem j mem
| js_lookup j mem j1 m rip code j2 m2 :
    jit_steps j mem j1 (mem_of m) -> rsd_jit_lookup j1 rip m = Ok (j2, code) m2 -> jit_steps j mem j2 (mem_of m2)
| js_guest j mem j1 mem1 mem2 :
    jit_steps j mem j1 mem1 -> (forall i, j_arena j <= i < j_arena j + j_size j -> mem2 !! i = mem1 !! i) ->
    jit_steps j mem j1 mem2.

(** What a sequence of lookups keeps. *)
Record jit_stays (j : rsd_jit) (mem : gmap Z Z) (j' : rsd_jit) (mem' : gmap Z Z) : Prop := {
  jt_ok : jit_ok j';
  jt_arena : j_arena j' = j_arena j /\ j_size j' = j_size j /\ j_cache_bits j' = j_cache_bits j;
  jt_used : j_used j <= j_used j';
  jt_code : forall i, j_arena j <= i < j_arena j + j_used j -> mem' !! i = mem !! i;
  jt_entry : forall s, 0 <= s < 2 ^ j_cache_bits j -> je_code (entry_at j s) <> 0 -> entry_at j' s = entry_at j s
}.

Lemma jit_steps_stays j mem j' mem' : jit_ok j -> jit_steps j mem j' mem' -> jit_stays j mem j' mem'.
Proof.
  intros Hj Hst. induction Hst as [j mem|j mem j1 m rip code j2 m2 _ IH Hl|j mem j1 mem1 mem2 _ IH Hm].
  - by split.
  - destruct (IH Hj) as [Hj1 (E1 & E2 & E3) Hu Hc He].
    destruct (rsd_jit_lookup_ok _ _ _ _ _ _ Hj1 Hl) as [[Hj2 (F1 & F2 & F3) Hu2 Hm2 _ Hs2 _] _].
    split; [done|split_and!; congruence|lia| |].
    + intros i Hi. rewrite Hm2 by lia. by apply Hc.
    + intros s Hs Hn. rewrite Hs2, He by (congruence || rewrite ?E3; done || by rewrite He). done.
  - destruct (IH Hj) as [Hj1 E Hu Hc He]. split; [done..| |done].
    intros i Hi. rewrite Hm by (pose proof (jo_used j Hj); lia). by apply Hc.
Qed.

(** An empty cache over a fresh arena. *)
Lemma rsd_jit_init_ok `{!HostOSOk} profile m code oj m' :
  rsd_jit_init profile m = Ok (code, oj) m' ->
  match oj with Some j => code = 0 /\ jit_ok j /\ j_used j = 0 | None => code = -1 end.
Proof.
  unfold rsd_jit_init. remember (replicate (Z.to_nat (1 << CACHE_BITS)) (JitEntry 0 0 0)) as cache eqn:Hcache.
  intros (w & m1 & [= <- <-] & Hr)%bind_ok.
  destruct (try_mmap _ _ _ _) as [p w'] eqn:Em. apply bind_ok in Hr as ([] & m1 & [= <-] & Hr).
  destruct p as [arena|]; [|by injection Hr as <- <- _].
  destruct (negb layout_in_reach); [by injection Hr as <- <- _|].
  destruct (negb (h_alloc _ _)); [by injection Hr as <- <- _|]. injection Hr as <- <- _.
  apply try_mmap_addr in Em as (Ha & _). split; [done|]. split; [|done].
  split; [done|done|done| |].
  - cbn [j_cache j_cache_bits]. rewrite Hcache. apply length_replicate.
  - cbn [j_cache]. rewrite Hcache. by apply Forall_replicate.
Qed.

(** The compiler's arena and cache stay in order.  From [rsd_jit_init],
    through any lookups, at any addresses, between which the guest does
    anything to memory outside the arena: the used part grows within the arena,
    every entry points into it or nowhere, and no code is ever written over nor
    an entry with code replaced: what a lookup found stays there to be run. *)
Theorem jit_steps_inv `{!HostOSOk} profile m0 m1 j0 j mem j' mem' :
  rsd_jit_init profile m0 = Ok (0, Some j0) m1 ->
  jit_steps j0 (mem_of m1) j mem -> jit_steps j mem j' mem' ->
  jit_ok j /\ jit_stays j mem j' mem'.
Proof.
  intros Hi Hs1 Hs2. apply rsd_jit_init_ok in Hi as (_ & Hj0 & _).
  assert (Hj : jit_ok j) by by apply (jit_steps_stays _ _ _ _ Hj0 Hs1).
  split; [done|by apply jit_steps_stays].
Qed.

(** A lookup changes nothing but the free part of the arena and its slot;
    what it returns is NULL or code inside the arena that the next lookup of
    the address returns again. *)
Theorem rsd_jit_lookup_spec j rip m j' code m' :
  jit_ok j -> rsd_jit_lookup j rip m = Ok (j', code) m' ->
  looked_up j rip (mem_of m) j' code (mem_of m') /\ m_c m' = m_c m /\ m_as m' = m_as m.
Proof. apply rsd_jit_lookup_ok. Qed.
End lookup.

(* ------------------------------------------------------------------ *)
(** ** A concrete arena *)

#[local] Existing Instances sample_host sample_host_ok.

(** add rax, rbx; add rcx, rdx; ret *)
Definition sample_code : machine :=
  with_mem (write_bytes (zero_range 0x10000 0x800) 0x10000 [0x48; 0x01; 0xD8; 0x48; 0x01; 0xD1; 0xC3]) (sample_guest []).

(** A small arena above the code, and two slots. *)
Definition sample_jit : rsd_jit := Jit 0x10400 0x400 0 [JitEntry 0 0 0; JitEntry 0 0 0] 1 0 0 0 None.

Lemma sample_jit_ok : jit_ok sample_jit.
Proof. split; [done|done|done|done|]. by repeat constructor. Qed.

Lemma rsd_jit_lookup_spec_witness :
  let L := Build_Linked (fun _ => 0x1234) in
  exists j m, rsd_jit_lookup sample_jit 0x10000 sample_code = Ok (j, 0x10400) m /\ jit_ok j /\ j_compiled j = 1 /\
    je_code (entry_at j (slot_of j 0x10000)) = 0x10400.
Proof.
  intros L.
  assert (Hv : match rsd_jit_lookup sample_jit 0x10000 sample_code with
    | Ok (j, code) _ => (code =? 0x10400) && (j_compiled j =? 1) | _ => false end = true) by (vm_compute; reflexivity).
  destruct (rsd_jit_lookup sample_jit 0x10000 sample_code) as [[j code] m|] eqn:E; [|discriminate].
  apply andb_true_iff in Hv as [->%Z.eqb_eq Hc%Z.eqb_eq].
  destruct (rsd_jit_lookup_spec _ _ _ _ _ _ sample_jit_ok E) as [[Hj _ _ _ _ _ Ha] _].
  exists j, m. split; [done|]. split; [done|]. split; [done|]. by apply Ha.
Defined.

Lemma sample_try_mmap (w : world) len :
  0 <= len -> fresh_page (w_mem w) + len < 2 ^ 64 ->
  exists w', try_mmap w 0 len false = (Some (fresh_page (w_mem w)), w').
Proof.
  destruct w as [h mem]. cbn [w_mem]. intros Hlen Hroom.
  unfold try_mmap. cbn [h_mmap sample_host w_host w_mem]. unfold sample_mmap.
  pose proof (fresh_page_pos mem). assert (Hm : fresh_page mem mod sample_page = 0) by (apply Z.mod_mul; done).
  generalize dependent (fresh_page mem). intros p Hr Hp Hm. rewrite Hm.
  rewrite (proj2 (Z.ltb_lt 0 p)), (proj2 (Z.leb_le 0 len)), (proj2 (Z.ltb_lt _ _) Hr) by lia. by eexists.
Qed.

Lemma sample_jit_init : exists j m, rsd_jit_init false (sample_guest []) = Ok (0, Some j) m.
Proof.
  assert (Hroom : fresh_page (w_mem (m_w (sample_guest []))) + ARENA < 2 ^ 64) by (vm_compute; reflexivity).
  destruct (sample_try_mmap (m_w (sample_guest [])) ARENA ltac:(vm_compute; discriminate) Hroom) as [w' E].
  unfold rsd_jit_init. generalize dependent (fresh_page (w_mem (m_w (sample_guest [])))). intros p _ E.
  eexists _, _. unfold mbind at 1. cbn [gets M_bind]. unfold mbind at 1. cbn [M_bind]. rewrite E. reflexivity.
Qed.

Lemma jit_steps_inv_witness :
  let L := Build_Linked (fun _ => 0x1234) in
  exists j m, rsd_jit_init false (sample_guest []) = Ok (0, Some j) m /\ jit_ok j /\
    forall mem, (forall i, j_arena j <= i < j_arena j + j_size j -> mem !! i = mem_of m !! i) -> jit_stays j (mem_of m) j mem.
Proof.
  intros L. destruct sample_jit_init as (j & m & Hi). exists j, m. split; [exact Hi|].
  split; [by apply (jit_steps_inv false _ m j j (mem_of m) j (mem_of m) Hi); constructor|].
  intros mem Hm. apply (jit_steps_inv false _ m j j (mem_of m) j mem Hi); [constructor|].
  apply (js_guest _ _ _ (mem_of m)); [constructor|exact Hm].
Defined.
