(* ===== verification/JitCode.v ===== *)
(** Running emitted code that branches ([put_patch_bcond], [put_fault_check] and
    [put_call] in [src/jit.c]): the words at a place of a block, run with a
    program counter, with the routines they call. *)
From S2P Require Import Prelude.
From S2P Require Import Memory.
From S2P Require Import A64.
From S2P Require Import Emit.
From S2P Require Import JitEmit.
From S2P Require Import JitRun.

(* ------------------------------------------------------------------ *)
(** ** Emission with branches *)

Definition len (ws : list Z) : Z := Z.of_nat (length ws).

Lemma len_app ws ws' : len (ws ++ ws') = len ws + len ws'.
Proof. unfold len. rewrite length_app. lia. Qed.

(** A full buffer stays full. *)
Definition full_stays {A} (c : E A) : Prop := forall b, b_full b = true -> b_full (c b).2 = true.

Lemma full_put w : full_stays (put w).
Proof. intros b Hb. unfold put. by case_match. Qed.
Lemma full_ret {A} (a : A) : full_stays (mret a).
Proof. by intros b. Qed.
Lemma full_here : full_stays here.
Proof. by intros b. Qed.
Lemma full_patch at_ w : full_stays (patch at_ w).
Proof. intros b Hb. unfold patch. by rewrite Hb. Qed.
Lemma full_bind {A B} (c : E A) (f : A -> E B) :
  full_stays c -> (forall a, full_stays (f a)) -> full_stays (c ≫= f).
Proof.
  intros Hc Hf b Hb. unfold mbind, E_bind. specialize (Hc b Hb). destruct (c b) as [a b1]. by apply Hf.
Qed.
Lemma full_straight {A} (c : E A) a ws : straight c a ws -> full_stays c.
Proof.
  intros Hs b Hb. destruct (b_full (c b).2) eqn:E; [done|]. destruct (proj2 (Hs b) E). congruence.
Qed.
Lemma full_when (k : bool) e : full_stays e -> full_stays (ewhen k e).
Proof. intros He. destruct k; [done|apply full_ret]. Qed.

Create HintDb emission.
#[export] Hint Resolve full_put full_ret full_here full_patch full_bind full_when : emission.

(** Where checking is [chk], [c] appends [ws] to a buffer and leaves the words at
    [fx], counted from where it starts, to be patched; or the buffer is full. *)
Record emits (chk : bool) (c : E unit) (ws fx : list Z) : Prop := {
  em_stays : full_stays c;
  em_run : forall b, b_check b = chk -> b_full (c b).2 = false ->
    b_full b = false /\
    (c b).2 = Buf (b_out b ++ ws) (b_max b) false chk (b_fix b ++ (Z.add (b_n b) <$> fx));
  em_fix : Forall (fun i => 0 <= i < len ws) fx
}.

Lemma emits_straight chk c ws : straight c tt ws -> emits chk c ws [].
Proof.
  intros Hs. split; [by eapply full_straight|intros b Hb Hf|constructor].
  - destruct (proj2 (Hs b) Hf) as [Hf0 ->]. split; [done|]. cbn. by rewrite app_nil_r, Hb.
Qed.

Lemma emits_eq chk c c' ws fx : (forall b, c b = c' b) -> emits chk c ws fx -> emits chk c' ws fx.
Proof. intros He [H1 H2 H3]. split; [| |done]; intros b; rewrite <- He; eauto. Qed.

Definition same_emission (chk : bool) (c c' : E unit) : Prop := forall b, b_check b = chk -> c b = c' b.

Lemma emits_same chk c c' ws fx :
  same_emission chk c c' -> full_stays c' -> emits chk c ws fx -> emits chk c' ws fx.
Proof. intros He Hf [H1 H2 H3]. split; [done| |done]. intros b Hb. rewrite <- He; eauto. Qed.

Lemma b_n_app out ws mx fl ch fx : b_n (Buf (out ++ ws) mx fl ch fx) = Z.of_nat (length out) + len ws.
Proof. unfold b_n, len. cbn. rewrite length_app. lia. Qed.

Lemma emits_bind chk (c d : E unit) ws fx ws' fx' :
  emits chk c ws fx -> emits chk d ws' fx' ->
  emits chk (c;; d) (ws ++ ws') (fx ++ (Z.add (len ws) <$> fx')).
Proof.
  intros [C1 C2 C3] [D1 D2 D3]. split.
  - apply full_bind; [done|]. by intros [].
  - intros b Hb. unfold mbind, E_bind. specialize (C2 b Hb).
    destruct (c b) as [[] b1]. cbn [snd] in *. intros Hf.
    assert (Hf1 : b_full b1 = false) by (destruct (b_full b1) eqn:E1; [rewrite D1 in Hf|]; done).
    destruct (C2 Hf1) as [Hf0 ->]. destruct (D2 (Buf (b_out b ++ ws) (b_max b) false chk (b_fix b ++ (Z.add (b_n b) <$> fx))) eq_refl Hf) as [_ ->]. split; [done|]. cbn [b_out b_max b_fix].
    rewrite <- !app_assoc, b_n_app. do 2 f_equal. rewrite fmap_app. f_equal. rewrite <- list_fmap_compose.
    apply list_fmap_ext. intros i x _. unfold b_n. cbn. lia.
  - apply Forall_app. split; [eapply Forall_impl; [exact C3|]; rewrite len_app; unfold len; cbn; lia|].
    apply Forall_fmap. eapply Forall_impl; [exact D3|]. rewrite len_app. unfold len. cbn. lia.
Qed.

(** [c] emits something, wherever there is room. *)
Definition emits_some (chk : bool) (c : E unit) : Prop := exists ws fx, emits chk c ws fx.

Lemma emits_some_put chk w : emits_some chk (put w).
Proof. eexists _, _. apply emits_straight, straight_put. Qed.
Lemma emits_some_ret chk : emits_some chk (mret tt).
Proof. eexists _, _. apply emits_straight, straight_ret. Qed.
Lemma emits_some_bind chk (c d : E unit) : emits_some chk c -> emits_some chk d -> emits_some chk (c;; d).
Proof. intros (ws & fx & Hc) (ws' & fx' & Hd). eexists _, _. by eapply emits_bind. Qed.
Lemma emits_some_when chk (k : bool) e : emits_some chk e -> emits_some chk (ewhen k e).
Proof. intros He. destruct k; [done|apply emits_some_ret]. Qed.
#[export] Hint Resolve emits_some_put emits_some_ret emits_some_bind emits_some_when : emission.

Lemma emits_some_imm chk reg v : emits_some chk (put_imm reg v).
Proof. unfold put_imm. auto 12 with emission. Qed.
#[export] Hint Resolve emits_some_imm : emission.

(* ------------------------------------------------------------------ *)
(** ** A place in a block *)

(** [ws] lie at [n] in [code], the words at [fx] patched to leave for [out]; no
    block is too long for its branches. *)
Record placed (code ws : list Z) (n : Z) (fx : list Z) (out : Z) : Prop := {
  pl_start : 0 <= n;
  pl_words : forall i w, ws !! i = Some w ->
    code !! (Z.to_nat n + i)%nat =
    Some (if bool_decide (Z.of_nat i ∈ fx) then a64_cbz_w A64_X9 (out - (n + Z.of_nat i)) else w);
  pl_len : len code < 2 ^ 18;
  pl_out : 0 <= out <= len code
}.

Lemma placed_app code ws ws' n fx fx' out :
  Forall (fun i => 0 <= i < len ws) fx -> Forall (fun i => 0 <= i < len ws') fx' ->
  placed code (ws ++ ws') n (fx ++ (Z.add (len ws) <$> fx')) out ->
  placed code ws n fx out /\ placed code ws' (n + len ws) fx' out.
Proof.
  intros Hf Hf' [Hn Hw Hl Ho]. rewrite !Forall_forall in Hf, Hf'. unfold len in *.
  split; split; try done; try lia; intros i w Hi; pose proof (lookup_lt_Some _ _ _ Hi) as Hlt.
  - rewrite (Hw i w) by by rewrite lookup_app_l. rewrite (bool_decide_ext _ (Z.of_nat i ∈ fx)); [done|].
    rewrite elem_of_app, list_elem_of_fmap. split; [|by left]. intros [?|(k & Hk & Hin)]; [done|].
    specialize (Hf' _ Hin). lia.
  - replace (Z.to_nat (n + Z.of_nat (length ws)) + i)%nat with (Z.to_nat n + (length ws + i))%nat by lia.
    rewrite (Hw (length ws + i)%nat w) by by rewrite lookup_app_r, Nat.add_comm, Nat.add_sub by lia.
    rewrite Nat2Z.inj_add, Z.add_assoc. rewrite (bool_decide_ext _ (Z.of_nat i ∈ fx')); [done|].
    rewrite elem_of_app, list_elem_of_fmap. split.
    + intros [Hin|(k & Hk & Hin)]; [specialize (Hf _ Hin); lia|]. by replace (Z.of_nat i) with k by lia.
    + intros Hin. right. by exists (Z.of_nat i).
Qed.

Lemma placed_word code ws n fx out i w :
  placed code ws n fx out -> ws !! i = Some w -> Z.of_nat i ∉ fx ->
  code !! Z.to_nat (n + Z.of_nat i) = Some w.
Proof.
  intros [Hn Hw _ _] Hi Hx. specialize (Hw i w Hi). rewrite bool_decide_false in Hw by done.
  by replace (Z.to_nat (n + Z.of_nat i)) with (Z.to_nat n + i)%nat by lia.
Qed.

Lemma placed_inside code ws n fx out : placed code ws n fx out -> ws <> [] -> n + len ws <= len code.
Proof.
  intros [Hn Hw _ _] He. destruct ws as [|w ws] using rev_ind; [done|]. clear IHws.
  specialize (Hw (length ws) w ltac:(by rewrite lookup_app_r, Nat.sub_diag by lia)).
  apply lookup_lt_Some in Hw. rewrite len_app. unfold len. cbn. lia.
Qed.

(** Words that nobody patches, in front of others. *)
Lemma placed_split code ws ws' n out :
  placed code (ws ++ ws') n [] out -> placed code ws n [] out /\ placed code ws' (n + len ws) [] out.
Proof. apply (placed_app code ws ws' n [] [] out); constructor. Qed.

(* ------------------------------------------------------------------ *)
(** ** Running with a program counter *)

(** How code is left: at its end, or for the exit that faults take. *)
Inductive way := Through | Leaves.

Section run.
(** The world beside the A64 machine, and what a call to an address does to
    both. *)
Context {W : Type} (call : Z -> astate -> W -> option (astate * W)).

Definition conf : Type := Z * (astate * W).

Definition code_step (code : list Z) (c : conf) : option conf :=
  let '(pc, (st, g)) := c in
  if pc <? 0 then None else
  w ← code !! Z.to_nat pc;
  '(st, ctl) ← exec_word w st;
  match ctl with
  | Next => Some (pc + 1, (st, g))
  | Jump d => Some (pc + d, (st, g))
  | Call a => r ← call a st g; Some (pc + 1, r)
  | Ret _ => None
  end.

Fixpoint code_steps (k : nat) (code : list Z) (c : conf) : option conf :=
  match k with
  | O => Some c
  | S k => c ← code_step code c; code_steps k code c
  end.

Definition reaches (code : list Z) (c c' : conf) : Prop := exists k, code_steps k code c = Some c'.

Lemma reaches_refl code c : reaches code c c.
Proof. by exists O. Qed.

Lemma code_steps_add k k' code c c1 :
  code_steps k code c = Some c1 -> code_steps (k + k') code c = code_steps k' code c1.
Proof.
  revert c. induction k as [|k IH]; intros c; cbn; [by intros [= ->]|].
  destruct (code_step code c) as [c2|]; cbn; [apply IH|done].
Qed.

Lemma reaches_trans code c c1 c2 : reaches code c c1 -> reaches code c1 c2 -> reaches code c c2.
Proof. intros [k Hk] [k' Hk']. exists (k + k')%nat. by rewrite (code_steps_add _ _ _ _ _ Hk). Qed.

Lemma reaches_step code c c' : code_step code c = Some c' -> reaches code c c'.
Proof. intros Hs. exists 1%nat. cbn. by rewrite Hs. Qed.

#[export] Instance reaches_preorder code : PreOrder (reaches code).
Proof. split; [exact (reaches_refl code)|exact (reaches_trans code)]. Qed.

(** One word of a stretch. *)
Lemma placed_step code ws n fx out i w st g :
  placed code ws n fx out -> ws !! i = Some w -> Z.of_nat i ∉ fx ->
  code_step code (n + Z.of_nat i, (st, g)) =
  ('(st, ctl) ← exec_word w st;
   match ctl with
   | Next => Some (n + Z.of_nat i + 1, (st, g))
   | Jump d => Some (n + Z.of_nat i + d, (st, g))
   | Call a => r ← call a st g; Some (n + Z.of_nat i + 1, r)
   | Ret _ => None
   end).
Proof.
  intros Hp Hi Hx. unfold code_step. destruct Hp as [Hn Hw Hl Ho]. rewrite (proj2 (Z.ltb_ge _ _)) by lia.
  by rewrite (placed_word code ws n fx out i w).
Qed.

(** A run of words in the middle of a stretch. *)
Lemma placed_words code ws n fx out st st' g :
  placed code ws n fx out -> fx = [] -> exec_words ws st = Some st' ->
  reaches code (n, (st, g)) (n + len ws, (st', g)).
Proof.
  intros Hp ->. revert n st Hp. induction ws as [|w ws IH]; intros n st Hp; cbn [exec_words].
  - intros [= ->]. unfold len. cbn. rewrite Z.add_0_r. apply reaches_refl.
  - intros He. destruct (exec_word w st) as [[s []]|] eqn:Ew; try done. cbn in He.
    destruct (placed_app code [w] ws n [] [] out ltac:(done) ltac:(done) Hp) as [Hw Hp'].
    eapply reaches_trans; [apply reaches_step|].
    + pose proof (placed_step code [w] n [] out 0 w st g Hw eq_refl ltac:(set_solver)) as Hs.
      rewrite Z.add_0_r, Ew in Hs. exact Hs.
    + replace (n + len (w :: ws)) with (n + 1 + len ws) by (unfold len; cbn; lia).
      by apply (IH (n + 1)).
Qed.

(** Wherever the words of [c] lie, they take one state to the other, and end as
    [wy] says. *)
Definition arrives (wy : way) (n : Z) (ws : list Z) (out : Z) : Z :=
  match wy with Through => n + len ws | Leaves => out end.

Definition goes (chk : bool) (c : E unit) (wy : way) (s s' : astate * W) : Prop :=
  exists ws fx, emits chk c ws fx /\
    forall code n out, placed code ws n fx out -> reaches code (n, s) (arrives wy n ws out, s').

Lemma goes_emits chk c wy s s' : goes chk c wy s s' -> emits_some chk c.
Proof. intros (ws & fx & He & _). by exists ws, fx. Qed.

Lemma goes_straight chk c st st' g : emit_runs c tt st st' -> goes chk c Through (st, g) (st', g).
Proof.
  intros (ws & Hs & He). exists ws, []. split; [by apply emits_straight|].
  intros code n out Hp. by eapply placed_words.
Qed.

Lemma goes_bind chk c d wy s s1 s2 :
  goes chk c Through s s1 -> goes chk d wy s1 s2 -> goes chk (c;; d) wy s s2.
Proof.
  intros (ws & fx & Hc & Rc) (ws' & fx' & Hd & Rd). exists (ws ++ ws'), (fx ++ (Z.add (len ws) <$> fx')).
  split; [by apply emits_bind|]. intros code n out Hp.
  destruct (placed_app _ _ _ _ _ _ _ (em_fix _ _ _ _ Hc) (em_fix _ _ _ _ Hd) Hp) as [P1 P2].
  eapply reaches_trans; [by apply Rc|]. cbn [arrives]. specialize (Rd _ _ _ P2).
  destruct wy; [|exact Rd]. cbn [arrives] in *. by rewrite len_app, Z.add_assoc.
Qed.

Lemma goes_leave chk c d s s1 : goes chk c Leaves s s1 -> emits_some chk d -> goes chk (c;; d) Leaves s s1.
Proof.
  intros (ws & fx & Hc & Rc) (ws' & fx' & Hd). exists (ws ++ ws'), (fx ++ (Z.add (len ws) <$> fx')).
  split; [by apply emits_bind|]. intros code n out Hp.
  destruct (placed_app _ _ _ _ _ _ _ (em_fix _ _ _ _ Hc) (em_fix _ _ _ _ Hd) Hp) as [P1 _].
  by apply Rc.
Qed.

Lemma goes_same chk c c' wy s s' : same_emission chk c c' -> full_stays c' -> goes chk c wy s s' -> goes chk c' wy s s'.
Proof. intros He Hf (ws & fx & Hc & R). exists ws, fx. split; [by eapply emits_same|done]. Qed.

Lemma goes_eq chk c c' wy s s' : (forall b, c b = c' b) -> goes chk c wy s s' -> goes chk c' wy s s'.
Proof. intros He (ws & fx & Hc & R). exists ws, fx. split; [by eapply emits_eq|done]. Qed.
End run.
