(* ===== verification/JitRel.v ===== *)
(** Computations that do not look at a part of the machine ([ld], [st], [push]
    and [pop] in [src/cpu.c]): which regions were noted, or what the flags
    are.  From machines that differ only there they fail together, or return
    the same and leave machines that differ only there. *)
From S2P Require Import Prelude.
From S2P Require Import Memory.
From S2P Require Import AddressSpace.
From S2P Require Import Flags.
From S2P Require Import Machine.
From S2P Require Import Access.
From S2P Require Import Decode.
From S2P Require Import Registers.

Create HintDb indifferent discriminated.

Section rel.
Context `{HostOS}.

Definition outcome_rel {A} (Q : relation machine) (r r' : outcome A) : Prop :=
  match r, r' with
  | Ok a m, Ok a' m' => a = a' /\ Q m m'
  | Trap t, Trap t' => t = t'
  | _, _ => False
  end.

(** The whole monad's [Proper]: [c] respects the relation. *)
Definition respects (Q : relation machine) {A} (c : M A) : Prop := Proper (Q ==> outcome_rel Q) c.

(** What a relation between machines must leave alone for guest accesses not to
    see it. *)
Class Indifferent (Q : relation machine) : Prop := {
  in_equiv :: Equivalence Q;
  in_cpu m m' : Q m m' -> c_r (m_c m) = c_r (m_c m') /\ c_running (m_c m) = c_running (m_c m') /\
    c_wlog (m_c m) = c_wlog (m_c m');
  in_mem m m' : Q m m' -> mem_of m = mem_of m';
  in_reg m m' : Q m m' -> as_reg (m_as m) = as_reg (m_as m');
  in_upd_r v m m' : Q m m' -> Q (upd_m (with_r v) m) (upd_m (with_r v) m');
  in_upd_cur_rip v m m' : Q m m' -> Q (upd_m (with_cur_rip v) m) (upd_m (with_cur_rip v) m');
  in_upd_wlog w m m' : Q m m' -> Q (upd_m (with_wlog w) m) (upd_m (with_wlog w) m');
  in_upd_memfault a what m m' : Q m m' -> Q (upd_m (memfault_cpu a what) m) (upd_m (memfault_cpu a what) m');
  in_with_mem mem m m' : Q m m' -> Q (with_mem mem m) (with_mem mem m')
}.

Section rules.
Context (Q : relation machine) `{!Indifferent Q}.

Lemma respects_ret {A} (a : A) : respects Q (mret a).
Proof. by intros m m' Hm. Qed.
Lemma respects_raise {A} t : respects Q (raise t : M A).
Proof. by intros m m' Hm. Qed.
Lemma respects_bind {A B} (c : M A) (k : A -> M B) :
  respects Q c -> (forall a, respects Q (k a)) -> respects Q (c ≫= k).
Proof.
  intros Hc Hk m m' Hm. specialize (Hc _ _ Hm). unfold mbind, M_bind.
  destruct (c m) as [a m1|], (c m') as [a' m1'|]; cbn in Hc; try done.
  destruct Hc as [<- Hm1]. by apply Hk.
Qed.
Lemma respects_gets {A} (f : machine -> A) : (forall m m', Q m m' -> f m = f m') -> respects Q (gets f).
Proof. intros Hf m m' Hm. cbn. auto. Qed.
Lemma respects_if {A} (b : bool) (c d : M A) : respects Q c -> respects Q d -> respects Q (if b then c else d).
Proof. by destruct b. Qed.
Lemma respects_host_read a n : respects Q (host_read a n).
Proof.
  intros m m' Hm. unfold host_read. pose proof (in_mem _ _ Hm) as He. unfold mem_of in He. rewrite He.
  by case_match.
Qed.
Lemma respects_host_bytes a n : respects Q (host_bytes a n).
Proof.
  intros m m' Hm. unfold host_bytes. pose proof (in_mem _ _ Hm) as He. unfold mem_of in He. rewrite He.
  by case_match.
Qed.
Lemma respects_host_store a bs : respects Q (host_store a bs).
Proof.
  intros m m' Hm. unfold host_store. pose proof (in_mem _ _ Hm) as He. unfold mem_of in He. rewrite He.
  case_match; [|done]. split; [done|].
  pose proof (in_with_mem (write_bytes (w_mem (m_w m')) a bs) _ _ Hm) as Hq. unfold with_mem in Hq. done.
Qed.
Lemma respects_upd f : (forall m m', Q m m' -> Q (upd_m f m) (upd_m f m')) -> respects Q (upd f).
Proof. intros Hf m m' Hm. cbn. split; [done|]. by apply Hf. Qed.
Lemma respects_reg : respects Q (gets reg).
Proof. apply respects_gets. intros m m' Hm. unfold reg. by rewrite (proj1 (in_cpu _ _ Hm)). Qed.
Lemma respects_running : respects Q (get_c c_running).
Proof. apply respects_gets. intros m m' Hm. apply (in_cpu _ _ Hm). Qed.
End rules.
End rel.

#[export] Hint Resolve respects_ret respects_raise respects_bind respects_if respects_host_read respects_host_bytes
  respects_host_store respects_reg respects_running : indifferent.

(* ------------------------------------------------------------------ *)
(** ** Guest accesses *)

(** The tests on an address look at the regions only. *)
Lemma walk_regions fuel test s s' a n : as_reg s = as_reg s' -> walk fuel test s a n = walk fuel test s' a n.
Proof.
  intros Hr. revert a n. induction fuel as [|fuel IH]; intros a n; cbn; [done|].
  unfold as_find. rewrite Hr. repeat case_match; done || apply IH.
Qed.

Lemma rsd_as_ok_regions s s' a n pr : as_reg s = as_reg s' -> rsd_as_ok s a n pr = rsd_as_ok s' a n pr.
Proof. intros Hr. unfold rsd_as_ok, walk_fuel. by rewrite (walk_regions _ _ _ s'), Hr. Qed.

Lemma rsd_as_mapped_regions s s' a n : as_reg s = as_reg s' -> rsd_as_mapped s a n = rsd_as_mapped s' a n.
Proof. intros Hr. unfold rsd_as_mapped, walk_fuel. by rewrite (walk_regions _ _ _ s'), Hr. Qed.

Section accesses.
Context `{HostOS} (Q : relation machine) `{!Indifferent Q}.

Lemma respects_memfault a what : respects Q (memfault a what).
Proof. apply respects_upd. intros. by apply in_upd_memfault. Qed.

(** The address space is only asked about regions. *)
Lemma respects_as {A} (k : rsd_as -> M A) :
  (forall s, respects Q (k s)) -> (forall s s' m, as_reg s = as_reg s' -> k s m = k s' m) ->
  respects Q (s ← gets m_as; k s).
Proof.
  intros Hk He m m' Hm. unfold mbind, M_bind, gets. rewrite (He _ (m_as m')) by (by apply in_reg). by apply Hk.
Qed.

Lemma respects_wlog : respects Q (get_c c_wlog).
Proof. apply respects_gets. intros m m' Hm. apply (in_cpu _ _ Hm). Qed.

#[local] Hint Resolve respects_wlog respects_memfault : indifferent.

Lemma respects_log_write a v size : respects Q (log_write a v size).
Proof.
  unfold log_write. apply respects_bind; [apply respects_wlog|]. intros [w|]; [|apply respects_ret].
  apply respects_if; [apply respects_upd; intros; by apply in_upd_wlog|].
  apply respects_bind; [by apply respects_host_read|]. intros old. apply respects_as.
  - intros s. apply respects_bind; [by apply respects_host_bytes|]. intros before.
    apply respects_upd; intros; by apply in_upd_wlog.
  - intros s s' m Hr. by rewrite (rsd_as_ok_regions s s').
Qed.

Lemma access_ok_regions s s' a n pr : as_reg s = as_reg s' -> access_ok s a n pr = access_ok s' a n pr.
Proof. intros Hr. unfold access_ok. by rewrite (rsd_as_ok_regions s s'), (rsd_as_mapped_regions s s'). Qed.
Lemma why_regions s s' a n : as_reg s = as_reg s' -> why s a n = why s' a n.
Proof. intros Hr. unfold why. by rewrite (rsd_as_mapped_regions s s'). Qed.

Lemma respects_ld a size : respects Q (ld a size).
Proof.
  unfold ld. apply respects_as.
  - intros s. apply respects_if; [|by apply respects_host_read].
    apply respects_bind; [apply respects_memfault|]. intros []. apply respects_ret.
  - intros s s' m Hr. by rewrite (access_ok_regions s s'), (why_regions s s').
Qed.

Lemma respects_st a v size : respects Q (Machine.st a v size).
Proof.
  unfold Machine.st. apply respects_as.
  - intros s. apply respects_if; [apply respects_memfault|].
    apply respects_bind; [apply respects_log_write|]. intros []. by apply respects_host_store.
  - intros s s' m Hr. by rewrite (access_ok_regions s s'), (why_regions s s').
Qed.

Lemma respects_getr r : respects Q (getr r).
Proof. apply respects_gets. intros m m' Hm. by rewrite (proj1 (in_cpu _ _ Hm)). Qed.
Lemma respects_setr r v : respects Q (setr r v).
Proof.
  apply respects_upd. intros m m' Hm. pose proof (in_upd_r (<[Z.to_nat r := u64 v]> (c_r (m_c m))) _ _ Hm) as Hq.
  unfold upd_m in *. by rewrite <- (proj1 (in_cpu _ _ Hm)) at 1.
Qed.
Lemma respects_set_cur_rip v : respects Q (upd (with_cur_rip v)).
Proof. apply respects_upd. intros. by apply in_upd_cur_rip. Qed.

Lemma respects_push v : respects Q (push v).
Proof. unfold push. repeat (apply respects_bind; [apply respects_getr || apply respects_setr|intros ?]). apply respects_st. Qed.
End accesses.

#[export] Hint Resolve respects_ld respects_st respects_push respects_set_cur_rip : indifferent.

(** A computation in steps that respect the relation. *)
Ltac respects_run :=
  cbv zeta;
  repeat first
    [solve [auto with indifferent]
    |apply respects_if
    |apply respects_bind; [solve [auto with indifferent]|intros ?]
    |apply respects_bind; [|intros ?]].

(* ------------------------------------------------------------------ *)
(** ** The two relations *)

Section instances.
Context `{HostOS}.

(** A machine, whichever regions were noted; or whatever the flags; or wherever
    the instruction pointer. *)
Definition but_hits (m : machine) : machine :=
  Machine (m_c m) (as_forget (m_as m)) (m_w m) (m_cb m) (m_cm m).
Definition but_flags (m : machine) : machine := upd_m (with_flags 0) m.
Definition but_rip (m : machine) : machine := upd_m (with_rip 0) m.

Definition same_but_hits (m m' : machine) : Prop := but_hits m = but_hits m'.
Definition same_but_flags (m m' : machine) : Prop := but_flags m = but_flags m'.
Definition same_but_rip (m m' : machine) : Prop := but_rip m = but_rip m'.

#[export] Instance hits_indifferent : Indifferent same_but_hits.
Proof.
  split; [split; unfold same_but_hits; red; congruence|..].
  all: repeat match goal with |- forall _, _ => intros ? end.
  all: match goal with Hm : same_but_hits ?m ?m' |- _ =>
    destruct m as [c [l cap rd wr] [ho me] cb cm], m' as [c' [l' cap' rd' wr'] [ho' me'] cb' cm'];
    unfold same_but_hits, but_hits, as_forget in *; cbn in *; injection Hm as -> -> -> -> -> -> -> end; done.
Qed.

#[export] Instance flags_indifferent : Indifferent same_but_flags.
Proof.
  split; [split; unfold same_but_flags; red; congruence|..].
  all: repeat match goal with |- forall _, _ => intros ? end.
  all: match goal with Hm : same_but_flags ?m ?m' |- _ =>
    destruct m as [[] as_ [ho me] cb cm], m' as [[] as_' [ho' me'] cb' cm'];
    unfold same_but_flags, but_flags, upd_m, with_flags in *; cbn in *; injection Hm as; subst end; try done.
  unfold memfault_cpu. cbn. by destruct c_fault0.
Qed.

#[export] Instance rip_indifferent : Indifferent same_but_rip.
Proof.
  split; [split; unfold same_but_rip; red; congruence|..].
  all: repeat match goal with |- forall _, _ => intros ? end.
  all: match goal with Hm : same_but_rip ?m ?m' |- _ =>
    destruct m as [[] as_ [ho me] cb cm], m' as [[] as_' [ho' me'] cb' cm'];
    unfold same_but_rip, but_rip, upd_m, with_rip in *; cbn in *; injection Hm as; subst end; try done.
  unfold memfault_cpu. cbn. by destruct c_fault0.
Qed.
End instances.
