(* ===== verification/JitSem.v ===== *)
(** What the instructions of a compiled block do to the interpreter's machine:
    guest memory first, then the registers and the flags ([exec_insn] in
    [src/cpu.c], as [put_insn] in [src/jit.c] divides it); and why the flags
    that [flag_liveness] finds dead may be left stale although an access can
    stop the block anywhere. *)
From S2P Require Import Prelude.
From S2P Require Import Memory.
From S2P Require Import AddressSpace.
From S2P Require Import Flags.
From S2P Require Import Machine.
From S2P Require Import Access.
From S2P Require Import Decode.
From S2P Require Import Registers.
From S2P Require Import Keeps.
From S2P Require Import Jit.
From S2P Require Import JitEmit.
From S2P Require Import JitFlags.
From S2P Require Import JitRegs.
From S2P Require Import JitLive.
From S2P Require Import JitBlock.
From S2P Require Import JitCompile.
From S2P Require Import JitRel.

Section sem.
Context `{HostOS}.

(* ------------------------------------------------------------------ *)
(** ** Instructions *)

(** A machine with other registers and flags. *)
Definition set_gpr (R : Z -> Z) (fl : Z) (m : machine) : machine :=
  upd_m (fun c => with_flags fl (with_r (R <$> seqZ 0 16) c)) m.

(** What a move to memory stores, and the second operand of a read-modify-write. *)
Definition mov_value (o : insn) (R : Z -> Z) : Z :=
  if bool_decide (i_kind o = K_MI) then i_imm o else reg_rd (i_has_rex o) R (i_reg o) (i_size o).

Definition if_running (c : M unit) : M unit := r ← get_c c_running; if r : bool then c else mret tt.

(** The operand in memory, after the address of the instruction is noted for a
    fault to name. *)
Definition mem_operand (o : insn) (rip size : Z) : M Z :=
  R ← gets reg; upd (with_cur_rip rip);; ld (ref_ea o R) size.

(** A shift of a register.  One by nothing changes nothing. *)
Definition shift_count (o : insn) (R : Z -> Z) : Z :=
  (if i_by_cl o then R 1 else i_imm o) .& (if i_size o =? 8 then 63 else 31).

Definition ref_shift (o : insn) (s : gstate) : gstate :=
  let c := shift_count o s.1 in
  if nz c then
    let '(res, fl) := rsd_i_shift s.2 (reg_rd (i_has_rex o) s.1 (i_reg o) (i_size o)) c (i_size o) (i_ext o) in
    (reg_wr (i_has_rex o) s.1 (i_reg o) res (i_size o), fl)
  else s.

(** What an instruction does to memory, and what is left to do to the registers
    and flags. *)
Definition mem_part (o : insn) (rip : Z) : M (gstate -> gstate) :=
  match i_kind o with
  | K_RM =>
      v ← mem_operand o rip (i_size o);
      mret (fun s => ref_op o (reg_rd (i_has_rex o) s.1 (i_reg o) (i_size o)) v s)
  | K_MR | K_MI =>
      R ← gets reg;
      let a := ref_ea o R in let b := mov_value o R in
      if i_op o =? 0x88 then upd (with_cur_rip rip);; Machine.st a b (i_size o);; mret (fun s => s)
      else
        v ← mem_operand o rip (i_size o);
        let r := op_result (i_op o) (i_size o) v b in
        (if i_no_write o then mret tt else if_running (Machine.st a r (i_size o)));;
        mret (fun s => (s.1, helper_flags (op_helper (i_op o)) s.2 v b r (i_size o)))
  | K_PUSH => upd (with_cur_rip rip);; R ← gets reg; push (R (i_reg o));; mret (fun s => s)
  | K_POP =>
      upd (with_cur_rip rip);; R ← gets reg; v ← ld (R 4) 8;
      mret (fun s => (upd_reg 4 (u64 (s.1 4 + 8)) (upd_reg (i_reg o) v s.1), s.2))
  | K_MOVX =>
      if o_mem (i_mo o) then
        v ← mem_operand o rip (i_ssize o); mret (fun s => (upd_reg (i_reg o) (extended o v) s.1, s.2))
      else mret (fun s => reg_sem o s.1 s.2)
  | K_IMUL =>
      if o_mem (i_mo o) then
        v ← mem_operand o rip (i_size o);
        mret (mul_result o v)
      else mret (fun s => reg_sem o s.1 s.2)
  | K_SETCC =>
      if o_mem (i_mo o) then
        R ← gets reg; fl ← get_c c_flags;
        upd (with_cur_rip rip);; Machine.st (ref_ea o R) (bz (cond fl (i_cc o))) 1;; mret (fun s => s)
      else mret (fun s => reg_sem o s.1 s.2)
  | K_SHIFT => mret (ref_shift o)
  | _ => mret (fun s => reg_sem o s.1 s.2)
  end.

(** The registers and the flags; [keep] says which of the new flags are kept. *)
Definition then_regs (keep : insn -> Z -> Z -> Z) (o : insn) (f : gstate -> gstate) : M unit :=
  modify (fun m => let s := f (reg m, c_flags (m_c m)) in set_gpr s.1 (keep o (c_flags (m_c m)) s.2) m).

(** All flags, as the interpreter keeps them; or those compiled code computes,
    which are the ones the analysis asked for unless a routine is called. *)
Definition all_flags (o : insn) (fl fl' : Z) : Z := fl'.
Definition needed_flags (o : insn) (fl fl' : Z) : Z := merge_flags fl (computed o) fl'.

Definition insn_sem (keep : insn -> Z -> Z -> Z) (o : insn) (rip : Z) : M unit :=
  f ← mem_part o rip; if_running (then_regs keep o f).

(** The instructions of a block, up to the one that stops the machine. *)
Fixpoint block_sem (keep : insn -> Z -> Z -> Z) (v : list insn) (rip : Z) : M unit :=
  match v with
  | [] => mret tt
  | o :: v => insn_sem keep o rip;; if_running (block_sem keep v (i_next o))
  end.

(** The instructions the analysis is right about. *)
Definition sem_covers (o : insn) : Prop :=
  match i_kind o with
  | K_RM | K_MR | K_MI => opsize (i_size o) /\ is_one_of (i_op o) reg_ops = true
  | K_PUSH | K_POP => True
  | K_SHIFT => opsize (i_size o)
  | _ => reg_covers o
  end.

(* ------------------------------------------------------------------ *)
(** ** What they look at *)

Section respect.
Context (Q : relation machine) `{!Indifferent Q}.

Lemma respects_if_running c : respects Q c -> respects Q (if_running c).
Proof.
  intros Hc. unfold if_running. apply respects_bind; [by apply respects_running|]. intros [|]; [done|apply respects_ret].
Qed.

Lemma respects_mem_operand o rip size : respects Q (mem_operand o rip size).
Proof. unfold mem_operand. respects_run. Qed.

(** A conditional store's value is computed from the flags. *)
Lemma mem_part_rel o rip m m' :
  Q m m' -> (i_kind o = K_SETCC -> cond (c_flags (m_c m)) (i_cc o) = cond (c_flags (m_c m')) (i_cc o)) ->
  outcome_rel Q (mem_part o rip m) (mem_part o rip m').
Proof.
  intros Hm Hcc. unfold mem_part.
  assert (Hr : forall c : M (gstate -> gstate), respects Q c -> outcome_rel Q (c m) (c m')) by (intros c Hc; by apply Hc).
  destruct (i_kind o); try (solve [apply Hr; respects_run]).
  destruct (o_mem (i_mo o)); [|by apply Hr, respects_ret].
  set (stores := fun R b => upd (with_cur_rip rip);; Machine.st (ref_ea o R) (bz b) 1;; mret (fun s : gstate => s)).
  change (outcome_rel Q (stores (reg m) (cond (c_flags (m_c m)) (i_cc o)) m) (stores (reg m') (cond (c_flags (m_c m')) (i_cc o)) m')).
  assert (Er : reg m = reg m') by (unfold reg; by rewrite (proj1 (in_cpu _ _ Hm))).
  rewrite (Hcc eq_refl), Er. apply Hr. unfold stores. respects_run.
Qed.
End respect.
(** Which regions are noted is nobody's business. *)
Lemma respects_then_regs keep o f : respects same_but_hits (then_regs keep o f).
Proof.
  intros m m' Hm. split; [done|]. destruct m as [c [l cap rd wr] w cb cm], m' as [c' [l' cap' rd' wr'] w' cb' cm'].
  unfold same_but_hits, but_hits, as_forget in Hm. cbn in Hm. injection Hm as -> -> -> -> -> ->. done.
Qed.

Lemma respects_insn_sem keep o rip : respects same_but_hits (insn_sem keep o rip).
Proof.
  unfold insn_sem. apply respects_bind.
  - intros m m' Hm. apply mem_part_rel; [apply _|done|]. intros _. by injection Hm as ->.
  - intros f. apply respects_if_running; [apply _|]. apply respects_then_regs.
Qed.

Lemma respects_block_sem keep v rip : respects same_but_hits (block_sem keep v rip).
Proof.
  revert rip. induction v as [|o v IH]; intros rip; [apply respects_ret|]. cbn [block_sem].
  apply respects_bind; [apply respects_insn_sem|]. intros _. apply respects_if_running; [apply _|]. apply IH.
Qed.

(* ------------------------------------------------------------------ *)
(** ** What they leave alone *)

(** The flags, a log that is not open, and which bytes there are. *)
Record quiet (m m' : machine) : Prop := {
  qu_flags : c_flags (m_c m') = c_flags (m_c m);
  qu_log : c_wlog (m_c m) = None -> c_wlog (m_c m') = None;
  qu_dom : forall i, is_Some (mem_of m' !! i) -> is_Some (mem_of m !! i)
}.

#[export] Instance quiet_preorder : PreOrder quiet.
Proof. split; [by intros m|]. intros m1 m2 m3 [E1 E2 E3] [F1 F2 F3]. split; [congruence|auto|auto]. Qed.

Lemma quiet_upd f : (forall c, c_flags (f c) = c_flags c /\ c_wlog (f c) = c_wlog c) -> keeps quiet (upd f).
Proof. intros Hf m a m' [= <- <-]. destruct (Hf (m_c m)) as [E1 E2]. split; cbn; [done| |done]. by rewrite E2. Qed.

Lemma quiet_memfault a what : keeps quiet (memfault a what).
Proof. apply quiet_upd. intros c. unfold memfault_cpu. by destruct (c_fault c). Qed.

Lemma quiet_log_write a v size : keeps quiet (log_write a v size).
Proof.
  intros m u m'. unfold log_write. intros (w & m1 & [= <- <-] & Hk)%bind_ok.
  set (Q := fun m m' : machine => c_flags (m_c m') = c_flags (m_c m) /\ mem_of m' = mem_of m).
  assert (Hp : PreOrder Q) by (split; unfold Q; [by intros ?|intros ? ? ? [] []; split; congruence]).
  assert (Hw : forall w', keeps Q (upd (with_wlog w'))) by (by intros ? ? ? ? [= <- <-]).
  destruct (c_wlog (m_c m)) as [w|] eqn:E; [|by injection Hk as <- <-].
  enough (Q m m') as [E1 E2] by (split; [done|congruence|by rewrite E2]).
  revert Hk. case_match; [intros Hk; by eapply Hw in Hk|].
  intros (old & m2 & F1 & (s & m3 & [= <- <-] & (bf & m4 & F2 & F3)%bind_ok)%bind_ok)%bind_ok.
  pose proof (keeps_host_read Q _ _ _ _ _ F1) as G1. pose proof (keeps_host_bytes Q _ _ _ _ _ F2) as G2.
  pose proof (Hw _ _ _ _ F3) as G3. by rewrite G1, G2.
Qed.

Lemma quiet_host_store a bs : keeps quiet (host_store a bs).
Proof.
  intros m u m' [-> Hr]%host_store_ok. split; [done..|]. intros i. unfold mem_of at 1. cbn. rewrite write_bytes_mapped.
  intros [?|Hi]; [done|]. rewrite read_bytes_is_Some in Hr. by apply Hr.
Qed.

Lemma quiet_ld a size : keeps quiet (ld a size).
Proof.
  unfold ld. apply keeps_bind; [apply _|apply keeps_gets, _|]. intros s. case_match; [|apply keeps_host_read, _].
  apply keeps_bind; [apply _|apply quiet_memfault|]. intros _. apply keeps_ret, _.
Qed.

Lemma quiet_st a v size : keeps quiet (Machine.st a v size).
Proof.
  unfold Machine.st. apply keeps_bind; [apply _|apply keeps_gets, _|]. intros s. case_match; [apply quiet_memfault|].
  apply keeps_bind; [apply _|apply quiet_log_write|]. intros _. apply quiet_host_store.
Qed.

Lemma quiet_push v : keeps quiet (push v).
Proof.
  unfold push, getr, get_c, setr. do 3 (apply keeps_bind; [apply _|apply keeps_gets, _ || by apply quiet_upd|intros ?]).
  apply quiet_st.
Qed.

Lemma quiet_mem_operand o rip size : keeps quiet (mem_operand o rip size).
Proof.
  unfold mem_operand. apply keeps_bind; [apply _|apply keeps_gets, _|]. intros R.
  apply keeps_bind; [apply _|by apply quiet_upd|]. intros _. apply quiet_ld.
Qed.

Lemma quiet_if_running c : keeps quiet c -> keeps quiet (if_running c).
Proof.
  intros Hc. unfold if_running. apply keeps_bind; [apply _|apply keeps_gets, _|]. intros [|]; [done|apply keeps_ret, _].
Qed.

Lemma quiet_mem_part o rip : keeps quiet (mem_part o rip).
Proof.
  unfold mem_part. cbv zeta. destruct (i_kind o); repeat case_match;
    repeat first [apply quiet_mem_operand|apply quiet_st|apply quiet_push|apply quiet_ld|by apply quiet_upd
      |apply keeps_ret, _|apply keeps_gets, _|apply quiet_if_running|case_match
      |apply keeps_bind; [apply _| |intros ?]].
Qed.
(* ------------------------------------------------------------------ *)
(** ** What they do to the flags *)

(** The registers depend on the flags read only, the flags written on nothing
    else, and no other flag changes, unless by a routine. *)
Record flag_fun (o : insn) (f : gstate -> gstate) : Prop := {
  ff_regs R fl fl' : fl .& flags_read o = fl' .& flags_read o -> (f (R, fl)).1 = (f (R, fl')).1;
  ff_bits R fl fl' i : 0 <= i -> Z.testbit (flags_written o) i = true \/ Z.testbit fl i = Z.testbit fl' i ->
    Z.testbit (f (R, fl)).2 i = Z.testbit (f (R, fl')).2 i;
  ff_kept R fl i : by_routine o = false -> 0 <= i -> Z.testbit (flags_written o) i = false -> Z.testbit (f (R, fl)).2 i = Z.testbit fl i
}.

Lemma flag_fun_reg o : reg_covers o -> flag_fun o (fun s => reg_sem o s.1 s.2).
Proof.
  intros Hc. split; cbn [fst snd].
  - intros. by apply reg_sem_regs.
  - intros. by apply reg_sem_bit.
  - intros. by apply reg_sem_kept.
Qed.

(** The flags are left alone. *)
Lemma flag_fun_none o (g : (Z -> Z) -> Z -> Z) : flags_written o = 0 -> flag_fun o (fun s => (g s.1, s.2)).
Proof. intros Hw. split; cbn [fst snd]; rewrite ?Hw; [done|..]; intros; rewrite ?Z.testbit_0_l in *; naive_solver. Qed.

Lemma flag_fun_same o : flags_written o = 0 -> flag_fun o (fun s => s).
Proof. intros Hw. split; cbn [fst snd]; rewrite ?Hw; [done|..]; intros; rewrite ?Z.testbit_0_l in *; naive_solver. Qed.

(** An operation's. *)
Lemma flags_written_op o :
  i_kind o = K_RM \/ i_kind o = K_MR \/ i_kind o = K_MI -> is_one_of (i_op o) reg_ops = true ->
  flags_written o = match op_helper (i_op o) with Some fn => fn_writes fn | None => 0 end.
Proof.
  intros Hk Hop. transitivity (flags_written (iw_kind K_RR o)).
  - unfold flags_written. cbn [i_kind iw_kind]. by destruct Hk as [->|[->| ->]].
  - apply (flags_written_helper (iw_kind K_RR o)); [by left|done].
Qed.

Lemma flag_fun_op o (g : (Z -> Z) -> Z -> Z) (a : (Z -> Z) -> Z) b (r : (Z -> Z) -> Z) size :
  i_kind o = K_RM \/ i_kind o = K_MR \/ i_kind o = K_MI -> is_one_of (i_op o) reg_ops = true -> opsize size ->
  flag_fun o (fun s => (g s.1, helper_flags (op_helper (i_op o)) s.2 (a s.1) b (r s.1) size)).
Proof.
  intros Hk Hop Hs. split; cbn [fst snd]; rewrite ?flags_written_op by done.
  - done.
  - intros. by apply helper_flags_bit.
  - intros. by apply helper_flags_kept.
Qed.

(** The result of a shift does not depend on the flags, and each flag is
    overwritten or left. *)
Lemma shift_result fl fl' a c size ext : (rsd_i_shift fl a c size ext).1 = (rsd_i_shift fl' a c size ext).1.
Proof. unfold rsd_i_shift. by repeat case_match. Qed.

Lemma shift_bit fl fl' a c size ext i :
  opsize size -> 0 <= i -> Z.testbit FL_LOGIC i = true \/ Z.testbit fl i = Z.testbit fl' i ->
  Z.testbit (rsd_i_shift fl a c size ext).2 i = Z.testbit (rsd_i_shift fl' a c size ext).2 i.
Proof.
  intros Hs Hi Hw. unfold rsd_i_shift. destruct (if (ext =? 4) || (ext =? 6) then _ else _) as [[r cf] ovf]. cbn [snd].
  generalize (trunc_sz r size) (nz cf) (nz ovf). intros res bc bo. flag_word_bits fl fl' i Hi Hw.
Qed.

Lemma flag_fun_shift o : i_kind o = K_SHIFT -> opsize (i_size o) -> flag_fun o (ref_shift o).
Proof.
  intros Hk Hs. unfold ref_shift. cbn [fst snd]. split; cbn [fst snd].
  - intros R fl fl' _. destruct (nz (shift_count o R)); [|done].
    pose proof (shift_result fl fl' (reg_rd (i_has_rex o) R (i_reg o) (i_size o)) (shift_count o R) (i_size o) (i_ext o)) as Hr.
    destruct (rsd_i_shift fl _ _ _ _), (rsd_i_shift fl' _ _ _ _). cbn in *. by subst.
  - intros R fl fl' i Hi Hw. unfold flags_written in Hw. rewrite Hk in Hw. unfold shift_count.
    destruct (nz ((if i_by_cl o then R 1 else i_imm o) .& _)) eqn:Ec.
    + pose proof (shift_bit fl fl' (reg_rd (i_has_rex o) R (i_reg o) (i_size o))
        ((if i_by_cl o then R 1 else i_imm o) .& (if i_size o =? 8 then 63 else 31)) (i_size o) (i_ext o) i Hs Hi) as Hr.
      destruct (rsd_i_shift fl _ _ _ _), (rsd_i_shift fl' _ _ _ _). cbn in *. apply Hr.
      destruct (i_by_cl o || _); [|exact Hw]. destruct Hw as [Hw|Hw]; [by rewrite Z.testbit_0_l in Hw|by right].
    + cbn. destruct Hw as [Hw|Hw]; [|done]. destruct (i_by_cl o); [by rewrite Z.testbit_0_l in Hw|].
      rewrite Ec in Hw. by rewrite Z.testbit_0_l in Hw.
  - intros R fl i Hb. unfold by_routine in Hb. by rewrite Hk in Hb.
Qed.

(** The result of a computation in steps is its last step's. *)
Ltac last_step Hf := repeat (apply bind_ok in Hf; destruct Hf as (? & ? & _ & Hf)); injection Hf as <- _.

Lemma mem_part_fun o rip m f m1 : sem_covers o -> mem_part o rip m = Ok f m1 -> flag_fun o f.
Proof.
  intros Hc Hf. assert (Hreg : reg_covers o -> flag_fun o (fun s => reg_sem o s.1 s.2)) by apply flag_fun_reg.
  unfold mem_part, sem_covers, reg_covers in *.
  assert (Hnone : flags_written o = 0 -> forall g, flag_fun o (fun s => (g s.1, s.2))) by (intros; by apply flag_fun_none).
  assert (Hsame : flags_written o = 0 -> flag_fun o (fun s => s)) by apply flag_fun_same.
  assert (Hop : i_kind o = K_RM \/ i_kind o = K_MR \/ i_kind o = K_MI -> opsize (i_size o) /\ is_one_of (i_op o) reg_ops = true ->
    forall g a b r, flag_fun o (fun s => (g s.1, helper_flags (op_helper (i_op o)) s.2 (a s.1) b (r s.1) (i_size o))))
    by (intros ? [? ?] ? ? ? ?; by apply flag_fun_op).
  assert (Hw : match i_kind o with K_RR | K_RI | K_RM | K_MR | K_MI | K_IMUL | K_SHIFT => True | _ => flags_written o = 0 end)
    by (unfold flags_written; by destruct (i_kind o)).
  assert (Hst : i_kind o = K_MR \/ i_kind o = K_MI -> i_op o = 0x88 -> flags_written o = 0)
    by (intros [Hk|Hk] E; unfold flags_written; by rewrite Hk, E).
  destruct (i_kind o) eqn:Hk; try done; cbv zeta in Hf; try (injection Hf as <- _; auto; fail);
    try (injection Hf as <- _; by apply flag_fun_shift).
  - last_step Hf. set (a := fun R => reg_rd (i_has_rex o) R (i_reg o) (i_size o)).
    apply (Hop (or_introl eq_refl) Hc (fun R => (ref_op o (a R) x (R, 0)).1) a x (fun R => op_result (i_op o) (i_size o) (a R) x)).
  - apply bind_ok in Hf as (R & m2 & _ & Hf). destruct (Z.eqb_spec (i_op o) 0x88); last_step Hf; [by apply Hsame, Hst; auto|].
    apply (Hop (or_intror (or_introl eq_refl)) Hc (fun R => R) (fun _ => x) _ (fun _ => op_result (i_op o) (i_size o) x (mov_value o R))).
  - apply bind_ok in Hf as (R & m2 & _ & Hf). destruct (Z.eqb_spec (i_op o) 0x88); last_step Hf; [by apply Hsame, Hst; auto|].
    apply (Hop (or_intror (or_intror eq_refl)) Hc (fun R => R) (fun _ => x) _ (fun _ => op_result (i_op o) (i_size o) x (mov_value o R))).
  - last_step Hf. auto.
  - last_step Hf. apply (Hnone Hw (fun R => upd_reg 4 (u64 (R 4 + 8)) (upd_reg (i_reg o) x3 R))).
  - destruct (o_mem (i_mo o)); last_step Hf; [apply (Hnone Hw (fun R => upd_reg (i_reg o) (extended o x) R))|auto].
  - destruct (o_mem (i_mo o)); last_step Hf; [|auto].
    split; cbn [fst snd]; unfold flags_written; rewrite ?Hk; [done| |]; intros.
    + by apply (flags_of_bit fn_flags_logic _ _ 0 0).
    + by apply (flags_of_kept fn_flags_logic _ 0 0).
  - destruct (o_mem (i_mo o)); last_step Hf; auto.
Qed.

(* ------------------------------------------------------------------ *)
(** ** The analysis, on whole machines *)

Lemma reg_set_gpr R fl m r : greg r -> reg (set_gpr R fl m) r = R r.
Proof.
  intros Hr. unfold greg in Hr. unfold reg, set_gpr. cbn -[seqZ].
  apply list_lookup_total_correct. rewrite list_lookup_fmap, lookup_seqZ_lt by lia. cbn. do 2 f_equal. lia.
Qed.

(** The registers of a machine, and another flags word. *)
Lemma set_gpr_flags fl m : length (c_r (m_c m)) = 16%nat -> set_gpr (reg m) fl m = upd_m (with_flags fl) m.
Proof.
  intros Hl. assert (Hr : reg m <$> seqZ 0 16 = c_r (m_c m)).
  { apply list_eq_same_length with 16%nat; [done|by rewrite length_fmap, length_seqZ|].
    intros i x y Hi Hx Hy. rewrite list_lookup_fmap, lookup_seqZ_lt in Hx by lia. injection Hx as <-.
    unfold reg. rewrite Z.add_0_l, Nat2Z.id. by apply list_lookup_total_correct. }
  unfold set_gpr, upd_m. rewrite Hr. by destruct m as [[] as_ w cb cm].
Qed.

Definition reflag (fl : Z) (m : machine) : machine := upd_m (with_flags fl) m.

Lemma reflag_flags fl fl' m : reflag fl (reflag fl' m) = reflag fl m.
Proof. done. Qed.
Lemma reflag_but fl m : reflag fl (but_flags m) = reflag fl m.
Proof. done. Qed.
Lemma reflag_same m : urange 32 (c_flags (m_c m)) -> reflag (c_flags (m_c m)) m = m.
Proof. intros Hf. destruct m as [[] as_ w cb cm]. unfold reflag, upd_m, with_flags. cbn in *. by rewrite uwrap_small. Qed.
Lemma same_reflag fl fl' m : same_but_flags (reflag fl m) (reflag fl' m).
Proof. done. Qed.

(** The state the analysis does not look into: the address reached and the
    machine, or nothing after a trap.  The flags of a machine that stopped no
    longer matter. *)
Definition seen (rip : Z) (r : outcome unit) : option (Z * machine) * Z :=
  match r with
  | Ok _ m => (Some (rip, but_flags m), if c_running (m_c m) then c_flags (m_c m) else 0)
  | Trap _ => (None, 0)
  end.

Definition whole_sem (o : insn) (s : option (Z * machine)) (fl : Z) : option (Z * machine) * Z :=
  match s with
  | Some (rip, m) => if c_running (m_c m) then seen (i_next o) (insn_sem all_flags o rip (reflag fl m)) else (s, 0)
  | None => (None, 0)
  end.

Lemma testbit_u32 z i : 0 <= i -> Z.testbit (u32 z) i = (i <? 32) && Z.testbit z i.
Proof.
  intros Hi. unfold uwrap. destruct (Z.ltb_spec i 32); [by rewrite Z.mod_pow2_bits_low|by rewrite Z.mod_pow2_bits_high by lia].
Qed.

(** From flags that agree where they are read, an instruction leaves machines
    that differ in their flags only, and in those only where the first ones did
    and it does not write. *)
Lemma insn_flags o rip m fl fl' :
  sem_covers o -> fl .& flags_read o = fl' .& flags_read o ->
  match insn_sem all_flags o rip (reflag fl m), insn_sem all_flags o rip (reflag fl' m) with
  | Ok _ m1, Ok _ m2 => same_but_flags m1 m2 /\ (c_running (m_c m1) = true -> forall i, 0 <= i ->
      Z.testbit (flags_written o) i = true \/ Z.testbit fl i = Z.testbit fl' i ->
      Z.testbit (c_flags (m_c m1)) i = Z.testbit (c_flags (m_c m2)) i)
  | Trap _, Trap _ => True
  | _, _ => False
  end.
Proof.
  intros Hc Hr.
  assert (Hr32 : u32 fl .& flags_read o = u32 fl' .& flags_read o).
  { apply Z.bits_inj'. intros i Hi. rewrite !Z.land_spec, !testbit_u32 by done.
    apply (f_equal (fun z => Z.testbit z i)) in Hr. rewrite !Z.land_spec in Hr.
    by destruct (i <? 32), (Z.testbit (flags_read o) i), (Z.testbit fl i), (Z.testbit fl' i). }
  unfold insn_sem, mbind, M_bind.
  assert (Hcond : i_kind o = K_SETCC -> cond (c_flags (m_c (reflag fl m))) (i_cc o) = cond (c_flags (m_c (reflag fl' m))) (i_cc o)).
  { intros Hk. apply cond_reads; [unfold sem_covers, reg_covers in Hc; by rewrite Hk in Hc|].
    unfold flags_read in Hr32. by rewrite Hk in Hr32. }
  pose proof (mem_part_rel same_but_flags o rip _ _ (same_reflag fl fl' m) Hcond) as Hm.
  pose proof (quiet_mem_part o rip (reflag fl m)) as Q1. pose proof (quiet_mem_part o rip (reflag fl' m)) as Q2.
  pose proof (mem_part_fun o rip (reflag fl m)) as Hff.
  destruct (mem_part o rip (reflag fl m)) as [f m1|], (mem_part o rip (reflag fl' m)) as [f' m2|]; try done.
  destruct Hm as [<- Hm].
  destruct (Q1 _ _ eq_refl) as [E1 _ _], (Q2 _ _ eq_refl) as [E2 _ _]. specialize (Hff _ _ Hc eq_refl).
  destruct (in_cpu _ _ Hm) as (Er & En & _).
  unfold if_running, get_c, gets, mbind, M_bind. rewrite <- En. destruct (c_running (m_c m1)) eqn:Erun.
  - cbn [then_regs modify m_c set_gpr upd_m c_flags with_flags c_running with_r]. unfold all_flags.
    change (c_flags (m_c (reflag fl m))) with (u32 fl) in E1. change (c_flags (m_c (reflag fl' m))) with (u32 fl') in E2.
    assert (Hreg : reg m1 = reg m2) by (unfold reg; by rewrite Er). rewrite E1, E2, <- Hreg. split.
    + rewrite (ff_regs _ _ Hff _ _ _ Hr32). set (R := (f _).1). set (x := (f _).2). set (y := (f _).2).
      pose proof (in_upd_r (R <$> seqZ 0 16) _ _ Hm) as H1. exact H1.
    + intros _ i Hi Hb. rewrite !testbit_u32 by done. destruct (i <? 32) eqn:E32; [|done]. cbn.
      apply (ff_bits _ _ Hff); [done|]. rewrite !testbit_u32, E32 by done. exact Hb.
  - split; [exact Hm|congruence].
Qed.

Lemma whole_sem_rel o s fl fl' :
  sem_covers o -> fl .& flags_read o = fl' .& flags_read o ->
  (whole_sem o s fl).1 = (whole_sem o s fl').1 /\
  forall i, 0 <= i -> Z.testbit (flags_written o) i = true \/ Z.testbit fl i = Z.testbit fl' i ->
    Z.testbit (whole_sem o s fl).2 i = Z.testbit (whole_sem o s fl').2 i.
Proof.
  intros Hc Hr. unfold whole_sem. destruct s as [[rip m]|]; [|done]. destruct (c_running (m_c m)) eqn:E; [|done].
  pose proof (insn_flags o rip m fl fl' Hc Hr) as Hi. unfold seen.
  destruct (insn_sem _ _ _ _) as [[] m1|], (insn_sem _ _ _ _) as [[] m2|]; try done.
  destruct Hi as [Hm Hb]. cbn [fst snd]. destruct (in_cpu _ _ Hm) as (_ & <- & _). split; [by do 2 f_equal|].
  intros i Hi Hw. destruct (c_running (m_c m1)); [by apply Hb|done].
Qed.

#[export] Instance whole_flag_sem : FlagSem (option (Z * machine)).
Proof.
  refine {| sem := whole_sem; covers := sem_covers |}.
  - intros o n. unfold whole_sem, insn_sem, mem_part. by destruct o as [[]].
  - intros. by apply whole_sem_rel.
  - intros. apply whole_sem_rel; auto.
  - intros. apply whole_sem_rel; auto.
Defined.

(** Running on whole machines, and running on what the analysis sees. *)
Definition shows (rip : Z) (r : outcome unit) (s : option (Z * machine) * Z) : Prop :=
  match r with
  | Ok _ m => s.1 = Some (rip, but_flags m) /\ (c_running (m_c m) = true -> s.2 = c_flags (m_c m))
  | Trap _ => s.1 = None
  end.

Lemma insn_sem_flags keep o rip m m1 :
  urange 32 (c_flags (m_c m)) -> insn_sem keep o rip m = Ok tt m1 -> urange 32 (c_flags (m_c m1)).
Proof.
  intros Hf (f & m2 & [E _ _]%quiet_mem_part & Hk)%bind_ok. unfold if_running, get_c, gets, mbind, M_bind in Hk.
  destruct (c_running (m_c m2)); injection Hk as <-; [by apply uwrap_range|congruence].
Qed.

Section blocks.
Context (keep : insn -> Z -> Z -> Z) (run : insn -> option (Z * machine) -> Z -> option (Z * machine) * Z) (good : insn -> Prop).
Hypothesis run_step : forall o rip m, good o -> c_running (m_c m) = true -> urange 32 (c_flags (m_c m)) ->
  shows (i_next o) (insn_sem keep o rip m) (run o (Some (rip, but_flags m)) (c_flags (m_c m))).
Hypothesis run_stopped : forall o rip m fl, c_running (m_c m) = false -> (run o (Some (rip, m)) fl).1 = Some (rip, m).
Hypothesis run_none : forall o fl, (run o None fl).1 = None.

Lemma run_sem_stays v s : (forall o fl, (run o s.1 fl).1 = s.1) -> (run_sem run v s).1 = s.1.
Proof.
  intros Hs. revert s Hs. induction v as [|o v IH]; intros s Hs; [done|]. unfold run_sem in *. cbn [foldl].
  rewrite IH; [apply Hs|]. by rewrite Hs.
Qed.

Lemma block_shows v rip m :
  Forall good v -> c_running (m_c m) = true -> urange 32 (c_flags (m_c m)) ->
  exists rip', shows rip' (block_sem keep v rip m) (run_sem run v (Some (rip, but_flags m), c_flags (m_c m))).
Proof.
  revert rip m. induction v as [|o v IH]; intros rip m Hv Hrun Hf; [by exists rip|].
  apply Forall_cons in Hv as [Ho Hv]. cbn [block_sem]. unfold mbind, M_bind, run_sem. cbn [foldl fst snd].
  pose proof (run_step o rip m Ho Hrun Hf) as Hs. pose proof (insn_sem_flags keep o rip m) as Hf1.
  destruct (run o (Some (rip, but_flags m)) (c_flags (m_c m))) as [s fl1]. fold (run_sem run v (s, fl1)).
  destruct (insn_sem keep o rip m) as [[] m1|]; cbn [shows fst snd] in *.
  - destruct Hs as [-> Hs]. unfold if_running, get_c, gets, mbind, M_bind.
    destruct (c_running (m_c m1)) eqn:E1; [rewrite Hs by done; by apply IH, Hf1|].
    exists (i_next o). split; [|cbn; congruence]. apply run_sem_stays. intros o' fl. by apply run_stopped.
  - subst s. exists rip. cbn. apply run_sem_stays. intros. apply run_none.
Qed.
End blocks.

Lemma all_step o rip m :
  sem_covers o -> c_running (m_c m) = true -> urange 32 (c_flags (m_c m)) ->
  shows (i_next o) (insn_sem all_flags o rip m) (whole_sem o (Some (rip, but_flags m)) (c_flags (m_c m))).
Proof.
  intros _ Hrun Hf. unfold whole_sem. change (c_running (m_c (but_flags m))) with (c_running (m_c m)).
  rewrite Hrun, reflag_but, reflag_same by done. destruct (insn_sem _ _ _ _) as [[] m1|]; [|done].
  split; [done|]. cbn. by intros ->.
Qed.

(** Leaving out flags of the last step. *)
Lemma needed_step o rip m :
  sem_covers o -> c_running (m_c m) = true -> urange 32 (c_flags (m_c m)) ->
  shows (i_next o) (insn_sem needed_flags o rip m) (lazy_sem o (Some (rip, but_flags m)) (c_flags (m_c m))).
Proof.
  intros Hc Hrun Hf. pose proof (all_step o rip m Hc Hrun Hf) as Hs. unfold lazy_sem. cbn [sem whole_flag_sem].
  revert Hs. generalize (whole_sem o (Some (rip, but_flags m)) (c_flags (m_c m))). intros [s F].
  unfold insn_sem, mbind, M_bind. pose proof (quiet_mem_part o rip m) as Q1. pose proof (mem_part_fun o rip m) as Hff.
  destruct (mem_part o rip m) as [f m1|]; [|done]. destruct (Q1 _ _ eq_refl) as [E1 _ _]. specialize (Hff _ _ Hc eq_refl).
  unfold if_running, get_c, gets, mbind, M_bind. destruct (c_running (m_c m1)) eqn:Erun; [|by intros [? _]; split; [|cbn; congruence]].
  intros [-> HF]. specialize (HF Erun). cbn [fst snd shows] in *. split; [done|]. intros _. subst F. cbn -[uwrap]. unfold all_flags, needed_flags.
  rewrite E1. apply Z.bits_inj'. intros i Hi. rewrite merge_bit, !testbit_u32, merge_bit by done. unfold skips.
  rewrite Z.land_spec, Z.lnot_spec by done. pose proof (fun Hb => ff_kept _ _ Hff (reg m1) (c_flags (m_c m)) i Hb Hi) as Hk.
  assert (H32 : Z.testbit (c_flags (m_c m)) i = (i <? 32) && Z.testbit (c_flags (m_c m)) i).
  { rewrite <- testbit_u32 by done. by rewrite uwrap_small. }
  unfold computed. destruct (by_routine o); [by rewrite Z.bits_m1, andb_false_r by done|]. specialize (Hk eq_refl).
  destruct (Z.testbit (flags_written o) i), (Z.testbit (i_fneed o) i); cbn in *; try done; by rewrite Hk.
Qed.

Lemma covers_liveness v live : Forall sem_covers v -> Forall sem_covers (flag_liveness_from v live).1.
Proof.
  induction v as [|o v IH]; cbn [flag_liveness_from]; [done|]. intros [Ho Hv]%Forall_cons.
  specialize (IH Hv). destruct (flag_liveness_from v live). constructor; [|done]. by destruct o as [[]].
Qed.

Lemma same_flags_eq m m' : same_but_flags m m' -> c_flags (m_c m) = c_flags (m_c m') -> m = m'.
Proof.
  destruct m as [[] as_ w cb cm], m' as [[] as' w' cb' cm']. unfold same_but_flags, but_flags, upd_m, with_flags. cbn.
  by intros [=] ?; subst.
Qed.

Lemma block_flags_ok v rip m :
  Forall sem_covers v -> c_running (m_c m) = true -> urange 32 (c_flags (m_c m)) ->
  match block_sem all_flags v rip m, block_sem needed_flags (flag_liveness v) rip m with
  | Ok _ m1, Ok _ m2 => same_but_flags m1 m2 /\ (c_running (m_c m1) = true -> m1 = m2)
  | Trap _, Trap _ => True
  | _, _ => False
  end.
Proof.
  intros Hv Hrun Hf.
  assert (Hstop : forall o rip m fl, c_running (m_c m) = false -> (whole_sem o (Some (rip, m)) fl).1 = Some (rip, m))
    by (intros ? ? ? ? E; cbn; by rewrite E).
  pose proof (covers_liveness v FL_ALL Hv) as Hneed. fold (flag_liveness v) in Hneed.
  destruct (block_shows all_flags whole_sem sem_covers all_step Hstop ltac:(done) v rip m Hv Hrun Hf) as [r1 H1].
  destruct (block_shows needed_flags lazy_sem _ needed_step Hstop ltac:(done) _ rip m Hneed Hrun Hf) as [r2 H2].
  rewrite flag_liveness_ok in H2 by exact Hv. cbn [sem whole_flag_sem] in H2. revert H1 H2.
  generalize (run_sem whole_sem v (Some (rip, but_flags m), c_flags (m_c m))). intros s.
  destruct (block_sem all_flags v rip m) as [[] m1|], (block_sem needed_flags _ rip m) as [[] m2|]; cbn [shows];
    try done; [|by intros [-> _]|by intros -> [? _]].
  intros [E1 F1] [E2 F2]. rewrite E1 in E2. assert (Hm : same_but_flags m1 m2) by exact (f_equal (fun x => default m1 (snd <$> x)) E2). split; [exact Hm|]. intros E. apply same_flags_eq; [exact Hm|].
  rewrite <- F1, <- F2; [done| |done]. by rewrite <- (proj1 (proj2 (in_cpu _ _ Hm))).
Qed.

(** C12.  The flags analysis is right about whole blocks.  For instructions that
    read and write memory as well as registers, the block run with only the
    flags [flag_liveness] asks for traps where the block run with all of them
    does; where an access stops the block, it stops with the same machine but
    for the flags; and where the block runs to its end, the machine is the
    same, the flags included.  An instruction whose flags a routine computes,
    on bytes or a shift, has all or none of them computed. *)
Theorem block_flags_sound v rip m :
  Forall sem_covers v -> c_running (m_c m) = true -> urange 32 (c_flags (m_c m)) ->
  match block_sem all_flags v rip m, block_sem needed_flags (flag_liveness v) rip m with
  | Ok _ m1, Ok _ m2 => same_but_flags m1 m2 /\ (c_running (m_c m1) = true -> m1 = m2)
  | Trap _, Trap _ => True
  | _, _ => False
  end.
Proof. apply block_flags_ok. Qed.
End sem.
