(* ===== verification/JitMem.v ===== *)
(** Compiled loads and stores ([put_region_check], [put_load] and [put_store] in
    [src/jit.c]): run on the A64 machine they do to guest memory what the
    interpreter's [ld] and [st] do, in line where a noted region covers the
    access, through the interpreter's own routine where none does. *)
From S2P Require Import Prelude.
From S2P Require Import Memory.
From S2P Require Import AddressSpace.
From S2P Require Import A64.
From S2P Require Import Emit.
From S2P Require Import JitEmit.
From S2P Require Import JitRun.
From S2P Require Import JitFlags.
From S2P Require Import JitCode.

(* ------------------------------------------------------------------ *)
(** ** The words of an access *)

(** One word emitted, in front of the rest. *)
Lemma put_run {B} w (f : unit -> E B) b :
  full_stays (f tt) -> b_full ((put w ≫= f) b).2 = false ->
  b_full b = false /\ (put w ≫= f) b = f tt (Buf (b_out b ++ [w]) (b_max b) false (b_check b) (b_fix b)).
Proof.
  intros Hf. unfold mbind, E_bind, put. destruct (b_max b <=? b_n b).
  - cbn. rewrite Hf; done.
  - destruct (b_full b) eqn:E; [|done]. rewrite Hf; done.
Qed.

(** Patching a word with what lies behind it. *)
Lemma patch_run at_ (l k : list Z) x w out mx ch fx :
  out = l ++ x :: k -> at_ = Z.of_nat (length l) ->
  patch at_ w (Buf out mx false ch fx) = (tt, Buf (l ++ w (1 + len k) :: k) mx false ch fx).
Proof.
  intros -> ->. unfold patch. cbn [b_full b_out b_max b_check b_fix]. do 2 f_equal. rewrite Nat2Z.id.
  rewrite insert_app_r_alt, Nat.sub_diag by lia. cbn. do 2 f_equal. f_equal.
  unfold b_n, len. cbn. rewrite length_app. cbn. lia.
Qed.

Definition as_off (write : bool) : Z := if write then OFF_AS_WR else OFF_AS_RD.

(** The check of one noted region, and the branch after it. *)
Definition hit_words (e c d : Z) : list Z :=
  [a64_ldr A64_X10 A64_X9 e; a64_ldr A64_X11 A64_X9 (e + 8); a64_sub A64_X12 A64_X1 A64_X10;
   a64_subs_zr A64_X12 A64_X11 false; a64_bcond c d].

(** What [put_region_check] emits, its branch to the slow path [d] words long. *)
Definition region_words (write : bool) (d : Z) : list Z :=
  [a64_ldr A64_X9 CPU OFF_AS] ++ hit_words (as_off write) A64_CC 6 ++ hit_words (as_off write + 16) A64_CS d.

Ltac stays_full := cbv beta; unfold put_patch_bcond, put_patch_b; 
  repeat first [apply full_put|apply full_here|apply full_patch|apply full_ret|apply full_bind
    |match goal with |- forall _ : _, full_stays _ => intros ? end].

(** Emit the next word of [H]. *)
Ltac emit_word H :=
  lazymatch type of H with
  | b_full ((put ?w ≫= ?f) ?b).2 = false =>
      let Hb := fresh "Hb" in let He := fresh "He" in
      destruct (put_run w f b) as [Hb He]; [solve [stays_full]|exact H|]; rewrite -> He in H; rewrite -> He; clear He;
      cbn [b_out b_max b_check b_fix b_full] in H, Hb |- *
  | b_full ((here ≫= ?f) ?b).2 = false =>
      change ((here ≫= f) b) with (f (b_n b) b) in H |- *; cbv beta in H |- *
  end.

Lemma region_emit write b :
  b_full (put_region_check write b).2 = false ->
  b_full b = false /\ put_region_check write b =
    (b_n b + 10, Buf (b_out b ++ region_words write 0) (b_max b) false (b_check b) (b_fix b)).
Proof.
  unfold put_region_check. intros Hf. cbv zeta in *. do 13 emit_word Hf. split; [done|].
  unfold b_n. cbn [b_out]. unfold put_patch_bcond, mbind, E_bind.
  rewrite (patch_run _ (b_out b ++ take 5 (region_words write 0)) (drop 6 (region_words write 0)) (a64_bcond A64_CC 0));
    [|by rewrite <- !app_assoc; destruct write|by rewrite !length_app; cbn; lia].
  unfold mret, E_ret. f_equal; [by rewrite !length_app; cbn; lia|]. f_equal. by rewrite <- !app_assoc; destruct write.
Qed.

(** The two ways of an access: [fast] where the check succeeds, [slow] behind it
    where it does not. *)
Definition put_access (write : bool) (fast slow : E unit) : E unit :=
  at_ ← put_region_check write;
  fast;;
  over ← here;
  put (a64_b 0);;
  put_patch_bcond at_ A64_CS;;
  slow;;
  put_patch_b over.

Definition access_words (write : bool) (wf ws : list Z) : list Z :=
  region_words write (2 + len wf) ++ wf ++ [a64_b (1 + len ws)] ++ ws.

(** Nothing emitted changes what the block is compiled for. *)
Definition keeps_check {A} (c : E A) : Prop := forall b, b_check (c b).2 = b_check b.

Lemma keeps_check_put w : keeps_check (put w).
Proof. intros b. unfold put. by case_match. Qed.
Lemma keeps_check_ret {A} (a : A) : keeps_check (mret a).
Proof. by intros b. Qed.
Lemma keeps_check_bind {A B} (c : E A) (f : A -> E B) :
  keeps_check c -> (forall a, keeps_check (f a)) -> keeps_check (c ≫= f).
Proof.
  intros Hc Hf b. unfold mbind, E_bind. specialize (Hc b). destruct (c b) as [a b1]. cbn in Hc.
  by rewrite Hf.
Qed.
Lemma keeps_check_patch at_ w : keeps_check (patch at_ w).
Proof. intros b. unfold patch. by case_match. Qed.
Lemma keeps_check_here : keeps_check here.
Proof. by intros b. Qed.

Lemma keeps_check_region write : keeps_check (put_region_check write).
Proof.
  unfold put_region_check, put_patch_bcond. cbv zeta.
  repeat first [apply keeps_check_put|apply keeps_check_here|apply keeps_check_patch|apply keeps_check_ret
    |apply keeps_check_bind|match goal with |- forall _ : _, keeps_check _ => intros ? end].
Qed.

Lemma full_region write : full_stays (put_region_check write).
Proof. unfold put_region_check. cbv zeta. stays_full. Qed.

Lemma patch_full at_ w b : b_full (patch at_ w b).2 = b_full b.
Proof. unfold patch. by destruct (b_full b) eqn:E. Qed.

Lemma region_words_split write d : region_words write d = take 10 (region_words write 0) ++ [a64_bcond A64_CS d].
Proof. by destruct write. Qed.

Definition access_fixes (wf ff fs : list Z) : list Z := (Z.add 11 <$> ff) ++ (Z.add (12 + len wf) <$> fs).

Lemma access_emits chk write fast slow wf ff ws fs :
  emits chk fast wf ff -> emits chk slow ws fs ->
  emits chk (put_access write fast slow) (access_words write wf ws) (access_fixes wf ff fs).
Proof.
  intros [F1 F2 F3] [S1 S2 S3]. split.
  - unfold put_access, put_patch_bcond, put_patch_b. repeat first [apply F1|apply S1|apply full_region|apply full_put
      |apply full_here|apply full_patch|apply full_bind|match goal with |- forall _ : _, full_stays _ => intros [] || intros ? end].
  - intros b Hb. unfold put_access, mbind, E_bind, here, put_patch_bcond, put_patch_b.
    pose proof (region_emit write b) as H1. pose proof (keeps_check_region write b) as K1.
    destruct (put_region_check write b) as [at_ b1]. cbn [snd] in H1, K1.
    specialize (F2 b1 ltac:(congruence)). specialize (F1 b1). destruct (fast b1) as [[] b2]. cbn [snd] in F1, F2.
    pose proof (keeps_check_put (a64_b 0) b2) as K3. pose proof (proj2 (straight_put (a64_b 0) b2)) as H3.
    destruct (put (a64_b 0) b2) as [[] b3]. cbn [snd] in H3, K3.
    pose proof (keeps_check_patch at_ (a64_bcond A64_CS) b3) as K4. pose proof (patch_full at_ (a64_bcond A64_CS) b3) as H4.
    destruct (patch at_ _ b3) as [[] b4] eqn:E4. cbn [snd] in H4, K4.
    specialize (S1 b4). specialize (S2 b4). destruct (slow b4) as [[] b5]. cbn [snd] in S1, S2. rewrite patch_full.
    intros Hf. assert (Hf4 : b_full b4 = false) by (destruct (b_full b4); [rewrite S1 in Hf|]; done).
    rewrite Hf4 in H4. destruct (H3 (eq_sym H4)) as [Hf2 E3]. destruct (F2 Hf2) as [_ E2].
    assert (Hk4 : b_check b4 = chk) by (by rewrite K4, E3, E2).
    destruct (S2 Hk4 Hf) as [_ ->]. destruct (F2 Hf2) as [Hf1 _]. clear F1 F2 S1 S2. subst b3. subst b2.
    destruct (H1 Hf1) as [Hf0 [= -> ->]]. split; [done|].
    cbn [b_out b_max b_check b_fix] in *.
    rewrite (patch_run _ (b_out b ++ take 10 (region_words write 0)) (wf ++ [a64_b 0]) (a64_bcond A64_CS 0)) in E4;
      [|by rewrite <- !app_assoc; destruct write|by unfold b_n; rewrite !length_app; cbn; lia].
    apply (f_equal snd) in E4. cbn [snd] in E4. subst b4. cbn [b_out b_max b_check b_fix].
    assert (Ho : (b_out b ++ take 10 (region_words write 0)) ++ a64_bcond A64_CS (1 + len (wf ++ [a64_b 0])) :: wf ++ [a64_b 0] =
      b_out b ++ region_words write (2 + len wf) ++ wf ++ [a64_b 0]).
    { rewrite (region_words_split write (2 + len wf)), len_app, <- !app_assoc. do 2 f_equal.
      change (len [a64_b 0]) with 1. cbn. do 2 f_equal. lia. }
    rewrite Ho, (patch_run _ (b_out b ++ region_words write (2 + len wf) ++ wf) ws (a64_b 0)).
    + cbn [snd]. unfold access_words, access_fixes. rewrite fmap_app, <- !list_fmap_compose, <- !app_assoc. do 3 f_equal.
      * apply list_fmap_ext. intros i x _. unfold compose, b_n. cbn [b_out]. rewrite length_app. clear. cbn. lia.
      * apply list_fmap_ext. intros i x _. unfold compose, b_n, len. cbn [b_out]. rewrite !length_app. clear. cbn. lia.
    + by rewrite <- !app_assoc.
    + unfold b_n. cbn [b_out]. clear. rewrite !length_app. cbn. lia.
  - apply Forall_app. split; apply Forall_fmap; (eapply Forall_impl; [eassumption|]); unfold access_words;
      rewrite !len_app; unfold len; cbn; lia.
Qed.

(* ------------------------------------------------------------------ *)
(** ** The check *)

(** The two entries the address space keeps of the regions it noted. *)
Record noted (mem : gmap Z Z) (p : Z) (h : rsd_as_hit * rsd_as_hit) : Prop := {
  no_lo1 : read_bytes mem p 8 = Some (le_bytes 8 (hit_lo h.1));
  no_lim1 : read_bytes mem (p + 8) 8 = Some (le_bytes 8 (hit_lim h.1));
  no_lo2 : read_bytes mem (p + 16) 8 = Some (le_bytes 8 (hit_lo h.2));
  no_lim2 : read_bytes mem (p + 24) 8 = Some (le_bytes 8 (hit_lim h.2));
  no_range1 : urange 64 (hit_lo h.1) /\ urange 64 (hit_lim h.1);
  no_range2 : urange 64 (hit_lo h.2) /\ urange 64 (hit_lim h.2)
}.

(** What the check may change: x9 to x12 and the condition flags. *)
Record probes (st st' : astate) : Prop := {
  pr_mem : a_mem st' = a_mem st;
  pr_sp : a_sp st' = a_sp st;
  pr_x : forall n, ~ 9 <= n <= 12 -> xr st' n = xr st n
}.

Lemma probes_refl st : probes st st.
Proof. by split. Qed.
Lemma probes_trans st st1 st2 : probes st st1 -> probes st1 st2 -> probes st st2.
Proof. intros [H1 H2 H3] [H4 H5 H6]. split; [congruence..|]. intros n Hn. by rewrite H6, H3. Qed.
Lemma probes_set d v st : 9 <= d <= 12 -> probes st (set_x d v st).
Proof.
  intros Hd. split; [apply mem_set_x|unfold set_x; by case_match|]. intros n Hn.
  rewrite xr_set_x, (proj2 (Z.eqb_neq n d)) by lia. done.
Qed.

Lemma exec_ldr8 d n off base v st :
  xreg d -> xreg n -> n <> 31 -> off mod 8 = 0 -> 0 <= off < 4096 -> xr st n = base ->
  0 <= base /\ base + 4096 <= 2 ^ 64 -> read_bytes (a_mem st) (base + off) 8 = Some (le_bytes 8 v) -> urange 64 v ->
  exec_word (a64_ldr d n off) st = Some (set_x d v st, Next).
Proof.
  intros Hd Hn Hz Hm Ho Hb Hr Hv Hu. rewrite (exec_ldr st d n off Hd Hn Hz (le_bytes 8 v)) by
    (try done; try lia; rewrite Hb, uwrap_small by (unfold urange; lia); exact Hv).
  by rewrite le_val_bytes, uwrap_small.
Qed.

Lemma run_hit e c d asp a lo lim st :
  xr st 9 = asp -> 0 <= asp /\ asp + 4096 <= 2 ^ 64 -> 0 <= e < 4000 -> e mod 8 = 0 -> xr st 1 = a ->
  read_bytes (a_mem st) (asp + e) 8 = Some (le_bytes 8 lo) -> urange 64 lo ->
  read_bytes (a_mem st) (asp + e + 8) 8 = Some (le_bytes 8 lim) -> urange 64 lim ->
  exists st', exec_words (take 4 (hit_words e c d)) st = Some st' /\ xr st' 9 = asp /\
    fl_c (a_fl st') = negb (u64 (a - lo) <? lim) /\ probes st st'.
Proof.
  intros H9 Hasp He He8 H1 Hlo Rlo Hlim Rlim. cbn [hit_words take].
  set (s1 := set_x 10 lo st). set (s2 := set_x 11 lim s1). set (s3 := set_x 12 (u64 (a - lo)) s2).
  assert (W1 : exec_word (a64_ldr A64_X10 A64_X9 e) st = Some (s1, Next)).
  { apply (exec_ldr8 _ _ _ asp); done || lia. }
  assert (W2 : exec_word (a64_ldr A64_X11 A64_X9 (e + 8)) s1 = Some (s2, Next)).
  { apply (exec_ldr8 _ _ _ asp); unfold s1; rewrite ?xr_set_x, ?mem_set_x, ?Z.add_assoc; done || lia || zdm. }
  assert (W3 : exec_word (a64_sub A64_X12 A64_X1 A64_X10) s2 = Some (s3, Next)).
  { rewrite exec_sub by done. unfold s2, s1. rewrite !xr_set_x. cbn [Z.eqb Pos.eqb andb negb]. by rewrite H1. }
  exists (set_fl (add_sub 64 true (u64 (u64 (a - lo))) (u64 lim)).2 s3).
  rewrite (exec_words_cons _ _ _ _ W1), (exec_words_cons _ _ _ _ W2), (exec_words_cons _ _ _ _ W3).
  assert (W4 : exec_word (a64_subs_zr A64_X12 A64_X11 false) s3 =
    Some (set_fl (add_sub 64 true (u64 (u64 (a - lo))) (u64 lim)).2 s3, Next)).
  { rewrite exec_subs_zr by done. unfold s3, s2, s1. rewrite !xr_set_x. done. }
  rewrite (exec_words_cons _ _ _ _ W4). split; [done|]. split; [|split].
  - change (xr s3 9 = asp). unfold s3, s2, s1. by rewrite !xr_set_x.
  - cbn [a_fl set_fl]. rewrite nzcv_sub by lia. cbn [fl_c].
    by rewrite (uwrap_uwrap 64), (uwrap_small 64 lim).
  - assert (Hp : probes st s3).
    { unfold s3, s2, s1. eapply probes_trans; [|by apply probes_set; lia]. eapply probes_trans; apply probes_set; lia. }
    destruct Hp as [P1 P2 P3]. by split.
Qed.

Section access.
Context {W : Type} (call : Z -> astate -> W -> option (astate * W)).

(** A word alone. *)
Lemma reaches_word code w n out st st' ctl g :
  placed code [w] n [] out -> exec_word w st = Some (st', ctl) ->
  match ctl with Next | Jump _ => True | _ => False end ->
  reaches call code (n, (st, g)) (match ctl with Jump d => n + d | _ => n + 1 end, (st', g)).
Proof.
  intros Hp Hw Hc. apply reaches_step. pose proof (placed_step call code [w] n [] out 0 w st g Hp eq_refl ltac:(set_solver)) as Hs.
  rewrite Z.add_0_r, Hw in Hs. rewrite Hs. by destruct ctl.
Qed.

(** The pointer to the address space, and its noted regions. *)
Record spaces (base asp : Z) (write : bool) (h : rsd_as_hit * rsd_as_hit) (st : astate) : Prop := {
  sp_base : xr st A64_X19 = base;
  sp_range : 0 <= base /\ base + 4096 <= 2 ^ 64;
  sp_as : read_bytes (a_mem st) (base + OFF_AS) 8 = Some (le_bytes 8 asp);
  sp_as_range : 0 <= asp /\ asp + 4096 <= 2 ^ 64;
  sp_noted : noted (a_mem st) (asp + as_off write) h
}.

Lemma region_reaches write base asp h a st :
  spaces base asp write h st -> xr st 1 = a ->
  exists st', probes st st' /\ forall code n out d g,
    placed code (region_words write d) n [] out -> 0 <= d < 2 ^ 18 ->
    reaches call code (n, (st, g)) (if hit_check h a then n + 11 else n + 10 + d, (st', g)).
Proof.
  intros [Hb Hbr Has Hasr [L1 M1 L2 M2 [R1 Q1] [R2 Q2]]] Ha. unfold region_words.
  set (e := as_off write) in *.
  assert (He : 0 <= e < 3000 /\ e mod 8 = 0 /\ (e + 16) mod 8 = 0) by (unfold e; by destruct write).
  set (s1 := set_x 9 asp st).
  assert (W1 : exec_word (a64_ldr A64_X9 CPU OFF_AS) st = Some (s1, Next)).
  { apply (exec_ldr8 _ _ _ base); try done. unfold urange. lia. }
  assert (K1 : probes st s1) by (apply probes_set; lia).
  destruct (run_hit e A64_CC 6 asp a (hit_lo h.1) (hit_lim h.1) s1) as (s2 & E2 & X2 & C2 & K2);
    rewrite ?(pr_mem _ _ K1); try (done || lia).
  assert (M12 : a_mem s2 = a_mem st) by (by rewrite (pr_mem _ _ K2), (pr_mem _ _ K1)).
  destruct (run_hit (e + 16) A64_CS 0 asp a (hit_lo h.2) (hit_lim h.2) s2) as (s3 & E4 & X4 & C4 & K4);
    rewrite ?M12, ?Z.add_assoc; try (done || lia).
  { by rewrite (pr_x _ _ K2), (pr_x _ _ K1) by lia. }
  { rewrite <- M2. f_equal. lia. }
  exists (if u64 (a - hit_lo h.1) <? hit_lim h.1 then s2 else s3).
  split; [case_match; [|eapply probes_trans; [|exact K4]]; by eapply probes_trans|].
  intros code n out d g Hp Hd.
  apply placed_split in Hp as [P0 Hp]. apply placed_split in Hp as [P1 P2].
  change (len [a64_ldr A64_X9 CPU OFF_AS]) with 1 in *. change (len (hit_words e A64_CC 6)) with 5 in P2.
  assert (T1 : reaches call code (n, (st, g)) (n + 1, (s1, g))) by (by eapply (reaches_word _ _ _ _ _ _ Next)).
  change (hit_words e A64_CC 6) with (take 4 (hit_words e A64_CC 6) ++ [a64_bcond A64_CC 6]) in P1.
  apply placed_split in P1 as [P1 B1]. change (len (take 4 (hit_words e A64_CC 6))) with 4 in B1.
  pose proof (placed_words call code _ _ _ _ _ _ g P1 eq_refl E2) as T2.
  change (len (take 4 (hit_words e A64_CC 6))) with 4 in T2.
  assert (Hcc : cond_holds (a_fl s2) A64_CC = (u64 (a - hit_lo h.1) <? hit_lim h.1)).
  { change (cond_holds (a_fl s2) A64_CC) with (negb (fl_c (a_fl s2))). by rewrite C2, negb_involutive. }
  pose proof (exec_bcond A64_CC 6 s2 ltac:(done) ltac:(done)) as W3. rewrite Hcc in W3.
  pose proof (fun Hc => reaches_word code _ _ _ _ _ _ g B1 W3 Hc) as T3. unfold hit_check.
  destruct (u64 (a - hit_lo h.1) <? hit_lim h.1) eqn:E1; cbn [orb]; specialize (T3 I).
  { replace (n + 11) with (n + 1 + 4 + 6) by lia.
    eapply reaches_trans; [exact T1|]. by eapply reaches_trans. }
  change (hit_words (e + 16) A64_CS d) with (take 4 (hit_words (e + 16) A64_CS 0) ++ [a64_bcond A64_CS d]) in P2.
  apply placed_split in P2 as [P2 B2]. change (len (take 4 (hit_words (e + 16) A64_CS 0))) with 4 in B2.
  pose proof (placed_words call code _ _ _ _ _ _ g P2 eq_refl E4) as T4.
  change (len (take 4 (hit_words (e + 16) A64_CS 0))) with 4 in T4.
  pose proof (exec_bcond A64_CS d s3 ltac:(done) ltac:(lia)) as W5.
  assert (Hcs : cond_holds (a_fl s3) A64_CS = negb (u64 (a - hit_lo h.2) <? hit_lim h.2)) by exact C4.
  rewrite Hcs in W5. pose proof (fun Hc => reaches_word code _ _ _ _ _ _ g B2 W5 Hc) as T5.
  replace (n + 1 + 4 + 1) with (n + 1 + 5) in T3 by lia.
  do 2 (eapply reaches_trans; [eassumption|]). eapply reaches_trans; [exact T3|]. eapply reaches_trans; [exact T4|].
  destruct (u64 (a - hit_lo h.2) <? hit_lim h.2); specialize (T5 I); cbn [negb] in T5.
  - by replace (n + 11) with (n + 1 + 5 + 4 + 1) by lia.
  - by replace (n + 10 + d) with (n + 1 + 5 + 4 + d) by lia.
Qed.

Lemma access_parts code write wf ff ws fs n out :
  Forall (fun i => 0 <= i < len wf) ff -> Forall (fun i => 0 <= i < len ws) fs ->
  placed code (access_words write wf ws) n (access_fixes wf ff fs) out ->
  placed code (region_words write (2 + len wf)) n [] out /\ placed code wf (n + 11) ff out /\
  placed code [a64_b (1 + len ws)] (n + 11 + len wf) [] out /\ placed code ws (n + 12 + len wf) fs out /\
  len wf + len ws + 12 < 2 ^ 18.
Proof.
  intros Hf Hs Hp. pose proof (placed_inside _ _ _ _ _ Hp ltac:(by destruct write)) as Hin. pose proof (pl_len _ _ _ _ _ Hp).
  pose proof (pl_start _ _ _ _ _ Hp). unfold access_words in *. rewrite !len_app in Hin.
  replace (access_fixes wf ff fs) with
    ([] ++ (Z.add (len (region_words write (2 + len wf))) <$> (ff ++ (Z.add (len wf) <$> ([] ++ (Z.add 1 <$> fs)))))) in Hp.
  2: { cbn. unfold access_fixes. rewrite fmap_app, <- !list_fmap_compose. f_equal. apply list_fmap_ext.
       intros i x _. unfold compose, len. cbn. lia. }
  assert (H1 : Forall (fun i => 0 <= i < 1 + len ws) (Z.add 1 <$> fs)).
  { apply Forall_fmap. eapply Forall_impl; [exact Hs|]. cbn. lia. }
  apply placed_app in Hp as [P1 Hp]; [|constructor|].
  2: { apply Forall_app. rewrite !len_app. change (len [a64_b (1 + len ws)]) with 1.
       split; [|apply Forall_fmap]; (eapply Forall_impl; [exact Hf || exact H1|]); unfold len; cbn; lia. }
  apply placed_app in Hp as [P2 Hp]; [|done|by rewrite len_app].
  apply placed_app in Hp as [P3 P4]; [|constructor|done].
  change (len (region_words write (2 + len wf))) with 11 in *. change (len [a64_b (1 + len ws)]) with 1 in *.
  split_and!; try done; [|lia]. by replace (n + 12 + len wf) with (n + 11 + len wf + 1) by lia.
Qed.

(** An access goes the fast way or the slow one, as the check says. *)
Lemma access_goes chk write fast slow base asp h a st g :
  spaces base asp write h st -> xr st 1 = a -> emits_some chk fast -> emits_some chk slow ->
  exists st1, probes st st1 /\ forall wy s',
    goes call chk (if hit_check h a then fast else slow) wy (st1, g) s' ->
    goes call chk (put_access write fast slow) wy (st, g) s'.
Proof.
  intros Hs Ha (wf & ff & Hf) (ws & fs & Hw).
  destruct (region_reaches write base asp h a st Hs Ha) as (st1 & Hp & Hr). exists st1. split; [exact Hp|].
  intros wy s' Hg.
  destruct (hit_check h a) eqn:Eh.
  - destruct Hg as (wf' & ff' & Hf' & Rf). eexists _, _. split; [by eapply access_emits|]. intros code n out Hpl.
    destruct (access_parts _ _ _ _ _ _ _ _ (em_fix _ _ _ _ Hf') (em_fix _ _ _ _ Hw) Hpl) as (P1 & P2 & P3 & P4 & Hl).
    eapply reaches_trans; [apply (Hr _ _ _ _ _ P1); unfold len in *; lia|].
    eapply reaches_trans; [by apply Rf|]. destruct wy; [|by apply reaches_refl]. cbn [arrives].
    pose proof (exec_b (1 + len ws) s'.1 ltac:(unfold len in *; lia)) as Wb. destruct s' as [st' g'].
    pose proof (reaches_word code _ _ _ _ _ _ g' P3 Wb I) as Tb.
    replace (n + len (access_words write wf' ws)) with (n + 11 + len wf' + (1 + len ws)); [exact Tb|].
    unfold access_words. rewrite !len_app. unfold len. cbn. lia.
  - destruct Hg as (ws' & fs' & Hw' & Rw). eexists _, _. split; [by eapply access_emits|]. intros code n out Hpl.
    destruct (access_parts _ _ _ _ _ _ _ _ (em_fix _ _ _ _ Hf) (em_fix _ _ _ _ Hw') Hpl) as (P1 & P2 & P3 & P4 & Hl).
    eapply reaches_trans; [apply (Hr _ _ _ _ _ P1); unfold len in *; lia|].
    replace (n + 10 + (2 + len wf)) with (n + 12 + len wf) by lia. specialize (Rw _ _ _ P4).
    destruct wy; [|exact Rw]. cbn [arrives] in *.
    replace (n + len (access_words write wf ws')) with (n + 12 + len wf + len ws'); [exact Rw|].
    unfold access_words. rewrite !len_app. unfold len. cbn. lia.
Qed.

(** A call through a register. *)
Lemma goes_blr chk n st g st' g' :
  xreg n -> call (xr st n) st g = Some (st', g') -> goes call chk (put (a64_blr n)) Through (st, g) (st', g').
Proof.
  intros Hn Hc. exists [a64_blr n], []. split; [apply emits_straight, straight_put|].
  intros code i out Hp. apply reaches_step.
  pose proof (placed_step call code _ _ _ _ 0 _ st g Hp eq_refl ltac:(set_solver)) as Hs.
  rewrite Z.add_0_r, exec_blr in Hs by done. cbn [mbind option_bind] in Hs. rewrite Hc in Hs. exact Hs.
Qed.

(** The check behind a call: out where the cpu no longer runs. *)
Definition fault_words : list Z := [a64_ldrb A64_X9 CPU OFF_RUNNING; a64_cbz_w A64_X9 0].

Lemma emits_fault_check chk : emits chk put_fault_check fault_words [1].
Proof.
  split; [| |by repeat constructor].
  - unfold put_fault_check. apply full_bind; [apply full_put|]. intros []. apply full_bind; [|intros; apply full_put].
    intros b Hb. by rewrite Hb, andb_false_r.
  - intros b Hb. unfold put_fault_check, mbind, E_bind. pose proof (proj2 (straight_put (a64_ldrb A64_X9 CPU OFF_RUNNING) b)) as H1.
    destruct (put _ b) as [[] b1]. cbn [snd] in H1. destruct (_ && _); cbn [give_up_block].
    + intros Hf. destruct (proj2 (straight_put _ _) Hf) as [Hf1 ->]. cbn [b_full] in Hf1. destruct (H1 Hf1) as [Hf0 ->].
      split; [done|]. cbn [b_out b_max b_check b_fix]. rewrite <- app_assoc. cbn [app]. f_equal; [done|].
      cbn. do 2 f_equal. unfold b_n. cbn [b_out]. rewrite length_app. cbn. lia.
    + intros Hf. destruct (proj2 (straight_put _ _) Hf) as [Hf1 _]. done.
Qed.

Lemma goes_fault_check chk base (running : bool) st g :
  xr st A64_X19 = base -> 0 <= base /\ base + 4096 <= 2 ^ 64 ->
  read_bytes (a_mem st) (base + OFF_RUNNING) 1 = Some (le_bytes 1 (bz running)) ->
  goes call chk put_fault_check (if running then Through else Leaves) (st, g) (set_x 9 (bz running) st, g).
Proof.
  intros Hb Hr Hm. exists fault_words, [1]. split; [apply emits_fault_check|]. intros code n out Hp.
  pose proof (placed_inside _ _ _ _ _ Hp ltac:(done)) as Hin. pose proof (pl_len _ _ _ _ _ Hp) as Hlen.
  pose proof (pl_out _ _ _ _ _ Hp) as Hout. pose proof (pl_start _ _ _ _ _ Hp) as Hstart. change (len fault_words) with 2 in *.
  set (s1 := set_x 9 (bz running) st).
  assert (W1 : exec_word (a64_ldrb A64_X9 CPU OFF_RUNNING) st = Some (s1, Next)).
  { rewrite (exec_ldrb st A64_X9 CPU OFF_RUNNING ltac:(done) ltac:(done) ltac:(done) (le_bytes 1 (bz running))).
    - unfold s1. rewrite le_val_bytes. by destruct running.
    - done.
    - rewrite Hb, cpu_addr by (done || unfold OFF_RUNNING; lia). exact Hm. }
  eapply reaches_trans; [apply reaches_step; pose proof (placed_step call code _ _ _ _ 0 _ st g Hp eq_refl ltac:(set_solver)) as Hs;
    rewrite Z.add_0_r, W1 in Hs; exact Hs|].
  apply reaches_step. unfold code_step. rewrite (proj2 (Z.ltb_ge _ _)) by lia.
  pose proof (pl_words _ _ _ _ _ Hp 1 _ eq_refl) as Hw. rewrite bool_decide_true in Hw by set_solver.
  replace (Z.to_nat n + 1)%nat with (Z.to_nat (n + 1)) in Hw by lia. rewrite Hw. cbn [mbind option_bind].
  rewrite exec_cbz_w by (done || lia). cbn [mbind option_bind].
  assert (Hx : u32 (xr s1 9) = bz running) by (unfold s1; rewrite xr_set_x; by destruct running).
  rewrite Hx. destruct running; cbn [bz Z.eqb arrives]; do 2 f_equal; unfold len; cbn [fault_words length]; lia.
Qed.
End access.
