(* ===== verification/JitWorld.v ===== *)
(** The world around compiled code: what the C routines it calls do ([put_call]
    in [src/jit.c], [rsd_i_ld] to [rsd_i_wlog] and [rsd_i_flags_add] to [rsd_i_shift] in
    [src/cpu.c]), and how an
    interpreter's machine lies in the memory of the A64 machine. *)
From S2P Require Import Prelude.
From S2P Require Import Memory.
From S2P Require Import AddressSpace.
From S2P Require Import Flags.
From S2P Require Import Machine.
From S2P Require Import Access.
From S2P Require Import Registers.
From S2P Require Import A64.
From S2P Require Import Emit.
From S2P Require Import JitEmit.
From S2P Require Import JitRun.
From S2P Require Import JitFlags.
From S2P Require Import JitRegs.
From S2P Require Import JitCode.
From S2P Require Import JitMem.
From S2P Require Import JitRel.

(** The routines lie at different addresses. *)
Class LinkOk `{Linked} := {
  link_range : forall fn, urange 64 (helper_addr fn);
  link_inj : forall fn fn', helper_addr fn = helper_addr fn' -> fn = fn'
}.

Section world.
Context `{HostOS} `{Linked}.

(** What a routine leaves in the registers it may spoil. *)
Context (junk : Z -> Z).

(* ------------------------------------------------------------------ *)
(** ** The machine a routine sees *)

Definition cell (mem : gmap Z Z) (a : Z) (n : nat) : Z :=
  match read_bytes mem a n with Some bs => le_val bs | None => 0 end.

Definition cell_hits (mem : gmap Z Z) (p : Z) : rsd_as_hit * rsd_as_hit :=
  (Hit (cell mem p 8) (cell mem (p + 8) 8), Hit (cell mem (p + 16) 8) (cell mem (p + 24) 8)).

(** The registers, the flags, the instruction being run and the stop flag come
    from the cpu at [base], the noted regions from the address space it points
    to, guest memory from the memory; what compiled code never touches, from
    [g]. *)
Definition view (base : Z) (mem : gmap Z Z) (g : machine) : machine :=
  let asp := cell mem (base + OFF_AS) 8 in
  Machine
    (with_running (nz (cell mem (base + OFF_RUNNING) 1))
      (with_cur_rip (cell mem (base + OFF_CURRIP) 8)
        (with_flags (cell mem (base + OFF_FLAGS) 4)
          (with_r ((fun r => cell mem (base + off_r r) 8) <$> seqZ 0 16) (m_c g)))))
    (As (as_reg (m_as g)) (as_cap (m_as g)) (cell_hits mem (asp + OFF_AS_RD)) (cell_hits mem (asp + OFF_AS_WR)))
    (World (w_host (m_w g)) (map_imap (fun i _ => mem !! i) (mem_of g)))
    (m_cb g) (m_cm g).

Definition put_hits (p : Z) (h : rsd_as_hit * rsd_as_hit) (mem : gmap Z Z) : gmap Z Z :=
  write_bytes (write_bytes (write_bytes (write_bytes mem
    p (le_bytes 8 (hit_lo h.1))) (p + 8) (le_bytes 8 (hit_lim h.1)))
    (p + 16) (le_bytes 8 (hit_lo h.2))) (p + 24) (le_bytes 8 (hit_lim h.2)).

(** Memory after a routine left the machine [m]: the fields a routine may
    write, and guest memory. *)
Definition poke (base : Z) (m : machine) (mem : gmap Z Z) : gmap Z Z :=
  let asp := cell mem (base + OFF_AS) 8 in
  mem_of m ∪
  put_hits (asp + OFF_AS_RD) (as_rd (m_as m))
    (put_hits (asp + OFF_AS_WR) (as_wr (m_as m))
      (write_bytes (write_bytes mem (base + OFF_RUNNING) (le_bytes 1 (bz (c_running (m_c m)))))
        (base + OFF_FLAGS) (le_bytes 4 (c_flags (m_c m))))).

(** x0 to x18, x30 and the condition flags are the routine's to spoil. *)
Definition returned (base v : Z) (m : machine) (st : astate) : astate :=
  AState (fun r => if r =? 0 then v else if (r <=? 18) || (r =? 30) then junk r else a_x st r)
    (a_sp st) (NZCV false false false false) (poke base m (a_mem st)).

Definition all_helpers : list helper :=
  [fn_ld; fn_st; fn_flags_add; fn_flags_sub; fn_flags_logic; fn_ld128; fn_st128; fn_comisd; fn_comiss;
   fn_cvt2si; fn_nan_d; fn_nan_s; fn_flags_inc; fn_flags_dec; fn_shift; fn_wlog].

Definition helper_at (a : Z) : option helper := List.find (fun fn => helper_addr fn =? a) all_helpers.

(** The routines for flags; the word they are in is all they change. *)
Definition put_flag_word (f : Z -> Z) : M unit := upd (fun c => with_flags (f (c_flags c)) c).

Definition rsd_i_flags_add (a b r size : Z) : M unit := put_flag_word (fun fl => flags_add fl a b r (s32 size)).
Definition rsd_i_flags_sub (a b r size : Z) : M unit := put_flag_word (fun fl => flags_sub fl a b r (s32 size)).
Definition rsd_i_flags_logic (r size : Z) : M unit := put_flag_word (fun fl => flags_logic fl r (s32 size)).

(** [rsd_i_shift] on the cpu; [Flags] has the result and the flags. *)
Definition shift_routine (a cnt size ext : Z) : M Z :=
  fl ← get_c c_flags;
  let '(res, fl) := rsd_i_shift fl a cnt (s32 size) ext in
  upd (with_flags fl);; mret res.

(** A routine on its arguments; a [void] one leaves x0 to chance.  The others
    are not run here. *)
Definition routine (fn : helper) (x1 x2 x3 x4 : Z) : option (M Z) :=
  match fn with
  | fn_ld => Some (rsd_i_ld x1 x2)
  | fn_st => Some (rsd_i_st x1 x2 x3;; mret (junk 0))
  | fn_wlog => Some (rsd_i_wlog x1 x2 x3;; mret (junk 0))
  | fn_flags_add => Some (rsd_i_flags_add x1 x2 x3 x4;; mret (junk 0))
  | fn_flags_sub => Some (rsd_i_flags_sub x1 x2 x3 x4;; mret (junk 0))
  | fn_flags_logic => Some (rsd_i_flags_logic x1 x2;; mret (junk 0))
  | fn_flags_inc => Some (put_flag_word (fun fl => rsd_i_flags_inc fl x1 x2 (s32 x3));; mret (junk 0))
  | fn_flags_dec => Some (put_flag_word (fun fl => rsd_i_flags_dec fl x1 x2 (s32 x3));; mret (junk 0))
  | fn_shift => Some (shift_routine x1 x2 x3 x4)
  | _ => None
  end.

(** A call, with the cpu in x0. *)
Definition call_c (a : Z) (st : astate) (g : machine) : option (astate * machine) :=
  fn ← helper_at a;
  f ← routine fn (xr st 1) (xr st 2) (xr st 3) (xr st 4);
  match f (view (xr st 0) (a_mem st) g) with
  | Ok v m => Some (returned (xr st 0) v m st, m)
  | Trap _ => None
  end.

Lemma helper_at_addr `{!LinkOk} fn : helper_at (helper_addr fn) = Some fn.
Proof.
  unfold helper_at. assert (Hin : In fn all_helpers) by (destruct fn; cbn; tauto).
  induction all_helpers as [|f l IH]; cbn; [done|].
  destruct (Z.eqb_spec (helper_addr f) (helper_addr fn)) as [He|Hn]; [by rewrite (link_inj _ _ He)|].
  destruct Hin as [->|Hin]; [done|]. by apply IH.
Qed.

(* ------------------------------------------------------------------ *)
(** ** An interpreter's machine in memory *)

(** The bytes of the cpu and of the noted regions. *)
Definition own (base asp i : Z) : Prop := base <= i < base + 552 \/ asp + 16 <= i < asp + 80.

(** What is not in the memory of the A64 machine. *)
Definition beside (m : machine) : machine :=
  Machine (with_running false (with_cur_rip 0 (with_flags 0 (with_r [] (m_c m))))) (as_forget (m_as m))
    (World (w_host (m_w m)) ∅) (m_cb m) (m_cm m).

Record sim (base asp : Z) (m : machine) (st : astate) (g : machine) : Prop := {
  si_cpu : cpu_at base (reg m) (c_flags (m_c m)) st;
  si_len : length (c_r (m_c m)) = 16%nat;
  si_rip : read_bytes (a_mem st) (base + OFF_CURRIP) 8 = Some (le_bytes 8 (c_cur_rip (m_c m)));
  si_rip_range : urange 64 (c_cur_rip (m_c m));
  si_run : read_bytes (a_mem st) (base + OFF_RUNNING) 1 = Some (le_bytes 1 (bz (c_running (m_c m))));
  si_as : read_bytes (a_mem st) (base + OFF_AS) 8 = Some (le_bytes 8 asp);
  si_as_range : 0 <= asp /\ asp + 4096 <= 2 ^ 64;
  si_apart : asp + 80 <= base \/ base + 552 <= asp;
  si_rd : noted (a_mem st) (asp + OFF_AS_RD) (as_rd (m_as m));
  si_wr : noted (a_mem st) (asp + OFF_AS_WR) (as_wr (m_as m));
  si_mem : mem_of m ⊆ a_mem st;
  si_bytes : mem_ok (mem_of m);
  si_dom : forall i, is_Some (mem_of g !! i) <-> is_Some (mem_of m !! i);
  si_own : forall i, own base asp i -> mem_of m !! i = None;
  si_rest : beside g = beside m;
  si_tmp : forall i, 0 <= i < 8 -> is_Some (read_bytes (a_mem st) (base + off_tmp i) 8)
}.

Lemma cell_read mem a n v : read_bytes mem a n = Some (le_bytes n v) -> urange (8 * Z.of_nat n) v -> cell mem a n = v.
Proof. intros Hr Hv. unfold cell. rewrite Hr, le_val_bytes. by apply uwrap_small. Qed.

Lemma cell_hits_read mem p h : noted mem p h -> cell_hits mem p = h.
Proof.
  intros [L1 M1 L2 M2 [? ?] [? ?]]. unfold cell_hits.
  rewrite (cell_read _ _ _ _ L1), (cell_read _ _ _ _ M1), (cell_read _ _ _ _ L2), (cell_read _ _ _ _ M2) by done.
  by destruct h as [[] []].
Qed.

(** A routine sees the machine. *)
Lemma sim_view base asp m st g : sim base asp m st g -> view base (a_mem st) g = m.
Proof.
  intros [[[Hb Hbr Hf Hfl] Hread Hrange] Hlen Hrip Hripr Hrun Has Hasr _ Hrd Hwr Hmem _ Hdom _ Hrest _].
  unfold view. assert (Easp : cell (a_mem st) (base + OFF_AS) 8 = asp) by (apply cell_read; [done|unfold urange; lia]).
  rewrite Easp, (cell_hits_read _ _ _ Hrd), (cell_hits_read _ _ _ Hwr), (cell_read _ _ _ _ Hrip) by done.
  rewrite (cell_read _ _ _ _ Hf), (cell_read _ _ _ _ Hrun) by (done || by destruct (c_running _)).
  assert (Er : (fun r => cell (a_mem st) (base + off_r r) 8) <$> seqZ 0 16 = c_r (m_c m)).
  { apply list_eq_same_length with 16%nat; [done|by rewrite length_fmap, length_seqZ|].
    intros i x y Hi Hx Hy. rewrite list_lookup_fmap, lookup_seqZ_lt in Hx by lia. cbn in Hx. injection Hx as <-.
    assert (Hy' : reg m (Z.of_nat i) = y) by (unfold reg; rewrite Nat2Z.id; by apply list_lookup_total_correct).
    rewrite <- Hy'. apply cell_read; [apply Hread|apply Hrange]; unfold greg; lia. }
  assert (Em : map_imap (fun i _ => a_mem st !! i) (mem_of g) = mem_of m).
  { apply map_eq. intros i. rewrite map_lookup_imap. destruct (mem_of g !! i) as [x|] eqn:Eg; cbn.
    - destruct (proj1 (Hdom i)) as [y Hy]; [by eexists|]. rewrite Hy. by eapply lookup_weaken.
    - destruct (mem_of m !! i) as [y|] eqn:Ey; [|done]. destruct (proj2 (Hdom i)) as [? ?]; [by eexists|]. congruence. }
  rewrite Er, Em. clear -Hrest Hfl Hripr. unfold beside, mem_of in *.
  destruct m as [c [l cap rd wr] [ho me] cb cm], g as [c' [l' cap' rd' wr'] [ho' me'] cb' cm'], c, c'.
  cbn in *. injection Hrest as. subst. f_equal. unfold with_running, with_cur_rip, with_flags, with_r. cbn.
  rewrite !uwrap_small by done. f_equal. by destruct c_running.
Qed.

(* ------------------------------------------------------------------ *)
(** ** Coming back from a routine *)

Lemma read_hits_other p h mem a n :
  a + Z.of_nat n <= p \/ p + 32 <= a -> read_bytes (put_hits p h mem) a n = read_bytes mem a n.
Proof. intros Hd. unfold put_hits. rewrite !read_write_other; rewrite ?length_le_bytes; (done || lia). Qed.

Lemma read_write_bytes8 mem a v : read_bytes (write_bytes mem a (le_bytes 8 v)) a 8 = Some (le_bytes 8 v).
Proof. pose proof (read_write_same mem a (le_bytes 8 v)) as Hr. by rewrite length_le_bytes in Hr. Qed.

Definition hits_range (h : rsd_as_hit * rsd_as_hit) : Prop :=
  (urange 64 (hit_lo h.1) /\ urange 64 (hit_lim h.1)) /\ urange 64 (hit_lo h.2) /\ urange 64 (hit_lim h.2).

Lemma noted_put_hits p h mem : hits_range h -> noted (put_hits p h mem) p h.
Proof.
  intros [H1 H2]. unfold put_hits.
  split; try done; repeat first [apply read_write_bytes8|rewrite read_write_other by (rewrite length_le_bytes; lia)].
Qed.

Lemma noted_ext mem mem' p h :
  (forall i, p <= i < p + 32 -> mem' !! i = mem !! i) -> noted mem p h -> noted mem' p h.
Proof.
  intros He [L1 M1 L2 M2 R1 R2].
  split; try done; [rewrite <- L1|rewrite <- M1|rewrite <- L2|rewrite <- M2]; apply read_bytes_ext; intros i Hi; apply He; lia.
Qed.

Lemma noted_range mem p h : noted mem p h -> hits_range h.
Proof. intros [_ _ _ _ ? ?]. by split. Qed.

(** What a routine may do to the machine. *)
Record routine_keeps (m m' : machine) : Prop := {
  rk_regs : c_r (m_c m') = c_r (m_c m);
  rk_rip : c_cur_rip (m_c m') = c_cur_rip (m_c m);
  rk_flags : urange 32 (c_flags (m_c m'));
  rk_rd : hits_range (as_rd (m_as m'));
  rk_wr : hits_range (as_wr (m_as m'));
  rk_bytes : mem_ok (mem_of m');
  rk_dom : forall i, is_Some (mem_of m' !! i) <-> is_Some (mem_of m !! i)
}.

Lemma sim_returned base asp m st g m' v :
  sim base asp m st g -> routine_keeps m m' -> sim base asp m' (returned base v m' st) m'.
Proof.
  intros [[[Hb Hbr Hf Hfl] Hread Hrange] Hlen Hrip Hripr Hrun Has Hasr Hap Hrd Hwr Hmem _ Hdom Hown Hrest Htmp].
  intros [Kr Krip Kf Krd Kwr Kb Kd].
  assert (Easp : cell (a_mem st) (base + OFF_AS) 8 = asp) by (apply cell_read; [done|unfold urange; lia]).
  set (mem1 := write_bytes (write_bytes (a_mem st) (base + OFF_RUNNING) (le_bytes 1 (bz (c_running (m_c m')))))
        (base + OFF_FLAGS) (le_bytes 4 (c_flags (m_c m')))).
  set (mem2 := put_hits (asp + OFF_AS_WR) (as_wr (m_as m')) mem1).
  set (mem3 := put_hits (asp + OFF_AS_RD) (as_rd (m_as m')) mem2).
  assert (Em : a_mem (returned base v m' st) = mem_of m' ∪ mem3) by (cbn; unfold poke; by rewrite Easp).
  assert (Hown' : forall i, own base asp i -> mem_of m' !! i = None).
  { intros i Hi. apply eq_None_not_Some. rewrite Kd. apply eq_None_not_Some. by apply Hown. }
  assert (Hout : forall i, own base asp i -> (mem_of m' ∪ mem3) !! i = mem3 !! i).
  { intros i Hi. apply lookup_union_r. by apply Hown'. }
  assert (Hrd3 : forall a n, base <= a /\ a + Z.of_nat n <= base + 552 ->
    read_bytes (mem_of m' ∪ mem3) a n = read_bytes mem1 a n).
  { intros a n Ha. rewrite (read_bytes_ext _ mem3) by (intros i Hi; apply Hout; left; lia).
    unfold mem3, mem2. rewrite !read_hits_other; (done || unfold OFF_AS_RD, OFF_AS_WR; lia). }
  unfold OFF_RUNNING, OFF_FLAGS, OFF_AS, OFF_CURRIP in *.
  assert (Hoff : forall r, greg r -> 0 <= off_r r <= 120) by (unfold greg, off_r; lia).
  split; rewrite ?Em; unfold OFF_RUNNING, OFF_FLAGS, OFF_AS, OFF_CURRIP; try done.
  - split; [split; [exact Hb|done| |done]|..]; rewrite ?Em.
    + unfold OFF_FLAGS. rewrite Hrd3 by lia. unfold mem1.
      pose proof (read_write_same (write_bytes (a_mem st) (base + 544) (le_bytes 1 (bz (c_running (m_c m')))))
        (base + 400) (le_bytes 4 (c_flags (m_c m')))) as Hr. by rewrite length_le_bytes in Hr.
    + intros r Hg. specialize (Hoff r Hg). rewrite Hrd3 by lia. unfold mem1.
      rewrite !read_write_other by (rewrite length_le_bytes; lia). unfold reg. rewrite Kr. by apply Hread.
    + intros r Hg. unfold reg. rewrite Kr. by apply Hrange.
  - by rewrite Kr.
  - rewrite Krip, Hrd3 by lia. unfold mem1. by rewrite !read_write_other by (rewrite length_le_bytes; lia).
  - by rewrite Krip.
  - rewrite Hrd3 by lia. unfold mem1. rewrite read_write_other by (rewrite length_le_bytes; lia).
    pose proof (read_write_same (a_mem st) (base + 544) (le_bytes 1 (bz (c_running (m_c m'))))) as Hr. by rewrite length_le_bytes in Hr.
  - rewrite Hrd3 by lia. unfold mem1. by rewrite !read_write_other by (rewrite length_le_bytes; lia).
  - apply (noted_ext mem3); [intros i Hi; apply Hout; right; unfold OFF_AS_RD in Hi; lia|]. by apply noted_put_hits.
  - apply (noted_ext mem3); [intros i Hi; apply Hout; right; unfold OFF_AS_WR in Hi; lia|].
    apply (noted_ext mem2); [|by apply noted_put_hits]. intros i Hi. unfold mem3, put_hits, OFF_AS_RD, OFF_AS_WR in *.
    rewrite !write_bytes_outside; rewrite ?length_le_bytes; (done || lia).
  - apply map_union_subseteq_l.
  - intros i Hi. unfold off_tmp in *. rewrite Hrd3 by lia. unfold mem1.
    rewrite !read_write_other by (rewrite length_le_bytes; lia). by apply Htmp.
Qed.

Lemma sim_ext base asp m st st' g :
  sim base asp m st g -> a_mem st' = a_mem st -> xr st' A64_X19 = xr st A64_X19 -> sim base asp m st' g.
Proof.
  intros [[[Hb Hbr Hf Hfl] Hread Hrange] Hlen Hrip Hripr Hrun Has Hasr Hap Hrd Hwr Hmem Hby Hdom Hown Hrest Htmp] Hm Hx.
  split; rewrite ?Hm; try done. split; rewrite ?Hm; try done. split; rewrite ?Hm; congruence.
Qed.

Lemma sim_spaces base asp m st g write :
  sim base asp m st g -> spaces base asp write (if write then as_wr (m_as m) else as_rd (m_as m)) st.
Proof. intros [[[Hb Hbr _ _] _ _] _ _ _ _ Has Hasr _ Hrd Hwr _ _ _ _ _ _]. split; try done. by destruct write. Qed.

(** What a compiled access leaves alone: the stack, the registers calls keep,
    and all memory but the guest's and the cpu's. *)
Record undisturbed (base asp : Z) (m : machine) (st st' : astate) : Prop := {
  ud_sp : a_sp st' = a_sp st;
  ud_x : forall n, 19 <= n -> n <> 30 -> xr st' n = xr st n;
  ud_mem : forall i, ~ own base asp i -> mem_of m !! i = None -> a_mem st' !! i = a_mem st !! i
}.

Lemma undisturbed_refl base asp m st : undisturbed base asp m st st.
Proof. by split. Qed.
Lemma undisturbed_trans base asp m m1 st st1 st2 :
  (forall i, is_Some (mem_of m1 !! i) -> is_Some (mem_of m !! i)) ->
  undisturbed base asp m st st1 -> undisturbed base asp m1 st1 st2 -> undisturbed base asp m st st2.
Proof.
  intros Hd [H1 H2 H3] [H4 H5 H6]. split; [congruence|intros; rewrite H5; auto|].
  intros i Hi Hm. rewrite H6, H3; try done. apply eq_None_not_Some. intros Hs. apply Hd in Hs as [? ?]. congruence.
Qed.
Lemma undisturbed_ext base asp m st st' :
  a_mem st' = a_mem st -> a_sp st' = a_sp st -> (forall n, 19 <= n -> n <> 30 -> xr st' n = xr st n) ->
  undisturbed base asp m st st'.
Proof. intros Hm Hs Hx. split; [done|done|]. by rewrite Hm. Qed.

Lemma undisturbed_returned base asp m m' v st g :
  sim base asp m st g -> (forall i, is_Some (mem_of m' !! i) <-> is_Some (mem_of m !! i)) ->
  undisturbed base asp m st (returned base v m' st).
Proof.
  intros Hs Hd. assert (Easp : cell (a_mem st) (base + OFF_AS) 8 = asp).
  { apply cell_read; [by apply Hs|]. pose proof (si_as_range _ _ _ _ _ Hs). unfold urange. lia. }
  split; [done| |].
  - intros n Hn H30. unfold xr, returned. cbn [a_x]. rewrite (proj2 (Z.eqb_neq n 0)), (proj2 (Z.eqb_neq n 30)) by lia.
    by rewrite (proj2 (Z.leb_gt n 18)) by lia.
  - intros i Hi Hm. cbn [a_mem returned]. unfold poke. rewrite Easp, lookup_union_r.
    + unfold own, put_hits, OFF_AS_RD, OFF_AS_WR, OFF_RUNNING, OFF_FLAGS in *.
      rewrite !write_bytes_outside; rewrite ?length_le_bytes; (done || lia).
    + apply eq_None_not_Some. rewrite Hd. by apply eq_None_not_Some.
Qed.

(** A store in line: the guest's bytes, in both memories. *)
Lemma sim_store base asp m st g a bs :
  sim base asp m st g -> is_Some (read_bytes (mem_of m) a (length bs)) -> bytes_ok bs ->
  sim base asp (with_mem (write_bytes (mem_of m) a bs) m) (set_amem (write_bytes (a_mem st) a bs) st) g /\
  undisturbed base asp m st (set_amem (write_bytes (a_mem st) a bs) st).
Proof.
  intros [[[Hb Hbr Hf Hfl] Hread Hrange] Hlen Hrip Hripr Hrun Has Hasr Hap Hrd Hwr Hmem Hby Hdom Hown Hrest Htmp] Hmap Hbs.
  rewrite read_bytes_is_Some in Hmap.
  assert (Hin : forall i, own base asp i -> write_bytes (a_mem st) a bs !! i = a_mem st !! i).
  { intros i Hi. apply write_bytes_outside. intros Ha. destruct (Hmap i Ha) as [x Hx]. rewrite Hown in Hx; done. }
  assert (Hr : forall p n, base <= p /\ p + Z.of_nat n <= base + 552 ->
    read_bytes (write_bytes (a_mem st) a bs) p n = read_bytes (a_mem st) p n).
  { intros p n Hp. apply read_bytes_ext. intros i Hi. apply Hin. left. lia. }
  assert (Hoff : forall r, greg r -> 0 <= off_r r <= 120) by (unfold greg, off_r; lia).
  unfold OFF_RUNNING, OFF_FLAGS, OFF_AS, OFF_CURRIP, off_tmp in *.
  split; [split; try done; unfold OFF_RUNNING, OFF_FLAGS, OFF_AS, OFF_CURRIP, off_tmp; cbn [a_mem set_amem]|].
  - split; [split; [done|done| |done]|..]; cbn [a_mem set_amem]; unfold OFF_FLAGS; try done; [by rewrite Hr by lia|].
    intros r Hg. specialize (Hoff r Hg). rewrite Hr by lia. by apply Hread.
  - by rewrite Hr by lia.
  - by rewrite Hr by lia.
  - by rewrite Hr by lia.
  - apply (noted_ext (a_mem st)); [intros i Hi; apply Hin; right; unfold OFF_AS_RD in Hi; lia|done].
  - apply (noted_ext (a_mem st)); [intros i Hi; apply Hin; right; unfold OFF_AS_WR in Hi; lia|done].
  - apply map_subseteq_spec. intros i x. unfold mem_of at 1. cbn. rewrite !write_bytes_lookup. case_decide; [done|].
    intros Hx. by eapply lookup_weaken.
  - by apply mem_ok_write.
  - intros i. rewrite Hdom. unfold mem_of at 2. cbn. rewrite write_bytes_mapped. split; [by left|]. intros [?|Hi]; [done|by apply Hmap].
  - intros i Hi. unfold mem_of at 1. cbn. rewrite write_bytes_outside by (intros Ha; destruct (Hmap i Ha) as [x Hx]; by rewrite Hown in Hx).
    by apply Hown.
  - intros i Hi. rewrite Hr by lia. by apply Htmp.
  - split; [done|done|]. intros i Hi Hm. cbn [a_mem set_amem]. apply write_bytes_outside. intros Ha.
    destruct (Hmap i Ha) as [x Hx]. congruence.
Qed.

(** The compiler's scratch words are nobody else's. *)
Lemma sim_scratch base asp m st g k v :
  sim base asp m st g -> 0 <= k < 8 ->
  let st' := set_amem (write_bytes (a_mem st) (base + off_tmp k) (le_bytes 8 v)) st in
  sim base asp m st' g /\ undisturbed base asp m st st'.
Proof.
  intros [[[Hb Hbr Hf Hfl] Hread Hrange] Hlen Hrip Hripr Hrun Has Hasr Hap Hrd Hwr Hmem Hby Hdom Hown Hrest Htmp] Hk st'.
  assert (Hout : forall i, ~ base + 440 <= i < base + 504 -> a_mem st' !! i = a_mem st !! i).
  { intros i Hi. apply write_bytes_outside. rewrite length_le_bytes. unfold off_tmp. lia. }
  assert (Hr : forall p n, p + Z.of_nat n <= base + 440 \/ base + 504 <= p -> read_bytes (a_mem st') p n = read_bytes (a_mem st) p n).
  { intros p n Hp. apply read_bytes_ext. intros i Hi. apply Hout. lia. }
  assert (Hoff : forall r, greg r -> 0 <= off_r r <= 120) by (unfold greg, off_r; lia).
  unfold OFF_RUNNING, OFF_FLAGS, OFF_AS, OFF_CURRIP in *.
  split; [split; try done; unfold OFF_RUNNING, OFF_FLAGS, OFF_AS, OFF_CURRIP|].
  - split; [split; [done|done| |done]|..]; unfold OFF_FLAGS; try done; [by rewrite Hr by lia|].
    intros r Hg. specialize (Hoff r Hg). rewrite Hr by lia. by apply Hread.
  - by rewrite Hr by lia.
  - by rewrite Hr by lia.
  - by rewrite Hr by lia.
  - apply (noted_ext (a_mem st)); [intros i Hi; apply Hout; unfold OFF_AS_RD in Hi; lia|done].
  - apply (noted_ext (a_mem st)); [intros i Hi; apply Hout; unfold OFF_AS_WR in Hi; lia|done].
  - apply map_subseteq_spec. intros i x Hx. rewrite Hout; [by eapply lookup_weaken|].
    intros Hi. rewrite (Hown i) in Hx; [done|]. left. lia.
  - intros i Hi. apply read_bytes_is_Some. intros j Hj. apply write_bytes_mapped. left.
    by eapply read_bytes_is_Some; [apply (Htmp i Hi)|].
  - split; [done|done|]. intros i Hi _. apply Hout. unfold own in Hi. lia.
Qed.

(** The scratch words an access leaves alone; logging takes the last two. *)
Definition spares (base : Z) (st st' : astate) : Prop :=
  forall k, 0 <= k < 6 -> read_bytes (a_mem st') (base + off_tmp k) 8 = read_bytes (a_mem st) (base + off_tmp k) 8.

Lemma spares_same base st st' : a_mem st' = a_mem st -> spares base st st'.
Proof. intros Hm k _. by rewrite Hm. Qed.

Lemma spares_trans base st st1 st2 : spares base st st1 -> spares base st1 st2 -> spares base st st2.
Proof. intros H1 H2 k Hk. by rewrite H2, H1. Qed.

(** Words written elsewhere: in the guest's memory, or in other scratch words. *)
Lemma spares_store base asp m st g a bs :
  sim base asp m st g -> is_Some (read_bytes (mem_of m) a (length bs)) ->
  spares base st (set_amem (write_bytes (a_mem st) a bs) st).
Proof.
  intros Hs Hr k Hk. rewrite read_bytes_is_Some in Hr. apply read_bytes_ext. intros i Hi. apply write_bytes_outside.
  intros Ha. destruct (Hr i Ha) as [x Hx]. rewrite (si_own _ _ _ _ _ Hs) in Hx; [done|]. left. unfold off_tmp in Hi. lia.
Qed.

Lemma spares_scratch base st j v :
  6 <= j < 8 -> spares base st (set_amem (write_bytes (a_mem st) (base + off_tmp j) (le_bytes 8 v)) st).
Proof.
  intros Hj k Hk. cbn [a_mem set_amem]. rewrite read_write_other; [done|]. rewrite length_le_bytes. unfold off_tmp. lia.
Qed.

Definition hits_ok (m : machine) : Prop := hits_range (as_rd (m_as m)) /\ hits_range (as_wr (m_as m)).

Lemma sim_hits base asp m st g : sim base asp m st g -> hits_ok m.
Proof. intros [_ _ _ _ _ _ _ _ Hrd Hwr _ _ _ _ _ _]. split; by eapply noted_range. Qed.

(** Noting a region. *)
Lemma note_run a pr m u m' :
  as_inv (m_as m) -> hits_ok m -> note_if_ok a pr m = Ok u m' ->
  m_c m' = m_c m /\ mem_of m' = mem_of m /\ but_hits m' = but_hits m /\ as_inv (m_as m') /\ hits_ok m'.
Proof.
  intros Hi Hh. unfold note_if_ok, get_c, gets, mbind, M_bind. destruct (c_fault (m_c m)).
  { intros [= <- <-]. done. }
  intros [= <- <-]. cbn [set_as modify m_c m_as m_w mem_of]. split; [done|]. split; [done|].
  split; [|split; [by apply as_inv_note|]].
  - unfold but_hits. cbn. f_equal. unfold rsd_as_note. repeat case_match; done.
  - unfold hits_ok, rsd_as_note. cbn [m_as]. destruct Hh as [H1 H2]. rewrite as_find_first.
    destruct (first_region _ _) as [r|] eqn:Er; [|done]. apply first_region_Some in Er as [Hr _].
    pose proof (regions_wf_elem _ _ _ (proj1 Hi) Hr) as Hb.
    assert (Hn : forall h, hits_range h -> u64 (rg_end r - rg_start r) <? 8 = false ->
      hits_range (note_hit h (rg_start r) (u64 (rg_end r - rg_start r)))).
    { intros h [? ?] H8. unfold note_hit. case_match; [done|]. split; cbn; [|done].
      rewrite uwrap_small in * by (unfold urange; lia). unfold urange. lia. }
    destruct (negb _); [done|]. destruct (_ <? 8) eqn:E8; [done|].
    destruct (_ =? _); [split; [by apply Hn|done]|]. destruct (_ =? _); [split; [done|by apply Hn]|done].
Qed.

Lemma s32_opsize size : opsize size -> s32 size = size.
Proof. by intros [->|[->|[->| ->]]]. Qed.

(* ------------------------------------------------------------------ *)
(** ** Calls *)

Context `{!LinkOk}.

Lemma emits_some_call chk fn : emits_some chk (put_call fn).
Proof. unfold put_call. auto with emission. Qed.
Lemma emits_some_fault_check chk : emits_some chk put_fault_check.
Proof. eexists _, _. apply emits_fault_check. Qed.
#[local] Hint Resolve emits_some_call emits_some_fault_check : emission.

(** The address goes through x9. *)
Lemma goes_call chk fn st g :
  exists st1, keeps_regs [9] st st1 /\ forall r,
    call_c (helper_addr fn) st1 g = Some r -> goes call_c chk (put_call fn) Through (st, g) r.
Proof.
  destruct (run_imm 9 (helper_addr fn) st) as (st1 & R1 & V1 & K1); [done|done|apply link_range|].
  exists st1. split; [exact K1|]. intros [st' g'] Hc. unfold put_call.
  eapply goes_bind; [apply goes_straight; exact R1|].
  apply goes_blr; [done|]. by rewrite V1.
Qed.

Lemma returned_scratch base asp m m' v st g k :
  sim base asp m st g -> (forall i, is_Some (mem_of m' !! i) <-> is_Some (mem_of m !! i)) -> 0 <= k < 8 ->
  read_bytes (a_mem (returned base v m' st)) (base + off_tmp k) 8 = read_bytes (a_mem st) (base + off_tmp k) 8.
Proof.
  intros Hs Hd Hk. assert (Easp : cell (a_mem st) (base + OFF_AS) 8 = asp).
  { apply cell_read; [by apply Hs|]. pose proof (si_as_range _ _ _ _ _ Hs). unfold urange. lia. }
  pose proof (si_apart _ _ _ _ _ Hs) as Hap. apply read_bytes_ext. intros i Hi. unfold off_tmp in Hi.
  cbn [a_mem returned]. unfold poke. rewrite Easp, lookup_union_r.
  - unfold put_hits, OFF_AS_RD, OFF_AS_WR, OFF_RUNNING, OFF_FLAGS in *.
    rewrite !write_bytes_outside; rewrite ?length_le_bytes; (done || lia).
  - apply eq_None_not_Some. rewrite Hd. apply eq_None_not_Some, (si_own _ _ _ _ _ Hs). left. lia.
Qed.

(** A call that finds the machine [m] in memory. *)
Lemma goes_c_call chk fn base asp m st g f v m' :
  sim base asp m st g -> xr st 0 = base ->
  routine fn (xr st 1) (xr st 2) (xr st 3) (xr st 4) = Some f -> f m = Ok v m' -> routine_keeps m m' ->
  exists st', goes call_c chk (put_call fn) Through (st, g) (st', m') /\
    sim base asp m' st' m' /\ xr st' 0 = v /\ undisturbed base asp m st st' /\
    forall k, 0 <= k < 8 -> read_bytes (a_mem st') (base + off_tmp k) 8 = read_bytes (a_mem st) (base + off_tmp k) 8.
Proof.
  intros Hs Hx0 Hf Hm Hk. destruct (goes_call chk fn st g) as (st1 & K1 & G1).
  assert (Hx : forall n, n <> 9 -> xr st1 n = xr st n) by (intros n Hn; apply (kr_x _ _ _ K1); cbn; intuition).
  assert (S1 : sim base asp m st1 g) by (eapply sim_ext; [exact Hs|apply K1|by apply Hx]).
  exists (returned base v m' st1). split; [|split; [by eapply sim_returned|split; [done|split]]].
  - apply G1. unfold call_c. rewrite helper_at_addr. cbn [mbind option_bind].
    rewrite !Hx, Hf, Hx0, (sim_view _ _ _ _ _ S1) by done. cbn [mbind option_bind]. by rewrite Hm.
  - apply (undisturbed_trans _ _ _ m _ st1); [done|apply undisturbed_ext; try apply K1; intros; apply Hx; lia|].
    by eapply undisturbed_returned, Hk.
  - intros k Hk8. rewrite (returned_scratch _ _ _ _ _ _ _ _ S1 (rk_dom _ _ Hk) Hk8). by rewrite (kr_mem _ _ _ K1).
Qed.

(** A call and the check behind it. *)
Lemma goes_checked_call chk fn base asp m st g f v m' :
  sim base asp m st g -> xr st 0 = base ->
  routine fn (xr st 1) (xr st 2) (xr st 3) (xr st 4) = Some f -> f m = Ok v m' -> routine_keeps m m' ->
  exists st', goes call_c chk (put_call fn;; put_fault_check)
      (if c_running (m_c m') then Through else Leaves) (st, g) (st', m') /\
    sim base asp m' st' m' /\ xr st' 0 = v /\ undisturbed base asp m st st' /\ spares base st st'.
Proof.
  intros Hs Hx0 Hf Hm Hk. destruct (goes_c_call chk fn base asp m st g f v m' Hs Hx0 Hf Hm Hk) as (s1 & G1 & S1 & V1 & U1 & T1).
  pose proof (si_cpu _ _ _ _ _ S1) as C1. exists (set_x 9 (bz (c_running (m_c m'))) s1). split; [|split; [|split; [|split]]].
  - eapply goes_bind; [exact G1|]. apply (goes_fault_check _ _ base); [apply C1|apply C1|apply S1].
  - eapply sim_ext; [exact S1|apply mem_set_x|by rewrite xr_set_x].
  - by rewrite xr_set_x.
  - apply (undisturbed_trans _ _ _ m' _ s1); [intros i; apply Hk|exact U1|].
    apply undisturbed_ext; [apply mem_set_x|unfold set_x; by case_match|].
    intros n Hn _. by rewrite xr_set_x, (proj2 (Z.eqb_neq n 9)) by lia.
  - intros k Hk6. rewrite mem_set_x. apply T1. lia.
Qed.
End world.
