(* ===== verification/JitAccess.v ===== *)
(** Compiled loads and stores against the interpreter's ([put_load] and
    [put_store] in [src/jit.c], [ld] and [st] in [src/cpu.c]). *)
From S2P Require Import Prelude.
From S2P Require Import Memory.
From S2P Require Import AddressSpace.
From S2P Require Import Flags.
From S2P Require Import Machine.
From S2P Require Import Access.
From S2P Require Import Registers.
From S2P Require Import A64.
From S2P Require Import Emit.
From S2P Require Import JitEmit.
From S2P Require Import JitRun.
From S2P Require Import JitFlags.
From S2P Require Import JitRegs.
From S2P Require Import JitCode.
From S2P Require Import JitMem.
From S2P Require Import JitRel.
From S2P Require Import JitWorld.

Section loads.
Context `{HostOS} `{LinkOk} (junk : Z -> Z) (chk : bool).
#[local] Abbreviation goes := (goes (call_c junk) chk).

(* ------------------------------------------------------------------ *)
(** ** Loads *)

(** A load faults, or reads bytes that are there. *)
Lemma ld_ok a size m v m1 :
  opsize size -> ld a size m = Ok v m1 ->
  (access_ok (m_as m) a size RSD_PROT_R = false /\ v = 0 /\
   m1 = upd_m (memfault_cpu a (why (m_as m) a size)) m) \/
  (access_ok (m_as m) a size RSD_PROT_R = true /\ m1 = m /\
   exists bs, read_bytes (mem_of m) a (Z.to_nat size) = Some bs /\ v = le_val bs).
Proof.
  intros Hs. unfold ld, gets, mbind, M_bind. rewrite opsize_u64 by done. destruct (access_ok _ _ _ _) eqn:E; cbn [negb].
  - rewrite access_width_ok by done. intros [-> Hb]%host_read_ok. by right.
  - intros [= <- <-]. by left.
Qed.

Definition load_word (size : Z) : Z :=
  if size =? 1 then a64_ldrb A64_X0 A64_X1 0
  else if size =? 2 then a64_ldrh A64_X0 A64_X1 0
  else if size =? 4 then a64_ldr_w A64_X0 A64_X1 0
  else a64_ldr A64_X0 A64_X1 0.

(** A routine called for its effect or its value, and checked. *)
Definition checked_call (k : Z) (size : Z) (fn : helper) : E unit :=
  put (a64_mov A64_X0 CPU);; put_imm k (u64 size);; put_call fn;; put_fault_check.

Lemma put_load_parts size : forall b, put_access false (put (load_word size)) (checked_call 2 size fn_ld) b = put_load size b.
Proof.
  intros b. unfold put_access, put_load, checked_call. apply same_code_bind. intros slow.
  apply same_code_bind. intros []. apply same_code_bind. intros over. do 2 (apply same_code_bind; intros []).
  intros b1. unfold mbind, E_bind. destruct (put (a64_mov A64_X0 CPU) b1) as [[] b2]. destruct (put_imm _ _ b2) as [[] b3].
  by destruct (put_call fn_ld b3) as [[] b4].
Qed.

Lemma exec_load size st bs :
  opsize size -> urange 64 (xr st A64_X1) -> read_bytes (a_mem st) (xr st A64_X1) (Z.to_nat size) = Some bs ->
  exec_word (load_word size) st = Some (set_x 0 (le_val bs) st, Next).
Proof.
  intros Hs Hu Hr. assert (Ha : u64 (xr st A64_X1 + 0) = xr st A64_X1) by (by rewrite Z.add_0_r, uwrap_small).
  unfold load_word. destruct Hs as [->|[->|[->| ->]]]; cbn [Z.eqb Pos.eqb] in *.
  - by apply exec_ldrb; rewrite ?Ha.
  - by apply exec_ldrh; rewrite ?Ha.
  - by apply exec_ldr_w; rewrite ?Ha.
  - by apply exec_ldr; rewrite ?Ha.
Qed.

Lemma read_bytes_sub mem mem' a n bs : mem ⊆ mem' -> read_bytes mem a n = Some bs -> read_bytes mem' a n = Some bs.
Proof.
  intros Hs Hr. rewrite <- Hr. apply read_bytes_ext. intros i Hi. destruct (read_bytes_mapped _ _ _ _ _ Hr Hi) as [x Hx].
  rewrite Hx. by eapply lookup_weaken.
Qed.
(** Where an access leaves the A64 machine: at a machine [m1], whichever
    regions were noted on the way. *)
Record lands (base asp : Z) (m m1 : machine) (st st' : astate) (g' : machine) : Prop := {
  la_sim : exists m', sim base asp m' st' g' /\ but_hits m' = but_hits m1 /\ as_inv (m_as m');
  la_kept : undisturbed base asp m st st'
}.

Lemma memfault_cpu_fields a what c :
  c_r (memfault_cpu a what c) = c_r c /\ c_cur_rip (memfault_cpu a what c) = c_cur_rip c /\
  c_flags (memfault_cpu a what c) = c_flags c /\ c_running (memfault_cpu a what c) = false.
Proof. unfold memfault_cpu. by destruct (c_fault c). Qed.

(** Behind a routine that did [m1] and noted a region. *)
Lemma noted_keeps base asp m st g m1 a pr u m2 :
  sim base asp m st g -> as_inv (m_as m1) -> m_as m1 = m_as m ->
  c_r (m_c m1) = c_r (m_c m) -> c_cur_rip (m_c m1) = c_cur_rip (m_c m) -> c_flags (m_c m1) = c_flags (m_c m) ->
  mem_ok (mem_of m1) -> (forall i, is_Some (mem_of m1 !! i) <-> is_Some (mem_of m !! i)) ->
  note_if_ok a pr m1 = Ok u m2 ->
  routine_keeps m m2 /\ m_c m2 = m_c m1 /\ but_hits m2 = but_hits m1 /\ as_inv (m_as m2).
Proof.
  intros Hs Hi Ha Hr Hrip Hfl Hm Hd Hn. destruct (sim_hits _ _ _ _ _ Hs) as [Q1 Q2].
  destruct (note_run _ _ _ _ _ Hi ltac:(unfold hits_ok; rewrite Ha; by split) Hn) as (Ec & Em & Eb & Ei & [Q3 Q4]).
  split; [|done]. split; rewrite ?Ec, ?Em; try done. rewrite Hfl. apply Hs.
Qed.

(** The cpu and the size, as arguments. *)
Lemma run_args base asp m st g k size :
  sim base asp m st g -> k = 2 \/ k = 3 ->
  exists st', emit_runs (put (a64_mov A64_X0 CPU);; put_imm k (u64 size)) tt st st' /\
    xr st' 0 = base /\ xr st' k = u64 size /\ (forall n, n <> 0 -> n <> k -> xr st' n = xr st n) /\
    a_mem st' = a_mem st /\ a_sp st' = a_sp st.
Proof.
  intros Hs Hk. set (s1 := set_x 0 base st).
  assert (W1 : exec_word (a64_mov A64_X0 CPU) st = Some (s1, Next)).
  { rewrite exec_mov by done. destruct (si_cpu _ _ _ _ _ Hs) as [[Hb Hbr _ _] _ _].
    rewrite Hb, uwrap_small by (unfold urange; lia). done. }
  destruct (run_imm k (u64 size) s1) as (s2 & R2 & V2 & K2); [unfold xreg; lia|lia|by apply uwrap_range|].
  exists s2. split; [by eapply run_put_bind|]. split_and!; [|done| | |].
  - rewrite (kr_x _ _ _ K2) by (cbn; lia). unfold s1. by rewrite xr_set_x.
  - intros n Hn Hn'. rewrite (kr_x _ _ _ K2) by (cbn; intuition). unfold s1. by rewrite xr_set_x, (proj2 (Z.eqb_neq n 0)).
  - rewrite (kr_mem _ _ _ K2). apply mem_set_x.
  - rewrite (kr_sp _ _ _ K2). done.
Qed.

Lemma emits_some_checked_call k size fn : emits_some chk (checked_call k size fn).
Proof.
  unfold checked_call. repeat first [apply emits_some_put|apply emits_some_imm|apply emits_some_call|apply emits_some_fault_check|apply emits_some_bind].
Qed.

Lemma checked_call_goes base asp m st g k size fn f v m1 m2 :
  sim base asp m st g -> k = 2 \/ k = 3 ->
  (forall x3, k = 3 \/ x3 = xr st 3 -> (k = 3 -> x3 = u64 size) ->
    routine junk fn (xr st 1) (if k =? 2 then u64 size else xr st 2) x3 (xr st 4) = Some f) ->
  f m = Ok v m2 -> routine_keeps m m2 -> m_c m2 = m_c m1 -> but_hits m2 = but_hits m1 -> as_inv (m_as m2) ->
  exists st' g', goes (checked_call k size fn) (if c_running (m_c m1) then Through else Leaves) (st, g) (st', g') /\
    xr st' A64_X0 = v /\ lands base asp m m1 st st' g' /\ spares base st st'.
Proof.
  intros Hs Hk Hf Hm Hkeep Ec Eb Ei.
  destruct (run_args base asp m st g k size Hs Hk) as (s2 & R2 & X0 & Xk & Hx & M2 & P2).
  assert (S2 : sim base asp m s2 g) by (eapply sim_ext; [exact Hs|done|apply Hx; cbn; lia]).
  destruct (goes_checked_call junk chk fn base asp m s2 g f v m2) as (st' & G3 & S3 & V3 & U3 & T3); try done.
  { rewrite (Hx 1), (Hx 4) by lia. destruct Hk as [-> | ->]; cbn [Z.eqb Pos.eqb] in Hf.
    - rewrite Xk, Hx by lia. apply Hf; [by right|done].
    - rewrite Xk, Hx by lia. apply Hf; [by left|done]. }
  rewrite <- Ec. exists st', m2. split; [|split; [exact V3|split; [split|]]].
  - eapply goes_eq; [|exact (goes_bind _ _ _ (put_call fn;; put_fault_check) _ _ _ _ (goes_straight _ _ _ _ _ g R2) G3)].
    intros b. unfold checked_call. apply same_code_assoc.
  - by exists m2.
  - apply (undisturbed_trans _ _ _ m _ s2); [done| |exact U3].
    apply undisturbed_ext; [done|done|intros n Hn _; apply Hx; lia].
  - eapply spares_trans; [by apply spares_same|exact T3].
Qed.

Lemma slow_load_goes base asp m st g a size v m1 :
  opsize size -> as_inv (m_as m) -> sim base asp m st g -> c_running (m_c m) = true ->
  xr st A64_X1 = a -> ld a size m = Ok v m1 ->
  exists st' g', goes (checked_call 2 size fn_ld) (if c_running (m_c m1) then Through else Leaves) (st, g) (st', g') /\
    xr st' A64_X0 = v /\ lands base asp m m1 st st' g' /\ spares base st st'.
Proof.
  intros Hsz Hi Hs Hrun Ha Hld.
  destruct (note_if_ok a RSD_PROT_R m1) as [[] m2|] eqn:En.
  2: { exfalso. unfold note_if_ok, get_c, gets, mbind, M_bind in En. by destruct (c_fault _). }
  assert (Hk : routine_keeps m m2 /\ m_c m2 = m_c m1 /\ but_hits m2 = but_hits m1 /\ as_inv (m_as m2)).
  { destruct (ld_ok _ _ _ _ _ Hsz Hld) as [(_ & _ & E1)|(_ & E1 & _)]; subst m1.
    - destruct (memfault_cpu_fields a (why (m_as m) a size) (m_c m)) as (F1 & F2 & F3 & _).
      by eapply (noted_keeps base asp m st g); [..|exact En]; try apply Hs.
    - by eapply (noted_keeps base asp m st g); [..|exact En]; try apply Hs. }
  destruct Hk as (Hk & Ec & Eb & Ei).
  eapply (checked_call_goes _ _ _ _ _ _ _ _ (rsd_i_ld a (u64 size))); [exact Hs|by left| | |exact Hk|done..].
  - intros x3 _ _. cbn [routine Z.eqb Pos.eqb]. by rewrite Ha.
  - unfold rsd_i_ld. replace (s32 (u64 size)) with size by by destruct Hsz as [->|[->|[->| ->]]].
    unfold mbind, M_bind. by rewrite Hld, En.
Qed.

Lemma load_goes base asp m st g a size v m1 :
  opsize size -> as_inv (m_as m) -> sim base asp m st g -> c_running (m_c m) = true ->
  xr st A64_X1 = a -> urange 64 a -> ld a size m = Ok v m1 ->
  exists st' g', goes (put_load size) (if c_running (m_c m1) then Through else Leaves) (st, g) (st', g') /\
    xr st' A64_X0 = v /\ lands base asp m m1 st st' g' /\ spares base st st'.
Proof.
  intros Hsz Hi Hs Hrun Ha Hua Hld.
  destruct (access_goes (call_c junk) chk false (put (load_word size)) (checked_call 2 size fn_ld) base asp _ a st g
    (sim_spaces _ _ _ _ _ false Hs) Ha (emits_some_put _ _) (emits_some_checked_call 2 size fn_ld)) as (s1 & K1 & G1).
  assert (Hx : forall n, ~ 9 <= n <= 12 -> xr s1 n = xr st n) by apply K1.
  assert (S1 : sim base asp m s1 g) by (eapply sim_ext; [exact Hs|apply K1|apply Hx; cbn; lia]).
  assert (U1 : undisturbed base asp m st s1) by (apply undisturbed_ext; [apply K1|apply K1|intros; apply Hx; lia]).
  assert (Hret : forall wy s', goes (put_access false (put (load_word size)) (checked_call 2 size fn_ld)) wy (st, g) s' ->
    goes (put_load size) wy (st, g) s') by (intros; eapply goes_eq; [apply put_load_parts|done]).
  destruct (hit_check (as_rd (m_as m)) a) eqn:Eh.
  - assert (Hok : access_ok (m_as m) a size RSD_PROT_R = true).
    { unfold access_ok. rewrite (proj1 (hit_check_ok (m_as m) a size Hi Hua ltac:(unfold opsize in Hsz; lia)) Eh). done. }
    destruct (ld_ok _ _ _ _ _ Hsz Hld) as [(? & _)|(_ & -> & bs & Hb & ->)]; [congruence|]. rewrite Hrun.
    exists (set_x 0 (le_val bs) s1), g. split; [|split; [by rewrite xr_set_x|split; [split|]]].
    + apply Hret, G1, goes_straight, run_put, exec_load; [done|by rewrite Hx, Ha by (cbn; lia)|].
      rewrite Hx, Ha by (cbn; lia). eapply read_bytes_sub; [apply S1|exact Hb].
    + exists m. split; [|done]. eapply sim_ext; [exact S1|apply mem_set_x|by rewrite xr_set_x].
    + apply (undisturbed_trans _ _ _ m _ s1); [done|exact U1|].
      apply undisturbed_ext; [apply mem_set_x|unfold set_x; by case_match|].
      intros n Hn _. by rewrite xr_set_x, (proj2 (Z.eqb_neq n 0)) by lia.
    + apply spares_same. rewrite mem_set_x. apply K1.
  - destruct (slow_load_goes base asp m s1 g a size v m1) as (st' & g' & G2 & V2 & [S2 U2] & T2); try done; [by rewrite Hx by (cbn; lia)|].
    exists st', g'. split; [by apply Hret, G1|]. split; [exact V2|].
    split; [split; [exact S2|by eapply undisturbed_trans]|eapply spares_trans; [apply spares_same, K1|exact T2]].
Qed.

(* ------------------------------------------------------------------ *)
(** ** Stores *)

Definition store_word (size : Z) : Z :=
  if size =? 1 then a64_strb A64_X2 A64_X1 0
  else if size =? 2 then a64_strh A64_X2 A64_X1 0
  else if size =? 4 then a64_str_w A64_X2 A64_X1 0
  else a64_str A64_X2 A64_X1 0.

(** The write log's entry, around an in-line store of a checked block. *)
Definition log_code (size : Z) : E unit :=
  put (a64_str A64_X1 CPU (off_tmp 6));;
  put (a64_str A64_X2 CPU (off_tmp 7));;
  put (a64_mov A64_X0 CPU);;
  put_imm A64_X3 (u64 size);;
  put_call fn_wlog;;
  put (a64_ldr A64_X1 CPU (off_tmp 6));;
  put (a64_ldr A64_X2 CPU (off_tmp 7)).

Lemma put_store_parts size :
  same_emission chk (put_access true (ewhen chk (log_code size);; put (store_word size)) (checked_call 3 size fn_st))
    (put_store size).
Proof.
  intros b Hb. unfold put_access, put_store, checked_call.
  assert (Hbind : forall {A B} (c : E A) (f h : A -> E B), keeps_check c ->
    (forall a b, b_check b = chk -> f a b = h a b) -> (c ≫= f) b = (c ≫= h) b).
  { intros A B c f h Hk Hfh. unfold mbind, E_bind. specialize (Hk b). destruct (c b) as [a b1]. apply Hfh. cbn in Hk. congruence. }
  apply Hbind; [apply keeps_check_region|]. clear b Hb Hbind. intros slow b Hb.
  rewrite same_code_assoc. match goal with |- _ = (?c ≫= ?h) b => change ((c ≫= h) b) with (h (b_check b) b) end.
  rewrite Hb. cbv beta. revert b Hb. intros b _. revert b.
  do 2 (apply same_code_bind; intros []). apply same_code_bind; intros over. do 2 (apply same_code_bind; intros []).
  intros b1. unfold mbind, E_bind. destruct (put (a64_mov A64_X0 CPU) b1) as [[] b2]. destruct (put_imm _ _ b2) as [[] b3].
  by destruct (put_call fn_st b3) as [[] b4].
Qed.

Lemma full_put_store size : full_stays (put_store size).
Proof.
  assert (Hi : forall r v, full_stays (put_imm r v)) by (intros; unfold put_imm; auto 12 with emission).
  assert (Hf : full_stays put_fault_check) by (apply (em_stays chk _ _ _ (emits_fault_check chk))).
  unfold put_store, put_call, put_patch_bcond, put_patch_b.
  repeat first [apply full_region|apply Hi|apply Hf|apply full_put|apply full_here|apply full_patch|apply full_when
    |by (intros b Hb)|apply full_bind|match goal with |- forall _ : _, full_stays _ => intros ? end].
Qed.

Lemma exec_store size st :
  opsize size -> urange 64 (xr st A64_X1) -> is_Some (read_bytes (a_mem st) (xr st A64_X1) (Z.to_nat size)) ->
  exec_word (store_word size) st =
  Some (set_amem (write_bytes (a_mem st) (xr st A64_X1) (le_bytes (Z.to_nat size) (xr st A64_X2))) st, Next).
Proof.
  intros Hs Hu Hr. assert (Ha : u64 (xr st A64_X1 + 0) = xr st A64_X1) by (by rewrite Z.add_0_r, uwrap_small).
  unfold store_word. destruct Hs as [->|[->|[->| ->]]]; cbn [Z.eqb Pos.eqb] in *.
  - rewrite exec_strb; rewrite ?Ha; done.
  - rewrite exec_strh; rewrite ?Ha; done.
  - rewrite exec_str_w; rewrite ?Ha; done.
  - rewrite exec_str; rewrite ?Ha; done.
Qed.

(** A scratch word of the compiler's, written and read back. *)
Lemma run_save base asp m st g r k :
  sim base asp m st g -> xreg r -> 0 <= k < 8 ->
  let st' := set_amem (write_bytes (a_mem st) (base + off_tmp k) (le_bytes 8 (xr st r))) st in
  exec_word (a64_str r CPU (off_tmp k)) st = Some (st', Next) /\ sim base asp m st' g /\ undisturbed base asp m st st'.
Proof.
  intros Hs Hr Hk st'. destruct (sim_scratch _ _ _ _ _ k (xr st r) Hs Hk) as [S1 U1]. split; [|by split].
  destruct (si_cpu _ _ _ _ _ Hs) as [[Hb Hbr _ _] _ _].
  assert (Ha : u64 (xr st A64_X19 + off_tmp k) = base + off_tmp k).
  { rewrite Hb. apply uwrap_small. unfold urange, off_tmp. lia. }
  rewrite exec_str; rewrite ?Ha; [done|done|done|done| | |by apply Hs]; unfold off_tmp; [zdm|lia].
Qed.

Lemma run_load_back base asp m st g r k v :
  sim base asp m st g -> xreg r -> 0 <= k < 8 -> urange 64 v ->
  read_bytes (a_mem st) (base + off_tmp k) 8 = Some (le_bytes 8 v) ->
  exec_word (a64_ldr r CPU (off_tmp k)) st = Some (set_x r v st, Next).
Proof.
  intros Hs Hr Hk Hv Hm. destruct (si_cpu _ _ _ _ _ Hs) as [[Hb Hbr _ _] _ _].
  apply (exec_ldr8 _ _ _ base); try done; unfold off_tmp; [zdm|lia].
Qed.

(** Logging the store: the log's entry is the interpreter's, and the operands
    are back where they were. *)
Lemma log_goes base asp m st g a v size m1 :
  opsize size -> sim base asp m st g -> xr st A64_X1 = a -> urange 64 a -> xr st A64_X2 = v -> urange 64 v ->
  log_write a v size m = Ok tt m1 ->
  exists st' g', goes (log_code size) Through (st, g) (st', g') /\ sim base asp m1 st' g' /\
    xr st' A64_X1 = a /\ xr st' A64_X2 = v /\ undisturbed base asp m st st' /\ spares base st st'.
Proof.
  intros Hsz Hs Ha Hua Hv Huv Hlog.
  destruct (run_save base asp m st g 1 6 Hs ltac:(done) ltac:(lia)) as (W1 & S1 & U1). set (s1 := set_amem _ st) in *.
  destruct (run_save base asp m s1 g 2 7 S1 ltac:(done) ltac:(lia)) as (W2 & S2 & U2). set (s2 := set_amem _ s1) in *.
  assert (T6 : read_bytes (a_mem s2) (base + off_tmp 6) 8 = Some (le_bytes 8 a)).
  { unfold s2, s1. cbn [a_mem set_amem]. rewrite read_write_other by (rewrite length_le_bytes; unfold off_tmp; lia).
    rewrite <- Ha. apply read_write_bytes8. }
  assert (T7 : read_bytes (a_mem s2) (base + off_tmp 7) 8 = Some (le_bytes 8 v)).
  { rewrite <- Hv. apply read_write_bytes8. }
  destruct (run_args base asp m s2 g 3 size S2 ltac:(by right)) as (s3 & R3 & X0 & X3 & Hx & M3 & P3).
  assert (S3 : sim base asp m s3 g) by (eapply sim_ext; [exact S2|done|apply Hx; cbn; lia]).
  destruct (log_write_ok _ _ _ _ _ _ Hsz Hlog) as (w' & Em & _).
  assert (Hk : routine_keeps m m1).
  { destruct (sim_hits _ _ _ _ _ Hs). subst m1. split; try done; apply Hs. }
  destruct (goes_c_call junk chk fn_wlog base asp m s3 g (rsd_i_wlog a v (u64 size);; mret (junk 0)) (junk 0) m1)
    as (s4 & G4 & S4 & _ & U4 & T4); try done.
  { rewrite X3, !Hx by lia. by rewrite <- Ha, <- Hv. }
  { unfold rsd_i_wlog. replace (s32 (u64 size)) with size by by destruct Hsz as [->|[->|[->| ->]]].
    unfold mbind, M_bind. by rewrite Hlog. }
  assert (W5 : exec_word (a64_ldr A64_X1 CPU (off_tmp 6)) s4 = Some (set_x 1 a s4, Next)).
  { apply (run_load_back base asp m1 s4 m1); try done. by rewrite T4, M3 by lia. }
  assert (S5 : sim base asp m1 (set_x 1 a s4) m1) by (eapply sim_ext; [exact S4|apply mem_set_x|by rewrite xr_set_x]).
  assert (W6 : exec_word (a64_ldr A64_X2 CPU (off_tmp 7)) (set_x 1 a s4) = Some (set_x 2 v (set_x 1 a s4), Next)).
  { apply (run_load_back base asp m1 _ m1); try done. by rewrite mem_set_x, T4, M3 by lia. }
  exists (set_x 2 v (set_x 1 a s4)), m1. split; [|split; [|split; [|split; [|split]]]].
  - unfold log_code. eapply goes_bind; [apply goes_straight, run_put; exact W1|].
    eapply goes_bind; [apply goes_straight, run_put; exact W2|].
    eapply goes_eq; [intros b; apply same_code_assoc|].
    eapply goes_bind; [apply goes_straight; exact R3|].
    eapply goes_bind; [exact G4|].
    eapply goes_bind; [apply goes_straight, run_put; exact W5|].
    apply goes_straight, run_put; exact W6.
  - eapply sim_ext; [exact S5|apply mem_set_x|by rewrite xr_set_x].
  - by rewrite !xr_set_x.
  - by rewrite !xr_set_x.
  - apply (undisturbed_trans _ _ _ m _ s1); [done|exact U1|]. apply (undisturbed_trans _ _ _ m _ s2); [done|exact U2|].
    apply (undisturbed_trans _ _ _ m _ s3); [done|apply undisturbed_ext; [done|done|intros n Hn _; apply Hx; lia]|].
    apply (undisturbed_trans _ _ _ m1 _ s4); [intros i; apply Hk|exact U4|].
    apply undisturbed_ext; [by rewrite !mem_set_x|unfold set_x; by repeat case_match|].
    intros n Hn _. by rewrite !xr_set_x, (proj2 (Z.eqb_neq n 2)), (proj2 (Z.eqb_neq n 1)) by lia.
  - apply (spares_trans _ _ s1); [by apply spares_scratch|]. apply (spares_trans _ _ s2); [by apply spares_scratch|].
    intros k Hk6. rewrite !mem_set_x, T4, M3 by lia. done.
Qed.

(** A store faults, or logs and writes. *)
Lemma st_logged a v size m m1 :
  opsize size -> Machine.st a v size m = Ok tt m1 ->
  (access_ok (m_as m) a size RSD_PROT_W = false /\ m1 = upd_m (memfault_cpu a (why (m_as m) a size)) m) \/
  (access_ok (m_as m) a size RSD_PROT_W = true /\ is_Some (read_bytes (mem_of m) a (Z.to_nat size)) /\
   exists w', let m' := upd_m (with_wlog w') m in
     log_write a v size m = Ok tt m' /\ m1 = with_mem (write_bytes (mem_of m) a (le_bytes (Z.to_nat size) v)) m').
Proof.
  intros Hs. unfold Machine.st, gets, mbind, M_bind. rewrite opsize_u64 by done.
  destruct (access_ok (m_as m) a size RSD_PROT_W) eqn:Ea; cbn [negb].
  - destruct (log_write a v size m) as [[] m'|] eqn:El; [|done].
    destruct (log_write_ok _ _ _ _ _ _ Hs El) as (w' & -> & _). unfold host_write.
    rewrite access_width_ok by done. intros [-> Hr]%host_store_ok. rewrite length_le_bytes in Hr.
    right. split; [done|]. split; [exact Hr|]. by exists w'.
  - intros [= <-]. by left.
Qed.

Lemma st_leaves a v size m m1 base asp st g :
  opsize size -> sim base asp m st g -> Machine.st a v size m = Ok tt m1 ->
  m_as m1 = m_as m /\ c_r (m_c m1) = c_r (m_c m) /\ c_cur_rip (m_c m1) = c_cur_rip (m_c m) /\
  c_flags (m_c m1) = c_flags (m_c m) /\ mem_ok (mem_of m1) /\
  (forall i, is_Some (mem_of m1 !! i) <-> is_Some (mem_of m !! i)).
Proof.
  intros Hsz Hs Hst. destruct (st_logged _ _ _ _ _ Hsz Hst) as [(_ & ->)|(_ & Hr & w' & _ & ->)].
  - destruct (memfault_cpu_fields a (why (m_as m) a size) (m_c m)) as (F1 & F2 & F3 & _). split_and!; try done. apply Hs.
  - split_and!; try done; [apply mem_ok_write; [apply Hs|apply le_bytes_ok]|].
    intros i. unfold mem_of at 1. cbn. rewrite write_bytes_mapped, length_le_bytes. split; [|by left].
    intros [?|Hi]; [done|]. rewrite read_bytes_is_Some in Hr. by apply Hr.
Qed.

Lemma slow_store_goes base asp m st g a v size m1 :
  opsize size -> as_inv (m_as m) -> sim base asp m st g -> xr st A64_X1 = a -> xr st A64_X2 = v ->
  Machine.st a v size m = Ok tt m1 ->
  exists st' g', goes (checked_call 3 size fn_st) (if c_running (m_c m1) then Through else Leaves) (st, g) (st', g') /\
    lands base asp m m1 st st' g' /\ spares base st st'.
Proof.
  intros Hsz Hi Hs Ha Hv Hst.
  destruct (note_if_ok a RSD_PROT_W m1) as [[] m2|] eqn:En.
  2: { exfalso. unfold note_if_ok, get_c, gets, mbind, M_bind in En. by destruct (c_fault _). }
  destruct (st_leaves _ _ _ _ _ _ _ _ _ Hsz Hs Hst) as (Eas & Er & Erip & Efl & Hby & Hdom).
  destruct (noted_keeps base asp m st g m1 a RSD_PROT_W tt m2) as (Hk & Ec & Eb & Ei); try done; [by rewrite Eas|].
  destruct (checked_call_goes base asp m st g 3 size fn_st (rsd_i_st a v (u64 size);; mret (junk 0)) (junk 0) m1 m2)
    as (st' & g' & G & _ & L & T); try done; [by right| | |by exists st', g'].
  - intros x3 _ Hx3. rewrite Hx3 by done. cbn [routine Z.eqb Pos.eqb]. by rewrite Ha, Hv.
  - unfold rsd_i_st. replace (s32 (u64 size)) with size by by destruct Hsz as [->|[->|[->| ->]]].
    unfold mbind, M_bind. by rewrite Hst, En.
Qed.

Lemma emits_some_fast_store size : emits_some chk (ewhen chk (log_code size);; put (store_word size)).
Proof.
  unfold log_code. repeat first [apply emits_some_put|apply emits_some_imm|apply emits_some_call|apply emits_some_when|apply emits_some_bind].
Qed.

Lemma fast_store_goes base asp m st g a v size m1 :
  opsize size -> sim base asp m st g -> (chk = false -> c_wlog (m_c m) = None) ->
  xr st A64_X1 = a -> urange 64 a -> xr st A64_X2 = v -> urange 64 v ->
  access_ok (m_as m) a size RSD_PROT_W = true -> Machine.st a v size m = Ok tt m1 ->
  exists st' g', goes (ewhen chk (log_code size);; put (store_word size)) Through (st, g) (st', g') /\
    sim base asp m1 st' g' /\ undisturbed base asp m st st' /\ spares base st st'.
Proof.
  intros Hsz Hs Hnolog Ha Hua Hv Huv Hok Hst.
  destruct (st_logged _ _ _ _ _ Hsz Hst) as [(? & _)|(_ & Hr & w' & Hlog & ->)]; [congruence|].
  set (m' := upd_m (with_wlog w') m) in *.
  assert (E0 : forall b, b = chk -> exists s1 g1, goes (ewhen b (log_code size)) Through (st, g) (s1, g1) /\ sim base asp m' s1 g1 /\
    xr s1 A64_X1 = a /\ xr s1 A64_X2 = v /\ undisturbed base asp m st s1 /\ spares base st s1).
  { intros b Hb. destruct b; cbn [ewhen]; [by apply log_goes|].
    assert (Em : m' = m).
    { specialize (Hnolog (eq_sym Hb)). unfold log_write, get_c, gets, mbind, M_bind in Hlog. rewrite Hnolog in Hlog. by injection Hlog. }
    rewrite Em. exists st, g. split; [apply goes_straight, run_ret|]. split_and!; try done. }
  destruct (E0 chk eq_refl) as (s1 & g1 & G1 & S1 & X1 & X2 & U1 & T1).
  destruct (sim_store base asp m' s1 g1 a (le_bytes (Z.to_nat size) v) S1 ltac:(by rewrite length_le_bytes) (le_bytes_ok _ _)) as [S2 U2].
  exists (set_amem (write_bytes (a_mem s1) a (le_bytes (Z.to_nat size) v)) s1), g1. split; [|split; [exact S2|split]].
  - eapply goes_bind; [exact G1|]. apply goes_straight, run_put.
    rewrite exec_store; rewrite ?X1, ?X2; try done. destruct Hr as [bs Hr]. exists bs. eapply read_bytes_sub; [apply S1|exact Hr].
  - eapply (undisturbed_trans _ _ _ m'); [done|exact U1|exact U2].
  - eapply spares_trans; [exact T1|]. eapply spares_store; [exact S1|]. by rewrite length_le_bytes.
Qed.

Lemma store_goes base asp m st g a v size m1 :
  opsize size -> as_inv (m_as m) -> sim base asp m st g -> c_running (m_c m) = true ->
  (chk = false -> c_wlog (m_c m) = None) ->
  xr st A64_X1 = a -> urange 64 a -> xr st A64_X2 = v -> urange 64 v -> Machine.st a v size m = Ok tt m1 ->
  exists st' g', goes (put_store size) (if c_running (m_c m1) then Through else Leaves) (st, g) (st', g') /\
    lands base asp m m1 st st' g' /\ spares base st st'.
Proof.
  intros Hsz Hi Hs Hrun Hnolog Ha Hua Hv Huv Hst.
  destruct (access_goes (call_c junk) chk true (ewhen chk (log_code size);; put (store_word size)) (checked_call 3 size fn_st)
    base asp _ a st g (sim_spaces _ _ _ _ _ true Hs) Ha (emits_some_fast_store _) (emits_some_checked_call _ _ _)) as (s1 & K1 & G1).
  assert (Hx : forall n, ~ 9 <= n <= 12 -> xr s1 n = xr st n) by apply K1.
  assert (S1 : sim base asp m s1 g) by (eapply sim_ext; [exact Hs|apply K1|apply Hx; cbn; lia]).
  assert (U1 : undisturbed base asp m st s1) by (apply undisturbed_ext; [apply K1|apply K1|intros; apply Hx; lia]).
  assert (X1 : xr s1 A64_X1 = a /\ xr s1 A64_X2 = v) by (rewrite !Hx by (cbn; lia); done). destruct X1 as [X1 X2].
  assert (Hret : forall wy s', goes (put_access true (ewhen chk (log_code size);; put (store_word size)) (checked_call 3 size fn_st)) wy (st, g) s' ->
    goes (put_store size) wy (st, g) s') by (intros; eapply goes_same; [apply put_store_parts|apply full_put_store|done]).
  destruct (hit_check (as_wr (m_as m)) a) eqn:Eh.
  - assert (Hok : access_ok (m_as m) a size RSD_PROT_W = true).
    { unfold access_ok. rewrite (proj2 (hit_check_ok (m_as m) a size Hi Hua ltac:(unfold opsize in Hsz; lia)) Eh). done. }
    destruct (fast_store_goes base asp m s1 g a v size m1) as (st' & g' & G2 & S2 & U2 & T2); try done.
    assert (Hrun1 : c_running (m_c m1) = true /\ m_as m1 = m_as m).
    { destruct (st_logged _ _ _ _ _ Hsz Hst) as [(? & _)|(_ & _ & w' & _ & ->)]; [congruence|done]. }
    destruct Hrun1 as [-> Eas]. exists st', g'. split; [by apply Hret, G1|].
    split; [split; [|by eapply undisturbed_trans]|eapply spares_trans; [apply spares_same, K1|exact T2]].
    exists m1. split; [done|]. split; [done|]. by rewrite Eas.
  - destruct (slow_store_goes base asp m s1 g a v size m1) as (st' & g' & G2 & [S2 U2] & T2); try done.
    exists st', g'. split; [by apply Hret, G1|].
    split; [split; [exact S2|by eapply undisturbed_trans]|eapply spares_trans; [apply spares_same, K1|exact T2]].
Qed.

Lemma emits_some_load size : emits_some chk (put_load size).
Proof.
  destruct (emits_some_put chk (load_word size)) as (wf & ff & Hf), (emits_some_checked_call 2 size fn_ld) as (ws & fs & Hw).
  eexists _, _. eapply emits_eq; [apply put_load_parts|by eapply access_emits].
Qed.

Lemma emits_some_store size : emits_some chk (put_store size).
Proof.
  destruct (emits_some_fast_store size) as (wf & ff & Hf), (emits_some_checked_call 3 size fn_st) as (ws & fs & Hw).
  eexists _, _. eapply emits_same; [apply put_store_parts|apply full_put_store|by eapply access_emits].
Qed.
End loads.

#[export] Hint Resolve emits_some_load emits_some_store : emission.
