(* ===== verification/JitRoutines.v ===== *)
(** Compiled code that leaves the flags to a routine ([put_flags] in
    [src/jit.c] where it does not compute them in line; the routines are
    [rsd_i_flags_add] and its kin in [src/cpu.c]), and how code that works on
    registers and code that calls fit together. *)
From S2P Require Import Prelude.
From S2P Require Import Memory.
From S2P Require Import AddressSpace.
From S2P Require Import Flags.
From S2P Require Import Machine.
From S2P Require Import Access.
From S2P Require Import Registers.
From S2P Require Import A64.
From S2P Require Import Emit.
From S2P Require Import Jit.
From S2P Require Import JitEmit.
From S2P Require Import JitInsn.
From S2P Require Import JitRun.
From S2P Require Import JitFlags.
From S2P Require Import JitRegs.
From S2P Require Import JitLive.
From S2P Require Import JitBlock.
From S2P Require Import JitCode.
From S2P Require Import JitMem.
From S2P Require Import JitRel.
From S2P Require Import JitSem.
From S2P Require Import JitWorld.
From S2P Require Import JitAccess.

Section routines.
Context `{HostOS} `{LinkOk} (junk : Z -> Z) (chk : bool).
#[local] Abbreviation goes := (goes (call_c junk) chk).

(* ------------------------------------------------------------------ *)
(** ** The cpu's fields *)

(** Register code found the machine in memory and left other registers and
    flags there. *)
Lemma sim_cpu_at base asp m st g R fl st' :
  sim base asp m st g -> cpu_at base R fl st' -> keeps_cpu base st st' ->
  sim base asp (set_gpr R fl m) st' g /\ undisturbed base asp m st st'.
Proof.
  intros [Hc Hlen Hrip Hripr Hrun Has Hasr Hap Hrd Hwr Hmem Hby Hdom Hown Hrest Htmp] C' [Km Ks Kx].
  assert (Hfl : urange 32 fl) by apply C'. pose proof (ac_range _ _ _ (ca_at _ _ _ _ Hc)) as Hbr.
  assert (Hr : forall p n, base + 404 <= p \/ (base + 128 <= p /\ p + Z.of_nat n <= base + 400) ->
    read_bytes (a_mem st') p n = read_bytes (a_mem st) p n).
  { intros p n Hp. apply read_bytes_ext. intros i Hi. apply Km. unfold reg_file. lia. }
  unfold OFF_RUNNING, OFF_AS, OFF_CURRIP, off_tmp in *.
  split; [split; try done; unfold OFF_RUNNING, OFF_AS, OFF_CURRIP, off_tmp; cbn [set_gpr upd_m m_c c_cur_rip c_running with_flags with_r c_flags]|].
  - rewrite (uwrap_small 32) by done. eapply cpu_at_ext; [|exact C']. intros r Hg. by rewrite reg_set_gpr.
  - by rewrite Hr by lia.
  - by rewrite Hr by lia.
  - by rewrite Hr by lia.
  - apply (noted_ext (a_mem st)); [intros i Hi; apply Km; unfold reg_file, OFF_AS_RD in *; lia|done].
  - apply (noted_ext (a_mem st)); [intros i Hi; apply Km; unfold reg_file, OFF_AS_WR in *; lia|done].
  - apply map_subseteq_spec. intros i x Hx. change (mem_of m !! i = Some x) in Hx. rewrite Km; [by eapply lookup_weaken|].
    intros Hi. rewrite Hown in Hx; [done|]. left. unfold reg_file in Hi. lia.
  - intros i Hi. rewrite Hr by lia. by apply Htmp.
  - split; [done|intros n Hn _; apply Kx; lia|]. intros i Hi _. apply Km. unfold own, reg_file in *. lia.
Qed.

(** The address of the instruction, for a fault to name. *)
Lemma run_set_rip base asp m st g rip :
  sim base asp m st g -> urange 64 rip ->
  exists st', emit_runs (put_set_rip rip) tt st st' /\ sim base asp (upd_m (with_cur_rip rip) m) st' g /\
    undisturbed base asp m st st' /\ spares base st st'.
Proof.
  intros Hs Hrip. destruct (run_imm 9 rip st) as (s1 & R1 & V1 & K1); [done..|].
  assert (S1 : sim base asp m s1 g) by (eapply sim_ext; [exact Hs|apply K1|apply (kr_x _ _ _ K1); cbn; lia]).
  pose proof S1 as [[[Hb Hbr Hf Hfl] Hread Hrange] Hlen Hcr Hripr Hrun Has Hasr Hap Hrd Hwr Hmem Hby Hdom Hown Hrest Htmp].
  set (s2 := set_amem (write_bytes (a_mem s1) (base + OFF_CURRIP) (le_bytes 8 rip)) s1).
  assert (Ha : u64 (xr s1 A64_X19 + OFF_CURRIP) = base + OFF_CURRIP) by (rewrite Hb; apply cpu_addr; [done|unfold OFF_CURRIP; lia]).
  assert (W2 : exec_word (a64_str A64_X9 CPU OFF_CURRIP) s1 = Some (s2, Next)).
  { rewrite exec_str; rewrite ?Ha; [by rewrite V1|done|done|done|done|done|by eexists]. }
  assert (Hout : forall i, ~ base + 392 <= i < base + 400 -> a_mem s2 !! i = a_mem s1 !! i).
  { intros i Hi. apply write_bytes_outside. rewrite length_le_bytes. unfold OFF_CURRIP. lia. }
  assert (Hr : forall p n, p + Z.of_nat n <= base + 392 \/ base + 400 <= p -> read_bytes (a_mem s2) p n = read_bytes (a_mem s1) p n).
  { intros p n Hp. apply read_bytes_ext. intros i Hi. apply Hout. lia. }
  assert (Hoff : forall r, greg r -> 0 <= off_r r <= 120) by (unfold greg, off_r; lia).
  exists s2. split; [by eapply run_bind; [exact R1|apply run_put]|].
  unfold OFF_RUNNING, OFF_FLAGS, OFF_AS, off_tmp in *.
  split; [split; try done; unfold OFF_RUNNING, OFF_FLAGS, OFF_AS, off_tmp; cbn [upd_m m_c c_cur_rip with_cur_rip]|split].
  - split; [split; [done|done| |done]|..]; unfold OFF_FLAGS; try done; [by rewrite Hr by lia|].
    intros r Hg. specialize (Hoff r Hg). rewrite Hr by lia. by apply Hread.
  - rewrite uwrap_small by done. apply read_write_bytes8.
  - by apply uwrap_range.
  - by rewrite Hr by lia.
  - by rewrite Hr by lia.
  - apply (noted_ext (a_mem s1)); [intros i Hi; apply Hout; unfold OFF_AS_RD in Hi; lia|done].
  - apply (noted_ext (a_mem s1)); [intros i Hi; apply Hout; unfold OFF_AS_WR in Hi; lia|done].
  - apply map_subseteq_spec. intros i x Hx. change (mem_of m !! i = Some x) in Hx. rewrite Hout; [by eapply lookup_weaken|].
    intros Hi. rewrite (Hown i) in Hx; [done|]. left. lia.
  - intros i Hi. rewrite Hr by lia. by apply Htmp.
  - apply (undisturbed_trans _ _ _ m _ s1); [done|apply undisturbed_ext; try apply K1; intros; apply (kr_x _ _ _ K1); cbn; lia|].
    split; [done|done|]. intros i Hi _. apply Hout. unfold own in Hi. lia.
  - apply (spares_trans _ _ s1); [apply spares_same, K1|]. intros k Hk. unfold off_tmp. by rewrite Hr by lia.
Qed.

(** The front of an instruction with a memory operand: the address is in x1. *)
Lemma run_front base asp m st g o rip :
  ea_ok o -> sim base asp m st g -> urange 64 rip ->
  exists st', emit_runs (put_set_rip rip;; put_ea o) tt st st' /\
    sim base asp (upd_m (with_cur_rip rip) m) st' g /\ xr st' A64_X1 = ref_ea o (reg m) /\
    undisturbed base asp m st st' /\ spares base st st'.
Proof.
  intros He Hs Hrip. destruct (run_set_rip base asp m st g rip Hs Hrip) as (s1 & R1 & S1 & U1 & T1).
  destruct (run_ea base _ _ o s1 He (si_cpu _ _ _ _ _ S1)) as (s2 & R2 & V2 & K2).
  exists s2. split; [by eapply run_bind|]. split; [|split; [exact V2|split; [|eapply spares_trans; [exact T1|apply spares_same, K2]]]].
  - eapply sim_ext; [exact S1|apply K2|apply (kr_x _ _ _ K2); cbn; lia].
  - apply (undisturbed_trans _ _ _ m _ s1); [done|exact U1|].
    apply undisturbed_ext; [apply K2|apply K2|intros; apply (kr_x _ _ _ K2); cbn; lia].
Qed.

(** Machines that differ in noted regions only have the same cpu. *)
Lemma but_hits_fields m m' :
  but_hits m = but_hits m' -> m_c m = m_c m' /\ m_w m = m_w m' /\ forall R fl, but_hits (set_gpr R fl m) = but_hits (set_gpr R fl m').
Proof.
  intros Hb. unfold but_hits in Hb. injection Hb as Hc Ha1 Ha2 Hw Hcb Hcm. split; [done|]. split; [done|].
  intros R fl. unfold but_hits, set_gpr, upd_m, as_forget. cbn. by rewrite Hc, Ha1, Ha2, Hw, Hcb, Hcm.
Qed.

Lemma lands_trans base asp m m' m1 s s1 s2 g2 :
  (forall i, is_Some (mem_of m' !! i) -> is_Some (mem_of m !! i)) ->
  undisturbed base asp m s s1 -> lands base asp m' m1 s1 s2 g2 -> lands base asp m m1 s s2 g2.
Proof. intros Hd U [L U']. split; [exact L|]. by apply (undisturbed_trans _ _ _ m' _ s1). Qed.

Lemma lands_hits base asp m m1 m2 s s1 g1 : but_hits m1 = but_hits m2 -> lands base asp m m1 s s1 g1 -> lands base asp m m2 s s1 g1.
Proof. intros Hb [(m' & S' & B' & I') U]. split; [|exact U]. exists m'. split; [exact S'|]. split; [congruence|exact I']. Qed.

Lemma set_gpr_twice R fl fl' m : set_gpr (reg (set_gpr R fl m)) fl' (set_gpr R fl m) = set_gpr R fl' m.
Proof. rewrite set_gpr_flags; [done|]. cbn -[seqZ]. by rewrite length_fmap, length_seqZ. Qed.

(* ------------------------------------------------------------------ *)
(** ** Flags from a routine *)

(** Such a routine keeps what a routine must. *)
Lemma flag_word_keeps base asp m st g v : sim base asp m st g -> routine_keeps m (upd_m (with_flags v) m).
Proof.
  intros Hs. destruct (sim_hits _ _ _ _ _ Hs) as [Q1 Q2].
  split; try done; [by apply uwrap_range|apply Hs].
Qed.

(** The machine a flag routine leaves. *)
Lemma flag_routine_lands base asp m st g fl st' :
  sim base asp m st g -> as_inv (m_as m) -> let m' := upd_m (with_flags fl) m in
  sim base asp m' st' m' -> undisturbed base asp m st st' -> lands base asp m (set_gpr (reg m) fl m) st st' m'.
Proof.
  intros Hs Hi m' S' U'. rewrite set_gpr_flags by apply Hs. split; [|exact U']. by exists m'.
Qed.

Definition put_flag_args (fn : helper) (size : Z) : E unit :=
  if is_logic fn then put (a64_mov A64_X1 A64_X3);; put_imm A64_X2 (u64 size)
  else if bool_decide (fn = fn_flags_inc) || bool_decide (fn = fn_flags_dec) then
    put (a64_mov A64_X2 A64_X3);; put_imm A64_X3 (u64 size)
  else put_imm A64_X4 (u64 size).

Definition flag_helper (fn : helper) : Prop :=
  fn = fn_flags_add \/ fn = fn_flags_sub \/ fn = fn_flags_logic \/ fn = fn_flags_inc \/ fn = fn_flags_dec.

Lemma put_flags_routine o fn b :
  i_size o = 1 -> i_fneed o <> 0 ->
  (put (a64_mov A64_X0 CPU);; (put_flag_args fn 1;; put_call fn)) b = put_flags o (Some fn) (i_size o) b.
Proof.
  intros Hs Hn. unfold put_flags, nz. rewrite (proj2 (Z.eqb_neq _ _) Hn), Hs. cbn [negb Z.eqb Pos.eqb].
  unfold put_flag_args. done.
Qed.

(** The result as an argument, then the size. *)
Lemma run_result_size d k st :
  xreg d -> d <> 31 -> xreg k -> k <> 31 -> d <> k -> urange 64 (xr st 3) ->
  exists st', emit_runs (put (a64_mov d A64_X3);; put_imm k (u64 1)) tt st st' /\
    xr st' d = xr st 3 /\ xr st' k = 1 /\ keeps_regs [d; k] st st'.
Proof.
  intros Hd Hd31 Hk Hk31 Hdk Hu. destruct (run_imm k (u64 1) (set_x d (xr st 3) st)) as (s1 & R1 & V1 & K1); [done..|].
  exists s1. split; [|split; [|split; [done|]]].
  - eapply run_put_bind; [|exact R1]. rewrite exec_mov by done. by rewrite uwrap_small.
  - rewrite (kr_x _ _ _ K1) by (cbn; intuition congruence). rewrite xr_set_x, Z.eqb_refl. by rewrite (proj2 (Z.eqb_neq d 31)).
  - eapply keeps_regs_trans; [apply keeps_regs_set; by left|]. eapply keeps_regs_sub; [exact K1|intros n; cbn; tauto].
Qed.

(** The arguments: the routine gets the operands and the result it needs. *)
Lemma run_flag_args fn st :
  flag_helper fn -> urange 64 (xr st 3) ->
  exists st' f, emit_runs (put_flag_args fn 1) tt st st' /\ keeps_regs [1; 2; 3; 4] st st' /\
    routine junk fn (xr st' 1) (xr st' 2) (xr st' 3) (xr st' 4) = Some (put_flag_word f;; mret (junk 0)) /\
    forall fl, f fl = flags_of fn fl (xr st 1) (xr st 2) (xr st 3) 1.
Proof.
  intros Hfn Hu. assert (Hsub : forall l s s', incl l [1; 2; 3; 4] -> keeps_regs l s s' -> keeps_regs [1; 2; 3; 4] s s').
  { intros l s s' Hl K. eapply keeps_regs_sub; [exact K|exact Hl]. }
  destruct Hfn as [->|[->|[->|[->| ->]]]]; unfold put_flag_args, is_logic; repeat case_bool_decide; try done; cbn [orb].
  1,2: destruct (run_imm 4 (u64 1) st) as (s1 & R1 & V1 & K1); [done..|]; eexists s1, _; split; [exact R1|];
    split; [eapply Hsub; [|exact K1]; intros n; cbn; tauto|]; split; [reflexivity|];
    intros fl; rewrite V1, !(kr_x _ _ _ K1) by (cbn; lia); done.
  - destruct (run_result_size 1 2 st) as (s1 & R1 & V1 & V2 & K1); [done..|]. eexists s1, _. split; [exact R1|].
    split; [eapply Hsub; [|exact K1]; intros n; cbn; tauto|]. split; [reflexivity|]. intros fl. by rewrite V1, V2.
  - destruct (run_result_size 2 3 st) as (s1 & R1 & V1 & V2 & K1); [done..|]. eexists s1, _. split; [exact R1|].
    split; [eapply Hsub; [|exact K1]; intros n; cbn; tauto|]. split; [reflexivity|]. intros fl. by rewrite V1, V2, (kr_x _ _ _ K1) by (cbn; lia).
  - destruct (run_result_size 2 3 st) as (s1 & R1 & V1 & V2 & K1); [done..|]. eexists s1, _. split; [exact R1|].
    split; [eapply Hsub; [|exact K1]; intros n; cbn; tauto|]. split; [reflexivity|]. intros fl. by rewrite V1, V2, (kr_x _ _ _ K1) by (cbn; lia).
Qed.

Lemma op_helper_flag op fn : op_helper op = Some fn -> flag_helper fn.
Proof. unfold op_helper, flag_helper. repeat case_match; intros [= <-]; tauto. Qed.

Lemma by_routine_op o : op_ok o -> by_routine o = (i_size o =? 1) && nz (i_fneed o).
Proof. intros [Hk _ _ _ _]. unfold by_routine. by destruct Hk as [->|[->|[->|[->| ->]]]]. Qed.

Lemma by_routine_false o : op_ok o -> by_routine o = false -> in_line o.
Proof.
  intros Ho. rewrite by_routine_op by done. unfold nz, in_line. intros Hr Hs. rewrite Hs in Hr.
  destruct (Z.eqb_spec (i_fneed o) 0); [done|by cbn in Hr].
Qed.

(** Where flags are needed there is a helper. *)
Lemma needed_helper o : op_ok o -> i_fneed o <> 0 -> exists fn, op_helper (i_op o) = Some fn.
Proof.
  intros [Hk Hop _ _ Hn] Hz. destruct (op_helper (i_op o)) as [fn|] eqn:E; [by exists fn|]. exfalso. apply Hz.
  assert (Hmov : i_op o = 0x88) by (unfold op_helper in E; destruct (Z.eqb_spec (i_op o) 0x88); [done|repeat case_match; done]).
  assert (Hw : flags_written o = 0) by (unfold flags_written; rewrite Hmov; by destruct Hk as [->|[->|[->|[->| ->]]]]).
  rewrite Hw in Hn. change (i_fneed o .& -1 = 0) in Hn. by rewrite Z.land_m1_r in Hn.
Qed.

(** The flags of an operation, in line or from a routine. *)
Lemma op_flags_goes o a b base asp m s g :
  op_ok o -> as_inv (m_as m) -> sim base asp m s g -> flag_args o a b s ->
  exists s' g', goes (put_flags o (op_helper (i_op o)) (i_size o)) Through (s, g) (s', g') /\
    lands base asp m (set_gpr (reg m) (needed_flags o (c_flags (m_c m)) (op_flags o a b (c_flags (m_c m)))) m) s s' g'.
Proof.
  intros Ho Hi Hs Ha. unfold needed_flags, computed. destruct (by_routine o) eqn:Hr.
  - rewrite by_routine_op in Hr by done. apply andb_true_iff in Hr as [Hsz%Z.eqb_eq Hn].
    unfold nz in Hn. apply negb_true_iff, Z.eqb_neq in Hn. destruct (needed_helper o Ho Hn) as [fn Hfn].
    set (s1 := set_x 0 base s). pose proof (si_cpu _ _ _ _ _ Hs) as [[Hb Hbr _ _] _ _].
    assert (W1 : exec_word (a64_mov A64_X0 CPU) s = Some (s1, Next)) by (rewrite exec_mov by done; by rewrite Hb, uwrap_small by (unfold urange; lia)).
    destruct (run_flag_args fn s1 (op_helper_flag _ _ Hfn)) as (s2 & f & R2 & K2 & Hrt & Hf).
    { unfold s1. rewrite xr_set_x. cbn [Z.eqb Pos.eqb andb]. rewrite (fa_r _ _ _ _ Ha). apply op_result_range, op_opsize, Ho. }
    assert (S2 : sim base asp m s2 g).
    { eapply sim_ext; [exact Hs|rewrite (kr_mem _ _ _ K2); apply mem_set_x|rewrite (kr_x _ _ _ K2) by (cbn; lia); unfold s1; by rewrite xr_set_x]. }
    assert (X0 : xr s2 0 = base) by (rewrite (kr_x _ _ _ K2) by (cbn; lia); unfold s1; by rewrite xr_set_x).
    set (fl' := f (c_flags (m_c m))).
    destruct (goes_c_call junk chk fn base asp m s2 g _ (junk 0) (upd_m (with_flags fl') m) S2 X0 Hrt eq_refl) as (s3 & G3 & S3 & _ & U3 & _);
      [by eapply flag_word_keeps|].
    exists s3, (upd_m (with_flags fl') m). split.
    + rewrite Hfn. eapply goes_eq; [intros c; by apply put_flags_routine|].
      eapply goes_bind; [apply goes_straight, run_put; exact W1|].
      eapply goes_bind; [apply goes_straight; exact R2|exact G3].
    + replace (merge_flags _ _ _) with fl'.
      * apply (flag_routine_lands base asp m s g); [done..|]. apply (undisturbed_trans _ _ _ m _ s2); [done| |exact U3].
        apply undisturbed_ext; [rewrite (kr_mem _ _ _ K2); apply mem_set_x|rewrite (kr_sp _ _ _ K2); unfold s1, set_x; by case_match|].
        intros n Hn19 _. rewrite (kr_x _ _ _ K2) by (cbn; lia). unfold s1. by rewrite xr_set_x, (proj2 (Z.eqb_neq n 0)) by lia.
      * rewrite <- (flag_args_flags o a b _ s Ho Ha), Hfn. unfold fl'. rewrite Hf. unfold s1. rewrite !xr_set_x. rewrite Hsz.
        cbn [Z.eqb Pos.eqb andb helper_flags]. apply Z.bits_inj'. intros i Hi0. by rewrite merge_bit, Z.bits_m1 by done.
  - destruct (run_op_flags base _ _ o a b s Ho (by_routine_false o Ho Hr) (si_cpu _ _ _ _ _ Hs) Ha) as (s' & R' & C' & K').
    destruct (sim_cpu_at base asp m s g _ _ s' Hs C' K') as [S' U']. exists s', g. split; [by apply goes_straight|].
    split; [by eexists|exact U'].
Qed.

(** Its code is there whether or not it is reached. *)
Lemma emits_op_flags base R fl o st :
  op_ok o -> cpu_at base R fl st -> emits_some chk (put_flags o (op_helper (i_op o)) (i_size o)).
Proof.
  intros Ho Hc. destruct (by_routine o) eqn:Hr.
  - rewrite by_routine_op in Hr by done. apply andb_true_iff in Hr as [Hsz%Z.eqb_eq Hn].
    unfold nz in Hn. apply negb_true_iff, Z.eqb_neq in Hn. destruct (needed_helper o Ho Hn) as [fn Hfn].
    enough (emits_some chk (put (a64_mov A64_X0 CPU);; (put_flag_args fn 1;; put_call fn))) as (ws & fx & He).
    { exists ws, fx. eapply emits_eq; [|exact He]. intros c. rewrite Hfn. by apply put_flags_routine. }
    unfold put_flag_args. repeat case_match; auto 12 using emits_some_call with emission.
  - set (s1 := set_x 2 1 st). set (s2 := set_x 3 (op_result (i_op o) (i_size o) (xr st 1) 1) s1).
    destruct (run_op_flags base R fl o (xr st 1) 1 s2 Ho (by_routine_false o Ho Hr)) as (s3 & (ws & Hw & _) & _).
    + unfold s2, s1. by do 2 (apply cpu_at_set; [done|]).
    + unfold s2, s1. by split; [split|]; rewrite !xr_set_x.
    + eexists ws, _. by apply emits_straight.
Qed.

(* ------------------------------------------------------------------ *)
(** ** Operations on registers *)

(** Registers first, what comes behind them later. *)
Lemma regs_then base asp m s g e d R1 m1 fl1 wy s1 :
  sim base asp m s g -> emit_runs e tt s s1 -> cpu_at base R1 fl1 s1 -> keeps_cpu base s s1 ->
  (sim base asp (set_gpr R1 fl1 m) s1 g -> exists s' g', goes d wy (s1, g) (s', g') /\ lands base asp (set_gpr R1 fl1 m) m1 s1 s' g') ->
  exists s' g', goes (e;; d) wy (s, g) (s', g') /\ lands base asp m m1 s s' g'.
Proof.
  intros Hs Re C1 K1 Hd. destruct (sim_cpu_at base asp m s g R1 fl1 s1 Hs C1 K1) as [S1 U1].
  destruct (Hd S1) as (s' & g' & G & L). exists s', g'. split.
  - eapply goes_bind; [apply goes_straight; exact Re|exact G].
  - eapply lands_trans; [|exact U1|exact L]. done.
Qed.

Lemma put_op_helper o b : is_one_of (i_op o) reg_ops = true -> (put_op o b).1 = op_helper (i_op o).
Proof.
  intros Hop. destruct (run_op o (AState (fun _ => 0) 0 (NZCV false false false false) ∅) Hop) as (ws & Hs & _).
  apply (Hs b).
Qed.

Lemma put_op_reg_split o b :
  is_one_of (i_op o) reg_ops = true ->
  ((put_op_wr o;; mret tt);; put_flags o (op_helper (i_op o)) (i_size o)) b = put_op_reg o b.
Proof.
  intros Hop. rewrite <- put_op_reg_parts. pose proof (put_op_helper o b Hop) as Hh. revert Hh.
  unfold put_op_wr, mbind, E_bind, mret, E_ret. destruct (put_op o b) as [fl b1]. cbn [fst]. intros ->.
  by destruct (ewhen _ _ b1) as [[] b2].
Qed.

Lemma op_reg_goes o a b base asp m s g :
  op_ok o -> as_inv (m_as m) -> sim base asp m s g -> operands o a b s ->
  let r := ref_op o a b (reg m, c_flags (m_c m)) in
  exists s' g', goes (put_op_reg o) Through (s, g) (s', g') /\
    lands base asp m (set_gpr r.1 (needed_flags o (c_flags (m_c m)) r.2) m) s s' g'.
Proof.
  intros Ho Hi Hs Ha r. destruct (run_op_wr base _ _ o a b s Ho (si_cpu _ _ _ _ _ Hs) Ha) as (s1 & R1 & C1 & K1 & A1). fold r in C1.
  destruct (regs_then base asp m s g (put_op_wr o;; mret tt) (put_flags o (op_helper (i_op o)) (i_size o)) r.1
    (set_gpr r.1 (needed_flags o (c_flags (m_c m)) r.2) m) (c_flags (m_c m)) Through s1 Hs) as (s' & g' & G & L); [|exact C1|exact K1| |].
  - eapply run_bind; [exact R1|apply run_ret].
  - intros S1. destruct (op_flags_goes o a b base asp (set_gpr r.1 (c_flags (m_c m)) m) s1 g Ho Hi S1 A1) as (s' & g' & G & L). exists s', g'. split; [exact G|].
    rewrite set_gpr_twice in L. cbn [set_gpr upd_m m_c c_flags with_flags with_r] in L.
    destruct (si_cpu _ _ _ _ _ Hs) as [[_ _ _ Hfl] _ _]. by rewrite uwrap_small in L by exact Hfl.
  - exists s', g'. split; [|exact L]. eapply goes_eq; [|exact G]. intros c. apply put_op_reg_split, Ho.
Qed.

Lemma rr_goes o base asp m s g :
  alu_ok o -> as_inv (m_as m) -> sim base asp m s g ->
  let r := ref_alu o (reg m, c_flags (m_c m)) in
  exists s' g', goes (put_rr o) Through (s, g) (s', g') /\
    lands base asp m (set_gpr r.1 (needed_flags o (c_flags (m_c m)) r.2) m) s s' g'.
Proof.
  intros Ho Hi Hs r. destruct (run_operands base _ _ o s Ho (si_cpu _ _ _ _ _ Hs)) as (s1 & R1 & O1 & K1).
  assert (S1 : sim base asp m s1 g) by (eapply sim_ext; [exact Hs|apply K1|apply (kr_x _ _ _ K1); cbn; lia]).
  destruct (op_reg_goes o _ _ base asp m s1 g (alu_op_ok o Ho) Hi S1 O1) as (s' & g' & G & L).
  exists s', g'. split; [|eapply lands_trans; [done| |exact L]].
  - eapply goes_eq; [apply put_rr_parts|]. eapply goes_bind; [apply goes_straight; exact R1|exact G].
  - apply undisturbed_ext; [apply K1|apply K1|intros n Hn _; apply (kr_x _ _ _ K1); cbn; lia].
Qed.

Lemma emits_op_reg base R fl o st : op_ok o -> cpu_at base R fl st -> emits_some chk (put_op_reg o).
Proof.
  intros Ho Hc. destruct (run_op_wr base R fl o (xr st 1) 1 (set_x 2 1 st) Ho) as (s1 & R1 & C1 & _).
  - by apply cpu_at_set.
  - split; by rewrite xr_set_x.
  - destruct (emits_op_flags _ _ _ o s1 Ho C1) as (ws & fx & E2). destruct R1 as (ws1 & Hw & _).
    enough (emits_some chk ((put_op_wr o;; mret tt);; put_flags o (op_helper (i_op o)) (i_size o))) as (ws2 & fx2 & E3).
    { exists ws2, fx2. eapply emits_eq; [|exact E3]. intros c. apply put_op_reg_split, Ho. }
    apply emits_some_bind; [|by exists ws, fx]. eexists _, _. apply emits_straight.
    eapply straight_bind; [exact Hw|apply straight_ret].
Qed.
End routines.
