(* ===== verification/JitOps.v ===== *)
(** Compiled instructions with a memory operand ([put_rm] and [put_mr] in
    [src/jit.c]): where the interpreter's load or store is let through they do
    what the instruction does, and where it faults they leave the block with
    the fault recorded. *)
From S2P Require Import Prelude.
From S2P Require Import Memory.
From S2P Require Import AddressSpace.
From S2P Require Import Flags.
From S2P Require Import Machine.
From S2P Require Import Access.
From S2P Require Import Registers.
From S2P Require Import A64.
From S2P Require Import Emit.
From S2P Require Import Jit.
From S2P Require Import JitEmit.
From S2P Require Import JitInsn.
From S2P Require Import JitRun.
From S2P Require Import JitFlags.
From S2P Require Import JitRegs.
From S2P Require Import JitCode.
From S2P Require Import JitMem.
From S2P Require Import JitRel.
From S2P Require Import JitSem.
From S2P Require Import JitWorld.
From S2P Require Import JitAccess.
From S2P Require Import JitRoutines.

Section ops.
Context `{HostOS} `{LinkOk} (junk : Z -> Z) (chk : bool).
#[local] Abbreviation goes := (goes (call_c junk) chk).

(* ------------------------------------------------------------------ *)
(** ** A load, and what is done with it *)

(** A load faults, or leaves the machine as it was. *)
Lemma ld_stays a size m v m1 :
  opsize size -> ld a size m = Ok v m1 ->
  reg m1 = reg m /\ c_flags (m_c m1) = c_flags (m_c m) /\ mem_of m1 = mem_of m /\ (c_running (m_c m1) = true -> m1 = m).
Proof.
  intros Hs Hld. destruct (ld_ok _ _ _ _ _ Hs Hld) as [(_ & _ & ->)|(_ & -> & _)]; [|done].
  destruct (memfault_cpu_fields a (why (m_as m) a size) (m_c m)) as (F1 & _ & F3 & F4).
  split; [unfold reg, upd_m; cbn [m_c]; by rewrite F1|]. split; [exact F3|]. split; [done|]. unfold upd_m. cbn [m_c]. congruence.
Qed.

(** Code that puts an address in x1, loads from it, and works on registers and
    flags: the whole of it runs, or it leaves where the load faults. *)
Lemma load_then e1 tail a size v base asp m m0 st s1 g m1 R' fl' :
  opsize size -> as_inv (m_as m0) -> c_running (m_c m0) = true -> mem_of m0 = mem_of m ->
  emit_runs e1 tt st s1 -> sim base asp m0 s1 g -> xr s1 A64_X1 = a -> urange 64 a -> undisturbed base asp m st s1 ->
  ld a size m0 = Ok v m1 ->
  (forall m2 s2 g2, sim base asp m2 s2 g2 -> as_inv (m_as m2) -> reg m2 = reg m0 -> c_flags (m_c m2) = c_flags (m_c m0) ->
    xr s2 A64_X0 = v -> exists s3 g3, goes tail Through (s2, g2) (s3, g3) /\ lands base asp m2 (set_gpr R' fl' m2) s2 s3 g3) ->
  emits_some chk tail ->
  exists st' g', goes (e1;; (put_load size;; tail)) (if c_running (m_c m1) then Through else Leaves) (st, g) (st', g') /\
    lands base asp m (if c_running (m_c m1) then set_gpr R' fl' m1 else m1) st st' g'.
Proof.
  intros Hsz Hi Hrun Hmem R1 S1 V1 Ha U1 Hld Htail Hemits.
  destruct (load_goes junk chk base asp m0 s1 g a size v m1 Hsz Hi S1 Hrun V1 Ha Hld)
    as (s2 & g2 & G2 & V2 & [(m2 & S2 & B2 & I2) U2] & _).
  destruct (but_hits_fields _ _ B2) as (Ec & Ew & Eg). destruct (ld_stays _ _ _ _ _ Hsz Hld) as (Er & Ef & Em & _).
  assert (Er2 : reg m2 = reg m0) by (rewrite <- Er; unfold reg; by rewrite Ec).
  assert (Hd : forall i, is_Some (mem_of m0 !! i) -> is_Some (mem_of m !! i)) by (by rewrite Hmem).
  assert (U12 : undisturbed base asp m st s2) by (by apply (undisturbed_trans _ _ _ m0 _ s1)).
  destruct (c_running (m_c m1)) eqn:Erun.
  - destruct (Htail m2 s2 g2 S2 I2 Er2) as (s3 & g3 & G3 & L3); [by rewrite Ec|done|].
    exists s3, g3. split; [|eapply lands_hits; [apply Eg|]].
    + eapply goes_bind; [apply goes_straight; exact R1|]. eapply goes_bind; [exact G2|exact G3].
    + eapply lands_trans; [|exact U12|exact L3]. intros i. unfold mem_of in *. by rewrite Ew, Em, Hmem.
  - exists s2, g2. split; [|split; [by exists m2|exact U12]].
    eapply goes_bind; [apply goes_straight; exact R1|]. by eapply goes_leave.
Qed.

(* ------------------------------------------------------------------ *)
(** ** An operation on a register and memory *)

Record rm_ok (o : insn) : Prop := {
  mo_kind : i_kind o = K_RM;
  mo_op : op_ok o;
  mo_ea : ea_ok o;
  mo_one : is_one_of (i_op o) [OP_INC; OP_DEC] = false
}.

(** The operation once the memory operand is in x0. *)
Definition put_rm_op (o : insn) : E unit :=
  put (a64_mov A64_X2 A64_X0);; put_rd_reg A64_X1 o (i_reg o) (i_size o);; put_op_reg o.

Definition rm_result (o : insn) (v : Z) (R : Z -> Z) (fl : Z) : gstate :=
  let s := ref_op o (reg_rd (i_has_rex o) R (i_reg o) (i_size o)) v (R, fl) in
  (s.1, needed_flags o fl s.2).

Lemma run_rm_operands base R fl o v st :
  rm_ok o -> cpu_at base R fl st -> xr st A64_X0 = v ->
  exists st', emit_runs (put (a64_mov A64_X2 A64_X0);; put_rd_reg A64_X1 o (i_reg o) (i_size o)) tt st st' /\
    operands o (reg_rd (i_has_rex o) R (i_reg o) (i_size o)) v st' /\ keeps_regs [1; 2] st st'.
Proof.
  intros [Hk Hop He Hone] Hc Hv. pose proof (op_opsize _ Hop) as Hsz. pose proof (opsize_width _ Hsz) as Hw.
  set (s1 := set_x 2 (u64 v) st).
  assert (W1 : exec_word (a64_mov A64_X2 A64_X0) st = Some (s1, Next)) by (rewrite exec_mov by done; by rewrite Hv).
  assert (C1 : cpu_at base R fl s1) by (by apply cpu_at_set).
  destruct (run_rd_reg base R fl o 1 (i_reg o) (i_size o) s1 C1) as (s2 & R2 & V2 & U2 & K2); [apply Hop|done..|].
  exists s2. split; [by eapply run_put_bind|]. split.
  - split; [|rewrite (kr_x _ _ _ K2) by (cbn; lia); unfold s1; rewrite xr_set_x; apply uwrap_le; lia|by rewrite Hone].
    rewrite V2. symmetry. by apply reg_rd_range.
  - eapply keeps_regs_trans; [apply (keeps_regs_set _ 2 (u64 v)); cbn; tauto|].
    eapply keeps_regs_sub; [exact K2|intros n; cbn; tauto].
Qed.

Lemma put_rm_op_parts o b :
  ((put (a64_mov A64_X2 A64_X0);; put_rd_reg A64_X1 o (i_reg o) (i_size o));; put_op_reg o) b = put_rm_op o b.
Proof. apply (same_code_assoc _ _ (fun _ => put_op_reg o)). Qed.

Lemma rm_op_goes o v base asp m s g :
  rm_ok o -> as_inv (m_as m) -> sim base asp m s g -> xr s A64_X0 = v ->
  let r := rm_result o v (reg m) (c_flags (m_c m)) in
  exists s' g', goes (put_rm_op o) Through (s, g) (s', g') /\ lands base asp m (set_gpr r.1 r.2 m) s s' g'.
Proof.
  intros Ho Hi Hs Hv r. destruct (run_rm_operands base _ _ o v s Ho (si_cpu _ _ _ _ _ Hs) Hv) as (s1 & R1 & O1 & K1).
  assert (S1 : sim base asp m s1 g) by (eapply sim_ext; [exact Hs|apply K1|apply (kr_x _ _ _ K1); cbn; lia]).
  destruct (op_reg_goes junk chk o _ _ base asp m s1 g (mo_op _ Ho) Hi S1 O1) as (s' & g' & G & L).
  exists s', g'. split; [|eapply lands_trans; [done| |exact L]].
  - eapply goes_eq; [apply put_rm_op_parts|]. eapply goes_bind; [apply goes_straight; exact R1|exact G].
  - apply undisturbed_ext; [apply K1|apply K1|intros n Hn _; apply (kr_x _ _ _ K1); cbn; lia].
Qed.

Lemma emits_rm_op base R fl o st : rm_ok o -> cpu_at base R fl st -> emits_some chk (put_rm_op o).
Proof.
  intros Ho Hc. destruct (run_rm_operands base R fl o _ st Ho Hc eq_refl) as (s1 & (ws & Hw & _) & _).
  destruct (emits_op_reg chk base R fl o st (mo_op _ Ho) Hc) as (ws2 & fx & E2).
  enough (emits_some chk ((put (a64_mov A64_X2 A64_X0);; put_rd_reg A64_X1 o (i_reg o) (i_size o));; put_op_reg o)) as (ws3 & fx3 & E3).
  { exists ws3, fx3. eapply emits_eq; [|exact E3]. apply put_rm_op_parts. }
  apply emits_some_bind; [eexists _, _; by apply emits_straight|by exists ws2, fx].
Qed.

Lemma rm_goes o rip base asp m st g v m1 :
  rm_ok o -> as_inv (m_as m) -> sim base asp m st g -> c_running (m_c m) = true -> urange 64 rip ->
  ld (ref_ea o (reg m)) (i_size o) (upd_m (with_cur_rip rip) m) = Ok v m1 ->
  let s := rm_result o v (reg m) (c_flags (m_c m)) in
  exists st' g', goes (put_rm o rip) (if c_running (m_c m1) then Through else Leaves) (st, g) (st', g') /\
    lands base asp m (if c_running (m_c m1) then set_gpr s.1 s.2 m1 else m1) st st' g'.
Proof.
  intros Ho Hi Hs Hrun Hrip Hld s. set (m0 := upd_m (with_cur_rip rip) m) in *.
  destruct (run_front base asp m st g o rip (mo_ea _ Ho) Hs Hrip) as (s1 & R1 & S1 & V1 & U1 & T1).
  destruct (load_then (put_set_rip rip;; put_ea o) (put_rm_op o) (ref_ea o (reg m)) (i_size o) v base asp m m0 st s1 g m1 s.1 s.2)
    as (st' & g' & G & L); try done; [apply op_opsize, Ho|apply ref_ea_range| |by eapply emits_rm_op; [|apply Hs]|].
  - intros m2 s2 g2 S2 I2 E2 F2 V2. destruct (rm_op_goes o v base asp m2 s2 g2 Ho I2 S2 V2) as (s3 & g3 & G3 & L3).
    exists s3, g3. split; [exact G3|]. rewrite E2, F2 in L3. exact L3.
  - exists st', g'. split; [|exact L]. eapply goes_eq; [|exact G]. intros b. unfold put_rm, put_rm_op. apply same_code_assoc.
Qed.

(* ------------------------------------------------------------------ *)
(** ** A move to memory *)

Record mov_ok (o : insn) : Prop := {
  vo_kind : i_kind o = K_MR \/ i_kind o = K_MI;
  vo_op : i_op o = 0x88;
  vo_reg : i_kind o = K_MR -> greg (i_reg o);
  vo_imm : i_kind o = K_MI -> urange 64 (i_imm o);
  vo_size : opsize (i_size o);
  vo_ea : ea_ok o
}.

(** A store depends on the value's low bits only, the log's entry included. *)
Lemma st_mod a v v' size m :
  opsize size -> uwrap (size * 8) v = uwrap (size * 8) v' -> Machine.st a v size m = Machine.st a v' size m.
Proof.
  intros Hs Hv. assert (Hb : le_bytes (Z.to_nat size) v = le_bytes (Z.to_nat size) v').
  { assert (Hu : forall x, le_bytes (Z.to_nat size) x = le_bytes (Z.to_nat size) (uwrap (size * 8) x)).
    { intros x. pose proof (le_bytes_val _ (le_bytes_ok (Z.to_nat size) x)) as He. rewrite length_le_bytes, le_val_bytes in He.
      rewrite <- He at 1. do 2 f_equal. unfold opsize in Hs. lia. }
    by rewrite (Hu v), Hv, <- (Hu v'). }
  assert (Hm : v .& (if size =? 8 then Z.ones 64 else (1 << (size * 8)) - 1) = v' .& (if size =? 8 then Z.ones 64 else (1 << (size * 8)) - 1)).
  { assert (Hx : forall x, x .& (if size =? 8 then Z.ones 64 else (1 << (size * 8)) - 1) = uwrap (size * 8) x).
    { intros x. rewrite <- land_ones_uwrap by (unfold opsize in Hs; lia). by destruct Hs as [->|[->|[->| ->]]]. }
    by rewrite !Hx. }
  unfold Machine.st, log_write, host_write. rewrite access_width_ok by done. by rewrite Hb, Hm.
Qed.

Lemma mov_goes o rip base asp m st g m1 :
  mov_ok o -> as_inv (m_as m) -> sim base asp m st g -> c_running (m_c m) = true -> urange 64 rip ->
  (chk = false -> c_wlog (m_c m) = None) ->
  Machine.st (ref_ea o (reg m)) (mov_value o (reg m)) (i_size o) (upd_m (with_cur_rip rip) m) = Ok tt m1 ->
  exists st' g', goes (put_mr o rip) (if c_running (m_c m1) then Through else Leaves) (st, g) (st', g') /\
    lands base asp m m1 st st' g'.
Proof.
  intros Ho Hi Hs Hrun Hrip Hnolog Hst. set (m0 := upd_m (with_cur_rip rip) m) in *.
  pose proof (vo_size _ Ho) as Hsz. pose proof (opsize_width _ Hsz) as Hw.
  destruct (run_front base asp m st g o rip (vo_ea _ Ho) Hs Hrip) as (s1 & R1 & S1 & V1 & U1 & T1). fold m0 in S1.
  assert (E2 : exists s2, emit_runs (if bool_decide (i_kind o = K_MI) then put_imm A64_X2 (i_imm o)
      else put_rd_reg A64_X2 o (i_reg o) (i_size o)) tt s1 s2 /\ urange 64 (xr s2 2) /\
    uwrap (i_size o * 8) (xr s2 2) = uwrap (i_size o * 8) (mov_value o (reg m)) /\ keeps_regs [2] s1 s2).
  { unfold mov_value. case_bool_decide as Hk.
    - destruct (run_imm 2 (i_imm o) s1) as (s2 & R2 & V2 & K2); [done|done|by apply Ho|]. exists s2. rewrite V2.
      split_and!; try done. by apply Ho.
    - destruct (run_rd_reg base _ _ o 2 (i_reg o) (i_size o) s1 (si_cpu _ _ _ _ _ S1)) as (s2 & R2 & V2 & W2 & K2);
        [apply Ho; by destruct (vo_kind _ Ho)|done..|].
      exists s2. split_and!; try done. rewrite V2. symmetry. by apply reg_rd_range. }
  destruct E2 as (s2 & R2 & W2 & V2 & K2).
  assert (S2 : sim base asp m0 s2 g) by (eapply sim_ext; [exact S1|apply K2|apply (kr_x _ _ _ K2); cbn; lia]).
  assert (X1 : xr s2 1 = ref_ea o (reg m)) by (rewrite (kr_x _ _ _ K2) by (cbn; lia); exact V1).
  rewrite (st_mod _ _ (xr s2 2) _ _ Hsz (eq_sym V2)) in Hst.
  destruct (store_goes junk chk base asp m0 s2 g _ _ (i_size o) m1 Hsz Hi S2 Hrun Hnolog X1 (ref_ea_range _ _) eq_refl W2 Hst)
    as (s3 & g3 & G3 & [L3 U3] & _).
  exists s3, g3. split; [|split; [exact L3|]].
  - eapply goes_eq; [|eapply goes_bind; [apply goes_straight; exact R1|]; eapply goes_bind; [apply goes_straight; exact R2|exact G3]].
    intros b. unfold put_mr. rewrite (vo_op _ Ho). cbn [Z.eqb Pos.eqb]. apply same_code_assoc.
  - apply (undisturbed_trans _ _ _ m0 _ s1); [done|exact U1|]. apply (undisturbed_trans _ _ _ m0 _ s2); [done| |exact U3].
    apply undisturbed_ext; [apply K2|apply K2|intros; apply (kr_x _ _ _ K2); cbn; lia].
Qed.

(* ------------------------------------------------------------------ *)
(** ** What compiled accesses do *)

(** A compiled load is the interpreter's.  On any cpu and address space in
    memory, with the address in x1, the code [put_load] emits, wherever in a
    block it lies and with the branches it was patched with, runs to its end
    with the value [ld] returns in x0; or, where [ld] records a fault, to the
    exit that faults take, with the same fault recorded.  It loads in line
    when a noted region covers the address and calls the interpreter's routine
    when none does; the machine it leaves is [ld]'s but for the regions noted,
    and the stack, the kept registers and all other memory are as they were. *)
Theorem compiled_load_correct base asp m st g a size v m1 :
  opsize size -> as_inv (m_as m) -> sim base asp m st g -> c_running (m_c m) = true ->
  xr st A64_X1 = a -> urange 64 a -> ld a size m = Ok v m1 ->
  exists st' g', goes (put_load size) (if c_running (m_c m1) then Through else Leaves) (st, g) (st', g') /\
    xr st' A64_X0 = v /\ lands base asp m m1 st st' g'.
Proof. intros. destruct (load_goes junk chk base asp m st g a size v m1) as (st' & g' & ? & ? & ? & _); eauto. Qed.

(** A compiled store is the interpreter's.  Likewise for [put_store], with
    the value in x2: it writes what [st] writes or leaves with the fault [st]
    records.  In a block compiled for checking, a store made in line is first
    logged, with the entry [st] makes; in any other, nothing is logged, as
    nothing is while no log is open. *)
Theorem compiled_store_correct base asp m st g a v size m1 :
  opsize size -> as_inv (m_as m) -> sim base asp m st g -> c_running (m_c m) = true ->
  (chk = false -> c_wlog (m_c m) = None) ->
  xr st A64_X1 = a -> urange 64 a -> xr st A64_X2 = v -> urange 64 v -> Machine.st a v size m = Ok tt m1 ->
  exists st' g', goes (put_store size) (if c_running (m_c m1) then Through else Leaves) (st, g) (st', g') /\
    lands base asp m m1 st st' g'.
Proof. intros. destruct (store_goes junk chk base asp m st g a v size m1) as (st' & g' & ? & ? & _); eauto. Qed.

(** An ALU instruction with a memory source compiles to what it means.  The
    code [put_rm] emits for add, or, and, sub, xor, cmp, test or mov of a
    register and memory computes the address from the registers, loads from it
    and leaves the register and the needed flags the operation leaves on the
    register's value and the one loaded.  If the load faults it leaves the
    block, with the fault naming this instruction and no register or flag
    changed. *)
Theorem compiled_rm_correct o rip base asp m st g v m1 :
  rm_ok o -> as_inv (m_as m) -> sim base asp m st g -> c_running (m_c m) = true -> urange 64 rip ->
  ld (ref_ea o (reg m)) (i_size o) (upd_m (with_cur_rip rip) m) = Ok v m1 ->
  let s := rm_result o v (reg m) (c_flags (m_c m)) in
  exists st' g', goes (put_rm o rip) (if c_running (m_c m1) then Through else Leaves) (st, g) (st', g') /\
    lands base asp m (if c_running (m_c m1) then set_gpr s.1 s.2 m1 else m1) st st' g'.
Proof. apply rm_goes. Qed.

(** A move to memory compiles to what it means: the code [put_mr] emits for
    mov of a register or an immediate to memory computes the address from the
    registers and stores as [st] does, the value cut to the operand's size; if
    the store faults it leaves the block with the fault naming this
    instruction. *)
Theorem compiled_mov_correct o rip base asp m st g m1 :
  mov_ok o -> as_inv (m_as m) -> sim base asp m st g -> c_running (m_c m) = true -> urange 64 rip ->
  (chk = false -> c_wlog (m_c m) = None) ->
  Machine.st (ref_ea o (reg m)) (mov_value o (reg m)) (i_size o) (upd_m (with_cur_rip rip) m) = Ok tt m1 ->
  exists st' g', goes (put_mr o rip) (if c_running (m_c m1) then Through else Leaves) (st, g) (st', g') /\
    lands base asp m m1 st st' g'.
Proof. apply mov_goes. Qed.
End ops.
