(* ===== verification/JitDoes.v ===== *)
(** Compiled instructions that load, store or do both ([put_movx], [put_imul],
    [put_push], [put_pop], [put_setcc] and [put_mr] in [src/jit.c]): each does
    what the instruction means, or leaves the block where an access faults. *)
From S2P Require Import Prelude.
From S2P Require Import Memory.
From S2P Require Import AddressSpace.
From S2P Require Import Flags.
From S2P Require Import Machine.
From S2P Require Import Access.
From S2P Require Import Decode.
From S2P Require Import Registers.
From S2P Require Import Keeps.
From S2P Require Import A64.
From S2P Require Import Emit.
From S2P Require Import Jit.
From S2P Require Import JitEmit.
From S2P Require Import JitInsn.
From S2P Require Import JitRun.
From S2P Require Import JitFlags.
From S2P Require Import JitRegs.
From S2P Require Import JitLive.
From S2P Require Import JitBlock.
From S2P Require Import JitCode.
From S2P Require Import JitRel.
From S2P Require Import JitSem.
From S2P Require Import JitMem.
From S2P Require Import JitWorld.
From S2P Require Import JitAccess.
From S2P Require Import JitRoutines.
From S2P Require Import JitOps.

Section does.
Context `{HostOS} `{LinkOk} (junk : Z -> Z) (chk : bool).
#[local] Abbreviation goes := (goes (call_c junk) chk).

(** A machine whose instructions run, with a log only where stores are logged. *)
Record ready (m : machine) : Prop := {
  rd_as : as_inv (m_as m);
  rd_run : c_running (m_c m) = true;
  rd_log : chk = false -> c_wlog (m_c m) = None
}.

Definition way_of (m : machine) : way := if c_running (m_c m) then Through else Leaves.

(** Running [e] on a machine in memory does [c] to it, noted regions apart. *)
Definition does (e : E unit) (c : M unit) : Prop :=
  forall base asp m st g m1, ready m -> sim base asp m st g -> c m = Ok tt m1 ->
  exists st' g', goes e (way_of m1) (st, g) (st', g') /\ lands base asp m m1 st st' g'.

Lemma does_eq e e' c c' : (forall b, e b = e' b) -> (forall m, ready m -> c' m = c m) -> does e c -> does e' c'.
Proof.
  intros He Hc Hd base asp m st g m1 Hr Hs Hm. rewrite Hc in Hm by done.
  destruct (Hd base asp m st g m1 Hr Hs Hm) as (st' & g' & G & L). exists st', g'. split; [by eapply goes_eq|exact L].
Qed.

(* ------------------------------------------------------------------ *)
(** ** Register code *)

Lemma set_gpr_same m : length (c_r (m_c m)) = 16%nat -> urange 32 (c_flags (m_c m)) -> set_gpr (reg m) (c_flags (m_c m)) m = m.
Proof.
  intros Hl Hf. rewrite set_gpr_flags by done. destruct m as [[] as_ w cb cm]. unfold upd_m, with_flags. cbn in *. by rewrite uwrap_small.
Qed.

Lemma sim_same base asp m st g : sim base asp m st g -> set_gpr (reg m) (c_flags (m_c m)) m = m.
Proof. intros Hs. apply set_gpr_same; [apply Hs|]. destruct (si_cpu _ _ _ _ _ Hs) as [[_ _ _ Hf] _ _]. exact Hf. Qed.

Lemma does_regs e o f :
  (forall s, compiles e s (f s) (computed o)) -> does e (then_regs needed_flags o f).
Proof.
  intros He base asp m st g m1 [Hi Hrun _] Hs. intros [= <-].
  destruct (He (reg m, c_flags (m_c m)) base st (si_cpu _ _ _ _ _ Hs)) as (st' & R1 & C1 & K1).
  destruct (sim_cpu_at base asp m st g _ _ st' Hs C1 K1) as [S1 U1].
  exists st', g. unfold way_of. cbn. rewrite Hrun. split; [by apply goes_straight|].
  split; [|exact U1]. eexists. split; [exact S1|]. by split.
Qed.

(** Register operations, whose flags may take a call. *)
Lemma does_rr o : alu_ok o -> does (put_rr o) (then_regs needed_flags o (ref_alu o)).
Proof.
  intros Ho base asp m st g m1 [Hi Hrun _] Hs. intros [= <-].
  destruct (rr_goes junk chk o base asp m st g Ho Hi Hs) as (st' & g' & G & L). exists st', g'. unfold way_of. cbn. by rewrite Hrun.
Qed.

Lemma insn_sem_regs keep o rip f m :
  c_running (m_c m) = true -> mem_part o rip m = Ok f m -> insn_sem keep o rip m = then_regs keep o f m.
Proof. intros Hrun Hp. unfold insn_sem, if_running, get_c, gets, mbind, M_bind. rewrite Hp. by rewrite Hrun. Qed.

(* ------------------------------------------------------------------ *)
(** ** An operand loaded *)

Lemma ld_range a size m v m1 : opsize size -> mem_ok (mem_of m) -> ld a size m = Ok v m1 -> urange (size * 8) v.
Proof.
  intros Hs Hm Hld. pose proof (opsize_width _ Hs). destruct (ld_ok _ _ _ _ _ Hs Hld) as [(_ & -> & _)|(_ & _ & bs & Hb & ->)].
  - unfold urange. lia.
  - pose proof (read_bytes_length _ _ _ _ Hb) as Hl. pose proof (le_val_range bs (read_bytes_ok _ _ _ _ Hm Hb)) as Hr.
    unfold urange in *. rewrite Hl in Hr. unfold opsize in Hs. replace (size * 8) with (8 * Z.of_nat (Z.to_nat size)) by lia. exact Hr.
Qed.

(** What is done with the value of a load. *)
Record uses (tail : E unit) (o : insn) (size : Z) (f : Z -> gstate -> gstate) : Prop := {
  us_goes v base asp m s g : urange (size * 8) v -> as_inv (m_as m) -> sim base asp m s g -> xr s A64_X0 = v ->
    let r := f v (reg m, c_flags (m_c m)) in
    exists s' g', goes tail Through (s, g) (s', g') /\
      lands base asp m (set_gpr r.1 (needed_flags o (c_flags (m_c m)) r.2) m) s s' g';
  us_emits base R fl st : cpu_at base R fl st -> emits_some chk tail
}.

(** Register code. *)
Lemma uses_regs tail o size f :
  0 <= size ->
  (forall v base R fl st, urange (size * 8) v -> cpu_at base R fl st -> xr st A64_X0 = v ->
    exists st', emit_runs tail tt st st' /\
      cpu_at base (f v (R, fl)).1 (needed_flags o fl (f v (R, fl)).2) st' /\ keeps_cpu base st st') -> uses tail o size f.
Proof.
  intros Hsz Hu. split.
  - intros v base asp m s g Hv Hi Hs Hx r. destruct (Hu v base _ _ s Hv (si_cpu _ _ _ _ _ Hs) Hx) as (s' & R' & C' & K').
    destruct (sim_cpu_at base asp m s g _ _ s' Hs C' K') as [S' U']. exists s', g. split; [by apply goes_straight|].
    split; [|exact U']. by eexists.
  - intros base R fl st Hc. destruct (Hu 0 base R fl (set_x 0 0 st)) as (s' & (ws & Hw & _) & _).
    + unfold urange. lia.
    + by apply cpu_at_set.
    + by rewrite xr_set_x.
    + eexists _, _. by apply emits_straight.
Qed.

(** The registers behind a load that was let through. *)
Lemma regs_after_load base asp m m0 st s1 g e1 tail o a size f m1 :
  opsize size -> ready m -> m_as m0 = m_as m -> c_running (m_c m0) = true -> mem_of m0 = mem_of m ->
  emit_runs e1 tt st s1 -> sim base asp m0 s1 g -> xr s1 A64_X1 = a -> urange 64 a -> undisturbed base asp m st s1 ->
  uses tail o size f ->
  (v ← ld a size; if_running (then_regs needed_flags o (f v))) m0 = Ok tt m1 ->
  exists st' g', goes (e1;; (put_load size;; tail)) (way_of m1) (st, g) (st', g') /\ lands base asp m m1 st st' g'.
Proof.
  intros Hsz [Hi _ _] Has Hrun Hmem R1 S1 V1 Ha U1 Hu (v & m2 & Hld & Hk)%bind_ok.
  destruct (ld_stays _ _ _ _ _ Hsz Hld) as (Er & Ef & _ & Em). pose proof (ld_range _ _ _ _ _ Hsz (si_bytes _ _ _ _ _ S1) Hld) as Hv.
  set (s := f v (reg m0, c_flags (m_c m0))).
  destruct (load_then junk chk e1 tail a size v base asp m m0 st s1 g m2 s.1 (needed_flags o (c_flags (m_c m0)) s.2))
    as (st' & g' & G & L); try done; [by rewrite Has| |by eapply us_emits; [|apply S1]|].
  { intros m3 s2 g2 S2 I2 E2 F2 V2. destruct (us_goes _ _ _ _ Hu v base asp m3 s2 g2 Hv I2 S2 V2) as (s3 & g3 & G3 & L3).
    exists s3, g3. split; [exact G3|]. rewrite E2, F2 in L3. exact L3. }
  exists st', g'. revert Hk. unfold if_running, get_c, gets, mbind, M_bind, way_of.
  destruct (c_running (m_c m2)) eqn:E; intros [= <-]; [|by rewrite E].
  rewrite (Em eq_refl) in *. cbn [set_gpr upd_m m_c c_running with_flags with_r]. rewrite Hrun in *. by split.
Qed.

Lemma does_operand o rip size tail f :
  opsize size -> ea_ok o -> urange 64 rip -> uses tail o size f ->
  does ((put_set_rip rip;; put_ea o);; (put_load size;; tail))
    (v ← mem_operand o rip size; if_running (then_regs needed_flags o (f v))).
Proof.
  intros Hsz He Hrip Hu base asp m st g m1 Hr Hs Hm.
  destruct (run_front base asp m st g o rip He Hs Hrip) as (s1 & R1 & S1 & V1 & U1 & _).
  eapply (regs_after_load base asp m (upd_m (with_cur_rip rip) m)); try done; [apply Hr|apply ref_ea_range].
Qed.

Lemma does_rm o rip : rm_ok o -> urange 64 rip -> does (put_rm o rip) (insn_sem needed_flags o rip).
Proof.
  intros Ho Hrip. eapply does_eq; [| |apply (does_operand o rip (i_size o) (put_rm_op o)
    (fun v s => ref_op o (reg_rd (i_has_rex o) s.1 (i_reg o) (i_size o)) v s))]; try done.
  - intros b. unfold put_rm, put_rm_op. apply same_code_assoc.
  - intros m _. unfold insn_sem, mem_part. rewrite (mo_kind _ Ho). unfold mbind, M_bind. by destruct (mem_operand _ _ _ _).
  - apply op_opsize, Ho.
  - apply Ho.
  - split; [intros v base asp m s g _ Hi Hs Hv; by apply rm_op_goes|intros; by eapply emits_rm_op].
Qed.

(** movzx and movsx of memory. *)
Record movxm_ok (o : insn) : Prop := {
  xm_kind : i_kind o = K_MOVX;
  xm_mem : o_mem (i_mo o) = true;
  xm_ea : ea_ok o;
  xm_reg : greg (i_reg o);
  xm_size : i_size o = 4 \/ i_size o = 8;
  xm_ssize : i_ssize o = 1 \/ i_ssize o = 2
}.

(** imul with a source in memory. *)
Record imulm_ok (o : insn) : Prop := {
  im_kind : i_kind o = K_IMUL;
  im_mem : o_mem (i_mo o) = true;
  im_ea : ea_ok o;
  im_reg : greg (i_reg o);
  im_size : i_size o = 4 \/ i_size o = 8;
  im_imm : urange 64 (i_imm o);
  im_need : i_fneed o .& .~ FL_LOGIC = 0
}.

Lemma does_movx o rip : movxm_ok o -> urange 64 rip -> does (put_movx o rip) (insn_sem needed_flags o rip).
Proof.
  intros [Hk Hm He Hr Hs Hss] Hrip. eapply does_eq; [| |apply (does_operand o rip (i_ssize o) (put_extend o)
    (fun v s => (upd_reg (i_reg o) (extended o v) s.1, s.2)))]; try done.
  - intros b. unfold put_movx. rewrite Hm. transitivity ((put_set_rip rip;; put_ea o;; put_load (i_ssize o);; put_extend o) b).
    + apply same_code_assoc.
    + revert b. intros b. unfold mbind, E_bind. destruct (put_set_rip rip b) as [[] b1]. destruct (put_ea o b1) as [[] b2].
      by destruct (put_load _ b2) as [[] b3].
  - intros m _. unfold insn_sem, mem_part. rewrite Hk, Hm. unfold mbind, M_bind. by destruct (mem_operand _ _ _ _).
  - unfold opsize. lia.
  - apply uses_regs; [lia|]. intros v base R fl st Hv Hc V. cbn [fst snd]. unfold needed_flags. rewrite merge_same.
    apply run_extend; try done. rewrite V. by apply uwrap_small.
Qed.

Lemma does_imul o rip : imulm_ok o -> urange 64 rip -> does (put_imul o rip) (insn_sem needed_flags o rip).
Proof.
  intros [Hk Hm He Hr Hs Hi Hn] Hrip. assert (Hop : opsize (i_size o)) by (unfold opsize; lia).
  eapply does_eq; [| |apply (does_operand o rip (i_size o) (put (a64_mov A64_X1 A64_X0);; put_mul_tail o) (mul_result o))]; try done.
  - intros b. unfold put_imul, put_src. rewrite Hm. unfold mbind, E_bind. destruct (put_set_rip rip b) as [[] b1].
    destruct (put_ea o b1) as [[] b2]. destruct (put_load _ b2) as [[] b3]. by destruct (put _ b3) as [[] b4].
  - intros m _. unfold insn_sem, mem_part. rewrite Hk, Hm. unfold mbind, M_bind. by destruct (mem_operand _ _ _ _).
  - apply uses_regs; [lia|]. intros v base R fl st Hv Hc V. set (s1 := set_x 1 v st).
    assert (Hv64 : urange 64 v) by (eapply urange_mono; [|exact Hv]; unfold opsize in Hop; lia).
    assert (W1 : exec_word (a64_mov A64_X1 A64_X0) st = Some (s1, Next)) by (rewrite exec_mov by done; by rewrite V, uwrap_small).
    destruct (run_mul_tail base R fl o v s1) as (s2 & R2 & C2 & K2); try done; [by apply cpu_at_set|].
    exists s2. split; [by eapply run_put_bind|]. split.
    + unfold needed_flags, computed, by_routine. rewrite Hk. exact C2.
    + eapply keeps_cpu_trans; [by apply (keeps_cpu_set _ 1 v)|exact K2].
Qed.

(* ------------------------------------------------------------------ *)
(** ** The stack *)

(** rsp plus or minus 8, in x1 and in the cpu. *)
Lemma run_shift_stack base R fl w d st :
  cpu_at base R fl st ->
  (forall s v, xr s 1 = v -> urange 64 v -> exec_word w s = Some (set_x 1 (u64 (v + d)) s, Next)) ->
  exists st', emit_runs (put (a64_ldr A64_X1 CPU (off_r 4));; put w;; put (a64_str A64_X1 CPU (off_r 4))) tt st st' /\
    cpu_at base (upd_reg 4 (u64 (R 4 + d)) R) fl st' /\ keeps_cpu base st st' /\ xr st' 1 = u64 (R 4 + d).
Proof.
  intros Hc Hw. assert (Hg : greg 4) by (unfold greg; lia). set (s1 := set_x 1 (R 4) st). set (s2 := set_x 1 (u64 (R 4 + d)) s1).
  assert (C2 : cpu_at base R fl s2) by (unfold s2, s1; do 2 (apply cpu_at_set; [done|]); done).
  destruct (run_str_reg base R fl 1 4 s2 C2 Hg) as (s3 & R3 & C3 & K3 & X3); [done|by apply uwrap_range|].
  exists s3. split; [|split; [exact C3|split]].
  - eapply run_put_bind; [by eapply run_ldr_reg|]. eapply run_put_bind; [|by apply run_put]. apply Hw; [done|by apply Hc].
  - eapply keeps_cpu_trans; [|exact K3]. unfold s2, s1. eapply keeps_cpu_trans; by apply keeps_cpu_set.
  - by rewrite X3.
Qed.

Lemma run_grow_stack base R fl st :
  cpu_at base R fl st ->
  exists st', emit_runs put_grow_stack tt st st' /\ cpu_at base (upd_reg 4 (u64 (R 4 - 8)) R) fl st' /\
    keeps_cpu base st st' /\ xr st' 1 = u64 (R 4 - 8).
Proof.
  intros Hc. apply (run_shift_stack base R fl (a64_sub_imm A64_X1 A64_X1 8) (-8) st Hc).
  intros s v <- _. by rewrite exec_sub_imm.
Qed.

Lemma run_shrink_stack base R fl st :
  cpu_at base R fl st ->
  exists st', emit_runs put_shrink_stack tt st st' /\ cpu_at base (upd_reg 4 (u64 (R 4 + 8)) R) fl st' /\
    keeps_cpu base st st' /\ xr st' 1 = u64 (R 4 + 8).
Proof.
  intros Hc. apply (run_shift_stack base R fl (a64_add_imm A64_X1 A64_X1 8) 8 st Hc).
  intros s v <- _. by rewrite exec_add_imm.
Qed.

Record stack_ok (o : insn) : Prop := {
  sk_kind : i_kind o = K_PUSH \/ i_kind o = K_POP;
  sk_reg : greg (i_reg o);
  sk_rsp : i_reg o <> 4
}.

Lemma sim_set_reg base asp m st g r v :
  sim base asp m st g -> greg r -> set_reg r v m = set_gpr (upd_reg r v (reg m)) (c_flags (m_c m)) m.
Proof.
  intros Hs Hr. pose proof (si_len _ _ _ _ _ Hs) as Hl. destruct (si_cpu _ _ _ _ _ Hs) as [[_ _ _ Hf] _ _].
  assert (Hc : upd_reg r v (reg m) <$> seqZ 0 16 = <[Z.to_nat r := v]> (c_r (m_c m))).
  { apply list_eq_same_length with 16%nat; [by rewrite length_insert|by rewrite length_fmap, length_seqZ|].
    intros i x y Hi Hx Hy. rewrite list_lookup_fmap, lookup_seqZ_lt in Hx by lia. injection Hx as <-.
    unfold upd_reg, greg in *. destruct (Z.eqb_spec (0 + Z.of_nat i) r) as [E|E].
    - rewrite <- E, Z.add_0_l, Nat2Z.id in Hy. rewrite list_lookup_insert_eq in Hy by lia. by injection Hy.
    - rewrite list_lookup_insert_ne in Hy by lia. unfold reg. rewrite Z.add_0_l, Nat2Z.id. by apply list_lookup_total_correct. }
  unfold set_gpr, set_reg, upd_m. rewrite Hc. destruct m as [[] as_ w cb cm]. unfold with_r, with_flags. cbn in *. by rewrite uwrap_small.
Qed.

(** Code that puts an address in x1 and a value in x2, and stores. *)
Lemma store_after e1 a v size base asp m m0 st s1 g m1 :
  opsize size -> ready m -> m_as m0 = m_as m -> c_running (m_c m0) = true -> c_wlog (m_c m0) = c_wlog (m_c m) ->
  mem_of m0 = mem_of m -> emit_runs e1 tt st s1 -> sim base asp m0 s1 g ->
  xr s1 A64_X1 = a -> urange 64 a -> urange 64 (xr s1 A64_X2) -> uwrap (size * 8) (xr s1 A64_X2) = uwrap (size * 8) v ->
  undisturbed base asp m st s1 -> Machine.st a v size m0 = Ok tt m1 ->
  exists st' g', goes (e1;; put_store size) (way_of m1) (st, g) (st', g') /\ lands base asp m m1 st st' g' /\ spares base s1 st'.
Proof.
  intros Hsz [Hi _ Hlog] Has Hrun Hw Hmem R1 S1 V1 Ha V2 Vv U1 Hst.
  rewrite (st_mod _ _ (xr s1 2) _ _ Hsz (eq_sym Vv)) in Hst.
  destruct (store_goes junk chk base asp m0 s1 g a (xr s1 2) size m1) as (st' & g' & G & [L U] & T); try done;
    [by rewrite Has|by rewrite Hw|].
  exists st', g'. split; [|split; [|exact T]].
  - eapply goes_bind; [apply goes_straight; exact R1|exact G].
  - split; [exact L|]. apply (undisturbed_trans _ _ _ m0 _ s1); [by rewrite Hmem|exact U1|exact U].
Qed.

(** What [push] does, and where it stores. *)
Lemma push_run v m : push v m = Machine.st (u64 (reg m 4 - 8)) v 8 (set_reg 4 (u64 (reg m 4 - 8)) m) \/ length (c_r (m_c m)) <> 16%nat.
Proof.
  destruct (decide (length (c_r (m_c m)) = 16%nat)) as [Hl|Hl]; [left|by right].
  unfold push, getr, get_c, gets, setr, upd, modify, mbind, M_bind, RSP. cbn [m_c with_r c_r].
  change (c_r (m_c m) !!! Z.to_nat 4) with (reg m 4). f_equal. apply list_lookup_total_insert_eq. rewrite Hl. cbn. lia.
Qed.

(** Growing the stack, in the machine too; [e2] puts the value in x2. *)
Lemma run_push_args base asp m st g (e2 : E unit) v :
  sim base asp m st g ->
  (forall R s, cpu_at base R (c_flags (m_c m)) s -> (forall r, r <> 4 -> R r = reg m r) ->
    exists s', emit_runs e2 tt s s' /\ xr s' 2 = v /\ keeps_regs [2] s s') ->
  let sp := u64 (reg m 4 - 8) in
  exists st', emit_runs (put_grow_stack;; e2) tt st st' /\ sim base asp (set_reg 4 sp m) st' g /\
    xr st' A64_X1 = sp /\ xr st' A64_X2 = v /\ undisturbed base asp m st st' /\ spares base st st'.
Proof.
  intros Hs He sp. destruct (run_grow_stack base _ _ st (si_cpu _ _ _ _ _ Hs)) as (s2 & R2 & C2 & K2 & V2).
  destruct (sim_cpu_at base asp _ st g _ _ s2 Hs C2 K2) as [S2 U2].
  destruct (He _ s2 C2) as (s3 & R3 & V3 & K3); [intros r Hr; unfold upd_reg; by rewrite (proj2 (Z.eqb_neq r 4))|].
  exists s3. split; [by eapply run_bind|split; [|split; [|split; [exact V3|split]]]].
  - rewrite (sim_set_reg base asp _ st g) by (done || unfold greg; lia).
    eapply sim_ext; [exact S2|apply K3|apply (kr_x _ _ _ K3); cbn; lia].
  - by rewrite (kr_x _ _ _ K3) by (cbn; lia).
  - apply (undisturbed_trans _ _ _ m _ s2); [done|exact U2|].
    apply undisturbed_ext; [apply K3|apply K3|intros n Hn _; apply (kr_x _ _ _ K3); cbn; lia].
  - intros k Hk. rewrite (kr_mem _ _ _ K3). apply read_bytes_ext. intros i Hi. apply K2. unfold reg_file, off_tmp in *. lia.
Qed.

Lemma run_push_front base asp m st g rip (e2 : E unit) v :
  sim base asp m st g -> urange 64 rip ->
  (forall R s, cpu_at base R (c_flags (m_c m)) s -> (forall r, r <> 4 -> R r = reg m r) ->
    exists s', emit_runs e2 tt s s' /\ xr s' 2 = v /\ keeps_regs [2] s s') ->
  let sp := u64 (reg m 4 - 8) in
  exists st', emit_runs (put_set_rip rip;; put_grow_stack;; e2) tt st st' /\
    sim base asp (set_reg 4 sp (upd_m (with_cur_rip rip) m)) st' g /\
    xr st' A64_X1 = sp /\ xr st' A64_X2 = v /\ undisturbed base asp m st st'.
Proof.
  intros Hs Hrip He sp. destruct (run_set_rip base asp m st g rip Hs Hrip) as (s1 & R1 & S1 & U1 & _).
  destruct (run_push_args base asp _ s1 g e2 v S1 He) as (s2 & R2 & S2 & V1 & V2 & U2 & _).
  exists s2. split; [by eapply run_bind|]. split_and!; try done. by apply (undisturbed_trans _ _ _ (upd_m (with_cur_rip rip) m) _ s1).
Qed.

(** Nothing left to do behind a store. *)
Lemma insn_sem_stored o rip m m0 s1 g base asp a v size m1 :
  opsize size -> sim base asp m0 s1 g -> mem_part o rip m = (Machine.st a v size;; mret (fun s => s)) m0 ->
  insn_sem needed_flags o rip m = Ok tt m1 -> Machine.st a v size m0 = Ok tt m1.
Proof.
  intros Hsz S0 Hp. unfold insn_sem. intros (f & m2 & Hf & Hk)%bind_ok. rewrite Hp in Hf.
  apply bind_ok in Hf as ([] & m3 & Hst & [= <- <-]). revert Hk. unfold if_running, get_c, gets, mbind, M_bind.
  destruct (c_running (m_c m3)); [|by intros [= <-]]. unfold then_regs, modify, needed_flags. cbn [fst snd]. rewrite merge_same.
  intros [= <-].
  destruct (st_leaves _ _ _ _ _ _ _ _ _ Hsz S0 Hst) as (_ & Er & _ & Ef & _).
  rewrite set_gpr_same; [congruence|by rewrite Er; apply S0|]. rewrite Ef.
  destruct (si_cpu _ _ _ _ _ S0) as [[_ _ _ Hfl] _ _]. exact Hfl.
Qed.

Lemma does_push o rip : stack_ok o -> i_kind o = K_PUSH -> urange 64 rip -> does (put_push o rip) (insn_sem needed_flags o rip).
Proof.
  intros [_ Hg H4] Hk Hrip base asp m st g m1 Hr Hs Hm.
  set (v := reg m (i_reg o)). assert (Hv : urange 64 v) by by apply (si_cpu _ _ _ _ _ Hs).
  destruct (run_push_front base asp m st g rip (put (a64_ldr A64_X2 CPU (off_r (i_reg o)))) v Hs Hrip) as (s1 & R1 & S1 & V1 & V2 & U1).
  { intros R s Hc HR. exists (set_x 2 (R (i_reg o)) s). split; [apply run_put; by eapply run_ldr_reg|].
    rewrite xr_set_x, HR by done. split; [done|]. apply keeps_regs_set. by left. }
  assert (Hst : Machine.st (u64 (reg m 4 - 8)) v 8 (set_reg 4 (u64 (reg m 4 - 8)) (upd_m (with_cur_rip rip) m)) = Ok tt m1).
  { eapply insn_sem_stored; [by right; right; right|exact S1| |exact Hm].
    unfold mem_part. rewrite Hk. unfold mbind, M_bind, upd, modify, gets.
    change (Machine (with_cur_rip rip (m_c m)) (m_as m) (m_w m) (m_cb m) (m_cm m)) with (upd_m (with_cur_rip rip) m).
    destruct (push_run v (upd_m (with_cur_rip rip) m)) as [Hp|Hl]; [|destruct Hl; apply Hs].
    change (reg (upd_m (with_cur_rip rip) m)) with (reg m) in *. fold v. rewrite Hp. done. }
  destruct (store_after _ _ v 8 base asp m (set_reg 4 (u64 (reg m 4 - 8)) (upd_m (with_cur_rip rip) m)) st s1 g m1 ltac:(by right; right; right) Hr
    eq_refl (rd_run _ Hr) eq_refl eq_refl R1 S1 V1) as (st' & g' & G & L & _); try done;
    [by apply uwrap_range|by rewrite V2|by rewrite V2|].
  exists st', g'. split; [|exact L]. eapply goes_eq; [|exact G]. intros b. unfold put_push, mbind, E_bind.
  destruct (put_set_rip rip b) as [[] b1]. destruct (put_grow_stack b1) as [[] b2]. by destruct (put _ b2) as [[] b3].
Qed.

Lemma does_pop o rip : stack_ok o -> i_kind o = K_POP -> urange 64 rip -> does (put_pop o rip) (insn_sem needed_flags o rip).
Proof.
  intros [_ Hg H4] Hk Hrip base asp m st g m1 Hr Hs Hm. assert (Hg4 : greg 4) by (unfold greg; lia).
  destruct (run_set_rip base asp m st g rip Hs Hrip) as (s1 & R1 & S1 & U1 & _). set (m0 := upd_m (with_cur_rip rip) m) in *.
  set (s2 := set_x 1 (reg m 4) s1).
  assert (W2 : exec_word (a64_ldr A64_X1 CPU (off_r 4)) s1 = Some (s2, Next)).
  { apply (run_ldr_reg base _ _ 1 4 s1 (si_cpu _ _ _ _ _ S1)); done. }
  assert (U2 : undisturbed base asp m st s2).
  { apply (undisturbed_trans _ _ _ m0 _ s1); [done|exact U1|]. apply undisturbed_ext; [apply mem_set_x|unfold s2, set_x; by case_match|].
    intros n Hn _. unfold s2. by rewrite xr_set_x, (proj2 (Z.eqb_neq n 1)) by lia. }
  assert (Hmm : (v ← ld (reg m 4) 8; if_running (then_regs needed_flags o
    (fun s => (upd_reg 4 (u64 (s.1 4 + 8)) (upd_reg (i_reg o) v s.1), s.2)))) m0 = Ok tt m1).
  { rewrite <- Hm. unfold insn_sem, mem_part. rewrite Hk. unfold mbind, M_bind, upd, modify, gets.
    change (Machine (with_cur_rip rip (m_c m)) (m_as m) (m_w m) (m_cb m) (m_cm m)) with m0.
    change (reg m0) with (reg m). by destruct (ld (reg m 4) 8 m0). }
  destruct (regs_after_load base asp m m0 st s2 g (put_set_rip rip;; put (a64_ldr A64_X1 CPU (off_r 4)))
    (put (a64_str A64_X0 CPU (off_r (i_reg o)));; put_shrink_stack) o (reg m 4) 8
    (fun v s => (upd_reg 4 (u64 (s.1 4 + 8)) (upd_reg (i_reg o) v s.1), s.2)) m1) as (st' & g' & G & L); try done.
  - by right; right; right.
  - by apply Hr.
  - eapply run_bind; [exact R1|by apply run_put].
  - eapply sim_ext; [exact S1|apply mem_set_x|unfold s2; by rewrite xr_set_x].
  - by apply (si_cpu _ _ _ _ _ Hs).
  - apply uses_regs; [lia|]. intros v b R fl s Hv Hc V. cbn [fst snd]. unfold needed_flags. rewrite merge_same.
    destruct (run_str_reg b R fl 0 (i_reg o) s Hc Hg) as (s3 & R3 & C3 & K3 & _); [done|by rewrite V|]. rewrite V in C3.
    destruct (run_shrink_stack b _ _ s3 C3) as (s4 & R4 & C4 & K4 & _).
    exists s4. split; [by eapply run_put_bind|]. split; [|by eapply keeps_cpu_trans].
    unfold upd_reg at 2 in C4. rewrite (proj2 (Z.eqb_neq 4 (i_reg o))) in C4 by done. exact C4.
  - exists st', g'. split; [|exact L]. eapply goes_eq; [|exact G]. intros b. unfold put_pop, mbind, E_bind.
    destruct (put_set_rip rip b) as [[] b1]. destruct (put _ b1) as [[] b2]. done.
Qed.

(* ------------------------------------------------------------------ *)
(** ** Stores *)

Lemma does_mov o rip : mov_ok o -> urange 64 rip -> does (put_mr o rip) (insn_sem needed_flags o rip).
Proof.
  intros Ho Hrip base asp m st g m1 Hr Hs Hm.
  destruct (run_set_rip base asp m st g rip Hs Hrip) as (s1 & _ & S1 & _).
  apply (mov_goes junk chk o rip base asp m st g m1 Ho (rd_as _ Hr) Hs (rd_run _ Hr) Hrip (rd_log _ Hr)).
  eapply insn_sem_stored; [apply Ho|exact S1| |exact Hm].
  unfold mem_part. destruct (vo_kind _ Ho) as [-> | ->]; by rewrite (vo_op _ Ho).
Qed.

(** setcc on memory. *)
Record setccm_ok (o : insn) : Prop := {
  sm_kind : i_kind o = K_SETCC;
  sm_mem : o_mem (i_mo o) = true;
  sm_ea : ea_ok o;
  sm_cc : 0 <= i_cc o < 16
}.

Lemma does_setcc o rip : setccm_ok o -> urange 64 rip -> does (put_setcc o rip) (insn_sem needed_flags o rip).
Proof.
  intros [Hk Hmem He Hcc] Hrip base asp m st g m1 Hr Hs Hm.
  destruct (run_cond_even base _ (i_cc o) st (ca_at _ _ _ _ (si_cpu _ _ _ _ _ Hs)) Hcc) as (s1 & R1 & Z1 & M1 & P1 & X1).
  set (v := bz (cond (c_flags (m_c m)) (i_cc o))). assert (Hv : urange 64 v) by (subst v; by destruct (cond _ _)).
  set (s2 := set_x 0 v s1).
  assert (W2 : exec_word (a64_cset A64_X0 (sense (i_cc o))) s1 = Some (s2, Next)).
  { rewrite exec_cset by by unfold sense; destruct (nz (i_cc o .& 1)). by rewrite (cond_sense (c_flags (m_c m))). }
  assert (S2 : sim base asp m s2 g).
  { eapply sim_ext; [exact Hs|by unfold s2; rewrite mem_set_x|]. unfold s2. rewrite xr_set_x. apply X1. cbn. lia. }
  destruct (run_save junk base asp m s2 g 0 0 S2) as (W3 & S3 & U3); [done|lia|]. set (s3 := set_amem _ s2) in *.
  destruct (run_front base asp m s3 g o rip He S3 Hrip) as (s4 & R4 & S4 & V4 & U4 & T4).
  assert (W5 : exec_word (a64_ldr A64_X2 CPU (off_tmp 0)) s4 = Some (set_x 2 v s4, Next)).
  { apply (run_load_back junk base asp _ s4 g 2 0 v S4); [done|lia|done|]. rewrite T4 by lia. unfold s3. cbn [a_mem set_amem].
    rewrite read_write_bytes8. unfold s2. by rewrite xr_set_x. }
  assert (S5 : sim base asp (upd_m (with_cur_rip rip) m) (set_x 2 v s4) g) by (eapply sim_ext; [exact S4|apply mem_set_x|by rewrite xr_set_x]).
  assert (Hst : Machine.st (ref_ea o (reg m)) v 1 (upd_m (with_cur_rip rip) m) = Ok tt m1).
  { eapply insn_sem_stored; [by left|exact S5| |exact Hm]. unfold mem_part. by rewrite Hk, Hmem. }
  assert (U5 : undisturbed base asp m st (set_x 2 v s4)).
  { apply (undisturbed_trans _ _ _ m _ s2); [done| |].
    - apply undisturbed_ext; [by unfold s2; rewrite mem_set_x|unfold s2, set_x; by case_match|].
      intros n Hn _. unfold s2. rewrite xr_set_x, (proj2 (Z.eqb_neq n 0)) by lia. apply X1. cbn. lia.
    - apply (undisturbed_trans _ _ _ m _ s3); [done|exact U3|]. apply (undisturbed_trans _ _ _ m _ s4); [done|exact U4|].
      apply undisturbed_ext; [apply mem_set_x|unfold set_x; by case_match|].
      intros n Hn _. by rewrite xr_set_x, (proj2 (Z.eqb_neq n 2)) by lia. }
  destruct (store_after (put_cond_even (i_cc o);; put (a64_cset A64_X0 (sense (i_cc o)));; put (a64_str A64_X0 CPU (off_tmp 0));;
    (put_set_rip rip;; put_ea o);; put (a64_ldr A64_X2 CPU (off_tmp 0))) (ref_ea o (reg m)) v 1 base asp m
    (upd_m (with_cur_rip rip) m) st (set_x 2 v s4) g m1) as (st' & g' & G & L & _); try done.
  - by left.
  - apply Hr.
  - eapply run_bind; [exact R1|]. eapply run_put_bind; [exact W2|]. eapply run_put_bind; [exact W3|].
    eapply run_bind; [exact R4|]. by apply run_put.
  - apply ref_ea_range.
  - exists st', g'. split; [|exact L]. eapply goes_eq; [|exact G]. intros b. unfold put_setcc. rewrite Hmem. unfold mbind, E_bind.
    destruct (put_cond_even _ b) as [[] b1]. destruct (put _ b1) as [[] b2]. destruct (put _ b2) as [[] b3].
    destruct (put_set_rip rip b3) as [[] b4]. destruct (put_ea o b4) as [[] b5]. by destruct (put _ b5) as [[] b6].
Qed.
End does.
