(* ===== verification/JitRmw.v ===== *)
(** Compiled read-modify-write instructions ([put_mr] in [src/jit.c] past its
    moves): the operand is loaded, the result stored, and the flags computed
    from what was kept in the scratch words meanwhile. *)
From S2P Require Import Prelude.
From S2P Require Import Memory.
From S2P Require Import AddressSpace.
From S2P Require Import Flags.
From S2P Require Import Machine.
From S2P Require Import Access.
From S2P Require Import Decode.
From S2P Require Import Registers.
From S2P Require Import Keeps.
From S2P Require Import A64.
From S2P Require Import Emit.
From S2P Require Import Jit.
From S2P Require Import JitEmit.
From S2P Require Import JitInsn.
From S2P Require Import JitRun.
From S2P Require Import JitFlags.
From S2P Require Import JitRegs.
From S2P Require Import JitLive.
From S2P Require Import JitBlock.
From S2P Require Import JitCode.
From S2P Require Import JitRel.
From S2P Require Import JitSem.
From S2P Require Import JitMem.
From S2P Require Import JitWorld.
From S2P Require Import JitAccess.
From S2P Require Import JitRoutines.
From S2P Require Import JitOps.
From S2P Require Import JitDoes.

Section rmw.
Context `{HostOS} `{LinkOk} (junk : Z -> Z) (chk : bool).
#[local] Abbreviation goes := (goes (call_c junk) chk).

Record rmw_ok (o : insn) : Prop := {
  wo_kind : i_kind o = K_MR \/ i_kind o = K_MI;
  wo_mov : i_op o <> 0x88;
  wo_op : op_ok o;
  wo_imm : i_kind o = K_MI -> urange 64 (i_imm o);
  wo_one : is_one_of (i_op o) [OP_INC; OP_DEC] = true -> i_kind o = K_MI /\ i_imm o = 1;
  wo_ea : ea_ok o
}.

(* ------------------------------------------------------------------ *)
(** ** The code in pieces *)

Definition put_rmw_src (o : insn) : E unit :=
  if bool_decide (i_kind o = K_MI) then put_imm A64_X2 (i_imm o) else put_rd_reg A64_X2 o (i_reg o) (i_size o).
Definition put_rmw_op (o : insn) : E unit := put (a64_mov A64_X1 A64_X0);; put_rmw_src o;; put_op o;; mret tt.
Definition put_rmw_save : E unit :=
  put (a64_str A64_X1 CPU (off_tmp 1));; put (a64_str A64_X2 CPU (off_tmp 2));; put (a64_str A64_X3 CPU (off_tmp 3));;
  put (a64_mov A64_X2 A64_X3);; put (a64_ldr A64_X1 CPU (off_tmp 0)).
Definition put_rmw_back : E unit :=
  put (a64_ldr A64_X1 CPU (off_tmp 1));; put (a64_ldr A64_X2 CPU (off_tmp 2));; put (a64_ldr A64_X3 CPU (off_tmp 3)).

Lemma put_mr_parts o rip b :
  rmw_ok o ->
  (((put_set_rip rip;; put_ea o);; put (a64_str A64_X1 CPU (off_tmp 0)));;
   (put_load (i_size o);; (put_rmw_op o;; ((ewhen (negb (i_no_write o)) (put_rmw_save;; (put_store (i_size o);; put_rmw_back)));;
     put_flags o (op_helper (i_op o)) (i_size o))))) b = put_mr o rip b.
Proof.
  intros [_ Hm Hop _ _ _]. unfold put_mr. rewrite (proj2 (Z.eqb_neq _ _) Hm). unfold put_rmw_op.
  unfold mbind, E_bind. destruct (put_set_rip rip b) as [[] b1]. destruct (put_ea o b1) as [[] b2].
  destruct (put _ b2) as [[] b3]. destruct (put_load _ b3) as [[] b4]. destruct (put _ b4) as [[] b5].
  fold (put_rmw_src o). destruct (put_rmw_src o b5) as [[] b6].
  pose proof (put_op_helper o b6 (po_op _ Hop)) as Hh. destruct (put_op o b6) as [fn b7]. cbn in Hh. subst fn.
  unfold mret, E_ret. destruct (i_no_write o); cbn [negb ewhen]; [done|].
  unfold put_rmw_save, put_rmw_back, mbind, E_bind.
  do 5 (match goal with |- context [put ?w ?b] => destruct (put w b) as [[] ?] end).
  match goal with |- context [put_store ?s ?b] => destruct (put_store s b) as [[] ?] end.
  do 3 (match goal with |- context [put ?w ?b] => destruct (put w b) as [[] ?] end). done.
Qed.

(* ------------------------------------------------------------------ *)
(** ** The pieces run *)

(** The address is computed and kept. *)
Lemma run_rmw_front base asp m st g o rip :
  ea_ok o -> sim base asp m st g -> urange 64 rip ->
  let a := ref_ea o (reg m) in
  exists st', emit_runs ((put_set_rip rip;; put_ea o);; put (a64_str A64_X1 CPU (off_tmp 0))) tt st st' /\
    sim base asp (upd_m (with_cur_rip rip) m) st' g /\ xr st' A64_X1 = a /\
    read_bytes (a_mem st') (base + off_tmp 0) 8 = Some (le_bytes 8 a) /\ undisturbed base asp m st st'.
Proof.
  intros He Hs Hrip a. destruct (run_front base asp m st g o rip He Hs Hrip) as (s1 & R1 & S1 & V1 & U1 & _).
  destruct (run_save junk base asp _ s1 g 1 0 S1) as (W2 & S2 & U2); [done|lia|].
  eexists. split; [eapply run_bind; [exact R1|by apply run_put]|]. split; [exact S2|]. split; [exact V1|]. split.
  - cbn [a_mem set_amem]. rewrite V1. apply read_write_bytes8.
  - by apply (undisturbed_trans _ _ _ (upd_m (with_cur_rip rip) m) _ s1).
Qed.

(** The operands and the result. *)
Record rmw_values (o : insn) (v b : Z) (st : astate) : Prop := {
  wv_a : xr st 1 = v;
  wv_b : uwrap (i_size o * 8) (xr st 2) = uwrap (i_size o * 8) b;
  wv_b64 : urange 64 (xr st 2);
  wv_one : is_one_of (i_op o) [OP_INC; OP_DEC] = true -> xr st 2 = 1;
  wv_r : xr st 3 = op_result (i_op o) (i_size o) (xr st 1) (xr st 2)
}.

Lemma run_rmw_op base R fl o v st :
  rmw_ok o -> cpu_at base R fl st -> xr st A64_X0 = v -> urange 64 v ->
  exists st', emit_runs (put_rmw_op o) tt st st' /\ rmw_values o v (mov_value o R) st' /\ keeps_regs [1; 2; 3] st st'.
Proof.
  intros [Hk Hm Hop Hi Hone He] Hc Hv Hu. pose proof (op_opsize _ Hop) as Hsz. set (s1 := set_x 1 v st).
  assert (W1 : exec_word (a64_mov A64_X1 A64_X0) st = Some (s1, Next)) by (rewrite exec_mov by done; by rewrite Hv, uwrap_small).
  assert (C1 : cpu_at base R fl s1) by (by apply cpu_at_set).
  assert (E2 : exists s2, emit_runs (put_rmw_src o) tt s1 s2 /\ uwrap (i_size o * 8) (xr s2 2) = uwrap (i_size o * 8) (mov_value o R) /\
    urange 64 (xr s2 2) /\ (i_kind o = K_MI -> xr s2 2 = i_imm o) /\ keeps_regs [2] s1 s2).
  { unfold put_rmw_src, mov_value. case_bool_decide as Hki.
    - destruct (run_imm 2 (i_imm o) s1) as (s2 & R2 & V2 & K2); [done|done|by apply Hi|]. exists s2. rewrite V2.
      split_and!; try done. by apply Hi.
    - destruct (run_rd_reg base R fl o 2 (i_reg o) (i_size o) s1 C1) as (s2 & R2 & V2 & U2 & K2); [apply Hop|done..|].
      exists s2. split_and!; try done. rewrite V2. symmetry. by apply reg_rd_range. }
  destruct E2 as (s2 & R2 & V2 & U2 & I2 & K2). set (s3 := set_x 3 (op_result (i_op o) (i_size o) (xr s2 1) (xr s2 2)) s2).
  assert (X1 : xr s2 1 = v) by (rewrite (kr_x _ _ _ K2) by (cbn; lia); unfold s1; by rewrite xr_set_x).
  exists s3. split; [|split].
  - eapply run_put_bind; [exact W1|]. eapply run_bind; [exact R2|]. eapply run_bind; [apply run_op, Hop|apply run_ret].
  - unfold s3. split; rewrite !xr_set_x; cbn [Z.eqb Pos.eqb andb negb]; try done.
    intros [Hki <-]%Hone. by apply I2.
  - eapply keeps_regs_trans; [apply (keeps_regs_set _ 1 v); cbn; tauto|].
    eapply keeps_regs_trans; [eapply keeps_regs_sub; [exact K2|]; intros n; cbn; tauto|]. apply keeps_regs_set. cbn. tauto.
Qed.

Lemma rmw_values_range o v b st : rmw_ok o -> urange 64 v -> rmw_values o v b st -> forall k, 1 <= k <= 3 -> urange 64 (xr st k).
Proof.
  intros Ho Hv [E1 E2 E3 E4 E5] k Hk. assert (k = 1 \/ k = 2 \/ k = 3) as [->|[->| ->]] by lia; [by rewrite E1|done|].
  rewrite E5. apply op_result_range, op_opsize, Ho.
Qed.

(** A scratch word written by [run_save], read from another. *)
Lemma other_scratch base st r j k :
  0 <= j < 8 -> 0 <= k < 8 -> j <> k ->
  read_bytes (a_mem (set_amem (write_bytes (a_mem st) (base + off_tmp j) (le_bytes 8 (xr st r))) st)) (base + off_tmp k) 8 =
  read_bytes (a_mem st) (base + off_tmp k) 8.
Proof. intros Hj Hk Hn. cbn [a_mem set_amem]. rewrite read_write_other; [done|]. rewrite length_le_bytes. unfold off_tmp. lia. Qed.

Lemma run_rmw_save base asp m st g a :
  sim base asp m st g -> urange 64 a -> urange 64 (xr st 3) -> read_bytes (a_mem st) (base + off_tmp 0) 8 = Some (le_bytes 8 a) ->
  exists st', emit_runs put_rmw_save tt st st' /\ sim base asp m st' g /\ xr st' 1 = a /\ xr st' 2 = xr st 3 /\
    (forall k, 1 <= k <= 3 -> read_bytes (a_mem st') (base + off_tmp k) 8 = Some (le_bytes 8 (xr st k))) /\
    undisturbed base asp m st st'.
Proof.
  intros Hs Ha Hx3 T0.
  destruct (run_save junk base asp m st g 1 1 Hs) as (W1 & S1 & U1); [done|lia|]. set (s1 := set_amem _ st) in *.
  destruct (run_save junk base asp m s1 g 2 2 S1) as (W2 & S2 & U2); [done|lia|]. set (s2 := set_amem _ s1) in *.
  destruct (run_save junk base asp m s2 g 3 3 S2) as (W3 & S3 & U3); [done|lia|]. set (s3 := set_amem _ s2) in *.
  set (s4 := set_x 2 (xr st 3) s3).
  assert (W4 : exec_word (a64_mov A64_X2 A64_X3) s3 = Some (s4, Next)) by (rewrite exec_mov by done; change (xr s3 A64_X3) with (xr st 3); by rewrite uwrap_small).
  assert (S4 : sim base asp m s4 g) by (eapply sim_ext; [exact S3|apply mem_set_x|unfold s4; by rewrite xr_set_x]).
  assert (W5 : exec_word (a64_ldr A64_X1 CPU (off_tmp 0)) s4 = Some (set_x 1 a s4, Next)).
  { apply (run_load_back junk base asp _ s4 g 1 0 a S4); [done|lia|done|]. unfold s4. rewrite mem_set_x.
    unfold s3, s2, s1. by rewrite !other_scratch by lia. }
  exists (set_x 1 a s4). split; [|split; [|split; [|split; [|split]]]].
  - do 3 (eapply run_put_bind; [done|]). eapply run_put_bind; [exact W4|by apply run_put].
  - eapply sim_ext; [exact S4|apply mem_set_x|by rewrite xr_set_x].
  - by rewrite xr_set_x.
  - unfold s4. by rewrite !xr_set_x.
  - intros k Hk. unfold s4. rewrite !mem_set_x. assert (k = 1 \/ k = 2 \/ k = 3) as [->|[->| ->]] by lia; unfold s3.
    + rewrite other_scratch by lia. unfold s2. rewrite other_scratch by lia. apply read_write_bytes8.
    + rewrite other_scratch by lia. apply read_write_bytes8.
    + apply read_write_bytes8.
  - apply (undisturbed_trans _ _ _ m _ s1); [done|exact U1|]. apply (undisturbed_trans _ _ _ m _ s2); [done|exact U2|].
    apply (undisturbed_trans _ _ _ m _ s3); [done|exact U3|].
    apply undisturbed_ext; [unfold s4; by rewrite !mem_set_x|unfold s4, set_x; by repeat case_match|].
    intros n Hn _. unfold s4. by rewrite !xr_set_x, (proj2 (Z.eqb_neq n 1)), (proj2 (Z.eqb_neq n 2)) by lia.
Qed.

Lemma run_rmw_back base asp m st g (x : Z -> Z) :
  sim base asp m st g -> (forall k, 1 <= k <= 3 -> urange 64 (x k)) ->
  (forall k, 1 <= k <= 3 -> read_bytes (a_mem st) (base + off_tmp k) 8 = Some (le_bytes 8 (x k))) ->
  exists st', emit_runs put_rmw_back tt st st' /\ keeps_regs [1; 2; 3] st st' /\ forall k, 1 <= k <= 3 -> xr st' k = x k.
Proof.
  intros Hs Hx Hm. set (s1 := set_x 1 (x 1) st). set (s2 := set_x 2 (x 2) s1). set (s3 := set_x 3 (x 3) s2).
  assert (S1 : sim base asp m s1 g) by (eapply sim_ext; [exact Hs|apply mem_set_x|unfold s1; by rewrite xr_set_x]).
  assert (S2 : sim base asp m s2 g) by (eapply sim_ext; [exact S1|apply mem_set_x|unfold s2; by rewrite xr_set_x]).
  exists s3. split; [|split].
  - eapply run_put_bind; [apply (run_load_back junk base asp m st g 1 1 (x 1) Hs); [done|lia|apply Hx; lia|apply Hm; lia]|].
    eapply run_put_bind; [apply (run_load_back junk base asp m s1 g 2 2 (x 2) S1); [done|lia|apply Hx; lia|unfold s1; rewrite mem_set_x; apply Hm; lia]|].
    apply run_put, (run_load_back junk base asp m s2 g 3 3 (x 3) S2); [done|lia|apply Hx; lia|unfold s2, s1; rewrite !mem_set_x; apply Hm; lia].
  - eapply keeps_regs_trans; [apply (keeps_regs_set _ 1 (x 1)); cbn; tauto|].
    eapply keeps_regs_trans; [apply (keeps_regs_set _ 2 (x 2)); cbn; tauto|]. apply keeps_regs_set. cbn. tauto.
  - intros k Hk. assert (k = 1 \/ k = 2 \/ k = 3) as [->|[->| ->]] by lia; unfold s3, s2, s1; by rewrite !xr_set_x.
Qed.

Lemma rmw_flag_args o v b st : rmw_values o v b st -> flag_args o v b st.
Proof. intros [E1 E2 E3 E4 E5]. split; [split; [by rewrite E1|done..]|done]. Qed.

(* ------------------------------------------------------------------ *)
(** ** The whole *)

(** What is left to do once the operand is loaded and the result computed. *)
Definition rmw_rest (o : insn) (a v b : Z) : M unit :=
  (if i_no_write o then mret tt else if_running (Machine.st a (op_result (i_op o) (i_size o) v b) (i_size o)));;
  if_running (then_regs needed_flags o (fun s => (s.1, op_flags o v b s.2))).

Lemma insn_sem_rmw o rip m :
  rmw_ok o -> insn_sem needed_flags o rip m =
  (v ← ld (ref_ea o (reg m)) (i_size o); rmw_rest o (ref_ea o (reg m)) v (mov_value o (reg m))) (upd_m (with_cur_rip rip) m).
Proof.
  intros Ho. unfold insn_sem, mem_part, rmw_rest. destruct (wo_kind _ Ho) as [-> | ->];
    rewrite (proj2 (Z.eqb_neq _ _) (wo_mov _ Ho)); unfold mem_operand, gets, upd, modify, mbind, M_bind;
    (change (Machine (with_cur_rip rip (m_c m)) (m_as m) (m_w m) (m_cb m) (m_cm m)) with (upd_m (with_cur_rip rip) m);
     destruct (ld _ _ _) as [v m2|]; [|done]; by match goal with |- match match ?x with _ => _ end with _ => _ end = _ => destruct x as [[] m3|] end).
Qed.

Lemma respects_rmw_rest o a v b : respects same_but_hits (rmw_rest o a v b).
Proof.
  unfold rmw_rest. apply respects_bind.
  - apply respects_if; [apply respects_ret|].
    apply respects_if_running; [apply _|]. by apply respects_st, _.
  - intros _. apply respects_if_running; [apply _|]. apply respects_then_regs.
Qed.

Lemma rmw_rest_goes o a v b base asp m s g m1 :
  rmw_ok o -> ready chk m -> sim base asp m s g -> urange 64 v -> urange 64 a -> rmw_values o v b s ->
  read_bytes (a_mem s) (base + off_tmp 0) 8 = Some (le_bytes 8 a) -> rmw_rest o a v b m = Ok tt m1 ->
  exists st' g', goes (ewhen (negb (i_no_write o)) (put_rmw_save;; (put_store (i_size o);; put_rmw_back));;
      put_flags o (op_helper (i_op o)) (i_size o)) (way_of m1) (s, g) (st', g') /\ lands base asp m m1 s st' g'.
Proof.
  intros Ho Hr Hs Hv Ha Hval T0. pose proof (op_opsize _ (wo_op _ Ho)) as Hsz. pose proof (rmw_values_range _ _ _ _ Ho Hv Hval) as Hx.
  unfold rmw_rest. destruct (i_no_write o); cbn [negb ewhen].
  { unfold if_running, get_c, gets, mbind, M_bind, mret, M_ret. rewrite (rd_run _ _ Hr). intros [= <-].
    destruct (op_flags_goes junk chk o v b base asp m s g (wo_op _ Ho) (rd_as _ _ Hr) Hs (rmw_flag_args _ _ _ _ Hval)) as (s' & g' & G & L).
    exists s', g'. split; [|exact L].
    unfold way_of. cbn. rewrite (rd_run _ _ Hr). eapply goes_bind; [apply goes_straight, run_ret|exact G]. }
  intros ([] & m3 & Hst & Hk)%bind_ok. unfold if_running, get_c, gets, mbind, M_bind in Hst. rewrite (rd_run _ _ Hr) in Hst.
  destruct (run_rmw_save base asp m s g a Hs Ha (Hx 3 ltac:(lia)) T0) as (s1 & R1 & S1 & X1 & X2 & T1 & U1).
  rewrite (st_mod _ _ (xr s 3) _ _ Hsz) in Hst.
  2: { rewrite (wv_r _ _ _ _ Hval). apply op_result_mod; [exact Hsz|apply (wo_op _ Ho)|by rewrite (wv_a _ _ _ _ Hval)|symmetry; apply Hval]. }
  destruct (st_leaves _ _ _ _ _ _ _ _ _ Hsz S1 Hst) as (_ & _ & _ & _ & _ & Hdom).
  destruct (store_goes junk chk base asp m s1 g a (xr s 3) (i_size o) m3 Hsz (rd_as _ _ Hr) S1 (rd_run _ _ Hr) (rd_log _ _ Hr) X1 Ha X2
    (Hx 3 ltac:(lia)) Hst) as (s2 & g2 & G2 & [(m3' & S2 & B2 & I2) U2] & T2).
  destruct (but_hits_fields _ _ B2) as (Ec & Ew & Eg).
  assert (U12 : undisturbed base asp m s s2) by (by apply (undisturbed_trans _ _ _ m _ s1)).
  revert Hk. unfold if_running, get_c, gets, mbind, M_bind. destruct (c_running (m_c m3)) eqn:Erun; intros [= <-].
  - destruct (run_rmw_back base asp m3' s2 g2 (xr s) S2 Hx) as (s3 & R3 & K3 & V3).
    { intros k Hk. rewrite T2, T1 by lia. done. }
    assert (Hval3 : rmw_values o v b s3) by (destruct Hval; split; rewrite ?V3 by lia; done).
    assert (S3 : sim base asp m3' s3 g2) by (eapply sim_ext; [exact S2|apply K3|apply (kr_x _ _ _ K3); cbn; lia]).
    destruct (op_flags_goes junk chk o v b base asp m3' s3 g2 (wo_op _ Ho) I2 S3 (rmw_flag_args _ _ _ _ Hval3)) as (s4 & g4 & G4 & L4).
    exists s4, g4. split.
    + unfold way_of. cbn. rewrite Erun. eapply goes_bind; [|exact G4].
      eapply goes_bind; [apply goes_straight; exact R1|]. eapply goes_bind; [exact G2|]. apply goes_straight. exact R3.
    + assert (Er : reg m3' = reg m3) by (unfold reg; by rewrite Ec). rewrite Er, Ec in L4.
      eapply lands_hits; [apply Eg|]. eapply (lands_trans _ _ _ m3'); [|exact U12|].
      * intros i. unfold mem_of in *. rewrite Ew. apply Hdom.
      * eapply (lands_trans _ _ _ m3'); [done| |exact L4]. apply undisturbed_ext; [apply K3|apply K3|].
        intros n Hn _. apply (kr_x _ _ _ K3). cbn. lia.
  - exists s2, g2. unfold way_of. rewrite Erun. split; [|split; [by exists m3'|exact U12]].
    eapply goes_leave; [|by eapply emits_op_flags; [apply Ho|apply Hs]].
    eapply goes_bind; [apply goes_straight; exact R1|]. eapply goes_leave; [exact G2|]. unfold put_rmw_back. auto with emission.
Qed.

Lemma does_rmw o rip : rmw_ok o -> urange 64 rip -> does junk chk (put_mr o rip) (insn_sem needed_flags o rip).
Proof.
  intros Ho Hrip base asp m st g m1 Hr Hs Hm. pose proof (op_opsize _ (wo_op _ Ho)) as Hsz.
  rewrite insn_sem_rmw in Hm by done. set (m0 := upd_m (with_cur_rip rip) m) in *. set (a := ref_ea o (reg m)) in *.
  apply bind_ok in Hm as (v & m2 & Hld & Hk).
  destruct (run_rmw_front base asp m st g o rip (wo_ea _ Ho) Hs Hrip) as (s1 & R1 & S1 & X1 & T1 & U1). fold m0 a in S1, X1, T1.
  destruct (load_goes junk chk base asp m0 s1 g a (i_size o) v m2 Hsz (rd_as _ _ Hr) S1 (rd_run _ _ Hr) X1 (ref_ea_range _ _) Hld)
    as (s2 & g2 & G2 & V2 & [(m2' & S2 & B2 & I2) U2] & T2).
  destruct (but_hits_fields _ _ B2) as (Ec & Ew & Eg). destruct (ld_stays _ _ _ _ _ Hsz Hld) as (Er & Ef & Em & Est).
  pose proof (ld_range _ _ _ _ _ Hsz (si_bytes _ _ _ _ _ S1) Hld) as Hv.
  assert (Hv64 : urange 64 v) by (eapply urange_mono; [|exact Hv]; unfold opsize in Hsz; lia).
  destruct (run_rmw_op base _ _ o v s2 Ho (si_cpu _ _ _ _ _ S2) V2 Hv64) as (s3 & R3 & Hval & K3).
  assert (Er2 : reg m2' = reg m) by (change (reg m) with (reg m0); rewrite <- Er; unfold reg; by rewrite Ec).
  rewrite Er2 in Hval. assert (S3 : sim base asp m2' s3 g2) by (eapply sim_ext; [exact S2|apply K3|apply (kr_x _ _ _ K3); cbn; lia]).
  assert (U13 : undisturbed base asp m st s3).
  { apply (undisturbed_trans _ _ _ m0 _ s1); [done|exact U1|]. apply (undisturbed_trans _ _ _ m0 _ s2); [done|exact U2|].
    apply undisturbed_ext; [apply K3|apply K3|intros n Hn _; apply (kr_x _ _ _ K3); cbn; lia]. }
  destruct (c_running (m_c m2)) eqn:Erun.
  - pose proof (Est eq_refl) as E2. subst m2.
    pose proof (respects_rmw_rest o a v (mov_value o (reg m)) m2' m0 B2) as Hrel. rewrite Hk in Hrel.
    destruct (rmw_rest o a v (mov_value o (reg m)) m2') as [[] m1'|] eqn:Hk'; [|done]. destruct Hrel as [_ Hb].
    assert (Hr2 : ready chk m2').
    { split; [exact I2|by rewrite Ec|rewrite Ec; apply Hr]. }
    destruct (rmw_rest_goes o a v (mov_value o (reg m)) base asp m2' s3 g2 m1' Ho Hr2 S3 Hv64 (ref_ea_range _ _) Hval) as (s4 & g4 & G4 & L4);
      [rewrite (kr_mem _ _ _ K3), T2 by lia; exact T1|exact Hk'|].
    exists s4, g4. split.
    + eapply goes_eq; [intros b; by apply put_mr_parts|]. unfold way_of in *. rewrite <- (proj1 (but_hits_fields _ _ Hb)).
      eapply goes_bind; [apply goes_straight; exact R1|]. eapply goes_bind; [exact G2|].
      eapply goes_bind; [apply goes_straight; exact R3|exact G4].
    + eapply lands_hits; [exact Hb|]. apply (lands_trans _ _ _ m2' _ _ s3); [|exact U13|exact L4].
      intros i. unfold mem_of in *. by rewrite Ew.
  - assert (m1 = m2) as ->.
    { revert Hk. unfold rmw_rest, if_running, get_c, gets, mbind, M_bind, mret, M_ret.
      destruct (i_no_write o); rewrite ?Erun; by intros [= <-]. }
    exists s2, g2. unfold way_of. rewrite Erun. split; [|split; [by exists m2'|by apply (undisturbed_trans _ _ _ m0 _ s1)]].
    eapply goes_eq; [intros b; by apply put_mr_parts|]. eapply goes_bind; [apply goes_straight; exact R1|].
    eapply goes_leave; [exact G2|]. apply emits_some_bind.
    { destruct R3 as (ws & Hw & _). eexists _, _. by apply emits_straight. }
    apply emits_some_bind; [|by eapply emits_op_flags; [apply Ho|apply S3]]. apply emits_some_when.
    unfold put_rmw_save, put_rmw_back. auto 12 with emission.
Qed.
End rmw.
