(* ===== verification/JitShift.v ===== *)
(** Compiled shifts of a register ([put_shift] in [src/jit.c]): the count may be
    zero, then nothing happens; otherwise [rsd_i_shift] in [src/cpu.c] computes
    the result and the flags. *)
From S2P Require Import Prelude.
From S2P Require Import Memory.
From S2P Require Import AddressSpace.
From S2P Require Import Flags.
From S2P Require Import Machine.
From S2P Require Import Access.
From S2P Require Import Registers.
From S2P Require Import A64.
From S2P Require Import Emit.
From S2P Require Import Jit.
From S2P Require Import JitEmit.
From S2P Require Import JitInsn.
From S2P Require Import JitRun.
From S2P Require Import JitFlags.
From S2P Require Import JitRegs.
From S2P Require Import JitLive.
From S2P Require Import JitBlock.
From S2P Require Import JitCode.
From S2P Require Import JitMem.
From S2P Require Import JitRel.
From S2P Require Import JitSem.
From S2P Require Import JitWorld.
From S2P Require Import JitAccess.
From S2P Require Import JitRoutines.
From S2P Require Import JitOps.
From S2P Require Import JitDoes.

(* ------------------------------------------------------------------ *)
(** ** Code that a branch skips *)

(** [body], unless the register [t] is zero. *)
Definition put_unless (t : Z) (body : E unit) : E unit :=
  skip ← here; put (a64_cbz_w t 0);; body;; patch skip (a64_cbz_w t).

Lemma unless_emits chk t body ws fx :
  emits chk body ws fx -> emits chk (put_unless t body) (a64_cbz_w t (1 + len ws) :: ws) (Z.add 1 <$> fx).
Proof.
  intros Hb. pose proof (emits_bind chk (put (a64_cbz_w t 0)) body _ _ _ _ (emits_straight chk _ _ (straight_put _)) Hb) as [C1 C2 C3].
  change ((a64_cbz_w t 0 :: []) ++ ws) with (a64_cbz_w t 0 :: ws) in *. change (len [a64_cbz_w t 0]) with 1 in *. cbn [app] in C2, C3.
  assert (Hsplit : forall b, put_unless t body b = patch (b_n b) (a64_cbz_w t) ((put (a64_cbz_w t 0);; body) b).2).
  { intros b. unfold put_unless, mbind, E_bind, here. destruct (put _ b) as [[] b1]. by destruct (body b1) as [[] b2]. }
  split.
  - intros b Hf. rewrite Hsplit, patch_full. by apply C1.
  - intros b Hc. rewrite Hsplit, patch_full. intros Hf. destruct (C2 b Hc Hf) as [Hf0 ->]. split; [done|].
    by rewrite (patch_run _ (b_out b) ws (a64_cbz_w t 0)).
  - eapply Forall_impl; [exact C3|]. unfold len. cbn. lia.
Qed.

Section unless.
Context {W : Type} (call : Z -> astate -> W -> option (astate * W)) (chk : bool).
#[local] Abbreviation goes := (goes call chk).

Lemma unless_word code t ws n fx out st g :
  xreg t -> placed code (a64_cbz_w t (1 + len ws) :: ws) n (Z.add 1 <$> fx) out ->
  Forall (fun i => 0 <= i < len ws) fx ->
  placed code ws (n + 1) fx out /\
  reaches call code (n, (st, g)) (if u32 (xr st t) =? 0 then n + len (a64_cbz_w t (1 + len ws) :: ws) else n + 1, (st, g)).
Proof.
  intros Ht Hp Hfx. pose proof (placed_inside _ _ _ _ _ Hp ltac:(done)) as Hin. pose proof (pl_len _ _ _ _ _ Hp) as Hlen.
  pose proof (pl_start _ _ _ _ _ Hp) as Hn.
  assert (Hl : len (a64_cbz_w t (1 + len ws) :: ws) = 1 + len ws) by (unfold len; cbn; lia). rewrite Hl in *.
  assert (H0 : 0 <= len ws) by (unfold len; lia).
  destruct (placed_app code [a64_cbz_w t (1 + len ws)] ws n [] fx out) as [P1 P2]; [constructor|done|exact Hp|].
  split; [exact P2|].
  pose proof (reaches_word call code _ n out st st _ g P1 (exec_cbz_w t (1 + len ws) st Ht ltac:(lia))) as Hr.
  destruct (u32 (xr st t) =? 0); exact (Hr I).
Qed.

Lemma goes_skipped t body st g :
  xreg t -> u32 (xr st t) = 0 -> emits_some chk body -> goes (put_unless t body) Through (st, g) (st, g).
Proof.
  intros Ht Hz (ws & fx & He). eexists _, _. split; [by apply unless_emits|]. intros code n out Hp.
  destruct (unless_word code t ws n fx out st g Ht Hp (em_fix _ _ _ _ He)) as [_ Hr]. by rewrite Hz in Hr.
Qed.

Lemma goes_unless t body wy st g s' :
  xreg t -> u32 (xr st t) <> 0 -> goes body wy (st, g) s' -> goes (put_unless t body) wy (st, g) s'.
Proof.
  intros Ht Hz (ws & fx & He & Hb). eexists _, _. split; [by apply unless_emits|]. intros code n out Hp.
  destruct (unless_word code t ws n fx out st g Ht Hp (em_fix _ _ _ _ He)) as [P2 Hr].
  rewrite (proj2 (Z.eqb_neq _ _) Hz) in Hr. eapply reaches_trans; [exact Hr|].
  specialize (Hb code (n + 1) out P2). destruct wy; [|exact Hb]. cbn [arrives] in *.
  replace (n + len (_ :: ws)) with (n + 1 + len ws) by (unfold len; cbn; lia). exact Hb.
Qed.
End unless.

(* ------------------------------------------------------------------ *)
(** ** Shifts *)

Record shift_ok (o : insn) : Prop := {
  hf_kind : i_kind o = K_SHIFT;
  hf_mem : o_mem (i_mo o) = false;
  hf_reg : greg (i_reg o);
  hf_size : i_size o = 1 \/ i_size o = 4 \/ i_size o = 8;
  hf_ext : 4 <= i_ext o < 8
}.

Lemma shift_opsize o : shift_ok o -> opsize (i_size o).
Proof. intros [_ _ _ Hs _]. unfold opsize. lia. Qed.

Lemma shift_width o : (if (if i_size o =? 8 then 63 else 31) =? 63 then 6 else 5) = (if i_size o =? 8 then 6 else 5).
Proof. by destruct (i_size o =? 8). Qed.

Lemma shift_count_range o R : 0 <= shift_count o R < 64.
Proof.
  unfold shift_count. assert (Hx : forall x k, 0 <= k -> 0 <= x .& Z.ones k < 2 ^ k) by (intros; rewrite Z.land_ones by done; apply Z.mod_pos_bound; lia).
  set (x := if i_by_cl o then R 1 else i_imm o).
  assert (H6 : 0 <= x .& 63 < 2 ^ 6) by exact (Hx x 6 ltac:(done)). assert (H5 : 0 <= x .& 31 < 2 ^ 5) by exact (Hx x 5 ltac:(done)).
  destruct (i_size o =? 8); lia.
Qed.

(** A shift depends on the operand's low bits only, and its result has the
    operand's width. *)
Lemma shift_mod fl a a' c size ext :
  opsize size -> uwrap (size * 8) a = uwrap (size * 8) a' -> rsd_i_shift fl a c size ext = rsd_i_shift fl a' c size ext.
Proof.
  intros Hs Ha. pose proof (opsize_width _ Hs). unfold rsd_i_shift. rewrite !(trunc_sz_uwrap _ _ Hs), !(sext_swrap _ _ Hs), Ha.
  by rewrite <- (swrap_uwrap (size * 8) a), Ha, swrap_uwrap by lia.
Qed.

Lemma shift_result_range fl a c size ext : opsize size -> urange (size * 8) (rsd_i_shift fl a c size ext).1.
Proof.
  intros Hs. pose proof (opsize_width _ Hs). unfold rsd_i_shift.
  destruct (if (ext =? 4) || (ext =? 6) then _ else _) as [[r cf] ovf]. cbn [fst]. rewrite trunc_sz_uwrap by done. apply uwrap_range. lia.
Qed.

Section shift.
Context `{HostOS} `{LinkOk} (junk : Z -> Z) (chk : bool).
#[local] Abbreviation goes := (goes (call_c junk) chk).

Definition put_shift_body (o : insn) : E unit :=
  (put_rd_reg A64_X1 o (i_reg o) (i_size o);;
   (if i_by_cl o then put (a64_mov A64_X2 A64_X5) else put_imm A64_X2 (i_imm o .& (if i_size o =? 8 then 63 else 31)));;
   put (a64_mov A64_X0 CPU);;
   put_imm A64_X3 (u64 (i_size o));;
   put_imm A64_X4 (u64 (i_ext o)));;
  (put_call fn_shift;; put_wr_reg A64_X0 o (i_reg o) (i_size o)).

Definition put_count (o : insn) : E unit :=
  put (a64_ldr A64_X5 CPU (off_r 1));; put (a64_ubfx A64_X5 A64_X5 0 (if i_size o =? 8 then 6 else 5)).

Lemma put_shift_parts o rip b :
  shift_ok o ->
  (if i_by_cl o then put_count o;; put_unless A64_X5 (put_shift_body o)
   else if nz (i_imm o .& (if i_size o =? 8 then 63 else 31)) then put_shift_body o else mret tt) b = put_shift o rip b.
Proof.
  intros Ho. unfold put_shift, put_count, put_unless, put_shift_body. rewrite shift_width, (hf_mem _ Ho).
  destruct (i_by_cl o); cbn [negb andb].
  - unfold mbind, E_bind, here, mret, E_ret. destruct (put _ b) as [[] b1]. destruct (put _ b1) as [[] b2]. destruct (put _ b2) as [[] b3].
    destruct (put_rd_reg _ _ _ _ b3) as [[] b4]. destruct (put _ b4) as [[] b5]. destruct (put _ b5) as [[] b6].
    destruct (put_imm _ _ b6) as [[] b7]. destruct (put_imm _ _ b7) as [[] b8]. destruct (put_call _ b8) as [[] b9].
    destruct (put_wr_reg _ _ _ _ b9) as [[] b10]. rewrite (proj2 (Z.leb_le 0 (b_n b2))) by (unfold b_n; lia). cbn [ewhen]. by destruct (patch _ _ b10) as [[] b11].
  - destruct (nz _); cbn [negb]; [|done].
    unfold mbind, E_bind, mret, E_ret. destruct (put_rd_reg _ _ _ _ b) as [[] b4]. destruct (put_imm _ _ b4) as [[] b5]. destruct (put _ b5) as [[] b6].
    destruct (put_imm _ _ b6) as [[] b7]. destruct (put_imm _ _ b7) as [[] b8]. destruct (put_call _ b8) as [[] b9].
    by destruct (put_wr_reg _ _ _ _ b9) as [[] b10].
Qed.

(** The arguments of the routine. *)
Lemma run_shift_args base R fl o c st :
  shift_ok o -> cpu_at base R fl st -> shift_count o R = c -> (i_by_cl o = true -> xr st 5 = c) ->
  exists st', emit_runs (put_rd_reg A64_X1 o (i_reg o) (i_size o);;
    (if i_by_cl o then put (a64_mov A64_X2 A64_X5) else put_imm A64_X2 (i_imm o .& (if i_size o =? 8 then 63 else 31)));;
    put (a64_mov A64_X0 CPU);; put_imm A64_X3 (u64 (i_size o));; put_imm A64_X4 (u64 (i_ext o))) tt st st' /\
    xr st' 0 = base /\ uwrap (i_size o * 8) (xr st' 1) = reg_rd (i_has_rex o) R (i_reg o) (i_size o) /\ xr st' 2 = c /\
    xr st' 3 = i_size o /\ xr st' 4 = i_ext o /\ keeps_regs [0; 1; 2; 3; 4] st st'.
Proof.
  intros Ho Hc Hcount H5. pose proof (shift_opsize _ Ho) as Hsz. pose proof (shift_count_range o R) as Hr. rewrite Hcount in Hr.
  assert (Hc64 : urange 64 c) by (unfold urange; lia). assert (Hz64 : urange 64 (i_size o)) by (unfold urange, opsize in *; lia).
  assert (He64 : urange 64 (i_ext o)) by (pose proof (hf_ext _ Ho); unfold urange; lia).
  destruct (run_rd_reg base R fl o 1 (i_reg o) (i_size o) st Hc) as (s1 & R1 & V1 & U1 & K1); [apply Ho|done..|].
  assert (E2 : exists s2, emit_runs (if i_by_cl o then put (a64_mov A64_X2 A64_X5) else put_imm A64_X2 (i_imm o .& (if i_size o =? 8 then 63 else 31))) tt s1 s2 /\
    xr s2 2 = c /\ keeps_regs [2] s1 s2).
  { revert Hcount. unfold shift_count. destruct (i_by_cl o); intros Hcount.
    - exists (set_x 2 c s1). split; [|split; [by rewrite xr_set_x|apply keeps_regs_set; by left]].
      apply run_put. rewrite exec_mov by done. by rewrite (kr_x _ _ _ K1), H5, uwrap_small by (done || cbn; lia).
    - rewrite Hcount. by apply run_imm. }
  destruct E2 as (s2 & R2 & V2 & K2). set (s3 := set_x 0 base s2).
  assert (X19 : xr s2 19 = base) by (rewrite (kr_x _ _ _ K2), (kr_x _ _ _ K1) by (cbn; lia); apply Hc).
  assert (Hb64 : urange 64 base) by (pose proof (ac_range _ _ _ (ca_at _ _ _ _ Hc)); unfold urange; lia).
  destruct (run_imm 3 (u64 (i_size o)) s3) as (s4 & R4 & V4 & K4); [done|done|by apply uwrap_range|]. rewrite uwrap_small in V4 by done.
  destruct (run_imm 4 (u64 (i_ext o)) s4) as (s5 & R5 & V5 & K5); [done|done|by apply uwrap_range|]. rewrite uwrap_small in V5 by done.
  exists s5. split; [|split_and!].
  - eapply run_bind; [exact R1|]. eapply run_bind; [exact R2|]. eapply run_put_bind; [|by eapply run_bind].
    rewrite exec_mov by done. by rewrite X19, uwrap_small.
  - rewrite (kr_x _ _ _ K5), (kr_x _ _ _ K4) by (cbn; lia). unfold s3. by rewrite xr_set_x.
  - rewrite (kr_x _ _ _ K5), (kr_x _ _ _ K4) by (cbn; lia). unfold s3. rewrite xr_set_x. cbn [Z.eqb Pos.eqb andb]. by rewrite (kr_x _ _ _ K2) by (cbn; lia).
  - rewrite (kr_x _ _ _ K5), (kr_x _ _ _ K4) by (cbn; lia). unfold s3. by rewrite xr_set_x.
  - by rewrite (kr_x _ _ _ K5) by (cbn; lia).
  - done.
  - assert (Hsub : forall l s s', incl l [0; 1; 2; 3; 4] -> keeps_regs l s s' -> keeps_regs [0; 1; 2; 3; 4] s s').
    { intros l s s' Hl K. eapply keeps_regs_sub; [exact K|exact Hl]. }
    eapply keeps_regs_trans; [eapply Hsub; [|exact K1]; intros x; cbn; tauto|].
    eapply keeps_regs_trans; [eapply Hsub; [|exact K2]; intros x; cbn; tauto|].
    eapply keeps_regs_trans; [apply (keeps_regs_set _ 0 base); cbn; tauto|].
    eapply keeps_regs_trans; [eapply Hsub; [|exact K4]; intros x; cbn; tauto|].
    eapply Hsub; [|exact K5]; intros x; cbn; tauto.
Qed.

(** The routine, on a machine in memory. *)
Lemma shift_routine_run a c size ext m :
  opsize size -> let r := rsd_i_shift (c_flags (m_c m)) a c size ext in
  shift_routine a c size ext m = Ok r.1 (upd_m (with_flags r.2) m).
Proof.
  intros Hs r. unfold shift_routine, get_c, gets, mbind, M_bind. rewrite s32_opsize by done.
  fold r. by destruct r.
Qed.

Lemma shift_body_goes o c base asp m s g :
  shift_ok o -> as_inv (m_as m) -> sim base asp m s g -> shift_count o (reg m) = c -> nz c = true ->
  (i_by_cl o = true -> xr s 5 = c) ->
  let r := ref_shift o (reg m, c_flags (m_c m)) in
  exists s' g', goes (put_shift_body o) Through (s, g) (s', g') /\ lands base asp m (set_gpr r.1 r.2 m) s s' g'.
Proof.
  intros Ho Hi Hs Hc Hz H5 r. pose proof (shift_opsize _ Ho) as Hsz.
  destruct (run_shift_args base _ _ o c s Ho (si_cpu _ _ _ _ _ Hs) Hc H5) as (s1 & R1 & X0 & X1 & X2 & X3 & X4 & K1).
  assert (S1 : sim base asp m s1 g) by (eapply sim_ext; [exact Hs|apply K1|apply (kr_x _ _ _ K1); cbn; lia]).
  set (q := rsd_i_shift (c_flags (m_c m)) (xr s1 1) c (i_size o) (i_ext o)). set (m' := upd_m (with_flags q.2) m).
  destruct (goes_c_call junk chk fn_shift base asp m s1 g (shift_routine (xr s1 1) c (i_size o) (i_ext o)) q.1 m' S1 X0)
    as (s2 & G2 & S2 & V2 & U2 & _); [by rewrite X2, X3, X4|by apply shift_routine_run|by eapply flag_word_keeps|].
  assert (Hq : q.1 = xr s2 0) by done. pose proof (shift_result_range (c_flags (m_c m)) (xr s1 1) c (i_size o) (i_ext o) Hsz) as Hqr. fold q in Hqr.
  assert (Hq64 : urange 64 q.1) by (eapply urange_mono; [|exact Hqr]; pose proof (opsize_width _ Hsz); lia).
  destruct (run_wr_reg base _ _ o 0 (i_reg o) (i_size o) s2 (si_cpu _ _ _ _ _ S2)) as (s3 & R3 & C3 & K3 & _);
    [apply Ho|done|done|apply Ho|by rewrite V2|by rewrite V2|]. rewrite V2 in C3.
  destruct (sim_cpu_at base asp m' s2 m' _ _ s3 S2 C3 K3) as [S3 U3].
  exists s3, m'. split; [|split].
  - unfold put_shift_body. eapply goes_bind; [apply goes_straight; exact R1|]. eapply goes_bind; [exact G2|apply goes_straight; exact R3].
  - eexists. split; [exact S3|]. split; [|exact Hi].
    assert (Eq : rsd_i_shift (c_flags (m_c m)) (reg_rd (i_has_rex o) (reg m) (i_reg o) (i_size o)) c (i_size o) (i_ext o) = q).
    { apply shift_mod; [done|]. rewrite <- X1. pose proof (opsize_width _ Hsz). by apply uwrap_uwrap; lia. }
    assert (Er : r = (reg_wr (i_has_rex o) (reg m) (i_reg o) q.1 (i_size o), q.2)).
    { unfold r, ref_shift. cbn [fst snd]. rewrite Hc, Hz, Eq. by destruct q. }
    rewrite Er. unfold set_gpr, m', upd_m. cbn -[seqZ uwrap]. unfold with_flags. cbn -[seqZ uwrap]. by rewrite uwrap_uwrap.
  - apply (undisturbed_trans _ _ _ m _ s1); [done|apply undisturbed_ext; try apply K1; intros n Hn _; apply (kr_x _ _ _ K1); cbn; lia|].
    apply (undisturbed_trans _ _ _ m' _ s2); [done|exact U2|exact U3].
Qed.

Lemma run_count base R fl o st :
  shift_ok o -> i_by_cl o = true -> cpu_at base R fl st ->
  exists st', emit_runs (put_count o) tt st st' /\ xr st' 5 = shift_count o R /\ keeps_regs [5] st st'.
Proof.
  intros Ho Hcl Hc. set (s1 := set_x 5 (R 1) st). set (w := if i_size o =? 8 then 6 else 5).
  exists (set_x 5 (bits (xr s1 5) 0 w) s1). split; [|split].
  - eapply run_put_bind; [eapply run_ldr_reg; [exact Hc|unfold greg; lia|done]|]. apply run_put, exec_ubfx; try done; by unfold w; destruct (i_size o =? 8).
  - unfold s1. rewrite !xr_set_x. cbn [Z.eqb Pos.eqb andb negb]. unfold bits, shift_count, w. rewrite Hcl, Z.shiftr_0_r. by destruct (i_size o =? 8).
  - eapply keeps_regs_trans; apply keeps_regs_set; by left.
Qed.

(** Reading the operand, and writing the result, is code wherever it lies. *)
Lemma emits_shift_body base R fl o st : shift_ok o -> cpu_at base R fl st -> emits_some chk (put_shift_body o).
Proof.
  intros Ho Hc. pose proof (shift_opsize _ Ho) as Hsz.
  destruct (run_shift_args base R fl o (shift_count o R) (set_x 5 (shift_count o R) st) Ho) as (s1 & (ws & Hw & _) & _);
    [by apply cpu_at_set|done|by intros _; rewrite xr_set_x|].
  destruct (run_wr_reg base R fl o 0 (i_reg o) (i_size o) (set_x 0 0 st)) as (s2 & (ws2 & Hw2 & _) & _);
    [by apply cpu_at_set|apply Ho|done|done|apply Ho|by rewrite xr_set_x|rewrite xr_set_x; intros _; pose proof (opsize_width _ Hsz); unfold urange; cbn; lia|].
  unfold put_shift_body. apply emits_some_bind; [eexists _, _; by apply emits_straight|].
  apply emits_some_bind; [apply emits_some_call|eexists _, _; by apply emits_straight].
Qed.

Lemma emits_shift base R fl o rip st : shift_ok o -> cpu_at base R fl st -> emits_some chk (put_shift o rip).
Proof.
  intros Ho Hc. destruct (emits_shift_body base R fl o st Ho Hc) as (ws & fx & He).
  enough (emits_some chk (if i_by_cl o then put_count o;; put_unless A64_X5 (put_shift_body o)
    else if nz (i_imm o .& (if i_size o =? 8 then 63 else 31)) then put_shift_body o else mret tt)) as (ws2 & fx2 & E2).
  { exists ws2, fx2. eapply emits_eq; [|exact E2]. intros b. by apply put_shift_parts. }
  destruct (i_by_cl o).
  - apply emits_some_bind; [unfold put_count; auto with emission|]. eexists _, _. by apply unless_emits.
  - destruct (nz _); [by exists ws, fx|apply emits_some_ret].
Qed.

(** A shift compiles to what it means, by nothing included. *)
Lemma does_shift o rip : shift_ok o -> does junk chk (put_shift o rip) (insn_sem needed_flags o rip).
Proof.
  intros Ho base asp m st g m1 Hr Hs Hm.
  assert (Hsem : insn_sem needed_flags o rip m = then_regs needed_flags o (ref_shift o) m).
  { apply insn_sem_regs; [apply Hr|]. unfold mem_part. by rewrite (hf_kind _ Ho). }
  rewrite Hsem in Hm. injection Hm as <-. set (r := ref_shift o (reg m, c_flags (m_c m))).
  assert (Hn : needed_flags o (c_flags (m_c m)) r.2 = r.2).
  { unfold needed_flags, computed, by_routine. rewrite (hf_kind _ Ho). apply Z.bits_inj'. intros i Hi. by rewrite merge_bit, Z.bits_m1. }
  rewrite Hn. unfold way_of. cbn [set_gpr upd_m m_c c_running with_flags with_r]. rewrite (rd_run _ _ Hr).
  assert (Hnone : nz (shift_count o (reg m)) = false -> set_gpr r.1 r.2 m = m).
  { intros Hz. unfold r, ref_shift. cbn [fst snd]. rewrite Hz. by eapply sim_same. }
  assert (Hstay : forall s, keeps_regs [5] st s -> sim base asp m s g /\ undisturbed base asp m st s).
  { intros s K. split; [eapply sim_ext; [exact Hs|apply K|apply (kr_x _ _ _ K); cbn; lia]|].
    apply undisturbed_ext; try apply K. intros n Hn5 _. apply (kr_x _ _ _ K). cbn. lia. }
  assert (Hcode : exists s' g', goes (if i_by_cl o then put_count o;; put_unless A64_X5 (put_shift_body o)
      else if nz (i_imm o .& (if i_size o =? 8 then 63 else 31)) then put_shift_body o else mret tt) Through (st, g) (s', g') /\
    lands base asp m (set_gpr r.1 r.2 m) st s' g').
  { destruct (i_by_cl o) eqn:Hcl.
    - destruct (run_count base _ _ o st Ho Hcl (si_cpu _ _ _ _ _ Hs)) as (s1 & R1 & X5 & K1). destruct (Hstay s1 K1) as [S1 U1].
      pose proof (shift_count_range o (reg m)) as Hrange. assert (Hu : u32 (xr s1 5) = shift_count o (reg m)) by (rewrite X5; apply uwrap_small; unfold urange; lia).
      destruct (nz (shift_count o (reg m))) eqn:Hz.
      + destruct (shift_body_goes o _ base asp m s1 g Ho (rd_as _ _ Hr) S1 eq_refl Hz ltac:(done)) as (s2 & g2 & G2 & L2).
        exists s2, g2. split; [|eapply lands_trans; [done|exact U1|exact L2]].
        eapply goes_bind; [apply goes_straight; exact R1|]. apply goes_unless; [done| |exact G2].
        rewrite Hu. unfold nz in Hz. by destruct (Z.eqb_spec (shift_count o (reg m)) 0).
      + exists s1, g. rewrite Hnone by done. split; [|split; [|exact U1]; exists m; split; [exact S1|split; [done|apply Hr]]].
        eapply goes_bind; [apply goes_straight; exact R1|]. apply goes_skipped; [done| |by eapply emits_shift_body; [|apply Hs]].
        rewrite Hu. unfold nz in Hz. by destruct (Z.eqb_spec (shift_count o (reg m)) 0).
    - assert (Hcount : shift_count o (reg m) = i_imm o .& (if i_size o =? 8 then 63 else 31)) by (unfold shift_count; by rewrite Hcl).
      rewrite <- Hcount. destruct (nz (shift_count o (reg m))) eqn:Hz.
      + apply (shift_body_goes o (shift_count o (reg m))); try done; [apply Hr|by rewrite Hcl].
      + exists st, g. rewrite Hnone by done. split; [apply goes_straight, run_ret|]. destruct (Hstay st (keeps_regs_refl _ _)) as [S1 U1].
        split; [|exact U1]. exists m. split; [exact S1|]. split; [done|apply Hr]. }
  destruct Hcode as (s' & g' & G & L). exists s', g'. split; [|exact L]. eapply goes_eq; [|exact G]. intros b. by apply put_shift_parts.
Qed.
End shift.
