(* ===== verification/JitWhole.v ===== *)
(** Compiled blocks that load and store ([put_insn], [rsd_jit_lookup] in
    [src/jit.c]): from entry to return, running the emitted words leaves what
    the block's instructions leave, and a faulting access leaves for the
    interpreter at the instruction that made it. *)
From S2P Require Import Prelude.
From S2P Require Import Memory.
From S2P Require Import AddressSpace.
From S2P Require Import Flags.
From S2P Require Import Machine.
From S2P Require Import Access.
From S2P Require Import Decode.
From S2P Require Import Registers.
From S2P Require Import Keeps.
From S2P Require Import A64.
From S2P Require Import Emit.
From S2P Require Import Jit.
From S2P Require Import JitEmit.
From S2P Require Import JitInsn.
From S2P Require Import JitCache.
From S2P Require Import JitRun.
From S2P Require Import JitFlags.
From S2P Require Import JitRegs.
From S2P Require Import JitLive.
From S2P Require Import JitBlock.
From S2P Require Import JitCompile.
From S2P Require Import JitCode.
From S2P Require Import JitRel.
From S2P Require Import JitSem.
From S2P Require Import JitMem.
From S2P Require Import JitWorld.
From S2P Require Import JitAccess.
From S2P Require Import JitRoutines.
From S2P Require Import JitOps.
From S2P Require Import JitDoes.
From S2P Require Import JitRmw.
From S2P Require Import JitShift.

(** An instruction whose code is proved: on registers, or with an operand in
    memory. *)
Definition mem_insn (o : insn) : Prop :=
  match i_kind o with
  | K_RR | K_RI => alu_ok o
  | K_SHIFT => shift_ok o
  | K_RM => rm_ok o
  | K_MR | K_MI => if i_op o =? 0x88 then mov_ok o else rmw_ok o
  | K_PUSH | K_POP => stack_ok o
  | K_MOVX => if o_mem (i_mo o) then movxm_ok o else movx_ok o
  | K_IMUL => if o_mem (i_mo o) then imulm_ok o else imul_ok o
  | K_SETCC => if o_mem (i_mo o) then setccm_ok o else setcc_ok o
  | _ => reg_insn o
  end.

Lemma mem_insn_covers o : mem_insn o -> sem_covers o.
Proof.
  unfold mem_insn, sem_covers. destruct (i_kind o) eqn:Hk; try done;
    try (intros Ho; apply reg_insn_covers in Ho; exact Ho).
  1,2: intros Ho; unfold reg_covers; rewrite Hk; split; [by apply alu_opsize|apply Ho].
  - intros Ho. split; [apply op_opsize, Ho|apply Ho].
  - destruct (Z.eqb_spec (i_op o) 0x88) as [E|E]; intros Ho; [|split; [apply op_opsize, Ho|apply Ho]].
    split; [apply Ho|]. by rewrite E.
  - destruct (Z.eqb_spec (i_op o) 0x88) as [E|E]; intros Ho; [|split; [apply op_opsize, Ho|apply Ho]].
    split; [apply Ho|]. by rewrite E.
  - intros _. unfold reg_covers. by rewrite Hk.
  - apply shift_opsize.
  - unfold reg_covers. rewrite Hk. destruct (o_mem _); intros Ho; pose proof Ho as [? ? ? ? ? ? ?] || pose proof Ho as [? ? ? ? ? ?]; unfold opsize; lia.
  - unfold reg_covers. rewrite Hk. destruct (o_mem _); by intros [].
Qed.

Section whole.
Context `{HostOS} `{LinkOk} (junk : Z -> Z) (chk : bool).
#[local] Abbreviation goes := (goes (call_c junk) chk).
#[local] Abbreviation does := (does junk chk).
#[local] Abbreviation ready := (ready chk).

(* ------------------------------------------------------------------ *)
(** ** Instructions *)

Lemma does_reg o rip : reg_insn o -> i_fneed o .& .~ flags_written o = 0 ->
  (forall m, mem_part o rip m = Ok (fun s => reg_sem o s.1 s.2) m) -> does (put_insn o rip) (insn_sem needed_flags o rip).
Proof.
  intros Ho Hn Hp. eapply does_eq; [done| |apply (does_regs junk chk (put_insn o rip) o (fun s => reg_sem o s.1 s.2))].
  - intros m Hr. apply insn_sem_regs; [apply Hr|apply Hp].
  - intros s. rewrite reg_insn_computed by done. by apply run_insn.
Qed.

Lemma does_insn o rip :
  mem_insn o -> i_fneed o .& .~ flags_written o = 0 -> urange 64 rip -> does (put_insn o rip) (insn_sem needed_flags o rip).
Proof.
  intros Ho Hn Hrip.
  assert (Hreg : reg_insn o -> (forall m, mem_part o rip m = Ok (fun s => reg_sem o s.1 s.2) m) ->
    does (put_insn o rip) (insn_sem needed_flags o rip)) by (intros; by apply does_reg).
  unfold mem_insn, reg_insn, mem_part, put_insn in *. destruct (i_kind o) eqn:Hk; try done; try (by apply Hreg).
  1,2: eapply does_eq; [done| |by apply (does_rr junk chk o)]; intros m Hr; rewrite (insn_sem_regs _ _ _ (fun s => reg_sem o s.1 s.2)); [|apply Hr|unfold mem_part; by rewrite Hk];
    unfold then_regs, reg_sem; by rewrite Hk.
  - by apply does_rm.
  - destruct (i_op o =? 0x88); [by apply does_mov|by apply does_rmw].
  - destruct (i_op o =? 0x88); [by apply does_mov|by apply does_rmw].
  - by apply does_push.
  - by apply does_pop.
  - destruct (o_mem (i_mo o)); [by apply does_movx|by apply Hreg].
  - by apply does_shift.
  - destruct (o_mem (i_mo o)); [by apply does_imul|by apply Hreg].
  - destruct (o_mem (i_mo o)); [by apply does_setcc|by apply Hreg].
Qed.

Lemma straight_some e ws : straight e tt ws -> emits_some chk e.
Proof. intros Hs. eexists _, _. by apply emits_straight. Qed.
Lemma runs_some e st st' : emit_runs e tt st st' -> emits_some chk e.
Proof. intros (ws & Hs & _). by eapply straight_some. Qed.

Lemma emits_some_ea o : emits_some chk (put_ea o).
Proof.
  unfold put_ea. repeat case_match; repeat first [apply emits_some_put|apply emits_some_imm|apply emits_some_when
    |apply emits_some_ret|apply emits_some_bind].
Qed.
Lemma emits_some_set_rip rip : emits_some chk (put_set_rip rip).
Proof. unfold put_set_rip. auto with emission. Qed.
Lemma emits_some_rd_reg d o r size : emits_some chk (put_rd_reg d o r size).
Proof. unfold put_rd_reg. case_match; auto with emission. Qed.
#[local] Hint Resolve emits_some_ea emits_some_set_rip emits_some_rd_reg : emission.

(** The code of an instruction is there whether or not it is reached. *)
Lemma emits_insn base R fl st o rip :
  mem_insn o -> i_fneed o .& .~ flags_written o = 0 -> cpu_at base R fl st -> emits_some chk (put_insn o rip).
Proof.
  intros Ho Hn Hc. set (s0 := set_x 0 0 st). assert (C0 : cpu_at base R fl s0) by (by apply cpu_at_set).
  assert (V0 : xr s0 A64_X0 = 0) by (unfold s0; by rewrite xr_set_x).
  assert (Hreg : reg_insn o -> emits_some chk (put_insn o rip)).
  { intros Hr. destruct (run_insn o rip (R, fl) Hr Hn base st Hc) as (s' & Hrun & _). by eapply runs_some. }
  assert (Hrmw : rmw_ok o -> emits_some chk (put_mr o rip)).
  { intros Hr. destruct (run_rmw_op junk base R fl o 0 s0 Hr C0 V0) as (s1 & R1 & Hv & K1); [done|].
    assert (C1 : cpu_at base R fl s1) by (eapply cpu_at_regs; [|exact K1|exact C0]; by repeat constructor).
    pose proof (fun b => put_mr_parts o rip b Hr) as He. pose proof (runs_some _ _ _ R1) as E1.
    pose proof (emits_op_flags chk base R fl o s1 (wo_op _ Hr) C1) as E2.
    assert (emits_some chk (((put_set_rip rip;; put_ea o);; put (a64_str A64_X1 CPU (off_tmp 0)));;
      (put_load (i_size o);; (put_rmw_op o;; (ewhen (negb (i_no_write o)) (put_rmw_save;; (put_store (i_size o);; put_rmw_back));;
        put_flags o (op_helper (i_op o)) (i_size o)))))) as (ws & fx & E3).
    { assert (E4 : emits_some chk (put_rmw_save;; (put_store (i_size o);; put_rmw_back))) by (unfold put_rmw_save, put_rmw_back; auto 12 with emission).
      auto 12 with emission. }
    exists ws, fx. by eapply emits_eq. }
  assert (Hmr : i_op o = 0x88 -> emits_some chk (put_mr o rip)).
  { intros E. unfold put_mr. rewrite E. cbn [Z.eqb Pos.eqb].
    repeat apply emits_some_bind; try (auto with emission; fail). case_bool_decide; auto with emission. }
  unfold mem_insn, reg_insn, put_insn in *. destruct (i_kind o) eqn:Hk; try done; try (by apply Hreg).
  1,2: destruct (run_operands base R fl o st Ho Hc) as (s1 & R1 & _); pose proof (runs_some _ _ _ R1) as E1;
    destruct (emits_some_bind _ _ _ E1 (emits_op_reg chk base R fl o st (alu_op_ok o Ho) Hc)) as (ws & fx & E2);
    exists ws, fx; eapply emits_eq; [|exact E2]; apply put_rr_parts.
  - unfold put_rm. do 3 (apply emits_some_bind; [auto with emission|]). by apply (emits_rm_op junk chk base R fl o s0).
  - destruct (Z.eqb_spec (i_op o) 0x88); auto.
  - destruct (Z.eqb_spec (i_op o) 0x88); auto.
  - unfold put_push, put_grow_stack. auto 12 with emission.
  - unfold put_pop, put_shrink_stack. auto 12 with emission.
  - destruct (o_mem (i_mo o)) eqn:Em; [|by apply Hreg]. unfold put_movx. rewrite Em. auto 12 with emission.
  - by eapply emits_shift.
  - destruct (o_mem (i_mo o)) eqn:Em; [|by apply Hreg]. pose proof Ho as [_ _ _ Hg Hs Hi Hnd].
    destruct (run_mul_tail base R fl o (xr s0 1) s0 Hg Hs Hi Hnd C0 eq_refl) as (s1 & R1 & _). pose proof (runs_some _ _ _ R1) as E1.
    unfold put_imul, put_src. rewrite Em. apply emits_some_bind; [auto 12 with emission|exact E1].
  - destruct (o_mem (i_mo o)) eqn:Em; [|by apply Hreg]. pose proof Ho as [_ _ _ Hcc].
    destruct (run_cond_even base fl (i_cc o) st (ca_at _ _ _ _ Hc) Hcc) as (s1 & R1 & _). pose proof (runs_some _ _ _ R1) as E1.
    unfold put_setcc. rewrite Em. auto 12 with emission.
Qed.

Definition needed (v : list insn) : Prop := Forall (fun o => mem_insn o /\ i_fneed o .& .~ flags_written o = 0) v.

Lemma emits_block base R fl st v rip : needed v -> cpu_at base R fl st -> emits_some chk (put_block v rip).
Proof.
  intros Hv Hc. revert rip. induction v as [|o v IH]; intros rip; cbn [put_block]; [apply emits_some_ret|].
  apply Forall_cons in Hv as [[Ho Hn] Hv]. apply emits_some_bind; [by eapply emits_insn|]. by apply IH.
Qed.

(* ------------------------------------------------------------------ *)
(** ** Blocks *)

(** The log stays closed, and no byte appears. *)
Lemma insn_sem_quiet keep o rip m m1 :
  insn_sem keep o rip m = Ok tt m1 ->
  (c_wlog (m_c m) = None -> c_wlog (m_c m1) = None) /\ forall i, is_Some (mem_of m1 !! i) -> is_Some (mem_of m !! i).
Proof.
  unfold insn_sem. intros (f & m2 & [_ Hq Hd]%quiet_mem_part & Hk)%bind_ok. revert Hk.
  unfold if_running, get_c, gets, mbind, M_bind. by destruct (c_running (m_c m2)); intros [= <-].
Qed.

(** The addresses of a block's instructions. *)
Fixpoint in_reach (v : list insn) (rip : Z) : Prop :=
  match v with
  | [] => True
  | o :: v => urange 64 rip /\ in_reach v (i_next o)
  end.

Lemma does_block v rip : needed v -> in_reach v rip -> does (put_block v rip) (block_sem needed_flags v rip).
Proof.
  revert rip. induction v as [|o v IH]; intros rip Hv Hreach base asp m st g m1 Hr Hs; cbn [block_sem put_block].
  { intros [= <-]. exists st, g. unfold way_of. rewrite (rd_run _ _ Hr). split; [apply goes_straight, run_ret|].
    split; [|apply undisturbed_refl]. exists m. split; [done|]. split; [done|apply Hr]. }
  apply Forall_cons in Hv as [[Ho Hn] Hv]. destruct Hreach as [Hrip Hreach]. intros ([] & m2 & Hm2 & Hk)%bind_ok.
  destruct (does_insn o rip Ho Hn Hrip base asp m st g m2 Hr Hs Hm2) as (s2 & g2 & G2 & [(m2' & S2 & B2 & I2) U2]).
  destruct (but_hits_fields _ _ B2) as (Ec & Ew & _). destruct (insn_sem_quiet _ _ _ _ _ Hm2) as [Hlog Hdom].
  unfold if_running, get_c, gets, mbind, M_bind in Hk. unfold way_of in *. destruct (c_running (m_c m2)) eqn:Erun.
  - pose proof (respects_block_sem needed_flags v (i_next o) m2' m2 B2) as Hrel. rewrite Hk in Hrel.
    destruct (block_sem needed_flags v (i_next o) m2') as [[] m1'|] eqn:Hk'; [|done]. destruct Hrel as [_ Hb].
    assert (Hr2 : ready m2').
    { split; [exact I2|by rewrite Ec|]. intros Hchk. rewrite Ec. by apply Hlog, Hr. }
    destruct (IH (i_next o) Hv Hreach base asp m2' s2 g2 m1' Hr2 S2 Hk') as (s3 & g3 & G3 & L3).
    exists s3, g3. split.
    + eapply goes_bind; [exact G2|]. by rewrite <- (proj1 (but_hits_fields _ _ Hb)).
    + eapply lands_hits; [exact Hb|]. apply (lands_trans _ _ _ m2' _ _ s2); [|exact U2|exact L3].
      intros i. unfold mem_of in *. rewrite Ew. apply Hdom.
  - injection Hk as <-. exists s2, g2. rewrite Erun. split; [|split; [by exists m2'|exact U2]].
    eapply goes_leave; [exact G2|]. eapply emits_block; [exact Hv|apply S2].
Qed.
End whole.
