(* ===== verification/JitDecode.v ===== *)
(** The compiler's decoder against the interpreter, on operands in memory
    ([modrm_mem] and [decode] in [src/jit.c], [modrm] and [step] in
    [src/cpu.c]): what the compiler takes an instruction for, and compiles, is
    what the interpreter does for the same bytes. *)
From S2P Require Import Prelude.
From S2P Require Import Memory.
From S2P Require Import AddressSpace.
From S2P Require Import SampleHost.
From S2P Require Import Flags.
From S2P Require Import Float.
From S2P Require Import Machine.
From S2P Require Import Access.
From S2P Require Import Decode.
From S2P Require Import Sse.
From S2P Require Import Step.
From S2P Require Import Keeps.
From S2P Require Import Safety.
From S2P Require Import Registers.
From S2P Require Import Encoding.
From S2P Require Import Jit.
From S2P Require Import JitEmit.
From S2P Require Import JitFlags.
From S2P Require Import JitRegs.
From S2P Require Import JitLive.
From S2P Require Import JitBlock.
From S2P Require Import JitAgree.
From S2P Require Import JitRel.
From S2P Require Import JitSem.
From S2P Require Import JitCode.
From S2P Require Import JitMem.
From S2P Require Import JitWorld.
From S2P Require Import JitAccess.
From S2P Require Import JitRoutines.
From S2P Require Import JitOps.
From S2P Require Import JitDoes.
From S2P Require Import JitRmw.
From S2P Require Import JitWhole.

Section operands.
Context `{HostOS}.

(* ------------------------------------------------------------------ *)
(** ** The operand *)

(** The registers of an operand that REX extends. *)
Definition arg_base (a : arg) : Z :=
  match a with AReg r => r | AMem (Some b) _ _ => b | _ => 0 end.
Definition arg_index (a : arg) : Z :=
  match a with AMem _ (Some (i, _)) _ => i | _ => 0 end.

(** What [modrm_mem] should make of an operand in memory. *)
Definition memop_of (a : arg) : memop :=
  match a with
  | AReg _ => MemOp false false false false 0 0 0 0
  | ARip disp => MemOp true false false true 0 0 0 disp
  | AMem base index disp =>
      MemOp true (bool_decide (is_Some base)) (bool_decide (is_Some index)) false (default 0 base)
        (default 0 (fst <$> index)) (default 0 (snd <$> index)) disp
  end.

Definition in_memory (a : arg) : Prop := match a with AReg _ => False | _ => True end.

Lemma rd32_run p n m v : code_at m (p + n) (le_bytes 4 v) -> Jit.rd32 p n m = Ok (u32 v, n + 4) m.
Proof.
  intros Hc. unfold Jit.rd32. rewrite (bind_run _ _ _ (u32 v) m); [done|]. apply host_read_ok. split; [done|].
  exists (le_bytes 4 v). split; [exact Hc|]. by rewrite le_val_bytes.
Qed.

Lemma s64_signed w z : 0 < w <= 64 -> signed w z -> s64 z = z.
Proof.
  intros Hw Hz. unfold signed in *. assert (2 ^ (w - 1) <= 2 ^ 63) by (apply Z.pow_le_mono_r; lia). apply swrap_small; lia.
Qed.

Lemma add_disp_run mod_ disp mem hb hi rr b i s p n m :
  disp_ok mod_ disp -> code_at m (p + n) (disp_bytes mod_ disp) ->
  add_disp p n mod_ (MemOp mem hb hi rr b i s 0) m =
  Ok (n + Z.of_nat (length (disp_bytes mod_ disp)), MemOp mem hb hi rr b i s disp) m.
Proof.
  intros [[-> ->]|[[-> Hs]|[-> Hs]]] Hc; unfold add_disp, disp_bytes in *; cbn [Z.eqb Pos.eqb] in *.
  - cbn. by rewrite Z.add_0_r.
  - change (le_bytes 1 disp) with [u8 disp] in Hc. rewrite (bind_run _ _ _ _ _ (rd8_run _ _ _ _ Hc)). cbv beta iota.
    cbn [o_disp o_mem o_has_base o_has_index o_riprel o_base o_index o_scale]. rewrite signed_u by (done || lia).
    by rewrite Z.add_0_l, (s64_signed 8) by (done || lia).
  - rewrite (bind_run _ _ _ _ _ (rd32_run _ _ _ _ Hc)). cbv beta iota.
    cbn [o_disp o_mem o_has_base o_has_index o_riprel o_base o_index o_scale]. rewrite signed_u by (done || lia).
    by rewrite Z.add_0_l, (s64_signed 32) by (done || lia).
Qed.

(** A SIB byte's fields. *)
Lemma sib_parts index b rex :
  index_ok index -> rex_ext rex 2 = match index with Some (i, _) => i / 8 * 8 | None => 0 end ->
  let sib := sib_byte index b in
  sib .& 7 = b mod 8 /\
  (if ((sib >> 3) .& 7) .| rex_ext rex 2 =? 4 then (false, 0, 0) else (true, ((sib >> 3) .& 7) .| rex_ext rex 2, sib >> 6)) =
  (bool_decide (is_Some index), default 0 (fst <$> index), default 0 (snd <$> index)).
Proof.
  intros Hi Hx sib. subst sib. destruct index as [[i s]|]; cbn [index_ok sib_byte] in *; rewrite Hx.
  - destruct Hi as (Hr & Hn & Hs). destruct (modrm_fields s i b Hs) as (-> & -> & ->). split; [done|].
    rewrite reg_halves by done. by rewrite (proj2 (Z.eqb_neq i 4)) by done.
  - destruct (modrm_fields 0 4 b ltac:(lia)) as (-> & -> & ->). by split.
Qed.

(** The compiler's operand decoder reads back what the manual's encoding
    writes. *)
Lemma modrm_mem_decodes mod_ g a rex p n m :
  in_memory a -> reg_num g -> arg_ok mod_ a ->
  rex_ext rex 2 = arg_index a / 8 * 8 -> rex_ext rex 1 = arg_base a / 8 * 8 ->
  exists hd tl, encode_arg g mod_ a = hd :: tl /\ (hd >> 6 =? 3) = false /\ (hd >> 3) .& 7 = g mod 8 /\
    (code_at m (p + n) tl -> modrm_mem p n rex hd m = Ok (n + Z.of_nat (length tl), memop_of a) m).
Proof.
  intros Ha Hg Hok Hx Hb. destruct a as [r|disp|base index disp]; [done| |].
  - eexists _, _. split; [reflexivity|]. destruct (modrm_fields 0 g 5 ltac:(lia)) as (E6 & E3 & E7). rewrite E6, E3.
    split; [done|]. split; [done|]. intros Hc. unfold modrm_mem. rewrite E6, E7. change (5 mod 8) with 5. cbn [Z.eqb Pos.eqb andb].
    rewrite (bind_run _ _ _ _ _ (rd32_run _ _ _ _ Hc)). cbv beta iota. by rewrite signed_u by (done || lia).
  - cbn [arg_ok arg_base memop_of] in *. destruct Hok as [Hi Hd].
    assert (Hx' : rex_ext rex 2 = match index with Some (i, _) => i / 8 * 8 | None => 0 end) by (by destruct index as [[]|]).
    destruct base as [b|]; cbn [encode_arg].
    + destruct Hd as [Hbr Hd]. assert (Hd' : disp_ok mod_ disp) by (unfold disp_ok; tauto).
      assert (Hmod : 0 <= mod_ <= 3 /\ mod_ <> 3 /\ ~ (mod_ = 0 /\ b mod 8 = 5)) by lia. destruct Hmod as (Hm3 & Hmn & Hm5).
      assert (H50 : (b mod 8 =? 5) && (mod_ =? 0) = false) by (apply andb_false_iff; lia).
      assert (Hsib : forall ix, ix = index -> exists hd tl, modrm_byte mod_ g 4 :: sib_byte ix b :: disp_bytes mod_ disp = hd :: tl /\
        (hd >> 6 =? 3) = false /\ (hd >> 3) .& 7 = g mod 8 /\
        (code_at m (p + n) tl -> modrm_mem p n rex hd m = Ok (n + Z.of_nat (length tl), MemOp true (bool_decide (is_Some (Some b)))
          (bool_decide (is_Some index)) false (default 0 (Some b)) (default 0 (fst <$> index)) (default 0 (snd <$> index)) disp) m)).
      { intros ix ->. eexists _, _. split; [reflexivity|]. destruct (modrm_fields mod_ g 4 Hm3) as (E6 & E3 & E7). rewrite E6, E3.
        split; [lia|]. split; [done|]. intros [Hs Hc]%code_at_cons. unfold modrm_mem. rewrite E6, E7. change (4 mod 8) with 4.
        cbn [Z.eqb Pos.eqb]. destruct (sib_parts index b rex Hi Hx') as [F7 Fi].
        rewrite (bind_run _ _ _ _ _ (rd8_run _ _ _ _ Hs)). cbv beta iota zeta. rewrite Fi, F7, Hb, reg_halves, H50 by done.
        rewrite (add_disp_run mod_ disp) by (done || by rewrite Z.add_assoc). cbn [length]. do 2 f_equal. lia. }
      destruct index as [is_|]; [by apply Hsib|]. destruct (Z.eqb_spec (b mod 8) 4) as [E4|E4]; [by apply Hsib|].
      eexists _, _. split; [reflexivity|]. destruct (modrm_fields mod_ g b Hm3) as (E6 & E3 & E7). rewrite E6, E3.
      split; [lia|]. split; [done|]. intros Hc. unfold modrm_mem, rm_field. rewrite E6, E7, (proj2 (Z.eqb_neq (b mod 8) 4)), H50 by done.
      rewrite Hb, reg_halves by done. by apply add_disp_run.
    + eexists _, _. split; [reflexivity|]. destruct (modrm_fields 0 g 4 ltac:(lia)) as (E6 & E3 & E7). rewrite E6, E3.
      split; [done|]. split; [done|]. intros [Hs Hc]%code_at_cons. unfold modrm_mem. rewrite E6, E7. change (4 mod 8) with 4.
      cbn [Z.eqb Pos.eqb]. destruct (sib_parts index 5 rex Hi Hx') as [F7 Fi].
      rewrite (bind_run _ _ _ _ _ (rd8_run _ _ _ _ Hs)). cbv beta iota zeta. rewrite Fi, F7. change (5 mod 8) with 5. cbn [Z.eqb Pos.eqb andb].
      rewrite (bind_run _ _ _ _ _ (rd32_run p (n + 1) m disp ltac:(by rewrite Z.add_assoc))). cbv beta iota. rewrite signed_u by (done || lia).
      unfold add_disp. cbn [Z.eqb Pos.eqb length]. rewrite length_le_bytes. unfold mret, M_ret. do 2 f_equal. lia.
Qed.
End operands.

Section alike.
Context `{HostOS} `{HostFloat}.

(* ------------------------------------------------------------------ *)
(** ** Two runs *)

Definition faults (m : machine) : option string * Z * Z * bool :=
  (c_fault (m_c m), c_fault_rip (m_c m), c_fault_addr (m_c m), c_fault_has_addr (m_c m)).

(** The interpreter's run of an instruction that ends at [next], and what the
    compiler's record stands for: the same machine but for the instruction
    pointer, which compiled code leaves alone; or the same fault; and where the
    host cuts the interpreter off, no result. *)
Definition alike (next : Z) (rI rC : outcome unit) : Prop :=
  match rI with
  | Trap _ => (exists t, rC = Trap t) \/ exists mC, rC = Ok tt mC /\ c_running (m_c mC) = false
  | Ok _ mI => exists mC, rC = Ok tt mC /\ c_running (m_c mC) = c_running (m_c mI) /\
      if c_running (m_c mI) then same_but_rip mC mI /\ c_rip (m_c mI) = next else faults mC = faults mI
  end.

(** A machine that has faulted, or is as it was. *)
Lemma ld_either a size m v m1 :
  opsize size -> c_running (m_c m) = true -> ld a size m = Ok v m1 ->
  m1 = m \/ c_running (m_c m1) = false /\ is_Some (c_fault (m_c m1)) /\ exists what, m1 = upd_m (memfault_cpu a what) m.
Proof.
  intros Hs Hr Hld. destruct (ld_ok _ _ _ _ _ Hs Hld) as [(_ & _ & ->)|(_ & -> & _)]; [right|by left].
  split; [apply memfault_cpu_fields|]. split; [|by eexists]. unfold upd_m, memfault_cpu. cbn. destruct (c_fault (m_c m)) eqn:E; cbn; [by rewrite E|done].
Qed.

(** Stores keep the first fault. *)
Lemma st_faulted a v size m m1 :
  opsize size -> c_running (m_c m) = false -> is_Some (c_fault (m_c m)) -> Machine.st a v size m = Ok tt m1 ->
  c_running (m_c m1) = false /\ faults m1 = faults m.
Proof.
  intros Hs Hr [x Hx] Hst. destruct (st_logged _ _ _ _ _ Hs Hst) as [(_ & ->)|(_ & _ & w & _ & ->)]; [|done].
  unfold faults, upd_m, memfault_cpu. cbn. rewrite Hx. cbn. by rewrite Hx.
Qed.

Lemma same_rip_faults m m' : same_but_rip m m' -> faults m = faults m'.
Proof. intros Hm. exact (f_equal faults Hm). Qed.

(* ------------------------------------------------------------------ *)
(** ** A register operand written *)

Lemma set_gpr_eq R R' fl m : (forall j, greg j -> R j = R' j) -> set_gpr R fl m = set_gpr R' fl m.
Proof.
  intros He. unfold set_gpr. assert (Hl : R <$> seqZ 0 16 = R' <$> seqZ 0 16); [|by rewrite Hl].
  apply list_fmap_ext. intros i x Hx. apply lookup_seqZ in Hx as [-> Hi]. apply He. unfold greg. lia.
Qed.

Lemma wr_gpr r v v' size rex F m :
  size = 1 \/ size = 4 \/ size = 8 -> regs_ok m -> greg r -> uwrap (size * 8) v = uwrap (size * 8) v' ->
  wr (reg_opnd r) v size rex (upd_m (with_flags F) m) = Ok tt (set_gpr (reg_wr rex (reg m) r v' size) F m).
Proof.
  intros Hs Hm Hr Hv. set (mF := upd_m (with_flags F) m). assert (HmF : regs_ok mF) by done.
  destruct (wr_operand r v size rex mF Hs HmF Hr) as (r' & x & Hw & Hr' & Hx & Hj). rewrite Hw. f_equal.
  assert (Hl : length (c_r (m_c (set_reg r' x mF))) = 16%nat) by exact (proj1 (set_reg_ok _ _ _ HmF Hx)).
  transitivity (set_gpr (reg (set_reg r' x m)) F (set_reg r' x m)).
  - rewrite (set_gpr_flags F (set_reg r' x m)); [done|exact Hl].
  - rewrite (set_gpr_eq _ (reg_wr rex (reg m) r v' size)); [done|].
    intros j Hgj. change (reg (set_reg r' x m)) with (reg (set_reg r' x mF)). rewrite Hj by done. change (reg mF) with (reg m). by rewrite (reg_wr_mod _ _ _ v v') by (done || unfold opsize; lia).
Qed.

(* ------------------------------------------------------------------ *)
(** ** The operation *)

(** The record the compiler makes of an opcode, its operands apart. *)
Record records (o : insn) (op size : Z) (rex : bool) (g : Z) : Prop := {
  rc_op : i_op o = dec_op op;
  rc_size : i_size o = size;
  rc_rex : i_has_rex o = rex;
  rc_reg : i_reg o = g;
  rc_write : i_no_write o = is_one_of (dec_op op) [0x38; 0x85]
}.

(** What the interpreter does once it has the operands of an instruction: the
    flags of the operation, and the result where there is one to keep. *)
Definition ends (o : insn) (dst : opnd) (a b : Z) (rest : M unit) : Prop :=
  forall mS, urange 32 (c_flags (m_c mS)) ->
  let r := op_result (i_op o) (i_size o) a b in
  let mF := upd_m (with_flags (helper_flags (op_helper (i_op o)) (c_flags (m_c mS)) a b r (i_size o))) mS in
  exists v, uwrap (i_size o * 8) v = uwrap (i_size o * 8) r /\
    rest mS = if i_no_write o then Ok tt mF else wr dst v (i_size o) (i_has_rex o) mF.

Lemma alu_rest_ends o op size rex g dst a b :
  records o op size rex g -> is_dec_alu op = true -> 0 <= op -> opsize size -> ends o dst a b (alu_rest op dst a b size rex).
Proof. intros [Eop Esz Erex _ Enw] Hop Hop0 Hs mS Hf. rewrite Eop, Esz, Erex, Enw. by apply alu_rest_run. Qed.

(** Before the access. *)
Context (m : machine) (Hm : regs_ok m) (Hfl : urange 32 (c_flags (m_c m))) (Hrun : c_running (m_c m) = true).
Context (rip next : Z) (Hnext : urange 64 next).
#[local] Abbreviation m0 := (upd_m (with_cur_rip rip) m).
#[local] Abbreviation m1 := (upd_m (with_rip next) m0).

Lemma rip_m0 : same_but_rip m0 m1.
Proof. done. Qed.

Lemma ld_alike a size :
  outcome_rel same_but_rip (ld a size m0) (ld a size m1).
Proof. apply (respects_ld same_but_rip). apply rip_m0. Qed.

(** A load, and what the interpreter does behind one that faulted. *)
Lemma load_cases a size v mL' :
  opsize size -> ld a size m1 = Ok v mL' ->
  exists mL, ld a size m0 = Ok v mL /\ same_but_rip mL mL' /\ regs_ok mL' /\ reg mL' = reg m /\ c_flags (m_c mL') = c_flags (m_c m) /\
    ((mL = m0 /\ mL' = m1) \/ (c_running (m_c mL) = false /\ c_running (m_c mL') = false /\ is_Some (c_fault (m_c mL')))).
Proof.
  intros Hsz EI. pose proof (ld_alike a size) as Hld. rewrite EI in Hld. destruct (ld a size m0) as [v0 mL|] eqn:EC; [|done].
  destruct Hld as [-> HQ]. exists mL. split; [done|]. split; [exact HQ|].
  destruct (ld_stays _ _ _ _ _ Hsz EI) as (ErL & EfL & _ & _). split; [|split; [exact ErL|split; [exact EfL|]]].
  - destruct (ld_either _ _ m1 _ _ Hsz Hrun EI) as [->|(_ & _ & what & ->)]; [done|]. unfold regs_ok. cbn [upd_m m_c].
    rewrite (proj1 (memfault_cpu_fields _ _ _)). exact Hm.
  - destruct (in_cpu _ _ HQ) as (_ & Er & _). destruct (ld_either _ _ m1 _ _ Hsz Hrun EI) as [->|(Hf & Hs & _)]; [left|right; by rewrite Er].
    destruct (ld_either _ _ m0 _ _ Hsz Hrun EC) as [->|(Hf & _)]; [done|]. rewrite Hf in Er. cbn in Er. congruence.
Qed.

(** An operand loaded, and registers and flags computed from it. *)
Lemma loaded_alike o a size (f : Z -> gstate -> gstate) (k : Z -> M unit) :
  opsize size ->
  insn_sem all_flags o rip m = (v ← ld a size; if_running (then_regs all_flags o (f v))) m0 ->
  (forall v mL, ld a size m1 = Ok v mL -> regs_ok mL -> reg mL = reg m -> c_flags (m_c mL) = c_flags (m_c m) ->
    let s := f v (reg m, c_flags (m_c m)) in k v mL = Ok tt (set_gpr s.1 s.2 mL)) ->
  alike next ((v ← ld a size; k v) m1) (insn_sem all_flags o rip m).
Proof.
  intros Hsz -> Hk. unfold mbind at 1 2, M_bind at 1 2. destruct (ld _ _ m1) as [v mL'|t'] eqn:EI.
  - destruct (load_cases _ _ _ _ Hsz EI) as (mL & EC & HQ & HrL & ErL & EfL & Hcase). rewrite EC, Hk by done.
    unfold if_running, get_c, gets, mbind, M_bind. destruct Hcase as [[-> ->]|(Hf & Hf' & _)].
    + unfold alike. cbn [upd_m m_c c_running with_cur_rip with_rip set_gpr with_flags with_r]. rewrite Hrun.
      eexists. split; [reflexivity|]. split; [exact Hrun|]. split; [done|]. cbn. by apply uwrap_small.
    + rewrite Hf. unfold alike. cbn [set_gpr upd_m m_c c_running with_flags with_r]. rewrite Hf'.
      eexists. split; [reflexivity|]. split; [exact Hf|]. exact (same_rip_faults _ _ HQ).
  - pose proof (ld_alike a size) as Hld. rewrite EI in Hld. destruct (ld _ _ m0); [done|]. by left; eexists.
Qed.

Lemma rm_alike o (rest : Z -> M unit) :
  i_kind o = K_RM -> i_size o = 1 \/ i_size o = 4 \/ i_size o = 8 -> greg (i_reg o) ->
  (forall v, ends o (reg_opnd (i_reg o)) (reg_rd (i_has_rex o) (reg m) (i_reg o) (i_size o)) v (rest v)) ->
  alike next ((b ← ld (ref_ea o (reg m)) (i_size o); rest b) m1) (insn_sem all_flags o rip m).
Proof.
  intros Hk Hs Hg He. assert (Hsz : opsize (i_size o)) by (unfold opsize; lia).
  apply (loaded_alike o (ref_ea o (reg m)) (i_size o)
    (fun v s => ref_op o (reg_rd (i_has_rex o) s.1 (i_reg o) (i_size o)) v s)); [done| |].
  - unfold insn_sem, mem_part. rewrite Hk. unfold mem_operand, mbind, M_bind. cbn [gets upd modify]. by destruct (ld _ _ _).
  - intros v mL _ HrL ErL EfL s. destruct (He v mL ltac:(by rewrite EfL)) as (x & Hx & ->). subst s. unfold ref_op. cbn [fst snd].
    rewrite EfL. rewrite <- ErL in *. destruct (i_no_write o); [by rewrite set_gpr_flags by apply HrL|]. by apply wr_gpr.
Qed.

(** A store, with and without the flags set before it. *)
Lemma st_alike a v v' size F k :
  opsize size -> urange 32 F -> uwrap (size * 8) v = uwrap (size * 8) v' ->
  (forall mS, c_flags (m_c mS) = c_flags (m_c m) -> k mS = Ok tt (set_gpr (reg mS) F mS)) ->
  alike next (Machine.st a v size (upd_m (with_flags F) m1)) ((Machine.st a v' size;; if_running k) m0).
Proof.
  intros Hs HF Hv Hk. rewrite (st_mod a v v') by done. unfold mbind, M_bind.
  pose proof (respects_st same_but_flags a v' size m0 (upd_m (with_flags F) m0) eq_refl) as H1.
  pose proof (respects_st same_but_rip a v' size (upd_m (with_flags F) m0) (upd_m (with_flags F) m1) eq_refl) as H2.
  destruct (Machine.st a v' size m0) as [[] mS|] eqn:ES, (Machine.st a v' size (upd_m (with_flags F) m0)) as [[] mS2|] eqn:ES2,
    (Machine.st a v' size (upd_m (with_flags F) m1)) as [[] mI|] eqn:EI; try done; [|by left; eexists].
  destruct H1 as [_ H1], H2 as [_ H2]. destruct (in_cpu _ _ H1) as (_ & R1 & _). destruct (in_cpu _ _ H2) as (_ & R2 & _).
  assert (Hf : c_flags (m_c mS2) = u32 F).
  { destruct (quiet_st a v' size _ _ _ ES2) as [E _ _]. exact E. }
  assert (Hp : c_rip (m_c mI) = next).
  { destruct (st_logged _ _ _ _ _ Hs EI) as [(_ & ->)|(_ & _ & w & _ & ->)]; cbn [upd_m m_c with_mem with_wlog c_rip];
      [|by apply uwrap_small]. unfold memfault_cpu. destruct (c_fault _); by apply uwrap_small. }
  assert (Hl : length (c_r (m_c mS)) = 16%nat).
  { destruct (st_logged _ _ _ _ _ Hs ES) as [(_ & ->)|(_ & _ & w & _ & ->)]; cbn [upd_m m_c with_mem with_wlog c_r]; [|apply Hm].
    rewrite (proj1 (memfault_cpu_fields _ _ _)). apply Hm. }
  assert (E2 : upd_m (with_flags F) mS = mS2).
  { apply same_flags_eq; [exact H1|by rewrite Hf]. }
  unfold if_running, get_c, gets, mbind, M_bind. unfold alike. rewrite <- R2, <- R1.
  destruct (quiet_st a v' size _ _ _ ES) as [ES3 _ _]. destruct (c_running (m_c mS)) eqn:Er.
  - rewrite Hk by exact ES3. eexists. split; [reflexivity|]. split; [exact Er|]. split; [|exact Hp]. rewrite set_gpr_flags by done. by rewrite E2.
  - eexists. split; [reflexivity|]. split; [exact Er|]. rewrite <- (same_rip_faults _ _ H2). exact (f_equal faults H1).
Qed.

(** A read-modify-write, a comparison or a test. *)
Lemma insn_sem_alu_mem o :
  i_kind o = K_MR \/ i_kind o = K_MI -> i_op o <> 0x88 ->
  insn_sem all_flags o rip m = (v ← ld (ref_ea o (reg m)) (i_size o);
    let b := mov_value o (reg m) in
    let r := op_result (i_op o) (i_size o) v b in
    (if i_no_write o then mret tt else if_running (Machine.st (ref_ea o (reg m)) r (i_size o)));;
    if_running (then_regs all_flags o (fun s => (s.1, helper_flags (op_helper (i_op o)) s.2 v b r (i_size o))))) m0.
Proof.
  intros Hk Hn. unfold insn_sem, mem_part. destruct Hk as [-> | ->]; rewrite (proj2 (Z.eqb_neq _ _) Hn); unfold mem_operand, mbind, M_bind;
    cbn [gets upd modify]; (destruct (ld _ _ _) as [v mL|]; [|done]); by destruct ((if i_no_write o then mret tt else _ : M unit) mL) as [[]|].
Qed.

Lemma rmw_alike o dst (rest : Z -> M unit) :
  i_kind o = K_MR \/ i_kind o = K_MI -> i_op o <> 0x88 -> i_size o = 1 \/ i_size o = 4 \/ i_size o = 8 ->
  (forall v, ends o dst v (mov_value o (reg m)) (rest v)) ->
  (forall v x, wr dst v (i_size o) (i_has_rex o) x = Machine.st (ref_ea o (reg m)) v (i_size o) x) ->
  alike next ((a ← ld (ref_ea o (reg m)) (i_size o); rest a) m1) (insn_sem all_flags o rip m).
Proof.
  intros Hk Hmov Hs He Hwr. assert (Hsz : opsize (i_size o)) by (unfold opsize; lia).
  rewrite (insn_sem_alu_mem o) by done. set (b := mov_value o (reg m)) in *. set (size := i_size o) in *.
  unfold mbind at 1, M_bind at 1. destruct (ld _ _ m1) as [v mL'|t] eqn:EI.
  2:{ left. pose proof (ld_alike (ref_ea o (reg m)) size) as Hld. rewrite EI in Hld. unfold mbind at 1, M_bind at 1.
      destruct (ld _ _ m0); [done|by eexists]. }
  destruct (load_cases _ _ _ _ Hsz EI) as (mL & EC & HQ & HrL & ErL & EfL & Hcase).
  unfold mbind at 1, M_bind at 1. rewrite EC. cbv zeta.
  destruct (He v mL' ltac:(by rewrite EfL)) as (r & Hr & ->). fold size. rewrite EfL, Hwr.
  set (r' := op_result (i_op o) size v b) in *. set (F := helper_flags _ _ _ _ _ _).
  assert (HF : urange 32 F) by (by apply helper_flags_range).
  destruct Hcase as [[-> ->]|(Hf & Hf' & Hflt)].
  - destruct (i_no_write o).
    + unfold if_running, get_c, gets, mbind, M_bind, mret, M_ret. cbn [upd_m m_c c_running with_cur_rip]. rewrite Hrun.
      unfold alike. cbn [upd_m m_c c_running with_cur_rip with_rip with_flags]. rewrite Hrun.
      eexists. split; [reflexivity|]. split; [exact Hrun|]. split; [|cbn; by apply uwrap_small].
      change (same_but_rip (set_gpr (reg m0) F m0) (upd_m (with_flags F) m1)). rewrite set_gpr_flags by apply Hm. done.
    + assert (Hc : forall k : M unit, (if_running (Machine.st (ref_ea o (reg m)) r' size);; k) m0 = (Machine.st (ref_ea o (reg m)) r' size;; k) m0).
      { intros k. unfold if_running, get_c, gets, mbind, M_bind. cbn [upd_m m_c c_running with_cur_rip]. by rewrite Hrun. }
      rewrite Hc. apply st_alike; try done. intros mS ES. unfold then_regs, all_flags, modify. cbn [fst snd]. by rewrite ES.
  - assert (HC : exists mC, ((if i_no_write o then mret tt else if_running (Machine.st (ref_ea o (reg m)) r' size));;
      if_running (then_regs all_flags o (fun s => (s.1, helper_flags (op_helper (i_op o)) s.2 v b r' size)))) mL = Ok tt mC /\ mC = mL).
    { exists mL. split; [|done]. unfold if_running, get_c, gets, mbind, M_bind, mret, M_ret. destruct (i_no_write o); by rewrite ?Hf, ?Hf. }
    destruct HC as (mC & -> & ->). unfold alike. destruct (i_no_write o).
    + exists mL. split; [done|]. cbn [upd_m m_c c_running with_flags]. rewrite Hf, Hf'. split; [done|]. exact (same_rip_faults _ _ HQ).
    + destruct (Machine.st _ _ _ _) as [[] mI|] eqn:ES; [|right; by exists mL].
      destruct (st_faulted _ _ _ (upd_m (with_flags F) mL') _ Hsz Hf' Hflt ES) as [Hr2 Hf2].
      exists mL. split; [done|]. rewrite Hr2. split; [exact Hf|]. rewrite Hf2. exact (same_rip_faults _ _ HQ).
Qed.

(** A move to memory. *)
Lemma insn_sem_mov o :
  i_kind o = K_MR \/ i_kind o = K_MI -> i_op o = 0x88 ->
  insn_sem all_flags o rip m = (Machine.st (ref_ea o (reg m)) (mov_value o (reg m)) (i_size o);;
    if_running (then_regs all_flags o (fun s => s))) m0.
Proof.
  intros Hk He. unfold insn_sem, mem_part. destruct Hk as [-> | ->]; rewrite He;
    cbn [Z.eqb Pos.eqb]; unfold mbind, M_bind; cbn [gets upd modify]; by destruct (Machine.st _ _ _ _) as [[]|].
Qed.

Lemma flags_same o mS : c_flags (m_c mS) = c_flags (m_c m) ->
  then_regs all_flags o (fun s => s) mS = Ok tt (set_gpr (reg mS) (c_flags (m_c m)) mS).
Proof. intros ES. unfold then_regs, all_flags, modify. cbn [fst snd]. by rewrite ES. Qed.

Lemma m1_flags : upd_m (with_flags (c_flags (m_c m))) m1 = m1.
Proof. exact (reflag_same m1 Hfl). Qed.

Lemma stored_alike o v v' size :
  opsize size -> uwrap (size * 8) v = uwrap (size * 8) v' ->
  insn_sem all_flags o rip m = (Machine.st (ref_ea o (reg m)) v' size;; if_running (then_regs all_flags o (fun s => s))) m0 ->
  alike next (Machine.st (ref_ea o (reg m)) v size m1) (insn_sem all_flags o rip m).
Proof.
  intros Hs Hv ->. rewrite <- m1_flags. apply st_alike; [done..|]. intros mS ES. by apply flags_same.
Qed.

(** A store behind a load that faulted, where neither may be made: the fault is
    the load's, which names the address as the store would have. *)
Lemma unread_alike o dst (rest : M unit) v :
  i_op o = 0x88 -> i_no_write o = false -> opsize (i_size o) ->
  let a := ref_ea o (reg m) in
  access_ok (m_as m) a (i_size o) RSD_PROT_R = false ->
  (access_ok (m_as m) a (i_size o) RSD_PROT_W = true -> access_ok (m_as m) a (i_size o) RSD_PROT_R = true) ->
  ends o dst v (mov_value o (reg m)) rest ->
  (forall v x, wr dst v (i_size o) (i_has_rex o) x = Machine.st a v (i_size o) x) ->
  insn_sem all_flags o rip m = (Machine.st a (mov_value o (reg m)) (i_size o);; if_running (then_regs all_flags o (fun s => s))) m0 ->
  alike next (rest (upd_m (memfault_cpu a (why (m_as m) a (i_size o))) m1)) (insn_sem all_flags o rip m).
Proof.
  intros Hmov Hnw Hsz a Ha Hacc He Hwr Hsem. assert (Hw : access_ok (m_as m) a (i_size o) RSD_PROT_W = false).
  { destruct (access_ok (m_as m) a _ RSD_PROT_W); [by rewrite Hacc in Ha|done]. }
  assert (Hst : forall x b, m_as x = m_as m -> Machine.st a b (i_size o) x = Ok tt (upd_m (memfault_cpu a (why (m_as m) a (i_size o))) x)).
  { intros x b Ex. unfold Machine.st, gets, mbind, M_bind. by rewrite opsize_u64, Ex, Hw by done. }
  set (mF := upd_m _ m1). assert (EfF : c_flags (m_c mF) = c_flags (m_c m)) by exact (proj1 (proj2 (proj2 (memfault_cpu_fields a _ (m_c m1))))).
  destruct (He mF ltac:(by rewrite EfF)) as (r & _ & ->). rewrite Hnw, Hwr, Hst, Hsem by done. unfold mbind, M_bind. rewrite Hst by done.
  assert (Hstop : forall wh c, c_running (memfault_cpu a wh c) = false) by (intros wh c; apply memfault_cpu_fields).
  unfold if_running, get_c, gets, mbind, M_bind, alike, mF. cbn [upd_m m_c with_flags c_running]. rewrite !Hstop.
  eexists. split; [reflexivity|]. split; [apply Hstop|].
  unfold faults. cbn [upd_m m_c]. destruct (m_c m) as []. unfold memfault_cpu. cbn. by repeat (case_match; cbn).
Qed.

(** The move from a register is behind a load the interpreter makes first. *)
Lemma mov_alike o dst (rest : Z -> M unit) :
  i_kind o = K_MR -> i_op o = 0x88 -> i_no_write o = false -> i_size o = 1 \/ i_size o = 4 \/ i_size o = 8 ->
  (access_ok (m_as m) (ref_ea o (reg m)) (i_size o) RSD_PROT_W = true ->
   access_ok (m_as m) (ref_ea o (reg m)) (i_size o) RSD_PROT_R = true) ->
  (forall v, ends o dst v (mov_value o (reg m)) (rest v)) ->
  (forall v x, wr dst v (i_size o) (i_has_rex o) x = Machine.st (ref_ea o (reg m)) v (i_size o) x) ->
  alike next ((a ← ld (ref_ea o (reg m)) (i_size o); rest a) m1) (insn_sem all_flags o rip m).
Proof.
  intros Hk Hmov Hnw Hs Hacc He Hwr. assert (Hsz : opsize (i_size o)) by (unfold opsize; lia).
  pose proof (insn_sem_mov o (or_introl Hk) Hmov) as Hsem.
  set (b := mov_value o (reg m)) in *. unfold mbind at 1, M_bind at 1. destruct (ld _ _ m1) as [v mL'|t] eqn:EI.
  - destruct (ld_ok _ _ _ _ _ Hsz EI) as [(Ha & _ & ->)|(_ & -> & _)]; [by apply (unread_alike o dst (rest v) v)|].
    destruct (He v m1 Hfl) as (r & Hr & ->). rewrite Hnw, Hwr, Hmov in *. cbn [Z.eqb Pos.eqb op_helper helper_flags].
    change (c_flags (m_c m1)) with (c_flags (m_c m)). rewrite m1_flags. apply (stored_alike o r b); [done| |exact Hsem]. by rewrite Hr, op_result_value.
  - rewrite Hsem. unfold mbind at 1, M_bind at 1. destruct (Machine.st _ _ _ _) as [[] mS|] eqn:ES; [|by left; eexists]. right.
    destruct (st_logged _ _ _ _ _ Hsz ES) as [(_ & ->)|(Haw & [bs Hb] & _)].
    + destruct (memfault_cpu_fields (ref_ea o (reg m)) (why (m_as m) (ref_ea o (reg m)) (i_size o)) (m_c m0)) as (_ & _ & _ & Er).
      exists (upd_m (memfault_cpu (ref_ea o (reg m)) (why (m_as m) (ref_ea o (reg m)) (i_size o))) m0). split; [|exact Er].
      unfold if_running, get_c, gets, mbind, M_bind. cbn [upd_m m_c m_as] in *. by rewrite Er.
    + exfalso. revert EI. unfold ld, gets, mbind, M_bind. cbn [upd_m m_as]. rewrite opsize_u64, (Hacc Haw) by done. cbn [negb].
      rewrite access_width_ok by done. unfold host_read, mem_of in *. cbn [upd_m m_w] in *. by rewrite Hb.
Qed.
End alike.

Section bytes.
Context `{HostOS} `{HostFloat}.

(* ------------------------------------------------------------------ *)
(** ** The bytes *)

(** What [dec_alu] makes of a form with an operand in memory. *)
Definition alu_mem_insn (pre : option bool) (op g n rip : Z) (a : arg) : insn :=
  finished rip n (iw_no_write (is_one_of (dec_op op) [0x38; 0x85]) (iw_op (dec_op op)
    (iw_kind (if dec_to_reg op then K_RM else K_MR) (iw_reg g (iw_mo (memop_of a)
      (if negb (nz (op .& 1)) then iw_size 1 (blank pre) else blank pre)))))).

Lemma alu_mem_records pre op g n rip a :
  records (alu_mem_insn pre op g n rip a) op (dec_size op (wide_size pre)) (bool_decide (is_Some pre)) g /\
  i_kind (alu_mem_insn pre op g n rip a) = (if dec_to_reg op then K_RM else K_MR) /\
  i_mo (alu_mem_insn pre op g n rip a) = memop_of a /\ i_next (alu_mem_insn pre op g n rip a) = u64 (rip + n) /\
  i_fneed (alu_mem_insn pre op g n rip a) = 0.
Proof.
  unfold alu_mem_insn, finished, dec_size. cbn [i_kind iw_no_write iw_op iw_kind iw_next iw_len].
  destruct (dec_to_reg op), (negb _); (split; [by split|done]).
Qed.

Lemma decode_alu_mem_run pre op g mod_ a rip m :
  is_dec_alu op = true -> 0 <= op -> in_memory a -> arg_ok mod_ a ->
  nameable pre g -> nameable pre (arg_index a) -> nameable pre (arg_base a) ->
  code_at m rip (rex_bytes pre g (arg_index a) (arg_base a) ++ op :: encode_arg g mod_ a) ->
  decode rip rip m = Ok (Some (alu_mem_insn pre op g (rex_len pre + 1 + Z.of_nat (length (encode_arg g mod_ a))) rip a)) m.
Proof.
  intros Hop Hop0 Ha Hok Hg Hx Hb Hc. unfold alu_mem_insn. eapply decode_front; [exact Hg|exact Hx|exact Hb|by apply dec_alu_plain|exact Hc|].
  intros Hm. destruct (rex_exts pre g _ _ Hg Hx Hb) as (E4 & E2 & E1 & _).
  destruct (modrm_mem_decodes mod_ g a _ rip (rex_len pre + 1 + 1) m Ha ltac:(by eapply nameable_greg) Hok E2 E1)
    as (hd & tl & Henc & H6 & H3 & Hmem). rewrite Henc in *. apply code_at_cons in Hm as [Hh Ht].
  unfold decode_op. rewrite Hop. unfold dec_alu. rewrite (bind_run _ _ _ _ _ (rd8_run _ _ _ _ Hh)). cbv beta iota zeta.
  rewrite H6. rewrite dec_byte. fold (dec_to_reg op) (dec_op op).
  assert (Er : reg_field (rex_value pre g (arg_index a) (arg_base a)) hd = g).
  { unfold reg_field. by rewrite H3, E4, reg_halves by by eapply nameable_greg. }
  rewrite Er. unfold mbind at 2, M_bind at 2. unfold mbind at 1, M_bind at 1.
  rewrite Hmem by by rewrite Z.add_assoc. unfold mret, M_ret. cbn [length]. do 3 f_equal. lia.
Qed.

(** The address the interpreter computes is the compiler's. *)
Lemma effective_ref_ea o mod_ a d m : i_mo o = memop_of a -> in_memory a -> i_next o = dec_rip d -> arg_ok mod_ a ->
  effective m d a = ref_ea o (reg m).
Proof.
  intros Hmo Ha Hn Hs. unfold effective, ref_ea. rewrite Hmo. destruct a as [r|disp|base index disp]; [done|..]; cbn [memop_of o_riprel o_has_base o_has_index o_base o_index o_scale o_disp].
  - by rewrite Hn.
  - destruct Hs as [Hi _]. f_equal. f_equal. f_equal; [by destruct base|]. destruct index as [[i sc]|]; [|done]. cbn.
    by rewrite Z.shiftl_mul_pow2 by lia.
Qed.

(** A memory operand of the interpreter. *)
Lemma modrm_advance_mem d mod_ g a m :
  regs_ok m -> reg_num g -> arg_ok mod_ a -> in_memory a -> rex_for g a d -> d_seg_base d = 0 ->
  code_at m (d_p d) (encode_arg g mod_ a) ->
  let d1 := with_p (d_p d + Z.of_nat (length (encode_arg g mod_ a))) d in
  exists dst, modrm_advance d m = Ok (g, dst, d1) (upd_m (with_rip (dec_rip d1)) m) /\
    (forall size rex x, rd dst size rex x = ld (effective m d1 a) size x) /\
    (forall v size rex x, wr dst v size rex x = Machine.st (effective m d1 a) v size x).
Proof.
  intros Hm Hg Hok Ha Hrex Hseg Hc d1. destruct (modrm_decodes mod_ g a d m Hm Hg Hok Hrex Hc) as (o & Hmod & Hn).
  fold d1 in Hmod. exists (fixup_rip d1 o). specialize (Hn d1).
  assert (Hn' : is_reg (fixup_rip d1 o) = false /\ u64 (o_addr (fixup_rip d1 o) + o_seg (fixup_rip d1 o)) = effective m d1 a).
  { destruct a; [done|..]; destruct Hn as (-> & -> & ->); (split; [done|]); rewrite Hseg, Z.add_0_r; cbn [effective]; apply uwrap_uwrap; lia. }
  destruct Hn' as [Hr He]. split; [|split].
  - unfold modrm_advance. by rewrite (bind_run _ _ _ _ _ Hmod).
  - intros size rex x. unfold rd. by rewrite Hr, He.
  - intros v size rex x. unfold wr. by rewrite Hr, He.
Qed.

(** The interpreter reads the operands one after the other. *)
Lemma op_alu_mem_run d d1 op g dst ea size m m1 :
  modrm_advance d m = Ok (g, dst, d1) m1 -> d_has_rex d1 = d_has_rex d -> size = dec_size op (d_opsize d) -> regs_ok m1 ->
  size = 1 \/ size = 4 \/ size = 8 ->
  (forall size rex x, rd dst size rex x = ld ea size x) ->
  op_alu_rm d op m =
  (if dec_to_reg op then b ← ld ea size; alu_rest op (reg_opnd g) (reg_rd (d_has_rex d) (reg m1) g size) b size (d_has_rex d)
   else a ← ld ea size; alu_rest op dst a (reg_rd (d_has_rex d) (reg m1) g size) size (d_has_rex d)) m1.
Proof.
  intros Hadv Ex Esz Hm1 Hs Hrd. unfold op_alu_rm. fold (dec_size op (d_opsize d)) (dec_to_reg op). rewrite <- Esz.
  rewrite (bind_run _ _ _ _ _ Hadv). cbv beta iota zeta. rewrite Ex. destruct (dec_to_reg op).
  - rewrite (bind_run _ _ _ _ _ (rd_operand g size _ m1 Hs)). unfold alu_rest, mbind, M_bind. rewrite Hrd. by destruct (ld ea size m1).
  - unfold alu_rest, mbind, M_bind. rewrite Hrd. destruct (ld ea size m1) as [a m2|] eqn:EL; [|done].
    assert (Hsz : opsize size) by (unfold opsize; lia). destruct (ld_stays ea size m1 a m2 Hsz EL) as (Er & _).
    rewrite (rd_operand g size _ m2 Hs). by rewrite Er.
Qed.

Lemma memop_ea o mod_ pre a : i_mo o = memop_of a -> arg_ok mod_ a -> in_memory a -> nameable pre (arg_base a) -> ea_ok o.
Proof.
  intros Hmo Hok Ha Hb. split; rewrite Hmo; destruct a as [r|disp|base index disp]; try done; cbn [memop_of o_has_base o_base o_has_index o_index o_scale].
  - destruct base as [b|]; [|done]. intros _. by eapply nameable_greg.
  - destruct index as [[i sc]|]; [|done]. intros _. cbn. destruct Hok as [(Hi & _ & Hsc) _]. unfold greg, reg_num in *. lia.
Qed.

(** The compiler has code for it. *)
Lemma alu_mem_insn_ok pre op g n rip mod_ a :
  is_dec_alu op = true -> 0 <= op -> in_memory a -> arg_ok mod_ a -> nameable pre g -> nameable pre (arg_base a) ->
  mem_insn (alu_mem_insn pre op g n rip a).
Proof.
  intros Hop Hop0 Ha Hok Hg Hb. destruct (alu_mem_records pre op g n rip a) as ([Eop Esz Erex Ereg Enw] & Hk & Hmo & _ & Hf).
  set (o := alu_mem_insn pre op g n rip a) in *.
  assert (Hs : i_size o = 1 \/ i_size o = 4 \/ i_size o = 8) by (rewrite Esz; unfold dec_size, wide_size; destruct pre as [[]|], (negb _); cbn; tauto).
  assert (Hea : ea_ok o) by by eapply memop_ea. assert (Hgr : greg (i_reg o)) by (rewrite Ereg; by eapply nameable_greg).
  assert (Ho : is_one_of (dec_op op) reg_ops = true /\ is_one_of (dec_op op) [OP_INC; OP_DEC] = false).
  { destruct (dec_alu_forms op Hop Hop0) as [(k & Hkl & _ & _ & ->)|[(_ & _ & ->)|(_ & _ & ->)]]; [|done..].
    unfold is_one_of in Hkl. cbn [existsb] in Hkl. assert (k = 0 \/ k = 1 \/ k = 4 \/ k = 5 \/ k = 6 \/ k = 7) as Hc by lia.
    by repeat destruct Hc as [->|Hc]; [..|subst k]. }
  destruct Ho as [Ho1 Ho2].
  assert (Hok' : op_ok o).
  { split; rewrite ?Eop, ?Hf; try done. rewrite Hk. destruct (dec_to_reg op); tauto. }
  unfold mem_insn. rewrite Hk. destruct (dec_to_reg op).
  - split; [done|done|done|by rewrite Eop].
  - destruct (Z.eqb_spec (i_op o) 0x88) as [E|E].
    + split; [by left|done|done|by rewrite Hk|unfold opsize; tauto|done].
    + split; [by left|done|done|by rewrite Hk|by rewrite Eop, Ho2|done].
Qed.

(** The compiler and the interpreter take ALU instructions with an operand
    in memory for the same thing.  For each of add, or, and, sub, xor, cmp, test
    and mov, from memory to a register and from a register to memory, with or
    without REX, at every width, on every operand the manual can encode (based,
    scaled, absolute or relative to the instruction pointer): [decode] accepts
    the bytes and makes of them an instruction whose compiled code is proved;
    and the interpreter, run on the bytes, leaves the machine that instruction
    stands for, with the instruction pointer where the record says the next one
    is, or faults where it faults and with the same fault.  A plain store must
    go to memory that may be read if it may be written, as the interpreter
    reads it first. *)
Theorem decode_alu_mem_agrees pre op g mod_ a rip m :
  regs_ok m -> urange 32 (c_flags (m_c m)) -> c_running (m_c m) = true -> is_dec_alu op = true -> 0 <= op ->
  in_memory a -> arg_ok mod_ a -> nameable pre g -> nameable pre (arg_index a) -> nameable pre (arg_base a) ->
  code_at m rip (rex_bytes pre g (arg_index a) (arg_base a) ++ op :: encode_arg g mod_ a) ->
  exists o, decode rip rip m = Ok (Some o) m /\ mem_insn o /\ i_op o = dec_op op /\
    i_kind o = (if dec_to_reg op then K_RM else K_MR) /\
    ((i_kind o = K_MR -> i_op o = 0x88 -> access_ok (m_as m) (ref_ea o (reg m)) (i_size o) RSD_PROT_W = true ->
      access_ok (m_as m) (ref_ea o (reg m)) (i_size o) RSD_PROT_R = true) ->
     alike (i_next o) (exec_insn rip m) (insn_sem all_flags o rip m)).
Proof.
  intros Hm Hfl Hrun Hop Hop0 Ha Hok Hg Hx Hb Hc. set (n := rex_len pre + 1 + Z.of_nat (length (encode_arg g mod_ a))).
  exists (alu_mem_insn pre op g n rip a). destruct (alu_mem_records pre op g n rip a) as (Hrec & Hk & Hmo & Hn & _).
  pose proof (alu_mem_insn_ok pre op g n rip mod_ a Hop Hop0 Ha Hok Hg Hb) as Hins. pose proof (rc_op _ _ _ _ _ Hrec) as Eop.
  pose proof (rc_size _ _ _ _ _ Hrec) as Esz. set (o := alu_mem_insn pre op g n rip a) in *.
  split; [by apply decode_alu_mem_run|]. split; [exact Hins|]. split; [exact Eop|]. split; [exact Hk|]. intros Hread.
  destruct (exec_front rip m pre g _ _ op _ Hg Hx Hb (dec_alu_plain op Hop Hop0) Hc) as (d & He & Hc' & Hp & (Er & Ex & Eb) & Es & Erx & Eseg & Hrip).
  destruct (dec_alu_byte op Hop Hop0) as (_ & _ & _ & Hexec & _). rewrite Hexec in He. rewrite He.
  set (m0 := upd_m (with_cur_rip rip) m) in *.
  assert (Hrf : rex_for g a d).
  { split; [exact Er|]. destruct a as [r|disp|[b|] index disp]; [done|done|..]; cbn [arg_base arg_index] in *; (split; [done|]); by destruct index as [[]|]. }
  destruct (modrm_advance_mem d mod_ g a m0 Hm ltac:(by eapply nameable_greg) Hok Ha Hrf Eseg Hc') as (dst & Hadv & Hrd & Hwr).
  set (d1 := with_p _ d) in *.
  assert (Hnx : i_next o = dec_rip d1) by (rewrite Hn; unfold d1; rewrite Hrip; f_equal; unfold n; lia).
  assert (Hea : effective m0 d1 a = ref_ea o (reg m)) by exact (effective_ref_ea o mod_ a d1 m0 Hmo Ha Hnx Hok).
  rewrite Hea, <- Hnx in *. set (size := dec_size op (wide_size pre)) in *.
  assert (Hs : size = 1 \/ size = 4 \/ size = 8) by (unfold size, dec_size, wide_size; destruct pre as [[]|], (negb _); cbn; tauto).
  rewrite (op_alu_mem_run d d1 op g dst (ref_ea o (reg m)) size m0 _ Hadv eq_refl ltac:(by rewrite Es) Hm Hs Hrd), Erx.
  change (reg (upd_m (with_rip (i_next o)) m0)) with (reg m).
  assert (Hnr : urange 64 (i_next o)) by (rewrite Hn; by apply uwrap_range).
  assert (Hgr : greg g) by by eapply nameable_greg.
  assert (Hends : forall dst a' b', ends o dst a' b' (alu_rest op dst a' b' size (bool_decide (is_Some pre)))).
  { intros. apply (alu_rest_ends o op size _ g); try done. unfold opsize. lia. }
  pose proof (rc_rex _ _ _ _ _ Hrec) as Erec. pose proof (rc_reg _ _ _ _ _ Hrec) as Ereg.
  assert (Hmv : i_kind o = K_MR -> reg_rd (bool_decide (is_Some pre)) (reg m) g size = mov_value o (reg m)).
  { intros E. unfold mov_value. by rewrite E, Erec, Ereg, Esz. }
  rewrite <- Erec, <- Ereg, <- Esz in *. destruct (dec_to_reg op).
  - by apply rm_alike.
  - rewrite (Hmv Hk). destruct (Z.eqb_spec (i_op o) 0x88) as [E|E].
    + apply (mov_alike m Hm Hfl Hrun rip (i_next o) Hnr o dst _ Hk E); [by rewrite (rc_write _ _ _ _ _ Hrec), <- Eop, E|done|by intros; apply Hread|intros; apply Hends|intros v x; apply Hwr].
    + apply (rmw_alike m Hm Hfl Hrun rip (i_next o) Hnr o dst); [by left|done|done|intros; apply Hends|intros v x; apply Hwr].
Qed.
End bytes.

(* ------------------------------------------------------------------ *)
(** ** A concrete instruction *)

#[local] Existing Instance sample_host.

(** add [rbx + 4], eax, and rbx at the instruction itself. *)
Lemma decode_alu_mem_agrees_witness :
  let m := set_reg RBX 0x10000 (set_reg RAX 5 (sample_guest [0x01; 0x43; 0x04])) in
  exists o mI mC, decode 0x10000 0x10000 m = Ok (Some o) m /\ mem_insn o /\
    exec_insn (H0 := Build_HostFloat id id) 0x10000 m = Ok tt mI /\ insn_sem all_flags o 0x10000 m = Ok tt mC /\
    same_but_rip mC mI /\ c_rip (m_c mI) = 0x10003 /\ mem_of mC !! 0x10004 = Some 5.
Proof.
  intros m.
  destruct (decode_alu_mem_agrees (H0 := Build_HostFloat id id) None 0x01 0 1 (AMem (Some 3) None 4) 0x10000 m)
    as (o & Hd & Ho & Eop & _ & Ha);
    [apply set_reg_ok; [apply set_reg_ok; [apply regs_ok_wf, reset_cpu_wf|done]|done]|done|done|done|done|done
    |split; [done|]; split; [done|right; by left]|done|done|done|vm_compute; reflexivity|].
  assert (Hx : value (exec_insn (H0 := Build_HostFloat id id) 0x10000) m = Some tt) by (vm_compute; reflexivity).
  pose proof (run_value _ _ _ Hx) as Hrun. set (mI := after _ m) in *.
  assert (Hr : c_running (m_c mI) && (c_rip (m_c mI) =? 0x10003) && bool_decide (mem_of mI !! 0x10004 = Some 5) = true)
    by (vm_compute; reflexivity).
  apply andb_true_iff in Hr as [[Hr Hp%Z.eqb_eq]%andb_true_iff Hb%bool_decide_eq_true_1].
  assert (Hal : alike (i_next o) (exec_insn (H0 := Build_HostFloat id id) 0x10000 m) (insn_sem all_flags o 0x10000 m))
    by (apply Ha; intros _ E; rewrite Eop in E; discriminate).
  rewrite Hrun in Hal. unfold alike in Hal. rewrite Hr in Hal. destruct Hal as (mC & HC & _ & Hs & _).
  exists o, mI, mC. split; [exact Hd|]. split; [exact Ho|]. split; [exact Hrun|]. split; [exact HC|]. split; [exact Hs|].
  split; [exact Hp|]. rewrite <- Hb. exact (f_equal (fun x => mem_of x !! 0x10004) Hs).
Defined.
