(* ===== verification/JitReads.v ===== *)
(** Reading an instruction twice ([rd8] to [modrm_mem] and the front of
    [decode] in [src/jit.c], [fetch] to [modrm] and the prefixes in
    [src/cpu.c]): whatever bytes the compiler's decoder gets through, the
    interpreter reads the same fields, operands and immediates from. *)
From S2P Require Import Prelude.
From S2P Require Import Memory.
From S2P Require Import AddressSpace.
From S2P Require Import Flags.
From S2P Require Import Float.
From S2P Require Import Machine.
From S2P Require Import Access.
From S2P Require Import Decode.
From S2P Require Import Step.
From S2P Require Import Keeps.
From S2P Require Import Registers.
From S2P Require Import Encoding.
From S2P Require Import Jit.
From S2P Require Import JitRegs.
From S2P Require Import JitAgree.

Section reads.
Context `{HostOS} `{HostFloat}.
Context (m : machine) (Hbytes : mem_ok (mem_of m)).

(* ------------------------------------------------------------------ *)
(** ** Bytes *)

(** What the compiler read is there. *)
Lemma fetched_at p k v m1 :
  0 <= k -> host_read p k m = Ok v m1 -> m1 = m /\ code_at m p (le_bytes (Z.to_nat k) v) /\ urange (8 * k) v.
Proof.
  intros Hk [-> (bs & Hr & ->)]%host_read_ok. split; [done|]. pose proof (read_bytes_length _ _ _ _ Hr) as Hl.
  pose proof (read_bytes_ok _ _ _ _ Hbytes Hr) as Hb. rewrite <- Hl. unfold code_at. rewrite le_bytes_val, Hl by done.
  split; [exact Hr|]. pose proof (le_val_range bs Hb) as Hv. by rewrite Hl, Z2Nat.id in Hv by lia.
Qed.

Lemma byte_bytes b : urange 8 b -> le_bytes 1 b = [b].
Proof. intros Hb. cbn [le_bytes]. f_equal. change (u8 b = b). by apply uwrap_small. Qed.

Lemma rd8_inv p n r m1 :
  Jit.rd8 p n m = Ok r m1 -> m1 = m /\ exists b, r = (b, n + 1) /\ code_at m (p + n) [b] /\ urange 8 b.
Proof.
  intros (b & m2 & (-> & Hc & Hb)%fetched_at & [= <- <-])%bind_ok; [|lia]. split; [done|].
  exists b. split; [done|]. change (8 * 1) with 8 in Hb. by rewrite byte_bytes in Hc.
Qed.

Lemma rd32_inv p n r m1 :
  Jit.rd32 p n m = Ok r m1 -> m1 = m /\ exists v, r = (v, n + 4) /\ code_at m (p + n) (le_bytes 4 v) /\ urange 32 v.
Proof. intros (v & m2 & (-> & Hc & Hb)%fetched_at & [= <- <-])%bind_ok; [|lia]. eauto. Qed.

Lemma rd64_inv p n r m1 :
  Jit.rd64 p n m = Ok r m1 -> m1 = m /\ exists v, r = (v, n + 8) /\ code_at m (p + n) (le_bytes 8 v) /\ urange 64 v.
Proof. intros (v & m2 & (-> & Hc & Hb)%fetched_at & [= <- <-])%bind_ok; [|lia]. eauto. Qed.

Lemma imm_s8_inv p n r m1 :
  imm_s8 p n m = Ok r m1 -> m1 = m /\ exists b, r = (u64 (s8 b), n + 1) /\ code_at m (p + n) [b] /\ urange 8 b.
Proof. intros ([b k] & m2 & (-> & b' & [= -> ->] & Hc & Hb)%rd8_inv & [= <- <-])%bind_ok. eauto. Qed.

Lemma imm_s32_inv p n r m1 :
  imm_s32 p n m = Ok r m1 -> m1 = m /\ exists v, r = (u64 (s32 v), n + 4) /\ code_at m (p + n) (le_bytes 4 v) /\ urange 32 v.
Proof. intros ([b k] & m2 & (-> & b' & [= -> ->] & Hc & Hb)%rd32_inv & [= <- <-])%bind_ok. eauto. Qed.

(** The interpreter reads it too, wherever else its machine has got to. *)
Context (mx : machine) (Hmx : mem_of mx = mem_of m) (Hregs : regs_ok mx).
Context (p : Z) (d : dec).

Lemma code_mx a bs : code_at m a bs -> code_at mx a bs.
Proof. unfold code_at. by rewrite Hmx. Qed.

Lemma fetch8_at n b : code_at m (p + n) [b] -> fetch8 (with_p (p + n) d) mx = Ok (b, with_p (p + (n + 1)) d) mx.
Proof. intros Hc%code_mx. rewrite (fetch8_run _ _ b) by exact Hc. cbn [d_p with_p]. by rewrite <- Z.add_assoc. Qed.

Lemma fetch32_at n v :
  code_at m (p + n) (le_bytes 4 v) -> urange 32 v -> fetch32 (with_p (p + n) d) mx = Ok (v, with_p (p + (n + 4)) d) mx.
Proof.
  intros Hc%code_mx Hv. rewrite (fetch32_run _ _ v) by exact Hc. cbn [d_p with_p]. by rewrite <- Z.add_assoc, uwrap_small.
Qed.

Lemma fetch64_at n v :
  code_at m (p + n) (le_bytes 8 v) -> urange 64 v -> fetch64 (with_p (p + n) d) mx = Ok (v, with_p (p + (n + 8)) d) mx.
Proof.
  intros Hc%code_mx Hv. unfold fetch64. rewrite (fetch_run 8 _ _ (le_bytes 8 v)) by done. cbn [d_p with_p].
  rewrite le_val_bytes. change (8 * Z.of_nat 8) with 64. by rewrite <- Z.add_assoc, uwrap_small.
Qed.

Lemma simm8_at n b : code_at m (p + n) [b] -> simm8 (with_p (p + n) d) mx = Ok (u64 (s8 b), with_p (p + (n + 1)) d) mx.
Proof. intros Hc. unfold simm8. by rewrite (bind_run _ _ _ _ _ (fetch8_at n b Hc)). Qed.

Lemma simm32_at n v :
  code_at m (p + n) (le_bytes 4 v) -> urange 32 v ->
  simm32 (with_p (p + n) d) mx = Ok (u64 (s32 v), with_p (p + (n + 4)) d) mx.
Proof. intros Hc Hv. unfold simm32. by rewrite (bind_run _ _ _ _ _ (fetch32_at n v Hc Hv)). Qed.

(* ------------------------------------------------------------------ *)
(** ** Operands *)

(** The address an operand in memory names, in an instruction that ends at
    [next] ([ref_ea], before there is an instruction). *)
Definition ea_of (a : memop) (next : Z) (R : Z -> Z) : Z :=
  if o_riprel a then u64 (next + o_disp a)
  else u64 ((if o_has_base a then R (o_base a) else 0) +
            (if o_has_index a then R (o_index a) << o_scale a else 0) + o_disp a).

Record memop_ok (a : memop) : Prop := {
  mp_mem : o_mem a = true;
  mp_base : o_has_base a = true -> greg (o_base a);
  mp_index : o_has_index a = true -> greg (o_index a) /\ 0 <= o_scale a <= 3
}.

(** The interpreter's operand, once it knows where the instruction ends. *)
Definition points (dst : opnd) (a : memop) : Prop :=
  forall n, let x := fixup_rip (with_p n d) dst in
    is_reg x = false /\ o_addr x = ea_of a (dec_rip (with_p n d)) (reg mx) /\ o_seg x = 0.

Lemma low_field b : 0 <= b .& 7 < 8.
Proof. change 7 with (Z.ones 3). rewrite land_ones_uwrap by lia. pose proof (uwrap_range 3 b ltac:(lia)). unfold urange in *. lia. Qed.

Lemma ext_cases b r : rex_ext b r = 0 \/ rex_ext b r = 8.
Proof. unfold rex_ext. case_match; auto. Qed.

Lemma field_greg b rex r : greg ((b .& 7) .| rex_ext rex r).
Proof.
  pose proof (low_field b). assert (Hc : b .& 7 = 0 \/ b .& 7 = 1 \/ b .& 7 = 2 \/ b .& 7 = 3 \/ b .& 7 = 4 \/ b .& 7 = 5 \/
    b .& 7 = 6 \/ b .& 7 = 7) by lia. unfold greg. destruct (ext_cases rex r) as [-> | ->]; by repeat destruct Hc as [->|Hc]; [..|rewrite Hc].
Qed.

Lemma u64_add x y : u64 (u64 x + y) = u64 (x + y).
Proof. unfold uwrap. by rewrite Zplus_mod_idemp_l. Qed.

(** Adding the displacement. *)
Lemma disp_agrees mod_ n a k a' m1 :
  add_disp p n mod_ a m = Ok (k, a') m1 ->
  m1 = m /\ a' = MemOp (o_mem a) (o_has_base a) (o_has_index a) (o_riprel a) (o_base a) (o_index a) (o_scale a) (o_disp a') /\
  forall addr, urange 64 addr ->
    modrm_disp (with_p (p + n) d) mod_ addr mx = Ok (u64 (addr + (o_disp a' - o_disp a)), with_p (p + k) d) mx.
Proof.
  assert (Hs : forall addr x y, u64 (addr + (s64 (y + x) - y)) = u64 (addr + x)).
  { intros addr x y. replace (addr + (s64 (y + x) - y)) with (s64 (y + x) + (addr - y)) by lia.
    rewrite <- (u64_add (s64 (y + x))), swrap_congr, u64_add by lia. f_equal. lia. }
  unfold add_disp, modrm_disp. destruct (mod_ =? 1); [|destruct (mod_ =? 2)].
  - intros ([b k'] & m2 & (-> & b' & [= -> ->] & Hc & Hb)%rd8_inv & [= <- <- <-])%bind_ok.
    split; [done|]. split; [done|]. intros addr Ha. rewrite (bind_run _ _ _ _ _ (fetch8_at _ _ Hc)). cbv beta iota. cbn [o_disp]. by rewrite Hs.
  - intros ([b k'] & m2 & (-> & b' & [= -> ->] & Hc & Hb)%rd32_inv & [= <- <- <-])%bind_ok.
    split; [done|]. split; [done|]. intros addr Ha. rewrite (bind_run _ _ _ _ _ (fetch32_at _ _ Hc Hb)). cbv beta iota. cbn [o_disp]. by rewrite Hs.
  - intros [= <- <- <-]. split; [done|]. split; [by destruct a|]. intros addr Ha.
    replace (addr + (o_disp a - o_disp a)) with addr by lia. by rewrite uwrap_small.
Qed.

(** A memory operand that does not depend on where the instruction ends. *)
Lemma points_fixed a addr seg :
  o_riprel a = false -> seg = 0 ->
  addr = u64 ((if o_has_base a then reg mx (o_base a) else 0) +
    (if o_has_index a then reg mx (o_index a) << o_scale a else 0) + o_disp a) ->
  points (Opnd false (-2) addr seg) a.
Proof. intros Hr -> -> n. unfold fixup_rip, ea_of. cbn [is_reg o_reg o_addr o_seg negb andb Z.eqb Pos.eqb]. by rewrite Hr. Qed.

Context (Hseg : d_seg_base d = 0).

(** What the compiler's decoder makes of an operand in memory is the operand the
    interpreter finds. *)
Lemma modrm_agrees n hd k a m1 :
  code_at m (p + n) [hd] -> (hd >> 6 =? 3) = false -> modrm_mem p (n + 1) (d_rex d) hd m = Ok (k, a) m1 ->
  m1 = m /\ memop_ok a /\ exists dst,
    modrm (with_p (p + n) d) mx = Ok (reg_field (d_rex d) hd, dst, with_p (p + k) d) mx /\ points dst a.
Proof.
  intros Hh H3. unfold modrm_mem, modrm. rewrite (bind_run _ _ _ _ _ (fetch8_at _ _ Hh)). cbv beta iota zeta. rewrite H3.
  set (md := hd >> 6). destruct (hd .& 7 =? 4) eqn:E4; [|destruct ((hd .& 7 =? 5) && (md =? 0)) eqn:E5].
  - intros ([sib k'] & m2 & (-> & b & [= -> ->] & Hc & Hb)%rd8_inv & Hk)%bind_ok. unfold sib_addr.
    change (rex_x (with_p (p + (n + 1)) d)) with (rex_ext (d_rex d) 2) in *.
    set (i := ((b >> 3) .& 7) .| rex_ext (d_rex d) 2) in *. set (bs := (b .& 7) .| rex_ext (d_rex d) 1) in *.
    assert (Hsc : greg i /\ 0 <= b >> 6 <= 3).
    { split; [apply field_greg|]. unfold urange in Hb. rewrite Z.shiftr_div_pow2 by lia. change (2 ^ 6) with 64. zdm. }
    assert (Hx : exists hi ix sc, (if i =? 4 then (false, 0, 0) else (true, i, b >> 6)) = (hi, ix, sc) /\
      (if i =? RSP then 0 else u64 (reg mx i << (b >> 6))) = u64 (if hi then reg mx ix << sc else 0) /\
      (hi = true -> greg ix /\ 0 <= sc <= 3)).
    { change RSP with 4. destruct (Z.eqb_spec i 4) as [E|E]; eexists _, _, _; (split; [reflexivity|]); (split; [done|]); [done|]. done. }
    destruct Hx as (hi & ix & sc & Ex & Ev & Hix). rewrite Ex in Hk.
    destruct ((b .& 7 =? 5) && (md =? 0)) eqn:Eb.
    + apply bind_ok in Hk as ([v k'] & m2 & (-> & b' & [= -> ->] & Hd & Hv)%rd32_inv & Hk).
      apply disp_agrees in Hk as (-> & Ha & Hdisp). split; [done|]. rewrite Ha. split; [by split|].
      eexists. split.
      * rewrite (bind_run _ _ _ (u64 ((if i =? RSP then 0 else u64 (reg mx i << (b >> 6))) + s32 b'), with_p (p + (n + 1 + 1 + 4)) d) mx).
        2:{ rewrite (bind_run _ _ _ _ _ (fetch8_at _ _ Hc)). cbv beta iota zeta.
            change (rex_x (with_p (p + (n + 1 + 1)) d)) with (rex_ext (d_rex d) 2). fold i. rewrite (bind_run _ _ _ _ _ (getr_run i mx)). fold md in Eb. rewrite Eb.
            by rewrite (bind_run _ _ _ _ _ (fetch32_at _ _ Hd Hv)). }
        cbv beta iota zeta. erewrite bind_run by (apply Hdisp; by apply uwrap_range). reflexivity.
      * apply points_fixed; [done|exact Hseg|]. cbn [o_has_base o_has_index o_index o_scale o_disp] in *. rewrite Ev, u64_add, <- !Z.add_assoc, u64_add. f_equal. lia.
    + apply disp_agrees in Hk as (-> & Ha & Hdisp). split; [done|]. rewrite Ha. split; [split; [done| |done]; intros _; apply field_greg|].
      eexists. split.
      * rewrite (bind_run _ _ _ (u64 ((if i =? RSP then 0 else u64 (reg mx i << (b >> 6))) + reg mx bs), with_p (p + (n + 1 + 1)) d) mx).
        2:{ rewrite (bind_run _ _ _ _ _ (fetch8_at _ _ Hc)). cbv beta iota zeta.
            change (rex_x (with_p (p + (n + 1 + 1)) d)) with (rex_ext (d_rex d) 2). fold i. rewrite (bind_run _ _ _ _ _ (getr_run i mx)). fold md in Eb. rewrite Eb.
            change (rex_b (with_p (p + (n + 1 + 1)) d)) with (rex_ext (d_rex d) 1). fold bs. by rewrite (bind_run _ _ _ _ _ (getr_run bs mx)). }
        cbv beta iota zeta. erewrite bind_run by (apply Hdisp; by apply uwrap_range). reflexivity.
      * apply points_fixed; [done|exact Hseg|]. cbn [o_has_base o_base o_has_index o_index o_scale o_disp] in *. rewrite Ev, u64_add, <- !Z.add_assoc, u64_add. f_equal. lia.
  - intros ([v k'] & m2 & (-> & b' & [= -> ->] & Hd & Hv)%rd32_inv & Hk)%bind_ok. assert (Hmd : md = 0) by lia.
    rewrite Hmd in Hk. unfold add_disp in Hk. cbn [Z.eqb] in Hk. injection Hk as <- <- <-.
    split; [done|]. split; [by split|]. rewrite (bind_run _ _ _ _ _ (fetch32_at _ _ Hd Hv)). cbv beta iota.
    eexists. split; [reflexivity|]. intros k. unfold fixup_rip, ea_of. cbn [is_reg o_reg o_addr o_seg negb andb Z.eqb Pos.eqb o_riprel o_disp].
    split; [done|]. split; [|exact Hseg]. by rewrite s32_u64 by (unfold signed; pose proof (swrap_bounds 32 b'); lia).
  - intros Hk. apply disp_agrees in Hk as (-> & Ha & Hdisp). split; [done|]. rewrite Ha. split; [split; [done| |done]; intros _; apply field_greg|].
    change (rex_b (with_p (p + (n + 1)) d)) with (rex_ext (d_rex d) 1). fold (rm_field (d_rex d) hd).
    rewrite (bind_run _ _ _ _ _ (getr_run _ mx)). eexists. split.
    + erewrite bind_run by (apply Hdisp; apply reg_range; [done|apply field_greg]). reflexivity.
    + apply points_fixed; [done|exact Hseg|]. cbn [o_has_base o_base o_has_index o_index o_scale o_disp] in *. f_equal. lia.
Qed.

(** An operand in a register or in memory. *)
Lemma operand_agrees n hd field o k o' m1 :
  code_at m (p + n) [hd] -> rm_or_mem p (n + 1) (d_rex d) hd field o m = Ok (k, o') m1 ->
  m1 = m /\ exists dst,
    modrm (with_p (p + n) d) mx = Ok (reg_field (d_rex d) hd, dst, with_p (p + k) d) mx /\
    if hd >> 6 =? 3 then dst = reg_opnd (rm_field (d_rex d) hd) /\ o' = field (rm_field (d_rex d) hd) o
    else exists a, memop_ok a /\ points dst a /\ o' = iw_mo a o.
Proof.
  intros Hh. unfold rm_or_mem. destruct (hd >> 6 =? 3) eqn:E3.
  - intros [= <- <- <-]. split; [done|]. eexists. split; [|done].
    unfold modrm. rewrite (bind_run _ _ _ _ _ (fetch8_at _ _ Hh)). cbv beta iota zeta. rewrite E3. reflexivity.
  - intros ([k' a] & m2 & Ha & [= <- <- <-])%bind_ok. destruct (modrm_agrees _ _ _ _ _ Hh E3 Ha) as (-> & Hok & dst & Hm & Hp).
    split; [done|]. exists dst. split; [exact Hm|]. by exists a.
Qed.
End reads.

Section front.
Context `{HostOS} `{HostFloat}.

(* ------------------------------------------------------------------ *)
(** ** The bytes in front of the opcode *)

(** The record before the opcode is looked at. *)
Definition blank_of (rex : Z) (has : bool) : insn := iw_has_rex has (iw_size (if nz (rex .& 8) then 8 else 4) zero_insn).

(** A prefix is no opcode to the compiler. *)
Lemma decoded_no_prefix p n rex mand op o m r m1 c d :
  decode_op p n rex mand op o m = Ok (Some r) m1 -> prefix c op d = None.
Proof.
  intros Hd. unfold prefix, is_one_of. cbn [existsb].
  assert (Hn : forall x, (forall y, decode_op p n rex mand y o m = if y =? x then Ok None m else decode_op p n rex mand y o m) -> (op =? x) = false).
  { intros x Hx. destruct (op =? x) eqn:E; [|done]. rewrite Hx, E in Hd. discriminate. }
  assert (Hx : forall x, decode_op p n rex mand x o m = Ok None m -> (op =? x) = false).
  { intros x Hx. apply Hn. intros y. destruct (Z.eqb_spec y x) as [->|]; done. }
  by rewrite !Hx by reflexivity.
Qed.

(** The interpreter behind the same bytes, at [rip + n]. *)
Record at_opcode (rip n mand op : Z) (d : dec) (m : machine) : Prop := {
  ao_seg : d_seg_base d = 0;
  ao_opsize : mand = 0 -> d_opsize d = if nz (d_rex d .& 8) then 8 else 4;
  ao_mand : d_mand d = mand;
  ao_rip k : dec_rip (with_p (rip + k) d) = u64 (rip + k);
  ao_run : exec_insn rip m = exec_op (with_p (rip + n) d) op (upd_m (with_cur_rip rip) m)
}.

Lemma rex_no_prefix c b d : (b .& 0xF0 =? 0x40) = true -> prefix c b d = None.
Proof.
  intros Hb. unfold prefix, is_one_of. cbn [existsb].
  assert (Hx : forall x, (x .& 0xF0 =? 0x40) = false -> (b =? x) = false)
    by (intros x Hx; destruct (Z.eqb_spec b x) as [->|]; congruence).
  by rewrite !Hx by reflexivity.
Qed.

Lemma prefixes_stop k d m b :
  code_at m (d_p d) [b] -> (forall c, prefix c b d = None) -> prefixes (S k) d m = Ok d m.
Proof.
  intros Hc Hp. cbn [prefixes]. rewrite (bind_run _ _ _ _ _ (host_read1 m _ _ Hc)).
  erewrite bind_run by reflexivity. by rewrite Hp.
Qed.

Section at_rip.
Context (rip : Z) (m : machine) (Hb : mem_ok (mem_of m)).
#[local] Abbreviation m0 := (upd_m (with_cur_rip rip) m).

(** REX, and the opcode behind it. *)
Lemma rex_stage n b d rex op n' m1 :
  code_at m (rip + n) [b] -> urange 8 b -> d_rex d = 0 -> d_has_rex d = false ->
  (if b .& 0xF0 =? 0x40 then '(op, n) ← Jit.rd8 rip (n + 1); mret (b, op, n) else mret (0, b, n + 1) : M (Z * Z * Z)) m =
    Ok (rex, op, n') m1 ->
  m1 = m /\ urange 8 op /\ exists d2, (d2' ← rex_prefix (with_p (rip + n) d); fetch8 d2') m0 = Ok (op, with_p (rip + n') d2) m0 /\
    d_rex d2 = rex /\ d_has_rex d2 = (b .& 0xF0 =? 0x40) /\ d_seg_base d2 = d_seg_base d /\ d_mand d2 = d_mand d /\
    d_p0 d2 = d_p0 d /\ d_rip0 d2 = d_rip0 d /\
    (d_osize d = Size4 -> d_opsize d2 = if nz (rex .& 8) then 8 else 4).
Proof.
  intros Hc B0 Hr Hh. unfold rex_prefix.
  assert (Hread : host_read (d_p (with_p (rip + n) d)) 1 m0 = Ok b m0) by (by apply host_read1).
  destruct (b .& 0xF0 =? 0x40) eqn:E40.
  - intros ([op' k] & m2 & (-> & b' & [= -> ->] & C1 & B1)%rd8_inv & [= <- <- <- <-])%bind_ok; [|done].
    split; [done|]. split; [done|].
    exists (if nz (b .& 8) then with_opsize Size8 (with_rex b d) else with_rex b d). split.
    + unfold mbind at 1, M_bind at 1. rewrite (bind_run _ _ _ _ _ Hread), E40. unfold mret at 1, M_ret at 1. cbv zeta.
      rewrite (fetch8_run _ _ b'); [|by destruct (nz _); cbn [d_p with_opsize with_rex with_p]; rewrite <- Z.add_assoc].
      unfold with_p. destruct (nz (b .& 8)); cbn; do 3 f_equal; lia.
    + destruct (nz (b .& 8)); split_and!; try done. intros Ho. unfold d_opsize. cbn. by rewrite Ho.
  - intros [= <- <- <- <-]. split; [done|]. split; [done|]. exists d. split.
    + unfold mbind at 1, M_bind at 1. rewrite (bind_run _ _ _ _ _ Hread), E40. unfold mret at 1, M_ret at 1.
      rewrite (fetch8_run _ _ b) by exact Hc. cbn [d_p with_p]. by rewrite <- Z.add_assoc.
    + split_and!; try done. intros Ho. unfold d_opsize. by rewrite Ho.
Qed.

Lemma decode_inv o m1 :
  decode rip rip m = Ok (Some o) m1 ->
  exists d n mand op n' o', at_opcode rip n mand op d m /\
    decode_op rip n (d_rex d) mand op (blank_of (d_rex d) (d_has_rex d)) m = Ok (Some (n', o')) m1 /\
    o = finished rip n' o' /\ urange 8 op /\ (mand <> 0 -> op = 0x0F).
Proof.
  unfold decode.
  intros ([b0 n0] & m2 & (-> & b & [= -> ->] & C0 & B0)%rd8_inv & Hd)%bind_ok; [|done].
  apply bind_ok in Hd as ([[mand b1] n1] & m2 & Hmand & Hd).
  apply bind_ok in Hd as ([[rex op] n2] & m3 & Hrex & Hd).
  assert (E1 : m2 = m /\ exists n d1, n1 = n + 1 /\ code_at m (rip + n) [b1] /\ urange 8 b1 /\
    ((forall c, prefix c b1 d1 = None) -> prefixes (prefix_fuel m0) (start_dec rip) m0 = Ok (with_p (rip + n) d1) m0) /\
    d_rex d1 = 0 /\ d_has_rex d1 = false /\ d_seg_base d1 = 0 /\ d_mand d1 = mand /\ d_p0 d1 = rip /\ d_rip0 d1 = rip /\
    (mand = 0 -> d_osize d1 = Size4)).
  { change (0 + 1) with 1 in *. destruct (is_one_of b [0x66; 0xF2; 0xF3]) eqn:Eb.
    - apply bind_ok in Hmand as ([b' k'] & m3' & (-> & b2 & [= -> ->] & C2 & B2)%rd8_inv & [= <- <- <- <-]); [|done].
      split; [done|]. exists 1, (if b =? 0x66 then with_mand 0x66 (with_opsize Size2 (start_dec rip)) else with_mand b (start_dec rip)).
      split; [done|]. split; [exact C2|]. split; [exact B2|].
      assert (Hb' : b = 0x66 \/ b = 0xF2 \/ b = 0xF3) by (unfold is_one_of in Eb; cbn [existsb] in Eb; lia).
      assert (Hlp : forall c, prefix c b (start_dec rip) = Some (with_p (rip + 1) (if b =? 0x66 then with_mand 0x66 (with_opsize Size2 (start_dec rip)) else with_mand b (start_dec rip)))).
      { intros c. by destruct Hb' as [->|[->| ->]]. }
      split; [|by destruct Hb' as [->|[->| ->]]]. intros Hn. unfold prefix_fuel. destruct (size (w_mem (m_w m0))) as [|k] eqn:Es.
      { exfalso. apply map_size_empty_iff in Es. unfold code_at, mem_of in C0. cbn [upd_m m_w] in Es. rewrite Es in C0. discriminate. }
      change (prefixes (S (S k)) (start_dec rip) m0) with ((b ← host_read (d_p (start_dec rip)) 1; c ← get_c id;
        match prefix c b (start_dec rip) with Some d => prefixes (S k) d | None => mret (start_dec rip) end) m0).
      rewrite Z.add_0_r in C0. rewrite (bind_run _ _ _ _ _ (host_read1 m0 rip b C0)). erewrite bind_run by reflexivity. rewrite Hlp.
      apply (prefixes_stop k _ m0 b2); [exact C2|]. intros c. specialize (Hn c). unfold prefix in *. by destruct (b2 =? 0x66), (b2 =? 0x67), (is_one_of b2 [0xF2; 0xF3]), (is_one_of b2 [0x2E; 0x36; 0x3E; 0x26]), (b2 =? 0x64), (b2 =? 0x65).
    - injection Hmand as <- <- <- <-. split; [done|]. exists 0, (start_dec rip). split; [done|]. split; [exact C0|]. split; [exact B0|].
      split; [|done]. intros Hn. rewrite Z.add_0_r in *. apply (prefixes_stop _ (start_dec rip) m0 b C0 Hn). }
  destruct E1 as (-> & n & d1 & -> & C1 & B1 & Hpre & F1 & F2 & F3 & F4 & F5 & F6 & F7).
  destruct (rex_stage n b1 d1 rex op n2 m3 C1 B1 F1 F2 Hrex) as (-> & Bo & d2 & Hrun & G1 & G2 & G3 & G4 & G5 & G6 & G7).
  destruct (nz mand && negb (op =? 0x0F)) eqn:Em; [discriminate|].
  apply bind_ok in Hd as (r & m2 & Hop & Hr). destruct r as [[n' o']|]; [|discriminate]. injection Hr as <- <-.
  exists d2, n2, mand, op, n', o'. split; [|split; [by rewrite G1, G2|split; [done|split; [done|]]]].
  - split; [congruence|intros Hm; rewrite <- G1 in G7; auto|congruence| |].
    + intros k. unfold dec_rip. cbn. rewrite G5, G6, F5, F6. f_equal. lia.
    + unfold exec_insn. rewrite (bind_run _ _ m tt m0), (bind_run _ _ m0 (prefix_fuel m0) m0) by done.
      assert (Hn : forall c, prefix c b1 d1 = None).
      { intros c. destruct (b1 .& 0xF0 =? 0x40) eqn:E40; [by apply rex_no_prefix|]. injection Hrex as _ <- _. by eapply decoded_no_prefix. }
      rewrite (bind_run _ _ _ _ _ (Hpre Hn)). apply bind_ok in Hrun as (dd & mm & Hr & Hf).
      by rewrite (bind_run _ _ _ _ _ Hr), (bind_run _ _ _ _ _ Hf).
  - intros Hm. unfold nz in Em. destruct (Z.eqb_spec mand 0); [done|]. cbn in Em. destruct (Z.eqb_spec op 0x0F); [done|discriminate].
Qed.
End at_rip.
End front.
