(* ===== verification/JitSame.v ===== *)
(** What the compiler accepts, the interpreter does ([decode] and [put_insn]
    in [src/jit.c], [step] in [src/cpu.c]): whatever bytes [decode] takes for an
    instruction of a block, the interpreter run on the same bytes leaves what
    the compiled code was proved to leave. *)
From S2P Require Import Prelude.
From S2P Require Import Memory.
From S2P Require Import AddressSpace.
From S2P Require Import SampleHost.
From S2P Require Import Flags.
From S2P Require Import Float.
From S2P Require Import Machine.
From S2P Require Import Access.
From S2P Require Import Decode.
From S2P Require Import Sse.
From S2P Require Import Step.
From S2P Require Import Keeps.
From S2P Require Import Safety.
From S2P Require Import Registers.
From S2P Require Import Encoding.
From S2P Require Import Jit.
From S2P Require Import JitEmit.
From S2P Require Import JitFlags.
From S2P Require Import JitRegs.
From S2P Require Import JitLive.
From S2P Require Import JitBlock.
From S2P Require Import JitAgree.
From S2P Require Import JitRel.
From S2P Require Import JitSem.
From S2P Require Import JitCode.
From S2P Require Import JitMem.
From S2P Require Import JitWorld.
From S2P Require Import JitAccess.
From S2P Require Import JitRoutines.
From S2P Require Import JitOps.
From S2P Require Import JitDoes.
From S2P Require Import JitRmw.
From S2P Require Import JitWhole.
From S2P Require Import JitDecode.
From S2P Require Import JitReads.

Section same.
Context `{HostOS} `{HostFloat}.

(* ------------------------------------------------------------------ *)
(** ** The two runs *)

(** The instruction pointer and the address of the running instruction are the
    interpreter's own: compiled code leaves the first alone and notes the
    second only where an access might fault. *)
Definition but_rips (m : machine) : machine := upd_m (fun c => with_rip 0 (with_cur_rip 0 c)) m.
Definition same_but_rips (m m' : machine) : Prop := but_rips m = but_rips m'.

(** The interpreter's run of an instruction that ends at [next], and what the
    compiler's record of it stands for.  Where C leaves the interpreter's
    arithmetic undefined nothing is asked. *)
Definition follows (next : Z) (rI rC : outcome unit) : Prop :=
  match rI with
  | Trap (Undefined _) => True
  | Trap _ => (exists t, rC = Trap t) \/ exists mC, rC = Ok tt mC /\ c_running (m_c mC) = false
  | Ok _ mI => exists mC, rC = Ok tt mC /\ c_running (m_c mC) = c_running (m_c mI) /\
      if c_running (m_c mI) then same_but_rips mC mI /\ c_rip (m_c mI) = next else faults mC = faults mI
  end.

Lemma same_rip_rips m m' : same_but_rip m m' -> same_but_rips m m'.
Proof. intros Hm. exact (f_equal (upd_m (fun c => with_rip 0 (with_cur_rip 0 c))) Hm). Qed.

Lemma alike_follows next rI rC : alike next rI rC -> follows next rI rC.
Proof.
  unfold alike, follows. destruct rI as [[] mI|[]]; try done. intros (mC & HC & Hr & Hs). exists mC. split; [done|]. split; [done|].
  destruct (c_running (m_c mI)); [|done]. destruct Hs as [Hs ?]. split; [by apply same_rip_rips|done].
Qed.

(* ------------------------------------------------------------------ *)
(** ** Registers *)

Context (rip : Z) (m : machine) (Hm : regs_ok m) (Hfl : urange 32 (c_flags (m_c m))) (Hrun : c_running (m_c m) = true).
Context (Hbytes : mem_ok (mem_of m)).
#[local] Abbreviation m0 := (upd_m (with_cur_rip rip) m).
#[local] Abbreviation m1 n := (upd_m (with_rip n) m0).

Lemma regs_follow o next (f : gstate -> gstate) R F :
  urange 64 next -> mem_part o rip m = Ok f m -> (forall j, greg j -> (f (reg m, c_flags (m_c m))).1 j = R j) ->
  (f (reg m, c_flags (m_c m))).2 = F ->
  follows next (Ok tt (set_gpr R F (m1 next))) (insn_sem all_flags o rip m).
Proof.
  intros Hn Hp HR HF. unfold insn_sem. rewrite (bind_run _ _ _ _ _ Hp). unfold if_running, get_c, gets, mbind, M_bind.
  rewrite Hrun. unfold follows, then_regs, modify, all_flags. cbn [set_gpr upd_m m_c c_running with_flags with_r with_rip with_cur_rip c_rip].
  rewrite Hrun. eexists. split; [reflexivity|]. split; [exact Hrun|]. split; [|by apply uwrap_small].
  change (same_but_rips (set_gpr (f (reg m, c_flags (m_c m))).1 (f (reg m, c_flags (m_c m))).2 m) (set_gpr R F (m1 next))).
  rewrite HF, (set_gpr_eq _ R) by exact HR. done.
Qed.

(** A register written. *)
Lemma set_reg_gpr r x mS :
  regs_ok mS -> urange 32 (c_flags (m_c mS)) -> greg r -> urange 64 x ->
  set_reg r x mS = set_gpr (upd_reg r x (reg mS)) (c_flags (m_c mS)) mS.
Proof.
  intros HmS HfS Hr Hx. transitivity (set_gpr (reg (set_reg r x mS)) (c_flags (m_c mS)) (set_reg r x mS)).
  - rewrite set_gpr_flags by exact (proj1 (set_reg_ok _ _ _ HmS Hx)). symmetry. exact (reflag_same (set_reg r x mS) HfS).
  - rewrite (set_gpr_eq _ (upd_reg r x (reg mS))); [done|]. intros j Hj. by rewrite reg_set by (done || apply Hj).
Qed.

Lemma setreg_gpr r v size mS :
  size = 4 \/ size = 8 -> regs_ok mS -> urange 32 (c_flags (m_c mS)) -> greg r ->
  setreg r v size mS = Ok tt (set_gpr (upd_reg r (uwrap (size * 8) v) (reg mS)) (c_flags (m_c mS)) mS).
Proof.
  intros Hs HmS HfS Hr. assert (Hsz : opsize size) by (unfold opsize; lia). rewrite setreg_run by done.
  pose proof (reg_range mS r HmS Hr) as Ho. pose proof (merged_range (reg mS r) v size Hsz Ho) as Hx. f_equal.
  rewrite set_reg_gpr by done. do 2 f_equal. unfold Registers.merged. destruct Hs as [-> | ->]; cbn [Z.eqb Pos.eqb Z.mul Pos.mul].
  - by rewrite trunc_sz_uwrap by (unfold opsize; lia).
  - unfold urange in Ho. rewrite Z.div_small, trunc_sz_uwrap by (done || unfold opsize; lia). done.
Qed.

(* ------------------------------------------------------------------ *)
(** ** Operations *)

(** Between registers, or a register and a constant. *)
Lemma op_follows o next rest :
  urange 64 next -> i_kind o = K_RR \/ i_kind o = K_RI -> greg (i_reg o) -> i_size o = 1 \/ i_size o = 4 \/ i_size o = 8 ->
  ends o (reg_opnd (i_reg o)) (reg_rd (i_has_rex o) (reg m) (i_reg o) (i_size o)) (operand2 o (reg m)) rest ->
  follows next (rest (m1 next)) (insn_sem all_flags o rip m).
Proof.
  intros Hn Hk Hg Hs He. destruct (He (m1 next) Hfl) as (v & Hv & ->). change (c_flags (m_c (m1 next))) with (c_flags (m_c m)).
  set (F := helper_flags _ _ _ _ _ _). set (r := op_result _ _ _ _) in *.
  assert (Hend : (if i_no_write o then Ok tt (upd_m (with_flags F) (m1 next))
      else wr (reg_opnd (i_reg o)) v (i_size o) (i_has_rex o) (upd_m (with_flags F) (m1 next))) =
    Ok tt (set_gpr (if i_no_write o then reg m else reg_wr (i_has_rex o) (reg m) (i_reg o) r (i_size o)) F (m1 next))).
  { destruct (i_no_write o); [exact (f_equal (Ok tt) (eq_sym (set_gpr_flags F (m1 next) (proj1 Hm))))|]. exact (wr_gpr (i_reg o) v r (i_size o) (i_has_rex o) F (m1 next) Hs Hm Hg Hv). }
  rewrite Hend. apply (regs_follow o next (fun s => reg_sem o s.1 s.2)); try done.
  - unfold mem_part. by destruct Hk as [-> | ->].
  - intros j _. unfold reg_sem. cbn [fst snd]. destruct Hk as [Hk|Hk]; rewrite Hk; unfold ref_alu, ref_op; cbn [fst snd]; by destruct (i_no_write o).
  - unfold reg_sem. cbn [fst snd]. by destruct Hk as [Hk|Hk]; rewrite Hk.
Qed.

(* ------------------------------------------------------------------ *)
(** ** Operands *)

Definition with_operand (w : option memop) (field : insn -> insn) (o : insn) : insn :=
  match w with None => field o | Some a => iw_mo a o end.

(* ------------------------------------------------------------------ *)
(** ** An operation on an operand *)

(** Where an operand lies, for an instruction that ends at [next]: in register
    [r], or where [w] says. *)
Inductive lies (next : Z) (dst : opnd) (r : Z) : option memop -> Prop :=
| lies_reg : greg r -> dst = reg_opnd r -> lies next dst r None
| lies_mem a : memop_ok a -> is_reg dst = false -> o_addr dst = ea_of a next (reg m) ->
    (forall size rex x, rd dst size rex x = ld (ea_of a next (reg m)) size x) ->
    (forall v size rex x, wr dst v size rex x = Machine.st (ea_of a next (reg m)) v size x) ->
    lies next dst r (Some a).

(** Only the low bits of the second operand count. *)
Lemma ends_mod o dst a b b' rest :
  opsize (i_size o) -> is_one_of (i_op o) reg_ops = true -> uwrap (i_size o * 8) b = uwrap (i_size o * 8) b' ->
  ends o dst a b rest -> ends o dst a b' rest.
Proof.
  intros Hs Hop Hb He mS Hf. destruct (He mS Hf) as (v & Hv & Hr).
  pose proof (op_result_mod (i_op o) (i_size o) a a b b' Hs Hop eq_refl Hb) as Hres.
  exists v. split; [by rewrite Hv|]. rewrite Hr.
  by rewrite (helper_flags_mod (op_helper (i_op o)) (c_flags (m_c mS)) a a b b' _ _ (i_size o) Hs eq_refl Hb Hres).
Qed.

(** What must hold of the record of an operation on the operand at [w]. *)
Definition operates (o : insn) (r b : Z) (w : option memop) : Prop :=
  match w with
  | None => (i_kind o = K_RR \/ i_kind o = K_RI) /\ i_reg o = r /\ operand2 o (reg m) = b
  | Some a => (i_kind o = K_MR \/ i_kind o = K_MI) /\ i_mo o = a /\ mov_value o (reg m) = b
  end.

Lemma operation_follows o next dst r b w rest :
  urange 64 next -> i_next o = next -> lies next dst r w -> operates o r b w -> (w <> None -> i_op o <> 0x88) ->
  i_size o = 1 \/ i_size o = 4 \/ i_size o = 8 -> (forall a, ends o dst a b (rest a)) ->
  follows next ((a ← rd dst (i_size o) (i_has_rex o); rest a) (m1 next)) (insn_sem all_flags o rip m).
Proof.
  intros Hn En [Hr ->|a Ha _ _ Hrd Hwr] Ho Hmov Hs He.
  - destruct Ho as (Hk & <- & <-). rewrite (bind_run _ _ _ _ _ (rd_operand (i_reg o) (i_size o) _ (m1 next) Hs)).
    by apply (op_follows o next).
  - destruct Ho as (Hk & <- & <-). apply alike_follows. unfold mbind, M_bind. rewrite Hrd. rewrite <- En in *.
    apply (rmw_alike m Hm Hfl Hrun rip (i_next o) Hn o dst rest); [done|by apply Hmov|done|done|].
    intros v x. apply Hwr.
Qed.

(** A constant moved to an operand, which the interpreter does not read. *)
Lemma move_follows o next dst r b w v :
  urange 64 next -> i_next o = next -> lies next dst r w -> operates o r b w -> i_op o = 0x88 -> i_no_write o = false ->
  i_size o = 1 \/ i_size o = 4 \/ i_size o = 8 -> uwrap (i_size o * 8) v = uwrap (i_size o * 8) b ->
  follows next (wr dst v (i_size o) (i_has_rex o) (m1 next)) (insn_sem all_flags o rip m).
Proof.
  intros Hn En Hl Ho Hop Hnw Hs Hv. assert (Hsz : opsize (i_size o)) by (unfold opsize; lia). destruct Hl as [Hr ->|a Ha _ _ Hrd Hwr].
  - destruct Ho as (Hk & <- & <-). apply (op_follows o next (wr (reg_opnd (i_reg o)) v (i_size o) (i_has_rex o))); try done.
    intros mS HfS. exists v. rewrite Hnw, Hop. cbn [op_helper Z.eqb Pos.eqb helper_flags]. fold (reflag (c_flags (m_c mS)) mS). rewrite reflag_same by done.
    split; [|done]. rewrite op_result_value by done. exact Hv.
  - destruct Ho as (Hk & <- & <-). apply alike_follows. rewrite Hwr, <- En in *.
    apply (stored_alike m Hm Hfl rip (i_next o) Hn o v (mov_value o (reg m))); try done.
    by apply insn_sem_mov.
Qed.

Context (n mand op : Z) (d : dec) (Hat : at_opcode rip n mand op d m).
#[local] Abbreviation rex := (d_rex d).

Lemma next_range k : urange 64 (u64 (rip + k)).
Proof. by apply uwrap_range. Qed.

Lemma advance_run k : ADVANCE (with_p (rip + k) d) m0 = Ok tt (m1 (u64 (rip + k))).
Proof. unfold ADVANCE. by rewrite (ao_rip _ _ _ _ _ _ Hat). Qed.

Lemma operand_lies hd k field o k' o' m2 :
  code_at m (rip + k) [hd] -> rm_or_mem rip (k + 1) rex hd field o m = Ok (k', o') m2 ->
  m2 = m /\ exists dst w,
    modrm (with_p (rip + k) d) m0 = Ok (reg_field rex hd, dst, with_p (rip + k') d) m0 /\
    o' = with_operand w (field (rm_field rex hd)) o /\ (hd >> 6 =? 3) = bool_decide (w = None) /\
    forall e, lies (u64 (rip + e)) (fixup_rip (with_p (rip + e) d) dst) (rm_field rex hd) w.
Proof.
  intros Hc Hop. destruct (operand_agrees m Hbytes m0 eq_refl Hm rip d (ao_seg _ _ _ _ _ _ Hat) k hd field o k' o' m2 Hc Hop)
    as (-> & dst & Hmod & Hdst). split; [done|]. exists dst. destruct (hd >> 6 =? 3) eqn:E3.
  - destruct Hdst as [-> ->]. exists None. split_and!; try done. intros e. constructor; [apply field_greg|done].
  - destruct Hdst as (a & Ha & Hp & ->). exists (Some a). split_and!; try done. intros e. destruct (Hp (rip + e)) as (Hr & He & Hs).
    rewrite (ao_rip _ _ _ _ _ _ Hat) in He. change (reg m0) with (reg m) in He.
    assert (Hu : u64 (o_addr (fixup_rip (with_p (rip + e) d) dst) + o_seg (fixup_rip (with_p (rip + e) d) dst)) =
      ea_of a (u64 (rip + e)) (reg m)).
    { rewrite He, Hs, Z.add_0_r. unfold ea_of. case_match; apply uwrap_uwrap; lia. }
    constructor; try done.
    + intros size x y. unfold rd. by rewrite Hr, Hu.
    + intros v size x y. unfold wr. by rewrite Hr, Hu.
Qed.

Lemma modrm_advance_run k k' r dst :
  modrm (with_p (rip + k) d) m0 = Ok (r, dst, with_p (rip + k') d) m0 ->
  modrm_advance (with_p (rip + k) d) m0 =
  Ok (r, fixup_rip (with_p (rip + k') d) dst, with_p (rip + k') d) (m1 (u64 (rip + k'))).
Proof.
  intros Hmod. unfold modrm_advance. rewrite (bind_run _ _ _ _ _ Hmod). cbv beta iota zeta.
  by rewrite (bind_run _ _ _ _ _ (advance_run k')).
Qed.

(* ------------------------------------------------------------------ *)
(** ** Groups of opcodes *)

(** The compiler has code for the record, and the interpreter does what it
    stands for; a move from a register to memory must be to memory that may be
    read if it may be written, as the interpreter reads it first. *)
Definition agreed (o : insn) : Prop :=
  mem_insn o /\ i_fneed o = 0 /\
  ((i_kind o = K_MR -> i_op o = 0x88 -> access_ok (m_as m) (ref_ea o (reg m)) (i_size o) RSD_PROT_W = true ->
    access_ok (m_as m) (ref_ea o (reg m)) (i_size o) RSD_PROT_R = true) ->
   follows (i_next o) (exec_insn rip m) (insn_sem all_flags o rip m)).

Record op_record (o : insn) (w : option memop) : Prop := {
  or_op : is_one_of (i_op o) reg_ops = true;
  or_reg : greg (i_reg o);
  or_src : greg (i_src o);
  or_size : i_size o = 1 \/ i_size o = 4 \/ i_size o = 8;
  or_imm : urange 64 (i_imm o);
  or_one : is_one_of (i_op o) [OP_INC; OP_DEC] = true -> (i_kind o = K_RI \/ i_kind o = K_MI) /\ i_imm o = 1;
  or_need : i_fneed o = 0
}.

Lemma memop_ea_ok o a : memop_ok a -> i_mo o = a -> ea_ok o.
Proof. intros [_ Hb Hi] <-. by split. Qed.

Lemma op_record_op_ok o w :
  op_record o w -> i_kind o = K_RR \/ i_kind o = K_RI \/ i_kind o = K_RM \/ i_kind o = K_MR \/ i_kind o = K_MI -> op_ok o.
Proof. intros [? ? ? ? ? ? Hf] Hk. by split; rewrite ?Hf. Qed.

Lemma operates_insn o r b w next dst :
  op_record o w -> operates o r b w -> lies next dst r w -> mem_insn o.
Proof.
  intros Ho Hop Hl. pose proof (op_record_op_ok o w Ho) as Hok. destruct Ho as [Ho1 Ho2 Ho3 Ho4 Ho5 Ho6 Ho7].
  unfold mem_insn. destruct Hl as [Hr _|a Ha _ _ _ _].
  - destruct Hop as (Hk & _). assert (Ha : alu_ok o).
    { split; rewrite ?Ho7; try done. intros Hi. destruct (Ho6 Hi) as [[Hk'|Hk'] ?]; [done|]. destruct Hk; congruence. }
    by destruct Hk as [-> | ->].
  - destruct Hop as (Hk & Hmo & _). pose proof (memop_ea_ok o a Ha Hmo) as Hea.
    assert (Hmr : if i_op o =? 0x88 then mov_ok o else rmw_ok o).
    { destruct (Z.eqb_spec (i_op o) 0x88) as [E|E].
      - split; try done. unfold opsize. tauto.
      - split; try done; [apply Hok; tauto|]. intros Hi. destruct (Ho6 Hi) as [[Hk'|Hk'] ?]; [|done]. destruct Hk; congruence. }
    by destruct Hk as [-> | ->].
Qed.

(** A constant, with the upper half cut off. *)
Lemma narrow_imm_mod o : i_size o = 1 \/ i_size o = 4 \/ i_size o = 8 ->
  uwrap (i_size o * 8) (i_imm (narrow_imm o)) = uwrap (i_size o * 8) (i_imm o) /\
  (urange 64 (i_imm o) -> urange 64 (i_imm (narrow_imm o))).
Proof.
  intros Hs. unfold narrow_imm. destruct (Z.eqb_spec (i_size o) 4) as [E|E]; [|done].
  cbn [i_imm iw_imm]. rewrite E. change 0xffffffff with (Z.ones 32). rewrite land_ones_uwrap by lia. split; [by apply uwrap_uwrap; lia|].
  intros _. eapply urange_mono; [|by apply uwrap_range]. lia.
Qed.

(** The immediate of a group. *)
Lemma grp1_imm k i k' m2 :
  is_one_of op [0x80; 0x81; 0x83] = true ->
  (if is_one_of op [0x80; 0xC6] then Jit.rd8 rip k else if op =? 0x83 then imm_s8 rip k else imm_s32 rip k) m = Ok (i, k') m2 ->
  m2 = m /\ urange 64 i /\ exists j,
    (if op =? 0x81 then simm32 (with_p (rip + k) d) else simm8 (with_p (rip + k) d)) m0 = Ok (j, with_p (rip + k') d) m0 /\
    if op =? 0x80 then u8 j = u8 i else j = i.
Proof.
  intros Hop. assert (op = 0x80 \/ op = 0x81 \/ op = 0x83) as [E|[E|E]] by (unfold is_one_of in Hop; cbn [existsb] in Hop; lia); rewrite E;
    cbn [is_one_of existsb Z.eqb Pos.eqb orb].
  - intros (-> & b & [= -> ->] & Hc & Hb)%rd8_inv; [|done]. split; [done|]. split; [unfold urange in *; lia|].
    eexists. split; [by apply (simm8_at m m0 eq_refl)|]. rewrite uwrap_le by lia. by apply swrap_congr.
  - intros (-> & b & [= -> ->] & Hc & Hb)%imm_s32_inv; [|done]. split; [done|]. split; [by apply uwrap_range|].
    eexists. split; [by apply (simm32_at m m0 eq_refl)|done].
  - intros (-> & b & [= -> ->] & Hc & Hb)%imm_s8_inv; [|done]. split; [done|]. split; [by apply uwrap_range|].
    eexists. split; [by apply (simm8_at m m0 eq_refl)|done].
Qed.

Lemma reg_field_low b : reg_field rex b .& 7 = (b >> 3) .& 7.
Proof.
  unfold reg_field. pose proof (low_field (b >> 3)) as Hl. set (x := (b >> 3) .& 7) in *.
  assert (Hc : x = 0 \/ x = 1 \/ x = 2 \/ x = 3 \/ x = 4 \/ x = 5 \/ x = 6 \/ x = 7) by lia.
  destruct (ext_cases rex 4) as [-> | ->]; by repeat destruct Hc as [->|Hc]; [..|rewrite Hc].
Qed.

Context (Hopsize : d_opsize d = if nz (rex .& 8) then 8 else 4).
#[local] Abbreviation blank := (blank_of rex (d_has_rex d)).

(** The operations that the compiler takes from the reg field of a group. *)
Lemma alu_ext ext : is_one_of ext [0; 1; 4; 5; 6; 7] = true ->
  grp1_op ext = 8 * ext /\ is_dec_alu (8 * ext) = true /\ 0 <= 8 * ext /\ dec_op (8 * ext) = 8 * ext /\
  is_one_of (8 * ext) [0x38; 0x85] = (ext =? 7) /\ is_one_of (8 * ext) reg_ops = true /\
  is_one_of (8 * ext) [OP_INC; OP_DEC] = false /\ (8 * ext <? 0x40) = true /\ (8 * ext) >> 3 = ext.
Proof.
  intros Hk. unfold is_one_of in Hk. cbn [existsb] in Hk.
  assert (Hc : ext = 0 \/ ext = 1 \/ ext = 4 \/ ext = 5 \/ ext = 6 \/ ext = 7) by lia.
  by repeat destruct Hc as [->|Hc]; [..|rewrite Hc].
Qed.

(** The record of an operation with a constant. *)
Definition ri_insn (w : option memop) (r size op' imm k : Z) (nw : bool) : insn :=
  finished rip k (iw_no_write nw (iw_op op' (narrow_imm (iw_imm imm (with_operand w (iw_reg r)
    (iw_kind (if bool_decide (w = None) then K_RI else K_MI) (iw_size size blank))))))).

Lemma ri_fields w r size op' imm k nw :
  let o := ri_insn w r size op' imm k nw in
  i_kind o = (if bool_decide (w = None) then K_RI else K_MI) /\ i_op o = op' /\ i_size o = size /\ i_no_write o = nw /\
  i_has_rex o = d_has_rex d /\ i_fneed o = 0 /\ i_next o = u64 (rip + k) /\ i_src o = 0 /\
  i_imm o = i_imm (narrow_imm (iw_size size (iw_imm imm zero_insn))) /\
  match w with None => i_reg o = r | Some a => i_mo o = a /\ i_reg o = 0 end.
Proof.
  unfold ri_insn, finished, narrow_imm. destruct w as [a|]; cbn [with_operand i_size iw_kind iw_size iw_reg iw_mo iw_imm];
    destruct (size =? 4); by split_and!.
Qed.

Lemma ri_record w r size op' imm k nw :
  greg r -> size = 1 \/ size = 4 \/ size = 8 -> urange 64 imm -> is_one_of op' reg_ops = true ->
  (is_one_of op' [OP_INC; OP_DEC] = true -> imm = 1) ->
  let o := ri_insn w r size op' imm k nw in op_record o w /\ operates o r (i_imm o) w.
Proof.
  intros Hr Hs Hi Hop Hone o. destruct (ri_fields w r size op' imm k nw) as (Ek & Eo & Es & _ & _ & Ef & _ & Esrc & Ei & Ew).
  fold o in Ek, Eo, Es, Ef, Esrc, Ei, Ew.
  destruct (narrow_imm_mod (iw_size size (iw_imm imm zero_insn)) Hs) as [_ Hn]. split.
  - split; rewrite ?Eo, ?Es, ?Esrc, ?Ei; try done.
    + destruct w; [by destruct Ew as [_ ->]|by rewrite Ew].
    + by apply Hn.
    + intros Hinc. split; [rewrite Ek; case_bool_decide; tauto|]. rewrite (Hone Hinc). by destruct Hs as [->|[->| ->]].
  - unfold operates, operand2, mov_value. destruct w as [a|]; rewrite Ek; cbn; [|by repeat split; auto].
    destruct Ew as [-> _]. by repeat split; auto.
Qed.

Lemma ri_agreed w r size op' imm k nw dst rest :
  greg r -> size = 1 \/ size = 4 \/ size = 8 -> urange 64 imm -> is_one_of op' reg_ops = true ->
  (is_one_of op' [OP_INC; OP_DEC] = true -> imm = 1) -> op' <> 0x88 -> lies (u64 (rip + k)) dst r w ->
  let o := ri_insn w r size op' imm k nw in
  (forall a, ends o dst a (i_imm o) (rest a)) ->
  exec_insn rip m = (a ← rd dst size (d_has_rex d); rest a) (m1 (u64 (rip + k))) -> agreed o.
Proof.
  intros Hr Hs Hi Hop Hone Hmov Hl o He Hx. destruct (ri_record w r size op' imm k nw Hr Hs Hi Hop Hone) as [Hrec Hopr].
  destruct (ri_fields w r size op' imm k nw) as (Ek & Eo & Es & _ & Erex & Ef & En & _). fold o in Hrec, Hopr, Ek, Eo, Es, Erex, Ef, En.
  split; [by eapply operates_insn|]. split; [done|]. intros _. rewrite Hx, <- Es, <- Erex, En.
  eapply operation_follows; try done; [apply next_range|by rewrite Eo|by rewrite Es].
Qed.

Lemma ri_alu_ends w r size op' i k dst a j :
  is_dec_alu op' = true -> 0 <= op' -> dec_op op' = op' -> is_one_of op' reg_ops = true ->
  size = 1 \/ size = 4 \/ size = 8 -> uwrap (size * 8) j = uwrap (size * 8) i ->
  let o := ri_insn w r size op' i k (is_one_of op' [0x38; 0x85]) in
  ends o dst a (i_imm o) (alu_rest op' dst a j size (d_has_rex d)).
Proof.
  intros Hda H0op Hdo Hro Hs Hj o.
  destruct (ri_fields w r size op' i k (is_one_of op' [0x38; 0x85])) as (_ & Eo & Es & Enw & Erex & _ & _ & _ & Ei & _).
  fold o in Eo, Es, Enw, Erex, Ei. assert (Hsz : opsize size) by (unfold opsize; lia). apply (ends_mod o _ a j).
  - by rewrite Es.
  - by rewrite Eo.
  - rewrite Es, Ei. destruct (narrow_imm_mod (iw_size size (iw_imm i zero_insn)) Hs) as [Hn _]. cbn [i_size iw_size i_imm iw_imm] in Hn.
    by rewrite Hn.
  - apply (alu_rest_ends o op' size _ (i_reg o)); try done. split; rewrite ?Eo, ?Hdo; done.
Qed.

Lemma grp1_agrees k o m2 :
  is_one_of op [0x80; 0x81; 0x83] = true -> dec_grp1 rip n rex op blank m = Ok (Some (k, o)) m2 -> agreed (finished rip k o).
Proof.
  intros Hop. assert (Hnm : is_one_of op [0xC6; 0xC7] = false) by (unfold is_one_of in *; cbn [existsb] in *; lia).
  assert (Hby : is_one_of op [0x80; 0xC6] = (op =? 0x80)) by (unfold is_one_of in *; cbn [existsb] in *; lia).
  unfold dec_grp1. rewrite Hnm, Hby. cbn [negb andb].
  intros ([hd k1] & m3 & (-> & b & [= -> ->] & Hc & Hb)%rd8_inv & Hd)%bind_ok; [|done].
  set (ext := (b >> 3) .& 7) in *. destruct (is_one_of ext [2; 3]) eqn:E23; [discriminate|].
  apply bind_ok in Hd as ([k2 o2] & m3 & Hrm & Hd).
  destruct (operand_lies _ _ _ _ _ _ _ Hc Hrm) as (-> & dst & w & Hmod & Eo2 & E3 & Hl).
  apply bind_ok in Hd as ([i k3] & m3 & Himm & Hd). rewrite <- Hby in Himm.
  destruct (grp1_imm _ _ _ _ Hop Himm) as (-> & Hi & j & Hj & Hij). injection Hd as <- <- <-.
  set (size := if op =? 0x80 then 1 else d_opsize d).
  assert (Ho : finished rip k3 (iw_no_write (ext =? 7) (iw_op (grp1_op ext) (narrow_imm (iw_imm i o2)))) =
    ri_insn w (rm_field rex b) size (grp1_op ext) i k3 (ext =? 7)).
  { rewrite Eo2, E3. unfold ri_insn, size. rewrite Hopsize. by destruct (op =? 0x80). }
  rewrite Ho. pose proof (low_field (b >> 3)) as Hext. fold ext in Hext.
  assert (Hk : is_one_of ext [0; 1; 4; 5; 6; 7] = true) by (unfold is_one_of in *; cbn [existsb] in *; lia).
  assert (Hs : size = 1 \/ size = 4 \/ size = 8) by (unfold size; rewrite Hopsize; destruct (op =? 0x80), (nz _); tauto).
  rewrite <- (proj1 (proj2 (proj2 (proj2 (proj2 (alu_ext ext Hk)))))) in *. destruct (alu_ext ext Hk) as (-> & H1 & H2 & H3 & H4 & H5 & H6 & H7 & H8). specialize (Hl k3).
  apply (ri_agreed w _ _ _ _ _ _ (fixup_rip (with_p (rip + k3) d) dst)
    (fun a => alu_rest (8 * ext) (fixup_rip (with_p (rip + k3) d) dst) a j size (d_has_rex d))); try done.
  - apply field_greg.
  - by rewrite H6.
  - intros E. by rewrite E in H7.
  - intros a. apply ri_alu_ends; try done. unfold size. destruct (op =? 0x80); [exact Hij|by rewrite Hij].
  - rewrite (ao_run _ _ _ _ _ _ Hat). assert (Hx : forall d', exec_op d' op = op_grp1 d' op).
    { intros d'. assert (op = 0x80 \/ op = 0x81 \/ op = 0x83) as [E|[E|E]] by (unfold is_one_of in Hop; cbn [existsb] in Hop; lia); by rewrite E. }
    rewrite Hx. unfold op_grp1. rewrite (bind_run _ _ _ _ _ Hmod). cbv beta iota zeta. rewrite (bind_run _ _ _ _ _ Hj). cbv beta iota zeta.
    rewrite (bind_run _ _ _ _ _ (advance_run k3)), reg_field_low. unfold alu_rest. fold ext. by rewrite H7, H8.
Qed.

(** The accumulator is an operand like another. *)
Lemma rd_acc size x mS : rd (reg_opnd 0) size x mS = getreg 0 size mS.
Proof. unfold rd, getreg8. cbn [is_reg reg_opnd o_reg]. destruct (Z.eqb_spec size 1) as [->|]; [|done]. by destruct x. Qed.
Lemma wr_acc v size x mS : wr (reg_opnd 0) v size x mS = setreg 0 v size mS.
Proof. unfold wr, setreg8. cbn [is_reg reg_opnd o_reg]. destruct (Z.eqb_spec size 1) as [->|]; [|done]. by destruct x. Qed.

Lemma acc_forms :
  is_dec_acc op = true ->
  exists op' : Z, let size := if nz (op .& 1) then d_opsize d else 1 in
    is_one_of op [0x04; 0x0C; 0x24; 0x2C; 0x34; 0x3C; 0xA8] = negb (nz (op .& 1)) /\
    (if is_one_of op [0xA8; 0xA9] then 0x85 else op .& .~ 7) = op' /\
    is_dec_alu op' = true /\ 0 <= op' /\ dec_op op' = op' /\ is_one_of op' reg_ops = true /\ op' <> 0x88 /\
    is_one_of op' [OP_INC; OP_DEC] = false /\
    forall d' j d'' mx my, imm_acc d' (negb (nz (op .& 1))) (if nz (op .& 1) then d_opsize d' else 1) mx = Ok (j, d'') mx ->
      ADVANCE d'' mx = Ok tt my ->
      exec_op d' op mx = (a ← rd (reg_opnd 0) (if nz (op .& 1) then d_opsize d' else 1) (d_has_rex d');
        alu_rest op' (reg_opnd 0) a j (if nz (op .& 1) then d_opsize d' else 1) (d_has_rex d')) my.
Proof.
  intros Hop. exists (if is_one_of op [0xA8; 0xA9] then 0x85 else op .& .~ 7).
  assert (Hc : op = 0x04 \/ op = 0x0C \/ op = 0x24 \/ op = 0x2C \/ op = 0x34 \/ op = 0x3C \/ op = 0xA8 \/
    op = 0x05 \/ op = 0x0D \/ op = 0x25 \/ op = 0x2D \/ op = 0x35 \/ op = 0x3D \/ op = 0xA9)
    by (unfold is_dec_acc, is_one_of in Hop; cbn [existsb] in Hop; lia).
  assert (Halu : forall d' j d'' mx my sz k, imm_acc d' (negb (nz (op .& 1))) sz mx = Ok (j, d'') mx -> ADVANCE d'' mx = Ok tt my ->
    sz = (if negb (nz (op .& 1)) then 1 else d_opsize d') -> op >> 3 = k -> (8 * k <? 0x40) = true -> (8 * k) >> 3 = k ->
    op_alu_acc d' op mx = (a ← rd (reg_opnd 0) sz (d_has_rex d'); alu_rest (8 * k) (reg_opnd 0) a j sz (d_has_rex d')) my).
  { intros d' j d'' mx my sz k Hi Ha -> Hk H1 H2. unfold op_alu_acc. rewrite (bind_run _ _ _ _ _ Hi). cbv beta iota zeta.
    rewrite (bind_run _ _ _ _ _ Ha). unfold mbind, M_bind. rewrite rd_acc. change RAX with 0.
    destruct (getreg 0 _ my) as [a m3|]; [|done]. unfold alu_rest. rewrite Hk, H1, H2. unfold mbind, M_bind.
    destruct (alu k a j _ m3) as [[r|] m4|]; try done. unfold store_result. by rewrite wr_acc. }
  assert (Htst : forall d' j d'' mx my, imm_acc d' (op =? 0xA8) (if op =? 0xA8 then 1 else d_opsize d') mx = Ok (j, d'') mx -> ADVANCE d'' mx = Ok tt my ->
    op_test_acc d' op mx = (a ← rd (reg_opnd 0) (if op =? 0xA8 then 1 else d_opsize d') (d_has_rex d'); alu_rest 0x85 (reg_opnd 0) a j (if op =? 0xA8 then 1 else d_opsize d') (d_has_rex d')) my).
  { intros d' j d'' mx my Hi Ha. unfold op_test_acc. rewrite (bind_run _ _ _ _ _ Hi). cbv beta iota zeta.
    rewrite (bind_run _ _ _ _ _ Ha). unfold mbind, M_bind. rewrite rd_acc. change RAX with 0.
    by destruct (getreg 0 _ my) as [a m3|]. }
  clear Hat. repeat destruct Hc as [E|Hc]; [..|rename Hc into E]; revert Halu Htst; rewrite E; intros Halu Htst; cbv zeta;
    (do 8 (split; [done|]));
    intros d' j d'' mx my Hi Ha; match goal with |- exec_op _ ?x _ = _ => first
      [change (exec_op d' x) with (op_test_acc d' x); exact (Htst d' j d'' mx my Hi Ha)
      |change (exec_op d' x) with (op_alu_acc d' x); etransitivity; [exact (Halu d' j d'' mx my _ (x >> 3) Hi Ha eq_refl eq_refl eq_refl eq_refl)|reflexivity]] end.
Qed.

Lemma opsize_word : d_opsize d = 4 \/ d_opsize d = 8.
Proof. rewrite Hopsize. destruct (nz _); tauto. Qed.

Lemma acc_agrees k o m2 :
  is_dec_acc op = true -> dec_acc rip n op blank m = Ok (Some (k, o)) m2 -> agreed (finished rip k o).
Proof.
  intros Hop. destruct (acc_forms Hop) as (op' & H1 & H2 & H3 & H4 & H5 & H6 & H7 & H8 & H9).
  set (size := if nz (op .& 1) then d_opsize d else 1) in *. pose proof opsize_word as Hw.
  assert (Hs : size = 1 \/ size = 4 \/ size = 8) by (unfold size; destruct (nz (op .& 1)); lia).
  unfold dec_acc. rewrite H1, H2.
  intros ([i k1] & m3 & Himm & [= <- <- <-])%bind_ok.
  assert (E1 : m3 = m /\ urange 64 i /\ exists j, imm_acc (with_p (rip + n) d) (negb (nz (op .& 1))) size m0 = Ok (j, with_p (rip + k1) d) m0 /\
    uwrap (size * 8) j = uwrap (size * 8) i).
  { unfold imm_acc, size. revert Himm. destruct (nz (op .& 1)); cbn [negb i_size iw_kind iw_reg iw_size].
    - change (i_size blank) with (if nz (rex .& 8) then 8 else 4). rewrite <- Hopsize, (proj2 (Z.eqb_neq _ 1)), (proj2 (Z.eqb_neq _ 2)) by lia.
      intros (-> & b & [= -> ->] & Hc & Hb)%imm_s32_inv; [|done]. split; [done|]. split; [by apply uwrap_range|]. eexists. split; [|reflexivity].
      by apply (simm32_at m m0 eq_refl).
    - intros (-> & b & [= -> ->] & Hc & Hb)%rd8_inv; [|done]. split; [done|]. split; [unfold urange in *; lia|].
      eexists. split; [by apply (fetch8_at m m0 eq_refl)|done]. }
  destruct E1 as (-> & Hi & j & Hj & Hij).
  assert (Ho : finished rip k1 (iw_no_write (is_one_of op' [0x38; 0x85]) (iw_op op' (narrow_imm (iw_imm i
      (iw_kind K_RI (iw_reg 0 (if negb (nz (op .& 1)) then iw_size 1 blank else blank))))))) =
    ri_insn None 0 size op' i k1 (is_one_of op' [0x38; 0x85])).
  { unfold ri_insn, size. rewrite Hopsize. by destruct (nz (op .& 1)). }
  cut (agreed (ri_insn None 0 size op' i k1 (is_one_of op' [0x38; 0x85]))); [by rewrite <- Ho|].
  apply (ri_agreed None 0 _ _ _ _ _ (reg_opnd 0) (fun a => alu_rest op' (reg_opnd 0) a j size (d_has_rex d))); try done.
  - by rewrite H8.
  - by constructor.
  - intros a. by apply ri_alu_ends.
  - rewrite (ao_run _ _ _ _ _ _ Hat). exact (H9 (with_p (rip + n) d) j _ _ _ Hj (advance_run k1)).
Qed.

(** A constant moved. *)
Lemma ri_move_agreed w r size imm k dst v :
  greg r -> size = 1 \/ size = 4 \/ size = 8 -> urange 64 imm -> lies (u64 (rip + k)) dst r w ->
  uwrap (size * 8) v = uwrap (size * 8) imm -> exec_insn rip m = wr dst v size (d_has_rex d) (m1 (u64 (rip + k))) ->
  agreed (ri_insn w r size 0x88 imm k false).
Proof.
  intros Hr Hs Hi Hl Hv Hx. destruct (ri_record w r size 0x88 imm k false Hr Hs Hi eq_refl ltac:(done)) as [Hrec Hopr].
  destruct (ri_fields w r size 0x88 imm k false) as (Ek & Eo & Es & Enw & Erex & Ef & En & _ & Ei & _).
  set (o := ri_insn w r size 0x88 imm k false) in *.
  split; [by eapply operates_insn|]. split; [done|]. intros _. rewrite Hx, <- Es, <- Erex, En.
  eapply move_follows; try done; [apply next_range|by rewrite Es|]. rewrite Es, Ei, Hv.
  symmetry. apply (narrow_imm_mod (iw_size size (iw_imm imm zero_insn)) Hs).
Qed.

Lemma mov_rm_imm_agrees k o m2 :
  is_one_of op [0xC6; 0xC7] = true -> dec_grp1 rip n rex op blank m = Ok (Some (k, o)) m2 -> agreed (finished rip k o).
Proof.
  intros Hop. assert (Hby : is_one_of op [0x80; 0xC6] = (op =? 0xC6)) by (unfold is_one_of in *; cbn [existsb] in *; lia).
  assert (H83 : (op =? 0x83) = false) by (unfold is_one_of in *; cbn [existsb] in *; lia).
  unfold dec_grp1. rewrite Hop, Hby, H83. cbn [negb andb].
  intros ([hd k1] & m3 & (-> & b & [= -> ->] & Hc & Hb)%rd8_inv & Hd)%bind_ok; [|done].
  destruct (nz ((b >> 3) .& 7)); [discriminate|]. apply bind_ok in Hd as ([k2 o2] & m3 & Hrm & Hd).
  destruct (operand_lies _ _ _ _ _ _ _ Hc Hrm) as (-> & dst & w & Hmod & Eo2 & E3 & Hl).
  apply bind_ok in Hd as ([i k3] & m3 & Himm & [= <- <- <-]). set (size := if op =? 0xC6 then 1 else d_opsize d).
  assert (Ho : finished rip k3 (iw_op 0x88 (narrow_imm (iw_imm i o2))) = ri_insn w (rm_field rex b) size 0x88 i k3 false).
  { rewrite Eo2, E3. unfold ri_insn, size, blank_of. rewrite Hopsize. by destruct (op =? 0xC6), w, (nz (rex .& 8)). }
  rewrite Ho. assert (Hs : size = 1 \/ size = 4 \/ size = 8) by (unfold size; pose proof opsize_word; destruct (op =? 0xC6); lia).
  assert (E1 : m3 = m /\ urange 64 i /\ (if op =? 0xC6 then fetch8 (with_p (rip + k2) d) else simm32 (with_p (rip + k2) d)) m0 = Ok (i, with_p (rip + k3) d) m0).
  { revert Himm. destruct (op =? 0xC6).
    - intros (-> & b' & [= -> ->] & Hc' & Hb')%rd8_inv; [|done]. split; [done|]. split; [unfold urange in *; lia|]. by apply (fetch8_at m m0 eq_refl).
    - intros (-> & b' & [= -> ->] & Hc' & Hb')%imm_s32_inv; [|done]. split; [done|]. split; [by apply uwrap_range|]. by apply (simm32_at m m0 eq_refl). }
  destruct E1 as (-> & Hi & Hj). apply (ri_move_agreed w _ _ _ _ _ i (field_greg b rex 1) Hs Hi (Hl k3)); [done|].
  rewrite (ao_run _ _ _ _ _ _ Hat). assert (Hx : forall d', exec_op d' op = op_mov_rm_imm d' op).
  { intros d'. assert (op = 0xC6 \/ op = 0xC7) as [E|E] by (unfold is_one_of in Hop; cbn [existsb] in Hop; lia); by rewrite E. }
  rewrite Hx. unfold op_mov_rm_imm. rewrite (bind_run _ _ _ _ _ Hmod). cbv beta iota zeta. rewrite (bind_run _ _ _ _ _ Hj). cbv beta iota zeta.
  by rewrite (bind_run _ _ _ _ _ (advance_run k3)).
Qed.

Lemma mov_imm_agrees k o m2 :
  (0xB0 <=? op) && (op <=? 0xBF) = true -> dec_mov_imm rip n rex op blank m = Ok (Some (k, o)) m2 -> agreed (finished rip k o).
Proof.
  intros Hop. assert (Hr : 0xB0 <= op <= 0xBF) by lia. set (r := (op .& 7) .| rex_ext rex 1).
  assert (Hx : forall d', exec_op d' op = if op <? 0xB8 then op_mov_imm8 d' op else op_mov_imm d' op).
  { intros d'. assert (Hc : op = 0xB0 \/ op = 0xB1 \/ op = 0xB2 \/ op = 0xB3 \/ op = 0xB4 \/ op = 0xB5 \/ op = 0xB6 \/ op = 0xB7 \/
      op = 0xB8 \/ op = 0xB9 \/ op = 0xBA \/ op = 0xBB \/ op = 0xBC \/ op = 0xBD \/ op = 0xBE \/ op = 0xBF) by lia.
    clear -Hc. by repeat destruct Hc as [->|Hc]; [..|rewrite Hc]. }
  pose proof opsize_word as Hw. unfold dec_mov_imm. fold r.
  assert (Hl : forall k, lies (u64 (rip + k)) (reg_opnd r) r None) by (intros; constructor; [apply field_greg|done]).
  pose proof (ao_run _ _ _ _ _ _ Hat) as Hrn. rewrite Hx in Hrn. destruct (op <? 0xB8).
  - intros ([v k1] & m3 & (-> & b & [= -> ->] & Hc & Hb)%rd8_inv & [= <- <- <-])%bind_ok; [|done].
    change (agreed (ri_insn None r 1 0x88 b (n + 1) false)).
    apply (ri_move_agreed None _ _ _ _ (reg_opnd r) b); try done; [apply field_greg|by left|unfold urange in *; lia|].
    rewrite Hrn. unfold op_mov_imm8. rewrite (bind_run _ _ _ _ _ (fetch8_at m m0 eq_refl rip d n b Hc)). cbv beta iota zeta.
    by rewrite (bind_run _ _ _ _ _ (advance_run (n + 1))).
  - change (i_size (iw_kind K_RI (iw_reg r (iw_op 0x88 blank)))) with (if nz (rex .& 8) then 8 else 4). rewrite <- Hopsize.
    assert (Hmov : forall v k', urange (d_opsize d * 8) v -> o = iw_imm v (iw_kind K_RI (iw_reg r (iw_op 0x88 blank))) ->
      (if d_opsize d =? 8 then fetch64 (with_p (rip + n) d) else if d_opsize d =? 2 then fetch16 (with_p (rip + n) d) else fetch32 (with_p (rip + n) d)) m0 =
        Ok (v, with_p (rip + k') d) m0 -> agreed (finished rip k' o)).
    { intros v k' Hv -> Hf.
      assert (Ho : finished rip k' (iw_imm v (iw_kind K_RI (iw_reg r (iw_op 0x88 blank)))) = ri_insn None r (d_opsize d) 0x88 v k' false).
      { unfold ri_insn, narrow_imm, blank_of. rewrite Hopsize in *. destruct (nz (rex .& 8)); cbn [with_operand i_size iw_kind iw_reg iw_size iw_imm Z.eqb Pos.eqb]; [done|].
        cbn [i_imm iw_imm]. change 0xffffffff with (Z.ones 32). by rewrite land_ones_uwrap, uwrap_small by (lia || exact Hv). }
      rewrite Ho. apply (ri_move_agreed None _ _ _ _ (reg_opnd r) v); try done; [apply field_greg|tauto|eapply urange_mono; [|exact Hv]; lia|].
      rewrite Hrn. unfold op_mov_imm. change (d_opsize (with_p (rip + n) d)) with (d_opsize d). rewrite (bind_run _ _ _ _ _ Hf). cbv beta iota zeta.
      rewrite (bind_run _ _ _ _ _ (advance_run k')). unfold wr. cbn [is_reg reg_opnd o_reg]. by rewrite (proj2 (Z.eqb_neq (d_opsize d) 1)) by lia. }
    destruct (Z.eqb_spec (d_opsize d) 8) as [E8|E8].
    + intros ([v k1] & m3 & (-> & b & [= -> ->] & Hc & Hb)%rd64_inv & [= <- <- <-])%bind_ok; [|done].
      apply (Hmov b); [by rewrite E8|done|by apply (fetch64_at m m0 eq_refl)].
    + assert (E4 : d_opsize d = 4) by lia. intros ([v k1] & m3 & (-> & b & [= -> ->] & Hc & Hb)%rd32_inv & [= <- <- <-])%bind_ok; [|done].
      apply (Hmov b); [by rewrite E4|done|]. rewrite E4. by apply (fetch32_at m m0 eq_refl).
Qed.

(** inc and dec. *)
Lemma incdec_agrees k o m2 :
  is_one_of op [0xFE; 0xFF] = true -> dec_grp5 rip n rex op blank m = Ok (Some (k, o)) m2 ->
  i_kind o <> K_CALLM -> i_kind o <> K_JMPM -> agreed (finished rip k o).
Proof.
  intros Hop. unfold dec_grp5.
  intros ([hd k1] & m3 & (-> & b & [= -> ->] & Hc & Hb)%rd8_inv & Hd)%bind_ok; [|done]. intros Hn1 Hn2.
  set (ext := (b >> 3) .& 7) in *. destruct (is_one_of ext [0; 1]) eqn:E01.
  2:{ exfalso. destruct ((op =? 0xFE) || _); [discriminate|]. destruct (_ && _); [discriminate|].
      apply bind_ok in Hd as ([k2 o2] & m3 & Hrm & [= <- <- <-]). destruct (ext =? 2); [by apply Hn1|by apply Hn2]. }
  apply bind_ok in Hd as ([k2 o2] & m3 & Hrm & [= <- <- <-]).
  destruct (operand_lies _ _ _ _ _ _ _ Hc Hrm) as (-> & dst & w & Hmod & Eo2 & E3 & Hl). specialize (Hl k2).
  set (size := if op =? 0xFE then 1 else d_opsize d). set (op' := if ext =? 0 then OP_INC else OP_DEC).
  assert (Ho : finished rip k2 (iw_imm 1 (iw_op op' o2)) = ri_insn w (rm_field rex b) size op' 1 k2 false).
  { rewrite Eo2, E3. unfold ri_insn, size, blank_of. rewrite Hopsize. by destruct (op =? 0xFE), w, (nz (rex .& 8)). }
  rewrite Ho. assert (Hs : size = 1 \/ size = 4 \/ size = 8) by (unfold size; pose proof opsize_word; destruct (op =? 0xFE); lia).
  set (x := fixup_rip (with_p (rip + k2) d) dst) in *.
  apply (ri_agreed w _ _ _ _ _ _ x (fun a => if ext =? 0 then
      upd_flags (fun fl => rsd_i_flags_inc fl a (u64 (a + 1)) size);; wr x (u64 (a + 1)) size (d_has_rex d)
    else upd_flags (fun fl => rsd_i_flags_dec fl a (u64 (a - 1)) size);; wr x (u64 (a - 1)) size (d_has_rex d))); try done.
  - apply field_greg.
  - unfold op'. by destruct (ext =? 0).
  - unfold op'. by destruct (ext =? 0).
  - set (o := ri_insn w (rm_field rex b) size op' 1 k2 false).
    destruct (ri_fields w (rm_field rex b) size op' 1 k2 false) as (_ & Eo & Es & Enw & Erex & _ & _ & _ & Ei & _).
    fold o in Eo, Es, Enw, Erex, Ei. assert (Hsz : opsize size) by (unfold opsize; lia). pose proof (opsize_width _ Hsz).
    assert (Ei1 : i_imm o = 1) by (rewrite Ei; by destruct Hs as [->|[->| ->]]).
    intros a mS HfS. rewrite Eo, Es, Enw, Erex, Ei1. unfold op'.
    destruct (ext =? 0); cbn [op_helper is_one_of existsb Z.eqb Pos.eqb orb OP_INC OP_DEC helper_flags flags_of].
    + exists (u64 (a + 1)). assert (Hr : uwrap (size * 8) (u64 (a + 1)) = uwrap (size * 8) (op_result OP_INC size a 1)) by (rewrite op_result_value, uwrap_le by (done || lia); done).
      split; [exact Hr|]. unfold mbind, M_bind. rewrite upd_flags_run.
      pose proof (helper_flags_mod (Some fn_flags_inc) (c_flags (m_c mS)) a a 1 1 _ _ size Hsz eq_refl eq_refl Hr) as Hf. cbn [helper_flags flags_of] in Hf. by rewrite Hf.
    + exists (u64 (a - 1)). assert (Hr : uwrap (size * 8) (u64 (a - 1)) = uwrap (size * 8) (op_result OP_DEC size a 1)) by (rewrite op_result_value, uwrap_le by (done || lia); done).
      split; [exact Hr|]. unfold mbind, M_bind. rewrite upd_flags_run.
      pose proof (helper_flags_mod (Some fn_flags_dec) (c_flags (m_c mS)) a a 1 1 _ _ size Hsz eq_refl eq_refl Hr) as Hf. cbn [helper_flags flags_of] in Hf. by rewrite Hf.
  - rewrite (ao_run _ _ _ _ _ _ Hat). assert (Hx : forall d', exec_op d' op = op_grp5 d' op).
    { intros d'. assert (op = 0xFE \/ op = 0xFF) as [E|E] by (unfold is_one_of in Hop; cbn [existsb] in Hop; lia); by rewrite E. }
    rewrite Hx. unfold op_grp5. rewrite (bind_run _ _ _ _ _ (modrm_advance_run _ _ _ _ Hmod)). cbv beta iota zeta. rewrite reg_field_low. fold ext x.
    assert (ext = 0 \/ ext = 1) as [E|E] by (unfold is_one_of in E01; cbn [existsb] in E01; lia); by rewrite E.
Qed.

(* ------------------------------------------------------------------ *)
(** ** The remaining instructions *)

(** A load, and arithmetic that C may leave undefined. *)
Lemma loaded_follows o next a size (f : Z -> gstate -> gstate) (k : Z -> M unit) :
  urange 64 next -> opsize size ->
  insn_sem all_flags o rip m = (v ← ld a size; if_running (then_regs all_flags o (f v))) m0 ->
  (forall v mL, urange (size * 8) v -> regs_ok mL -> reg mL = reg m -> c_flags (m_c mL) = c_flags (m_c m) ->
    let s := f v (reg m, c_flags (m_c m)) in
    (exists t, k v mL = Trap (Undefined t)) \/ k v mL = Ok tt (set_gpr s.1 s.2 mL)) ->
  follows next ((v ← ld a size; k v) (m1 next)) (insn_sem all_flags o rip m).
Proof.
  intros Hn Hsz Hsem Hk. destruct (ld a size (m1 next)) as [v mL|t] eqn:EI.
  - destruct (load_cases m Hm Hrun rip next a size v mL Hsz EI) as (mC & _ & _ & HrL & ErL & EfL & _).
    pose proof (ld_range a size (m1 next) v mL Hsz Hbytes EI) as Hv.
    destruct (Hk v mL Hv HrL ErL EfL) as [[t Ht]|He].
    + unfold mbind, M_bind. by rewrite EI, Ht.
    + apply alike_follows. apply (loaded_alike m Hm Hrun rip next Hn o a size f k Hsz Hsem).
      intros v' mL' E. rewrite EI in E. by injection E as <- <-.
  - apply alike_follows. apply (loaded_alike m Hm Hrun rip next Hn o a size f k Hsz Hsem). intros v' mL' E. by rewrite EI in E.
Qed.

Lemma mem_operand_sem o size f :
  mem_part o rip m = (v ← mem_operand o rip size; mret (f v)) m ->
  insn_sem all_flags o rip m = (v ← ld (ref_ea o (reg m)) size; if_running (then_regs all_flags o (f v))) m0.
Proof. intros Hp. unfold insn_sem, mbind at 1, M_bind at 1. rewrite Hp. unfold mem_operand, mbind, M_bind. cbn [gets upd modify]. by destruct (ld _ _ _). Qed.

(** The result of movzx or movsx. *)
Lemma movx_value o v : i_ssize o = 1 \/ i_ssize o = 2 -> i_size o = 4 \/ i_size o = 8 -> urange (i_ssize o * 8) v ->
  uwrap (i_size o * 8) (if i_sign o then u64 (sext v (i_ssize o)) else v) = extended o v.
Proof.
  intros Hss Hs Hv. unfold extended. destruct (i_sign o).
  - rewrite uwrap_le by lia. f_equal. apply sext_swrap. unfold opsize. lia.
  - apply uwrap_small. eapply urange_mono; [|exact Hv]. lia.
Qed.

Lemma rd_operand2 r size x mS : size = 1 \/ size = 2 -> rd (reg_opnd r) size x mS = Ok (reg_rd x (reg mS) r size) mS.
Proof.
  intros [->| ->]; [apply rd_operand; by left|]. unfold rd, reg_rd, high_byte, getreg. cbn [is_reg reg_opnd o_reg Z.eqb Pos.eqb andb].
  unfold mbind, M_bind. rewrite getr_run. by rewrite trunc_sz_uwrap by (unfold opsize; lia).
Qed.

Lemma movx_agrees k o m2 k1 w b dst op2 :
  is_one_of op2 [0xB6; 0xB7; 0xBE; 0xBF] = true ->
  o = with_operand w (iw_src (rm_field rex b)) (iw_kind K_MOVX (iw_ssize (if nz (op2 .& 1) then 2 else 1)
    (iw_sign (nz (op2 .& 8)) (iw_reg (reg_field rex b) blank)))) ->
  modrm (with_p (rip + k1) d) m0 = Ok (reg_field rex b, dst, with_p (rip + k) d) m0 ->
  lies (u64 (rip + k)) (fixup_rip (with_p (rip + k) d) dst) (rm_field rex b) w ->
  exec_insn rip m = op_movx (with_p (rip + k1) d) op2 m0 -> m2 = m -> agreed (finished rip k o).
Proof.
  intros _ Eo Hmod Hl Hx ->. set (of_ := finished rip k o).
  assert (Hf : i_kind of_ = K_MOVX /\ i_next of_ = u64 (rip + k) /\ i_fneed of_ = 0 /\ i_reg of_ = reg_field rex b /\
    i_size of_ = d_opsize d /\ i_ssize of_ = (if nz (op2 .& 1) then 2 else 1) /\ i_sign of_ = nz (op2 .& 8) /\ i_has_rex of_ = d_has_rex d /\
    match w with None => i_src of_ = rm_field rex b /\ o_mem (i_mo of_) = false | Some a => i_mo of_ = a end).
  { unfold of_. rewrite Eo, Hopsize. by destruct w. }
  destruct Hf as (Ek & En & Ef & Er & Es & Ess & Esg & Erex & Ew).
  pose proof opsize_word as Hw. assert (Hss : i_ssize of_ = 1 \/ i_ssize of_ = 2) by (rewrite Ess; destruct (nz (op2 .& 1)); tauto).
  assert (Hg : greg (i_reg of_)) by (rewrite Er; apply field_greg).
  set (k' := fun v => setreg (reg_field rex b) (if nz (op2 .& 8) then u64 (sext v (i_ssize of_)) else v) (d_opsize d)).
  assert (Hk : forall v mL, urange (i_ssize of_ * 8) v -> regs_ok mL -> c_flags (m_c mL) = c_flags (m_c m) ->
    k' v mL = Ok tt (set_gpr (upd_reg (i_reg of_) (extended of_ v) (reg mL)) (c_flags (m_c m)) mL)).
  { intros v mL Hv HrL EfL. unfold k'. rewrite <- Er, setreg_gpr by (done || by rewrite EfL). rewrite EfL, <- Esg, <- Es.
    by rewrite movx_value by (done || by rewrite Es). }
  assert (Hrun' : exec_insn rip m = (v ← rd (fixup_rip (with_p (rip + k) d) dst) (i_ssize of_) (d_has_rex d); k' v) (m1 (u64 (rip + k)))).
  { rewrite Hx. unfold op_movx. rewrite (bind_run _ _ _ _ _ (modrm_advance_run _ _ _ _ Hmod)). cbv beta iota zeta. unfold k'. rewrite Ess.
    change (d_has_rex (with_p (rip + k) d)) with (d_has_rex d). change (d_opsize (with_p (rip + k1) d)) with (d_opsize d).
    unfold mbind, M_bind. set (x := fixup_rip _ _). destruct (nz (op2 .& 1)); cbn [Z.eqb Pos.eqb andb]; [done|].
    unfold rd. destruct (is_reg x); [|done]. done. }
  destruct Hl as [Hr Ed|a Ha Hnr _ Hrd Hwr]; unfold agreed.
  - destruct Ew as [Esrc Emem]. split; [unfold mem_insn; rewrite Ek, Emem; split; rewrite ?Esrc, ?Es; done|]. split; [done|]. intros _.
    rewrite Hrun', Ed, (bind_run _ _ _ _ _ (rd_operand2 _ (i_ssize of_) _ (m1 (u64 (rip + k))) Hss)).
    rewrite Hk; [|rewrite <- reg_rd_range by (unfold opsize; lia); apply uwrap_range; lia|done|done]. rewrite En.
    eapply (regs_follow of_ _ (fun s => reg_sem of_ s.1 s.2)); [apply next_range| | |].
    + unfold mem_part. by rewrite Ek, Emem.
    + intros j _. unfold reg_sem. rewrite Ek. unfold ref_movx. cbn [fst snd]. by rewrite Esrc, Erex.
    + unfold reg_sem. by rewrite Ek.
  - split; [unfold mem_insn; rewrite Ek, Ew, (mp_mem _ Ha); split; rewrite ?Ew, ?Es; try done; [apply Ha|by eapply memop_ea_ok]|].
    split; [done|]. intros _. rewrite Hrun', En. unfold mbind, M_bind. rewrite Hrd.
    replace (ea_of a (u64 (rip + k)) (reg m)) with (ref_ea of_ (reg m)) by (unfold ref_ea, ea_of; by rewrite Ew, En).
    apply (loaded_follows of_ _ (ref_ea of_ (reg m)) (i_ssize of_) (fun v s => (upd_reg (i_reg of_) (extended of_ v) s.1, s.2)) k').
    + apply next_range.
    + unfold opsize. lia.
    + apply mem_operand_sem. unfold mem_part. by rewrite Ek, Ew, (mp_mem _ Ha).
    + intros v mL Hv HrL ErL EfL s. right. subst s. cbn [fst snd]. rewrite <- ErL. by apply Hk.
Qed.

(** A product, where C defines it. *)
Lemma mul_run o r x y v mL :
  i_reg o = r -> i_size o = 4 \/ i_size o = 8 -> greg r -> regs_ok mL -> urange 32 (c_flags (m_c mL)) ->
  uwrap (i_size o * 8) (x * y) = uwrap (i_size o * 8) (v * (if i_imm_src o then i_imm o else reg mL (i_reg o))) ->
  let s := mul_result o v (reg mL, c_flags (m_c mL)) in
  let c := (p ← smul64 x y; setreg r p (i_size o);; upd_flags (fun fl => flags_logic fl p (i_size o))) in
  (exists t, c mL = Trap (Undefined t)) \/ c mL = Ok tt (set_gpr s.1 s.2 mL).
Proof.
  intros Er Hs Hg HmL HfL Hp s c. subst c. unfold smul64. destruct (_ && _); [right|by left; eexists].
  set (p := u64 (x * y)). assert (Hsz : opsize (i_size o)) by (unfold opsize; lia). pose proof (opsize_width _ Hsz).
  assert (Hpp : uwrap (i_size o * 8) p = uwrap (i_size o * 8) (x * y)) by (unfold p; by rewrite uwrap_le by lia).
  erewrite bind_run by reflexivity. rewrite (bind_run _ _ _ _ _ (setreg_gpr r p (i_size o) mL Hs HmL HfL Hg)), upd_flags_run.
  change (c_flags (m_c (set_gpr (upd_reg r (uwrap (i_size o * 8) p) (reg mL)) (c_flags (m_c mL)) mL))) with (u32 (c_flags (m_c mL))).
  rewrite (uwrap_small 32) by done. f_equal.
  transitivity (set_gpr (upd_reg r (uwrap (i_size o * 8) p) (reg mL)) (flags_logic (c_flags (m_c mL)) p (i_size o)) mL); [done|].
  subst s. unfold mul_result. cbn [fst snd]. rewrite Er, <- Er, <- Hp, <- Hpp. f_equal.
  apply (flags_of_mod fn_flags_logic _ 0 0 0 0); try done. symmetry. apply uwrap_uwrap. lia.
Qed.

Record imul_record (o : insn) (w : option memop) (r src k : Z) : Prop := {
  ir_kind : i_kind o = K_IMUL;
  ir_next : i_next o = u64 (rip + k);
  ir_need : i_fneed o = 0;
  ir_reg : i_reg o = r;
  ir_size : i_size o = d_opsize d;
  ir_rex : i_has_rex o = d_has_rex d;
  ir_imm : urange 64 (i_imm o);
  ir_src : match w with None => i_src o = src /\ o_mem (i_mo o) = false | Some a => i_mo o = a end
}.

Lemma s64_mod x : uwrap 64 (s64 x) = uwrap 64 x.
Proof. by apply swrap_congr. Qed.

Lemma sext_mod size x : size = 4 \/ size = 8 -> uwrap (size * 8) (sext x size) = uwrap (size * 8) x.
Proof. intros Hs. rewrite sext_swrap by (unfold opsize; lia). apply swrap_congr. lia. Qed.

Lemma mul_mod w x x' y y' : 0 < w -> uwrap w x = uwrap w x' -> uwrap w y = uwrap w y' -> uwrap w (x * y) = uwrap w (x' * y').
Proof. intros Hw Hx Hy. unfold uwrap in *. by rewrite Zmult_mod, Hx, Hy, <- Zmult_mod. Qed.

(** The multiplication behind the operand; [y] is the other factor. *)
Definition mul_tail (r size : Z) (y : machine -> Z) (v : Z) : M unit := fun mL =>
  (p ← smul64 (sext v size) (y mL); setreg r p size;; upd_flags (fun fl => flags_logic fl p size)) mL.

(** Both forms: the constant, or the destination register. *)
Lemma imul_agreed o w r src k dst (y : machine -> Z) :
  imul_record o w r src k -> greg r -> lies (u64 (rip + k)) dst src w ->
  (forall mL, reg mL = reg m -> uwrap (i_size o * 8) (y mL) = uwrap (i_size o * 8) (if i_imm_src o then i_imm o else reg mL r)) ->
  exec_insn rip m = (v ← rd dst (d_opsize d) (d_has_rex d); mul_tail r (d_opsize d) y v) (m1 (u64 (rip + k))) ->
  agreed o.
Proof.
  intros [Ek En Ef Er Es Erex Him Hsrc] Hg Hl Hy Hx. pose proof opsize_word as Hw. rewrite <- Es in *.
  assert (Hsz : opsize (i_size o)) by (unfold opsize; lia). assert (Hw0 : 0 < i_size o * 8) by lia.
  set (k' := mul_tail r (i_size o) y) in Hx.
  assert (Hk : forall v mL, regs_ok mL -> reg mL = reg m -> c_flags (m_c mL) = c_flags (m_c m) ->
    let s := mul_result o v (reg m, c_flags (m_c m)) in (exists t, k' v mL = Trap (Undefined t)) \/ k' v mL = Ok tt (set_gpr s.1 s.2 mL)).
  { intros v mL HmL ErL EfL. pose proof (mul_run o r (sext v (i_size o)) (y mL) v mL Er Hw Hg HmL ltac:(by rewrite EfL)) as Hmul.
    rewrite <- ErL, <- EfL. apply Hmul. apply mul_mod; [done|by apply sext_mod|]. by rewrite Er, Hy. }
  destruct Hl as [Hr Ed|a Ha Hnr _ Hrd Hwr]; unfold agreed.
  - destruct Hsrc as [Esrc Emem]. split; [unfold mem_insn; rewrite Ek, Emem; split; rewrite ?Esrc, ?Er, ?Ef; done|]. split; [done|]. intros _.
    rewrite Hx, Ed, (bind_run _ _ _ _ _ (rd_operand _ (i_size o) _ (m1 (u64 (rip + k))) ltac:(lia))), En.
    destruct (Hk (reg_rd (d_has_rex d) (reg m) src (i_size o)) (m1 (u64 (rip + k))) Hm eq_refl eq_refl) as [[t Ht]|He].
    + change (reg (m1 (u64 (rip + k)))) with (reg m). by rewrite Ht.
    + change (reg (m1 (u64 (rip + k)))) with (reg m). rewrite He.
      assert (Hrd : uwrap (i_size o * 8) (reg_rd (d_has_rex d) (reg m) src (i_size o)) = uwrap (i_size o * 8) (reg m src)).
      { unfold reg_rd, high_byte. rewrite (proj2 (Z.eqb_neq (i_size o) 1)) by lia. cbn [andb]. apply uwrap_uwrap. lia. }
      eapply (regs_follow o _ (fun s => reg_sem o s.1 s.2)); [apply next_range| | |].
      * unfold mem_part. by rewrite Ek, Emem.
      * intros j _. unfold reg_sem. rewrite Ek. unfold ref_imul, mul_result. cbn [fst snd]. rewrite Esrc. unfold upd_reg.
        by rewrite (mul_mod (i_size o * 8) _ (reg m src) _ _ Hw0 Hrd eq_refl).
      * unfold reg_sem. rewrite Ek. unfold ref_imul, mul_result. cbn [fst snd]. rewrite Esrc.
        by rewrite (mul_mod (i_size o * 8) _ (reg m src) _ _ Hw0 Hrd eq_refl).
  - split; [unfold mem_insn; rewrite Ek, Hsrc, (mp_mem _ Ha); split; rewrite ?Hsrc, ?Er, ?Ef; try done; [apply Ha|by eapply memop_ea_ok]|].
    split; [done|]. intros _. rewrite Hx, En. unfold mbind at 1, M_bind at 1. rewrite Hrd.
    replace (ea_of a (u64 (rip + k)) (reg m)) with (ref_ea o (reg m)) by (unfold ref_ea, ea_of; by rewrite Hsrc, En).
    apply (loaded_follows o _ (ref_ea o (reg m)) (i_size o) (mul_result o) k').
    + apply next_range.
    + done.
    + apply mem_operand_sem. unfold mem_part. by rewrite Ek, Hsrc, (mp_mem _ Ha).
    + intros v mL Hv HrL ErL EfL. by apply Hk.
Qed.

Lemma imul_imm_agrees k o m2 :
  is_one_of op [0x69; 0x6B] = true -> dec_imul_imm rip n rex op blank m = Ok (Some (k, o)) m2 -> agreed (finished rip k o).
Proof.
  intros Hop. unfold dec_imul_imm.
  intros ([hd k1] & m3 & (-> & b & [= -> ->] & Hc & Hb)%rd8_inv & Hd)%bind_ok; [|done].
  apply bind_ok in Hd as ([k2 o2] & m3 & Hrm & Hd).
  destruct (operand_lies _ _ _ _ _ _ _ Hc Hrm) as (-> & dst & w & Hmod & Eo2 & E3 & Hl).
  apply bind_ok in Hd as ([i k3] & m3 & Himm & [= <- <- <-]).
  assert (E1 : m3 = m /\ urange 64 i /\ (if op =? 0x6B then simm8 (with_p (rip + k2) d) else simm32 (with_p (rip + k2) d)) m0 = Ok (i, with_p (rip + k3) d) m0).
  { revert Himm. destruct (op =? 0x6B).
    - intros (-> & b' & [= -> ->] & Hc' & Hb')%imm_s8_inv; [|done]. split; [done|]. split; [by apply uwrap_range|]. by apply (simm8_at m m0 eq_refl).
    - intros (-> & b' & [= -> ->] & Hc' & Hb')%imm_s32_inv; [|done]. split; [done|]. split; [by apply uwrap_range|]. by apply (simm32_at m m0 eq_refl). }
  destruct E1 as (-> & Hi & Hj).
  assert (Hrec : imul_record (finished rip k3 (iw_imm i o2)) w (reg_field rex b) (rm_field rex b) k3 /\
    i_imm_src (finished rip k3 (iw_imm i o2)) = true /\ i_imm (finished rip k3 (iw_imm i o2)) = i).
  { rewrite Eo2. destruct w; (split; [split; try done; by rewrite Hopsize|done]). }
  destruct Hrec as (Hrec & His & Him).
  eapply (imul_agreed _ w _ _ k3 _ (fun _ => s64 i)); [exact Hrec|apply field_greg|apply Hl| |].
  - intros mL _. rewrite His, Him, (ir_size _ _ _ _ _ Hrec). pose proof opsize_word.
    rewrite <- (uwrap_le _ 64 (s64 i)), s64_mod, uwrap_le by lia. done.
  - rewrite (ao_run _ _ _ _ _ _ Hat). assert (Hx : forall d', exec_op d' op = op_imul3 d' op).
    { intros d'. assert (op = 0x69 \/ op = 0x6B) as [E|E] by (unfold is_one_of in Hop; cbn [existsb] in Hop; lia); by rewrite E. }
    rewrite Hx. unfold op_imul3. rewrite (bind_run _ _ _ _ _ Hmod). cbv beta iota zeta. rewrite (bind_run _ _ _ _ _ Hj). cbv beta iota zeta.
    by rewrite (bind_run _ _ _ _ _ (advance_run k3)).
Qed.

Lemma getreg_run r size mS : getreg r size mS = Ok (trunc_sz (reg mS r) size) mS.
Proof. done. Qed.

Lemma bind_same {A B} (c : M A) (k k' : A -> M B) mS :
  (forall a mL, c mS = Ok a mL -> k a mL = k' a mL) -> (c ≫= k) mS = (c ≫= k') mS.
Proof. intros Hk. unfold mbind, M_bind. destruct (c mS) as [a mL|] eqn:E; [by apply Hk|done]. Qed.

Lemma imul2_agrees k o k1 w b dst :
  o = with_operand w (iw_src (rm_field rex b)) (iw_kind K_IMUL (iw_reg (reg_field rex b) blank)) ->
  modrm (with_p (rip + k1) d) m0 = Ok (reg_field rex b, dst, with_p (rip + k) d) m0 ->
  lies (u64 (rip + k)) (fixup_rip (with_p (rip + k) d) dst) (rm_field rex b) w ->
  exec_insn rip m = op_imul2 (with_p (rip + k1) d) m0 -> agreed (finished rip k o).
Proof.
  intros Eo Hmod Hl Hx. pose proof opsize_word as Hw.
  assert (Hrec : imul_record (finished rip k o) w (reg_field rex b) (rm_field rex b) k /\ i_imm_src (finished rip k o) = false).
  { rewrite Eo. destruct w; (split; [split; try done; by rewrite Hopsize|done]). }
  destruct Hrec as (Hrec & His).
  set (y := fun mL : machine => sext (trunc_sz (reg mL (reg_field rex b)) (d_opsize d)) (d_opsize d)).
  eapply (imul_agreed _ w _ _ k _ y); [exact Hrec|apply field_greg|exact Hl| |].
  - intros mL _. rewrite His, (ir_size _ _ _ _ _ Hrec). unfold y. rewrite sext_mod, trunc_sz_uwrap by (done || unfold opsize; lia).
    apply uwrap_uwrap. lia.
  - rewrite Hx. unfold op_imul2. rewrite (bind_run _ _ _ _ _ (modrm_advance_run _ _ _ _ Hmod)). cbv beta iota zeta.
    change (d_opsize (with_p (rip + k1) d)) with (d_opsize d). change (d_has_rex (with_p (rip + k) d)) with (d_has_rex d).
    set (sz := d_opsize d) in *. set (x := fixup_rip _ _) in *. rewrite (bind_run _ _ _ _ _ (getreg_run _ sz _)).
    apply bind_same. intros v mL EL. assert (Hrd : reg mL = reg m).
    { revert EL. unfold rd. destruct (is_reg x).
      - rewrite (proj2 (Z.eqb_neq sz 1)), getreg_run by lia. by intros [= _ <-].
      - assert (Hsz : opsize sz) by (unfold opsize; lia). by intros (-> & _)%ld_stays. }
    unfold mul_tail, y. fold sz. rewrite Hrd. unfold smul64. by rewrite (Z.mul_comm (sext v sz)).
Qed.

Lemma setcc_agrees k o k1 w b dst op2 :
  0x90 <= op2 <= 0x9F ->
  o = with_operand w (iw_reg (rm_field rex b)) (iw_kind K_SETCC (iw_size 1 (iw_cc (op2 .& 0xF) blank))) ->
  modrm (with_p (rip + k1) d) m0 = Ok (reg_field rex b, dst, with_p (rip + k) d) m0 ->
  lies (u64 (rip + k)) (fixup_rip (with_p (rip + k) d) dst) (rm_field rex b) w ->
  exec_insn rip m = op_setcc (with_p (rip + k1) d) op2 m0 -> agreed (finished rip k o).
Proof.
  intros Hop2 Eo Hmod Hl Hx. set (of_ := finished rip k o).
  assert (Hf : i_kind of_ = K_SETCC /\ i_next of_ = u64 (rip + k) /\ i_fneed of_ = 0 /\ i_cc of_ = op2 .& 0xF /\ i_has_rex of_ = d_has_rex d /\
    match w with None => i_reg of_ = rm_field rex b /\ o_mem (i_mo of_) = false | Some a => i_mo of_ = a end).
  { unfold of_. rewrite Eo. by destruct w. }
  destruct Hf as (Ek & En & Ef & Ecc & Erex & Ew).
  assert (Hcc : 0 <= i_cc of_ < 16).
  { rewrite Ecc. change 0xF with (Z.ones 4). rewrite land_ones_uwrap by lia. apply (uwrap_range 4). lia. }
  assert (Hrun' : exec_insn rip m = wr (fixup_rip (with_p (rip + k) d) dst) (bz (cond (c_flags (m_c m)) (i_cc of_))) 1 (d_has_rex d) (m1 (u64 (rip + k)))).
  { rewrite Hx. unfold op_setcc. rewrite (bind_run _ _ _ _ _ (modrm_advance_run _ _ _ _ Hmod)). cbv beta iota zeta. by rewrite Ecc. }
  set (v := bz (cond (c_flags (m_c m)) (i_cc of_))) in *.
  destruct Hl as [Hr Ed|a Ha Hnr _ Hrd Hwr]; unfold agreed.
  - destruct Ew as [Er Emem]. split; [unfold mem_insn; rewrite Ek, Emem; split; rewrite ?Er; done|]. split; [done|]. intros _.
    rewrite Hrun', Ed, En. rewrite <- (m1_flags m Hfl rip (u64 (rip + k))), (wr_gpr (rm_field rex b) v v 1 _ _ (m1 (u64 (rip + k)))) by (done || by left).
    eapply (regs_follow of_ _ (fun s => reg_sem of_ s.1 s.2)); [apply next_range| | |].
    + unfold mem_part. by rewrite Ek, Emem.
    + intros j _. unfold reg_sem. rewrite Ek. unfold ref_setcc. cbn [fst snd]. by rewrite Er, Erex.
    + unfold reg_sem. by rewrite Ek.
  - split; [unfold mem_insn; rewrite Ek, Ew, (mp_mem _ Ha); split; rewrite ?Ew; try done; [apply Ha|by eapply memop_ea_ok]|].
    split; [done|]. intros _. rewrite Hrun', En, Hwr. apply alike_follows.
    replace (ea_of a (u64 (rip + k)) (reg m)) with (ref_ea of_ (reg m)) by (unfold ref_ea, ea_of; by rewrite Ew, En).
    apply (stored_alike m Hm Hfl rip _ (next_range k) of_ v v 1); [by left|done|].
    unfold insn_sem, mem_part. rewrite Ek, Ew, (mp_mem _ Ha). unfold mbind, M_bind. cbn [gets get_c upd modify].
    change (c_flags (m_c (upd_m (with_cur_rip rip) m))) with (c_flags (m_c m)). by destruct (Machine.st _ _ _ _) as [[]|].
Qed.

Lemma lea_agrees k o m2 :
  op = 0x8D -> dec_lea rip n rex blank m = Ok (Some (k, o)) m2 -> agreed (finished rip k o).
Proof.
  intros Hop. unfold dec_lea.
  intros ([hd k1] & m3 & (-> & b & [= -> ->] & Hc & Hb)%rd8_inv & Hd)%bind_ok; [|done].
  destruct (b >> 6 =? 3) eqn:E3; [discriminate|].
  apply bind_ok in Hd as ([k2 a] & m3 & Hmem & [= <- <- <-]).
  destruct (modrm_agrees m Hbytes m0 eq_refl Hm rip d (ao_seg _ _ _ _ _ _ Hat) n b k2 a m3 Hc E3 Hmem) as (-> & Ha & dst & Hmod & Hp).
  destruct (Hp (rip + k2)) as (Hr & He & _). rewrite (ao_rip _ _ _ _ _ _ Hat) in He. change (reg m0) with (reg m) in He.
  set (o := finished rip k2 (iw_kind K_LEA (iw_reg (reg_field rex b) (iw_mo a blank)))).
  assert (Hs : i_size o = d_opsize d) by by rewrite Hopsize. pose proof opsize_word as Hw. rewrite <- Hs in *.
  split; [change (lea_ok o); split; [apply field_greg|by apply (memop_ea_ok o a)|done]|]. split; [done|]. intros _.
  assert (Hx : exec_insn rip m = setreg (i_reg o) (ref_ea o (reg m)) (i_size o) (m1 (u64 (rip + k2)))).
  { rewrite (ao_run _ _ _ _ _ _ Hat), Hop. change (exec_op (with_p (rip + n) d) 0x8D m0) with (op_lea (with_p (rip + n) d) m0).
    unfold op_lea. rewrite (bind_run _ _ _ _ _ (modrm_advance_run _ _ _ _ Hmod)). cbv beta iota zeta. by rewrite Hr, He, Hs. }
  rewrite Hx, setreg_gpr by (done || apply field_greg).
  eapply (regs_follow o _ (fun s => reg_sem o s.1 s.2)); [apply next_range|done|done|done].
Qed.

Lemma push_pop_agrees k o m2 :
  (0x50 <=? op) && (op <=? 0x5F) = true -> dec_push_pop n rex op blank m = Ok (Some (k, o)) m2 -> agreed (finished rip k o).
Proof.
  intros Hop. unfold dec_push_pop. set (r := (op .& 7) .| rex_ext rex 1). destruct (Z.eqb_spec r 4) as [|H4]; [discriminate|].
  intros [= <- <- <-]. assert (Hg : greg r) by apply field_greg.
  assert (Hx : forall d', exec_op d' op = if op <? 0x58 then op_push_reg d' op else op_pop_reg d' op).
  { intros d'. assert (Hc : op = 0x50 \/ op = 0x51 \/ op = 0x52 \/ op = 0x53 \/ op = 0x54 \/ op = 0x55 \/ op = 0x56 \/ op = 0x57 \/
      op = 0x58 \/ op = 0x59 \/ op = 0x5A \/ op = 0x5B \/ op = 0x5C \/ op = 0x5D \/ op = 0x5E \/ op = 0x5F) by lia.
    clear -Hc. by repeat destruct Hc as [->|Hc]; [..|rewrite Hc]. }
  pose proof (ao_run _ _ _ _ _ _ Hat) as Hrn. rewrite Hx in Hrn. pose proof (next_range n) as Hn. set (next := u64 (rip + n)) in *.
  destruct (op <? 0x58).
  - set (o := finished rip n (iw_kind K_PUSH (iw_reg r blank))).
    split; [change (stack_ok o); split; [by left|done|done]|]. split; [done|]. intros _.
    assert (Hpush : exec_insn rip m = push (reg m r) (m1 next)).
    { rewrite Hrn. unfold op_push_reg. rewrite (bind_run _ _ _ _ _ (advance_run n)). by rewrite (bind_run _ _ _ _ _ (getr_run _ _)). }
    rewrite Hpush. apply alike_follows. set (sp := u64 (reg m 4 - 8)). set (m' := set_reg 4 sp m).
    assert (Hm' : regs_ok m') by (apply set_reg_ok; [done|by apply uwrap_range]).
    assert (HpI : push (reg m r) (m1 next) = Machine.st sp (reg m r) 8 (upd_m (with_rip next) (upd_m (with_cur_rip rip) m'))).
    { destruct (push_run (reg m r) (m1 next)) as [Hp|Hl]; [exact Hp|]. by destruct Hl; apply Hm. }
    assert (HpC : push (reg m r) m0 = Machine.st sp (reg m r) 8 (upd_m (with_cur_rip rip) m')).
    { destruct (push_run (reg m r) m0) as [Hp|Hl]; [exact Hp|]. by destruct Hl; apply Hm. }
    rewrite HpI, <- (m1_flags m' Hfl rip next).
    assert (Hsem : insn_sem all_flags o rip m = (Machine.st sp (reg m r) 8;; if_running (then_regs all_flags o (fun s => s))) (upd_m (with_cur_rip rip) m')).
    { unfold mbind at 1, M_bind at 1. rewrite <- HpC. unfold insn_sem, mem_part, mbind, M_bind. cbn [i_kind o finished iw_next iw_len iw_kind upd modify gets].
      change (Machine (with_cur_rip rip (m_c m)) (m_as m) (m_w m) (m_cb m) (m_cm m)) with m0. change (reg m0) with (reg m).
      cbn [i_reg iw_next iw_len iw_kind iw_reg]. by destruct (push (reg m r) m0) as [[]|]. }
    rewrite Hsem. apply (st_alike m' Hm' rip next Hn sp (reg m r) (reg m r) 8 _); [by right; right; right|exact Hfl|done|].
    intros mS ES. by apply flags_same.
  - set (o := finished rip n (iw_kind K_POP (iw_reg r blank))).
    split; [change (stack_ok o); split; [by right|done|done]|]. split; [done|]. intros _.
    assert (Hpop : exec_insn rip m = (v ← ld (reg m 4) 8; sp ← getr RSP; setr RSP (sp + 8);; setr r v) (m1 next)).
    { rewrite Hrn. unfold op_pop_reg. rewrite (bind_run _ _ _ _ _ (advance_run n)). unfold pop.
      change (op_reg (with_p (rip + n) d) op) with r. unfold mbind, M_bind. rewrite getr_run. change (reg (m1 (u64 (rip + n))) RSP) with (reg m 4).
      by destruct (ld _ _ _) as [v mL|]. }
    rewrite Hpop. apply (loaded_follows o next (reg m 4) 8 (fun v s => (upd_reg 4 (u64 (s.1 4 + 8)) (upd_reg r v s.1), s.2))); [done|by right; right; right| |].
    + unfold insn_sem, mem_part, mbind, M_bind. cbn [i_kind o finished iw_next iw_len iw_kind upd modify gets].
      change (Machine (with_cur_rip rip (m_c m)) (m_as m) (m_w m) (m_cb m) (m_cm m)) with m0. change (reg m0) with (reg m).
      by destruct (ld _ _ _).
    + intros v mL Hv HrL ErL EfL s. right. subst s. cbn [fst snd]. unfold mbind, M_bind. rewrite getr_run. change RSP with 4.
      rewrite ErL, !setr_run. set (x := u64 (reg m 4 + 8)). assert (Hx64 : urange 64 x) by by apply uwrap_range.
      assert (Hv64 : urange 64 v) by exact Hv. rewrite (uwrap_small 64 v) by done. f_equal.
      rewrite (set_reg_gpr r v (set_reg 4 x mL)) by (done || (apply set_reg_ok; done) || (change (urange 32 (c_flags (m_c mL))); by rewrite EfL)).
      change (c_flags (m_c (set_reg 4 x mL))) with (c_flags (m_c mL)). rewrite EfL.
      rewrite (set_gpr_eq _ (upd_reg 4 x (upd_reg r v (reg m)))); [done|].
      intros j Hj. unfold upd_reg. rewrite reg_set by (done || apply Hj). rewrite ErL.
      destruct (Z.eqb_spec j r) as [->|]; [|done]. by rewrite (proj2 (Z.eqb_neq r 4)).
Qed.

(** Nothing, with or without an operand. *)
Lemma nop_agrees k o k1 :
  i_kind o = K_NOP -> i_fneed o = 0 -> exec_insn rip m = Ok tt (m1 (u64 (rip + k1))) -> k = k1 -> agreed (finished rip k o).
Proof.
  intros Hk Hf Hx ->. set (of_ := finished rip k1 o). assert (E : i_kind of_ = K_NOP /\ i_fneed of_ = 0 /\ i_next of_ = u64 (rip + k1)).
  { unfold of_, finished. cbn [i_kind iw_next iw_len]. by rewrite Hk. }
  destruct E as (Ek & Ef & En). split; [unfold mem_insn, reg_insn; by rewrite Ek|]. split; [done|]. intros _. rewrite Hx, En.
  assert (Em : m1 (u64 (rip + k1)) = set_gpr (reg m) (c_flags (m_c m)) (m1 (u64 (rip + k1)))).
  { change (reg m) with (reg (m1 (u64 (rip + k1)))). rewrite set_gpr_flags by apply Hm. symmetry. by apply m1_flags. }
  rewrite Em. eapply (regs_follow of_ _ (fun s => reg_sem of_ s.1 s.2)); [apply next_range| | |].
  - unfold mem_part. by rewrite Ek.
  - intros j _. unfold reg_sem. by rewrite Ek.
  - unfold reg_sem. by rewrite Ek.
Qed.

(** The forms with a ModRM byte. *)
Lemma dec_alu_inv k o m2 :
  is_dec_alu op = true -> dec_alu rip n rex op blank m = Ok (Some (k, o)) m2 ->
  exists b dst w, let size := dec_size op (d_opsize d) in let r := rm_field rex b in let g := reg_field rex b in
    modrm (with_p (rip + n) d) m0 = Ok (g, dst, with_p (rip + k) d) m0 /\
    lies (u64 (rip + k)) (fixup_rip (with_p (rip + k) d) dst) r w /\ greg r /\ greg g /\
    o = iw_no_write (is_one_of (dec_op op) [0x38; 0x85]) (iw_op (dec_op op) (match w with
      | None => iw_kind K_RR (iw_reg (if dec_to_reg op then g else r) (iw_src (if dec_to_reg op then r else g) (iw_size size blank)))
      | Some a => iw_kind (if dec_to_reg op then K_RM else K_MR) (iw_reg g (iw_mo a (iw_size size blank))) end)).
Proof.
  intros Hop. unfold dec_alu. rewrite dec_byte. fold (dec_to_reg op) (dec_op op).
  assert (Hsz : (if negb (nz (op .& 1)) then iw_size 1 blank else blank) = iw_size (dec_size op (d_opsize d)) blank)
    by (unfold dec_size; rewrite Hopsize; by destruct (nz (op .& 1))).
  intros ([hd k1] & m3 & (-> & b & [= -> ->] & Hc & Hb)%rd8_inv & Hd)%bind_ok; [|done].
  apply bind_ok in Hd as ([k2 o2] & m3 & Hrm & [= <- <- <-]). rewrite Hsz in Hrm. exists b.
  assert (Hrm' : exists w, rm_or_mem rip (n + 1) rex b (fun _ o => o) blank m = Ok (k2, with_operand w (fun o => o) blank) m3 /\
    o2 = match w with
      | None => iw_kind K_RR (iw_reg (if dec_to_reg op then reg_field rex b else rm_field rex b)
          (iw_src (if dec_to_reg op then rm_field rex b else reg_field rex b) (iw_size (dec_size op (d_opsize d)) blank)))
      | Some a => iw_kind (if dec_to_reg op then K_RM else K_MR) (iw_reg (reg_field rex b) (iw_mo a (iw_size (dec_size op (d_opsize d)) blank))) end /\
    (b >> 6 =? 3) = bool_decide (w = None)).
  { unfold rm_or_mem. destruct (b >> 6 =? 3).
    - injection Hrm as <- <- <-. by exists None.
    - apply bind_ok in Hrm as ([k3 a] & m4 & Ha & [= <- <- <-]). exists (Some a). by rewrite (bind_run _ _ _ _ _ Ha). }
  destruct Hrm' as (w & Hrm' & -> & E3). destruct (operand_lies _ _ _ _ _ _ _ Hc Hrm') as (-> & dst & w' & Hmod & Ew & E3' & Hl).
  assert (w' = w) as ->.
  { destruct w as [a|], w' as [a'|]; rewrite E3 in E3'; cbn in E3'; try discriminate; [|done].
    f_equal. exact (f_equal i_mo (eq_sym Ew)). }
  exists dst, w. split; [exact Hmod|]. split; [apply Hl|]. split; [apply field_greg|]. split; [apply field_greg|]. done.
Qed.

Lemma alu_rm_agrees k o m2 :
  is_dec_alu op = true -> 0 <= op -> dec_alu rip n rex op blank m = Ok (Some (k, o)) m2 -> agreed (finished rip k o).
Proof.
  intros Hop Hop0 Hd. destruct (dec_alu_inv k o m2 Hop Hd) as (b & dst & w & Hmod & Hl & Hr & Hg & Eo).
  set (g := reg_field rex b) in *. set (r := rm_field rex b) in *. set (size := dec_size op (d_opsize d)) in *. set (of_ := finished rip k o).
  pose proof (next_range k) as Hn. set (next := u64 (rip + k)) in *. set (x := fixup_rip _ dst) in *.
  assert (Hf : i_next of_ = next /\ i_fneed of_ = 0 /\ i_imm of_ = 0 /\ i_op of_ = dec_op op /\ i_size of_ = size /\ i_has_rex of_ = d_has_rex d /\
    i_no_write of_ = is_one_of (dec_op op) [0x38; 0x85] /\
    match w with
    | None => i_kind of_ = K_RR /\ i_reg of_ = (if dec_to_reg op then g else r) /\ i_src of_ = (if dec_to_reg op then r else g)
    | Some a => i_kind of_ = (if dec_to_reg op then K_RM else K_MR) /\ i_reg of_ = g /\ i_src of_ = 0 /\ i_mo of_ = a end).
  { unfold of_. rewrite Eo. unfold finished. destruct w; [destruct (dec_to_reg op)|]; by split_and!. }
  destruct Hf as (En & Ef & Ei & Eop & Es & Erex & Enw & Ew).
  assert (Hs : size = 1 \/ size = 4 \/ size = 8) by (pose proof opsize_word; unfold size, dec_size; destruct (negb _); lia).
  assert (Hsz : opsize size) by (unfold opsize; lia).
  destruct (dec_alu_byte op Hop Hop0) as (_ & _ & _ & Hexec & _).
  assert (Hreg : is_one_of (dec_op op) reg_ops = true /\ is_one_of (dec_op op) [OP_INC; OP_DEC] = false).
  { destruct (dec_alu_forms op Hop Hop0) as [(j & Hkl & _ & _ & ->)|[(_ & _ & ->)|(_ & _ & ->)]]; [|done..].
    by destruct (alu_ext j Hkl) as (_ & _ & _ & _ & _ & ? & ? & _). }
  destruct Hreg as [Ho1 Ho2].
  assert (Hrec : op_record of_ w).
  { split; rewrite ?Eop, ?Es, ?Ei; try done; [| |by rewrite Ho2].
    - destruct w; [by destruct Ew as (_ & -> & _)|]. destruct Ew as (_ & -> & _). by destruct (dec_to_reg op).
    - destruct w; [by destruct Ew as (_ & _ & -> & _)|]. destruct Ew as (_ & _ & ->). by destruct (dec_to_reg op). }
  assert (Hends : forall y a' b', ends of_ y a' b' (alu_rest op y a' b' size (d_has_rex d))).
  { intros. by apply (alu_rest_ends of_ op size _ (i_reg of_)). }
  pose proof (ao_run _ _ _ _ _ _ Hat) as Hrn. rewrite Hexec in Hrn.
  pose proof (modrm_advance_run _ _ _ _ Hmod) as Hadv. fold g x next in Hadv.
  destruct Hl as [_ Ed|a Ha Hnr Had Hrd Hwr].
  - destruct Ew as (Ek & Er & Esrc).
    assert (Hopr : operates of_ (i_reg of_) (operand2 of_ (reg m)) None) by (split; [by left|done]).
    split; [eapply (operates_insn of_ _ _ None next); [exact Hrec|exact Hopr|by constructor; [apply Hrec|]]|]. split; [done|]. intros _.
    rewrite Hrn, En. unfold op_alu_rm. change (d_opsize (with_p (rip + n) d)) with (d_opsize d). fold (dec_size op (d_opsize d)) (dec_to_reg op). fold size.
    rewrite (bind_run _ _ _ _ _ Hadv). cbv beta iota zeta. change (d_has_rex (with_p (rip + k) d)) with (d_has_rex d). rewrite Ed.
    replace (if dec_to_reg op then reg_opnd g else reg_opnd r) with (reg_opnd (i_reg of_)) by (rewrite Er; by destruct (dec_to_reg op)).
    replace (if dec_to_reg op then reg_opnd r else reg_opnd g) with (reg_opnd (i_src of_)) by (rewrite Esrc; by destruct (dec_to_reg op)).
    rewrite (bind_run _ _ _ _ _ (rd_operand _ size _ (m1 next) Hs)), (bind_run _ _ _ _ _ (rd_operand _ size _ (m1 next) Hs)).
    apply (op_follows of_ next (alu_rest op (reg_opnd (i_reg of_)) (reg_rd (d_has_rex d) (reg (m1 next)) (i_reg of_) size)
      (reg_rd (d_has_rex d) (reg (m1 next)) (i_src of_) size) size (d_has_rex d)));
      [done|by left|apply Hrec|by rewrite Es|]. rewrite Es, Erex.
    replace (operand2 of_ (reg m)) with (reg_rd (d_has_rex d) (reg (m1 next)) (i_src of_) size); [apply Hends|].
    unfold operand2. by rewrite Ek, Erex, Es.
  - destruct Ew as (Ek & Er & _ & Emo). assert (Hgr : greg (i_reg of_)) by apply Hrec.
    assert (Hea : ea_of a next (reg m) = ref_ea of_ (reg m)) by (unfold ref_ea, ea_of; by rewrite Emo, En).
    rewrite Hea in *. pose proof (op_alu_mem_run (with_p (rip + n) d) (with_p (rip + k) d) op g x (ref_ea of_ (reg m)) size m0 _ Hadv eq_refl eq_refl Hm Hs Hrd) as Hrun'.
    change (reg (m1 next)) with (reg m) in Hrun'. change (d_has_rex (with_p (rip + n) d)) with (d_has_rex d) in Hrun'.
    destruct (dec_to_reg op).
    + split; [unfold mem_insn; rewrite Ek; split; [done|by eapply op_record_op_ok; [exact Hrec|tauto]|by eapply memop_ea_ok|by rewrite Eop]|].
      split; [done|]. intros _. apply alike_follows. rewrite Hrn, Hrun', En, <- Es, <- Er, <- Erex.
      apply (rm_alike m Hm Hfl Hrun rip next Hn of_); [done|by rewrite Es|done|]. intros v. rewrite Es, Erex. apply Hends.
    + assert (Hopr : operates of_ r (mov_value of_ (reg m)) (Some a)) by (split; [by left|done]).
      split; [eapply (operates_insn of_ _ _ (Some a) next x); [exact Hrec|exact Hopr|constructor; try done; by rewrite Hea]|].
      split; [done|]. intros Hread. apply alike_follows. rewrite Hrn, Hrun', En.
      assert (Hmv : reg_rd (d_has_rex d) (reg m) g size = mov_value of_ (reg m)) by (unfold mov_value; by rewrite Ek, Erex, Er, Es).
      rewrite Hmv. destruct (Z.eqb_spec (i_op of_) 0x88) as [E|E].
      * rewrite <- Es. apply (mov_alike m Hm Hfl Hrun rip next Hn of_ x); [done|done|by rewrite Enw, <- Eop, E|by rewrite Es|by intros; apply Hread| |].
        -- intros v. rewrite Es. apply Hends.
        -- intros v y. rewrite Es, Erex. apply Hwr.
      * rewrite <- Es. apply (rmw_alike m Hm Hfl Hrun rip next Hn of_ x); [by left|done|by rewrite Es| |].
        -- intros v. rewrite Es. apply Hends.
        -- intros v y. rewrite Es, Erex. apply Hwr.
Qed.
End same.
