(* ===== verification/JitAccept.v ===== *)
(** The compiler and the interpreter agree ([decode] and [rsd_jit_lookup] in
    [src/jit.c], [step] in [src/cpu.c]): on every instruction the compiler
    accepts inside a block, whatever its bytes. *)
From S2P Require Import Prelude.
From S2P Require Import Memory.
From S2P Require Import AddressSpace.
From S2P Require Import SampleHost.
From S2P Require Import Flags.
From S2P Require Import Float.
From S2P Require Import Machine.
From S2P Require Import Access.
From S2P Require Import Decode.
From S2P Require Import Sse.
From S2P Require Import Step.
From S2P Require Import Keeps.
From S2P Require Import Safety.
From S2P Require Import Registers.
From S2P Require Import Encoding.
From S2P Require Import Jit.
From S2P Require Import JitEmit.
From S2P Require Import JitFlags.
From S2P Require Import JitRegs.
From S2P Require Import JitLive.
From S2P Require Import JitBlock.
From S2P Require Import JitArena.
From S2P Require Import JitAgree.
From S2P Require Import JitRel.
From S2P Require Import JitSem.
From S2P Require Import JitCode.
From S2P Require Import JitMem.
From S2P Require Import JitWorld.
From S2P Require Import JitAccess.
From S2P Require Import JitRoutines.
From S2P Require Import JitOps.
From S2P Require Import JitDoes.
From S2P Require Import JitRmw.
From S2P Require Import JitShift.
From S2P Require Import JitWhole.
From S2P Require Import JitDecode.
From S2P Require Import JitReads.
From S2P Require Import JitSame.

(** An instruction on integers that does not end a block; shifts of memory,
    whose flags are in place before the store that may fault, are left out. *)
Definition body_insn (o : insn) : Prop :=
  match i_kind o with
  | K_RR | K_RI | K_RM | K_MR | K_MI | K_PUSH | K_POP | K_LEA | K_MOVX | K_IMUL | K_SETCC | K_NOP => True
  | K_SHIFT => o_mem (i_mo o) = false
  | _ => False
  end.

Section accept.
Context `{HostOS} `{HostFloat}.
Context (rip : Z) (m : machine) (Hm : regs_ok m) (Hfl : urange 32 (c_flags (m_c m))) (Hrun : c_running (m_c m) = true).
Context (Hbytes : mem_ok (mem_of m)).
#[local] Abbreviation m0 := (upd_m (with_cur_rip rip) m).
#[local] Abbreviation agreed := (agreed rip m).

Lemma finished_kind k o : i_kind (finished rip k o) = i_kind o.
Proof. unfold finished. cbn [i_kind iw_next iw_len]. destruct (i_kind o) eqn:E; cbn; by rewrite ?E. Qed.
Lemma finished_mo k o : i_mo (finished rip k o) = i_mo o.
Proof. unfold finished. cbn [i_kind iw_next iw_len]. by destruct (i_kind o). Qed.

(** The two-byte opcodes of integer instructions are not SSE's. *)
Lemma not_sse op2 d :
  (0x90 <=? op2) && (op2 <=? 0x9F) || is_one_of op2 [0xAF; 0xB6; 0xB7; 0xBE; 0xBF; 0x1F] = true -> sse_exec d op2 = mret (false, d).
Proof.
  intros Hop. unfold is_one_of in Hop. cbn [existsb] in Hop.
  assert (Hc : 0x90 <= op2 <= 0x9F \/ op2 = 0xAF \/ op2 = 0xB6 \/ op2 = 0xB7 \/ op2 = 0xBE \/ op2 = 0xBF \/ op2 = 0x1F) by lia.
  destruct Hc as [Hr|Hc]; [|by repeat destruct Hc as [->|Hc]; [..|rewrite Hc]].
  assert (Hc : op2 = 0x90 \/ op2 = 0x91 \/ op2 = 0x92 \/ op2 = 0x93 \/ op2 = 0x94 \/ op2 = 0x95 \/ op2 = 0x96 \/ op2 = 0x97 \/
    op2 = 0x98 \/ op2 = 0x99 \/ op2 = 0x9A \/ op2 = 0x9B \/ op2 = 0x9C \/ op2 = 0x9D \/ op2 = 0x9E \/ op2 = 0x9F) by lia.
  by repeat destruct Hc as [->|Hc]; [..|rewrite Hc].
Qed.

Context (n mand op : Z) (d : dec) (Hat : at_opcode rip n mand op d m).
#[local] Abbreviation rex := (d_rex d).
#[local] Abbreviation blank := (blank_of rex (d_has_rex d)).

(** The second opcode byte, and what it names. *)
Lemma exec_0f_front op2 :
  op = 0x0F -> code_at m (rip + n) [op2] ->
  (0x90 <=? op2) && (op2 <=? 0x9F) || is_one_of op2 [0xAF; 0xB6; 0xB7; 0xBE; 0xBF; 0x1F] = true ->
  exec_insn rip m = (if is_one_of op2 [0x1E; 0x1F] then op_nop_rm (with_p (rip + (n + 1)) d)
    else if between 0x90 0x9F op2 then op_setcc (with_p (rip + (n + 1)) d) op2
    else if op2 =? 0xAF then op_imul2 (with_p (rip + (n + 1)) d) else op_movx (with_p (rip + (n + 1)) d) op2) m0.
Proof.
  intros Hop Hc Ho. rewrite (ao_run _ _ _ _ _ _ Hat), Hop. change (exec_op (with_p (rip + n) d) 0x0F m0) with (exec_0f (with_p (rip + n) d) m0).
  unfold exec_0f. rewrite (bind_run _ _ _ _ _ (fetch8_at m m0 eq_refl rip d n op2 Hc)). cbv beta iota.
  assert (H5 : (op2 =? 5) = false) by (unfold is_one_of in Ho; cbn [existsb] in Ho; lia). rewrite H5. unfold exec_0f_op. rewrite not_sse by done.
  erewrite bind_run by reflexivity. cbv beta iota.
  destruct (is_one_of op2 [0x1E; 0x1F]) eqn:E1; [done|].
  assert (H80 : between 0x80 0x8F op2 = false) by (unfold between, is_one_of in *; cbn [existsb] in *; lia). rewrite H80.
  destruct (between 0x90 0x9F op2) eqn:E9; [done|].
  assert (H40 : between 0x40 0x4F op2 = false) by (unfold between, is_one_of in *; cbn [existsb] in *; lia). rewrite H40.
  assert (HA : is_one_of op2 [0xA4; 0xA5; 0xAC; 0xAD] = false) by (unfold between, is_one_of in *; cbn [existsb] in *; lia). rewrite HA.
  destruct (op2 =? 0xAF) eqn:EF; [done|].
  assert (HB : is_one_of op2 [0xB6; 0xB7; 0xBE; 0xBF] = true) by (unfold between, is_one_of in *; cbn [existsb] in *; lia). by rewrite HB.
Qed.

(** The forms with a ModRM byte. *)
Lemma modrm_form k1 (field : Z -> insn -> insn) (o0 : Z -> insn) k o m2 :
  ('(hd, k) ← Jit.rd8 rip k1; '(k, o) ← rm_or_mem rip k rex hd field (o0 hd); mret (Some (k, o)) : M (option (Z * insn))) m =
    Ok (Some (k, o)) m2 ->
  m2 = m /\ exists b dst w, o = with_operand w (field (rm_field rex b)) (o0 b) /\
    modrm (with_p (rip + k1) d) m0 = Ok (reg_field rex b, dst, with_p (rip + k) d) m0 /\
    lies m (u64 (rip + k)) (fixup_rip (with_p (rip + k) d) dst) (rm_field rex b) w.
Proof.
  intros ([hd k2] & m3 & (-> & b & [= -> ->] & Hc & Hb)%rd8_inv & Hd)%bind_ok; [|done].
  apply bind_ok in Hd as ([k3 o3] & m3 & Hrm & [= <- <- <-]).
  destruct (operand_lies rip m Hm Hbytes n mand op d Hat _ _ _ _ _ _ _ Hc Hrm) as (-> & dst & w & Hmod & Eo & _ & Hl).
  split; [done|]. by exists b, dst, w.
Qed.

Lemma sse_kind p k1 rx md op2 o0 k o m2 : decode_sse p k1 rx md op2 o0 m = Ok (Some (k, o)) m2 -> i_kind o = K_SSE.
Proof.
  unfold decode_sse. destruct (negb _); [discriminate|].
  intros ([hd k2] & m3 & _ & Hd)%bind_ok. apply bind_ok in Hd as ([[k3 a] x] & m4 & _ & Hd).
  by apply bind_ok in Hd as ([pr k4] & m5 & _ & [= <- <- <-]).
Qed.

(** The two-byte opcodes. *)
Lemma dec_0f_agrees k o m2 :
  op = 0x0F -> dec_0f rip n rex mand blank m = Ok (Some (k, o)) m2 -> body_insn o -> agreed (finished rip k o).
Proof.
  intros Hop. unfold dec_0f.
  intros ([op2 k1] & m3 & (-> & b2 & [= -> ->] & Hc2 & Hb2)%rd8_inv & Hd)%bind_ok; [|done]. intros Hk.
  pose proof (exec_0f_front b2 Hop Hc2) as Hx. unfold is_one_of, between in Hx. cbn [existsb] in Hx.
  destruct ((0x80 <=? b2) && (b2 <=? 0x8F)) eqn:E8.
  { destruct (nz mand); [discriminate|]. apply bind_ok in Hd as ([i k2] & m3 & _ & [= <- <- <-]). done. }
  destruct (Z.eqb_spec b2 0xAF) as [->|EF].
  { destruct (nz mand) eqn:Em; [discriminate|]. apply modrm_form in Hd as (-> & b & dst & w & -> & Hmod & Hl).
    eapply (imul2_agrees rip m Hm Hfl Hrun Hbytes n mand op d Hat); [|done|exact Hmod|exact Hl|by apply Hx].
    apply (ao_opsize _ _ _ _ _ _ Hat). unfold nz in Em. lia. }
  destruct ((0x90 <=? b2) && (b2 <=? 0x9F)) eqn:E9.
  { destruct (nz mand) eqn:Em; [discriminate|]. apply modrm_form in Hd as (-> & b & dst & w & -> & Hmod & Hl).
    eapply (setcc_agrees rip m Hm Hfl Hrun n mand op d Hat); [|done|exact Hmod|exact Hl|]; [lia|].
    rewrite Hx by done. by replace (b2 =? 31) with false by lia; replace (b2 =? 30) with false by lia. }
  destruct (is_one_of b2 [0xB6; 0xB7; 0xBE; 0xBF]) eqn:EB.
  { destruct (nz mand) eqn:Em; [discriminate|]. apply modrm_form in Hd as (-> & b & dst & w & -> & Hmod & Hl).
    eapply (movx_agrees rip m Hm Hfl Hrun Hbytes n mand op d Hat); [|exact EB|done|exact Hmod|exact Hl| |done].
    { apply (ao_opsize _ _ _ _ _ _ Hat). unfold nz in Em. lia. }
    unfold is_one_of in EB. cbn [existsb] in EB. rewrite Hx by lia.
    by replace (b2 =? 31) with false by lia; replace (b2 =? 30) with false by lia; replace (b2 =? 175) with false by lia. }
  destruct (Z.eqb_spec b2 0x1F) as [->|EN].
  - destruct (nz mand && negb (mand =? 0x66)); [discriminate|].
    apply bind_ok in Hd as ([hd k2] & m3 & (-> & b & [= -> ->] & Hc & Hb)%rd8_inv & Hd); [|done].
    apply bind_ok in Hd as ([k3 a] & m3 & Ha & [= <- <- <-]).
    assert (Hrm : exists o', rm_or_mem rip (n + 1 + 1) rex b (fun _ o => o) blank m = Ok (k3, o') m3).
    { revert Ha. unfold rm_or_mem. destruct (b >> 6 =? 3); [by intros [= <- <- <-]; eexists|].
      intros Ha. eexists. by rewrite (bind_run _ _ _ _ _ Ha). }
    destruct Hrm as [o' Hrm].
    destruct (operand_lies rip m Hm Hbytes n mand op d Hat _ _ _ _ _ _ _ Hc Hrm) as (-> & dst & w & Hmod & _).
    apply (nop_agrees rip m Hm Hfl Hrun _ _ k3); [done|done| |done]. rewrite Hx by done. cbn [Z.eqb Pos.eqb orb].
    unfold op_nop_rm. by rewrite (bind_run _ _ _ _ _ (modrm_advance_run rip m n mand op d Hat _ _ _ _ Hmod)).
  - apply sse_kind in Hd. unfold body_insn in Hk. by rewrite Hd in Hk.
Qed.

Lemma shift_kind p k1 rx op1 o0 k o m2 : dec_shift p k1 rx op1 o0 m = Ok (Some (k, o)) m2 -> i_kind o = K_SHIFT.
Proof.
  unfold dec_shift. intros ([hd k2] & m3 & _ & Hd)%bind_ok. destruct (_ <? 4); [discriminate|].
  apply bind_ok in Hd as ([k3 a] & m4 & _ & Hd). case_match; [by apply bind_ok in Hd as ([i k4] & m5 & _ & [= <- <- <-])|].
  by case_match; injection Hd as <- <- <-.
Qed.

(** The count of a shift: what the decoder notes of it, and what the interpreter
    reads. *)
Lemma shift_operand k2 o2 size k o m2 :
  is_one_of op [0xC0; 0xC1; 0xD0; 0xD1; 0xD2; 0xD3] = true -> i_by_cl o2 = false -> i_size o2 = size ->
  (if is_one_of op [0xC0; 0xC1] then '(b, n) ← Jit.rd8 rip k2; mret (Some (n, iw_imm b o2))
   else if is_one_of op [0xD2; 0xD3] then mret (Some (k2, iw_by_cl true o2)) else mret (Some (k2, iw_imm 1 o2)) : M (option (Z * insn))) m =
    Ok (Some (k, o)) m2 ->
  (exists i cl, o = (if cl : bool then iw_by_cl true o2 else iw_imm i o2)) /\
  exists c, (if is_one_of op [0xC0; 0xC1] then fetch8 (with_p (rip + k2) d)
    else if is_one_of op [0xD0; 0xD1] then mret (1, with_p (rip + k2) d)
    else rcx ← getr RCX; mret (rcx .& 0xff, with_p (rip + k2) d)) m0 = Ok (c, with_p (rip + k) d) m0 /\
    c .& count_mask size = shift_count (finished rip k o) (reg m).
Proof.
  intros Hop Hcl Hsz.
  assert (Hm255 : forall x, (x .& 0xff) .& count_mask size = x .& count_mask size).
  { intros x. rewrite <- Z.land_assoc. unfold count_mask. by destruct (size =? 8). }
  assert (Hfin : forall k o', i_by_cl (finished rip k o') = i_by_cl o' /\ i_imm (finished rip k o') = i_imm o' /\ i_size (finished rip k o') = i_size o').
  { intros k' o'. unfold finished. cbn [i_kind iw_next iw_len]. by destruct (i_kind o'). }
  assert (Hc : forall k o', shift_count (finished rip k o') (reg m) = (if i_by_cl o' then reg m 1 else i_imm o') .& count_mask (i_size o')).
  { intros k' o'. unfold shift_count, count_mask. by destruct (Hfin k' o') as (-> & -> & ->). }
  rewrite Hc. destruct (is_one_of op [0xC0; 0xC1]) eqn:E1.
  - intros ([b1 k1] & m3 & (-> & b & [= -> ->] & Hb & _)%rd8_inv & [= <- <- <-])%bind_ok; [|done].
    split; [by exists b, false|]. exists b. split; [by apply (fetch8_at m m0 eq_refl)|].
    change (i_by_cl (iw_imm b o2)) with (i_by_cl o2). rewrite Hcl. change (i_size (iw_imm b o2)) with (i_size o2). by rewrite Hsz.
  - destruct (is_one_of op [0xD2; 0xD3]) eqn:E2; intros [= <- <- <-].
    + assert (E3 : is_one_of op [0xD0; 0xD1] = false) by (unfold is_one_of in *; cbn [existsb] in *; lia). rewrite E3.
      split; [by exists 0, true|]. eexists. split; [reflexivity|].
      change (i_size (iw_by_cl true o2)) with (i_size o2). rewrite Hsz. apply Hm255.
    + assert (E3 : is_one_of op [0xD0; 0xD1] = true) by (unfold is_one_of in *; cbn [existsb] in *; lia). rewrite E3.
      split; [by exists 1, false|]. exists 1. split; [reflexivity|].
      change (i_by_cl (iw_imm 1 o2)) with (i_by_cl o2). rewrite Hcl. change (i_size (iw_imm 1 o2)) with (i_size o2). by rewrite Hsz.
Qed.

Lemma shift_agrees k o m2 :
  is_one_of op [0xC0; 0xC1; 0xD0; 0xD1; 0xD2; 0xD3] = true -> d_opsize d = (if nz (rex .& 8) then 8 else 4) ->
  dec_shift rip n rex op blank m = Ok (Some (k, o)) m2 -> o_mem (i_mo o) = false -> agreed (finished rip k o).
Proof.
  intros Hop Hsize. unfold dec_shift.
  intros ([hd k1] & m3 & (-> & b & [= -> ->] & Hc & Hb)%rd8_inv & Hd)%bind_ok; [|done]. intros Hmem.
  set (ext := (b >> 3) .& 7) in *. destruct (ext <? 4) eqn:E4; [discriminate|].
  apply bind_ok in Hd as ([k2 o2] & m3 & Hrm & Hd).
  destruct (operand_lies rip m Hm Hbytes n mand op d Hat _ _ _ _ _ _ _ Hc Hrm) as (-> & dst & w & Hmod & Eo2 & _ & Hl).
  set (size := if is_one_of op [0xC0; 0xD0; 0xD2] then 1 else d_opsize d).
  assert (Hs : size = 1 \/ size = 4 \/ size = 8) by (unfold size; rewrite Hsize; repeat case_match; tauto).
  assert (Hf2 : i_by_cl (iw_kind K_SHIFT o2) = false /\ i_size (iw_kind K_SHIFT o2) = size).
  { rewrite Eo2. unfold size. rewrite Hsize. by destruct w, (is_one_of op [0xC0; 0xD0; 0xD2]). }
  destruct (shift_operand _ _ size _ _ _ Hop (proj1 Hf2) (proj2 Hf2) Hd) as ((i & cl & Eo) & c & Hcnt & Hc').
  specialize (Hl k). destruct Hl as [Hr Ed|a Ha _ _ _ _].
  2: { exfalso. revert Hmem. rewrite Eo, Eo2. destruct cl; cbn; by rewrite (mp_mem _ Ha). }
  set (of_ := finished rip k o) in *.
  assert (Hf : i_kind of_ = K_SHIFT /\ i_next of_ = u64 (rip + k) /\ i_fneed of_ = 0 /\ i_reg of_ = rm_field rex b /\
    i_size of_ = size /\ i_ext of_ = ext /\ i_has_rex of_ = d_has_rex d /\ o_mem (i_mo of_) = false).
  { unfold of_, size. rewrite Eo, Eo2, Hsize. by destruct cl, (is_one_of op [0xC0; 0xD0; 0xD2]). }
  destruct Hf as (Ek & En & Ef & Er & Es & Ee & Erex & Emem).
  pose proof (low_field (b >> 3)) as Hext. fold ext in Hext.
  split; [unfold mem_insn; rewrite Ek; split; rewrite ?Er, ?Es, ?Ee; try done; lia|]. split; [done|]. intros _.
  set (next := u64 (rip + k)) in *. rewrite (ao_run _ _ _ _ _ _ Hat).
  assert (Hx : forall d', exec_op d' op = op_shift d' op).
  { intros d'. unfold is_one_of in Hop. cbn [existsb] in Hop.
    assert (Hc0 : op = 0xC0 \/ op = 0xC1 \/ op = 0xD0 \/ op = 0xD1 \/ op = 0xD2 \/ op = 0xD3) by lia. by repeat destruct Hc0 as [->|Hc0]; [..|subst op]. }
  rewrite Hx. unfold op_shift. rewrite (bind_run _ _ _ _ _ Hmod). cbv beta iota zeta.
  change (d_opsize (with_p (rip + n) d)) with (d_opsize d). fold size. rewrite (bind_run _ _ _ _ _ Hcnt). cbv beta iota zeta.
  rewrite (bind_run _ _ _ _ _ (advance_run rip m n mand op d Hat k)), Hc', reg_field_low. fold ext. rewrite E4.
  assert (Hfol : forall R F, (ref_shift of_ (reg m, c_flags (m_c m))) = (R, F) ->
    follows next (Ok tt (set_gpr R F (upd_m (with_rip next) m0))) (insn_sem all_flags of_ rip m)).
  { intros R F HRF. apply (regs_follow rip m Hrun of_ next (ref_shift of_)); [by apply uwrap_range|unfold mem_part; by rewrite Ek|by rewrite HRF|by rewrite HRF]. }
  rewrite En. unfold ref_shift in Hfol. cbn [fst snd] in Hfol. rewrite Er, Es, Ee, Erex in Hfol.
  destruct (nz (shift_count of_ (reg m))) eqn:Ez; cbn [negb].
  - rewrite Ed, (bind_run _ _ _ _ _ (rd_operand _ size _ (upd_m (with_rip next) m0) Hs)).
    change (reg (upd_m (with_rip next) m0)) with (reg m). unfold get_c, gets. unfold mbind at 1, M_bind at 1.
    change (c_flags (m_c (upd_m (with_rip next) m0))) with (c_flags (m_c m)).
    destruct (rsd_i_shift _ _ _ _ _) as [res fl]. specialize (Hfol _ _ eq_refl).
    erewrite bind_run by reflexivity.
    change (Machine (with_flags fl (m_c (upd_m (with_rip next) m0))) _ _ _ _) with (upd_m (with_flags fl) (upd_m (with_rip next) m0)).
    rewrite (wr_gpr (rm_field rex b) res res size _ _ (upd_m (with_rip next) m0)) by done. exact Hfol.
  - specialize (Hfol _ _ eq_refl). change (reg m) with (reg (upd_m (with_rip next) m0)) in Hfol. rewrite set_gpr_flags in Hfol by apply Hm.
    rewrite (m1_flags m Hfl rip next) in Hfol. exact Hfol.
Qed.

(** Every opcode. *)
Lemma decode_op_agrees k o m2 :
  urange 8 op -> (mand <> 0 -> op = 0x0F) -> decode_op rip n rex mand op blank m = Ok (Some (k, o)) m2 ->
  body_insn o -> agreed (finished rip k o).
Proof.
  intros Hop Hmand Hd Hk. destruct (Z.eq_dec op 0x0F) as [E|E].
  { apply (dec_0f_agrees k o m2 E); [|done]. by rewrite E in Hd. }
  assert (Hs : d_opsize d = if nz (rex .& 8) then 8 else 4).
  { apply (ao_opsize _ _ _ _ _ _ Hat). destruct (Z.eq_dec mand 0) as [|Hn]; [done|]. by destruct E; apply Hmand. }
  unfold decode_op in Hd.
  destruct (is_dec_alu op) eqn:E1; [by eapply alu_rm_agrees; [..|apply Hop|exact Hd]|].
  destruct (is_one_of op [0x80; 0x81; 0x83; 0xC6; 0xC7]) eqn:E2.
  { destruct (is_one_of op [0xC6; 0xC7]) eqn:E2'; [by eapply mov_rm_imm_agrees|].
    eapply grp1_agrees; try done. unfold is_one_of in *. cbn [existsb] in *. lia. }
  destruct (is_dec_acc op) eqn:E3; [by eapply acc_agrees|].
  destruct ((0xB0 <=? op) && (op <=? 0xBF)) eqn:E4; [by eapply mov_imm_agrees|].
  destruct (is_one_of op [0xC0; 0xC1; 0xD0; 0xD1; 0xD2; 0xD3]) eqn:E5.
  { eapply shift_agrees; try done. unfold body_insn in Hk. by rewrite (shift_kind _ _ _ _ _ _ _ _ Hd) in Hk. }
  destruct (is_one_of op [0x69; 0x6B]) eqn:E6; [by eapply imul_imm_agrees|].
  destruct (Z.eqb_spec op 0x8D) as [E7|_]; [by eapply lea_agrees|].
  destruct ((0x50 <=? op) && (op <=? 0x5F)) eqn:E8; [by eapply push_pop_agrees|].
  destruct (Z.eqb_spec op 0x90) as [E9|_].
  { destruct (nz rex); [discriminate|]. injection Hd as <- <- <-. apply (nop_agrees rip m Hm Hfl Hrun _ _ n); [done|done| |done].
    rewrite (ao_run _ _ _ _ _ _ Hat), E9. exact (advance_run rip m n mand op d Hat n). }
  destruct ((0x70 <=? op) && (op <=? 0x7F)); [by apply bind_ok in Hd as ([i k1] & m3 & _ & [= <- <- <-])|].
  rewrite (proj2 (Z.eqb_neq _ _) E) in Hd.
  destruct (op =? 0xEB); [by apply bind_ok in Hd as ([i k1] & m3 & _ & [= <- <- <-])|].
  destruct (op =? 0xE9); [by apply bind_ok in Hd as ([i k1] & m3 & _ & [= <- <- <-])|].
  destruct (op =? 0xE8); [by apply bind_ok in Hd as ([i k1] & m3 & _ & [= <- <- <-])|].
  destruct (op =? 0xC3); [by injection Hd as <- <- <-|].
  destruct (is_one_of op [0xFE; 0xFF]) eqn:E10; [|discriminate].
  by eapply incdec_agrees; try done; intros Ek; unfold body_insn in Hk; rewrite Ek in Hk.
Qed.
End accept.

Lemma decoded_agreed `{HostOS} `{HostFloat} rip m o m1 :
  regs_ok m -> urange 32 (c_flags (m_c m)) -> c_running (m_c m) = true -> mem_ok (mem_of m) ->
  decode rip rip m = Ok (Some o) m1 -> body_insn o -> agreed rip m o.
Proof.
  intros Hm Hfl Hrun Hbytes Hd Hk. destruct (decode_inv rip m Hbytes o m1 Hd) as (d & n & mand & op & k & o' & Hat & Hop & -> & Hb & Hmand).
  unfold body_insn in Hk. rewrite finished_kind, finished_mo in Hk. by eapply decode_op_agrees.
Qed.

(** C11.  Whatever bytes the compiler's [decode] accepts as an instruction on
    integers inside a block, shifts of memory apart, it has code for the record it reads, no flag is yet marked needed, and the interpreter run on the same bytes does what the
    record stands for, which is what the compiled code was proved to do: the
    same registers, flags, memory and world, the instruction pointer at the
    end of the instruction, and the same stop where an access faults.  A move
    to memory must be to memory that may be read if it may be written, as the
    interpreter reads it first; where C leaves the interpreter's arithmetic undefined nothing is
    said. *)
Theorem decoded_agrees `{HostOS} `{HostFloat} rip m o m1 :
  regs_ok m -> urange 32 (c_flags (m_c m)) -> c_running (m_c m) = true -> mem_ok (mem_of m) ->
  decode rip rip m = Ok (Some o) m1 -> body_insn o ->
  mem_insn o /\ i_fneed o = 0 /\
  ((i_kind o = K_MR -> i_op o = 0x88 -> access_ok (m_as m) (ref_ea o (reg m)) (i_size o) RSD_PROT_W = true ->
    access_ok (m_as m) (ref_ea o (reg m)) (i_size o) RSD_PROT_R = true) ->
   follows (i_next o) (exec_insn rip m) (insn_sem all_flags o rip m)).
Proof. apply decoded_agreed. Qed.

#[local] Existing Instance sample_host.

(** imul ecx, [rbx + 4], 7, with rbx at the instruction itself and 5 there. *)
Lemma decoded_agrees_witness :
  let m := set_reg RBX 0x10000 (sample_guest [0x6B; 0x4B; 0x04; 0x07; 5]) in
  exists o mI mC, decode 0x10000 0x10000 m = Ok (Some o) m /\ mem_insn o /\
    exec_insn (H0 := Build_HostFloat id id) 0x10000 m = Ok tt mI /\ insn_sem all_flags o 0x10000 m = Ok tt mC /\
    same_but_rips mC mI /\ c_rip (m_c mI) = 0x10004 /\ reg mC RCX = 35.
Proof.
  intros m. set (e := exec_insn (H0 := Build_HostFloat id id) 0x10000).
  assert (Hmem : mem_ok (mem_of m)).
  { apply mem_ok_write; [|by repeat constructor]. intros i x. rewrite lookup_zero_range. case_decide; [|done]. by intros [= <-]. }
  assert (Hm : regs_ok m) by (apply set_reg_ok; [apply regs_ok_wf, reset_cpu_wf|done]).
  set (o := finished 0x10000 4 (iw_imm 7 (iw_mo (MemOp true true false false 3 0 0 4)
    (iw_kind K_IMUL (iw_imm_src true (iw_reg 1 (blank_of 0 false))))))).
  assert (Hd : decode 0x10000 0x10000 m = Ok (Some o) m).
  { assert (Hv : value (decode 0x10000 0x10000) m = Some (Some o)) by (vm_compute; reflexivity).
    pose proof (run_value _ _ _ Hv) as Hd. by rewrite <- (reads_decode _ _ _ _ _ Hd) in Hd. }
  destruct (decoded_agrees (H0 := Build_HostFloat id id) 0x10000 m o m Hm ltac:(done) eq_refl Hmem Hd I) as (Ho & _ & Ha).
  specialize (Ha ltac:(done)). assert (Hx : value e m = Some tt) by (vm_compute; reflexivity).
  pose proof (run_value _ _ _ Hx) as Hrun. fold e in Ha. set (mI := after e m) in *.
  assert (Hr : c_running (m_c mI) && (c_rip (m_c mI) =? 0x10004) && (reg mI RCX =? 35) = true) by (vm_compute; reflexivity).
  apply andb_true_iff in Hr as [[Hr Hp%Z.eqb_eq]%andb_true_iff Hb%Z.eqb_eq].
  rewrite Hrun in Ha. unfold follows in Ha. rewrite Hr in Ha. destruct Ha as (mC & HC & _ & Hs & _).
  exists o, mI, mC. split; [exact Hd|]. split; [exact Ho|]. split; [exact Hrun|]. split; [exact HC|]. split; [exact Hs|].
  split; [exact Hp|]. rewrite <- Hb. exact (f_equal (fun x => reg x RCX) Hs).
Defined.
