(* ===== verification/JitEnds.v ===== *)
(** How compiled blocks end ([put_insn] for jumps, calls and returns in
    [src/jit.c]): the address of the next instruction is in x0, or an access
    faulted and the block is left before. *)
From S2P Require Import Prelude.
From S2P Require Import Memory.
From S2P Require Import AddressSpace.
From S2P Require Import Flags.
From S2P Require Import Machine.
From S2P Require Import Access.
From S2P Require Import Decode.
From S2P Require Import Registers.
From S2P Require Import Keeps.
From S2P Require Import A64.
From S2P Require Import Emit.
From S2P Require Import Jit.
From S2P Require Import JitEmit.
From S2P Require Import JitInsn.
From S2P Require Import JitRun.
From S2P Require Import JitFlags.
From S2P Require Import JitRegs.
From S2P Require Import JitLive.
From S2P Require Import JitBlock.
From S2P Require Import JitCode.
From S2P Require Import JitRel.
From S2P Require Import JitSem.
From S2P Require Import JitMem.
From S2P Require Import JitWorld.
From S2P Require Import JitAccess.
From S2P Require Import JitRoutines.
From S2P Require Import JitOps.
From S2P Require Import JitDoes.
From S2P Require Import JitRmw.
From S2P Require Import JitWhole.

Section ends.
Context `{HostOS}.

(** The end of a block, or the fall through to [pc]: where to go on. *)
Definition end_sem (t : option insn) (pc rip : Z) : M Z :=
  match t with
  | None => mret pc
  | Some o =>
      match i_kind o with
      | K_JCC => fl ← get_c c_flags; mret (if cond fl (i_cc o) then i_target o else i_next o)
      | K_CALL => upd (with_cur_rip rip);; push (i_next o);; mret (i_target o)
      | K_RET =>
          upd (with_cur_rip rip);; R ← gets reg; v ← ld (R 4) 8;
          if_running (modify (fun m => set_gpr (upd_reg 4 (u64 (reg m 4 + 8)) (reg m)) (c_flags (m_c m)) m));; mret v
      | K_CALLM =>
          R ← gets reg; upd (with_cur_rip rip);; push (i_next o);;
          if o_mem (i_mo o) then
            r ← get_c c_running; if r : bool then ld (ref_ea o R) 8 else mret 0
          else R ← gets reg; mret (R (i_reg o))
      | K_JMPM =>
          if o_mem (i_mo o) then mem_operand o rip 8 else R ← gets reg; mret (R (i_reg o))
      | _ => mret (i_target o)
      end
  end.

(** The code in front of the return. *)
Definition put_end `{Linked} (t : option insn) (pc rip : Z) : E unit :=
  match t with
  | None => put_imm A64_X0 pc
  | Some o =>
      match i_kind o with
      | K_JCC => put_next (Some o) pc
      | K_CALL => (put_set_rip rip;; put_grow_stack;; put_imm A64_X2 (i_next o));; put_store 8;; put_imm A64_X0 (i_target o)
      | K_RET =>
          (put_set_rip rip;; put (a64_ldr A64_X1 CPU (off_r 4)));; put_load 8;;
          put (a64_str A64_X0 CPU (off_tmp 0));; put_shrink_stack;; put (a64_ldr A64_X0 CPU (off_tmp 0))
      | K_CALLM =>
          if o_mem (i_mo o) then
            ((put_set_rip rip;; put_ea o);; put (a64_str A64_X1 CPU (off_tmp 0)));;
            (put_grow_stack;; put_imm A64_X2 (i_next o));; put_store 8;;
            put (a64_ldr A64_X1 CPU (off_tmp 0));; put_load 8
          else
            (put_set_rip rip;; put_grow_stack;; put_imm A64_X2 (i_next o));; put_store 8;;
            put (a64_ldr A64_X0 CPU (off_r (i_reg o)))
      | K_JMPM =>
          if o_mem (i_mo o) then (put_set_rip rip;; put_ea o);; put_load 8
          else put (a64_ldr A64_X0 CPU (off_r (i_reg o)))
      | _ => put_imm A64_X0 (i_target o)
      end
  end.

(** The ends whose code is proved. *)
Definition mem_end (t : option insn) : Prop :=
  match t with
  | None => True
  | Some o =>
      urange 64 (i_target o) /\ urange 64 (i_next o) /\
      match i_kind o with
      | K_JMP | K_CALL | K_RET => True
      | K_JCC => 0 <= i_cc o < 16
      | K_CALLM | K_JMPM => if o_mem (i_mo o) then ea_ok o else greg (i_reg o)
      | _ => False
      end
  end.

Lemma put_end_leave `{Linked} o rip pc : mem_end (Some o) -> same_code (put_insn o rip) (put_end (Some o) pc rip;; put_leave).
Proof.
  intros (Ht & Hn & Hk). unfold put_insn, put_end. destruct (i_kind o) eqn:E; try done.
  - assert (Hr : reg_end (Some o)) by (split; [done|]; split; [done|]; by rewrite E).
    pose proof (put_next_leave o rip pc Hr) as Hs. unfold put_insn in Hs. rewrite E in Hs. exact Hs.
  - intros b. unfold put_call_rel, mbind, E_bind. destruct (put_set_rip rip b) as [[] b1]. destruct (put_grow_stack b1) as [[] b2].
    destruct (put_imm _ _ b2) as [[] b3]. destruct (put_store 8 b3) as [[] b4]. by destruct (put_imm _ _ b4) as [[] b5].
  - intros b. unfold put_ret, mbind, E_bind. destruct (put_set_rip rip b) as [[] b1]. destruct (put _ b1) as [[] b2].
    destruct (put_load 8 b2) as [[] b3]. destruct (put _ b3) as [[] b4]. destruct (put_shrink_stack b4) as [[] b5]. by destruct (put _ b5) as [[] b6].
  - intros b. unfold put_callm. destruct (o_mem (i_mo o)); cbn [ewhen]; unfold mbind, E_bind; destruct (put_set_rip rip b) as [[] b1].
    + destruct (put_ea o b1) as [[] b2]. destruct (put _ b2) as [[] b3]. destruct (put_grow_stack b3) as [[] b4].
      destruct (put_imm _ _ b4) as [[] b5]. destruct (put_store 8 b5) as [[] b6]. destruct (put _ b6) as [[] b7]. by destruct (put_load 8 b7) as [[] b8].
    + unfold mret, E_ret. destruct (put_grow_stack b1) as [[] b4].
      destruct (put_imm _ _ b4) as [[] b5]. destruct (put_store 8 b5) as [[] b6]. by destruct (put _ b6) as [[] b7].
  - intros b. unfold put_jmpm, mbind, E_bind. destruct (o_mem (i_mo o)).
    + unfold mbind, E_bind. destruct (put_set_rip rip b) as [[] b1]. destruct (put_ea o b1) as [[] b2]. by destruct (put_load 8 b2) as [[] b3].
    + by destruct (put _ b) as [[] b1].
Qed.
End ends.

Section answers.
Context `{HostOS} `{LinkOk} (junk : Z -> Z) (chk : bool).
#[local] Abbreviation goes := (goes (call_c junk) chk).
#[local] Abbreviation ready := (ready chk).

(** Running [e] on a machine in memory does [c] to it and, unless an access
    faults, leaves what [c] returns in x0. *)
Definition answers (e : E unit) (c : M Z) : Prop :=
  forall base asp m st g n m1, ready m -> sim base asp m st g -> c m = Ok n m1 ->
  exists st' g', goes e (way_of m1) (st, g) (st', g') /\ lands base asp m m1 st st' g' /\
    (c_running (m_c m1) = true -> xr st' A64_X0 = n).

(** Straight code that leaves the machine alone. *)
Lemma answers_straight e c :
  (forall m n m1, c m = Ok n m1 -> m1 = m) ->
  (forall base asp m st g n, sim base asp m st g -> c m = Ok n m ->
    exists st', emit_runs e tt st st' /\ xr st' A64_X0 = n /\ cpu_at base (reg m) (c_flags (m_c m)) st' /\ keeps_cpu base st st') ->
  answers e c.
Proof.
  intros Hc He base asp m st g n m1 Hr Hs Hm. pose proof (Hc _ _ _ Hm) as E1. subst m1.
  destruct (He base asp m st g n Hs Hm) as (st' & R1 & V1 & C1 & K1).
  destruct (sim_cpu_at base asp m st g _ _ st' Hs C1 K1) as [S1 U1]. rewrite (sim_same _ _ _ _ _ Hs) in S1.
  exists st', g. unfold way_of. rewrite (rd_run _ _ Hr). split; [by apply goes_straight|]. split; [|done].
  split; [|exact U1]. exists m. split; [exact S1|]. split; [done|apply Hr].
Qed.

Lemma answers_next t pc rip :
  reg_end t -> urange 64 pc -> answers (put_end t pc rip) (end_sem t pc rip).
Proof.
  intros Ht Hpc. assert (Hn : forall m, end_sem t pc rip m = Ok (next_rip t pc (c_flags (m_c m))) m).
  { intros m. unfold end_sem, next_rip. destruct t as [o|]; [|done]. destruct Ht as (_ & _ & Hk). by destruct (i_kind o). }
  assert (He : put_end t pc rip = put_next t pc).
  { unfold put_end, put_next. destruct t as [o|]; [|done]. destruct Ht as (_ & _ & Hk). by destruct (i_kind o). }
  rewrite He. apply answers_straight.
  - intros m n m1. rewrite Hn. by intros [= _ ->].
  - intros base asp m st g n Hs. rewrite Hn. intros [= <-].
    destruct (run_next base _ _ t pc st Ht Hpc (si_cpu _ _ _ _ _ Hs)) as (st' & R1 & V1 & C1 & K1). by exists st'.
Qed.

(** A load whose value is the answer, and nothing after it. *)
Lemma answers_load base asp m m0 st s1 g e1 a n m1 :
  ready m -> m_as m0 = m_as m -> c_running (m_c m0) = true -> mem_of m0 = mem_of m ->
  emit_runs e1 tt st s1 -> sim base asp m0 s1 g -> xr s1 A64_X1 = a -> urange 64 a -> undisturbed base asp m st s1 ->
  ld a 8 m0 = Ok n m1 ->
  exists st' g', goes (e1;; put_load 8) (way_of m1) (st, g) (st', g') /\ lands base asp m m1 st st' g' /\
    (c_running (m_c m1) = true -> xr st' A64_X0 = n).
Proof.
  intros Hr Has Hrun Hmem R1 S1 X1 Ha U1 Hld.
  destruct (load_goes junk chk base asp m0 s1 g a 8 n m1 ltac:(by right; right; right) ltac:(rewrite Has; apply Hr) S1 Hrun X1 Ha Hld)
    as (s2 & g2 & G2 & V2 & L2 & _).
  exists s2, g2. split; [eapply goes_bind; [by apply goes_straight|exact G2]|]. split; [|done].
  apply (lands_trans _ _ _ m0 _ _ s1); [by rewrite Hmem|exact U1|exact L2].
Qed.

Lemma answers_jmpm o pc rip : mem_end (Some o) -> i_kind o = K_JMPM -> urange 64 rip -> answers (put_end (Some o) pc rip) (end_sem (Some o) pc rip).
Proof.
  intros (_ & _ & Ho) Hk Hrip. unfold put_end, end_sem. rewrite Hk in *. destruct (o_mem (i_mo o)).
  - intros base asp m st g n m1 Hr Hs Hm.
    destruct (run_front base asp m st g o rip Ho Hs Hrip) as (s1 & R1 & S1 & V1 & U1 & _).
    apply (answers_load base asp m (upd_m (with_cur_rip rip) m) st s1 g _ (ref_ea o (reg m))); try done; [apply Hr|apply ref_ea_range].
  - apply answers_straight; [by intros m n m1 [= _ ->]|]. intros base asp m st g n Hs [= <-].
    exists (set_x 0 (reg m (i_reg o)) st). pose proof (si_cpu _ _ _ _ _ Hs) as Hc.
    split; [apply run_put; by eapply run_ldr_reg|]. split; [by rewrite xr_set_x|]. split; [by apply cpu_at_set|by apply keeps_cpu_set].
Qed.

Lemma answers_ret o pc rip : i_kind o = K_RET -> urange 64 rip -> answers (put_end (Some o) pc rip) (end_sem (Some o) pc rip).
Proof.
  intros Hk Hrip base asp m st g n m1 Hr Hs. unfold put_end, end_sem. rewrite Hk. assert (Hg4 : greg 4) by (unfold greg; lia).
  destruct (run_set_rip base asp m st g rip Hs Hrip) as (s1 & R1 & S1 & U1 & _). set (m0 := upd_m (with_cur_rip rip) m) in *.
  intros ([] & m0' & [= <-] & (R & m0'' & [= <- <-] & (v & m2 & Hld & ([] & m3 & Hk1 & [= <- <-])%bind_ok)%bind_ok)%bind_ok)%bind_ok.
  change (Machine (with_cur_rip rip (m_c m)) (m_as m) (m_w m) (m_cb m) (m_cm m)) with m0 in Hld.
  set (s2 := set_x 1 (reg m 4) s1).
  assert (W2 : exec_word (a64_ldr A64_X1 CPU (off_r 4)) s1 = Some (s2, Next)) by (apply (run_ldr_reg base _ _ 1 4 s1 (si_cpu _ _ _ _ _ S1)); done).
  assert (S2 : sim base asp m0 s2 g) by (eapply sim_ext; [exact S1|apply mem_set_x|unfold s2; by rewrite xr_set_x]).
  assert (U2 : undisturbed base asp m st s2).
  { apply (undisturbed_trans _ _ _ m0 _ s1); [done|exact U1|]. apply undisturbed_ext; [apply mem_set_x|unfold s2, set_x; by case_match|].
    intros k Hn _. unfold s2. by rewrite xr_set_x, (proj2 (Z.eqb_neq k 1)) by lia. }
  assert (Hsz : opsize 8) by (by right; right; right). assert (Hsp : urange 64 (reg m 4)) by (by apply (si_cpu _ _ _ _ _ Hs)).
  destruct (load_goes junk chk base asp m0 s2 g (reg m 4) 8 v m2 Hsz (rd_as _ _ Hr) S2 (rd_run _ _ Hr) eq_refl Hsp Hld)
    as (s3 & g3 & G3 & V3 & [(m2' & S3 & B3 & I3) U3] & _).
  destruct (but_hits_fields _ _ B3) as (Ec & Ew & Eg). destruct (ld_stays _ _ _ _ _ Hsz Hld) as (_ & _ & Em & Est).
  pose proof (ld_range _ _ _ _ _ Hsz (si_bytes _ _ _ _ _ S2) Hld) as Hv.
  assert (U13 : undisturbed base asp m st s3) by (by apply (undisturbed_trans _ _ _ m0 _ s2)).
  assert (R2 : emit_runs (put_set_rip rip;; put (a64_ldr A64_X1 CPU (off_r 4))) tt st s2) by (eapply run_bind; [exact R1|by apply run_put]).
  unfold if_running, get_c, gets, mbind, M_bind in Hk1. unfold way_of. destruct (c_running (m_c m2)) eqn:Erun; injection Hk1 as <-.
  - destruct (run_save junk base asp m2' s3 g3 0 0 S3) as (W4 & S4 & U4); [done|lia|]. set (s4 := set_amem _ s3) in *.
    destruct (run_shrink_stack base _ _ s4 (si_cpu _ _ _ _ _ S4)) as (s5 & R5 & C5 & K5 & _).
    destruct (sim_cpu_at base asp m2' s4 g3 _ _ s5 S4 C5 K5) as [S5 U5].
    assert (W6 : exec_word (a64_ldr A64_X0 CPU (off_tmp 0)) s5 = Some (set_x 0 v s5, Next)).
    { apply (run_load_back junk base asp _ s5 g3 0 0 v S5); [done|lia|done|].
      transitivity (read_bytes (a_mem s4) (base + off_tmp 0) 8).
      - apply read_bytes_ext. intros i Hi. apply K5. unfold reg_file, off_tmp in *. lia.
      - unfold s4. cbn [a_mem set_amem]. rewrite read_write_bytes8. by rewrite V3. }
    exists (set_x 0 v s5), g3. cbn [m_c set_gpr upd_m c_running with_flags with_r]. rewrite Erun. split; [|split; [split|]].
    + eapply goes_bind; [apply goes_straight; exact R2|]. eapply goes_bind; [exact G3|]. apply goes_straight.
      eapply run_put_bind; [exact W4|]. eapply run_bind; [exact R5|]. by apply run_put.
    + assert (Er : reg m2' = reg m2) by (unfold reg; by rewrite Ec). rewrite Er, Ec in S5.
      eexists. split; [eapply sim_ext; [exact S5|apply mem_set_x|by rewrite xr_set_x]|]. split; [by rewrite Eg|exact I3].
    + assert (Hd : forall i, is_Some (mem_of m2' !! i) -> is_Some (mem_of m !! i)) by (intros i; unfold mem_of in *; by rewrite Ew, Em).
      apply (undisturbed_trans _ _ _ m2' _ s3); [done|exact U13|]. apply (undisturbed_trans _ _ _ m2' _ s4); [done|exact U4|].
      apply (undisturbed_trans _ _ _ m2' _ s5); [done|exact U5|]. apply undisturbed_ext; [apply mem_set_x|unfold set_x; by case_match|].
      intros k Hn _. by rewrite xr_set_x, (proj2 (Z.eqb_neq k 0)) by lia.
    + by rewrite xr_set_x.
  - exists s3, g3. rewrite Erun. split; [|split; [|done]].
    + eapply goes_bind; [apply goes_straight; exact R2|]. eapply goes_leave; [exact G3|]. unfold put_shrink_stack. auto 12 with emission.
    + split; [by exists m2'|exact U13].
Qed.

(** The return address, as the value pushed. *)
Lemma run_next_arg base v R fl s :
  urange 64 v -> cpu_at base R fl s ->
  exists s', emit_runs (put_imm A64_X2 v) tt s s' /\ xr s' 2 = v /\ keeps_regs [2] s s'.
Proof. intros Hv _. by apply run_imm. Qed.

Lemma push_is_store v m :
  length (c_r (m_c m)) = 16%nat ->
  push v m = Machine.st (u64 (reg m 4 - 8)) v 8 (set_reg 4 (u64 (reg m 4 - 8)) m).
Proof. intros Hl. by destruct (push_run v m) as [?|?]. Qed.

(** A store, then straight code that computes the answer from what it left. *)
Lemma answers_stored base asp m m0 st s1 g e1 e2 a v n m1 :
  ready m -> m_as m0 = m_as m -> c_running (m_c m0) = true -> c_wlog (m_c m0) = c_wlog (m_c m) -> mem_of m0 = mem_of m ->
  emit_runs e1 tt st s1 -> sim base asp m0 s1 g -> xr s1 A64_X1 = a -> urange 64 a -> xr s1 A64_X2 = v -> urange 64 v ->
  undisturbed base asp m st s1 -> Machine.st a v 8 m0 = Ok tt m1 ->
  (forall s2, cpu_at base (reg m1) (c_flags (m_c m1)) s2 ->
    exists s3, emit_runs e2 tt s2 s3 /\ xr s3 A64_X0 = n /\ keeps_regs [0] s2 s3) ->
  exists st' g', goes (e1;; put_store 8;; e2) (way_of m1) (st, g) (st', g') /\ lands base asp m m1 st st' g' /\
    (c_running (m_c m1) = true -> xr st' A64_X0 = n).
Proof.
  intros Hr Has Hrun Hw Hmem R1 S1 X1 Ha X2 Hv U1 Hst He2. assert (Hsz : opsize 8) by (by right; right; right).
  destruct (store_after junk chk e1 a v 8 base asp m m0 st s1 g m1) as (s2 & g2 & G2 & [(m' & S2 & B2 & I2) U2] & _); try done; [by rewrite X2|by rewrite X2|].
  destruct (but_hits_fields _ _ B2) as (Ec & Ew & _). assert (Er : reg m' = reg m1) by (unfold reg; by rewrite Ec).
  destruct (He2 s2) as (s3 & R3 & X3 & K3); [rewrite <- Er, <- Ec; apply S2|]. unfold way_of in *.
  destruct (st_leaves _ _ _ _ _ _ _ _ _ Hsz S1 Hst) as (_ & _ & _ & _ & _ & Hdom).
  assert (Hass : forall b, ((e1;; put_store 8);; e2) b = (e1;; put_store 8;; e2) b) by (intros b; apply same_code_assoc).
  destruct (c_running (m_c m1)) eqn:Erun.
  - exists s3, g2. split; [eapply goes_eq; [exact Hass|]; eapply goes_bind; [exact G2|by apply goes_straight]|]. split; [|done].
    split.
    + exists m'. split; [|by split]. eapply sim_ext; [exact S2|apply K3|apply (kr_x _ _ _ K3); cbn; lia].
    + apply (undisturbed_trans _ _ _ m' _ s2); [|exact U2|].
      * intros i. unfold mem_of in *. by rewrite Ew, Hdom, Hmem.
      * apply undisturbed_ext; [apply K3|apply K3|intros k Hk _; apply (kr_x _ _ _ K3); cbn; lia].
  - exists s2, g2. split; [|split; [split; [by exists m'|exact U2]|done]]. eapply goes_eq; [exact Hass|]. eapply goes_leave; [exact G2|].
    by eapply runs_some.
Qed.

Lemma answers_call o pc rip : mem_end (Some o) -> i_kind o = K_CALL -> urange 64 rip -> answers (put_end (Some o) pc rip) (end_sem (Some o) pc rip).
Proof.
  intros (Ht & Hn & _) Hk Hrip base asp m st g n m1 Hr Hs. unfold put_end, end_sem. rewrite Hk.
  destruct (run_push_front base asp m st g rip (put_imm A64_X2 (i_next o)) (i_next o) Hs Hrip) as (s1 & R1 & S1 & V1 & V2 & U1);
    [intros R s Hc _; by eapply run_next_arg|].
  intros ([] & m0' & [= <-] & ([] & m2 & Hp & [= <- <-])%bind_ok)%bind_ok.
  change (Machine (with_cur_rip rip (m_c m)) (m_as m) (m_w m) (m_cb m) (m_cm m)) with (upd_m (with_cur_rip rip) m) in Hp.
  rewrite push_is_store in Hp by apply Hs.
  eapply (answers_stored base asp m _ st s1 g _ _ _ (i_next o)); [exact Hr| | | | |exact R1|exact S1|exact V1| |exact V2|exact Hn|exact U1|exact Hp|]; try done.
  - apply Hr.
  - by apply uwrap_range.
  - intros s2 _. by apply run_imm.
Qed.

Lemma answers_callr o pc rip :
  mem_end (Some o) -> i_kind o = K_CALLM -> o_mem (i_mo o) = false -> urange 64 rip -> answers (put_end (Some o) pc rip) (end_sem (Some o) pc rip).
Proof.
  intros (Ht & Hn & Hg) Hk Hm Hrip base asp m st g n m1 Hr Hs. unfold put_end, end_sem. rewrite Hk, Hm in *.
  destruct (run_push_front base asp m st g rip (put_imm A64_X2 (i_next o)) (i_next o) Hs Hrip) as (s1 & R1 & S1 & V1 & V2 & U1);
    [intros R s Hc _; by eapply run_next_arg|].
  intros (R & w1 & [= <- <-] & ([] & w2 & [= <-] & ([] & m2 & Hp & (R3 & w3 & [= <- <-] & [= <- <-])%bind_ok)%bind_ok)%bind_ok)%bind_ok.
  change (Machine (with_cur_rip rip (m_c m)) (m_as m) (m_w m) (m_cb m) (m_cm m)) with (upd_m (with_cur_rip rip) m) in Hp.
  rewrite push_is_store in Hp by apply Hs.
  eapply (answers_stored base asp m _ st s1 g _ _ _ (i_next o)); [exact Hr| | | | |exact R1|exact S1|exact V1| |exact V2|exact Hn|exact U1|exact Hp|]; try done.
  - apply Hr.
  - by apply uwrap_range.
  - intros s2 Hc. eexists. split; [apply run_put; by eapply run_ldr_reg|]. rewrite xr_set_x. split; [done|].
    apply keeps_regs_set. by left.
Qed.

(** Through memory: the address is kept while the return address is pushed. *)
Lemma answers_callm o pc rip :
  mem_end (Some o) -> i_kind o = K_CALLM -> o_mem (i_mo o) = true -> urange 64 rip -> answers (put_end (Some o) pc rip) (end_sem (Some o) pc rip).
Proof.
  intros (Ht & Hn & He) Hk Hm Hrip base asp m st g n m1 Hr Hs. unfold put_end, end_sem. rewrite Hk, Hm in *.
  assert (Hsz : opsize 8) by (by right; right; right). set (a := ref_ea o (reg m)). set (m0 := upd_m (with_cur_rip rip) m).
  destruct (run_rmw_front junk base asp m st g o rip He Hs Hrip) as (s1 & R1 & S1 & X1 & T1 & U1). fold m0 a in S1, X1, T1.
  destruct (run_push_args base asp m0 s1 g (put_imm A64_X2 (i_next o)) (i_next o) S1) as (s2 & R2 & S2 & V1 & V2 & U2 & T2);
    [intros R s Hc _; by eapply run_next_arg|].
  intros (R & w1 & [= <- <-] & ([] & w2 & [= <-] & ([] & m2 & Hp & Hk2)%bind_ok)%bind_ok)%bind_ok.
  change (Machine (with_cur_rip rip (m_c m)) (m_as m) (m_w m) (m_cb m) (m_cm m)) with m0 in Hp.
  rewrite push_is_store in Hp by apply Hs. fold a in Hk2.
  destruct (st_leaves _ _ _ _ _ _ _ _ _ Hsz S2 Hp) as (Has2 & _ & _ & _ & _ & Hdom).
  destruct (store_goes junk chk base asp (set_reg 4 (u64 (reg m0 4 - 8)) m0) s2 g (u64 (reg m0 4 - 8)) (i_next o) 8 m2 Hsz (rd_as _ _ Hr) S2 (rd_run _ _ Hr) (rd_log _ _ Hr) V1
    (uwrap_range 64 (reg m0 4 - 8) ltac:(lia)) V2 Hn Hp) as (s3 & g3 & G3 & [(m2' & S3 & B3 & I3) U3] & T3).
  destruct (but_hits_fields _ _ B3) as (Ec & Ew & _).
  assert (Ha : urange 64 a) by apply ref_ea_range.
  assert (W4 : exec_word (a64_ldr A64_X1 CPU (off_tmp 0)) s3 = Some (set_x 1 a s3, Next)).
  { apply (run_load_back junk base asp _ s3 g3 1 0 a S3); [done|lia|done|]. by rewrite T3, T2 by lia. }
  assert (S4 : sim base asp m2' (set_x 1 a s3) g3) by (eapply sim_ext; [exact S3|apply mem_set_x|by rewrite xr_set_x]).
  assert (U13 : undisturbed base asp m st s3).
  { apply (undisturbed_trans _ _ _ (set_reg 4 (u64 (reg m0 4 - 8)) m0) _ s2); [done| |exact U3].
    by apply (undisturbed_trans _ _ _ m0 _ s1). }
  assert (U14 : undisturbed base asp m st (set_x 1 a s3)).
  { apply (undisturbed_trans _ _ _ m _ s3); [done|exact U13|]. apply undisturbed_ext; [apply mem_set_x|unfold set_x; by case_match|].
    intros k Hk1 _. by rewrite xr_set_x, (proj2 (Z.eqb_neq k 1)) by lia. }
  unfold get_c, gets, mbind, M_bind in Hk2. destruct (c_running (m_c m2)) eqn:Erun.
  - pose proof (respects_ld same_but_hits a 8 m2' m2 B3) as Hrel. rewrite Hk2 in Hrel.
    destruct (ld a 8 m2') as [n' m1'|] eqn:Hld; [|done]. destruct Hrel as [-> Hb].
    destruct (load_goes junk chk base asp m2' (set_x 1 a s3) g3 a 8 n m1' Hsz I3 S4 ltac:(by rewrite Ec) ltac:(by rewrite xr_set_x) Ha Hld)
      as (s5 & g5 & G5 & X5 & L5 & _).
    exists s5, g5. rewrite <- (proj1 (but_hits_fields _ _ Hb)). split; [|split; [|done]].
    + eapply goes_bind; [apply goes_straight; exact R1|]. eapply goes_bind; [apply goes_straight; exact R2|].
      eapply goes_bind; [exact G3|]. eapply goes_bind; [apply goes_straight, run_put; exact W4|].
      unfold way_of. by rewrite <- (proj1 (but_hits_fields _ _ Hb)).
    + eapply lands_hits; [exact Hb|]. apply (lands_trans _ _ _ m2' _ _ (set_x 1 a s3)); [|exact U14|exact L5].
      intros i. unfold mem_of in *. by rewrite Ew, Hdom.
  - injection Hk2 as <- <-. exists s3, g3. unfold way_of. rewrite Erun. split; [|split; [split; [by exists m2'|exact U13]|done]].
    eapply goes_bind; [apply goes_straight; exact R1|]. eapply goes_bind; [apply goes_straight; exact R2|].
    eapply goes_leave; [exact G3|]. auto with emission.
Qed.

Lemma answers_end t pc rip :
  mem_end t -> urange 64 pc -> urange 64 rip -> answers (put_end t pc rip) (end_sem t pc rip).
Proof.
  intros Ht Hpc Hrip. destruct t as [o|]; [|by apply answers_next]. pose proof Ht as (Htg & Hn & Hk).
  destruct (i_kind o) eqn:E; try done.
  - apply answers_next; [|done]. split; [done|]. split; [done|]. by rewrite E.
  - apply answers_next; [|done]. split; [done|]. split; [done|]. by rewrite E.
  - by apply answers_call.
  - by apply answers_ret.
  - destruct (o_mem (i_mo o)) eqn:Em; [by apply answers_callm|by apply answers_callr].
  - by apply answers_jmpm.
Qed.

(** The code of an end is there whether or not it is reached. *)
Lemma emits_end base R fl st t pc rip : mem_end t -> cpu_at base R fl st -> emits_some chk (put_end t pc rip).
Proof.
  intros Ht Hc. destruct t as [o|]; [|apply emits_some_imm]. destruct Ht as (_ & _ & Hk). unfold put_end.
  assert (Hea : emits_some chk (put_ea o)) by apply emits_some_ea. assert (Hsr : emits_some chk (put_set_rip rip)) by apply emits_some_set_rip.
  destruct (i_kind o) eqn:E; try done; unfold put_grow_stack, put_shrink_stack; auto 12 with emission.
  - destruct (run_cond_even base fl (i_cc o) st (ca_at _ _ _ _ Hc) Hk) as (s1 & R1 & _). pose proof (runs_some chk _ _ _ R1) as E1.
    unfold put_next. rewrite E. auto 12 with emission.
  - destruct (o_mem (i_mo o)); auto 12 with emission.
  - destruct (o_mem (i_mo o)); auto 12 with emission.
Qed.
End answers.
