(* ===== verification/JitReturn.v ===== *)
(** From entry to return ([rsd_jit_lookup] in [src/jit.c]): the words of a
    compiled block as they lie in memory, its fault exit included, run from the
    first one to the return. *)
From S2P Require Import Prelude.
From S2P Require Import Memory.
From S2P Require Import AddressSpace.
From S2P Require Import Flags.
From S2P Require Import Machine.
From S2P Require Import Access.
From S2P Require Import Decode.
From S2P Require Import Registers.
From S2P Require Import Keeps.
From S2P Require Import A64.
From S2P Require Import Emit.
From S2P Require Import Jit.
From S2P Require Import JitEmit.
From S2P Require Import JitInsn.
From S2P Require Import JitCache.
From S2P Require Import JitRun.
From S2P Require Import JitFlags.
From S2P Require Import JitRegs.
From S2P Require Import JitLive.
From S2P Require Import JitBlock.
From S2P Require Import JitCompile.
From S2P Require Import JitArena.
From S2P Require Import JitCode.
From S2P Require Import JitRel.
From S2P Require Import JitSem.
From S2P Require Import JitMem.
From S2P Require Import JitWorld.
From S2P Require Import JitAccess.
From S2P Require Import JitRoutines.
From S2P Require Import JitOps.
From S2P Require Import JitDoes.
From S2P Require Import JitRmw.
From S2P Require Import JitWhole.
From S2P Require Import JitEnds.

(* ------------------------------------------------------------------ *)
(** ** Where the words lie *)

(** The exit that faults take. *)
Definition exit_words : list Z := [a64_ldr A64_X0 CPU OFF_CURRIP; a64_pop A64_X30; a64_ret].

Lemma patch_lookup (exit_at : Z) (fx ws : list Z) i w :
  Forall (fun k => 0 <= k) fx -> ws !! i = Some w ->
  foldl (fun (ws : list Z) at_ => <[Z.to_nat at_ := a64_cbz_w A64_X9 (exit_at - at_)]> ws) ws fx !! i =
  Some (if bool_decide (Z.of_nat i ∈ fx) then a64_cbz_w A64_X9 (exit_at - Z.of_nat i) else w).
Proof.
  revert ws w. induction fx as [|k fx IH]; intros ws w Hfx Hw; cbn [foldl].
  { by rewrite bool_decide_false by by apply not_elem_of_nil. }
  apply Forall_cons in Hfx as [Hk Hfx]. destruct (decide (Z.of_nat i = k)) as [E|E].
  - subst k. rewrite Nat2Z.id.
    rewrite (IH _ (a64_cbz_w A64_X9 (exit_at - Z.of_nat i))) by (done || by apply list_lookup_insert_eq, lookup_lt_is_Some; eexists).
    rewrite (bool_decide_true (_ ∈ _ :: _)) by (by left). by case_bool_decide.
  - rewrite (IH _ w) by (done || (rewrite list_lookup_insert_ne by lia; done)).
    rewrite (bool_decide_ext (Z.of_nat i ∈ k :: fx) (Z.of_nat i ∈ fx)); [done|]. rewrite elem_of_cons. naive_solver.
Qed.

(** A block's words with its fault exit behind them, patched. *)
Record laid (code ws fx : list Z) : Prop := {
  ly_words : placed code ws 0 fx (len ws);
  ly_exit : placed code exit_words (len ws) [] (len ws)
}.

Lemma laid_patched ws fx b :
  b_out b = ws ++ exit_words -> b_fix b = fx -> Forall (fun i => 0 <= i < len ws) fx -> len (b_out b) <= MAX_BLOCK ->
  laid (patch_fixes (len ws) b) ws fx.
Proof.
  intros Ho Hf Hfx Hl. assert (Hpos : Forall (fun k => 0 <= k) fx) by (eapply Forall_impl; [exact Hfx|]; cbn; lia).
  assert (Hlen : len (patch_fixes (len ws) b) = len (b_out b)) by (unfold len; by rewrite length_patch_fixes).
  assert (He : len (b_out b) = len ws + 3) by (rewrite Ho, len_app; done).
  assert (Hp : forall i w, (ws ++ exit_words) !! i = Some w -> patch_fixes (len ws) b !! i =
    Some (if bool_decide (Z.of_nat i ∈ fx) then a64_cbz_w A64_X9 (len ws - Z.of_nat i) else w)).
  { intros i w Hi. unfold patch_fixes. rewrite Hf. apply patch_lookup; [done|]. by rewrite Ho. }
  assert (Hn : 0 <= len ws) by (unfold len; lia).
  split; split; rewrite ?Hlen; try (unfold MAX_BLOCK in *; lia).
  - intros i w Hi. cbn [Nat.add]. rewrite Z.add_0_l. apply Hp. by apply lookup_app_l_Some.
  - intros i w Hi. rewrite (bool_decide_false (_ ∈ [])) by by apply not_elem_of_nil. rewrite (Hp _ w).
    + rewrite bool_decide_false; [done|]. intros Hin. rewrite Forall_forall in Hfx. specialize (Hfx _ Hin). unfold len in *. lia.
    + rewrite lookup_app_r by (unfold len; lia). rewrite <- Hi. f_equal. unfold len. lia.
Qed.

Lemma put_fits w b b' :
  put w b = (tt, b') -> b_full b' = false ->
  b_full b = false /\ b_n b < b_max b /\ b' = Buf (b_out b ++ [w]) (b_max b) false (b_check b) (b_fix b).
Proof.
  unfold put. destruct (Z.leb_spec (b_max b) (b_n b)); intros [= <-]; [done|]. cbn. intros ->. done.
Qed.

(** The end of a block: what is left of its code, and the fault exit. *)
Lemma close_block_words ended pc b exit_at b' ws fx :
  emits (b_check b) (ewhen (negb ended) (put_imm A64_X0 pc;; put_leave)) ws fx ->
  close_block ended pc b = (exit_at, b') -> b_full b' = false ->
  b_out b' = (b_out b ++ ws) ++ exit_words /\ b_fix b' = b_fix b ++ (Z.add (b_n b) <$> fx) /\
  exit_at = len (b_out b ++ ws) /\ len (b_out b') <= b_max b.
Proof.
  intros [_ He _] Hc Hf. specialize (He b eq_refl). revert Hc. unfold close_block, put_leave, mbind, E_bind.
  destruct (ewhen _ _ b) as [[] b1] eqn:E1. unfold here. cbn [snd] in He. intros Hc.
  destruct (put (a64_ldr _ _ _) b1) as [[] b2] eqn:E2. destruct (put (a64_pop A64_X30) b2) as [[] b3] eqn:E3.
  destruct (put a64_ret b3) as [[] b4] eqn:E4. unfold mret, E_ret in Hc. injection Hc as <- <-.
  destruct (put_fits _ _ _ E4 Hf) as (H4 & L4 & ->). destruct (put_fits _ _ _ E3 H4) as (H3 & _ & ->).
  destruct (put_fits _ _ _ E2 H3) as (H2 & _ & ->). destruct (He H2) as [_ ->].
  unfold b_n, len in *. cbn [b_out b_max b_fix] in *. split; [by rewrite <- !app_assoc|]. split; [done|]. split; [done|].
  rewrite !length_app in *. cbn [length] in *. lia.
Qed.

(** Places counted from the start of a buffer. *)
Lemma shift_none (fx : list Z) : Z.add 0 <$> fx = fx.
Proof. transitivity (id <$> fx); [|apply list_fmap_id]. by apply list_fmap_ext. Qed.

(** Two stretches, in front of [put_leave]. *)
Lemma block_laid `{Linked} chk u t rip pc ended wsA fxA wsE fxE b b1 exit_at b2 mx :
  (match t with Some _ => ended = true | None => ended = false end) -> mem_end t ->
  emits chk (put_entry u rip) wsA fxA -> emits chk (put_end t pc (block_end rip u)) wsE fxE ->
  b = (put_entry (u ++ option_list t) rip (Buf [] mx false chk [])).2 -> b_full b = false ->
  b1 = Buf (b_out b) MAX_BLOCK (b_full b) (b_check b) (b_fix b) ->
  close_block ended pc b1 = (exit_at, b2) -> b_full b2 = false ->
  exit_at = len ((wsA ++ wsE) ++ [a64_pop A64_X30; a64_ret]) /\
  laid (patch_fixes exit_at b2) ((wsA ++ wsE) ++ [a64_pop A64_X30; a64_ret]) (fxA ++ (Z.add (len wsA) <$> fxE)).
Proof.
  intros Ht Hr HA HE Hb Hf -> Hc Hf2. set (lv := [a64_pop A64_X30; a64_ret]).
  assert (HL : emits chk put_leave lv []).
  { apply emits_straight. apply (straight_bind _ (fun _ => put a64_ret) tt [_] tt [_]); apply straight_put. }
  pose proof (emits_bind _ _ _ _ _ _ _ HE HL) as HB. pose proof (emits_bind _ _ _ _ _ _ _ HA HE) as HAE.
  pose proof (emits_bind _ _ _ _ _ _ _ HAE HL) as HW. cbn [fmap list_fmap] in HB, HW. rewrite app_nil_r in HB, HW.
  pose proof (em_fix _ _ _ _ HW) as Hfx.
  enough (exit_at = len ((wsA ++ wsE) ++ lv) /\ b_out b2 = ((wsA ++ wsE) ++ lv) ++ exit_words /\
    b_fix b2 = fxA ++ (Z.add (len wsA) <$> fxE) /\ len (b_out b2) <= MAX_BLOCK) as (-> & H1 & H2 & H3).
  { split; [done|]. by apply laid_patched. }
  destruct t as [o|]; subst ended.
  - change (option_list (Some o)) with [o] in Hb.
    assert (HW' : emits chk (put_entry (u ++ [o]) rip) ((wsA ++ wsE) ++ lv) (fxA ++ (Z.add (len wsA) <$> fxE))).
    { eapply emits_eq; [|exact HW]. intros b'. rewrite same_code_assoc. unfold put_entry. rewrite !same_code_assoc.
      apply same_code_bind. intros []. intros b3. rewrite put_block_snoc. apply same_code_bind. intros []. intros b4.
      symmetry. by apply put_end_leave. }
    destruct (em_run _ _ _ _ HW' (Buf [] mx false chk []) eq_refl ltac:(by rewrite <- Hb)) as [_ E]. rewrite <- Hb in E. clear Hb. subst b. cbn [b_out b_full b_check b_fix] in Hc.
    destruct (close_block_words true pc _ exit_at b2 [] [] (emits_straight _ _ _ (straight_ret tt)) Hc Hf2) as (O & F & X & L).
    rewrite O, F, X in *. cbn [b_out b_fix b_max fmap list_fmap b_full b_n] in *. rewrite !app_nil_r in *. split_and!; try done.
    cbn [app]. exact (shift_none _).
  - change (option_list (@None insn)) with (@nil insn) in Hb. rewrite app_nil_r in Hb.
    destruct (em_run _ _ _ _ HA (Buf [] mx false chk []) eq_refl ltac:(by rewrite <- Hb)) as [_ E]. rewrite <- Hb in E. clear Hb. subst b. cbn [b_out b_full b_check b_fix] in Hc.
    destruct ((fun He => close_block_words false pc _ exit_at b2 (wsE ++ lv) fxE He Hc Hf2) HB) as (O & F & X & L).
    rewrite O, F, X in *. cbn [b_out b_fix b_max fmap list_fmap b_full b_n app] in *. rewrite !app_assoc in *. split_and!; try done.
    f_equal. exact (shift_none _).
Qed.

(* ------------------------------------------------------------------ *)
(** ** Entry and return *)

(** What an interpreter's machine in memory depends on. *)
Lemma sim_agree `{HostOS} base asp m st st' g :
  sim base asp m st g -> xr st' A64_X19 = xr st A64_X19 ->
  (forall i, own base asp i \/ is_Some (mem_of m !! i) -> a_mem st' !! i = a_mem st !! i) -> sim base asp m st' g.
Proof.
  intros [[[Hb Hbr Hf Hfl] Hread Hrange] Hlen Hrip Hripr Hrun Has Hasr Hap Hrd Hwr Hmem Hby Hdom Hown Hrest Htmp] Hx He.
  assert (Hr : forall p n, base <= p /\ p + Z.of_nat n <= base + 552 -> read_bytes (a_mem st') p n = read_bytes (a_mem st) p n).
  { intros p n Hp. apply read_bytes_ext. intros i Hi. apply He. left. left. lia. }
  assert (Hoff : forall r, greg r -> 0 <= off_r r <= 120) by (unfold greg, off_r; lia).
  unfold OFF_RUNNING, OFF_FLAGS, OFF_AS, OFF_CURRIP, off_tmp in *.
  split; try done; unfold OFF_RUNNING, OFF_FLAGS, OFF_AS, OFF_CURRIP, off_tmp; try (by rewrite Hr by lia).
  - split; [split; [congruence|done| |done]|..]; unfold OFF_FLAGS; try done; [by rewrite Hr by lia|].
    intros r Hg. specialize (Hoff r Hg). rewrite Hr by lia. by apply Hread.
  - apply (noted_ext (a_mem st)); [intros i Hi; apply He; left; right; unfold OFF_AS_RD in Hi; lia|done].
  - apply (noted_ext (a_mem st)); [intros i Hi; apply He; left; right; unfold OFF_AS_WR in Hi; lia|done].
  - apply map_subseteq_spec. intros i x Hi. rewrite He by (right; by eexists). by eapply lookup_weaken.
  - intros i Hi. rewrite Hr by lia. by apply Htmp.
Qed.

Section returns.
Context `{HostOS} `{LinkOk} (junk : Z -> Z).

(** Called at its first word, the code comes back to [ra]. *)
Definition returns (code : list Z) (s : astate * machine) (ra : Z) (s' : astate * machine) : Prop :=
  exists pc st w, reaches (call_c junk) code (0, s) (pc, (st, s'.2)) /\ 0 <= pc /\
    code !! Z.to_nat pc = Some w /\ exec_word w st = Some (s'.1, Ret ra).

(** The stack slot that keeps x30, beside the cpu and the guest. *)
Record stack_slot (base asp : Z) (m : machine) (st : astate) : Prop := {
  sl_sp : 16 <= a_sp st < 2 ^ 64;
  sl_map : is_Some (read_bytes (a_mem st) (a_sp st - 16) 8);
  sl_apart : forall i, a_sp st - 16 <= i < a_sp st - 8 -> ~ own base asp i /\ mem_of m !! i = None;
  sl_link : urange 64 (xr st 30)
}.

(** What a called block keeps. *)
Record called (base asp : Z) (m : machine) (st st' : astate) : Prop := {
  cd_sp : a_sp st' = a_sp st;
  cd_x : forall n, 19 <= n -> xr st' n = xr st n;
  cd_mem : forall i, ~ own base asp i -> mem_of m !! i = None -> ~ a_sp st - 16 <= i < a_sp st - 8 ->
    a_mem st' !! i = a_mem st !! i
}.

(** Behind the entry. *)
Definition entered (st : astate) : astate :=
  set_sp (a_sp st - 16) (set_amem (write_bytes (a_mem st) (a_sp st - 16) (le_bytes 8 (xr st 30))) st).

Lemma enter base asp m st g :
  sim base asp m st g -> stack_slot base asp m st ->
  exec_word (a64_push A64_X30) st = Some (entered st, Next) /\ sim base asp m (entered st) g.
Proof.
  intros Hs [Hsp Hmap Hap Hlk].
  assert (Hu : u64 (a_sp st - 16) = a_sp st - 16) by (apply uwrap_small; unfold urange; lia). split.
  - rewrite exec_push; rewrite ?Hu; done.
  - apply (sim_agree base asp m st); [done|done|]. intros i Hi. unfold entered. cbn [a_mem set_sp set_amem].
    apply write_bytes_outside. rewrite length_le_bytes. intros Hin. destruct (Hap i) as [Ho Hm]; [lia|].
    destruct Hi as [?|[x Hx]]; [done|congruence].
Qed.

(** Behind [put_leave]. *)
Definition leaving (st0 st : astate) : astate := set_sp (a_sp st0) (set_x 30 (xr st0 30) st).

Lemma leave base asp m st st1 :
  stack_slot base asp m st -> undisturbed base asp m (entered st) st1 ->
  exec_word (a64_pop A64_X30) st1 = Some (leaving st st1, Next) /\ called base asp m st (leaving st st1) /\
  a_mem (leaving st st1) = a_mem st1 /\ forall n, n <> 30 -> xr (leaving st st1) n = xr st1 n.
Proof.
  intros [Hsp Hmap Hap Hlk] [Us Ux Um]. cbn [entered a_sp set_sp] in Us.
  assert (Hx : forall n, n <> 30 -> xr (leaving st st1) n = xr st1 n).
  { intros n Hn. change (xr (leaving st st1) n) with (xr (set_x 30 (xr st 30) st1) n). by rewrite xr_set_x, (proj2 (Z.eqb_neq n 30)). }
  assert (Hm : a_mem (leaving st st1) = a_mem st1) by apply mem_set_x. split; [|split; [|done]].
  - assert (Hr : read_bytes (a_mem st1) (a_sp st1) 8 = Some (le_bytes 8 (xr st 30))).
    { rewrite Us. rewrite (read_bytes_ext _ (a_mem (entered st))).
      - unfold entered. cbn [a_mem set_sp set_amem]. apply read_write_bytes8.
      - intros i Hi. apply Um; apply Hap; lia. }
    erewrite exec_pop by (done || exact Hr). rewrite le_val_bytes, Us, Z.sub_add. change (8 * Z.of_nat 8) with 64.
    rewrite (uwrap_small 64 (xr st 30)) by done. rewrite uwrap_small; [done|]. unfold urange. lia.
  - split; [done| |].
    + intros n Hn. destruct (decide (n = 30)) as [->|Hn30]; [done|]. rewrite Hx, Ux by done. done.
    + intros i Ho Hi Hout. rewrite Hm, Um by done. unfold entered. cbn [a_mem set_sp set_amem].
      apply write_bytes_outside. rewrite length_le_bytes. lia.
Qed.

(** Two stretches, the second one reached or not. *)
Lemma goes_two chk c d wy s s2 :
  (exists s1, goes (call_c junk) chk c Through s s1 /\ goes (call_c junk) chk d wy s1 s2) \/
  (wy = Leaves /\ goes (call_c junk) chk c Leaves s s2 /\ emits_some chk d) ->
  exists wsA fxA wsE fxE, emits chk c wsA fxA /\ emits chk d wsE fxE /\
    forall code n out, placed code (wsA ++ wsE) n (fxA ++ (Z.add (len wsA) <$> fxE)) out ->
      reaches (call_c junk) code (n, s) (arrives wy n (wsA ++ wsE) out, s2).
Proof.
  intros [(s1 & (wsA & fxA & HA & RA) & (wsE & fxE & HE & RE))|(-> & (wsA & fxA & HA & RA) & (wsE & fxE & HE))];
    exists wsA, fxA, wsE, fxE; (split; [done|]); (split; [done|]); intros code n out Hp;
    destruct (placed_app _ _ _ _ _ _ _ (em_fix _ _ _ _ HA) (em_fix _ _ _ _ HE) Hp) as [P1 P2]; [|by apply RA].
  eapply reaches_trans; [by apply RA|]. cbn [arrives]. specialize (RE _ _ _ P2).
  destruct wy; [|exact RE]. cbn [arrives] in *. by rewrite len_app, Z.add_assoc.
Qed.

Lemma respects_end_sem t pc rip : respects same_but_hits (end_sem t pc rip).
Proof.
  assert (Hr : forall v : Z, respects same_but_hits
    (if_running (modify (fun m => set_gpr (upd_reg 4 (u64 (reg m 4 + 8)) (reg m)) (c_flags (m_c m)) m));; mret v : M Z)).
  { intros v. apply respects_bind; [|intros _; apply respects_ret]. apply respects_if_running; [apply _|].
    intros m m' Hm. split; [done|]. by apply (respects_then_regs all_flags zero_insn (fun s => (upd_reg 4 (u64 (s.1 4 + 8)) s.1, s.2))). }
  unfold end_sem. destruct t as [o|]; [|apply respects_ret]. assert (Hf : respects same_but_hits (get_c c_flags)) by (apply respects_gets; intros m m' Hm; by injection Hm as ->).
  pose proof (respects_set_cur_rip same_but_hits) as H1'. pose proof (respects_push same_but_hits) as H2'.
  pose proof (respects_ld same_but_hits) as H3'. pose proof (respects_reg same_but_hits) as H4'. pose proof (respects_running same_but_hits) as H5'.
  destruct (i_kind o); try apply respects_ret; unfold mem_operand; respects_run; repeat case_match; respects_run.
Qed.

Lemma block_sem_quiet keep u rip m m1 :
  block_sem keep u rip m = Ok tt m1 ->
  (c_wlog (m_c m) = None -> c_wlog (m_c m1) = None) /\ forall i, is_Some (mem_of m1 !! i) -> is_Some (mem_of m !! i).
Proof.
  revert rip m. induction u as [|o u IH]; intros rip m; cbn [block_sem]; [by intros [= <-]|].
  intros ([] & m2 & [L2 D2]%insn_sem_quiet & Hk)%bind_ok. revert Hk. unfold if_running, get_c, gets, mbind, M_bind.
  destruct (c_running (m_c m2)); [intros [L1 D1]%IH|intros [= <-]]; auto.
Qed.

(** The block's instructions and its end, one after the other, and the address
    to go on at: that of the instruction that faulted, if one did. *)
Definition block_run (keep : insn -> Z -> Z -> Z) (u : list insn) (t : option insn) (rip pc : Z) : M Z :=
  block_sem keep u rip;;
  go ← get_c c_running;
  if go : bool then
    n ← end_sem t pc (block_end rip u);
    go ← get_c c_running;
    if go : bool then mret n else get_c c_cur_rip
  else get_c c_cur_rip.

Lemma block_arrives chk base asp u t rip pc m st g n m1 :
  needed u -> in_reach u rip -> mem_end t -> urange 64 pc -> urange 64 (block_end rip u) ->
  ready chk m -> sim base asp m st g -> stack_slot base asp m st -> block_run needed_flags u t rip pc m = Ok n m1 ->
  exists st2 g2, ((exists s1, goes (call_c junk) chk (put_entry u rip) Through (st, g) s1 /\
        goes (call_c junk) chk (put_end t pc (block_end rip u)) (way_of m1) s1 (st2, g2)) \/
      (way_of m1 = Leaves /\ goes (call_c junk) chk (put_entry u rip) Leaves (st, g) (st2, g2) /\
        emits_some chk (put_end t pc (block_end rip u)))) /\
    lands base asp m m1 (entered st) st2 g2 /\ n = if c_running (m_c m1) then xr st2 A64_X0 else c_cur_rip (m_c m1).
Proof.
  intros Hu Hreach Ht Hpc Hend Hr Hs Hsl. destruct (enter base asp m st g Hs Hsl) as [W0 S0].
  intros ([] & m2 & Hb & Hk)%bind_ok.
  destruct (does_block junk chk u rip Hu Hreach base asp m (entered st) g m2 Hr S0 Hb) as (s2 & g2 & G2 & [(m2' & S2 & B2 & I2) U2]).
  assert (GA : goes (call_c junk) chk (put_entry u rip) (way_of m2) (st, g) (s2, g2)).
  { unfold put_entry. eapply goes_bind; [apply goes_straight, run_put; exact W0|exact G2]. }
  destruct (but_hits_fields _ _ B2) as (Ec & Ew & _). pose proof (block_sem_quiet _ _ _ _ _ Hb) as Hq. unfold get_c, gets, mbind, M_bind in Hk. unfold way_of in *.
  destruct (c_running (m_c m2)) eqn:E2.
  - destruct (end_sem t pc (block_end rip u) m2) as [n3 m3|] eqn:Hm3; [|done].
    pose proof (respects_end_sem t pc (block_end rip u) m2' m2 B2) as Hrel. rewrite Hm3 in Hrel.
    destruct (end_sem _ _ _ m2') as [n3' m3'|] eqn:Hm3'; [|done]. destruct Hrel as [-> B3].
    assert (Hr2 : ready chk m2') by (split; [exact I2|by rewrite Ec|rewrite Ec; intros Hc; by apply (proj1 Hq), Hr]).
    destruct (answers_end junk chk t pc _ Ht Hpc Hend base asp m2' s2 g2 n3 m3' Hr2 S2 Hm3') as (s3 & g3 & G3 & L3 & X3).
    assert (m3 = m1 /\ n = if c_running (m_c m1) then n3 else c_cur_rip (m_c m1)) as [-> ->].
    { destruct (c_running (m_c m3)) eqn:E3; injection Hk as <- <-; by rewrite E3. }
    rewrite <- (proj1 (but_hits_fields _ _ B3)) in *. unfold way_of in G3. exists s3, g3. split; [left; by exists (s2, g2)|]. split.
    + eapply lands_hits; [exact B3|]. apply (lands_trans _ _ _ m2' _ _ s2); [|exact U2|exact L3]. intros i. unfold mem_of in *. rewrite Ew. apply Hq.
    + destruct (c_running (m_c m3')) eqn:E3; [by rewrite X3|done].
  - injection Hk as <- <-. exists s2, g2. rewrite E2. split; [right; split; [done|split; [exact GA|]]|split; [split; [by exists m2'|exact U2]|done]].
    eapply emits_end; [exact Ht|apply S2].
Qed.

(** The way out, from either place. *)
Lemma run_leave code n out base asp m st st1 g1 :
  placed code [a64_pop A64_X30; a64_ret] n [] out -> stack_slot base asp m st -> undisturbed base asp m (entered st) st1 ->
  code_step (call_c junk) code (n, (st1, g1)) = Some (n + 1, (leaving st st1, g1)) /\
  code !! Z.to_nat (n + 1) = Some a64_ret /\ exec_word a64_ret (leaving st st1) = Some (leaving st st1, Ret (xr st 30)).
Proof.
  intros Hp Hsl Hu. destruct (leave base asp m st st1 Hsl Hu) as (W & Hc & _).
  split; [|split; [by apply (placed_word _ _ _ [] out 1 a64_ret Hp); [|apply not_elem_of_nil]|]].
  - pose proof (placed_step (call_c junk) code _ n [] out 0 _ st1 g1 Hp eq_refl ltac:(apply not_elem_of_nil)) as Hst.
    rewrite Z.add_0_r, W in Hst. exact Hst.
  - rewrite exec_ret. by rewrite (cd_x _ _ _ _ _ Hc 30).
Qed.

(** Where a whole block leaves the A64 machine: at a machine [m1], whichever
    regions were noted on the way, and whatever flags nobody reads if an access
    stopped it. *)
Record block_lands (base asp : Z) (m m1 : machine) (st st' : astate) (g' : machine) : Prop := {
  bl_sim : exists m', sim base asp m' st' g' /\ as_inv (m_as m') /\
    but_flags (but_hits m') = but_flags (but_hits m1) /\ (c_running (m_c m1) = true -> but_hits m' = but_hits m1);
  bl_called : called base asp m st st'
}.

Lemma laid_returns code ws fx wy base asp m m1 st st2 g g2 :
  laid code (ws ++ [a64_pop A64_X30; a64_ret]) fx -> Forall (fun i => 0 <= i < len ws) fx ->
  (forall out, placed code ws 0 fx out -> reaches (call_c junk) code (0, (st, g)) (arrives wy 0 ws out, (st2, g2))) ->
  wy = way_of m1 -> stack_slot base asp m st -> lands base asp m m1 (entered st) st2 g2 ->
  exists st', returns code (st, g) (xr st 30) (st', g2) /\
    xr st' 0 = (if c_running (m_c m1) then xr st2 A64_X0 else c_cur_rip (m_c m1)) /\
    (exists m', sim base asp m' st' g2 /\ as_inv (m_as m') /\ but_hits m' = but_hits m1) /\ called base asp m st st'.
Proof.
  intros [Hw He] Hfx Hreach -> Hsl [(m' & S2 & B2 & I2) U2]. set (out := len _) in *.
  destruct (placed_app code ws [a64_pop A64_X30; a64_ret] 0 fx [] out Hfx ltac:(done)) as [P1 P2]; [by rewrite app_nil_r|].
  specialize (Hreach out P1). destruct (but_hits_fields _ _ B2) as (Ec & _ & _).
  assert (Hsim : forall s, undisturbed base asp m (entered st) s -> sim base asp m' s g2 -> sim base asp m' (leaving st s) g2 /\ called base asp m st (leaving st s)).
  { intros s Us Ss. destruct (leave base asp m st s Hsl Us) as (_ & Hc & Hm & Hx). split; [|exact Hc].
    eapply sim_ext; [exact Ss|exact Hm|by apply Hx]. }
  unfold way_of in Hreach. destruct (c_running (m_c m1)) eqn:Erun; cbn [arrives] in Hreach.
  - destruct (run_leave code _ out base asp m st st2 g2 P2 Hsl U2) as (W & L & X). destruct (Hsim st2 U2 S2) as [S3 C3].
    exists (leaving st st2). split; [|split; [|split; [by exists m'|exact C3]]].
    + exists (0 + len ws + 1), (leaving st st2), a64_ret. split; [|split; [unfold len; lia|done]].
      eapply reaches_trans; [exact Hreach|]. by apply reaches_step.
    + by apply (leave base asp m st st2 Hsl U2).
  - destruct (placed_split code [a64_ldr A64_X0 CPU OFF_CURRIP] [a64_pop A64_X30; a64_ret] out out He) as [P3 P4].
    set (s3 := set_x 0 (c_cur_rip (m_c m1)) st2).
    assert (W3 : exec_word (a64_ldr A64_X0 CPU OFF_CURRIP) st2 = Some (s3, Next)).
    { destruct (si_cpu _ _ _ _ _ S2) as [[Hb Hbr _ _] _ _].
      assert (Ha : u64 (xr st2 A64_X19 + OFF_CURRIP) = base + OFF_CURRIP) by (rewrite Hb; apply uwrap_small; unfold urange, OFF_CURRIP; lia).
      erewrite exec_ldr by (done || (rewrite Ha; apply S2)). rewrite le_val_bytes. change (8 * Z.of_nat 8) with 64.
      rewrite uwrap_small by apply S2. unfold s3. by rewrite Ec. }
    assert (U3 : undisturbed base asp m (entered st) s3).
    { apply (undisturbed_trans _ _ _ m _ st2); [done|exact U2|]. apply undisturbed_ext; [apply mem_set_x|unfold s3, set_x; by case_match|].
      intros k Hk _. unfold s3. by rewrite xr_set_x, (proj2 (Z.eqb_neq k 0)) by lia. }
    assert (S3 : sim base asp m' s3 g2) by (eapply sim_ext; [exact S2|apply mem_set_x|unfold s3; by rewrite xr_set_x]).
    destruct (run_leave code _ out base asp m st s3 g2 P4 Hsl U3) as (W & L & X). destruct (Hsim s3 U3 S3) as [S4 C4].
    exists (leaving st s3). split; [|split; [|split; [by exists m'|exact C4]]].
    + exists (out + 1 + 1), (leaving st s3), a64_ret. split; [|split; [unfold out, len; lia|done]].
      eapply reaches_trans; [exact Hreach|]. eapply reaches_trans; [apply reaches_step|apply reaches_step; exact W].
      pose proof (placed_step (call_c junk) code _ out [] out 0 _ st2 g2 P3 eq_refl ltac:(apply not_elem_of_nil)) as Hst.
      rewrite Z.add_0_r, W3 in Hst. exact Hst.
    + rewrite (proj2 (proj2 (proj2 (leave base asp m st s3 Hsl U3))) 0) by done. unfold s3. by rewrite xr_set_x.
Qed.
End returns.

(* ------------------------------------------------------------------ *)
(** ** Whole blocks *)

(** The flags the analysis found dead make no difference to where a block goes
    on. *)
Lemma block_run_flags `{HostOS} u t rip pc m n m1 :
  Forall sem_covers u -> flag_liveness u = u -> c_running (m_c m) = true -> urange 32 (c_flags (m_c m)) ->
  block_run all_flags u t rip pc m = Ok n m1 ->
  exists m2, block_run needed_flags u t rip pc m = Ok n m2 /\ same_but_flags m2 m1 /\ (c_running (m_c m1) = true -> m2 = m1).
Proof.
  intros Hu Hl Hrun Hf. pose proof (block_flags_ok u rip m Hu Hrun Hf) as Hb. rewrite Hl in Hb.
  unfold block_run, mbind, M_bind. destruct (block_sem all_flags u rip m) as [[] ma|]; [|done].
  destruct (block_sem needed_flags u rip m) as [[] mb|]; [|done]. destruct Hb as [Hab Heq].
  unfold get_c, gets. assert (Er : c_running (m_c mb) = c_running (m_c ma)) by (symmetry; apply (in_cpu _ _ Hab)).
  assert (En : c_cur_rip (m_c mb) = c_cur_rip (m_c ma)) by (by apply (f_equal (fun x => c_cur_rip (m_c x))) in Hab).
  rewrite Er. destruct (c_running (m_c ma)) eqn:Ea.
  - rewrite (Heq eq_refl). intros Hk. exists m1. by split.
  - intros [= <- <-]. exists mb. rewrite En. split; [done|]. split; [by symmetry|congruence].
Qed.

Lemma mem_end_ends t : mem_end t -> ends_block t.
Proof. destruct t as [o|]; [|done]. intros (_ & _ & Hk). unfold ends_block. by destruct (i_kind o). Qed.

Lemma memory_block_ok `{HostOS} `{LinkOk} (junk : Z -> Z) check rip v ended pc u t ended' pc' b exit_at b'
    base asp m st g n m1 :
  emit_block (S (length v)) check rip v ended pc = Some (u ++ option_list t, ended', pc', b) ->
  close_block ended' pc' (Buf (b_out b) MAX_BLOCK (b_full b) (b_check b) (b_fix b)) = (exit_at, b') ->
  b_full b' = false ->
  (match t with Some _ => ended' = true | None => ended' = false end) ->
  Forall mem_insn u -> mem_end t -> in_reach u rip -> urange 64 (block_end rip u) -> urange 64 pc' ->
  ready check m -> sim base asp m st g -> stack_slot base asp m st ->
  block_run all_flags u t rip pc' m = Ok n m1 ->
  exists st' g', returns junk (patch_fixes exit_at b') (st, g) (xr st 30) (st', g') /\ xr st' 0 = n /\
    block_lands base asp m m1 st st' g'.
Proof.
  intros He Hclose Hfull Ht Hu Hend Hreach Hat Hpc Hr Hs Hsl Hm.
  destruct (emit_block_ok (S (length v)) check rip v ended pc ltac:(lia)) as (v' & e' & p' & b0 & k & He' & [_ Hv Hb Hf _]).
  rewrite He in He'. injection He' as <- <- <- <-.
  assert (Hlive : flag_liveness u = u).
  { apply (analysed_body u t (mem_end_ends _ Hend)). rewrite Hv at 1. rewrite flag_liveness_idemp. by symmetry. }
  assert (Hneed : needed u) by (apply Forall_and; split; [done|]; rewrite <- Hlive; apply liveness_need).
  assert (Hcov : Forall sem_covers u) by (eapply Forall_impl; [exact Hu|apply mem_insn_covers]).
  destruct (si_cpu _ _ _ _ _ Hs) as [[_ _ _ Hfl] _ _].
  destruct (block_run_flags u t rip pc' m n m1 Hcov Hlive (rd_run _ _ Hr) Hfl Hm) as (m2 & Hm2 & Hsame & Heq).
  destruct (block_arrives junk check base asp u t rip pc' m st g n m2 Hneed Hreach Hend Hpc Hat Hr Hs Hsl Hm2)
    as (st2 & g2 & Hgo & Hl & Hn).
  destruct (goes_two junk check _ _ _ _ _ Hgo) as (wsA & fxA & wsE & fxE & HA & HE & Hrun).
  destruct (block_laid check u t rip pc' ended' wsA fxA wsE fxE b _ exit_at b' _ Ht Hend HA HE Hb Hf eq_refl Hclose Hfull) as [-> Hlaid].
  pose proof (em_fix _ _ _ _ (emits_bind _ _ _ _ _ _ _ HA HE)) as Hfx.
  destruct (laid_returns junk _ _ _ _ base asp m m2 st st2 g g2 Hlaid Hfx (Hrun _ 0) eq_refl Hsl Hl)
    as (st' & Hret & Hx & (m' & S' & I' & B') & Hc).
  exists st', g2. split; [exact Hret|]. split; [by rewrite Hx, Hn|]. split; [|exact Hc].
  exists m'. split; [exact S'|]. split; [exact I'|]. split.
  - rewrite B'. exact (f_equal but_hits Hsame).
  - intros E. by rewrite B', (Heq E).
Qed.

(** A compiled block does what its instructions do, loads, stores, calls
    and faults included.  For a block of instructions on registers and memory,
    ended by a jump, a conditional jump, a call, a return or nothing, as the
    compiler decoded, cut, analysed, emitted and patched it: called on an
    interpreter's machine that lies in memory, the words come back to the
    caller with the registers, flags, guest memory, write log and pending fault
    that the instructions leave one after the other, the regions the inline
    tests look at whichever they were.  x0 is the address of the next
    instruction, or of the one whose access faulted, behind which nothing ran;
    then the flags may be stale that no later instruction read.  The stack
    pointer, x19 to x30 and all memory but the guest's, the cpu's and the slot
    below the stack are as they were. *)
Theorem compiled_memory_block_correct `{HostOS} `{LinkOk} (junk : Z -> Z) check rip v ended pc u t ended' pc' b exit_at b'
    base asp m st g n m1 :
  emit_block (S (length v)) check rip v ended pc = Some (u ++ option_list t, ended', pc', b) ->
  close_block ended' pc' (Buf (b_out b) MAX_BLOCK (b_full b) (b_check b) (b_fix b)) = (exit_at, b') ->
  b_full b' = false ->
  (match t with Some _ => ended' = true | None => ended' = false end) ->
  Forall mem_insn u -> mem_end t -> in_reach u rip -> urange 64 (block_end rip u) -> urange 64 pc' ->
  ready check m -> sim base asp m st g -> stack_slot base asp m st ->
  block_run all_flags u t rip pc' m = Ok n m1 ->
  exists st' g', returns junk (patch_fixes exit_at b') (st, g) (xr st 30) (st', g') /\ xr st' 0 = n /\
    block_lands base asp m m1 st st' g'.
Proof. apply memory_block_ok. Qed.
