(* ===== verification/JitExit.v ===== *)
(** Where a block ends, both go on at the same address ([decode] and the ends in
    [put_insn] in [src/jit.c], [step] in [src/cpu.c]): jumps, conditional jumps,
    calls and returns, whatever their bytes. *)
From S2P Require Import Prelude.
From S2P Require Import Memory.
From S2P Require Import AddressSpace.
From S2P Require Import SampleHost.
From S2P Require Import Flags.
From S2P Require Import Float.
From S2P Require Import Machine.
From S2P Require Import Access.
From S2P Require Import Decode.
From S2P Require Import Sse.
From S2P Require Import Step.
From S2P Require Import Keeps.
From S2P Require Import Safety.
From S2P Require Import Registers.
From S2P Require Import Encoding.
From S2P Require Import Jit.
From S2P Require Import JitEmit.
From S2P Require Import JitFlags.
From S2P Require Import JitRegs.
From S2P Require Import JitLive.
From S2P Require Import JitBlock.
From S2P Require Import JitArena.
From S2P Require Import JitAgree.
From S2P Require Import JitRel.
From S2P Require Import JitSem.
From S2P Require Import JitCode.
From S2P Require Import JitMem.
From S2P Require Import JitWorld.
From S2P Require Import JitAccess.
From S2P Require Import JitRoutines.
From S2P Require Import JitOps.
From S2P Require Import JitDoes.
From S2P Require Import JitRmw.
From S2P Require Import JitWhole.
From S2P Require Import JitDecode.
From S2P Require Import JitReads.
From S2P Require Import JitSame.
From S2P Require Import JitAccept.
From S2P Require Import JitEnds.

(** What the interpreter leaves behind the last instruction of a block, and what
    the end of the compiled block leaves: the same machine, and the address to
    go on at; or a stop, for the same fault where [same] says so.  Where the
    host cuts the interpreter off nothing is asked. *)
Definition lands_alike `{HostOS} (same : bool) (rI : outcome unit) (rC : outcome Z) : Prop :=
  match rI with
  | Trap _ => True
  | Ok _ mI => exists n mC, rC = Ok n mC /\ c_running (m_c mC) = c_running (m_c mI) /\
      if c_running (m_c mI) then same_but_rips mC mI /\ n = c_rip (m_c mI)
      else (same = true -> faults mC = faults mI)
  end.

(** A call or jump through memory: the interpreter loads the address twice,
    around the push, and the first load is of the operand size. *)
Definition through_memory (o : insn) : bool :=
  match i_kind o with K_CALLM | K_JMPM => o_mem (i_mo o) | _ => false end.

Section exit.
Context `{HostOS} `{HostFloat}.
Context (rip : Z) (m : machine) (Hm : regs_ok m) (Hfl : urange 32 (c_flags (m_c m))) (Hrun : c_running (m_c m) = true).
Context (Hbytes : mem_ok (mem_of m)).
#[local] Abbreviation m0 := (upd_m (with_cur_rip rip) m).
#[local] Abbreviation m1 n := (upd_m (with_rip n) m0).
Context (pc : Z).

(** Nothing but the instruction pointer changes. *)
Lemma jumps_land o x :
  urange 64 x -> end_sem (Some o) pc rip m = Ok x m -> lands_alike true (Ok tt (m1 x)) (end_sem (Some o) pc rip m).
Proof.
  intros Hx ->. unfold lands_alike. cbn [upd_m m_c with_rip with_cur_rip c_running c_rip]. exists x, m. split; [done|]. split; [done|].
  rewrite Hrun. split; [done|]. symmetry. by apply uwrap_small.
Qed.

Context (n mand op : Z) (d : dec) (Hat : at_opcode rip n mand op d m).
#[local] Abbreviation rex := (d_rex d).
#[local] Abbreviation blank := (blank_of rex (d_has_rex d)).

Definition exits (o : insn) : Prop :=
  mem_end (Some o) /\ i_fneed o = 0 /\
  ((through_memory o = true -> access_ok (m_as m) (ref_ea o (reg m)) 8 RSD_PROT_R = true ->
    access_ok (m_as m) (ref_ea o (reg m)) 4 RSD_PROT_R = true) ->
   lands_alike (negb (through_memory o)) (exec_insn rip m) (end_sem (Some o) pc rip m)).

Lemma rip_mod x y : u64 x = u64 y -> m1 x = m1 y.
Proof. intros E. unfold upd_m, with_rip. by rewrite E. Qed.

(** Relative to the end of the instruction. *)
Lemma jump_run next j x : u64 (next + j) = u64 x -> jump_rel j (m1 next) = Ok tt (m1 x).
Proof.
  intros E. rewrite <- (rip_mod (u64 next + j) x); [done|]. by rewrite u64_add.
Qed.

(** Only the instruction pointer moved. *)
Lemma rip_lands x y : u64 x = y -> lands_alike true (Ok tt (m1 x)) (Ok y m).
Proof. intros <-. exists (u64 x), m. cbn [upd_m m_c with_rip with_cur_rip c_running c_rip]. by rewrite Hrun. Qed.

Lemma u64_add_r x y : u64 (x + y) = u64 (x + u64 y).
Proof. by rewrite (Z.add_comm x (u64 y)), u64_add, Z.add_comm. Qed.

Lemma jcc_exits o k i j cc :
  o = finished rip k (iw_kind K_JCC (iw_cc cc (iw_imm i blank))) -> 0 <= cc < 16 -> i = u64 j ->
  exec_insn rip m = (b ← cond_m cc; when b (jump_rel j)) (m1 (u64 (rip + k))) -> exits o.
Proof.
  intros -> Hcc -> Hx. split; [by split; [|split]; try (by apply uwrap_range)|]. split; [done|]. intros _. rewrite Hx.
  change (lands_alike true ((b ← cond_m cc; when b (jump_rel j)) (m1 (u64 (rip + k))))
    (Ok (if cond (c_flags (m_c m)) cc then u64 (u64 (rip + k) + u64 j) else u64 (rip + k)) m)).
  unfold cond_m, get_c, gets, mbind, M_bind, mret, M_ret. change (c_flags (m_c (m1 (u64 (rip + k))))) with (c_flags (m_c m)).
  destruct (cond _ cc); cbn [when].
  - rewrite (jump_run (u64 (rip + k)) j _ eq_refl). apply rip_lands. by apply u64_add_r.
  - apply rip_lands. by apply uwrap_uwrap.
Qed.

Lemma jmp_exits o k i j :
  o = finished rip k (iw_kind K_JMP (iw_imm i blank)) -> i = u64 j ->
  exec_insn rip m = jump_rel j (m1 (u64 (rip + k))) -> exits o.
Proof.
  intros -> -> Hx. split; [by split; [|split]; try (by apply uwrap_range)|]. split; [done|]. intros _. rewrite Hx.
  rewrite (jump_run (u64 (rip + k)) j _ eq_refl). apply rip_lands. by apply u64_add_r.
Qed.

(** The return address pushed: the two runs, the instruction pointer apart. *)
Lemma push_rel v next : outcome_rel same_but_rip (push v m0) (push v (m1 next)).
Proof. by apply (respects_push same_but_rip). Qed.

(** Accesses leave the instruction pointer. *)
Lemma st_keeps_rip a v size x x1 : opsize size -> Machine.st a v size x = Ok tt x1 -> u64 (c_rip (m_c x1)) = u64 (c_rip (m_c x)).
Proof.
  intros Hs Hst. destruct (st_logged _ _ _ _ _ Hs Hst) as [(_ & ->)|(_ & _ & w & _ & ->)]; [|done].
  cbn [upd_m m_c]. unfold memfault_cpu. by destruct (c_fault _).
Qed.

Lemma push_keeps_rip v x x1 : regs_ok x -> push v x = Ok tt x1 -> u64 (c_rip (m_c x1)) = u64 (c_rip (m_c x)).
Proof.
  intros Hx Hp. apply push_inv in Hp; [|done].
  apply st_keeps_rip in Hp; [exact Hp|]. unfold opsize. lia.
Qed.

Lemma call_exits o k i j :
  o = finished rip k (iw_kind K_CALL (iw_imm i blank)) -> i = u64 j ->
  exec_insn rip m = (r ← get_c c_rip; push r;; jump_rel j) (m1 (u64 (rip + k))) -> exits o.
Proof.
  intros -> -> Hx. split; [by split; [|split]; try (by apply uwrap_range)|]. split; [done|]. intros _. rewrite Hx.
  set (next := u64 (rip + k)).
  change (lands_alike true ((push (u64 next);; jump_rel j) (m1 next)) ((push next;; mret (u64 (next + u64 j))) m0)).
  rewrite (uwrap_small 64 next) by apply next_range. pose proof (push_rel next next) as Hp. unfold mbind, M_bind.
  destruct (push next m0) as [[] mC|], (push next (m1 next)) as [[] mI|] eqn:EI; try done. destruct Hp as [_ Hp].
  apply (push_keeps_rip next (m1 next)) in EI; [|exact Hm]. destruct (in_cpu _ _ Hp) as (_ & Er & _).
  exists (u64 (next + u64 j)), mC. split; [done|]. split; [done|].
  change (if c_running (m_c mI) then same_but_rips mC mI /\ u64 (next + u64 j) = u64 (c_rip (m_c mI) + j)
    else (true = true -> faults mC = faults mI)).
  destruct (c_running (m_c mI)); [|intros _; by apply same_rip_faults]. split; [by apply same_rip_rips|].
  rewrite <- u64_add_r, <- (u64_add (c_rip _)), EI. cbn [upd_m m_c with_rip with_cur_rip c_rip].
  by rewrite uwrap_uwrap, u64_add by lia.
Qed.
Lemma ld_keeps_regs a size x v x1 : opsize size -> regs_ok x -> ld a size x = Ok v x1 -> regs_ok x1.
Proof.
  intros Hs Hx Hld. destruct (ld_ok _ _ _ _ _ Hs Hld) as [(_ & _ & ->)|(_ & -> & _)]; [|done].
  unfold regs_ok. cbn [upd_m m_c]. by rewrite (proj1 (memfault_cpu_fields _ _ _)).
Qed.

(** What the interpreter does behind the load of a return. *)
Lemma ret_tail v mL :
  regs_ok mL ->
  ((sp ← getr RSP; setr RSP (sp + 8));; set_rip v;; sp ← getr RSP; setr RSP (sp + 0)) mL =
  Ok tt (upd_m (with_rip v) (set_reg 4 (u64 (reg mL 4 + 8)) mL)).
Proof.
  intros HL. set (x := u64 (reg mL 4 + 8)). assert (Hx : urange 64 x) by by apply uwrap_range.
  assert (Hs : regs_ok (set_reg 4 x mL)) by by apply set_reg_ok. unfold mbind, M_bind. rewrite getr_run, setr_run. change RSP with 4. fold x.
  set (mr := upd_m (with_rip v) (set_reg 4 x mL)). assert (Hr : reg mr 4 = x) by (change (reg (set_reg 4 x mL) 4 = x); by rewrite reg_set).
  change (setr 4 (reg mr 4 + 0) mr = Ok tt mr). rewrite Hr, setr_run, Z.add_0_r, uwrap_small by done. f_equal.
  unfold set_reg at 1. unfold mr, set_reg, upd_m. cbn [m_c with_r c_r with_rip]. by rewrite list_insert_insert_eq.
Qed.

(** The address to return to, off the stack. *)
Lemma ret_exits k :
  exec_insn rip m = (r ← pop; set_rip r;; sp ← getr RSP; setr RSP (sp + 0)) m0 -> exits (finished rip k (iw_kind K_RET blank)).
Proof.
  intros Hx. split; [by split; [|split]; try (by apply uwrap_range)|]. split; [done|]. intros _. rewrite Hx. set (o := finished _ _ _).
  assert (HC : end_sem (Some o) pc rip m = (v ← ld (reg m 4) 8;
    if_running (modify (fun x => set_gpr (upd_reg 4 (u64 (reg x 4 + 8)) (reg x)) (c_flags (m_c x)) x));; mret v) m0) by done.
  assert (HI : (r ← pop; set_rip r;; sp ← getr RSP; setr RSP (sp + 0)) m0 = (v ← ld (reg m 4) 8;
    (sp ← getr RSP; setr RSP (sp + 8));; set_rip v;; sp ← getr RSP; setr RSP (sp + 0)) m0).
  { unfold pop, mbind, M_bind. rewrite getr_run. change (reg m0 RSP) with (reg m 4). by destruct (ld _ _ m0). }
  rewrite HC, HI. unfold mbind at 1, M_bind at 1. unfold mbind at 4, M_bind at 4. destruct (ld (reg m 4) 8 m0) as [v mL|] eqn:EL; [|done].
  assert (Hv : urange 64 v) by exact (ld_range _ 8 m0 _ _ ltac:(unfold opsize; lia) Hbytes EL).
  assert (Hsz : opsize 8) by (unfold opsize; lia). rewrite ret_tail by exact (ld_keeps_regs _ 8 m0 _ _ Hsz Hm EL).
  destruct (ld_either _ 8 m0 v mL Hsz Hrun EL) as [->|(Hf & _ & _)]; unfold mbind, M_bind; rewrite EL; unfold if_running, get_c, gets, mbind, M_bind.
  - change (c_running (m_c m0)) with (c_running (m_c m)). rewrite Hrun. change (reg m0 4) with (reg m 4). set (x := u64 (reg m 4 + 8)).
    assert (Hs : set_reg 4 x m0 = set_gpr (upd_reg 4 x (reg m)) (c_flags (m_c m)) m0).
    { apply (set_reg_gpr 4 x m0); [exact Hm|exact Hfl|unfold greg; lia|by apply uwrap_range]. }
    rewrite Hs. eexists v, _. split; [reflexivity|]. cbn [upd_m m_c with_rip with_cur_rip c_running c_rip set_gpr with_flags with_r]. rewrite Hrun.
    split; [done|]. split; [done|]. symmetry. by apply uwrap_small.
  - rewrite Hf. eexists v, mL. split; [reflexivity|]. split; [done|]. 
    change (if c_running (m_c mL) then same_but_rips mL (upd_m (with_rip v) (set_reg 4 (u64 (reg mL 4 + 8)) mL)) /\ v = u64 v else
      (negb (through_memory o) = true -> faults mL = faults mL)). by rewrite Hf.
Qed.
(** Behind a fault accesses go on, and the machine stays stopped. *)
Lemma ld_stopped a size x v x1 : opsize size -> c_running (m_c x) = false -> ld a size x = Ok v x1 -> c_running (m_c x1) = false.
Proof.
  intros Hs Hx Hld. destruct (ld_ok _ _ _ _ _ Hs Hld) as [(_ & _ & ->)|(_ & -> & _)]; [apply memfault_cpu_fields|done].
Qed.

Lemma st_stopped a v size x x1 : opsize size -> c_running (m_c x) = false -> Machine.st a v size x = Ok tt x1 -> c_running (m_c x1) = false.
Proof.
  intros Hs Hx Hst. destruct (st_logged _ _ _ _ _ Hs Hst) as [(_ & ->)|(_ & _ & w & _ & ->)]; [apply memfault_cpu_fields|done].
Qed.

Lemma push_stopped v x x1 : regs_ok x -> c_running (m_c x) = false -> push v x = Ok tt x1 -> c_running (m_c x1) = false.
Proof.
  intros Hx Hr Hp. apply push_inv in Hp; [|done].
  apply st_stopped in Hp; [done|unfold opsize; lia|done].
Qed.

(** Whether the host lets a store through depends on memory and the regions. *)
Lemma log_either a v size x x1 y :
  m_as y = m_as x -> c_wlog (m_c y) = c_wlog (m_c x) -> m_w y = m_w x ->
  log_write a v size x = Ok tt x1 -> exists w, log_write a v size y = Ok tt (upd_m (with_wlog w) y).
Proof.
  intros Ha Hw Em. unfold log_write, get_c, gets, mbind, M_bind. rewrite Hw.
  destruct (c_wlog (m_c x)) as [w|] eqn:Ew.
  2:{ intros _. exists None. unfold mret, M_ret. destruct y as [[] ay wy cb cm]. cbn in *. by subst. }
  destruct (_ <=? _); [intros _; eexists; reflexivity|].
  destruct (host_read a size x) as [old x2|] eqn:Er; [|done]. apply host_read_ok in Er as [-> (bs & Hb & ->)].
  unfold host_read. rewrite Em. unfold mem_of in Hb. rewrite Hb. unfold host_bytes. rewrite Ha, Em.
  destruct (read_bytes _ _ (Z.to_nat (if rsd_as_ok _ _ _ _ then _ else _))) as [bs'|]; [|done]. intros _. eexists. reflexivity.
Qed.

Lemma st_either a v size x x1 y :
  opsize size -> m_as y = m_as x -> c_wlog (m_c y) = c_wlog (m_c x) -> m_w y = m_w x ->
  Machine.st a v size x = Ok tt x1 -> exists y1, Machine.st a v size y = Ok tt y1 /\ m_as y1 = m_as y.
Proof.
  intros Hs Ha Hw Em Hst. destruct (st_logged _ _ _ _ _ Hs Hst) as [(Hacc & _)|(Hacc & [bs Hb] & w & Hlog & _)];
    unfold Machine.st, gets, mbind, M_bind; rewrite opsize_u64, Ha, Hacc by done; cbn [negb]; [by eexists|].
  destruct (log_either _ _ _ _ _ y Ha Hw Em Hlog) as [w' ->]. rewrite access_width_ok by done.
  unfold host_write, host_store. cbn [upd_m m_w]. rewrite length_le_bytes, Em. unfold mem_of in Hb. rewrite Hb. by eexists.
Qed.
(** Calls and jumps through a register or memory. *)
Definition grp5_tail (ext : Z) (dst : opnd) (x : bool) : M unit :=
  if ext =? 2 then r ← get_c c_rip; push r;; v ← rd dst 8 x; set_rip v else v ← rd dst 8 x; set_rip v.

(** [set_rip] behind a load. *)
Lemma load_lands same (cI cC : M Z) mI mC :
  outcome_rel same_but_rip (cC mC) (cI mI) -> (forall v x, cI mI = Ok v x -> urange 64 v) ->
  lands_alike same ((v ← cI; set_rip v) mI) (cC mC).
Proof.
  intros Hrel Hv. unfold mbind, M_bind. destruct (cI mI) as [v xI|] eqn:EI; [|done]. destruct (cC mC) as [v' xC|]; [|done].
  destruct Hrel as [-> Hrel]. destruct (in_cpu _ _ Hrel) as (_ & Er & _). exists v, xC. split; [done|]. split; [exact Er|].
  change (c_running (m_c (upd_m (with_rip v) xI))) with (c_running (m_c xI)). cbn [upd_m m_c with_rip c_running c_rip].
  destruct (c_running (m_c xI)).
  - split; [apply same_rip_rips; etransitivity; [exact Hrel|done]|]. symmetry. apply uwrap_small. by eapply Hv.
  - intros _. rewrite (same_rip_faults _ _ Hrel). done.
Qed.

Record grp5_record (o : insn) (w : option memop) (r ext k : Z) : Prop := {
  gr_kind : i_kind o = if ext =? 2 then K_CALLM else K_JMPM;
  gr_next : i_next o = u64 (rip + k);
  gr_size : i_size o = 4 \/ i_size o = 8;
  gr_need : i_fneed o = 0;
  gr_target : i_target o = 0;
  gr_where : match w with None => i_reg o = r /\ o_mem (i_mo o) = false | Some a => i_mo o = a end
}.

Lemma grp5_end o w r ext k dst :
  ext = 2 \/ ext = 4 -> grp5_record o w r ext k -> lies m (u64 (rip + k)) dst r w -> mem_end (Some o).
Proof.
  intros He [Ek En _ _ Et Ew] Hl. split; [by rewrite Et|]. split; [rewrite En; apply next_range|]. rewrite Ek.
  assert (Hg : if o_mem (i_mo o) then ea_ok o else greg (i_reg o)).
  { destruct Hl as [Hr _|a Ha _ _ _ _]; [by destruct Ew as [-> ->]|]. rewrite Ew, (mp_mem _ Ha). by apply (memop_ea_ok o a). }
  by destruct (ext =? 2).
Qed.

Lemma push_regs_ok v x x1 : regs_ok x -> push v x = Ok tt x1 -> regs_ok x1.
Proof.
  intros Hx Hp. apply push_inv in Hp; [|done].
  assert (Hs : regs_ok (set_reg 4 (u64 (reg x 4 - 8)) x)) by (apply set_reg_ok; [done|by apply uwrap_range]).
  assert (Hsz : opsize 8) by (unfold opsize; lia).
  destruct (st_logged _ _ _ _ _ Hsz Hp) as [(_ & ->)|(_ & _ & w & _ & ->)]; [|exact Hs].
  unfold regs_ok. cbn [upd_m m_c]. by rewrite (proj1 (memfault_cpu_fields _ _ _)).
Qed.

Lemma push_mem_ok v x x1 : regs_ok x -> mem_ok (mem_of x) -> push v x = Ok tt x1 -> mem_ok (mem_of x1).
Proof.
  intros Hx Hb Hp. apply push_inv in Hp; [|done]. assert (Hsz : opsize 8) by (unfold opsize; lia).
  destruct (st_logged _ _ _ _ _ Hsz Hp) as [(_ & ->)|(_ & _ & w & _ & ->)]; [exact Hb|]. apply mem_ok_write; [exact Hb|apply le_bytes_ok].
Qed.

(** Through a register. *)
Lemma grp5_reg_exits o r ext k dst x :
  ext = 2 \/ ext = 4 -> grp5_record o None r ext k -> lies m (u64 (rip + k)) dst r None ->
  exec_insn rip m = (rd dst (i_size o) x;; grp5_tail ext dst x) (m1 (u64 (rip + k))) -> exits o.
Proof.
  intros He Hrec Hl Hx. split; [by eapply grp5_end|]. destruct Hrec as [Ek En Es Ef Et [Er Em]]. split; [done|]. intros _.
  assert (Hi : through_memory o = false) by (unfold through_memory; rewrite Em; by destruct (i_kind o)). rewrite Hi, Hx. cbn [negb].
  inversion Hl as [Hr Ed|]; subst dst. rewrite (bind_run _ _ _ _ _ (rd_operand r (i_size o) x _ ltac:(tauto))).
  assert (Hrd : forall y, regs_ok y -> rd (reg_opnd r) 8 x y = Ok (reg y r) y).
  { intros y Hy. rewrite rd_operand by tauto. unfold reg_rd, high_byte. cbn [Z.eqb Pos.eqb andb Z.mul Pos.mul].
    by rewrite uwrap_small by by apply reg_range. }
  unfold end_sem. rewrite Ek. destruct He as [-> | ->]; cbn [Z.eqb Pos.eqb]; unfold grp5_tail; cbn [Z.eqb Pos.eqb]; rewrite Em.
  - set (next := u64 (rip + k)) in *. pose proof (push_rel next next) as Hp.
    change (lands_alike true ((push (u64 next);; v ← rd (reg_opnd r) 8 x; set_rip v) (m1 next))
      ((push (i_next o);; R ← gets reg; mret (R (i_reg o))) m0)).
    rewrite (uwrap_small 64 next), En, Er by apply next_range. unfold mbind at 1, M_bind at 1. unfold mbind at 2, M_bind at 2.
    destruct (push next m0) as [[] mC|], (push next (m1 next)) as [[] mI|] eqn:EI; try done. destruct Hp as [_ Hp].
    assert (HmI : regs_ok mI) by exact (push_regs_ok next (m1 next) mI Hm EI).
    rewrite (bind_run _ _ _ _ _ (Hrd mI HmI)). destruct (in_cpu _ _ Hp) as (Ereg & Erun & _).
    exists (reg mC r), mC. split; [done|]. split; [exact Erun|].
    change (if c_running (m_c mI) then same_but_rips mC (upd_m (with_rip (reg mI r)) mI) /\ reg mC r = u64 (reg mI r)
      else (true = true -> faults mC = faults mI)).
    destruct (c_running (m_c mI)); [|intros _; by apply same_rip_faults].
    split; [apply same_rip_rips; etransitivity; [exact Hp|done]|]. rewrite uwrap_small by by apply reg_range. unfold reg. by rewrite Ereg.
  - rewrite (bind_run _ _ _ _ _ (Hrd (m1 (u64 (rip + k))) Hm)). change (reg (m1 (u64 (rip + k))) r) with (reg m r).
    change (lands_alike true (Ok tt (m1 (reg m r))) (Ok (reg m (i_reg o)) m)). rewrite Er.
    apply rip_lands. apply uwrap_small. by apply reg_range.
Qed.

Lemma both_stop x mC mI : c_running (m_c mC) = false -> c_running (m_c mI) = false -> lands_alike false (Ok tt mI) (Ok x mC).
Proof. intros HC HI. exists x, mC. by rewrite HI. Qed.

Lemma ld_denied a size x : opsize size -> access_ok (m_as x) a size RSD_PROT_R = false -> ld a size x = Ok 0 (upd_m (memfault_cpu a (why (m_as x) a size)) x).
Proof. intros Hs Ha. unfold ld, gets, mbind, M_bind. by rewrite opsize_u64, Ha by done. Qed.

(** Through memory: the interpreter loads twice. *)
Lemma grp5_mem_exits o a r ext k dst x :
  ext = 2 \/ ext = 4 -> grp5_record o (Some a) r ext k -> lies m (u64 (rip + k)) dst r (Some a) ->
  exec_insn rip m = (rd dst (i_size o) x;; grp5_tail ext dst x) (m1 (u64 (rip + k))) -> exits o.
Proof.
  intros He Hrec Hl Hx. split; [by eapply grp5_end|]. destruct Hrec as [Ek En Es Ef Et Ew]. split; [done|]. intros Hacc.
  inversion Hl as [|a' Ha _ _ Hrd _]; subst a'. set (next := u64 (rip + k)) in *.
  assert (Hea : ea_of a next (reg m) = ref_ea o (reg m)) by (unfold ref_ea; by rewrite Ew, En).
  rewrite Hea in Hrd. set (ea := ref_ea o (reg m)) in *.
  assert (Hi : through_memory o = true) by (unfold through_memory; rewrite Ek, Ew, (mp_mem _ Ha); by destruct (ext =? 2)).
  assert (Hacc' : access_ok (m_as m) ea 8 RSD_PROT_R = true -> access_ok (m_as m) ea (i_size o) RSD_PROT_R = true)
    by (destruct Es as [-> | ->]; [exact (Hacc Hi)|done]). clear Hacc. rename Hacc' into Hacc. rewrite Hi, Hx. cbn [negb]. assert (Hsz : opsize (i_size o)) by (unfold opsize; lia).
  assert (Hsz8 : opsize 8) by (unfold opsize; lia). unfold mbind at 1, M_bind at 1. rewrite Hrd.
  destruct (ld ea (i_size o) (m1 next)) as [v0 mF|] eqn:E1; [|done].
  set (wh := why (m_as m) ea (i_size o)). set (mW := upd_m (memfault_cpu ea wh) (m1 next)).
  assert (Hcase : mF = m1 next \/ access_ok (m_as m) ea 8 RSD_PROT_R = false /\ mF = mW).
  { destruct (ld_ok _ _ _ _ _ Hsz E1) as [(Hno & _ & ->)|(_ & -> & _)]; [right|by left]. split; [|done].
    destruct (access_ok (m_as m) ea 8 RSD_PROT_R); [|done]. change (m_as (m1 next)) with (m_as m) in Hno. by rewrite Hacc in Hno. }
  assert (HW : regs_ok mW /\ c_running (m_c mW) = false /\ c_rip (m_c mW) = u64 next).
  { unfold regs_ok, mW. cbn [upd_m m_c]. rewrite (proj1 (memfault_cpu_fields _ _ _)). split; [exact Hm|]. split; [apply memfault_cpu_fields|].
    unfold memfault_cpu. by destruct (c_fault _). }
  destruct HW as (HWr & HWs & HWp). pose proof (next_range rip k) as Hnx. fold next in Hnx.
  unfold grp5_tail, end_sem. rewrite Ek. destruct He as [-> | ->]; cbn [Z.eqb Pos.eqb]; rewrite Ew, (mp_mem _ Ha).
  - change (lands_alike false ((r ← get_c c_rip; push r;; v ← rd dst 8 x; set_rip v) mF)
      ((push (i_next o);; r ← get_c c_running; if r : bool then ld ea 8 else mret 0) m0)). rewrite En. fold next.
    destruct Hcase as [->|[Hno ->]].
    + change ((r ← get_c c_rip; push r;; v ← rd dst 8 x; set_rip v) (m1 next)) with ((push (u64 next);; v ← rd dst 8 x; set_rip v) (m1 next)).
      rewrite (uwrap_small 64 next Hnx). pose proof (push_rel next next) as Hp. unfold mbind at 1, M_bind at 1. unfold mbind at 2, M_bind at 2.
      destruct (push next m0) as [[] mC|], (push next (m1 next)) as [[] mI|] eqn:EI; try done. destruct Hp as [_ Hp].
      pose proof (push_mem_ok next (m1 next) mI Hm Hbytes EI) as HbI.
      unfold mbind at 2, M_bind at 2, get_c, gets. rewrite (proj1 (proj2 (in_cpu _ _ Hp))). unfold mbind, M_bind. rewrite Hrd.
      destruct (c_running (m_c mI)) eqn:ErI.
      * apply (load_lands false (ld ea 8) (ld ea 8)); [by apply (respects_ld same_but_rip)|]. intros v y Ey. exact (ld_range _ 8 mI _ _ Hsz8 HbI Ey).
      * destruct (ld ea 8 mI) as [v1 mL|] eqn:E2; [|done]. apply ld_stopped in E2; [|done|done].
        apply both_stop; [by rewrite (proj1 (proj2 (in_cpu _ _ Hp)))|exact E2].
    + unfold mbind, M_bind, get_c, gets. rewrite HWp. destruct (push (u64 next) mW) as [[] mI|] eqn:EI; [|done].
      pose proof (push_stopped _ _ _ HWr HWs EI) as HsI. rewrite Hrd. destruct (ld ea 8 mI) as [v1 mL|] eqn:E2; [|done].
      apply ld_stopped in E2; [|done|done].
      assert (HC : exists mC, push next m0 = Ok tt mC /\ m_as mC = m_as m).
      { apply push_inv in EI; [|exact HWr]. destruct (push_run next m0) as [->|HL]; [|by destruct HL; apply Hm].
        assert (Er : reg mW RSP = reg m RSP) by (unfold reg, mW; cbn [upd_m m_c]; by rewrite (proj1 (memfault_cpu_fields _ _ _))).
        rewrite Er, (st_mod _ _ next) in EI by (done || by apply uwrap_uwrap).
        eapply (st_either _ _ _ _ _ (set_reg 4 (u64 (reg m 4 - 8)) m0)) in EI; [exact EI|done|done|..|done].
        unfold mW, set_reg. cbn [upd_m m_c with_r c_wlog with_cur_rip with_rip]. unfold memfault_cpu. by destruct (c_fault _). }
      destruct HC as (mC & -> & Eas). destruct (c_running (m_c mC)) eqn:ErC; [|by apply both_stop].
      rewrite ld_denied by (opsize_tac || by rewrite Eas). apply both_stop; [apply memfault_cpu_fields|exact E2].
  - change (mem_operand o rip 8 m) with (ld ea 8 m0). unfold mbind, M_bind. rewrite Hrd. destruct Hcase as [->|[Hno ->]].
    + apply (load_lands false (ld ea 8) (ld ea 8)); [by apply ld_alike|]. intros v y Ey. exact (ld_range _ 8 (m1 next) _ _ Hsz8 Hbytes Ey).
    + destruct (ld ea 8 mW) as [v1 mI|] eqn:E2; [|done]. apply ld_stopped in E2; [|done|done].
      rewrite (ld_denied ea 8 m0 ltac:(opsize_tac) Hno). apply both_stop; [apply memfault_cpu_fields|exact E2].
Qed.

(* ------------------------------------------------------------------ *)
(** ** Opcodes *)

Lemma body_goes_on o : mem_insn o -> terminates (i_kind o) = false.
Proof. unfold mem_insn, reg_insn. by destruct (i_kind o). Qed.

Lemma agreed_goes_on k o : agreed rip m (finished rip k o) -> terminates (i_kind o) = true -> exits (finished rip k o).
Proof. intros [Ho%body_goes_on _] Ht. rewrite finished_kind in Ho. congruence. Qed.

(** The conditional jumps. *)
Lemma jcc8_exits k o m2 :
  (0x70 <=? op) && (op <=? 0x7F) = true ->
  ('(imm, n) ← imm_s8 rip n; mret (Some (n, iw_kind K_JCC (iw_cc (op .& 0xF) (iw_imm imm blank)))) : M (option (Z * insn))) m = Ok (Some (k, o)) m2 ->
  exits (finished rip k o).
Proof.
  intros Hop ([i k1] & m3 & (-> & b & [= -> ->] & Hc & Hb)%imm_s8_inv & [= <- <- <-])%bind_ok; [|done].
  assert (Hx : forall d', exec_op d' op = op_jcc8 d' op).
  { intros d'. assert (Hr : 0x70 <= op <= 0x7F) by lia. clear -Hr. assert (Hr' : op = 0x70 \/ op = 0x71 \/ op = 0x72 \/ op = 0x73 \/ op = 0x74 \/ op = 0x75 \/
      op = 0x76 \/ op = 0x77 \/ op = 0x78 \/ op = 0x79 \/ op = 0x7A \/ op = 0x7B \/ op = 0x7C \/ op = 0x7D \/ op = 0x7E \/ op = 0x7F) by lia.
    by repeat destruct Hr' as [->|Hr']; [..|rewrite Hr']. }
  eapply (jcc_exits _ (n + 1) _ (s8 b)); [done| |done|].
  - change 0xF with (Z.ones 4). rewrite land_ones_uwrap by lia. apply (uwrap_range 4). lia.
  - rewrite (ao_run _ _ _ _ _ _ Hat), Hx. unfold op_jcc8. rewrite (bind_run _ _ _ _ _ (fetch8_at m m0 eq_refl rip d n b Hc)). cbv beta iota.
    by rewrite (bind_run _ _ _ _ _ (advance_run rip m n mand op d Hat (n + 1))).
Qed.

Lemma jcc_not_sse op2 d' : 0x80 <= op2 <= 0x8F -> sse_exec d' op2 = mret (false, d') /\ (op2 =? 5) = false /\ is_one_of op2 [0x1E; 0x1F] = false /\
  between 0x80 0x8F op2 = true.
Proof.
  intros Hr. assert (Hc : op2 = 0x80 \/ op2 = 0x81 \/ op2 = 0x82 \/ op2 = 0x83 \/ op2 = 0x84 \/ op2 = 0x85 \/ op2 = 0x86 \/ op2 = 0x87 \/
    op2 = 0x88 \/ op2 = 0x89 \/ op2 = 0x8A \/ op2 = 0x8B \/ op2 = 0x8C \/ op2 = 0x8D \/ op2 = 0x8E \/ op2 = 0x8F) by lia.
  clear -Hc. by repeat destruct Hc as [->|Hc]; [..|rewrite Hc].
Qed.

Lemma dec_0f_exits k o m2 :
  op = 0x0F -> dec_0f rip n rex mand blank m = Ok (Some (k, o)) m2 -> terminates (i_kind o) = true -> exits (finished rip k o).
Proof.
  intros Hop Hd Ht. assert (Hbody : body_insn o -> exits (finished rip k o)).
  { intros Hk. apply agreed_goes_on; [|done]. by eapply dec_0f_agrees. }
  revert Hd. unfold dec_0f. intros ([op2 k1] & m3 & (-> & b2 & [= -> ->] & Hc2 & Hb2)%rd8_inv & Hd)%bind_ok; [|done].
  destruct ((0x80 <=? b2) && (b2 <=? 0x8F)) eqn:E8.
  - destruct (nz mand); [discriminate|]. apply bind_ok in Hd as ([i k2] & m3 & (-> & b & [= -> ->] & Hc & Hb)%imm_s32_inv & [= <- <- <-]); [|done].
    destruct (jcc_not_sse b2 (with_p (rip + (n + 1)) d) ltac:(lia)) as (Hs & H5 & H1e & H80).
    eapply (jcc_exits _ (n + 1 + 4) _ (s32 b)); [done| |done|].
    + change 0xF with (Z.ones 4). rewrite land_ones_uwrap by lia. apply (uwrap_range 4). lia.
    + rewrite (ao_run _ _ _ _ _ _ Hat), Hop. change (exec_op (with_p (rip + n) d) 0x0F m0) with (exec_0f (with_p (rip + n) d) m0).
      unfold exec_0f. rewrite (bind_run _ _ _ _ _ (fetch8_at m m0 eq_refl rip d n b2 Hc2)). cbv beta iota. rewrite H5.
      unfold exec_0f_op. rewrite Hs. erewrite bind_run by reflexivity. cbv beta iota. rewrite H1e, H80. unfold op_jcc32.
      rewrite (bind_run _ _ _ _ _ (fetch32_at m m0 eq_refl rip d (n + 1) b Hc Hb)). cbv beta iota.
      by rewrite (bind_run _ _ _ _ _ (advance_run rip m n mand op d Hat (n + 1 + 4))).
  - apply Hbody. unfold body_insn.
    destruct (b2 =? 0xAF); [|destruct ((0x90 <=? b2) && (b2 <=? 0x9F)); [|destruct (is_one_of b2 [0xB6; 0xB7; 0xBE; 0xBF]);
      [|destruct (b2 =? 0x1F); [|apply sse_kind in Hd; by rewrite Hd in Ht]]]].
    1-3: destruct (nz mand); [discriminate|]; apply (modrm_form rip m Hm Hbytes n mand op d Hat) in Hd as (_ & b & dst & w & -> & _); by destruct w.
    destruct (nz mand && _); [discriminate|]. apply bind_ok in Hd as ([hd k2] & m3 & _ & Hd). by apply bind_ok in Hd as ([k3 a] & m4 & _ & [= <- <- <-]).
Qed.

(** Jumps and calls. *)
Lemma jmp_form_exits k o m2 :
  is_one_of op [0xEB; 0xE9] = true ->
  ('(imm, n) ← (if op =? 0xEB then imm_s8 rip n else imm_s32 rip n); mret (Some (n, iw_kind K_JMP (iw_imm imm blank))) : M (option (Z * insn))) m = Ok (Some (k, o)) m2 ->
  exits (finished rip k o).
Proof.
  intros Hop Hd. assert (Hc : op = 0xEB \/ op = 0xE9) by (unfold is_one_of in Hop; cbn [existsb] in Hop; lia). pose proof (ao_run _ _ _ _ _ _ Hat) as Hx.
  destruct Hc as [E|E]; rewrite E in Hd, Hx; cbn [Z.eqb Pos.eqb] in Hd.
  - apply bind_ok in Hd as ([i k1] & m3 & (-> & b & [= -> ->] & Hc & Hb)%imm_s8_inv & [= <- <- <-]); [|done].
    eapply (jmp_exits _ (n + 1) _ (s8 b)); [done|done|]. rewrite Hx. change (exec_op (with_p (rip + n) d) 0xEB m0) with (op_jmp (with_p (rip + n) d) 0xEB m0).
    assert (Hf : ('(v, d) ← fetch8 (with_p (rip + n) d); mret (s8 v, d)) m0 = Ok (s8 b, with_p (rip + (n + 1)) d) m0)
      by by rewrite (bind_run _ _ _ _ _ (fetch8_at m m0 eq_refl rip d n b Hc)).
    unfold op_jmp. cbn [Z.eqb Pos.eqb]. rewrite (bind_run _ _ _ _ _ Hf). cbv beta iota.
    by rewrite (bind_run _ _ _ _ _ (advance_run rip m n mand op d Hat (n + 1))).
  - apply bind_ok in Hd as ([i k1] & m3 & (-> & b & [= -> ->] & Hc & Hb)%imm_s32_inv & [= <- <- <-]); [|done].
    eapply (jmp_exits _ (n + 4) _ (s32 b)); [done|done|]. rewrite Hx. change (exec_op (with_p (rip + n) d) 0xE9 m0) with (op_jmp (with_p (rip + n) d) 0xE9 m0).
    assert (Hf : ('(v, d) ← fetch32 (with_p (rip + n) d); mret (s32 v, d)) m0 = Ok (s32 b, with_p (rip + (n + 4)) d) m0)
      by by rewrite (bind_run _ _ _ _ _ (fetch32_at m m0 eq_refl rip d n b Hc Hb)).
    unfold op_jmp. cbn [Z.eqb Pos.eqb]. rewrite (bind_run _ _ _ _ _ Hf). cbv beta iota.
    by rewrite (bind_run _ _ _ _ _ (advance_run rip m n mand op d Hat (n + 4))).
Qed.

Lemma call_form_exits k o m2 :
  op = 0xE8 -> ('(imm, n) ← imm_s32 rip n; mret (Some (n, iw_kind K_CALL (iw_imm imm blank))) : M (option (Z * insn))) m = Ok (Some (k, o)) m2 ->
  exits (finished rip k o).
Proof.
  intros E Hd. pose proof (ao_run _ _ _ _ _ _ Hat) as Hx. rewrite E in Hx.
  apply bind_ok in Hd as ([i k1] & m3 & (-> & b & [= -> ->] & Hc & Hb)%imm_s32_inv & [= <- <- <-]); [|done].
  eapply (call_exits _ (n + 4) _ (s32 b)); [done|done|]. rewrite Hx. change (exec_op (with_p (rip + n) d) 0xE8 m0) with (op_call (with_p (rip + n) d) m0).
  unfold op_call. rewrite (bind_run _ _ _ _ _ (fetch32_at m m0 eq_refl rip d n b Hc Hb)). cbv beta iota.
  by rewrite (bind_run _ _ _ _ _ (advance_run rip m n mand op d Hat (n + 4))).
Qed.

Context (Hopsize : d_opsize d = if nz (rex .& 8) then 8 else 4).

Lemma grp5_exits k o m2 :
  is_one_of op [0xFE; 0xFF] = true -> dec_grp5 rip n rex op blank m = Ok (Some (k, o)) m2 -> terminates (i_kind o) = true ->
  exits (finished rip k o).
Proof.
  intros Hop Hd Ht. assert (Hbody : i_kind o <> K_CALLM -> i_kind o <> K_JMPM -> exits (finished rip k o)).
  { intros H1 H2. apply agreed_goes_on; [|done]. by eapply incdec_agrees. }
  revert Hd. unfold dec_grp5. intros ([hd k1] & m3 & (-> & b & [= -> ->] & Hc & Hb)%rd8_inv & Hd)%bind_ok; [|done].
  set (ext := (b >> 3) .& 7) in *. destruct (is_one_of ext [0; 1]) eqn:E01.
  { apply bind_ok in Hd as ([k2 o2] & m3 & Hrm & [= <- <- <-]).
    destruct (operand_lies rip m Hm Hbytes n mand op d Hat _ _ _ _ _ _ _ Hc Hrm) as (-> & dst & w & _ & -> & E3 & _).
    rewrite E3 in *. by apply Hbody; destruct w. }
  destruct (Z.eqb_spec op 0xFE) as [|HFE]; [discriminate|]. cbn [orb negb] in Hd.
  destruct (is_one_of ext [2; 4]) eqn:E24; [|discriminate]. cbn [negb] in Hd. destruct (_ && _); [discriminate|].
  apply bind_ok in Hd as ([k2 o2] & m3 & Hrm & [= <- <- <-]).
  destruct (operand_lies rip m Hm Hbytes n mand op d Hat _ _ _ _ _ _ _ Hc Hrm) as (-> & dst & w & Hmod & Eo2 & E3 & Hl). specialize (Hl k2).
  assert (He : ext = 2 \/ ext = 4) by (unfold is_one_of in E24; cbn [existsb] in E24; lia).
  set (of_ := finished rip k2 _). set (x := fixup_rip (with_p (rip + k2) d) dst) in *.
  assert (Hrec : grp5_record of_ w (rm_field rex b) ext k2).
  { unfold of_. rewrite Eo2. destruct He as [-> | ->]; destruct w; (split; [done|done|cbn; destruct (nz _); tauto|done..]). }
  assert (Hx : exec_insn rip m = (rd x (i_size of_) (d_has_rex d);; grp5_tail ext x (d_has_rex d)) (m1 (u64 (rip + k2)))).
  { assert (E : op = 0xFF) by (unfold is_one_of in Hop; cbn [existsb] in Hop; lia).
    rewrite (ao_run _ _ _ _ _ _ Hat), E. change (exec_op (with_p (rip + n) d) 0xFF m0) with (op_grp5 (with_p (rip + n) d) 0xFF m0).
    unfold op_grp5. cbn [Z.eqb Pos.eqb]. rewrite (bind_run _ _ _ _ _ (modrm_advance_run rip m n mand op d Hat _ _ _ _ Hmod)). cbv beta iota zeta.
    rewrite (reg_field_low d b). fold ext. unfold grp5_tail. assert (Hsz : i_size of_ = d_opsize d) by (rewrite Hopsize; unfold of_; rewrite Eo2; destruct (ext =? 2), w; done).
    rewrite Hsz. by destruct He as [-> | ->]. }
  destruct w as [a|]; [by eapply grp5_mem_exits|by eapply grp5_reg_exits].
Qed.
End exit.

Section opcodes.
Context `{HostOS} `{HostFloat}.
Context (rip : Z) (m : machine) (Hm : regs_ok m) (Hfl : urange 32 (c_flags (m_c m))) (Hrun : c_running (m_c m) = true).
Context (Hbytes : mem_ok (mem_of m)) (pc : Z).

(** Every opcode that ends a block. *)
Lemma decode_op_exits n mand op d k o m2 :
  at_opcode rip n mand op d m -> urange 8 op -> (mand <> 0 -> op = 0x0F) ->
  decode_op rip n (d_rex d) mand op (blank_of (d_rex d) (d_has_rex d)) m = Ok (Some (k, o)) m2 ->
  terminates (i_kind o) = true -> exits rip m pc (finished rip k o).
Proof.
  intros Hat Hop Hmand Hd Ht. destruct (Z.eq_dec op 0x0F) as [E|E].
  { eapply dec_0f_exits; try done. by rewrite E in Hd. }
  assert (Hs : d_opsize d = if nz (d_rex d .& 8) then 8 else 4).
  { apply (ao_opsize _ _ _ _ _ _ Hat). destruct (Z.eq_dec mand 0) as [|Hn]; [done|]. by destruct E; apply Hmand. }
  assert (Hbody : agreed rip m (finished rip k o) -> exits rip m pc (finished rip k o)) by (intros; by apply agreed_goes_on).
  unfold decode_op in Hd.
  destruct (is_dec_alu op) eqn:E1; [by eapply Hbody, alu_rm_agrees; [..|apply Hop|exact Hd]|].
  destruct (is_one_of op [0x80; 0x81; 0x83; 0xC6; 0xC7]) eqn:E2.
  { destruct (is_one_of op [0xC6; 0xC7]) eqn:E2'; [by eapply Hbody, mov_rm_imm_agrees|].
    eapply Hbody, grp1_agrees; try done. unfold is_one_of in *. cbn [existsb] in *. lia. }
  destruct (is_dec_acc op) eqn:E3; [by eapply Hbody, acc_agrees|].
  destruct ((0xB0 <=? op) && (op <=? 0xBF)) eqn:E4; [by eapply Hbody, mov_imm_agrees|].
  destruct (is_one_of op [0xC0; 0xC1; 0xD0; 0xD1; 0xD2; 0xD3]) eqn:E5; [apply shift_kind in Hd; by rewrite Hd in Ht|].
  destruct (is_one_of op [0x69; 0x6B]) eqn:E6; [by eapply Hbody, imul_imm_agrees|].
  destruct (Z.eqb_spec op 0x8D) as [E7|_]; [by eapply Hbody, lea_agrees|].
  destruct ((0x50 <=? op) && (op <=? 0x5F)) eqn:E8; [by eapply Hbody, push_pop_agrees|].
  destruct (op =? 0x90); [destruct (nz (d_rex d)); [discriminate|]; by injection Hd as <- <- <-|].
  destruct ((0x70 <=? op) && (op <=? 0x7F)) eqn:E10; [by eapply jcc8_exits|].
  rewrite (proj2 (Z.eqb_neq _ _) E) in Hd.
  destruct (op =? 0xEB) eqn:E11.
  { eapply jmp_form_exits; try done; [unfold is_one_of; cbn [existsb]; by rewrite E11|]. rewrite E11. exact Hd. }
  destruct (op =? 0xE9) eqn:E12.
  { eapply jmp_form_exits; try done; [unfold is_one_of; cbn [existsb]; by rewrite E12, orb_true_r|]. rewrite E11. exact Hd. }
  destruct (Z.eqb_spec op 0xE8) as [E13|_]; [by eapply call_form_exits|].
  destruct (Z.eqb_spec op 0xC3) as [E14|_].
  { injection Hd as <- <- <-. eapply ret_exits; try done. rewrite (ao_run _ _ _ _ _ _ Hat), E14. done. }
  destruct (is_one_of op [0xFE; 0xFF]) eqn:E15; [|discriminate]. by eapply grp5_exits.
Qed.

(** An instruction that ends a block, whatever its bytes. *)
Lemma ended_agrees o m2 :
  decode rip rip m = Ok (Some o) m2 -> terminates (i_kind o) = true -> exits rip m pc o.
Proof.
  intros Hd Ht. destruct (decode_inv rip m Hbytes o m2 Hd) as (d & n & mand & op & k & o' & Hat & Hop & -> & Hb & Hmand).
  rewrite finished_kind in Ht. by eapply decode_op_exits.
Qed.
End opcodes.
