(* ===== verification/JitInterp.v ===== *)
(** A compiled block does what the interpreter does ([rsd_jit_lookup] in
    [src/jit.c], the loop of [rsd_cpu_run] in [src/cpu.c]): from the bytes of the
    block to the machine both leave. *)
From S2P Require Import Prelude.
From S2P Require Import Memory.
From S2P Require Import AddressSpace.
From S2P Require Import SampleHost.
From S2P Require Import Flags.
From S2P Require Import Float.
From S2P Require Import Machine.
From S2P Require Import Access.
From S2P Require Import Decode.
From S2P Require Import Sse.
From S2P Require Import Step.
From S2P Require Import Keeps.
From S2P Require Import Safety.
From S2P Require Import Registers.
From S2P Require Import Encoding.
From S2P Require Import A64.
From S2P Require Import Emit.
From S2P Require Import Jit.
From S2P Require Import JitCache.
From S2P Require Import JitEmit.
From S2P Require Import JitInsn.
From S2P Require Import JitRun.
From S2P Require Import JitFlags.
From S2P Require Import JitRegs.
From S2P Require Import JitLive.
From S2P Require Import JitBlock.
From S2P Require Import JitCompile.
From S2P Require Import JitArena.
From S2P Require Import JitAgree.
From S2P Require Import JitRel.
From S2P Require Import JitSem.
From S2P Require Import JitCode.
From S2P Require Import JitMem.
From S2P Require Import JitWorld.
From S2P Require Import JitAccess.
From S2P Require Import JitRoutines.
From S2P Require Import JitOps.
From S2P Require Import JitDoes.
From S2P Require Import JitRmw.
From S2P Require Import JitWhole.
From S2P Require Import JitDecode.
From S2P Require Import JitReads.
From S2P Require Import JitSame.
From S2P Require Import JitAccept.
From S2P Require Import JitEnds.
From S2P Require Import JitExit.
From S2P Require Import JitReturn.

(* ------------------------------------------------------------------ *)
(** ** Reading code *)

(** What a computation reads from one memory, it reads from a larger one. *)
Definition monotone `{HostOS} {A} (c : M A) : Prop :=
  forall m m' a m1, mem_of m ⊆ mem_of m' -> c m = Ok a m1 -> m1 = m /\ c m' = Ok a m'.

Create HintDb monotone discriminated.

Section monotone.
Context `{HostOS}.

Lemma monotone_ret {A} (a : A) : monotone (mret a).
Proof. by intros m m' a' m1 _ [= <- <-]. Qed.
Lemma monotone_bind {A B} (c : M A) (k : A -> M B) : monotone c -> (forall a, monotone (k a)) -> monotone (c ≫= k).
Proof.
  intros Hc Hk m m' b m1 Hs (a & m2 & H1 & H2)%bind_ok. destruct (Hc _ _ _ _ Hs H1) as [-> H1'].
  destruct (Hk a _ _ _ _ Hs H2) as [-> H2']. split; [done|]. by rewrite (bind_run _ _ _ _ _ H1').
Qed.
Lemma monotone_if {A} (b : bool) (c d : M A) : monotone c -> monotone d -> monotone (if b then c else d).
Proof. by destruct b. Qed.
Lemma monotone_host_read a n : monotone (host_read a n).
Proof.
  intros m m' v m1 Hs [-> (bs & Hr & ->)]%host_read_ok. split; [done|]. apply host_read_ok. split; [done|].
  exists bs. split; [|done]. by eapply read_bytes_sub.
Qed.
End monotone.

#[export] Hint Resolve monotone_ret monotone_host_read : monotone.

Ltac monotone_step :=
  match goal with
  | |- forall _, _ => intros ?
  | |- monotone (mbind _ _) => apply monotone_bind
  | |- monotone (if ?b then _ else _) => destruct b
  | |- monotone (match ?x with _ => _ end) => destruct x
  | |- monotone (let '(_, _) := ?x in _) => destruct x
  end.
Ltac monotone_tac := repeat (cbv beta zeta; first [solve [eauto 2 with monotone] | monotone_step]).

Section decoding.
Context `{HostOS}.

Lemma monotone_rd8 p n : monotone (Jit.rd8 p n).
Proof. unfold Jit.rd8. monotone_tac. Qed.
Lemma monotone_rd32 p n : monotone (Jit.rd32 p n).
Proof. unfold Jit.rd32. monotone_tac. Qed.
Lemma monotone_rd64 p n : monotone (Jit.rd64 p n).
Proof. unfold Jit.rd64. monotone_tac. Qed.
#[local] Hint Resolve monotone_rd8 monotone_rd32 monotone_rd64 : monotone.

Lemma monotone_modrm_mem p n rex m : monotone (modrm_mem p n rex m).
Proof. unfold modrm_mem, add_disp. monotone_tac. Qed.
#[local] Hint Resolve monotone_modrm_mem : monotone.
Lemma monotone_rm_or_mem p n rex m f o : monotone (rm_or_mem p n rex m f o).
Proof. unfold rm_or_mem. monotone_tac. Qed.
Lemma monotone_imm_s8 p n : monotone (imm_s8 p n).
Proof. unfold imm_s8. monotone_tac. Qed.
Lemma monotone_imm_s32 p n : monotone (imm_s32 p n).
Proof. unfold imm_s32. monotone_tac. Qed.
#[local] Hint Resolve monotone_rm_or_mem monotone_imm_s8 monotone_imm_s32 : monotone.

Lemma monotone_0f p n rex mand o : monotone (dec_0f p n rex mand o).
Proof. unfold dec_0f, decode_sse. monotone_tac. Qed.
#[local] Hint Resolve monotone_0f : monotone.

Lemma monotone_decode_op p n rex mand op o : monotone (decode_op p n rex mand op o).
Proof.
  unfold decode_op, dec_alu, dec_grp1, dec_acc, dec_mov_imm, dec_shift, dec_imul_imm, dec_lea, dec_push_pop, dec_grp5.
  monotone_tac.
Qed.
#[local] Hint Resolve monotone_decode_op : monotone.

Lemma monotone_decode p rip : monotone (decode p rip).
Proof. unfold decode. monotone_tac. Qed.
End decoding.

(* ------------------------------------------------------------------ *)
(** ** The code of a block *)

Section code.
Context `{HostOS} (code : gmap Z Z).

(** The bytes at [rip] are those of [o], what is needed of its flags apart. *)
Definition coded (rip : Z) (o : insn) : Prop :=
  exists w o', o = iw_fneed w o' /\ forall m, code ⊆ mem_of m -> decode rip rip m = Ok (Some o') m.

(** One instruction behind the other. *)
Fixpoint listed (rip : Z) (v : list insn) : Prop :=
  match v with
  | [] => True
  | o :: v => coded rip o /\ urange 64 (i_next o) /\ listed (i_next o) v
  end.

Lemma listed_app rip u v : listed rip (u ++ v) <-> listed rip u /\ listed (block_end rip u) v.
Proof.
  revert rip. induction u as [|o u IH]; intros rip; cbn [app listed]; [by split; [|intros [_ ?]]|].
  rewrite IH. change (block_end rip (o :: u)) with (block_end (i_next o) u). tauto.
Qed.

Lemma listed_take rip v k : listed rip v -> listed rip (take k v).
Proof. rewrite <- (take_drop k v) at 1. by intros [? _]%listed_app. Qed.

Lemma listed_liveness rip v live : listed rip v -> listed rip (flag_liveness_from v live).1.
Proof.
  revert rip. induction v as [|o v IH]; intros rip; cbn [flag_liveness_from listed]; [done|]. intros ((w & o' & Eo & Hd) & Hn & Hv).
  specialize (IH _ Hv). destruct (flag_liveness_from v live) as [v' l]. cbn [fst listed] in *. split; [|by split].
  exists (flags_written o .& l), o'. split; [|done]. by rewrite Eo.
Qed.

Lemma listed_reach rip v : urange 64 rip -> listed rip v -> in_reach v rip /\ urange 64 (block_end rip v).
Proof.
  revert rip. induction v as [|o v IH]; intros rip Hr; cbn [listed in_reach]; [done|]. intros (_ & Hn & Hv).
  destruct (IH _ Hn Hv). by split.
Qed.

Lemma iw_fneed_same o : iw_fneed (i_fneed o) o = o.
Proof. by destruct o. Qed.

Lemma decoded_next rip o m m1 : mem_ok (mem_of m) -> decode rip rip m = Ok (Some o) m1 -> urange 64 (i_next o).
Proof.
  intros Hb Hd. destruct (decode_inv (H0 := Build_HostFloat id id) rip m Hb o m1 Hd) as (d & n & mand & op & k & o' & _ & _ & -> & _).
  unfold finished. cbn [i_next iw_next iw_len i_kind]. assert (Hn : urange 64 (u64 (rip + k))) by by apply uwrap_range.
  by destruct (i_kind o').
Qed.

(** What [decode_block] reads from the code is listed there. *)
Lemma decode_block_listed room rip m v ended pc m1 :
  mem_ok code -> mem_of m = code -> decode_block room rip m = Ok (v, ended, pc) m1 ->
  listed rip v /\ exists u t, v = u ++ option_list t /\ Forall (fun o => terminates (i_kind o) = false) u /\
    pc = block_end rip v /\ ended = bool_decide (is_Some t) /\ match t with Some o => terminates (i_kind o) = true | None => True end.
Proof.
  intros Hb Hm. revert rip v ended pc m1. induction room as [|room IH]; intros rip v ended pc m1; cbn [decode_block].
  { intros [= <- <- <- <-]. split; [done|]. by exists [], None. }
  intros (s & ? & [= <- <-] & Hd)%bind_ok. destruct (negb _).
  { injection Hd as <- <- <- <-. split; [done|]. by exists [], None. }
  apply bind_ok in Hd as ([o|] & m2 & Ho & Hd).
  2:{ injection Hd as <- <- <- <-. split; [done|]. by exists [], None. }
  assert (Hmono : forall m', code ⊆ mem_of m' -> decode rip rip m' = Ok (Some o) m').
  { intros m' Hs. rewrite <- Hm in Hs. by apply (monotone_decode rip rip m m' _ m2 Hs). }
  assert (Hcoded : coded rip o) by (exists (i_fneed o), o; by rewrite iw_fneed_same).
  assert (Hnext : urange 64 (i_next o)) by (eapply decoded_next; [|exact Ho]; by rewrite Hm).
  assert (Em : m2 = m) by (by apply (monotone_decode rip rip m m _ m2) in Ho as [-> _]). subst m2.
  destruct (terminates (i_kind o)) eqn:Et.
  - injection Hd as <- <- <- <-. split; [done|]. by exists [], (Some o).
  - apply bind_ok in Hd as ([[v' e'] pc'] & m3 & Hv & [= <- <- <- <-]).
    destruct (IH _ _ _ _ _ Hv) as (Hl & u & t & -> & Hu & -> & -> & Ht). split; [done|]. exists (o :: u), t. split; [done|].
    split; [by constructor|]. done.
Qed.
End code.

(* ------------------------------------------------------------------ *)
(** ** The instruction pointers *)

Section rips.
Context `{HostOS}.

#[export] Instance rips_equivalence : Equivalence same_but_rips.
Proof. split; unfold same_but_rips; red; congruence. Qed.

Lemma rips_fields m m' : same_but_rips m m' ->
  reg m = reg m' /\ c_flags (m_c m) = c_flags (m_c m') /\ c_running (m_c m) = c_running (m_c m') /\ m_as m = m_as m' /\
  mem_of m = mem_of m' /\ faults m = faults m'.
Proof.
  intros Hm. assert (Hf : forall A (f : machine -> A), f (but_rips m) = f (but_rips m')) by (intros A f; by rewrite Hm).
  split_and!; [exact (Hf _ reg)|exact (Hf _ (fun m => c_flags (m_c m)))|exact (Hf _ (fun m => c_running (m_c m)))|exact (Hf _ m_as)
    |exact (Hf _ mem_of)|exact (Hf _ faults)].
Qed.

(** The address noted for a fault, made the same. *)
Lemma rips_noted v m m' : same_but_rips m m' -> same_but_rip (upd_m (with_cur_rip v) m) (upd_m (with_cur_rip v) m').
Proof.
  destruct m as [[] as_ w cb cm], m' as [[] as_' w' cb' cm']. unfold same_but_rips, same_but_rip, but_rips, but_rip, upd_m, with_rip, with_cur_rip.
  cbn. by intros [=]; subst.
Qed.

Lemma outcome_rips {A} (r r' : outcome A) : outcome_rel same_but_rip r r' -> outcome_rel same_but_rips r r'.
Proof. destruct r, r'; cbn; try done. intros [-> Hm]. split; [done|]. by apply same_rip_rips. Qed.

Lemma outcome_trans {A} (r1 r2 r3 : outcome A) : outcome_rel same_but_rips r1 r2 -> outcome_rel same_but_rips r2 r3 -> outcome_rel same_but_rips r1 r3.
Proof. destruct r1, r2, r3; cbn; try done; [|congruence]. intros [-> H1] [-> H2]. split; [done|]. by etransitivity. Qed.
Lemma outcome_sym {A} (r1 r2 : outcome A) : outcome_rel same_but_rips r1 r2 -> outcome_rel same_but_rips r2 r1.
Proof. destruct r1, r2; cbn; try done. intros [-> Hm]. by split. Qed.

Lemma outcome_refl {A} (r : outcome A) : outcome_rel same_but_rips r r.
Proof. by destruct r. Qed.

(** Two machines may be compared where the address is noted. *)
Lemma rips_respected {A} (c : M A) rip m m' :
  respects same_but_rip c -> (forall m, outcome_rel same_but_rips (c m) (c (upd_m (with_cur_rip rip) m))) ->
  same_but_rips m m' -> outcome_rel same_but_rips (c m) (c m').
Proof.
  intros Hc Hn Hm. eapply outcome_trans; [apply Hn|]. eapply outcome_trans; [|apply outcome_sym, Hn].
  apply outcome_rips, Hc. by apply rips_noted.
Qed.

Lemma then_regs_rips keep o f m m' : same_but_rips m m' -> outcome_rel same_but_rips (then_regs keep o f m) (then_regs keep o f m').
Proof.
  intros Hm. destruct (rips_fields _ _ Hm) as (Er & Ef & _). unfold then_regs, modify. cbn [outcome_rel]. rewrite Er, Ef. split; [done|].
  destruct m as [[] as_ w cb cm], m' as [[] as_' w' cb' cm']. revert Hm. unfold same_but_rips, but_rips, set_gpr, upd_m, with_rip, with_cur_rip, with_flags, with_r.
  cbn. by intros [=]; subst.
Qed.

Lemma respects_rip_then_regs keep o f : respects same_but_rip (then_regs keep o f).
Proof.
  intros m m' Hm. unfold then_regs, modify. cbn [outcome_rel]. split; [done|].
  destruct m as [[] as_ w cb cm], m' as [[] as_' w' cb' cm']. revert Hm. unfold same_but_rip, but_rip, set_gpr, upd_m, with_rip, with_flags, with_r.
  cbn. by intros [=]; subst.
Qed.

Lemma insn_sem_rips keep o rip m m' : same_but_rips m m' -> outcome_rel same_but_rips (insn_sem keep o rip m) (insn_sem keep o rip m').
Proof.
  apply (rips_respected _ rip).
  - unfold insn_sem. apply respects_bind.
    + intros x x' Hx. apply mem_part_rel; [apply _|done|]. intros _. by rewrite (f_equal (fun m => c_flags (m_c m)) Hx : c_flags (m_c x) = c_flags (m_c x')).
    + intros f. apply respects_if_running; [apply _|]. apply respects_rip_then_regs.
  - intros x. set (xn := upd_m (with_cur_rip rip) x).
    assert (Hx : same_but_rips x xn) by done.
    assert (Hp : mem_part o rip x = mem_part o rip xn \/ exists f, mem_part o rip x = Ok f x /\ mem_part o rip xn = Ok f xn).
    { unfold mem_part. destruct (i_kind o); try (right; eexists; done); try (by left); try (destruct (i_op o =? 0x88); by left);
        destruct (o_mem (i_mo o)); (by left) || (right; eexists; done). }
    unfold insn_sem, mbind at 1 2, M_bind at 1 2. destruct Hp as [->|(f & -> & ->)].
    + apply outcome_refl.
    + unfold if_running, get_c, gets, mbind, M_bind. change (c_running (m_c xn)) with (c_running (m_c x)).
      destruct (c_running (m_c x)); [by apply then_regs_rips|done].
Qed.

Lemma end_sem_rips t pc rip m m' : same_but_rips m m' -> outcome_rel same_but_rips (end_sem t pc rip m) (end_sem t pc rip m').
Proof.
  apply (rips_respected _ rip); [|intros x; set (xn := upd_m (with_cur_rip rip) x)].
  - unfold end_sem. destruct t as [o|]; [|apply respects_ret].
    pose proof (respects_set_cur_rip same_but_rip) as H1'. pose proof (respects_push same_but_rip) as H2'.
    pose proof (respects_ld same_but_rip) as H3'. pose proof (respects_reg same_but_rip) as H4'. pose proof (respects_running same_but_rip) as H5'.
    assert (H6' : respects same_but_rip (get_c c_flags)) by (apply respects_gets; intros y y' Hy; exact (f_equal (fun m => c_flags (m_c m)) Hy)).
    assert (H7' : respects same_but_rip (modify (fun m => set_gpr (upd_reg 4 (u64 (reg m 4 + 8)) (reg m)) (c_flags (m_c m)) m))).
    { intros y y' Hy. exact (respects_rip_then_regs all_flags zero_insn (fun s => (upd_reg 4 (u64 (s.1 4 + 8)) s.1, s.2)) y y' Hy). }
    pose proof (respects_if_running same_but_rip) as H8'.
    destruct (i_kind o); try apply respects_ret; unfold mem_operand; respects_run; repeat case_match; respects_run.
  - assert (Hx : same_but_rips x xn) by done. unfold end_sem. destruct t as [o|]; [|done].
    destruct (i_kind o); try done; try apply outcome_refl; destruct (o_mem (i_mo o)); done || apply outcome_refl.
Qed.
End rips.

(* ------------------------------------------------------------------ *)
(** ** What instructions leave alone *)

Section kept.
Context `{HostOS}.

Lemma insn_sem_keeps R `{!StepRel R} keep o rip :
  (i_kind o = K_MR \/ i_kind o = K_MI -> opsize (i_size o)) -> (forall R' fl m, R m (set_gpr R' fl m)) -> keeps R (insn_sem keep o rip).
Proof.
  intros Hs Hr. assert (Hrun : forall c, keeps R c -> keeps R (if_running c)) by (intros c Hc; unfold if_running; keeps_tac).
  pose proof (keeps_ld R) as H1. pose proof (keeps_cur_rip R) as H2. pose proof (keeps_setr R) as H3.
  assert (H4 : forall v, keeps R (push v)) by (intros v; unfold push, getr; keeps_tac; apply sr_st; unfold opsize; lia).
  unfold insn_sem. apply keeps_bind; [apply _| |].
  - unfold mem_part, mem_operand. destruct (i_kind o) eqn:Hk; try specialize (Hs ltac:(tauto)); keeps_tac; apply Hrun, sr_st, Hs.
  - intros f. apply Hrun. unfold then_regs. intros m u m' [= _ <-]. apply Hr.
Qed.

(** Memory holds bytes. *)
Definition keeps_bytes (m m' : machine) : Prop := as_inv (m_as m) -> m_as m' = m_as m /\ (mem_ok (mem_of m) -> mem_ok (mem_of m')).

#[export] Instance keeps_bytes_preorder : PreOrder keeps_bytes.
Proof.
  split; [by intros m|]. intros m1 m2 m3 H12 H23 Hi. destruct (H12 Hi) as [He Hb]. rewrite <- He in Hi.
  destruct (H23 Hi) as [He' Hb']. split; [congruence|auto].
Qed.

#[export] Instance keeps_bytes_step : StepRel keeps_bytes.
Proof.
  split; [apply _|by intros f m _|..].
  - intros a v n Hn m [] m' Hst _. destruct (st_logged _ _ _ _ _ Hn Hst) as [(_ & ->)|(_ & _ & w & _ & ->)]; [done|].
    split; [done|]. intros Hb. apply mem_ok_write; [exact Hb|apply le_bytes_ok].
  - intros a v m u m' Hst Hi. apply (st128_ok _ _ _ _ _ Hi) in Hst as [[_ ->]|(_ & _ & w1 & w' & -> & _)]; [done|].
    split; [done|]. intros Hb. apply mem_ok_write; [exact Hb|apply le_bytes_ok].
Qed.

(** Where the code is, the guest may not write, so the code stays. *)
Lemma insn_sem_code (code : gmap Z Z) keep o rip m m1 :
  mem_insn o -> as_inv (m_as m) -> mem_ok (mem_of m) -> code ⊆ mem_of m -> (forall i, is_Some (code !! i) -> protected (m_as m) i) ->
  insn_sem keep o rip m = Ok tt m1 -> m_as m1 = m_as m /\ mem_ok (mem_of m1) /\ code ⊆ mem_of m1.
Proof.
  intros Ho Hi Hb Hc Hp Hm. assert (Hs : i_kind o = K_MR \/ i_kind o = K_MI -> opsize (i_size o)).
  { apply mem_insn_covers in Ho. unfold sem_covers in Ho. intros [E|E]; rewrite E in Ho; apply Ho. }
  destruct (insn_sem_keeps keeps_bytes keep o rip Hs ltac:(done) _ _ _ Hm Hi) as [Ea Hb'].
  destruct (insn_sem_keeps keeps_protected keep o rip Hs ltac:(done) _ _ _ Hm Hi) as [_ Hp'].
  split; [exact Ea|]. split; [auto|]. apply map_subseteq_spec. intros i x Hx. rewrite Hp' by eauto. by eapply map_subseteq_spec.
Qed.
End kept.

(* ------------------------------------------------------------------ *)
(** ** One instruction after the other *)

(** What may be written may be read, and an address that eight bytes may be
    read at is one that four may: all regions of a guest that can be read are
    so. *)
Definition plain_regions (s : rsd_as) : Prop :=
  (forall a n, opsize n -> access_ok s a n RSD_PROT_W = true -> access_ok s a n RSD_PROT_R = true) /\
  forall a, access_ok s a 8 RSD_PROT_R = true -> access_ok s a 4 RSD_PROT_R = true.

Lemma plain_readable s :
  as_inv s -> (forall b q, prot_at (as_reg s) b = Some q -> q .& RSD_PROT_R = RSD_PROT_R) -> plain_regions s.
Proof.
  intros Hi Hq.
  assert (Hok : forall a n n' pr, urange 64 n -> 0 < n' <= n -> access_ok s a n pr = true -> access_ok s a n' RSD_PROT_R = true).
  { intros a n n' pr Hn Hn' Hacc. destruct (access_ok_cases _ _ _ _ Hi Hn ltac:(lia) Hacc) as (Ha & Hlt & Hc).
    assert (Hn64 : urange 64 n') by (unfold urange in *; lia). unfold access_ok. destruct (rsd_as_ok s a n' RSD_PROT_R) eqn:Eok; [done|].
    destruct (rsd_as_mapped s a n') eqn:Em.
    - exfalso. apply rsd_as_mapped_iff in Em as [?|[_ Em]]; [lia| |done..]. assert (Hr : rsd_as_ok s a n' RSD_PROT_R = true); [|congruence].
      apply rsd_as_ok_iff; [done..|]. right. split; [lia|]. intros b Hb. destruct (Em b Hb) as [q Eq]. exists q. split; [done|by eapply Hq].
    - destruct Hc as [Hall|(_ & Hmin & Hmax)].
      + exfalso. assert (Hm : rsd_as_mapped s a n' = true); [|congruence]. apply rsd_as_mapped_iff; [done..|]. right. split; [lia|].
        intros b Hb. destruct (Hall b ltac:(lia)) as (q & -> & _). by eexists.
      + unfold RSD_MIN_VALID, RSD_MAX_VALID in *. rewrite uwrap_small by (unfold urange in *; lia). lia. }
  split; [intros a n Hn|intros a]; apply Hok; unfold opsize, urange in *; lia.
Qed.

Section block.
Context `{HostOS} `{HostFloat} (code : gmap Z Z).

(** [n] turns of the interpreter, while the guest runs. *)
Fixpoint interpreted (n : nat) : M unit :=
  match n with
  | O => mret tt
  | S n => rip ← get_c c_rip; exec_insn rip;; if_running (interpreted n)
  end.

Lemma interpreted_S n m :
  interpreted (S n) m = match exec_insn (c_rip (m_c m)) m with
    | Ok _ m1 => if c_running (m_c m1) then interpreted n m1 else Ok tt m1
    | Trap x => Trap x
    end.
Proof.
  cbn [interpreted]. unfold if_running, get_c, gets, mbind, M_bind. destruct (exec_insn _ m) as [[] m1|]; [|done].
  by destruct (c_running (m_c m1)).
Qed.

(** A machine about to run [code] at [rip]. *)
Record runs (rip : Z) (m : machine) : Prop := {
  ru_types : cpu_wf (m_c m);
  ru_run : c_running (m_c m) = true;
  ru_as : as_inv (m_as m);
  ru_plain : plain_regions (m_as m);
  ru_bytes : mem_ok (mem_of m);
  ru_code : code ⊆ mem_of m;
  ru_prot : forall i, is_Some (code !! i) -> protected (m_as m) i;
  ru_rip : c_rip (m_c m) = rip
}.

Lemma insn_sem_fneed w o rip m : insn_sem all_flags (iw_fneed w o) rip m = insn_sem all_flags o rip m.
Proof. done. Qed.

Lemma body_step rip m o m1 :
  runs rip m -> coded code rip o -> body_insn o -> exec_insn rip m = Ok tt m1 ->
  exists mS, insn_sem all_flags o rip m = Ok tt mS /\ c_running (m_c mS) = c_running (m_c m1) /\
    if c_running (m_c m1) then same_but_rips mS m1 /\ runs (i_next o) m1 else faults mS = faults m1.
Proof.
  intros [Ht Hr Hi [Hp1 Hp2] Hb Hc Hp Hrip] (w & o' & -> & Hd) Hk Hx. pose proof (Hd m Hc) as Hdm.
  destruct (decoded_agreed rip m o' m (regs_ok_wf _ Ht) (wf_flags _ Ht) Hr Hb Hdm Hk) as (Ho & _ & Ha).
  rewrite insn_sem_fneed.
  assert (Hf : follows (i_next o') (exec_insn rip m) (insn_sem all_flags o' rip m)).
  { apply Ha. intros Ek _. apply Hp1. apply mem_insn_covers in Ho. unfold sem_covers in Ho. rewrite Ek in Ho. apply Ho. }
  rewrite Hx in Hf. destruct Hf as (mS & HS & Er & Hcase). exists mS. split; [exact HS|]. split; [exact Er|].
  destruct (c_running (m_c m1)) eqn:E1; [|exact Hcase]. destruct Hcase as [Hs Hn]. split; [exact Hs|].
  destruct (insn_sem_code code all_flags o' rip m mS Ho Hi Hb Hc Hp HS) as (Ea & Hb' & Hc').
  destruct (rips_fields _ _ Hs) as (_ & _ & _ & Eas & Emem & _). rewrite Eas, Emem in *.
  split; rewrite ?Ea; try done. by eapply exec_insn_types.
Qed.

Definition indirect (t : option insn) : bool := match t with Some o => through_memory o | None => false end.

(** A block's run, an instruction at a time. *)
Lemma block_run_cons keep o u t rip pc m :
  block_run keep (o :: u) t rip pc m = match insn_sem keep o rip m with
    | Ok _ m1 => if c_running (m_c m1) then block_run keep u t (i_next o) pc m1 else Ok (c_cur_rip (m_c m1)) m1
    | Trap x => Trap x
    end.
Proof.
  unfold block_run. cbn [block_sem]. change (block_end rip (o :: u)) with (block_end (i_next o) u).
  unfold if_running, get_c, gets, mbind, M_bind, mret, M_ret. destruct (insn_sem keep o rip m) as [[] m1|]; [|done].
  destruct (c_running (m_c m1)) eqn:E; [done|]. by rewrite E.
Qed.

(** Where a block ends. *)
Lemma end_step rip pc t mI mC mF :
  runs rip mI -> same_but_rips mC mI -> listed code rip (option_list t) ->
  match t with Some o => terminates (i_kind o) = true | None => pc = rip end ->
  interpreted (length (option_list t)) mI = Ok tt mF ->
  lands_alike (negb (indirect t)) (Ok tt mF) (block_run all_flags [] t rip pc mC).
Proof.
  intros [Ht Hr Hi [Hp1 Hp2] Hb Hc Hp Hrip] Hs Hl Hend Hx. destruct (rips_fields _ _ Hs) as (_ & _ & Er & _).
  assert (Hrun : block_run all_flags [] t rip pc mC = match end_sem t pc rip mC with
    | Ok n m => Ok (if c_running (m_c m) then n else c_cur_rip (m_c m)) m | Trap x => Trap x end).
  { unfold block_run. cbn [block_sem]. change (block_end rip []) with rip. unfold get_c, gets, mbind, M_bind, mret, M_ret. rewrite Er, Hr.
    destruct (end_sem t pc rip mC) as [n m|]; [|done]. by destruct (c_running (m_c m)). }
  rewrite Hrun. assert (HI : lands_alike (negb (indirect t)) (Ok tt mF) (end_sem t pc rip mI)).
  { destruct t as [o|].
    - change (interpreted 1 mI = Ok tt mF) in Hx. destruct Hl as ((w & o' & -> & Hd) & _ & _). change (terminates (i_kind o') = true) in Hend.
      destruct (ended_agrees rip mI (regs_ok_wf _ Ht) (wf_flags _ Ht) Hr Hb pc o' mI (Hd mI Hc) Hend) as (_ & _ & Ha).
      assert (He : exec_insn rip mI = Ok tt mF).
      { rewrite interpreted_S, Hrip in Hx. destruct (exec_insn rip mI) as [[] m1|]; [|done]. by destruct (c_running (m_c m1)). }
      rewrite He in Ha. apply Ha. intros _. apply Hp2.
    - injection Hx as <-. exists rip, mI. rewrite Hend, Hr. split; [done|]. split; [done|]. split; [done|]. done. }
  unfold lands_alike in *. destruct HI as (n & mE & HE & ErE & Hcase). pose proof (end_sem_rips t pc rip mC mI Hs) as Hrel. rewrite HE in Hrel.
  destruct (end_sem t pc rip mC) as [n' mE'|]; [|done]. destruct Hrel as [-> Hrel]. destruct (rips_fields _ _ Hrel) as (_ & _ & ErE' & _ & _ & EfE').
  eexists _, mE'. split; [reflexivity|]. rewrite ErE', ErE. split; [done|]. destruct (c_running (m_c mF)).
  - destruct Hcase as [Hcase ->]. split; [by etransitivity|done].
  - intros Hsame. rewrite EfE'. by apply Hcase.
Qed.

(** A block, and its interpretation. *)
Lemma block_interpreted u t rip pc mI mC mF :
  runs rip mI -> same_but_rips mC mI -> listed code rip (u ++ option_list t) -> Forall body_insn u ->
  match t with Some o => terminates (i_kind o) = true | None => pc = block_end rip u end ->
  interpreted (length (u ++ option_list t)) mI = Ok tt mF ->
  lands_alike (negb (indirect t)) (Ok tt mF) (block_run all_flags u t rip pc mC).
Proof.
  revert rip mI mC. induction u as [|o u IH]; intros rip mI mC HI Hs Hl Hu Hend Hx; [by eapply end_step|].
  change ((o :: u) ++ option_list t) with (o :: (u ++ option_list t)) in *. cbn [length] in Hx. destruct Hl as (Ho & _ & Hl).
  apply Forall_cons in Hu as [Hbo Hu]. rewrite interpreted_S, (ru_rip _ _ HI) in Hx.
  destruct (exec_insn rip mI) as [[] m1|] eqn:E1; [|done].
  destruct (body_step rip mI o m1 HI Ho Hbo E1) as (mS & HS & Er & Hcase).
  pose proof (insn_sem_rips all_flags o rip mC mI Hs) as Hrel. rewrite HS in Hrel. rewrite block_run_cons.
  destruct (insn_sem all_flags o rip mC) as [[] mC1|]; [|done]. destruct Hrel as [_ Hrel].
  destruct (rips_fields _ _ Hrel) as (_ & _ & ErC & _ & _ & EfC). rewrite ErC, Er. destruct (c_running (m_c m1)) eqn:Er1.
  - destruct Hcase as [Hs1 HI1]. eapply IH; [exact HI1|by etransitivity|done|done| |done]. by destruct t.
  - injection Hx as <-. exists (c_cur_rip (m_c mC1)), mC1. split; [done|]. rewrite Er1, ErC. split; [done|]. intros _. by rewrite EfC.
Qed.
End block.

(* ------------------------------------------------------------------ *)
(** ** Compiled blocks *)

Section compiled.
Context `{HostOS} `{LinkOk} `{HostFloat}.

(** What is needed of the flags, put back. *)
Lemma needed_insn w o :
  mem_insn o -> w .& .~ flags_written o = 0 -> mem_insn (iw_fneed w o).
Proof.
  intros Ho Hw. assert (Hea : ea_ok o -> ea_ok (iw_fneed w o)) by (intros []; by split).
  assert (Hl : i_kind o = K_IMUL -> w .& .~ FL_LOGIC = 0) by (intros E; unfold flags_written in Hw; by rewrite E in Hw).
  assert (Hop : op_ok o -> op_ok (iw_fneed w o)) by (intros []; by split).
  unfold mem_insn, reg_insn in *. change (i_kind (iw_fneed w o)) with (i_kind o). change (i_op (iw_fneed w o)) with (i_op o).
  change (i_mo (iw_fneed w o)) with (i_mo o). destruct (i_kind o) eqn:Hk; try done; repeat case_match; try done.
  all: try (destruct Ho; split; done || (by apply Hop) || (by apply Hea) || by apply Hl).
Qed.

Lemma needed_end w o : mem_end (Some o) -> mem_end (Some (iw_fneed w o)).
Proof.
  intros (Ht & Hn & Ho). split; [exact Ht|]. split; [exact Hn|]. change (i_kind (iw_fneed w o)) with (i_kind o).
  destruct (i_kind o); try done; change (i_mo (iw_fneed w o)) with (i_mo o); destruct (o_mem (i_mo o)); try done; destruct Ho; by split.
Qed.

(** What [emit_block] keeps of what was decoded. *)
Record kept_of (code : gmap Z Z) (rip : Z) (u : list insn) (t : option insn) (pc : Z) : Prop := {
  ko_listed : listed code rip (u ++ option_list t);
  ko_pc : pc = block_end rip (u ++ option_list t);
  ko_end : match t with Some o => terminates (i_kind o) = true | None => True end;
  ko_need : Forall (fun o => i_fneed o .& .~ flags_written o = 0) u
}.

Lemma block_end_app rip u v : block_end rip (u ++ v) = block_end (block_end rip u) v.
Proof. apply foldl_app. Qed.

Lemma emitted_kept code rip room m v ended pc m1 fuel check u t ended' pc' b :
  mem_ok code -> mem_of m = code -> decode_block room rip m = Ok (v, ended, pc) m1 -> (length v < fuel)%nat ->
  emit_block fuel check rip v ended pc = Some (u ++ option_list t, ended', pc', b) ->
  (match t with Some _ => ended' = true | None => ended' = false end) -> kept_of code rip u t pc'.
Proof.
  intros Hb Hm Hd Hfuel He Ht. destruct (decode_block_listed code room rip m v ended pc m1 Hb Hm Hd) as (Hl & u0 & t0 & Ev & Hu0 & Epc & Eend & Ht0).
  destruct (emit_block_ok fuel check rip v ended pc Hfuel) as (v' & e' & p' & b0 & k & He' & [Hk Hv _ _ Hend]).
  rewrite He in He'. injection He' as Ev' <- <- <-. rewrite <- Ev' in *.
  assert (Hbe : block_end rip (u ++ option_list t) = block_end rip (take k v)).
  { rewrite Hv. pose proof (block_end_liveness (length (take k v)) (take k v) FL_ALL rip) as Hbl.
    rewrite firstn_all in Hbl. rewrite <- Hbl, <- length_flag_liveness. symmetry. by rewrite firstn_all. }
  split.
  - rewrite Hv. apply listed_liveness, listed_take, Hl.
  - rewrite Hbe. destruct (decide _) as [->|_]; destruct Hend as [_ ->]; [by rewrite firstn_all|done].
  - destruct t as [o|]; [|done]. destruct (decide _) as [Ek|_]; [|by destruct Hend; congruence]. destruct Hend as [Ee _].
    destruct t0 as [o0|]; [|by cbn in Eend; congruence]. rewrite Ek, firstn_all, Ev in Hv.
    change (option_list (Some o0)) with [o0] in Hv. change (option_list (Some o)) with [o] in Hv.
    unfold flag_liveness in Hv. rewrite liveness_snoc in Hv. cbn [fst] in Hv. apply app_inj_tail in Hv as [_ ->]. exact Ht0.
  - assert (Hn : Forall (fun o => i_fneed o .& .~ flags_written o = 0) (u ++ option_list t)) by (rewrite Hv; apply liveness_need).
    by apply Forall_app in Hn as [? _].
Qed.

(** The instructions the compiler's theorems are about. *)
Lemma listed_insns code rip0 m rip u :
  runs code rip0 m -> listed code rip u -> Forall body_insn u -> Forall (fun o => i_fneed o .& .~ flags_written o = 0) u -> Forall mem_insn u.
Proof.
  intros [Ht Hr _ _ Hb Hc _ _]. revert rip. induction u as [|o u IH]; intros rip; [done|].
  intros ((w & o' & -> & Hd) & _ & Hl) [Hk Hu]%Forall_cons [Hn Hnu]%Forall_cons. constructor; [|by eapply IH].
  destruct (decoded_agreed rip m o' m (regs_ok_wf _ Ht) (wf_flags _ Ht) Hr Hb (Hd m Hc) Hk) as (Ho & _). by apply needed_insn.
Qed.

Lemma listed_end code rip0 m rip t :
  runs code rip0 m -> listed code rip (option_list t) -> match t with Some o => terminates (i_kind o) = true | None => True end -> mem_end t.
Proof.
  intros [Ht Hr _ _ Hb Hc _ _]. destruct t as [o|]; [|done]. intros ((w & o' & -> & Hd) & _) Hk.
  destruct (ended_agrees rip m (regs_ok_wf _ Ht) (wf_flags _ Ht) Hr Hb 0 o' m (Hd m Hc) Hk) as (He & _). by apply needed_end.
Qed.

(** C1.  A compiled block does what the interpreter does.  Take the bytes
    [code] of a block of integer instructions and its end, which the guest may
    not write; the block [decode_block] reads there, cut, analysed, emitted and
    patched; and a machine about to run it.  If the interpreter, taking the
    block's instructions one by one from the same machine, is not cut off by
    the host, the words called on that machine in memory come back to their
    caller; while the guest runs on, with x0 the interpreter's instruction
    pointer and with its registers, flags, memory, write log and region table;
    where an access faulted, stopped, with the same fault, unless the block
    ends in a jump or call through memory, whose two loads may fault
    differently.  Shifts of memory and SSE are left out, and memory that may be
    written must be readable. *)
Theorem compiled_block_interprets (junk : Z -> Z) check code rip mc v ended pc mc' u t ended' pc' b exit_at b' base asp m st g mI :
  decode_block MAX_INSNS rip (with_mem code mc) = Ok (v, ended, pc) mc' ->
  emit_block (S (length v)) check rip v ended pc = Some (u ++ option_list t, ended', pc', b) ->
  close_block ended' pc' (Buf (b_out b) MAX_BLOCK (b_full b) (b_check b) (b_fix b)) = (exit_at, b') -> b_full b' = false ->
  (match t with Some _ => ended' = true | None => ended' = false end) -> Forall body_insn u ->
  runs code rip m -> ready check m -> sim base asp m st g -> stack_slot base asp m st ->
  interpreted (length (u ++ option_list t)) m = Ok tt mI ->
  exists st' g' m1, returns junk (patch_fixes exit_at b') (st, g) (xr st 30) (st', g') /\ block_lands base asp m m1 st st' g' /\
    c_running (m_c m1) = c_running (m_c mI) /\
    if c_running (m_c mI) then same_but_rips m1 mI /\ xr st' 0 = c_rip (m_c mI)
    else indirect t = false -> faults m1 = faults mI.
Proof.
  intros Hd He Hcl Hf Ht Hu Hruns Hready Hs Hsl Hx. pose proof Hruns as [Hwf _ _ _ Hb Hc _ Hrip].
  assert (Hbc : mem_ok code) by (intros i x Hi; eapply Hb, map_subseteq_spec; done).
  destruct (emitted_kept code rip MAX_INSNS (with_mem code mc) v ended pc mc' _ check u t ended' pc' b Hbc eq_refl Hd (Nat.lt_succ_diag_r _) He Ht) as [Hl Hpc Hend Hneed].
  assert (Hr64 : urange 64 rip) by (rewrite <- Hrip; apply (wf_rip _ Hwf)).
  destruct (listed_reach code rip (u ++ option_list t) Hr64 Hl) as [_ Hpc64]. rewrite <- Hpc in Hpc64.
  destruct (proj1 (listed_app code rip u (option_list t)) Hl) as [Hlu Hlt]. destruct (listed_reach code rip u Hr64 Hlu) as [Hreach Hend64].
  pose proof (listed_insns code rip m rip u Hruns Hlu Hu Hneed) as Hins. pose proof (listed_end code rip m _ t Hruns Hlt Hend) as Hmt.
  assert (Hend' : match t with Some o => terminates (i_kind o) = true | None => pc' = block_end rip u end).
  { destruct t; [done|]. by rewrite Hpc, app_nil_r. }
  destruct (block_interpreted code u t rip pc' m m mI Hruns ltac:(done) Hl Hu Hend' Hx) as (n & m1 & Hm1 & Er & Hcase).
  destruct (memory_block_ok junk check rip v ended pc u t ended' pc' b exit_at b' base asp m st g n m1 He Hcl Hf Ht Hins Hmt Hreach Hend64 Hpc64
    Hready Hs Hsl Hm1) as (st' & g' & Hret & Hn & Hlands).
  exists st', g', m1. split; [exact Hret|]. split; [exact Hlands|]. split; [exact Er|]. destruct (c_running (m_c mI)).
  - destruct Hcase as [Hcase <-]. by split.
  - intros Hi. apply Hcase. by rewrite Hi.
Qed.
End compiled.
