(* ===== verification/JitSample.v ===== *)
(** A concrete cpu, address space and guest page in the memory of the A64
    machine, on which the theorems about compiled loads and stores are applied. *)
From S2P Require Import Prelude.
From S2P Require Import Memory.
From S2P Require Import AddressSpace.
From S2P Require Import SampleHost.
From S2P Require Import Flags.
From S2P Require Import Machine.
From S2P Require Import Access.
From S2P Require Import Registers.
From S2P Require Import A64.
From S2P Require Import Emit.
From S2P Require Import Jit.
From S2P Require Import JitEmit.
From S2P Require Import JitInsn.
From S2P Require Import JitRun.
From S2P Require Import JitFlags.
From S2P Require Import JitRegs.
From S2P Require Import JitCode.
From S2P Require Import JitMem.
From S2P Require Import JitRel.
From S2P Require Import JitSem.
From S2P Require Import JitWorld.
From S2P Require Import JitAccess.
From S2P Require Import JitRoutines.
From S2P Require Import JitOps.
From S2P Require Import JitCache.
From S2P Require Import JitLive.
From S2P Require Import JitBlock.
From S2P Require Import JitCompile.
From S2P Require Import JitDoes.
From S2P Require Import JitRmw.
From S2P Require Import JitWhole.
From S2P Require Import JitEnds.
From S2P Require Import JitReturn.

#[local] Existing Instance sample_host.

(** The routines, sixteen bytes apart. *)
Definition sample_helper (fn : helper) : Z :=
  0x700000 + 16 *
  match fn with
  | fn_ld => 0 | fn_st => 1 | fn_flags_add => 2 | fn_flags_sub => 3 | fn_flags_logic => 4
  | fn_ld128 => 5 | fn_st128 => 6 | fn_comisd => 7 | fn_comiss => 8 | fn_cvt2si => 9
  | fn_nan_d => 10 | fn_nan_s => 11 | fn_flags_inc => 12 | fn_flags_dec => 13 | fn_shift => 14 | fn_wlog => 15
  end.

#[local] Instance sample_linked : Linked := Build_Linked sample_helper.
#[local] Instance sample_link_ok : LinkOk.
Proof. split; [by intros []|by intros [] []]. Qed.

(** rax is 5 and rbx points to a page that holds 0x1234567 four bytes in; the
    page was noted for loads. *)
Definition sample_paged : machine :=
  let m := sample_guest [0; 0; 0; 0; 0x67; 0x45; 0x23; 0x01] in
  Machine (with_r (<[0%nat := 5]> (<[3%nat := 0x10000]> (replicate 16 0))) (m_c m))
    (rsd_as_note (m_as m) 0x10000 RSD_PROT_R) (m_w m) (m_cb m) (m_cm m).

(** Its cpu at 0x1000, its address space at 0x2000. *)
Definition sample_laid (m : machine) : gmap Z Z :=
  mem_of m ∪
  put_hits (0x2000 + OFF_AS_RD) (as_rd (m_as m)) (put_hits (0x2000 + OFF_AS_WR) (as_wr (m_as m))
    (foldl (fun mem k => write_bytes mem (0x1000 + off_tmp k) (le_bytes 8 0))
      (foldl (fun mem r => write_bytes mem (0x1000 + off_r r) (le_bytes 8 (reg m r)))
        (write_bytes (write_bytes (write_bytes (write_bytes ∅
          (0x1000 + OFF_FLAGS) (le_bytes 4 (c_flags (m_c m))))
          (0x1000 + OFF_RUNNING) (le_bytes 1 (bz (c_running (m_c m)))))
          (0x1000 + OFF_CURRIP) (le_bytes 8 (c_cur_rip (m_c m))))
          (0x1000 + OFF_AS) (le_bytes 8 0x2000))
        (seqZ 0 16)) (seqZ 0 8))).

Definition sample_a64 (x1 x2 : Z) : astate :=
  AState (fun n => if n =? 19 then 0x1000 else if n =? 1 then x1 else if n =? 2 then x2 else 0) 0x8000
    (NZCV false false false false) (sample_laid sample_paged).

Lemma all_greg (P : Z -> Prop) : Forall P (seqZ 0 16) -> forall r, greg r -> P r.
Proof. rewrite Forall_forall. intros Hp r Hr. apply Hp, elem_of_seqZ. unfold greg in Hr. lia. Qed.

Lemma sample_guest_dom i : is_Some (mem_of sample_paged !! i) -> 0x10000 <= i < 0x10100.
Proof.
  change (mem_of sample_paged) with (write_bytes (zero_range 0x10000 256) 0x10000 [0; 0; 0; 0; 0x67; 0x45; 0x23; 0x01]).
  intros [Hs|Hs]%write_bytes_mapped; [|cbn in Hs; lia]. rewrite lookup_zero_range in Hs. case_decide; [lia|]. by destruct Hs.
Qed.

Lemma sample_bytes : mem_ok (mem_of sample_paged).
Proof. apply mem_ok_write; [|by repeat constructor]. intros i x. rewrite lookup_zero_range. case_decide; [|done]. by intros [= <-]. Qed.

(** A machine laid out: [dom] bounds its memory, which holds bytes. *)
Ltac laid_sim dom bytes :=
  split; [| | | | | | | | | |apply map_union_subseteq_l|exact bytes|done| |reflexivity|];
  [split; [split; [reflexivity|lia|vm_compute; reflexivity|done]|..]; apply all_greg;
    [unfold seqZ; cbn [Z.to_nat Pos.to_nat Pos.iter_op Init.Nat.add seq]; cbn [fmap list_fmap]; repeat constructor; vm_compute; reflexivity
    |cbn; repeat constructor; done]
  |reflexivity|vm_compute; reflexivity|done|vm_compute; reflexivity|vm_compute; reflexivity|lia|lia
  |split; [vm_compute; reflexivity..|done|done]|split; [vm_compute; reflexivity..|done|done]
  |let i := fresh in let Hi := fresh in let Hs := fresh in
   intros i Hi; apply eq_None_not_Some; intros Hs; apply dom in Hs; unfold own in Hi; lia
  |let i := fresh "i" in let Hi := fresh in let Hk := fresh in
   intros i Hi; assert (Hk : i = 0 \/ i = 1 \/ i = 2 \/ i = 3 \/ i = 4 \/ i = 5 \/ i = 6 \/ i = 7) by lia;
   eexists; by decompose sum Hk; subst i; vm_compute].

Lemma sample_sim x1 x2 : sim 0x1000 0x2000 sample_paged (sample_a64 x1 x2) sample_paged.
Proof. laid_sim sample_guest_dom sample_bytes. Qed.

Lemma sample_paged_as : as_inv (m_as sample_paged).
Proof. unfold sample_paged. cbv zeta. cbn [m_as]. apply as_inv_note. repeat split; cbn; try lia; by left. Qed.

Lemma sample_paged_running : c_running (m_c sample_paged) = true.
Proof. vm_compute. reflexivity. Qed.

Lemma sample_ranges : urange 64 0x400 /\ urange 64 0x10004 /\ urange 64 0x10008 /\ urange 64 0xAB.
Proof. done. Qed.

Lemma sample_paged_nolog : false = false -> c_wlog (m_c sample_paged) = None.
Proof. intros _. vm_compute. reflexivity. Qed.

(* ------------------------------------------------------------------ *)
(** ** Loads and stores *)

(** Four bytes, in line: the page was noted for loads. *)
Lemma compiled_load_correct_witness :
  exists st' g', goes (call_c (fun _ => 0)) false (put_load 4) Through (sample_a64 0x10004 0, sample_paged) (st', g') /\
    xr st' A64_X0 = 0x1234567.
Proof.
  assert (Hv : value (ld 0x10004 4) sample_paged = Some 0x1234567) by (vm_compute; reflexivity).
  assert (Hr : c_running (m_c (after (ld 0x10004 4) sample_paged)) = true) by (vm_compute; reflexivity).
  destruct (compiled_load_correct (fun _ => 0) false 0x1000 0x2000 sample_paged (sample_a64 0x10004 0) sample_paged
    0x10004 4 0x1234567 (after (ld 0x10004 4) sample_paged)) as (st' & g' & G & V & _);
    [right; right; by left|exact sample_paged_as|apply sample_sim|exact sample_paged_running|reflexivity|apply sample_ranges
    |exact (run_value _ _ _ Hv)|].
  rewrite Hr in G. exists st', g'. split; [exact G|exact V].
Defined.

(** One byte, through the routine: no page was noted for stores. *)
Lemma compiled_store_correct_witness :
  exists st' g' m', goes (call_c (fun _ => 0)) false (put_store 1) Through (sample_a64 0x10008 0xAB, sample_paged) (st', g') /\
    sim 0x1000 0x2000 m' st' g' /\ mem_of m' !! 0x10008 = Some 0xAB.
Proof.
  set (m1 := after (Machine.st 0x10008 0xAB 1) sample_paged).
  assert (Hv : value (Machine.st 0x10008 0xAB 1) sample_paged = Some tt) by (vm_compute; reflexivity).
  assert (Hr : c_running (m_c m1) = true) by (vm_compute; reflexivity).
  assert (Hb : mem_of m1 !! 0x10008 = Some 0xAB) by (vm_compute; reflexivity).
  destruct (compiled_store_correct (fun _ => 0) false 0x1000 0x2000 sample_paged (sample_a64 0x10008 0xAB) sample_paged
    0x10008 0xAB 1 m1) as (st' & g' & G & [(m' & Hs & Hm & _) _]);
    [by left|exact sample_paged_as|apply sample_sim|exact sample_paged_running|exact sample_paged_nolog|reflexivity|apply sample_ranges|reflexivity|apply sample_ranges
    |exact (run_value _ _ _ Hv)|].
  rewrite Hr in G. exists st', g', m'. split; [exact G|]. split; [exact Hs|].
  destruct (but_hits_fields _ _ Hm) as (_ & Hw & _). unfold mem_of in *. rewrite Hw. exact Hb.
Defined.

(** [rbx + 4] *)
Definition sample_memop : memop := MemOp true true false false 3 0 0 4.

(** add eax, [rbx + 4] *)
Definition sample_add : insn := iw_mo sample_memop (iw_kind K_RM (iw_size 4 zero_insn)).

Lemma sample_ea o : i_mo o = sample_memop -> ea_ok o.
Proof. intros Ho. split; rewrite Ho; [|done]. intros _. cbn. unfold greg. lia. Qed.

Lemma sample_add_ok : rm_ok sample_add.
Proof.
  split; [reflexivity| |by apply sample_ea|reflexivity]. split; [right; right; by left|reflexivity| |right; by left|reflexivity].
  change (greg 0). unfold greg. lia.
Qed.

Lemma sample_add_ea : ref_ea sample_add (reg sample_paged) = 0x10004.
Proof. vm_compute. reflexivity. Qed.

Lemma compiled_rm_correct_witness :
  exists st' g' m', goes (call_c (fun _ => 0)) false (put_rm sample_add 0x400) Through (sample_a64 0 0, sample_paged) (st', g') /\
    sim 0x1000 0x2000 m' st' g' /\ reg m' 0 = 0x123456C.
Proof.
  set (m0 := upd_m (with_cur_rip 0x400) sample_paged). set (m1 := after (ld 0x10004 4) m0).
  assert (Hv : value (ld 0x10004 4) m0 = Some 0x1234567) by (vm_compute; reflexivity).
  assert (Hr : c_running (m_c m1) = true) by (vm_compute; reflexivity).
  destruct (compiled_rm_correct (fun _ => 0) false sample_add 0x400 0x1000 0x2000 sample_paged (sample_a64 0 0) sample_paged
    0x1234567 m1) as (st' & g' & G & [(m' & Hs & Hm & _) _]);
    [exact sample_add_ok|exact sample_paged_as|apply sample_sim|exact sample_paged_running|apply sample_ranges|rewrite sample_add_ea; exact (run_value _ _ _ Hv)|].
  rewrite Hr in G. exists st', g', m'. split; [exact G|]. split; [exact Hs|].
  rewrite Hr in Hm. destruct (but_hits_fields _ _ Hm) as (Hc & _). unfold reg. rewrite Hc. vm_compute. reflexivity.
Defined.

(** mov [rbx + 4], eax *)
Definition sample_mov : insn := iw_mo sample_memop (iw_op 0x88 (iw_kind K_MR (iw_size 4 zero_insn))).

Lemma sample_mov_ok : mov_ok sample_mov.
Proof.
  split; [by left|reflexivity| |done|right; right; by left|by apply sample_ea].
  intros _. change (greg 0). unfold greg. lia.
Qed.

Lemma sample_mov_ea : ref_ea sample_mov (reg sample_paged) = 0x10004 /\ mov_value sample_mov (reg sample_paged) = 5.
Proof. split; vm_compute; reflexivity. Qed.

Lemma compiled_mov_correct_witness :
  exists st' g' m', goes (call_c (fun _ => 0)) false (put_mr sample_mov 0x400) Through (sample_a64 0 0, sample_paged) (st', g') /\
    sim 0x1000 0x2000 m' st' g' /\ mem_of m' !! 0x10004 = Some 5.
Proof.
  set (m0 := upd_m (with_cur_rip 0x400) sample_paged). set (m1 := after (Machine.st 0x10004 5 4) m0).
  assert (Hv : value (Machine.st 0x10004 5 4) m0 = Some tt) by (vm_compute; reflexivity).
  assert (Hr : c_running (m_c m1) = true) by (vm_compute; reflexivity).
  assert (Hb : mem_of m1 !! 0x10004 = Some 5) by (vm_compute; reflexivity).
  destruct (compiled_mov_correct (fun _ => 0) false sample_mov 0x400 0x1000 0x2000 sample_paged (sample_a64 0 0) sample_paged
    m1) as (st' & g' & G & [(m' & Hs & Hm & _) _]);
    [exact sample_mov_ok|exact sample_paged_as|apply sample_sim|exact sample_paged_running|apply sample_ranges|exact sample_paged_nolog
    |rewrite (proj1 sample_mov_ea), (proj2 sample_mov_ea); exact (run_value _ _ _ Hv)|].
  rewrite Hr in G. exists st', g', m'. split; [exact G|]. split; [exact Hs|].
  destruct (but_hits_fields _ _ Hm) as (_ & Hw & _). unfold mem_of in *. rewrite Hw. exact Hb.
Defined.

(* ------------------------------------------------------------------ *)
(** ** A whole block *)

(** add eax, [rbx + 4]; mov [rbx + 16], eax; jmp [rbx] *)
Definition sample_body : list insn :=
  [iw_next 0x403 sample_add; iw_next 0x406 (iw_mo (MemOp true true false false 3 0 0 16) sample_mov)].
Definition sample_jump : insn := iw_mo (MemOp true true false false 3 0 0 0) (iw_kind K_JMPM (iw_next 0x408 zero_insn)).

(** The cpu at a call: a stack below 0x8000, a caller at 0x7000. *)
Definition sample_entry : astate :=
  AState (fun n => if n =? 19 then 0x1000 else if n =? 30 then 0x7000 else 0) 0x8000 (NZCV false false false false)
    (write_bytes (sample_laid sample_paged) 0x7FF0 (le_bytes 8 0)).

Lemma sample_entry_sim : sim 0x1000 0x2000 sample_paged sample_entry sample_paged.
Proof.
  apply (sim_agree _ _ _ (sample_a64 0 0)); [apply sample_sim|reflexivity|]. intros i Hi. unfold sample_entry. cbn [a_mem].
  apply write_bytes_outside. rewrite length_le_bytes. destruct Hi as [Hi|Hi%sample_guest_dom]; [unfold own in Hi|]; lia.
Qed.

Lemma sample_entry_slot : stack_slot 0x1000 0x2000 sample_paged sample_entry.
Proof.
  split; [done|vm_compute; by eexists| |done]. intros i Hi. cbn in Hi. split; [unfold own; lia|].
  apply eq_None_not_Some. intros Hs%sample_guest_dom. lia.
Qed.

Lemma sample_body_ok : Forall mem_insn (flag_liveness sample_body).
Proof.
  constructor; [|constructor; [|done]].
  - split; [reflexivity| |split; [intros _; change (greg 3); unfold greg; lia|done]|reflexivity].
    split; [right; right; by left|reflexivity| |right; by left|reflexivity]. change (greg 0). unfold greg. lia.
  - split; [by left|reflexivity| |done|right; right; by left|split; [intros _; change (greg 3); unfold greg; lia|done]].
    intros _. change (greg 0). unfold greg. lia.
Qed.

Lemma sample_body_at :
  in_reach (flag_liveness sample_body) 0x400 /\ urange 64 (block_end 0x400 (flag_liveness sample_body)) /\ urange 64 0x408.
Proof.
  assert (Hl : flag_liveness sample_body = (flag_liveness_from sample_body FL_ALL).1) by reflexivity. rewrite Hl.
  unfold sample_body, flag_liveness_from. cbn -[urange Z.pow]. unfold urange. lia.
Qed.

Lemma sample_jump_ok : mem_end (Some (iw_fneed 0 sample_jump)).
Proof. split; [done|]. split; [done|]. split; [intros _; change (greg 3); unfold greg; lia|done]. Qed.

Lemma sample_ready : ready false sample_paged.
Proof. split; [apply sample_paged_as|apply sample_paged_running|apply sample_paged_nolog]. Qed.

(** What the compiler leaves of it: the buffer, the place of the fault exit, and
    the buffer with that. *)
Definition sample_buf : buf * (Z * buf) :=
  match emit_block 4 false 0x400 (sample_body ++ [sample_jump]) true 0x408 with
  | Some (_, ended, pc, b) => (b, close_block ended pc (Buf (b_out b) MAX_BLOCK (b_full b) (b_check b) (b_fix b)))
  | None => (Buf [] 0 true false [], (0, Buf [] 0 true false []))
  end.

Lemma compiled_memory_block_correct_witness :
  exists code st' g' m', returns (fun _ => 0) code (sample_entry, sample_paged) 0x7000 (st', g') /\
    xr st' 0 = 0x123456700000000 /\ sim 0x1000 0x2000 m' st' g' /\ reg m' 0 = 0x123456C /\
    mem_of m' !! 0x10010 = Some 0x6C.
Proof.
  set (run := block_run all_flags (flag_liveness sample_body) (Some (iw_fneed 0 sample_jump)) 0x400 0x408).
  set (m1 := after run sample_paged).
  assert (Hv : value run sample_paged = Some 0x123456700000000) by (vm_compute; reflexivity).
  assert (Hr : c_running (m_c m1) = true) by (vm_compute; reflexivity).
  assert (Hb : mem_of m1 !! 0x10010 = Some 0x6C) by (vm_compute; reflexivity).
  assert (Ha : reg m1 0 = 0x123456C) by (vm_compute; reflexivity).
  assert (He : emit_block 4 false 0x400 (sample_body ++ [sample_jump]) true 0x408 =
    Some (flag_liveness sample_body ++ option_list (Some (iw_fneed 0 sample_jump)), true, 0x408, sample_buf.1))
    by (vm_compute; reflexivity).
  assert (Hcl : close_block true 0x408 (Buf (b_out sample_buf.1) MAX_BLOCK (b_full sample_buf.1) (b_check sample_buf.1)
    (b_fix sample_buf.1)) = (sample_buf.2.1, sample_buf.2.2)) by (vm_compute; reflexivity).
  assert (Hf : b_full sample_buf.2.2 = false) by (vm_compute; reflexivity).
  destruct (compiled_memory_block_correct (fun _ => 0) false 0x400 (sample_body ++ [sample_jump]) true 0x408
    (flag_liveness sample_body) (Some (iw_fneed 0 sample_jump)) true 0x408 _ _ _
    0x1000 0x2000 sample_paged sample_entry sample_paged 0x123456700000000 m1 He Hcl Hf eq_refl sample_body_ok sample_jump_ok
    (proj1 sample_body_at) (proj1 (proj2 sample_body_at)) (proj2 (proj2 sample_body_at)) sample_ready sample_entry_sim sample_entry_slot
    (run_value _ _ _ Hv)) as (st' & g' & R & X & [(m' & S' & _ & _ & Hm) _]).
  destruct (but_hits_fields _ _ (Hm Hr)) as (Hc & Hw & _). eexists _, st', g', m'. split; [exact R|]. split; [exact X|].
  split; [exact S'|]. split; [unfold reg; rewrite Hc; exact Ha|unfold mem_of in *; rewrite Hw; exact Hb].
Defined.

(** The same block, with all flags and with the needed ones. *)
Lemma block_flags_sound_witness :
  after (block_sem needed_flags (flag_liveness sample_body) 0x400) sample_paged = after (block_sem all_flags sample_body 0x400) sample_paged.
Proof.
  assert (Hc : Forall sem_covers sample_body).
  { constructor; [|constructor; [|done]]; (split; [right; right; by left|reflexivity]). }
  assert (Hr : c_running (m_c (after (block_sem all_flags sample_body 0x400) sample_paged)) = true) by (vm_compute; reflexivity).
  pose proof (block_flags_sound sample_body 0x400 sample_paged Hc sample_paged_running ltac:(done)) as Hb.
  unfold after in *. destruct (block_sem all_flags sample_body 0x400 sample_paged) as [[] m1|];
    destruct (block_sem needed_flags (flag_liveness sample_body) 0x400 sample_paged) as [[] m2|]; try contradiction; [|reflexivity].
  symmetry. apply Hb. exact Hr.
Defined.
