(* ===== verification/JitShown.v ===== *)
(** A block of code from its bytes to the machine the interpreter and the
    compiled words leave ([decode_block], [emit_block] and [rsd_jit_lookup] in
    [src/jit.c], [step] in [src/cpu.c]): the concrete run behind the theorem of
    [JitInterp]. *)
From S2P Require Import Prelude.
From S2P Require Import Memory.
From S2P Require Import AddressSpace.
From S2P Require Import SampleHost.
From S2P Require Import Flags.
From S2P Require Import Float.
From S2P Require Import Machine.
From S2P Require Import Access.
From S2P Require Import Decode.
From S2P Require Import Sse.
From S2P Require Import Step.
From S2P Require Import Keeps.
From S2P Require Import Safety.
From S2P Require Import Registers.
From S2P Require Import Encoding.
From S2P Require Import A64.
From S2P Require Import Emit.
From S2P Require Import Jit.
From S2P Require Import JitCache.
From S2P Require Import JitEmit.
From S2P Require Import JitInsn.
From S2P Require Import JitRun.
From S2P Require Import JitFlags.
From S2P Require Import JitRegs.
From S2P Require Import JitLive.
From S2P Require Import JitBlock.
From S2P Require Import JitCompile.
From S2P Require Import JitArena.
From S2P Require Import JitAgree.
From S2P Require Import JitRel.
From S2P Require Import JitSem.
From S2P Require Import JitCode.
From S2P Require Import JitMem.
From S2P Require Import JitWorld.
From S2P Require Import JitAccess.
From S2P Require Import JitRoutines.
From S2P Require Import JitOps.
From S2P Require Import JitDoes.
From S2P Require Import JitRmw.
From S2P Require Import JitWhole.
From S2P Require Import JitDecode.
From S2P Require Import JitReads.
From S2P Require Import JitSame.
From S2P Require Import JitAccept.
From S2P Require Import JitEnds.
From S2P Require Import JitExit.
From S2P Require Import JitReturn.
From S2P Require Import JitSample.
From S2P Require Import JitInterp.

#[local] Existing Instance sample_host.
#[local] Existing Instance sample_linked.
#[local] Existing Instance sample_link_ok.

(** imul ecx, [rbx + 4], 7; shr ecx, 3; add eax, ecx; cmp al, 0; jne +5 *)
Definition coded_bytes : list Z := [0x6B; 0x4B; 0x04; 0x07; 0xC1; 0xE9; 0x03; 0x01; 0xC8; 0x3C; 0x00; 0x75; 0x05].
Definition coded_map : gmap Z Z := write_bytes ∅ 0x10020 coded_bytes.

(** A page of code and constants: read and execute.  rax is 5, rbx the page. *)
Definition coded_machine : machine :=
  Machine (with_r (<[0%nat := 5]> (<[3%nat := 0x10000]> (replicate 16 0))) (reset_cpu 0x10020))
    (rsd_as_note (As [Region 0x10000 0x11000 5] 16 no_hits no_hits) 0x10000 RSD_PROT_R)
    (World tt (write_bytes (write_bytes (zero_range 0x10000 256) 0x10000 [0; 0; 0; 0; 0x67; 0x45; 0x23; 0x01]) 0x10020 coded_bytes)) [] [].

Definition coded_entry : astate :=
  AState (fun n => if n =? 19 then 0x1000 else if n =? 30 then 0x7000 else 0) 0x8000 (NZCV false false false false)
    (write_bytes (sample_laid coded_machine) 0x7FF0 (le_bytes 8 0)).

Lemma coded_dom i : is_Some (mem_of coded_machine !! i) -> 0x10000 <= i < 0x10100.
Proof.
  change (mem_of coded_machine) with (write_bytes (write_bytes (zero_range 0x10000 256) 0x10000 [0; 0; 0; 0; 0x67; 0x45; 0x23; 0x01]) 0x10020 coded_bytes).
  intros [[Hs|Hs]%write_bytes_mapped|Hs]%write_bytes_mapped; [|cbn in Hs; lia..]. rewrite lookup_zero_range in Hs. case_decide; [lia|]. by destruct Hs.
Qed.

Lemma coded_mem_ok : mem_ok (mem_of coded_machine).
Proof.
  do 2 (apply mem_ok_write; [|by repeat constructor]). intros i x. rewrite lookup_zero_range. case_decide; [|done]. by intros [= <-].
Qed.

Lemma coded_sub : coded_map ⊆ mem_of coded_machine.
Proof.
  apply map_subseteq_spec. intros i x. unfold coded_map, coded_machine, mem_of. cbn [m_w w_mem]. rewrite !write_bytes_lookup.
  case_decide; [done|]. by rewrite lookup_empty.
Qed.

Lemma coded_sim : sim 0x1000 0x2000 coded_machine coded_entry coded_machine.
Proof.
  apply (sim_agree _ _ _ (AState (a_x coded_entry) 0x8000 (a_fl coded_entry) (sample_laid coded_machine))); [|reflexivity|].
  - laid_sim coded_dom coded_mem_ok.
  - intros i Hi. unfold coded_entry. cbn [a_mem]. apply write_bytes_outside. rewrite length_le_bytes.
    destruct Hi as [Hi|Hi%coded_dom]; [unfold own in Hi|]; lia.
Qed.

Lemma coded_slot : stack_slot 0x1000 0x2000 coded_machine coded_entry.
Proof.
  split; [done|vm_compute; by eexists| |done]. intros i Hi. cbn in Hi. split; [unfold own; lia|].
  apply eq_None_not_Some. intros Hs%coded_dom. lia.
Qed.

Lemma coded_as : as_inv (m_as coded_machine).
Proof. unfold coded_machine. cbn [m_as]. apply as_inv_note. repeat split; cbn; try lia; by left. Qed.

Lemma coded_types : cpu_wf (m_c coded_machine).
Proof.
  destruct (reset_cpu_wf 0x10020) as [_ H1 H2 H3 H4 H5 H6 H7]. split; try done. split; [done|]. cbn. repeat constructor; done.
Qed.

Lemma coded_runs : runs coded_map 0x10020 coded_machine.
Proof.
  split; [exact coded_types|done|exact coded_as| |exact coded_mem_ok|exact coded_sub| |done].
  - apply plain_readable; [exact coded_as|]. intros b q. change (as_reg (m_as coded_machine)) with [Region 0x10000 0x11000 5].
    rewrite prot_at_cons. case_decide; [by intros [= <-]|done].
  - intros i Hi. apply write_bytes_mapped in Hi as [[? Hi]|Hi]; [by rewrite lookup_empty in Hi|]. cbn in Hi.
    change (protected (As [Region 0x10000 0x11000 5] 16 no_hits no_hits) i).
    assert (Hp : forall x, 0x10000 <= x < 0x11000 -> prot_at [Region 0x10000 0x11000 5] x = Some 5).
    { intros x Hx. rewrite prot_at_cons. by rewrite decide_True. }
    split; [exists 5; split; [apply Hp; lia|done]|]. intros x Hx. rewrite Hp by lia. by eexists.
Qed.

Lemma coded_ready : ready false coded_machine.
Proof. split; [exact coded_as|done|done]. Qed.

(** What the compiler reads and emits. *)
Definition coded_block : list insn * bool * Z :=
  default ([], false, 0) (value (decode_block MAX_INSNS 0x10020) (with_mem coded_map coded_machine)).
Definition coded_emitted : list insn * buf * (Z * buf) :=
  let '(v, ended, pc) := coded_block in
  match emit_block (S (length v)) false 0x10020 v ended pc with
  | Some (v, ended, pc, b) => (v, b, close_block ended pc (Buf (b_out b) MAX_BLOCK (b_full b) (b_check b) (b_fix b)))
  | None => ([], Buf [] 0 true false [], (0, Buf [] 0 true false []))
  end.

(** The interpreter's five steps and the compiled block: both leave
    5 + 7 * 0x1234567 / 8 in rax, compare its lowest byte and go on at 0x10032. *)
Lemma compiled_block_interprets_witness :
  exists code st' g' m1, returns (fun _ => 0) code (coded_entry, coded_machine) 0x7000 (st', g') /\ xr st' 0 = 0x10032 /\
    reg m1 0 = 16702655 /\ same_but_rips m1 (after (interpreted (H0 := Build_HostFloat id id) 5) coded_machine).
Proof.
  set (I := interpreted (H0 := Build_HostFloat id id) 5). set (mI := after I coded_machine).
  set (v := coded_block.1.1). set (u := take 4 coded_emitted.1.1).
  assert (Hv : value I coded_machine = Some tt) by (vm_compute; reflexivity).
  assert (Hd : value (decode_block MAX_INSNS 0x10020) (with_mem coded_map coded_machine) = Some (v, true, 0x1002D)) by (vm_compute; reflexivity).
  set (t := default zero_insn (coded_emitted.1.1 !! 4%nat)).
  assert (He : emit_block 6 false 0x10020 v true 0x1002D = Some (u ++ option_list (Some t), true, 0x1002D, coded_emitted.1.2))
    by (vm_compute; reflexivity).
  assert (Hcl : close_block true 0x1002D (Buf (b_out coded_emitted.1.2) MAX_BLOCK (b_full coded_emitted.1.2) (b_check coded_emitted.1.2)
    (b_fix coded_emitted.1.2)) = (coded_emitted.2.1, coded_emitted.2.2)) by (vm_compute; reflexivity).
  assert (Hf : b_full coded_emitted.2.2 = false) by (vm_compute; reflexivity).
  assert (Hu : Forall body_insn u) by (vm_compute; repeat constructor; done).
  assert (Hlen : length v = 5%nat) by (vm_compute; reflexivity).
  destruct (compiled_block_interprets (H2 := Build_HostFloat id id) (fun _ => 0) false coded_map 0x10020 coded_machine v true 0x1002D _ u (Some t)
    true 0x1002D _ _ _ 0x1000 0x2000 coded_machine coded_entry coded_machine mI (run_value _ _ _ Hd) ltac:(rewrite Hlen; exact He) Hcl Hf eq_refl Hu
    coded_runs coded_ready coded_sim coded_slot (run_value _ _ _ Hv)) as (st' & g' & m1 & R & _ & _ & Hcase).
  assert (Hr : c_running (m_c mI) && (c_rip (m_c mI) =? 0x10032) && (reg mI 0 =? 16702655) = true) by (vm_compute; reflexivity).
  apply andb_true_iff in Hr as [[Hr Hp%Z.eqb_eq]%andb_true_iff Ha%Z.eqb_eq]. rewrite Hr in Hcase. destruct Hcase as [Hs Hx].
  eexists _, st', g', m1. split; [exact R|]. split; [by rewrite Hx|]. split; [|exact Hs].
  rewrite <- Ha. exact (f_equal (fun m => reg m 0) Hs).
Defined.
