(* ===== verification/Image.v ===== *)
(** Loading an image ([src/macho.c], the structures of [src/macho.h]): finding
    the x86-64 slice, the walk over its load commands, placing its segments.
    The file is mapped into host memory and read where it lies, as in the code;
    field offsets and numbers are those of Apple's [mach-o/loader.h] and
    [mach-o/fat.h].  Opening and mapping files is a parameter, [HostFiles]. *)
From Stdlib Require Import Ascii.
From S2P Require Import Prelude.
From S2P Require Import Memory.
From S2P Require Import AddressSpace.
From S2P Require Import Flags.
From S2P Require Import Stubs.
From S2P Require Import Machine.

(* ------------------------------------------------------------------ *)
(** ** Data *)

Definition RSD_MAX_SEGS : Z := 16.
Definition RSD_MAX_SECTS : Z := 64.
Definition RSD_MAX_DYLIBS : Z := 128.

(** A name is the sixteen bytes in front of the terminator the code adds. *)
Record rsd_seg := Seg {
  sg_name : list Z; sg_vmaddr : Z; sg_vmsize : Z; sg_fileoff : Z; sg_filesize : Z;
  sg_initprot : Z; sg_maxprot : Z
}.

Record rsd_sect := Sect { sc_seg : list Z; sc_name : list Z; sc_addr : Z; sc_size : Z }.

(** The library of an import: a place in a path of the image, or the literal
    ["?"]. *)
Inductive libname :=
| lib_at (p : Z)
| lib_unknown.

(** [imp_name] and [imp_native] are pointers. *)
Record rsd_import := Import {
  imp_name : Z; imp_lib : libname; imp_weak : bool; imp_used : bool;
  imp_native : Z; imp_is_code : bool
}.

(** [nsegs], [nsects], [ndylibs] and [nimports] are the lengths of the lists;
    [path] is only printed. *)
Record rsd_image := Image {
  im_file : Z;
  im_filesz : Z;
  im_slice_off : Z;
  im_segs : list rsd_seg;
  im_sects : list rsd_sect;
  im_dylibs : list Z;
  im_pref_base : Z;
  im_slide : Z;
  im_entry : Z;
  im_pie : bool;
  im_has_main : bool;
  im_fixups_off : Z;
  im_fixups_size : Z;
  im_imports : list rsd_import;
  im_stub_base : Z
}.

Definition im_with_file (v : Z) (i : rsd_image) : rsd_image :=
  Image v (im_filesz i) (im_slice_off i) (im_segs i) (im_sects i) (im_dylibs i) (im_pref_base i)
    (im_slide i) (im_entry i) (im_pie i) (im_has_main i) (im_fixups_off i) (im_fixups_size i)
    (im_imports i) (im_stub_base i).
Definition im_with_filesz (v : Z) (i : rsd_image) : rsd_image :=
  Image (im_file i) v (im_slice_off i) (im_segs i) (im_sects i) (im_dylibs i) (im_pref_base i)
    (im_slide i) (im_entry i) (im_pie i) (im_has_main i) (im_fixups_off i) (im_fixups_size i)
    (im_imports i) (im_stub_base i).
Definition im_with_slice_off (v : Z) (i : rsd_image) : rsd_image :=
  Image (im_file i) (im_filesz i) v (im_segs i) (im_sects i) (im_dylibs i) (im_pref_base i)
    (im_slide i) (im_entry i) (im_pie i) (im_has_main i) (im_fixups_off i) (im_fixups_size i)
    (im_imports i) (im_stub_base i).
Definition im_with_segs (v : list rsd_seg) (i : rsd_image) : rsd_image :=
  Image (im_file i) (im_filesz i) (im_slice_off i) v (im_sects i) (im_dylibs i) (im_pref_base i)
    (im_slide i) (im_entry i) (im_pie i) (im_has_main i) (im_fixups_off i) (im_fixups_size i)
    (im_imports i) (im_stub_base i).
Definition im_with_sects (v : list rsd_sect) (i : rsd_image) : rsd_image :=
  Image (im_file i) (im_filesz i) (im_slice_off i) (im_segs i) v (im_dylibs i) (im_pref_base i)
    (im_slide i) (im_entry i) (im_pie i) (im_has_main i) (im_fixups_off i) (im_fixups_size i)
    (im_imports i) (im_stub_base i).
Definition im_with_dylibs (v : list Z) (i : rsd_image) : rsd_image :=
  Image (im_file i) (im_filesz i) (im_slice_off i) (im_segs i) (im_sects i) v (im_pref_base i)
    (im_slide i) (im_entry i) (im_pie i) (im_has_main i) (im_fixups_off i) (im_fixups_size i)
    (im_imports i) (im_stub_base i).
Definition im_with_pref_base (v : Z) (i : rsd_image) : rsd_image :=
  Image (im_file i) (im_filesz i) (im_slice_off i) (im_segs i) (im_sects i) (im_dylibs i) v
    (im_slide i) (im_entry i) (im_pie i) (im_has_main i) (im_fixups_off i) (im_fixups_size i)
    (im_imports i) (im_stub_base i).
Definition im_with_slide (v : Z) (i : rsd_image) : rsd_image :=
  Image (im_file i) (im_filesz i) (im_slice_off i) (im_segs i) (im_sects i) (im_dylibs i)
    (im_pref_base i) v (im_entry i) (im_pie i) (im_has_main i) (im_fixups_off i) (im_fixups_size i)
    (im_imports i) (im_stub_base i).
Definition im_with_entry (v : Z) (i : rsd_image) : rsd_image :=
  Image (im_file i) (im_filesz i) (im_slice_off i) (im_segs i) (im_sects i) (im_dylibs i)
    (im_pref_base i) (im_slide i) v (im_pie i) (im_has_main i) (im_fixups_off i) (im_fixups_size i)
    (im_imports i) (im_stub_base i).
Definition im_with_pie (v : bool) (i : rsd_image) : rsd_image :=
  Image (im_file i) (im_filesz i) (im_slice_off i) (im_segs i) (im_sects i) (im_dylibs i)
    (im_pref_base i) (im_slide i) (im_entry i) v (im_has_main i) (im_fixups_off i) (im_fixups_size
    i) (im_imports i) (im_stub_base i).
Definition im_with_has_main (v : bool) (i : rsd_image) : rsd_image :=
  Image (im_file i) (im_filesz i) (im_slice_off i) (im_segs i) (im_sects i) (im_dylibs i)
    (im_pref_base i) (im_slide i) (im_entry i) (im_pie i) v (im_fixups_off i) (im_fixups_size i)
    (im_imports i) (im_stub_base i).
Definition im_with_fixups_off (v : Z) (i : rsd_image) : rsd_image :=
  Image (im_file i) (im_filesz i) (im_slice_off i) (im_segs i) (im_sects i) (im_dylibs i)
    (im_pref_base i) (im_slide i) (im_entry i) (im_pie i) (im_has_main i) v (im_fixups_size i)
    (im_imports i) (im_stub_base i).
Definition im_with_fixups_size (v : Z) (i : rsd_image) : rsd_image :=
  Image (im_file i) (im_filesz i) (im_slice_off i) (im_segs i) (im_sects i) (im_dylibs i)
    (im_pref_base i) (im_slide i) (im_entry i) (im_pie i) (im_has_main i) (im_fixups_off i) v
    (im_imports i) (im_stub_base i).
Definition im_with_imports (v : list rsd_import) (i : rsd_image) : rsd_image :=
  Image (im_file i) (im_filesz i) (im_slice_off i) (im_segs i) (im_sects i) (im_dylibs i)
    (im_pref_base i) (im_slide i) (im_entry i) (im_pie i) (im_has_main i) (im_fixups_off i)
    (im_fixups_size i) v (im_stub_base i).
Definition im_with_stub_base (v : Z) (i : rsd_image) : rsd_image :=
  Image (im_file i) (im_filesz i) (im_slice_off i) (im_segs i) (im_sects i) (im_dylibs i)
    (im_pref_base i) (im_slide i) (im_entry i) (im_pie i) (im_has_main i) (im_fixups_off i)
    (im_fixups_size i) (im_imports i) v.

Definition MAP_FAILED : Z := 2 ^ 64 - 1.
Definition zero_image : rsd_image := Image 0 0 0 [] [] [] 0 0 0 false false 0 0 [] 0.

Definition MH_MAGIC_64 : Z := 0xfeedfacf.
Definition MH_CIGAM_64 : Z := 0xcffaedfe.
Definition FAT_MAGIC : Z := 0xcafebabe.
Definition FAT_CIGAM : Z := 0xbebafeca.
Definition CPU_TYPE_X86_64 : Z := 0x01000007.
Definition MH_PIE : Z := 0x200000.
Definition LC_SEGMENT_64 : Z := 0x19.
Definition LC_UNIXTHREAD : Z := 0x5.
Definition LC_MAIN : Z := 0x80000028.
Definition LC_DYLD_CHAINED_FIXUPS : Z := 0x80000034.
Definition LC_LOAD_DYLIB : Z := 0xc.
Definition LC_LOAD_WEAK_DYLIB : Z := 0x80000018.
Definition LC_REEXPORT_DYLIB : Z := 0x8000001f.

(** The bytes of a string literal. *)
Fixpoint literal (s : string) : list Z :=
  match s with
  | EmptyString => []
  | String c s => Z.of_nat (nat_of_ascii c) :: literal s
  end.

(** What a C string function sees of an array: the bytes in front of a NUL. *)
Fixpoint cstr (bs : list Z) : list Z :=
  match bs with
  | [] => []
  | b :: bs => if b =? 0 then [] else b :: cstr bs
  end.

Definition bswap32 (v : Z) : Z := le_val (rev (le_bytes 4 v)).

(** Files: [open], [fstat] and [mmap] of a descriptor. *)
Class HostFiles `{HostOS} := {
  h_open : host -> list Z -> Z * host;
  h_fstat : host -> Z -> option Z * host;
  h_mmap_file : host -> gmap Z Z -> Z -> Z -> option Z * (host * gmap Z Z)
}.

(* ------------------------------------------------------------------ *)
(** ** The file *)

Section file.
Context `{HostOS}.

(** [strcmp(a, s) == 0]. *)
Fixpoint strcmp_is (a : Z) (s : list Z) : M bool :=
  match s with
  | [] => b ← host_read a 1; mret (b =? 0)
  | c :: s => b ← host_read a 1; if b =? c then strcmp_is (a + 1) s else mret false
  end.

(** The loop over the architectures of a fat file. *)
Fixpoint fat_slice (n : nat) (fa : Z) : M (option Z) :=
  match n with
  | O => mret None
  | S n =>
      cputype ← host_read fa 4;
      if bswap32 cputype =? CPU_TYPE_X86_64
      then off ← host_read (fa + 8) 4; mret (Some (bswap32 off))
      else fat_slice n (fa + 20)
  end.

(** The offset of the slice, [None] for -1. *)
Definition find_slice (f sz : Z) : M (option Z) :=
  if sz <? 4 then mret None else
  magic ← host_read f 4;
  if is_one_of magic [MH_MAGIC_64; MH_CIGAM_64] then
    cputype ← host_read (f + 4) 4;
    mret (if cputype =? CPU_TYPE_X86_64 then Some 0 else None)
  else if is_one_of magic [FAT_MAGIC; FAT_CIGAM] then
    n ← host_read (f + 4) 4;
    fat_slice (Z.to_nat (bswap32 n)) (f + 8)
  else mret None.

(* ------------------------------------------------------------------ *)
(** ** Load commands *)

(** The loop over the sections of a segment; what the table has no room for is
    left out. *)
Fixpoint read_sects (n : nat) (sec : Z) (l : list rsd_sect) : M (list rsd_sect) :=
  match n with
  | O => mret l
  | S n =>
      if RSD_MAX_SECTS <=? Z.of_nat (length l) then mret l else
      segname ← host_bytes (sec + 16) 16;
      sectname ← host_bytes sec 16;
      addr ← host_read (sec + 32) 8;
      size ← host_read (sec + 40) 8;
      read_sects n (sec + 80) (l ++ [Sect segname sectname addr size])
  end.

(** [LC_SEGMENT_64]; [None] when the table is full. *)
Definition load_segment (lc : Z) (i : rsd_image) : M (option rsd_image) :=
  zero ← strcmp_is (lc + 8) (literal "__PAGEZERO");
  if (zero : bool) then mret (Some i) else
  if RSD_MAX_SEGS <=? Z.of_nat (length (im_segs i)) then mret None else
  name ← host_bytes (lc + 8) 16;
  vmaddr ← host_read (lc + 24) 8;
  vmsize ← host_read (lc + 32) 8;
  fileoff ← host_read (lc + 40) 8;
  filesize ← host_read (lc + 48) 8;
  initprot ← host_read (lc + 60) 4;
  maxprot ← host_read (lc + 56) 4;
  let i := im_with_segs (im_segs i ++ [Seg name vmaddr vmsize fileoff filesize initprot maxprot]) i in
  text ← strcmp_is (lc + 8) (literal "__TEXT");
  let i := if (text : bool) then im_with_pref_base vmaddr i else i in
  nsects ← host_read (lc + 64) 4;
  sects ← read_sects (Z.to_nat nsects) (lc + 72) (im_sects i);
  mret (Some (im_with_sects sects i)).

(** The state of the walk: the image, [entry_off] and [got_entry]. *)
Abbreviation loading := (rsd_image * Z * bool)%type (only parsing).

Definition load_command (lc : Z) (st : loading) : M (option loading) :=
  let '(i, entry_off, got) := st in
  cmd ← host_read lc 4;
  if cmd =? LC_SEGMENT_64 then
    i ← load_segment lc i; mret ((fun i => (i, entry_off, got)) <$> i)
  else if cmd =? LC_MAIN then
    off ← host_read (lc + 8) 8; mret (Some (im_with_has_main true i, off, true))
  else if cmd =? LC_UNIXTHREAD then
    rip ← host_read (lc + 8 + 8 + 16 * 8) 8; mret (Some (im_with_has_main false i, rip, true))
  else if cmd =? LC_DYLD_CHAINED_FIXUPS then
    off ← host_read (lc + 8) 4;
    size ← host_read (lc + 12) 4;
    mret (Some (im_with_fixups_size size (im_with_fixups_off off i), entry_off, got))
  else if is_one_of cmd [LC_LOAD_DYLIB; LC_LOAD_WEAK_DYLIB; LC_REEXPORT_DYLIB] then
    if Z.of_nat (length (im_dylibs i)) <? RSD_MAX_DYLIBS then
      off ← host_read (lc + 8) 4;
      mret (Some (im_with_dylibs (im_dylibs i ++ [lc + off]) i, entry_off, got))
    else mret (Some st)
  else mret (Some st).

Fixpoint load_commands (n : nat) (lc : Z) (st : loading) : M (option loading) :=
  match n with
  | O => mret (Some st)
  | S n =>
      r ← load_command lc st;
      match r with
      | None => mret None
      | Some st => size ← host_read (lc + 4) 4; load_commands n (lc + size) st
      end
  end.
End file.

(* ------------------------------------------------------------------ *)
(** ** Placing the image *)

(** The span of the segments. *)
Definition span_lo (segs : list rsd_seg) : Z :=
  foldl (fun lo s => if sg_vmaddr s <? lo then sg_vmaddr s else lo) (2 ^ 64 - 1) segs.
Definition span_hi (segs : list rsd_seg) : Z :=
  foldl (fun hi s => let e := u64 (sg_vmaddr s + sg_vmsize s) in if hi <? e then e else hi) 0 segs.

Section place.
Context `{HostOS}.

Fixpoint copy_segs (slice slide : Z) (segs : list rsd_seg) : M unit :=
  match segs with
  | [] => mret tt
  | s :: segs =>
      when (nz (sg_filesize s))
        (bs ← host_bytes (slice + sg_fileoff s) (sg_filesize s);
         host_store (u64 (sg_vmaddr s + slide)) bs);;
      copy_segs slice slide segs
  end.

Fixpoint protect_segs (slide : Z) (segs : list rsd_seg) : M unit :=
  match segs with
  | [] => mret tt
  | s :: segs =>
      as_ ← gets m_as; w ← gets m_w;
      set_as (rsd_as_protect w as_ (u64 (sg_vmaddr s + slide)) (sg_vmsize s) (sg_initprot s .& 7)).2;;
      protect_segs slide segs
  end.

(** [rsd_unload]. *)
Definition rsd_unload (i : rsd_image) : M rsd_image :=
  (if nz (im_file i) && negb (im_file i =? MAP_FAILED) then
     w ← gets m_w;
     let '(_, (h, mem)) := h_munmap (w_host w) (w_mem w) (im_file i) (im_filesz i) in
     set_world (World h mem)
   else mret tt);;
  mret (im_with_imports [] (im_with_file 0 i)).

(** [goto fail]. *)
Definition load_failed (i : rsd_image) : M (Z * rsd_image) :=
  i ← rsd_unload i; mret (-1, i).

(** Pass 2. *)
Definition place_image (slice : Z) (st : rsd_image * Z * bool) : M (Z * rsd_image) :=
  let '(i, entry_off, got) := st in
  if bool_decide (im_segs i = []) || negb got then load_failed i else
  let lo := span_lo (im_segs i) in
  let hi := span_hi (im_segs i) in
  as_ ← gets m_as; w ← gets m_w;
  let '(base, as_, w) := rsd_as_map w as_ lo (u64 (hi - lo)) (RSD_PROT_R .| RSD_PROT_W) (negb (im_pie i)) in
  set_as as_;; set_world w;;
  if negb (nz base) then load_failed i else
  let i := im_with_slide (u64 (base - lo)) i in
  copy_segs slice (im_slide i) (im_segs i);;
  protect_segs (im_slide i) (im_segs i);;
  mret (0, im_with_entry (u64 ((if im_has_main i then im_pref_base i + entry_off else entry_off)
                               + im_slide i)) i).

(** Pass 1, over the mapped file. *)
Definition load_slices (i : rsd_image) : M (Z * rsd_image) :=
  off ← find_slice (im_file i) (im_filesz i);
  match off with
  | None => load_failed i
  | Some off =>
      let slice := im_file i + off in
      flags ← host_read (slice + 24) 4;
      let i := im_with_pie (nz (flags .& MH_PIE)) (im_with_slice_off off i) in
      ncmds ← host_read (slice + 16) 4;
      st ← load_commands (Z.to_nat ncmds) (slice + 32) (i, 0, false);
      match st with
      | None => load_failed i
      | Some st => place_image slice st
      end
  end.

Context `{!HostFiles}.

(** The C result and the image. *)
Definition rsd_load (path : list Z) : M (Z * rsd_image) :=
  w ← gets m_w;
  let '(fd, h) := h_open (w_host w) path in
  set_world (World h (w_mem w));;
  if fd <? 0 then mret (-1, zero_image) else
  let '(st, h) := h_fstat h fd in
  match st with
  | None => let '(_, h) := h_close h fd in set_world (World h (w_mem w));; mret (-1, zero_image)
  | Some filesz =>
      let '(p, (h, mem)) := h_mmap_file h (w_mem w) fd filesz in
      let '(_, h) := h_close h fd in
      set_world (World h mem);;
      match p with
      | None => mret (-1, im_with_file MAP_FAILED (im_with_filesz filesz zero_image))
      | Some file => load_slices (im_with_file file (im_with_filesz filesz zero_image))
      end
  end.
End place.

(** The section of that name. *)
Fixpoint find_sect (l : list rsd_sect) (name : list Z) : option rsd_sect :=
  match l with
  | [] => None
  | s :: l => if bool_decide (cstr (sc_name s) = name) then Some s else find_sect l name
  end.

Definition rsd_find_sect (i : rsd_image) (name : list Z) : option rsd_sect := find_sect (im_sects i) name.
