(* ===== verification/Resolve.v ===== *)
(** Binding imports to native symbols ([addr_is_code] and [rsd_resolve_imports]
    in [src/thunk.c]).  The dynamic loader is a parameter, [DynLoader]. *)
From S2P Require Import Prelude.
From S2P Require Import Memory.
From S2P Require Import AddressSpace.
From S2P Require Import Flags.
From S2P Require Import Machine.
From S2P Require Import Image.

(** [dlopen] and [dlsym] are given the bytes of the name, [dladdr] answers with
    [dli_fbase]; 0 is NULL, and what [dladdr] gives when it finds nothing. *)
Class DynLoader `{HostOS} := {
  dl_open : world -> list Z -> world;
  dl_sym : world -> list Z -> Z;
  dl_base : world -> Z -> Z
}.

Definition S_ATTR_PURE_INSTRUCTIONS : Z := 0x80000000.
Definition S_ATTR_SOME_INSTRUCTIONS : Z := 0x400.

Section strings.
Context `{HostOS}.

(** The bytes of the C string at [a]; the fuel is the bytes that are mapped, and
    each turn needs a further one. *)
Fixpoint c_string_from (fuel : nat) (a : Z) : M (list Z) :=
  match fuel with
  | O => raise OutOfFuel
  | S fuel =>
      b ← host_read a 1;
      if b =? 0 then mret [] else bs ← c_string_from fuel (a + 1); mret (b :: bs)
  end.

Definition c_string (a : Z) : M (list Z) := m ← gets id; c_string_from (S (size (w_mem (m_w m)))) a.
End strings.

Section resolve.
Context `{HostOS}.

(** The first loop of [addr_is_code]: the address [__TEXT] was linked at, 0
    where there is none. *)
Fixpoint text_vmaddr (n : nat) (lc : Z) : M Z :=
  match n with
  | O => mret 0
  | S n =>
      cmd ← host_read lc 4;
      text ← (if cmd =? LC_SEGMENT_64 then strcmp_is (lc + 8) (literal "__TEXT") else mret false);
      if (text : bool) then host_read (lc + 24) 8
      else size ← host_read (lc + 4) 4; text_vmaddr n (lc + size)
  end.

(** The sections of a segment: the flags of the one that holds [target]. *)
Fixpoint sect_flags (n : nat) (sec slide target : Z) : M (option Z) :=
  match n with
  | O => mret None
  | S n =>
      addr ← host_read (sec + 32) 8;
      size ← host_read (sec + 40) 8;
      let s := u64 (addr + slide) in
      if (s <=? target) && (target <? u64 (s + size))
      then flags ← host_read (sec + 64) 4; mret (Some flags)
      else sect_flags n (sec + 80) slide target
  end.

(** The second loop. *)
Fixpoint holder_flags (n : nat) (lc slide target : Z) : M (option Z) :=
  match n with
  | O => mret None
  | S n =>
      cmd ← host_read lc 4;
      r ← (if cmd =? LC_SEGMENT_64 then
             nsects ← host_read (lc + 64) 4; sect_flags (Z.to_nat nsects) (lc + 72) slide target
           else mret None);
      match r with
      | Some flags => mret (Some flags)
      | None => size ← host_read (lc + 4) 4; holder_flags n (lc + size) slide target
      end
  end.

Context `{!DynLoader}.

Definition addr_is_code (p : Z) : M bool :=
  w ← gets m_w;
  let mh := dl_base w p in
  if negb (nz mh) then mret true else
  magic ← host_read mh 4;
  if negb (magic =? MH_MAGIC_64) then mret true else
  ncmds ← host_read (mh + 16) 4;
  text_vm ← text_vmaddr (Z.to_nat ncmds) (mh + 32);
  flags ← holder_flags (Z.to_nat ncmds) (mh + 32) (u64 (mh - text_vm)) p;
  mret (match flags with
        | Some flags => nz (flags .& (S_ATTR_PURE_INSTRUCTIONS .| S_ATTR_SOME_INSTRUCTIONS))
        | None => true
        end).

Fixpoint load_dependencies (dylibs : list Z) : M unit :=
  match dylibs with
  | [] => mret tt
  | p :: dylibs =>
      path ← c_string p;
      w ← gets m_w; set_world (dl_open w path);;
      load_dependencies dylibs
  end.

(** [n[0] == '_' ? n + 1 : n]. *)
Definition skip_underscore (n : Z) : M Z := b ← host_read n 1; mret (if b =? 95 then n + 1 else n).

Definition resolve_import (im : rsd_import) : M rsd_import :=
  n ← skip_underscore (imp_name im);
  name ← c_string n;
  w ← gets m_w;
  let native := dl_sym w name in
  is_code ← (if nz native then addr_is_code native else mret true);
  mret (Import (imp_name im) (imp_lib im) (imp_weak im) (imp_used im) native is_code).

Fixpoint resolve_each (ims : list rsd_import) : M (list rsd_import) :=
  match ims with
  | [] => mret []
  | im :: ims => im ← resolve_import im; ims ← resolve_each ims; mret (im :: ims)
  end.

Definition rsd_resolve_imports (i : rsd_image) : M rsd_image :=
  load_dependencies (im_dylibs i);;
  ims ← resolve_each (im_imports i); mret (im_with_imports ims i).
End resolve.
