(* ===== verification/Fixups.v ===== *)
(** Chained fixups ([src/fixups.c]): the import table of the image, the walk
    along the chains of pointers that rebases and binds them, and the table of
    stubs.  Field offsets and numbers are those of Apple's
    [mach-o/fixup-chains.h]. *)
From Stdlib Require Import Ascii.
From S2P Require Import Prelude.
From S2P Require Import Memory.
From S2P Require Import AddressSpace.
From S2P Require Import Flags.
From S2P Require Import Stubs.
From S2P Require Import Machine.
From S2P Require Import Image.
From S2P Require Import Resolve.

Definition DYLD_CHAINED_IMPORT : Z := 1.
Definition DYLD_CHAINED_PTR_64 : Z := 2.
Definition DYLD_CHAINED_PTR_64_OFFSET : Z := 6.
Definition DYLD_CHAINED_PTR_START_NONE : Z := 0xFFFF.

(** The bit fields of a C structure: [n] bits from [at_]. *)
Definition field (v at_ n : Z) : Z := (v >> at_) .& Z.ones n.

(** What [strrchr(p, '/')] finds, as a distance. *)
Fixpoint last_slash (i : Z) (bs : list Z) (found : option Z) : option Z :=
  match bs with
  | [] => found
  | b :: bs => last_slash (i + 1) bs (if b =? 47 then Some i else found)
  end.

Definition mark_used (im : rsd_import) : rsd_import :=
  Import (imp_name im) (imp_lib im) (imp_weak im) true (imp_native im) (imp_is_code im).

Section fixups.
Context `{HostOS}.

Definition ordinal_lib (dylibs : list Z) (ord : Z) : M libname :=
  match (if 1 <=? ord then dylibs !! Z.to_nat (ord - 1) else None) with
  | None => mret lib_unknown
  | Some p =>
      bs ← c_string p;
      mret (lib_at (match last_slash 0 bs None with Some i => p + i + 1 | None => p end))
  end.

(** The loop of [parse_imports] over the packed imports at [imp]. *)
Fixpoint read_imports (n : nat) (imp syms : Z) (dylibs : list Z) : M (list rsd_import) :=
  match n with
  | O => mret []
  | S n =>
      v ← host_read imp 4;
      lib ← ordinal_lib dylibs (field v 0 8);
      ims ← read_imports n (imp + 4) syms dylibs;
      mret (Import (syms + field v 9 23) lib (nz (field v 8 1)) false 0 false :: ims)
  end.

Definition sizeof_import : Z := 40.

(** Whether [calloc(n, size)] succeeds. *)
Definition calloc_ok (w : world) (n size : Z) : bool :=
  (n * size <? 2 ^ 64) && h_alloc (w_host w) (n * size).

(** [None] for -1. *)
Definition parse_imports (i : rsd_image) (chain : Z) : M (option rsd_image) :=
  format ← host_read (chain + 20) 4;
  if negb (format =? DYLD_CHAINED_IMPORT) then mret None else
  imports_offset ← host_read (chain + 8) 4;
  symbols_offset ← host_read (chain + 12) 4;
  n ← host_read (chain + 16) 4;
  let n := s32 n in
  if negb (nz n) then mret (Some (im_with_imports [] i)) else
  w ← gets m_w;
  if negb (calloc_ok w (u64 n) sizeof_import) then mret None else
  ims ← read_imports (Z.to_nat n) (chain + imports_offset) (chain + symbols_offset) (im_dylibs i);
  mret (Some (im_with_imports ims i)).

(* ------------------------------------------------------------------ *)
(** ** The walk *)

(** What a bind makes of its place, and of the import it names. *)
Definition bind_target (i : rsd_image) (ordinal addend stub_base : Z) : Z * rsd_image :=
  match im_imports i !! Z.to_nat ordinal with
  | None => (0, i)
  | Some im =>
      (u64 (if nz (imp_native im) && negb (imp_is_code im) then imp_native im + addend
            else stub_base + ordinal * RSD_STUB_STRIDE + addend),
       im_with_imports (<[Z.to_nat ordinal := mark_used im]> (im_imports i)) i)
  end.

Definition rebase_target (i : rsd_image) (format target high8 : Z) : Z :=
  (if format =? DYLD_CHAINED_PTR_64_OFFSET then u64 (im_pref_base i + im_slide i + target)
   else u64 (target + im_slide i)) .| (high8 << 56).

(** One turn: the image and how far the next place is, [None] where the chain
    leaves the image. *)
Definition fix_one (i : rsd_image) (addr format stub_base : Z) : M (option (rsd_image * Z)) :=
  s ← gets m_as;
  if negb (rsd_as_mapped s addr 8) then mret None else
  raw ← host_read addr 8;
  if nz (raw >> 63) then
    let '(v, i) := bind_target i (field raw 0 24) (field raw 24 8) stub_base in
    host_write addr 8 v;; mret (Some (i, field raw 51 12))
  else
    host_write addr 8 (rebase_target i format (field raw 0 36) (field raw 36 8));;
    mret (Some (i, field raw 51 12)).

Fixpoint walk_chain (fuel : nat) (i : rsd_image) (addr format stub_base : Z) : M rsd_image :=
  match fuel with
  | O => raise OutOfFuel
  | S fuel =>
      r ← fix_one i addr format stub_base;
      match r with
      | None => mret i
      | Some (i, next) =>
          if negb (nz next) then mret i
          else walk_chain fuel i (u64 (addr + next * 4)) format stub_base
      end
  end.

(** The loop over the pages of a segment; each chain gets [fuel]. *)
Fixpoint walk_pages (fuel : nat) (n : nat) (i : rsd_image) (p sis seg page_size format stub_base : Z) : M rsd_image :=
  match n with
  | O => mret i
  | S n =>
      start ← host_read (sis + 22 + p * 2) 2;
      i ← (if start =? DYLD_CHAINED_PTR_START_NONE then mret i
           else walk_chain fuel i (u64 (seg + p * page_size + start)) format stub_base);
      walk_pages fuel n i (p + 1) sis seg page_size format stub_base
  end.

(** The loop over the segments; [None] for -1. *)
Fixpoint walk_segs (fuel : nat) (n : nat) (i : rsd_image) (k sii : Z) : M (rsd_image * bool) :=
  match n with
  | O => mret (i, true)
  | S n =>
      off ← host_read (sii + 4 + k * 4) 4;
      if negb (nz off) then walk_segs fuel n i (k + 1) sii else
      let sis := sii + off in
      format ← host_read (sis + 6) 2;
      if negb (is_one_of format [DYLD_CHAINED_PTR_64; DYLD_CHAINED_PTR_64_OFFSET]) then mret (i, false) else
      segment_offset ← host_read (sis + 8) 8;
      page_count ← host_read (sis + 20) 2;
      page_size ← host_read (sis + 4) 2;
      i ← walk_pages fuel (Z.to_nat page_count) i 0 sis (u64 (im_pref_base i + im_slide i + segment_offset))
            page_size format (im_stub_base i);
      walk_segs fuel n i (k + 1) sii
  end.

Context `{!DynLoader}.

(** The C result and the image; [fuel] bounds the places of a chain. *)
Definition rsd_fixups (fuel : nat) (i : rsd_image) : M (Z * rsd_image) :=
  if negb (nz (im_fixups_size i)) then mret (0, i) else
  let chain := im_file i + im_slice_off i + im_fixups_off i in
  version ← host_read chain 4;
  if nz version then mret (-1, i) else
  r ← parse_imports i chain;
  match r with
  | None => mret (-1, i)
  | Some i =>
      i ← rsd_resolve_imports i;
      let n := Z.of_nat (length (im_imports i)) in
      s ← gets m_as; w ← gets m_w;
      let '(base, s, w) := if nz n then rsd_as_map w s 0 (n * RSD_STUB_STRIDE) (RSD_PROT_R .| RSD_PROT_X) false
                           else (im_stub_base i, s, w) in
      set_as s;; set_world w;;
      let i := im_with_stub_base base i in
      if nz n && negb (nz base) then mret (-1, i) else
      starts ← host_read (chain + 4) 4;
      nsegs ← host_read (chain + starts) 4;
      '(i, ok) ← walk_segs fuel (Z.to_nat nsegs) i 0 (chain + starts);
      mret ((if (ok : bool) then 0 else -1), i)
  end.

(* ------------------------------------------------------------------ *)
(** ** The table of stubs *)

Definition string_of_bytes (bs : list Z) : string :=
  foldr (fun b s => String (ascii_of_nat (Z.to_nat b)) s) EmptyString bs.

(** The last loop of [rsd_stubs_of], the columns a run uses. *)
Fixpoint stub_rows (ims : list rsd_import)
    : M (list Z * list (option rsd_vaspec) * list Z * list bool) :=
  match ims with
  | [] => mret ([], [], [], [])
  | im :: ims =>
      bs ← c_string (imp_name im);
      let name := Some (string_of_bytes bs) in
      '(fns, va, cb, rc) ← stub_rows ims;
      mret ((if imp_is_code im then imp_native im else 0) :: fns, rsd_variadic_spec name :: va,
            rsd_callback_arg name :: cb, rsd_takes_objc_receiver name :: rc)
  end.

(** An allocation that fails leaves a table without stubs; names and libraries
    are only printed. *)
Definition rsd_stubs_of (i : rsd_image) : M rsd_stubs :=
  let n := Z.of_nat (length (im_imports i)) in
  if negb (nz n) then mret (Stubs 0 0 None None None None) else
  w ← gets m_w;
  if negb (calloc_ok w n 8) then mret (Stubs (im_stub_base i) 0 None None None None) else
  if negb (calloc_ok w n 1)
  then mret (Stubs (im_stub_base i) 0 (Some (replicate (Z.to_nat n) 0)) None None
               (Some (replicate (Z.to_nat n) None))) else
  '(fns, va, cb, rc) ← stub_rows (im_imports i);
  mret (Stubs (im_stub_base i) n (Some fns) (Some cb) (Some rc) (Some va)).
End fixups.
