(* ===== verification/Chains.v ===== *)
(** Walking chained fixups ([walk_chain] in [src/fixups.c]): a chain laid out as
    the format says is rebased and bound place by place, the walk ends, and
    whatever the file holds nothing but tracked memory is written. *)
From S2P Require Import Prelude.
From S2P Require Import Memory.
From S2P Require Import AddressSpace.
From S2P Require Import SampleHost.
From S2P Require Import Flags.
From S2P Require Import Stubs.
From S2P Require Import Machine.
From S2P Require Import Access.
From S2P Require Import Keeps.
From S2P Require Import Termination.
From S2P Require Import Image.
From S2P Require Import Resolve.
From S2P Require Import Fixups.

(* ------------------------------------------------------------------ *)
(** ** The format *)

(** A fixup: an import and a displacement, or an address of the image and the
    top byte of the pointer. *)
Inductive fixup :=
| FBind (ordinal addend : Z)
| FRebase (target high8 : Z).

Definition fixup_ok (p : fixup) : Prop :=
  match p with
  | FBind ordinal addend => urange 24 ordinal /\ urange 8 addend
  | FRebase target high8 => urange 36 target /\ urange 8 high8
  end.

(** Its word, with the distance to the next place in units of four bytes. *)
Definition fixup_word (p : fixup) (next : Z) : Z :=
  match p with
  | FBind ordinal addend => ordinal + addend * 2 ^ 24 + next * 2 ^ 51 + 2 ^ 63
  | FRebase target high8 => target + high8 * 2 ^ 36 + next * 2 ^ 51
  end.

(** The pointer it stands for.  An import the loader found as data is bound
    directly, any other to its stub; an ordinal that names no import gives
    NULL. *)
Definition fixup_pointer (i : rsd_image) (format stub_base : Z) (p : fixup) : Z :=
  match p with
  | FBind ordinal addend =>
      match im_imports i !! Z.to_nat ordinal with
      | None => 0
      | Some im =>
          if nz (imp_native im) && negb (imp_is_code im) then imp_native im + addend
          else stub_base + 16 * ordinal + addend
      end
  | FRebase target high8 =>
      u64 (im_slide i + target + (if format =? DYLD_CHAINED_PTR_64_OFFSET then im_pref_base i else 0))
        .| (high8 * 2 ^ 56)
  end.

(** The image with the imports bound by [ps] marked. *)
Definition binds (k : nat) (p : fixup) : bool :=
  match p with FBind ordinal _ => Z.of_nat k =? ordinal | FRebase _ _ => false end.
Definition bound_by (ps : list fixup) (i : rsd_image) : rsd_image :=
  im_with_imports (imap (fun k im => if existsb (binds k) ps then mark_used im else im) (im_imports i)) i.

(** A chain: fixups with the distance to the next, 0 at the last.  Places do not
    overlap. *)
Fixpoint chain_ok (l : list (fixup * Z)) : Prop :=
  match l with
  | [] => False
  | (p, next) :: l => fixup_ok p /\ (if decide (l = []) then next = 0 else 2 <= next < 2 ^ 12 /\ chain_ok l)
  end.

Fixpoint places (addr : Z) (l : list (fixup * Z)) : list (Z * fixup * Z) :=
  match l with
  | [] => []
  | (p, next) :: l => (addr, p, next) :: places (addr + next * 4) l
  end.

(** The chain lies at [addr] in tracked memory. *)
Definition chain_at (s : rsd_as) (mem : gmap Z Z) (addr : Z) (l : list (fixup * Z)) : Prop :=
  Forall (fun x => urange 64 x.1.1 /\ rsd_as_mapped s x.1.1 8 = true /\
                   read_bytes mem x.1.1 8 = Some (le_bytes 8 (fixup_word x.1.2 x.2))) (places addr l).

(* ------------------------------------------------------------------ *)
(** ** Fields of a word *)

Lemma field_div v a n : 0 <= a -> 0 <= n -> field v a n = v / 2 ^ a mod 2 ^ n.
Proof. intros Ha Hn. unfold field. by rewrite Z.land_ones, Z.shiftr_div_pow2. Qed.

(** A field between what is below and above it. *)
Lemma field_at lo x y a n :
  0 <= a -> 0 <= n -> urange a lo -> urange n x -> field (lo + (x + y * 2 ^ n) * 2 ^ a) a n = x.
Proof.
  intros Ha Hn Hl Hx. rewrite field_div by done.
  rewrite Z.div_add by (apply Z.pow_nonzero; lia). rewrite (Z.div_small lo) by apply Hl.
  rewrite Z.add_0_l, Z_mod_plus_full. by apply Z.mod_small.
Qed.

Lemma bind_fields ordinal addend next :
  urange 24 ordinal -> urange 8 addend -> urange 12 next ->
  let w := fixup_word (FBind ordinal addend) next in
  urange 64 w /\ nz (w >> 63) = true /\
  field w 0 24 = ordinal /\ field w 24 8 = addend /\ field w 51 12 = next.
Proof.
  intros Ho Ha Hn w. unfold urange in *.
  split; [unfold w, fixup_word; lia|]. split.
  { unfold nz. rewrite Z.shiftr_div_pow2 by done. replace (w / 2 ^ 63) with 1; [done|].
    apply (Z.div_unique w (2 ^ 63) 1 (w - 2 ^ 63)); unfold w, fixup_word; lia. }
  split; [|split].
  - rewrite <- (field_at 0 ordinal (addend + next * 2 ^ 27 + 2 ^ 39) 0 24) by (done || lia).
    f_equal. unfold w, fixup_word. lia.
  - rewrite <- (field_at ordinal addend (next * 2 ^ 19 + 2 ^ 31) 24 8) by (done || lia).
    f_equal. unfold w, fixup_word. lia.
  - rewrite <- (field_at (ordinal + addend * 2 ^ 24) next 1 51 12) by (unfold urange; lia).
    f_equal. unfold w, fixup_word. lia.
Qed.

Lemma rebase_fields target high8 next :
  urange 36 target -> urange 8 high8 -> urange 12 next ->
  let w := fixup_word (FRebase target high8) next in
  urange 64 w /\ nz (w >> 63) = false /\
  field w 0 36 = target /\ field w 36 8 = high8 /\ field w 51 12 = next.
Proof.
  intros Ht Hh Hn w. unfold urange in *.
  split; [unfold w, fixup_word; lia|]. split.
  { unfold nz. rewrite Z.shiftr_div_pow2 by done. rewrite Z.div_small; [done|]. unfold w, fixup_word. lia. }
  split; [|split].
  - rewrite <- (field_at 0 target (high8 + next * 2 ^ 15) 0 36) by (done || lia).
    f_equal. unfold w, fixup_word. lia.
  - rewrite <- (field_at target high8 (next * 2 ^ 7) 36 8) by (done || lia).
    f_equal. unfold w, fixup_word. lia.
  - rewrite <- (field_at (target + high8 * 2 ^ 36) next 0 51 12) by (unfold urange; lia).
    f_equal. unfold w, fixup_word. lia.
Qed.

(* ------------------------------------------------------------------ *)
(** ** One place *)

Lemma le_bytes_wrap n v : le_bytes n (uwrap (8 * Z.of_nat n) v) = le_bytes n v.
Proof. rewrite <- le_val_bytes, <- (length_le_bytes n v) at 1. apply le_bytes_val, le_bytes_ok. Qed.

Section walk.
Context `{HostOS}.

Lemma high_byte_or x h : (x .| (h << 56)) = (x .| (h * 2 ^ 56)).
Proof. by rewrite Z.shiftl_mul_pow2. Qed.

Lemma bound_by_imports ps i : length (im_imports (bound_by ps i)) = length (im_imports i).
Proof. destruct i. apply length_imap. Qed.

(** Marking leaves what is bound where as it was. *)
Lemma fixup_pointer_bound ps i format sb p : fixup_pointer (bound_by ps i) format sb p = fixup_pointer i format sb p.
Proof.
  destruct i. unfold fixup_pointer, bound_by. cbn. destruct p as [o a|t h]; [|done].
  rewrite list_lookup_imap. destruct (_ !! Z.to_nat o); cbn; [|done]. by destruct (existsb _ _).
Qed.

Lemma bound_by_nil i : bound_by [] i = i.
Proof. destruct i. unfold bound_by, im_with_imports. cbn. f_equal. apply list_eq. intros k. rewrite list_lookup_imap. by destruct (_ !! k). Qed.

Lemma bound_by_app ps qs i : bound_by qs (bound_by ps i) = bound_by (ps ++ qs) i.
Proof.
  destruct i. unfold bound_by, im_with_imports. cbn. f_equal. apply list_eq. intros k.
  rewrite !list_lookup_imap. destruct (_ !! k) as [im|]; cbn; [|done]. rewrite existsb_app.
  by destruct (existsb _ ps), (existsb _ qs).
Qed.

Lemma bind_target_spec i ordinal addend sb format :
  0 <= ordinal ->
  bind_target i ordinal addend sb =
  (u64 (fixup_pointer i format sb (FBind ordinal addend)), bound_by [FBind ordinal addend] i).
Proof.
  intros Ho. unfold bind_target, fixup_pointer. destruct i as [? ? ? ? ? ? ? ? ? ? ? ? ? ims ?]. cbn.
  unfold bound_by, im_with_imports. cbn.
  destruct (ims !! Z.to_nat ordinal) as [im|] eqn:E.
  - f_equal; [unfold RSD_STUB_STRIDE; f_equal; case_match; lia|]. f_equal. apply list_eq. intros k.
    rewrite list_lookup_imap. destruct (decide (k = Z.to_nat ordinal)) as [->|Hk].
    + rewrite list_lookup_insert_eq by by eapply lookup_lt_Some. rewrite E. cbn.
      by rewrite Z2Nat.id, Z.eqb_refl.
    + rewrite list_lookup_insert_ne by done. destruct (ims !! k); cbn; [|done].
      rewrite (proj2 (Z.eqb_neq _ _)); [done|lia].
  - f_equal. f_equal. apply list_eq. intros k. rewrite list_lookup_imap.
    destruct (ims !! k) eqn:Ek; cbn; [|done].
    rewrite (proj2 (Z.eqb_neq _ _)); [done|]. intros <-. by rewrite Nat2Z.id, Ek in E.
Qed.

Lemma fix_one_run i addr format sb p next m :
  fixup_ok p -> urange 12 next -> rsd_as_mapped (m_as m) addr 8 = true ->
  read_bytes (mem_of m) addr 8 = Some (le_bytes 8 (fixup_word p next)) ->
  fix_one i addr format sb m =
  Ok (Some (bound_by [p] i, next))
     (with_mem (write_bytes (mem_of m) addr (le_bytes 8 (fixup_pointer i format sb p))) m).
Proof.
  intros Hp Hn Hm Hr. unfold fix_one. unfold mbind, M_bind, gets. rewrite Hm. cbn [negb].
  assert (Hrd : forall w, urange 64 w -> le_bytes 8 (fixup_word p next) = le_bytes 8 w -> host_read addr 8 m = Ok w m).
  { intros w Hw E. apply host_read_ok. split; [done|]. exists (le_bytes 8 w). rewrite <- E. split; [exact Hr|].
    rewrite E, le_val_bytes. symmetry. by apply uwrap_small. }
  assert (Hst : forall v, host_write addr 8 v m = Ok tt (with_mem (write_bytes (mem_of m) addr (le_bytes 8 v)) m)).
  { intros v. unfold host_write. apply host_store_ok. split; [done|]. rewrite length_le_bytes. change (Z.to_nat 8) with 8%nat. by rewrite Hr. }
  destruct p as [o a|t h]; destruct Hp as [H1 H2].
  - destruct (bind_fields o a next H1 H2 Hn) as (Hw & E63 & E1 & E2 & E3).
    rewrite (Hrd _ Hw) by done. rewrite E63, E1, E2, E3. rewrite (bind_target_spec _ _ _ _ format) by apply H1.
    rewrite Hst. do 3 f_equal. apply (le_bytes_wrap 8).
  - destruct (rebase_fields t h next H1 H2 Hn) as (Hw & E63 & E1 & E2 & E3).
    rewrite (Hrd _ Hw) by done. rewrite E63, E1, E2, E3. rewrite Hst. f_equal.
    + f_equal. f_equal. unfold bound_by. destruct i as [? ? ? ? ? ? ? ? ? ? ? ? ? ims ?]. unfold im_with_imports. cbn. f_equal.
      apply list_eq. intros k. rewrite list_lookup_imap. by destruct (ims !! k).
    + do 3 f_equal. unfold rebase_target, fixup_pointer. rewrite high_byte_or. f_equal.
      case_match; f_equal; lia.
Qed.

(* ------------------------------------------------------------------ *)
(** ** The chain *)

(** The memory behind the walk. *)
Fixpoint write_places (f : fixup -> Z) (l : list (Z * fixup * Z)) (mem : gmap Z Z) : gmap Z Z :=
  match l with
  | [] => mem
  | (a, p, _) :: l => write_places f l (write_bytes mem a (le_bytes 8 (f p)))
  end.

Lemma write_places_ext f g l mem : (forall p, f p = g p) -> write_places f l mem = write_places g l mem.
Proof. intros E. revert mem. induction l as [|[[a p] n] l IH]; intros mem; cbn; [done|]. by rewrite E, IH. Qed.

Lemma write_places_outside f l mem b :
  (forall x, x ∈ l -> ~ x.1.1 <= b < x.1.1 + 8) -> write_places f l mem !! b = mem !! b.
Proof.
  revert mem. induction l as [|[[a p] n] l IH]; intros mem Hb; cbn [write_places]; [done|].
  rewrite IH by (intros; apply Hb; by right).
  apply write_bytes_outside. rewrite length_le_bytes. apply (Hb (a, p, n)). by left.
Qed.

Lemma chain_ok_cons p next l :
  chain_ok ((p, next) :: l) -> fixup_ok p /\ urange 12 next /\ (l = [] /\ next = 0 \/ 2 <= next /\ chain_ok l).
Proof.
  cbn. intros [Hp Hn]. split; [done|]. case_decide; [subst; split; [unfold urange; lia|by left]|]. split; [unfold urange; lia|]. right. split; [lia|apply Hn].
Qed.

Lemma places_above addr l x : chain_ok l -> x ∈ places addr l -> addr <= x.1.1.
Proof.
  revert addr. induction l as [|[p next] l IH]; intros addr; [done|].
  intros (_ & _ & Hl)%chain_ok_cons. cbn [places]. intros [->|Hx]%elem_of_cons; [done|].
  destruct Hl as [[-> _]|[Hn Hl]]; [by apply not_elem_of_nil in Hx|]. specialize (IH _ Hl Hx). lia.
Qed.

Lemma write_places_read f l addr mem x :
  chain_ok l -> x ∈ places addr l -> read_bytes (write_places f (places addr l) mem) x.1.1 8 = Some (le_bytes 8 (f x.1.2)).
Proof.
  revert addr mem. induction l as [|[p next] l IH]; intros addr mem; [done|].
  intros (_ & _ & Hl)%chain_ok_cons. cbn [places write_places]. intros [->|Hx]%elem_of_cons.
  - cbn [fst snd]. rewrite (read_bytes_ext _ (write_bytes mem addr (le_bytes 8 (f p)))).
    + by rewrite <- (length_le_bytes 8 (f p)) at 1; rewrite read_write_same.
    + intros b Hb. apply write_places_outside. intros y Hy.
      destruct Hl as [[-> _]|[Hn Hl]]; [by apply not_elem_of_nil in Hy|].
      pose proof (places_above _ _ _ Hl Hy). lia.
  - destruct Hl as [[-> _]|[Hn Hl]]; [by apply not_elem_of_nil in Hx|]. by apply IH.
Qed.

Lemma chain_at_write s mem addr l a bs :
  chain_ok l -> chain_at s mem addr l -> a + Z.of_nat (length bs) <= addr -> chain_at s (write_bytes mem a bs) addr l.
Proof.
  intros Hl Hc Ha. unfold chain_at in *. apply Forall_forall. intros x Hx.
  destruct (proj1 (Forall_forall _ _) Hc x Hx) as (H1 & H2 & H3). split; [done|]. split; [done|].
  rewrite read_write_other; [done|]. pose proof (places_above _ _ _ Hl Hx). lia.
Qed.

Lemma walk_chain_run fuel i addr format sb l m :
  chain_ok l -> chain_at (m_as m) (mem_of m) addr l -> (length l <= fuel)%nat ->
  walk_chain fuel i addr format sb m =
  Ok (bound_by (fst <$> l) i) (with_mem (write_places (fixup_pointer i format sb) (places addr l) (mem_of m)) m).
Proof.
  revert fuel i addr m. induction l as [|[p next] l IH]; intros fuel i addr m Hl Hc Hf; [done|].
  destruct fuel as [|fuel]; [cbn in Hf; lia|].
  apply chain_ok_cons in Hl as (Hp & Hn & Hl). cbn [places] in Hc. apply Forall_cons in Hc as [(Ha & Hm & Hr) Hc].
  cbn [fst snd] in *. cbn [walk_chain]. unfold mbind, M_bind.
  rewrite (fix_one_run _ _ _ _ _ _ _ Hp Hn Hm Hr). destruct Hl as [[-> ->]|[H2 Hl]]; [done|].
  unfold nz at 1. rewrite (proj2 (Z.eqb_neq next 0)) by lia. cbn [negb].
  assert (E : u64 (addr + next * 4) = addr + next * 4).
  { apply uwrap_small. destruct l as [|[q n'] l]; [done|]. cbn [places] in Hc. by apply Forall_cons in Hc as [(Hu & _) _]. }
  rewrite E, IH; [|done| |cbn in Hf; lia].
  - rewrite bound_by_app. cbn [fmap list_fmap places write_places app fst]. f_equal. unfold with_mem. cbn. do 2 f_equal.
    apply write_places_ext. intros q. apply fixup_pointer_bound.
  - cbn [m_as with_mem]. apply chain_at_write; [done|exact Hc|]. rewrite length_le_bytes. lia.
Qed.
End walk.

(* ------------------------------------------------------------------ *)
(** ** Any chains *)

Section safety.
Context `{HostOS}.

(** Only tracked bytes differ, the same bytes are mapped, and nothing else
    changed. *)
Record patched (m m' : machine) : Prop := {
  pa_as : m_as m' = m_as m;
  pa_rest : m' = with_mem (mem_of m') m;
  pa_untracked : forall b, prot_at (as_reg (m_as m)) b = None -> mem_of m' !! b = mem_of m !! b;
  pa_mapped : forall b, is_Some (mem_of m' !! b) <-> is_Some (mem_of m !! b)
}.

#[local] Instance patched_preorder : PreOrder patched.
Proof.
  split.
  - intros m. split; [done|by destruct m as [? ? [? ?] ? ?]|done|done].
  - intros m1 m2 m3 [A1 R1 U1 M1] [A2 R2 U2 M2]. split.
    + by rewrite A2, A1.
    + rewrite R2, R1 at 1. done.
    + intros b Hb. rewrite U2, U1; [done|done|by rewrite A1].
    + intros b. by rewrite M2, M1.
Qed.

Lemma mapped_host_write s addr v m m' u :
  as_inv (m_as m) -> s = m_as m -> urange 64 addr -> rsd_as_mapped s addr 8 = true -> host_write addr 8 v m = Ok u m' -> patched m m'.
Proof.
  intros Hinv -> Ha Hm [-> Hr]%host_store_ok. rewrite length_le_bytes in Hr.
  apply rsd_as_mapped_iff in Hm as [?|[_ Hm]]; [done| |done|done|done].
  split; cbn; [done|by destruct m as [? ? [? ?] ? ?]| |].
  - intros b Hb. apply write_bytes_outside. rewrite length_le_bytes. intros Hin.
    destruct (Hm b) as [q Hq]; [lia|]. congruence.
  - intros b. rewrite write_bytes_mapped, length_le_bytes. split; [|by left]. intros [?|Hb]; [done|].
    rewrite read_bytes_is_Some in Hr. apply Hr. lia.
Qed.

Lemma fix_one_patched i addr format sb m r m' :
  as_inv (m_as m) -> urange 64 addr -> fix_one i addr format sb m = Ok r m' -> patched m m'.
Proof.
  intros Hinv Ha. unfold fix_one. rewrite bind_ok. intros (s & m1 & [= <- <-] & Hx).
  destruct (rsd_as_mapped (m_as m) addr 8) eqn:Hm; cbn [negb] in Hx; [|injection Hx as _ <-; reflexivity].
  apply bind_ok in Hx as (raw & m1 & [-> _]%host_read_ok & Hx).
  destruct (nz (raw >> 63)).
  - destruct (bind_target _ _ _ _) as [v i']. apply bind_ok in Hx as (u & m1 & Hw & [= _ <-]). by eapply mapped_host_write.
  - apply bind_ok in Hx as (u & m1 & Hw & [= _ <-]). by eapply mapped_host_write.
Qed.

(** The run of [c] on [m] ends, having patched tracked memory if anything. *)
Definition ends {A} (c : M A) (m : machine) : Prop :=
  match c m with
  | Ok _ m' => patched m m'
  | Trap t => t <> OutOfFuel
  end.

Lemma ends_ret {A} (a : A) m : ends (mret a) m.
Proof. unfold ends, mret, M_ret. reflexivity. Qed.

Lemma ends_read a n m : ends (host_read a n) m.
Proof. unfold ends, host_read. destruct (read_bytes _ _ _); [reflexivity|done]. Qed.

Lemma ends_bind {A B} (c : M A) (k : A -> M B) m :
  ends c m -> (forall a m1, c m = Ok a m1 -> patched m m1 -> ends (k a) m1) -> ends (c ≫= k) m.
Proof.
  unfold ends, mbind, M_bind. destruct (c m) as [a m1|t] eqn:E; [|done]. intros Hp Hk.
  specialize (Hk a m1 eq_refl Hp). destruct (k a m1); [by etransitivity|done].
Qed.

(** No region reaches so high that a step along a chain wraps around. *)
Definition below_top (s : rsd_as) : Prop := forall r, r ∈ as_reg s -> rg_end r <= 2 ^ 64 - 2 ^ 14.

Lemma fix_one_step i addr format sb m i' next m' :
  as_inv (m_as m) -> below_top (m_as m) -> urange 64 addr ->
  fix_one i addr format sb m = Ok (Some (i', next)) m' ->
  urange 12 next /\ addr + 8 <= 2 ^ 64 - 2 ^ 14 /\ is_Some (mem_of m !! addr).
Proof.
  intros Hinv Htop Ha. unfold fix_one. rewrite bind_ok. intros (s & m1 & [= <- <-] & Hx).
  destruct (rsd_as_mapped (m_as m) addr 8) eqn:Hm; cbn [negb] in Hx; [|done].
  apply bind_ok in Hx as (raw & m1 & [-> (bs & Hr & _)]%host_read_ok & Hx).
  assert (Hn : next = field raw 51 12).
  { destruct (nz (raw >> 63)); [destruct (bind_target _ _ _ _)|]; by apply bind_ok in Hx as (? & ? & _ & [= _ <-]). }
  split; [rewrite Hn, field_div by done; by apply uwrap_range|]. split.
  - apply rsd_as_mapped_iff in Hm as [?|[_ Hm]]; [done| |done..].
    destruct (Hm (addr + 7)) as [q Hq]; [lia|]. destruct Hinv as [Hwf _].
    apply (prot_at_elem _ _ _ _ Hwf) in Hq as (r & Hr' & Hin & _). specialize (Htop r Hr'). lia.
  - eapply (read_bytes_mapped _ _ _ _ addr); [exact Hr|lia].
Qed.

Lemma bytes_from_mono mem mem' p q :
  p <= q -> (forall b, is_Some (mem' !! b) <-> is_Some (mem !! b)) -> (bytes_from mem' q <= bytes_from mem p)%nat.
Proof.
  intros Hpq Hm. unfold bytes_from. rewrite <- !size_dom. apply subseteq_size. intros k. rewrite !elem_of_dom.
  intros [x [Hx Hk]%map_lookup_filter_Some]. destruct (proj1 (Hm k)) as [y Hy]; [by eexists|].
  exists y. apply map_lookup_filter_Some. cbn in *. split; [done|lia].
Qed.

Lemma walk_chain_ends fuel i addr format sb m :
  as_inv (m_as m) -> below_top (m_as m) -> urange 64 addr -> (bytes_from (mem_of m) addr < fuel)%nat ->
  ends (walk_chain fuel i addr format sb) m.
Proof.
  revert i addr m. induction fuel as [|fuel IH]; intros i addr m Hinv Htop Ha Hf; [lia|].
  cbn [walk_chain]. apply ends_bind.
  - unfold ends. destruct (fix_one i addr format sb m) as [r m'|t] eqn:E; [by eapply fix_one_patched|].
    intros ->. unfold fix_one in E.
    assert (Hnf : nofuel (fix_one i addr format sb)) by (unfold fix_one, host_write; nofuel_tac).
    by apply (Hnf m).
  - intros [[i' next]|] m1 E P; [|apply ends_ret].
    destruct (fix_one_step _ _ _ _ _ _ _ _ Hinv Htop Ha E) as (Hn & Ht & [b Hb]).
    unfold nz. destruct (Z.eqb_spec next 0) as [->|Hz]; cbn [negb]; [apply ends_ret|]. unfold urange in *.
    assert (Hu : u64 (addr + next * 4) = addr + next * 4) by (apply uwrap_small; unfold urange; lia).
    rewrite Hu. apply IH; rewrite ?(pa_as _ _ P); try done; [unfold urange; lia|].
    pose proof (bytes_from_step _ _ _ Hb).
    pose proof (bytes_from_mono (mem_of m) (mem_of m1) (addr + 1) (addr + next * 4) ltac:(lia) (pa_mapped _ _ P)). lia.
Qed.

Lemma patched_size m m' : patched m m' -> size (mem_of m') = size (mem_of m).
Proof.
  intros P. rewrite <- !size_dom. f_equal. apply set_eq. intros b. rewrite !elem_of_dom. apply (pa_mapped _ _ P).
Qed.

Lemma walk_pages_ends fuel n i p sis seg page_size format sb m :
  as_inv (m_as m) -> below_top (m_as m) -> (size (mem_of m) < fuel)%nat ->
  ends (walk_pages fuel n i p sis seg page_size format sb) m.
Proof.
  revert i p m. induction n as [|n IH]; intros i p m Hinv Htop Hf; cbn [walk_pages]; [apply ends_ret|].
  apply ends_bind; [apply ends_read|]. intros start m1 [-> _]%host_read_ok _. apply ends_bind.
  - case_match; [apply ends_ret|]. apply walk_chain_ends; [done..|by apply uwrap_range|].
    pose proof (bytes_from_size (mem_of m) (u64 (seg + p * page_size + start))). lia.
  - intros i' m2 _ P. apply IH; rewrite ?(pa_as _ _ P); try done.
    by rewrite (patched_size _ _ P).
Qed.

Lemma walk_segs_ends fuel n i k sii m :
  as_inv (m_as m) -> below_top (m_as m) -> (size (mem_of m) < fuel)%nat ->
  ends (walk_segs fuel n i k sii) m.
Proof.
  revert i k m. induction n as [|n IH]; intros i k m Hinv Htop Hf; cbn [walk_segs]; [apply ends_ret|].
  apply ends_bind; [apply ends_read|]. intros off m1 [-> _]%host_read_ok _.
  destruct (negb (nz off)); [by apply IH|].
  apply ends_bind; [apply ends_read|]. intros format m1 [-> _]%host_read_ok _.
  destruct (negb (is_one_of format _)); [apply ends_ret|].
  do 3 (apply ends_bind; [apply ends_read|]; intros ? m1 [-> _]%host_read_ok _).
  apply ends_bind; [by apply walk_pages_ends|]. intros i' m2 _ P.
  apply IH; rewrite ?(pa_as _ _ P); try done. by rewrite (patched_size _ _ P).
Qed.
End safety.

(* ------------------------------------------------------------------ *)
(** ** Properties *)

Section properties.
Context `{HostOS}.

(** C14.  A chain of fixups laid out as the format says, in tracked memory and
    of places that do not overlap, is applied: each place holds the pointer its
    fixup stands for (a rebased address with its top byte, the address of a data
    import, the stub of any other, NULL for an ordinal that names none), exactly
    the imports bound are marked as used, and no byte outside the places
    changes. *)
Theorem walk_chain_spec fuel i addr format sb l m :
  chain_ok l -> chain_at (m_as m) (mem_of m) addr l -> (length l <= fuel)%nat ->
  exists mem', walk_chain fuel i addr format sb m = Ok (bound_by (fst <$> l) i) (with_mem mem' m) /\
    (forall a p next, (a, p, next) ∈ places addr l ->
       read_bytes mem' a 8 = Some (le_bytes 8 (fixup_pointer i format sb p))) /\
    (forall b, (forall x, x ∈ places addr l -> ~ x.1.1 <= b < x.1.1 + 8) -> mem' !! b = mem_of m !! b).
Proof.
  intros Hl Hc Hf. eexists. split; [by apply walk_chain_run|]. split.
  - intros a p next Hx. by apply (write_places_read _ _ _ _ (a, p, next)).
  - intros b Hb. by apply write_places_outside.
Qed.

(** Whatever the file holds, the walk over all its chains ends, if no region
    reaches the last sixteen kilobytes of the address space; and it writes only
    bytes the table tracks as the guest's: any other byte, the table and the
    cpu are as they were. *)
Theorem walk_segs_safe fuel n i k sii m :
  as_inv (m_as m) -> below_top (m_as m) -> (size (mem_of m) < fuel)%nat ->
  match walk_segs fuel n i k sii m with
  | Ok _ m' => m_as m' = m_as m /\ m_c m' = m_c m /\
      forall b, prot_at (as_reg (m_as m)) b = None -> mem_of m' !! b = mem_of m !! b
  | Trap t => t <> OutOfFuel
  end.
Proof.
  intros Hinv Htop Hf. pose proof (walk_segs_ends fuel n i k sii m Hinv Htop Hf) as He. unfold ends in He.
  destruct (walk_segs fuel n i k sii m) as [r m'|t]; [|exact He]. destruct He as [Ha Hr Hu _].
  split; [exact Ha|]. split; [by rewrite Hr|exact Hu].
Qed.
End properties.

(* ------------------------------------------------------------------ *)
(** ** A concrete chain *)

#[local] Existing Instance sample_host.

(** Import 0 is a function, import 1 data at 0x5000. *)
Definition sample_image : rsd_image :=
  im_with_imports [Import 0 lib_unknown false false 0x4000 true; Import 0 lib_unknown false false 0x5000 false]
    (im_with_slide 0x10000 (im_with_pref_base 0x100000000 zero_image)).

(** A rebase, then a bind of the data import. *)
Definition sample_chain : list (fixup * Z) := [(FRebase 0x40 0xAB, 4); (FBind 1 8, 0)].

Definition sample_chain_guest : machine :=
  sample_guest (le_bytes 8 (fixup_word (FRebase 0x40 0xAB) 4) ++ replicate 8 0 ++ le_bytes 8 (fixup_word (FBind 1 8) 0)).

Lemma walk_chain_spec_witness :
  exists i mem', walk_chain 2 sample_image 0x10000 DYLD_CHAINED_PTR_64_OFFSET 0x9000 sample_chain_guest =
    Ok i (with_mem mem' sample_chain_guest) /\
    read_bytes mem' 0x10000 8 = Some (le_bytes 8 0xAB00000100010040) /\
    read_bytes mem' 0x10010 8 = Some (le_bytes 8 0x5008) /\
    (imp_used <$> im_imports i) = [false; true].
Proof.
  destruct (walk_chain_spec 2 sample_image 0x10000 DYLD_CHAINED_PTR_64_OFFSET 0x9000 sample_chain sample_chain_guest)
    as (mem' & Hw & Hp & _).
  - by vm_compute.
  - unfold chain_at. repeat (constructor; [split; [by vm_compute|split; vm_compute; reflexivity]|]). constructor.
  - cbn. lia.
  - eexists _, mem'. split; [exact Hw|]. split; [|split; [|reflexivity]].
    + apply (Hp 0x10000 (FRebase 0x40 0xAB) 4). left.
    + apply (Hp 0x10010 (FBind 1 8) 0). right. left.
Defined.

(** No segment has chains. *)
Lemma walk_segs_safe_witness :
  match walk_segs 257 1 sample_image 0 0x10020 (sample_guest []) with
  | Ok _ m' => mem_of m' !! 0x20000 = mem_of (sample_guest []) !! 0x20000
  | Trap t => t <> OutOfFuel
  end.
Proof.
  pose proof (walk_segs_safe 257 1 sample_image 0 0x10020 (sample_guest [])) as Hs.
  destruct (walk_segs 257 1 sample_image 0 0x10020 (sample_guest [])) as [r m'|t]; [|apply Hs].
  - apply Hs; [apply sample_guest_inv| |apply Nat.ltb_lt; vm_compute; reflexivity|done].
    intros r' [->|[]%elem_of_nil]%elem_of_cons. cbn. lia.
  - apply sample_guest_inv.
  - intros r' [->|[]%elem_of_nil]%elem_of_cons. cbn. lia.
  - apply Nat.ltb_lt. vm_compute. reflexivity.
Defined.
