(* ===== verification/ImageLoad.v ===== *)
(** Loading an image ([rsd_load] in [src/macho.c]): load commands laid out as the
    format says are read back, the tables never overflow, and the segments end
    up in guest memory with their bytes and permissions. *)
From S2P Require Import Prelude.
From S2P Require Import Memory.
From S2P Require Import AddressSpace.
From S2P Require Import SampleHost.
From S2P Require Import Flags.
From S2P Require Import Stubs.
From S2P Require Import Machine.
From S2P Require Import Access.
From S2P Require Import Keeps.
From S2P Require Import Encoding.
From S2P Require Import Image.

(* ------------------------------------------------------------------ *)
(** ** The format *)

(** A section with the fields the loader does not read. *)
Abbreviation section := (rsd_sect * list Z)%type (only parsing).

(** Load commands.  [kind] is one of the three commands that name a library;
    [rest] is what the loader does not read. *)
Inductive lcmd :=
| CSeg (s : rsd_seg) (flags : Z) (sects : list section)
| CMain (entryoff stacksize : Z)
| CThread (flavor count : Z) (regs : list Z) (rip : Z) (rest : list Z)
| CFixups (off size : Z)
| CDylib (kind name_off : Z) (rest : list Z)
| COther (cmd : Z) (rest : list Z).

Definition section_bytes (x : section) : list Z :=
  sc_name x.1 ++ sc_seg x.1 ++ le_bytes 8 (sc_addr x.1) ++ le_bytes 8 (sc_size x.1) ++ x.2.

Definition lcmd_kind (c : lcmd) : Z :=
  match c with
  | CSeg _ _ _ => LC_SEGMENT_64
  | CMain _ _ => LC_MAIN
  | CThread _ _ _ _ _ => LC_UNIXTHREAD
  | CFixups _ _ => LC_DYLD_CHAINED_FIXUPS
  | CDylib kind _ _ => kind
  | COther cmd _ => cmd
  end.

Definition lcmd_body (c : lcmd) : list Z :=
  match c with
  | CSeg s flags sects =>
      sg_name s ++ le_bytes 8 (sg_vmaddr s) ++ le_bytes 8 (sg_vmsize s) ++
      le_bytes 8 (sg_fileoff s) ++ le_bytes 8 (sg_filesize s) ++
      le_bytes 4 (sg_maxprot s) ++ le_bytes 4 (sg_initprot s) ++
      le_bytes 4 (Z.of_nat (length sects)) ++ le_bytes 4 flags ++ concat (section_bytes <$> sects)
  | CMain entryoff stacksize => le_bytes 8 entryoff ++ le_bytes 8 stacksize
  | CThread flavor count regs rip rest =>
      le_bytes 4 flavor ++ le_bytes 4 count ++ concat (le_bytes 8 <$> regs) ++ le_bytes 8 rip ++ rest
  | CFixups off size => le_bytes 4 off ++ le_bytes 4 size
  | CDylib _ name_off rest => le_bytes 4 name_off ++ rest
  | COther _ rest => rest
  end.

Definition lcmd_size (c : lcmd) : Z := 8 + Z.of_nat (length (lcmd_body c)).
Definition lcmd_bytes (c : lcmd) : list Z :=
  le_bytes 4 (lcmd_kind c) ++ le_bytes 4 (lcmd_size c) ++ lcmd_body c.

Definition dylib_kinds : list Z := [LC_LOAD_DYLIB; LC_LOAD_WEAK_DYLIB; LC_REEXPORT_DYLIB].

Definition name_ok (n : list Z) : Prop := length n = 16%nat /\ bytes_ok n.
Definition section_ok (x : section) : Prop :=
  name_ok (sc_name x.1) /\ name_ok (sc_seg x.1) /\ urange 64 (sc_addr x.1) /\ urange 64 (sc_size x.1) /\
  length x.2 = 32%nat.
Definition seg_ok (s : rsd_seg) : Prop :=
  name_ok (sg_name s) /\ urange 64 (sg_vmaddr s) /\ urange 64 (sg_vmsize s) /\ urange 64 (sg_fileoff s) /\
  urange 64 (sg_filesize s) /\ urange 32 (sg_initprot s) /\ urange 32 (sg_maxprot s).

Definition lcmd_ok (c : lcmd) : Prop :=
  lcmd_size c < 2 ^ 32 /\
  match c with
  | CSeg s flags sects => seg_ok s /\ Forall section_ok sects
  | CMain entryoff _ => urange 64 entryoff
  | CThread _ _ regs rip _ => length regs = 16%nat /\ urange 64 rip
  | CFixups off size => urange 32 off /\ urange 32 size
  | CDylib kind name_off _ => kind ∈ dylib_kinds /\ urange 32 name_off
  | COther cmd _ => urange 32 cmd /\ cmd ∉ [LC_SEGMENT_64; LC_MAIN; LC_UNIXTHREAD; LC_DYLD_CHAINED_FIXUPS] ++ dylib_kinds
  end.

(* ------------------------------------------------------------------ *)
(** ** What the commands say *)

(** The segments that are loaded. *)
Definition loaded (c : lcmd) : option (rsd_seg * list section) :=
  match c with
  | CSeg s _ sects => if bool_decide (cstr (sg_name s) = literal "__PAGEZERO") then None else Some (s, sects)
  | _ => None
  end.

Definition segs_of (cmds : list lcmd) : list rsd_seg := fst <$> omap loaded cmds.
Definition sects_of (cmds : list lcmd) : list rsd_sect := fst <$> concat (snd <$> omap loaded cmds).
Definition text_of (s : rsd_seg) : option Z :=
  if bool_decide (cstr (sg_name s) = literal "__TEXT") then Some (sg_vmaddr s) else None.

(** The entry point: whether it is that of [LC_MAIN], and its field. *)
Definition entry_of (c : lcmd) : option (bool * Z) :=
  match c with
  | CMain off _ => Some (true, off)
  | CThread _ _ _ rip _ => Some (false, rip)
  | _ => None
  end.
Definition fixups_of (c : lcmd) : option (Z * Z) :=
  match c with CFixups off size => Some (off, size) | _ => None end.

(** The paths of the libraries, of commands that lie from [lc] on. *)
Fixpoint dylibs_of (lc : Z) (cmds : list lcmd) : list Z :=
  match cmds with
  | [] => []
  | c :: cmds => (match c with CDylib _ off _ => [lc + off] | _ => [] end) ++ dylibs_of (lc + lcmd_size c) cmds
  end.

(** The image the commands describe, added to what was read before: the last
    word on [__TEXT], the entry point and the fixups counts; what the tables
    have no room for is left out. *)
Definition parsed (lc : Z) (cmds : list lcmd) (st : rsd_image * Z * bool) : rsd_image * Z * bool :=
  let '(i, entry_off, got) := st in
  let e := last (omap entry_of cmds) in
  let f := default (im_fixups_off i, im_fixups_size i) (last (omap fixups_of cmds)) in
  (Image (im_file i) (im_filesz i) (im_slice_off i)
     (im_segs i ++ segs_of cmds)
     (take 64 (im_sects i ++ sects_of cmds))
     (take 128 (im_dylibs i ++ dylibs_of lc cmds))
     (default (im_pref_base i) (last (omap text_of (segs_of cmds))))
     (im_slide i) (im_entry i) (im_pie i) (default (im_has_main i) (fst <$> e)) f.1 f.2 (im_imports i) (im_stub_base i),
   default entry_off (snd <$> e), got || bool_decide (is_Some e)).

(* ------------------------------------------------------------------ *)
(** ** Reading fields *)

Section reads.
Context `{HostOS}.

Lemma host_read_at m p q n v k :
  code_at m q (le_bytes n v) -> q = p -> Z.of_nat n = k -> urange (8 * k) v -> host_read p k m = Ok v m.
Proof.
  intros Hc <- <- Hv. apply host_read_ok. split; [done|]. exists (le_bytes n v). unfold code_at in Hc.
  rewrite length_le_bytes in Hc. rewrite Nat2Z.id. split; [exact Hc|]. rewrite le_val_bytes. by rewrite uwrap_small.
Qed.

Lemma host_bytes_at m p q bs k : code_at m q bs -> q = p -> Z.of_nat (length bs) = k -> host_bytes p k m = Ok bs m.
Proof. intros Hc <- <-. unfold host_bytes. rewrite Nat2Z.id. unfold code_at, mem_of in Hc. by rewrite Hc. Qed.

Lemma strcmp_is_run m p q bs s :
  code_at m q bs -> q = p -> (length s < length bs)%nat -> 0 ∉ s ->
  strcmp_is p s m = Ok (bool_decide (cstr bs = s)) m.
Proof.
  intros Hc <-. revert q bs Hc. induction s as [|c s IH]; intros q bs Hc Hl Hs.
  - destruct bs as [|b bs]; [cbn in Hl; lia|]. apply code_at_cons in Hc as [Hc _]. cbn [strcmp_is cstr].
    rewrite (bind_run _ _ _ _ _ (host_read1 _ _ _ Hc)). destruct (b =? 0); [by rewrite bool_decide_true|by rewrite bool_decide_false].
  - destruct bs as [|b bs]; [cbn in Hl; lia|]. apply code_at_cons in Hc as [Hc Hc']. cbn [strcmp_is cstr].
    rewrite (bind_run _ _ _ _ _ (host_read1 _ _ _ Hc)). apply not_elem_of_cons in Hs as [Hs Hs'].
    destruct (Z.eqb_spec b c) as [->|Hb].
    + rewrite (IH _ bs) by (done || (cbn in Hl; lia)). rewrite (proj2 (Z.eqb_neq c 0)) by done. do 2 f_equal.
      apply bool_decide_ext. split; [by intros ->|by intros [= ->]].
    + rewrite bool_decide_false; [done|]. destruct (b =? 0); congruence.
Qed.

(** Take the pieces of a run of bytes apart. *)
Lemma code_at_part m p bs cs q :
  code_at m p (bs ++ cs) -> q = p + Z.of_nat (length bs) -> code_at m p bs /\ code_at m q cs.
Proof. intros Hc ->. by apply code_at_app. Qed.
End reads.

(** Split [Hc], naming what lies in front [H], its end at [q]. *)
Ltac part Hc H q :=
  let Hc' := fresh in
  eapply (code_at_part _ _ _ _ q) in Hc as [H Hc']; [|rewrite ?length_le_bytes; lia]; rename Hc' into Hc.

(* ------------------------------------------------------------------ *)
(** ** Sections and segments *)

Section parse.
Context `{HostOS}.

Lemma literal_no_nul s : forallb (fun b => negb (b =? 0)) (literal s) = true -> 0 ∉ literal s.
Proof. rewrite forallb_forall. intros Hf Hin%list_elem_of_In. by apply Hf in Hin. Qed.

Lemma length_section_bytes x : section_ok x -> length (section_bytes x) = 80%nat.
Proof.
  intros ([H1 _] & [H2 _] & _ & _ & H3). unfold section_bytes. rewrite !length_app, !length_le_bytes. lia.
Qed.

Lemma read_sects_run m p xs l :
  Forall section_ok xs -> code_at m p (concat (section_bytes <$> xs)) -> (length l <= 64)%nat ->
  read_sects (length xs) p l m = Ok (take 64 (l ++ (fst <$> xs))) m.
Proof.
  intros Hx. revert p l. induction Hx as [|x xs Hx _ IH]; intros p l Hc Hl; cbn [read_sects length fmap list_fmap].
  - by rewrite app_nil_r, take_ge by lia.
  - unfold RSD_MAX_SECTS. destruct (64 <=? Z.of_nat (length l)) eqn:E.
    { apply Z.leb_le in E. rewrite take_app_le, take_ge by lia. done. }
    apply Z.leb_gt in E. cbn [fmap list_fmap concat] in Hc.
    pose proof (length_section_bytes x Hx) as Hlen.
    apply (code_at_part _ _ _ _ (p + 80)) in Hc as [Hs Hc]; [|rewrite Hlen; lia].
    destruct Hx as ([N1 _] & [N2 _] & U1 & U2 & _). unfold section_bytes in Hs.
    part Hs S1 (p + 16). part Hs S2 (p + 32). part Hs S3 (p + 40). part Hs S4 (p + 48).
    rewrite (bind_run _ _ _ _ _ (host_bytes_at _ (p + 16) _ _ 16 S2 ltac:(done) ltac:(lia))).
    rewrite (bind_run _ _ _ _ _ (host_bytes_at _ p _ _ 16 S1 ltac:(done) ltac:(lia))).
    rewrite (bind_run _ _ _ _ _ (host_read_at _ (p + 32) _ _ _ 8 S3 ltac:(done) ltac:(done) U1)).
    rewrite (bind_run _ _ _ _ _ (host_read_at _ (p + 40) _ _ _ 8 S4 ltac:(done) ltac:(done) U2)).
    rewrite IH; [|done|rewrite length_app; cbn; lia]. rewrite <- app_assoc. cbn [app]. by destruct x as [[] ?].
Qed.

(** What a segment command does to the image; [None] when the table is full. *)
Definition add_segment (s : rsd_seg) (xs : list section) (i : rsd_image) : option rsd_image :=
  if bool_decide (cstr (sg_name s) = literal "__PAGEZERO") then Some i
  else if RSD_MAX_SEGS <=? Z.of_nat (length (im_segs i)) then None
  else
    let i := im_with_segs (im_segs i ++ [s]) i in
    let i := match text_of s with Some v => im_with_pref_base v i | None => i end in
    Some (im_with_sects (take 64 (im_sects i ++ (fst <$> xs))) i).

Lemma load_segment_run m lc s flags xs i :
  lcmd_ok (CSeg s flags xs) -> code_at m lc (lcmd_bytes (CSeg s flags xs)) -> (length (im_sects i) <= 64)%nat ->
  load_segment lc i m = Ok (add_segment s xs i) m.
Proof.
  intros [Hsize [([Hn _] & U1 & U2 & U3 & U4 & U5 & U6) Hxs]] Hc Hl. unfold lcmd_bytes in Hc. cbn [lcmd_body] in Hc.
  part Hc C0 (lc + 4). part Hc C1 (lc + 8). part Hc CN (lc + 24).
  part Hc CV (lc + 32). part Hc CS (lc + 40). part Hc CO (lc + 48). part Hc CFs (lc + 56).
  part Hc MP (lc + 60). part Hc IP (lc + 64). part Hc NS (lc + 68). part Hc FL (lc + 72).
  unfold load_segment, add_segment.
  assert (Hstr : forall t, (length (literal t) < 16)%nat -> 0 ∉ literal t ->
    strcmp_is (lc + 8) (literal t) m = Ok (bool_decide (cstr (sg_name s) = literal t)) m).
  { intros t Ht Hz. apply (strcmp_is_run _ _ (lc + 8)); [done|done|lia|done]. }
  rewrite (bind_run _ _ _ _ _ (Hstr "__PAGEZERO" ltac:(cbn; lia) ltac:(by apply literal_no_nul))).
  destruct (bool_decide _); [done|]. destruct (RSD_MAX_SEGS <=? _); [done|].
  rewrite (bind_run _ _ _ _ _ (host_bytes_at _ (lc + 8) _ _ 16 CN ltac:(done) ltac:(lia))).
  rewrite (bind_run _ _ _ _ _ (host_read_at _ (lc + 24) _ _ _ 8 CV ltac:(done) ltac:(done) U1)).
  rewrite (bind_run _ _ _ _ _ (host_read_at _ (lc + 32) _ _ _ 8 CS ltac:(done) ltac:(done) U2)).
  rewrite (bind_run _ _ _ _ _ (host_read_at _ (lc + 40) _ _ _ 8 CO ltac:(done) ltac:(done) U3)).
  rewrite (bind_run _ _ _ _ _ (host_read_at _ (lc + 48) _ _ _ 8 CFs ltac:(done) ltac:(done) U4)).
  rewrite (bind_run _ _ _ _ _ (host_read_at _ (lc + 60) _ _ _ 4 IP ltac:(done) ltac:(done) U5)).
  rewrite (bind_run _ _ _ _ _ (host_read_at _ (lc + 56) _ _ _ 4 MP ltac:(done) ltac:(done) U6)).
  rewrite (bind_run _ _ _ _ _ (Hstr "__TEXT" ltac:(cbn; lia) ltac:(by apply literal_no_nul))).
  assert (Un : urange (8 * 4) (Z.of_nat (length xs))).
  { unfold lcmd_size in Hsize. cbn [lcmd_body] in Hsize. unfold urange. rewrite !length_app in Hsize.
    assert (Hlen : forall ys, Forall section_ok ys -> (length ys <= length (concat (section_bytes <$> ys)))%nat).
    { intros ys Hy. induction Hy as [|y ys Hy _ IH]; cbn; [lia|]. rewrite length_app, length_section_bytes by done. lia. }
    specialize (Hlen xs Hxs). lia. }
  rewrite (bind_run _ _ _ _ _ (host_read_at _ (lc + 64) _ _ _ 4 NS ltac:(done) ltac:(done) Un)).
  rewrite Nat2Z.id. replace (Seg _ _ _ _ _ _ _) with s by by destruct s.
  unfold text_of. destruct (bool_decide _).
  - erewrite bind_run; [|apply read_sects_run; [exact Hxs|exact Hc|by destruct i]]. by destruct i.
  - erewrite bind_run; [|apply read_sects_run; [exact Hxs|exact Hc|by destruct i]]. by destruct i.
Qed.

(* ------------------------------------------------------------------ *)
(** ** Commands *)

(** The tables are within their bounds. *)
Definition tables_ok (i : rsd_image) : Prop :=
  (length (im_segs i) <= 16)%nat /\ (length (im_sects i) <= 64)%nat /\ (length (im_dylibs i) <= 128)%nat.

Definition too_many (cmds : list lcmd) (i : rsd_image) : bool := 16 <? Z.of_nat (length (im_segs i ++ segs_of cmds)).

Lemma add_segment_parsed lc s flags xs st :
  tables_ok st.1.1 ->
  ((fun i => (i, st.1.2, st.2)) <$> add_segment s xs st.1.1) =
  (if too_many [CSeg s flags xs] st.1.1 then None else Some (parsed lc [CSeg s flags xs] st)).
Proof.
  destruct st as [[i off] got]. intros (H1 & H2 & H3). cbn [fst snd] in *. destruct i as [? ? ? segs sects dylibs ? ? ? ? ? ? ? ? ?].
  unfold too_many, parsed, add_segment, segs_of, sects_of. cbn [im_segs im_sects im_dylibs omap list_omap loaded] in *.
  destruct (bool_decide (cstr (sg_name s) = _)) eqn:Ez; cbn [omap list_omap fmap list_fmap concat dylibs_of fst snd length app].
  - rewrite !app_nil_r, (proj2 (Z.ltb_ge 16 _)) by lia. cbn. by rewrite !take_ge, orb_false_r by lia.
  - unfold RSD_MAX_SEGS. rewrite !app_nil_r, length_app. cbn [length].
    destruct (Z.leb_spec 16 (Z.of_nat (length segs))); [by rewrite (proj2 (Z.ltb_lt 16 _)) by lia|].
    rewrite (proj2 (Z.ltb_ge 16 _)) by lia. cbn. rewrite (take_ge dylibs), orb_false_r by lia. by destruct (text_of s).
Qed.

Ltac cmds := repeat match goal with
  | |- context [Z.eqb ?a ?b] => let v := eval vm_compute in (Z.eqb a b) in change (Z.eqb a b) with v
  end; cbv iota.

(** A command that is no segment and names no library. *)
Lemma plain_parsed lc c i off got :
  loaded c = None -> (forall kind no rest, c <> CDylib kind no rest) -> tables_ok i ->
  (if too_many [c] i then None else Some (parsed lc [c] (i, off, got))) =
  Some (im_with_has_main (default (im_has_main i) (fst <$> entry_of c))
          (im_with_fixups_size (default (im_fixups_off i, im_fixups_size i) (fixups_of c)).2
             (im_with_fixups_off (default (im_fixups_off i, im_fixups_size i) (fixups_of c)).1 i)),
        default off (snd <$> entry_of c), got || bool_decide (is_Some (entry_of c))).
Proof.
  intros Hl Hd (H1 & H2 & H3). destruct i as [? ? ? segs sects dylibs ? ? ? ? ? ? ? ? ?]. cbn [im_segs im_sects im_dylibs] in *.
  unfold too_many, parsed, segs_of, sects_of. cbn [im_segs im_sects im_dylibs omap list_omap]. rewrite Hl.
  cbn [fmap list_fmap concat]. rewrite !app_nil_r, (proj2 (Z.ltb_ge 16 _)) by lia. cbn [dylibs_of].
  assert (Hn : match c with CDylib _ no _ => [lc + no] | _ => [] end = []) by (destruct c; try done; by edestruct Hd).
  rewrite Hn, !app_nil_r, !take_ge by lia. by destruct c as [| | | | |]; cbn; destruct got.
Qed.

Lemma length_le_words ws : length (concat (le_bytes 8 <$> ws)) = (8 * length ws)%nat.
Proof. induction ws as [|w ws IH]; [done|]. cbn [fmap list_fmap concat length]. rewrite length_app, length_le_bytes, IH. lia. Qed.

Lemma load_command_run m lc c st :
  lcmd_ok c -> code_at m lc (lcmd_bytes c) -> tables_ok st.1.1 ->
  load_command lc st m = Ok (if too_many [c] st.1.1 then None else Some (parsed lc [c] st)) m.
Proof.
  intros Hok Hc Ht. pose proof Hc as Hcmd. unfold lcmd_bytes in Hc.
  part Hc K (lc + 4). part Hc SZ (lc + 8).
  destruct st as [[i off] got]. cbn [fst snd] in *. unfold load_command.
  assert (Hkind : forall k, lcmd_kind c = k -> urange 32 k -> host_read lc 4 m = Ok k m).
  { intros k <- Hk. by apply (host_read_at _ lc _ 4 _ 4 K). }
  destruct Hok as [Hsize Hok].
  destruct c as [s flags xs|eo sz|fl ct regs rip rest|fo fs|kind no rest|cmd rest]; cbn [lcmd_body] in Hc.
  - rewrite (bind_run _ _ _ _ _ (Hkind LC_SEGMENT_64 ltac:(done) ltac:(done))). rewrite Z.eqb_refl.
    erewrite bind_run by (apply (load_segment_run _ _ s flags xs); [by split|exact Hcmd|apply Ht]).
    unfold mret, M_ret. f_equal. apply (add_segment_parsed lc s flags xs (i, off, got)), Ht.
  - rewrite (bind_run _ _ _ _ _ (Hkind LC_MAIN ltac:(done) ltac:(done))). cmds.
    part Hc C1 (lc + 16).
    rewrite (bind_run _ _ _ _ _ (host_read_at _ (lc + 8) _ _ _ 8 C1 ltac:(done) ltac:(done) Hok)).
    rewrite plain_parsed by done. cbn. rewrite orb_true_r. by destruct i.
  - rewrite (bind_run _ _ _ _ _ (Hkind LC_UNIXTHREAD ltac:(done) ltac:(done))). cmds.
    destruct Hok as [Hregs Hrip]. part Hc C1 (lc + 12). part Hc C2 (lc + 16).
    apply (code_at_part _ _ _ _ (lc + 144)) in Hc as [C3 Hc]; [|rewrite length_le_words; lia]. part Hc C4 (lc + 152).
    rewrite (bind_run _ _ _ _ _ (host_read_at _ (lc + 8 + 8 + 16 * 8) _ _ _ 8 C4 ltac:(lia) ltac:(done) Hrip)).
    rewrite plain_parsed by done. cbn. rewrite orb_true_r. by destruct i.
  - rewrite (bind_run _ _ _ _ _ (Hkind LC_DYLD_CHAINED_FIXUPS ltac:(done) ltac:(done))). cmds.
    destruct Hok as [U1 U2]. part Hc C1 (lc + 12).
    rewrite (bind_run _ _ _ _ _ (host_read_at _ (lc + 8) _ _ _ 4 C1 ltac:(done) ltac:(done) U1)).
    rewrite (bind_run _ _ _ _ _ (host_read_at _ (lc + 12) _ _ _ 4 Hc ltac:(done) ltac:(done) U2)).
    rewrite plain_parsed by done. cbn. rewrite orb_false_r. by destruct i.
  - destruct Hok as [Hk U]. part Hc C1 (lc + 12).
    assert (Hk32 : urange 32 kind) by (unfold dylib_kinds in Hk; set_unfold in Hk; unfold urange; decompose sum Hk; subst; done).
    rewrite (bind_run _ _ _ _ _ (Hkind kind ltac:(done) Hk32)).
    assert (Hcmds : (kind =? LC_SEGMENT_64) = false /\ (kind =? LC_MAIN) = false /\ (kind =? LC_UNIXTHREAD) = false /\
      (kind =? LC_DYLD_CHAINED_FIXUPS) = false /\ is_one_of kind [LC_LOAD_DYLIB; LC_LOAD_WEAK_DYLIB; LC_REEXPORT_DYLIB] = true).
    { unfold dylib_kinds in Hk. set_unfold in Hk. by decompose sum Hk; subst. }
    destruct Hcmds as (-> & -> & -> & -> & ->). destruct i as [? ? ? segs sects dylibs ? ? ? ? ? ? ? ? ?].
    destruct Ht as (H1 & H2 & H3). cbn [im_segs im_sects im_dylibs] in *.
    unfold too_many, parsed, segs_of, sects_of. cbn -[take]. rewrite !app_nil_r, (proj2 (Z.ltb_ge 16 _)), (take_ge sects) by lia.
    unfold RSD_MAX_DYLIBS. destruct (Z.ltb_spec (Z.of_nat (length dylibs)) 128).
    + rewrite (bind_run _ _ _ _ _ (host_read_at _ (lc + 8) _ _ _ 4 C1 ltac:(done) ltac:(done) U)).
      rewrite take_ge by (rewrite length_app; cbn; lia). by destruct got.
    + rewrite take_app_le, take_ge by lia. by destruct got.
  - destruct Hok as [U Hn]. rewrite (bind_run _ _ _ _ _ (Hkind cmd ltac:(done) U)).
    unfold dylib_kinds in Hn. cbn [app] in Hn. set_unfold in Hn.
    assert (Hcmds : (cmd =? LC_SEGMENT_64) = false /\ (cmd =? LC_MAIN) = false /\ (cmd =? LC_UNIXTHREAD) = false /\
      (cmd =? LC_DYLD_CHAINED_FIXUPS) = false /\ is_one_of cmd [LC_LOAD_DYLIB; LC_LOAD_WEAK_DYLIB; LC_REEXPORT_DYLIB] = false).
    { unfold is_one_of. cbn [existsb]. repeat split; lia. }
    destruct Hcmds as (-> & -> & -> & -> & ->). rewrite plain_parsed by done. cbn. rewrite orb_false_r. by destruct i.
Qed.

Lemma tables_parsed lc c st :
  tables_ok st.1.1 -> too_many [c] st.1.1 = false -> tables_ok (parsed lc [c] st).1.1.
Proof.
  destruct st as [[i off] got]. unfold tables_ok, too_many, parsed. cbn [fst snd im_segs im_sects im_dylibs].
  intros _ Ht. split; [lia|]. rewrite !length_take. lia.
Qed.

Lemma segs_of_cons c cmds : segs_of (c :: cmds) = segs_of [c] ++ segs_of cmds.
Proof. unfold segs_of. cbn. by destruct (loaded c). Qed.

Lemma sects_of_cons c cmds : sects_of (c :: cmds) = sects_of [c] ++ sects_of cmds.
Proof. unfold sects_of. cbn. destruct (loaded c) as [[s xs]|]; [|done]. cbn. by rewrite fmap_app, app_nil_r. Qed.

Lemma take_take_app {A} n (l k : list A) : take n (take n l ++ k) = take n (l ++ k).
Proof.
  destruct (decide (length l <= n)%nat); [by rewrite (take_ge l)|].
  rewrite !take_app_le by (rewrite ?length_take; lia). by rewrite take_take, Nat.min_id.
Qed.

(** The last answer, in front of or behind. *)
Lemma default_last {A B} (f : A -> option B) d xs ys :
  default d (last (omap f (xs ++ ys))) = default (default d (last (omap f xs))) (last (omap f ys)).
Proof. rewrite omap_app, last_app. by destruct (last (omap f ys)). Qed.

Lemma parsed_cons lc c cmds st : parsed lc (c :: cmds) st = parsed (lc + lcmd_size c) cmds (parsed lc [c] st).
Proof.
  destruct st as [[i off] got]. unfold parsed.
  cbn [im_file im_filesz im_slice_off im_segs im_sects im_dylibs im_pref_base im_slide im_entry im_pie im_has_main
       im_fixups_off im_fixups_size im_imports im_stub_base].
  rewrite segs_of_cons, sects_of_cons, !take_take_app, default_last, !app_assoc.
  change (c :: cmds) with ([c] ++ cmds). rewrite !omap_app, !last_app.
  assert (Hd : dylibs_of lc ([c] ++ cmds) = dylibs_of lc [c] ++ dylibs_of (lc + lcmd_size c) cmds).
  { cbn. by rewrite app_nil_r. }
  rewrite Hd, !app_assoc.
  destruct (last (omap entry_of cmds)) as [e|]; destruct (last (omap fixups_of cmds)) as [[]|]; cbn;
    rewrite ?orb_true_r, ?orb_false_r; try done; by destruct (last (omap fixups_of [c])) as [[]|].
Qed.

(** Commands laid out one behind the other are read as what they say, unless
    they have more segments than the table. *)
Lemma load_commands_run m lc cmds st :
  Forall lcmd_ok cmds -> code_at m lc (concat (lcmd_bytes <$> cmds)) -> tables_ok st.1.1 ->
  load_commands (length cmds) lc st m = Ok (if too_many cmds st.1.1 then None else Some (parsed lc cmds st)) m.
Proof.
  intros Hok. revert lc st. induction Hok as [|c cmds Hc _ IH]; intros lc st Hm Ht; cbn [length load_commands].
  - unfold too_many. cbn [segs_of omap list_omap fmap list_fmap]. rewrite app_nil_r.
    destruct Ht as (H1 & H2 & H3). rewrite (proj2 (Z.ltb_ge 16 _)) by lia. unfold mret, M_ret. do 2 f_equal.
    destruct st as [[i off] got]. unfold parsed. cbn. rewrite !app_nil_r, !take_ge by done.
    rewrite orb_false_r. by destruct i.
  - cbn [fmap list_fmap concat] in Hm.
    apply (code_at_part _ _ _ _ (lc + lcmd_size c)) in Hm as [Hcmd Hm];
      [|unfold lcmd_size, lcmd_bytes; rewrite !length_app, !length_le_bytes; lia].
    rewrite (bind_run _ _ _ _ _ (load_command_run m lc c st Hc Hcmd Ht)).
    assert (Hall : too_many (c :: cmds) st.1.1 = too_many [c] st.1.1 || too_many cmds (parsed lc [c] st).1.1).
    { unfold too_many. destruct st as [[i off] got]. unfold parsed. cbn [fst im_segs].
      rewrite segs_of_cons, app_assoc, !length_app.
      destruct (Z.ltb_spec 16 (Z.of_nat (length (im_segs i) + length (segs_of [c])))); [|done]. cbn [orb]. apply Z.ltb_lt. lia. }
    rewrite Hall. destruct (too_many [c] st.1.1) eqn:E; cbn [orb]; [done|].
    unfold lcmd_bytes in Hcmd. part Hcmd C1 (lc + 4). part Hcmd C2 (lc + 8).
    assert (Us : urange (8 * 4) (lcmd_size c)) by (destruct Hc as [Hc _]; unfold urange, lcmd_size in *; lia).
    rewrite (bind_run _ _ _ _ _ (host_read_at _ (lc + 4) _ _ _ 4 C2 ltac:(done) ltac:(done) Us)).
    rewrite IH; [|exact Hm|by apply tables_parsed]. by rewrite <- parsed_cons.
Qed.
End parse.

(* ------------------------------------------------------------------ *)
(** ** Placing the segments *)

Definition apart (s t : rsd_seg) : Prop :=
  sg_vmaddr s + sg_vmsize s <= sg_vmaddr t \/ sg_vmaddr t + sg_vmsize t <= sg_vmaddr s.

(** A segment is not empty, ends in the address space, and its part of the file
    fits. *)
Definition seg_fits (s : rsd_seg) : Prop :=
  0 <= sg_vmaddr s /\ 0 < sg_vmsize s /\ sg_vmaddr s + sg_vmsize s < 2 ^ 64 /\ 0 <= sg_filesize s <= sg_vmsize s.

(** [b] lies in the segment, moved by [d]. *)
Definition in_seg (d : Z) (s : rsd_seg) (b : Z) : Prop := sg_vmaddr s + d <= b < sg_vmaddr s + d + sg_vmsize s.

Lemma span_lo_le segs s : s ∈ segs -> span_lo segs <= sg_vmaddr s.
Proof.
  unfold span_lo. generalize (2 ^ 64 - 1). induction segs as [|t segs IH]; intros lo; [by intros ?%not_elem_of_nil|].
  assert (Hle : forall l lo, foldl (fun lo s => if sg_vmaddr s <? lo then sg_vmaddr s else lo) lo l <= lo).
  { intros l. induction l as [|x l IHl]; intros z; cbn [foldl]; [lia|].
    specialize (IHl (if sg_vmaddr x <? z then sg_vmaddr x else z)). destruct (Z.ltb_spec (sg_vmaddr x) z); lia. }
  intros [->|Hs]%elem_of_cons; cbn [foldl]; [|by apply IH].
  specialize (Hle segs (if sg_vmaddr t <? lo then sg_vmaddr t else lo)). destruct (Z.ltb_spec (sg_vmaddr t) lo); lia.
Qed.

Lemma span_lo_range segs s : Forall seg_fits segs -> s ∈ segs -> 0 <= span_lo segs <= sg_vmaddr s.
Proof.
  intros Hf Hs. split; [|by apply span_lo_le]. unfold span_lo.
  assert (Hge : forall lo, 0 <= lo -> 0 <= foldl (fun lo s => if sg_vmaddr s <? lo then sg_vmaddr s else lo) lo segs).
  { clear Hs. induction Hf as [|t segs (? & _) _ IH]; intros lo Hlo; cbn [foldl]; [done|]. apply IH. case_match; lia. }
  by apply Hge.
Qed.

(** The upper end as a maximum. *)
Lemma span_hi_max segs z :
  Forall seg_fits segs -> z < 2 ^ 64 ->
  z <= foldl (fun hi s => Z.max hi (sg_vmaddr s + sg_vmsize s)) z segs < 2 ^ 64 /\
  forall s, s ∈ segs -> sg_vmaddr s + sg_vmsize s <= foldl (fun hi s => Z.max hi (sg_vmaddr s + sg_vmsize s)) z segs.
Proof.
  intros Hf. revert z. induction Hf as [|x l (? & ? & ? & _) Hf IH]; intros z Hz; cbn [foldl].
  - split; [lia|]. by intros s ?%not_elem_of_nil.
  - destruct (IH (Z.max z (sg_vmaddr x + sg_vmsize x)) ltac:(lia)) as [H2 H3]. split; [lia|].
    intros s [->|Hs]%elem_of_cons; [lia|by apply H3].
Qed.

Lemma span_hi_ge segs s : Forall seg_fits segs -> s ∈ segs -> sg_vmaddr s + sg_vmsize s <= span_hi segs < 2 ^ 64.
Proof.
  intros Hf Hs.
  assert (E : forall z, foldl (fun hi s => let e := u64 (sg_vmaddr s + sg_vmsize s) in if hi <? e then e else hi) z segs =
    foldl (fun hi s => Z.max hi (sg_vmaddr s + sg_vmsize s)) z segs).
  { clear Hs. induction Hf as [|x l (? & ? & ? & _) Hf IH]; intros z; cbn [foldl]; [done|].
    rewrite <- IH. f_equal. rewrite uwrap_small by (unfold urange; lia). cbv zeta. case_match; lia. }
  unfold span_hi. rewrite E. destruct (span_hi_max segs 0 Hf ltac:(lia)) as [H1 H2]. specialize (H2 s Hs). lia.
Qed.

(** The memory behind the copies. *)
Fixpoint write_segs (data : rsd_seg -> list Z) (d : Z) (segs : list rsd_seg) (mem : gmap Z Z) : gmap Z Z :=
  match segs with
  | [] => mem
  | s :: segs => write_segs data d segs (write_bytes mem (sg_vmaddr s + d) (data s))
  end.

Lemma write_segs_outside data d segs mem b :
  (forall s, s ∈ segs -> ~ sg_vmaddr s + d <= b < sg_vmaddr s + d + Z.of_nat (length (data s))) ->
  write_segs data d segs mem !! b = mem !! b.
Proof.
  revert mem. induction segs as [|s segs IH]; intros mem Hb; cbn [write_segs]; [done|].
  rewrite IH by (intros; apply Hb; by right). apply write_bytes_outside, Hb. by left.
Qed.

Lemma write_segs_read data d segs mem s :
  ForallOrdPairs apart segs -> (forall t, t ∈ segs -> Z.of_nat (length (data t)) <= sg_vmsize t) -> s ∈ segs ->
  read_bytes (write_segs data d segs mem) (sg_vmaddr s + d) (length (data s)) = Some (data s).
Proof.
  intros Hap. revert mem. induction Hap as [|t segs Ht Hap IH]; intros mem Hlen; [by intros ?%not_elem_of_nil|].
  intros [->|Hs]%elem_of_cons; cbn [write_segs].
  - rewrite (read_bytes_ext _ (write_bytes mem (sg_vmaddr t + d) (data t))); [apply read_write_same|].
    intros b Hb. apply write_segs_outside. intros u Hu.
    pose proof (proj1 (Forall_forall _ _) Ht u Hu) as Hp. unfold apart in Hp.
    pose proof (Hlen t ltac:(by left)). pose proof (Hlen u ltac:(by right)). lia.
  - apply IH; [|done]. intros u Hu. apply Hlen. by right.
Qed.

Section place.
Context `{HostOS}.

(** The file holds [data] for the segments, outside of where they go. *)
Record copyable (data : rsd_seg -> list Z) (slice d : Z) (segs : list rsd_seg) (mem : gmap Z Z) : Prop := {
  cp_len : forall s, s ∈ segs -> Z.of_nat (length (data s)) = sg_filesize s;
  cp_src : forall s, s ∈ segs -> read_bytes mem (slice + sg_fileoff s) (length (data s)) = Some (data s);
  cp_dst : forall s b, s ∈ segs -> in_seg d s b -> is_Some (mem !! b);
  cp_apart : forall s t b, s ∈ segs -> t ∈ segs ->
    slice + sg_fileoff s <= b < slice + sg_fileoff s + sg_filesize s -> ~ in_seg d t b
}.

Lemma copyable_step data slice d s segs mem :
  Forall seg_fits (s :: segs) -> copyable data slice d (s :: segs) mem ->
  copyable data slice d segs (write_bytes mem (sg_vmaddr s + d) (data s)).
Proof.
  intros [Hs _]%Forall_cons [L S D A]. assert (Hin : forall t, t ∈ segs -> t ∈ s :: segs) by (intros; by right).
  assert (Hs' : s ∈ s :: segs) by by left. destruct Hs as (_ & _ & _ & Hfs). pose proof (L s Hs').
  split; auto.
  - intros t Ht. rewrite <- (S t) by auto. symmetry. apply read_bytes_ext. intros b Hb. symmetry. apply write_bytes_outside. intros Hw.
    rewrite (L t) in Hb by auto. apply (A t s b); [by auto|done|lia|]. unfold in_seg. lia.
  - intros t b Ht Hb. apply write_bytes_mapped. left. eauto.
  - intros t u b Ht Hu. apply A; auto.
Qed.

Lemma copy_segs_run data slice slide d segs m :
  Forall seg_fits segs -> (forall s, s ∈ segs -> u64 (sg_vmaddr s + slide) = sg_vmaddr s + d) ->
  copyable data slice d segs (mem_of m) ->
  copy_segs slice slide segs m = Ok tt (with_mem (write_segs data d segs (mem_of m)) m).
Proof.
  revert m. induction segs as [|s segs IH]; intros m Hf Hd Hc; cbn [copy_segs write_segs].
  - by destruct m as [? ? [? ?] ? ?].
  - assert (Hs : s ∈ s :: segs) by by left. pose proof Hf as [Hfs Hf']%Forall_cons.
    destruct Hfs as (_ & _ & _ & Hsz). pose proof (cp_len _ _ _ _ _ Hc s Hs) as Hl.
    pose proof (cp_src _ _ _ _ _ Hc s Hs) as Hsrc.
    assert (E : when (nz (sg_filesize s))
        (bs ← host_bytes (slice + sg_fileoff s) (sg_filesize s); host_store (u64 (sg_vmaddr s + slide)) bs) m =
      Ok tt (with_mem (write_bytes (mem_of m) (sg_vmaddr s + d) (data s)) m)).
    { unfold nz. destruct (Z.eqb_spec (sg_filesize s) 0) as [E0|E0]; cbn [negb when].
      - destruct (data s); [|cbn in Hl; lia]. by destruct m as [? ? [? ?] ? ?].
      - erewrite bind_run; [|by apply (host_bytes_at _ _ (slice + sg_fileoff s) (data s))].
        rewrite Hd by done. apply host_store_ok. split; [done|]. apply read_bytes_is_Some. intros b Hb.
        apply (cp_dst _ _ _ _ _ Hc s); [done|]. unfold in_seg. lia. }
    rewrite (bind_run _ _ _ _ _ E), IH; [by destruct m as [? ? [? ?] ? ?]|done| |by apply copyable_step].
    intros t Ht. apply Hd. by right.
Qed.

(** The permissions behind the loop. *)
Definition seg_prot (d : Z) (segs : list rsd_seg) (b p : Z) : Z :=
  foldl (fun p s => if decide (in_seg d s b) then sg_initprot s .& 7 else p) p segs.

Lemma protect_segs_run slide d segs m :
  Forall seg_fits segs -> (forall s, s ∈ segs -> u64 (sg_vmaddr s + slide) = sg_vmaddr s + d) ->
  (forall s, s ∈ segs -> sg_vmaddr s + d + sg_vmsize s < 2 ^ 64) ->
  (forall n, h_alloc (w_host (m_w m)) n = true) -> as_inv (m_as m) ->
  exists s', protect_segs slide segs m = Ok tt (Machine (m_c m) s' (m_w m) (m_cb m) (m_cm m)) /\ as_inv s' /\
    forall b, prot_at (as_reg s') b = seg_prot d segs b <$> prot_at (as_reg (m_as m)) b.
Proof.
  revert m. induction segs as [|s segs IH]; intros m Hf Hd Htop Halloc Hinv; cbn [protect_segs].
  - exists (m_as m). split; [by destruct m|]. split; [done|]. intros b. by destruct (prot_at _ b).
  - assert (Hs : s ∈ s :: segs) by by left. pose proof Hf as [(Hv & Hpos & _) Hf']%Forall_cons.
    unfold mbind, M_bind, gets. rewrite Hd by done.
    pose proof (uwrap_range 64 (sg_vmaddr s + slide) ltac:(lia)) as Hr. rewrite Hd in Hr by done.
    destruct (rsd_as_protect (m_w m) (m_as m) (sg_vmaddr s + d) (sg_vmsize s) (sg_initprot s .& 7)) as [r s1] eqn:E.
    assert (r = 0) as ->.
    { unfold rsd_as_protect in E. rewrite Halloc in E. destruct (negb (nz (sg_vmsize s))); by injection E as <- _. }
    destruct (rsd_as_protect_effect _ _ _ _ _ _ Hinv Hr Hpos ltac:(by apply Htop) E) as (Hinv1 & Hp1 & _).
    cbn [snd set_as modify].
    destruct (IH (Machine (m_c m) s1 (m_w m) (m_cb m) (m_cm m))) as (s' & Hrun & Hinv' & Hp'); try done.
    { intros t Ht. apply Hd. by right. } { intros t Ht. apply Htop. by right. }
    exists s'. split; [exact Hrun|]. split; [done|]. intros b. rewrite Hp'. cbn [m_as]. rewrite Hp1.
    destruct (prot_at (as_reg (m_as m)) b); cbn; [|done]. done.
Qed.
End place.

(* ------------------------------------------------------------------ *)
(** ** A whole image *)

(** A thin image: the header fields the loader does not read, the flags and the
    commands. *)
Record macho := MachO { mo_subtype : Z; mo_filetype : Z; mo_flags : Z; mo_cmds : list lcmd }.

Definition macho_bytes (f : macho) : list Z :=
  let cmds := concat (lcmd_bytes <$> mo_cmds f) in
  le_bytes 4 MH_MAGIC_64 ++ le_bytes 4 CPU_TYPE_X86_64 ++ le_bytes 4 (mo_subtype f) ++ le_bytes 4 (mo_filetype f) ++
  le_bytes 4 (Z.of_nat (length (mo_cmds f))) ++ le_bytes 4 (Z.of_nat (length cmds)) ++
  le_bytes 4 (mo_flags f) ++ le_bytes 4 0 ++ cmds.

(** Position independent, of commands that have an encoding, with an entry point
    and segments that fit the table and do not overlap. *)
Record macho_ok (f : macho) : Prop := {
  mo_pie : nz (mo_flags f .& MH_PIE) = true;
  mo_flags_range : urange 32 (mo_flags f);
  mo_count : urange 32 (Z.of_nat (length (mo_cmds f)));
  mo_cmds_ok : Forall lcmd_ok (mo_cmds f);
  mo_entry : is_Some (last (omap entry_of (mo_cmds f)));
  mo_some : segs_of (mo_cmds f) <> [];
  mo_few : (length (segs_of (mo_cmds f)) <= 16)%nat;
  mo_fit : Forall seg_fits (segs_of (mo_cmds f));
  mo_apart : ForallOrdPairs apart (segs_of (mo_cmds f))
}.

Lemma seg_prot_out d segs b p : (forall s, s ∈ segs -> ~ in_seg d s b) -> seg_prot d segs b p = p.
Proof.
  unfold seg_prot. revert p. induction segs as [|s segs IH]; intros p Hb; cbn [foldl]; [done|].
  rewrite decide_False by (apply Hb; by left). apply IH. intros t Ht. apply Hb. by right.
Qed.

Lemma seg_prot_in d segs s b p :
  ForallOrdPairs apart segs -> s ∈ segs -> in_seg d s b -> seg_prot d segs b p = sg_initprot s .& 7.
Proof.
  unfold seg_prot. intros Hap. revert p. induction Hap as [|t segs Ht Hap IH]; intros p; [by intros ?%not_elem_of_nil|].
  intros [->|Hs]%elem_of_cons Hb; cbn [foldl]; [|by apply IH].
  rewrite decide_True by done. apply seg_prot_out. intros u Hu Hb'.
  pose proof (proj1 (Forall_forall _ _) Ht u Hu) as Hp. unfold apart, in_seg in *. lia.
Qed.

Lemma apart_same d segs s t b :
  ForallOrdPairs apart segs -> s ∈ segs -> t ∈ segs -> in_seg d s b -> in_seg d t b -> s = t.
Proof.
  intros Hap. induction Hap as [|u segs Hu Hap IH]; [by intros ?%not_elem_of_nil|].
  assert (Hne : forall v, v ∈ segs -> in_seg d u b -> in_seg d v b -> False).
  { intros v Hv Hb Hb'. pose proof (proj1 (Forall_forall _ _) Hu v Hv) as Hp. unfold apart, in_seg in *. lia. }
  intros [->|Hs]%elem_of_cons [->|Ht]%elem_of_cons Hb Hb'; [done|exfalso; eauto..|by apply IH].
Qed.

Section whole.
Context `{HostOS} `{!HostOSOk}.

(** What the loader leaves: where the image is, each segment's bytes and
    permissions, and everything that was there before. *)
Record placed (data : rsd_seg -> list Z) (segs : list rsd_seg) (d : Z) (m m' : machine) : Prop := {
  pl_inv : as_inv (m_as m');
  pl_data : forall s, s ∈ segs ->
    read_bytes (mem_of m') (sg_vmaddr s + d) (length (data s)) = Some (data s);
  pl_zero : forall s b, s ∈ segs -> in_seg d s b -> sg_vmaddr s + d + sg_filesize s <= b -> mem_of m' !! b = Some 0;
  pl_prot : forall s b, s ∈ segs -> in_seg d s b -> prot_at (as_reg (m_as m')) b = Some (sg_initprot s .& 7);
  pl_mem : forall b, is_Some (mem_of m !! b) -> mem_of m' !! b = mem_of m !! b;
  pl_old : forall b, is_Some (prot_at (as_reg (m_as m)) b) -> prot_at (as_reg (m_as m')) b = prot_at (as_reg (m_as m)) b
}.

Lemma u64_shift v d : 0 <= v + d < 2 ^ 64 -> u64 (v + u64 d) = v + d.
Proof. intros Hr. unfold uwrap. rewrite Zplus_mod_idemp_r. by apply Z.mod_small. Qed.

(** A place for the segments: new memory, recorded, all else as it was. *)
Record reserved (lo hi base : Z) (m : machine) (s1 : rsd_as) (w1 : world) : Prop := {
  re_inv : as_inv s1;
  re_low : 0 <= base;
  re_top : base + (hi - lo) < 2 ^ 64;
  re_new : forall b, base <= b < base + (hi - lo) ->
    mem_of m !! b = None /\ w_mem w1 !! b = Some 0 /\ is_Some (prot_at (as_reg s1) b);
  re_mem : forall b, is_Some (mem_of m !! b) -> w_mem w1 !! b = mem_of m !! b;
  re_old : forall b, is_Some (prot_at (as_reg (m_as m)) b) -> prot_at (as_reg s1) b = prot_at (as_reg (m_as m)) b
}.

Lemma reserve_ok lo hi m base s1 w1 :
  as_inv (m_as m) -> tracked_mapped (m_as m) (mem_of m) -> 0 <= lo < hi -> hi + host_page - 1 < 2 ^ 64 ->
  rsd_as_map (m_w m) (m_as m) lo (hi - lo) (RSD_PROT_R .| RSD_PROT_W) false = (base, s1, w1) -> base <> 0 ->
  reserved lo hi base m s1 w1.
Proof.
  intros Hinv Htr Hlo Hhi Hmap Hbase. pose proof host_page_pos as [Hp _].
  assert (Hlo64 : urange 64 lo) by (unfold urange; lia).
  assert (Hlen : 0 < hi - lo) by lia. assert (Hfit : lo + (hi - lo) + host_page - 1 < 2 ^ 64) by lia.
  destruct (rsd_as_map_inv _ _ _ _ _ _ _ _ _ Hlo64 Hlen Hfit Hmap Hbase)
    as (b0 & size & ml & _ & Hb0 & Hsz & Htop & Hle & Hge & _ & Hnone & Hzero & Hsame).
  destruct (rsd_as_map_effect _ _ _ _ _ _ _ _ _ Hinv Htr Hlo64 Hlen Hfit (fun _ Hx => match Bool.diff_false_true Hx with end) Hmap Hbase)
    as (Hinv1 & _ & _ & Hnew & Hold & _).
  specialize (Hnone ltac:(by right)). unfold mem_of in *.
  split; [done|lia|lia| | |done].
  - intros b Hb. split; [apply Hnone; lia|]. destruct (Hnew b Hb) as [E1 E2]. split; [done|by rewrite E1].
  - intros b Hb. apply Hsame. intros Hin. rewrite Hnone in Hb by done. by destruct Hb.
Qed.

Lemma place_image_run data slice i entry_off m base s1 w1 :
  let segs := im_segs i in let lo := span_lo segs in let hi := span_hi segs in
  im_pie i = true -> segs <> [] -> Forall seg_fits segs -> ForallOrdPairs apart segs ->
  (forall s, s ∈ segs -> Z.of_nat (length (data s)) = sg_filesize s /\ code_at m (slice + sg_fileoff s) (data s)) ->
  as_inv (m_as m) -> tracked_mapped (m_as m) (mem_of m) -> hi + host_page - 1 < 2 ^ 64 ->
  rsd_as_map (m_w m) (m_as m) lo (hi - lo) (RSD_PROT_R .| RSD_PROT_W) false = (base, s1, w1) -> base <> 0 ->
  (forall n, h_alloc (w_host w1) n = true) ->
  exists m', place_image slice (i, entry_off, true) m =
    Ok (0, im_with_entry (u64 ((if im_has_main i then im_pref_base i + entry_off else entry_off) + u64 (base - lo)))
             (im_with_slide (u64 (base - lo)) i)) m' /\
    placed data segs (base - lo) m m'.
Proof.
  intros segs lo hi Hpie Hne Hfit Hap Hdata Hinv Htr Hhi Hmap Hbase Halloc.
  assert (Hlh : 0 <= lo < hi /\ forall s, s ∈ segs -> lo <= sg_vmaddr s /\ sg_vmaddr s + sg_vmsize s <= hi).
  { assert (Hall : forall s, s ∈ segs -> 0 <= lo <= sg_vmaddr s /\ sg_vmaddr s + sg_vmsize s <= hi /\ 0 < sg_vmsize s).
    { intros s Hs. pose proof (span_lo_range segs s Hfit Hs). pose proof (span_hi_ge segs s Hfit Hs).
      destruct (proj1 (Forall_forall _ _) Hfit s Hs) as (_ & ? & _). subst lo hi. lia. }
    split; [|intros s Hs; specialize (Hall s Hs); lia].
    destruct segs as [|s0 ?]; [done|]. specialize (Hall s0 ltac:(by left)). lia. }
  destruct Hlh as [Hlo Hseg].
  destruct (reserve_ok lo hi m base s1 w1 Hinv Htr Hlo Hhi Hmap Hbase) as [Rinv Rlow Rtop Rnew Rmem Rold].
  set (d := base - lo) in *.
  assert (Hin : forall s b, s ∈ segs -> in_seg d s b -> base <= b < base + (hi - lo)).
  { intros s b Hs Hb. specialize (Hseg s Hs). unfold in_seg, d in Hb. lia. }
  assert (Hd : forall s, s ∈ segs -> u64 (sg_vmaddr s + u64 d) = sg_vmaddr s + d).
  { intros s Hs. apply u64_shift. specialize (Hseg s Hs). destruct (proj1 (Forall_forall _ _) Hfit s Hs) as (_ & ? & _). unfold d. lia. }
  set (m1 := Machine (m_c m) s1 w1 (m_cb m) (m_cm m)).
  assert (Hcp : copyable data slice d segs (mem_of m1)).
  { split; [by intros; apply Hdata| | |].
    - intros s Hs. destruct (Hdata s Hs) as [_ Hc]. rewrite <- Hc. apply read_bytes_ext. intros b Hb. apply Rmem.
      eapply read_bytes_mapped; [exact Hc|exact Hb].
    - intros s b Hs Hb. destruct (Rnew b (Hin s b Hs Hb)) as (_ & E & _). by exists 0.
    - intros s t b Hs Ht Hb Hb'. destruct (Hdata s Hs) as [Hl Hc]. destruct (Rnew b (Hin t b Ht Hb')) as (E & _).
      assert (Hsome : is_Some (mem_of m !! b)) by (eapply read_bytes_mapped; [exact Hc|lia]). rewrite E in Hsome. by destruct Hsome. }
  pose proof (copy_segs_run data slice (u64 d) d segs m1 Hfit Hd Hcp) as Hcopy.
  set (m2 := with_mem (write_segs data d segs (mem_of m1)) m1) in *.
  destruct (protect_segs_run (u64 d) d segs m2 Hfit Hd) as (s2 & Hprot & Hinv2 & Hp2); [|exact Halloc|exact Rinv|].
  { intros s Hs. specialize (Hseg s Hs). unfold d. lia. }
  exists (Machine (m_c m2) s2 (m_w m2) (m_cb m2) (m_cm m2)). split.
  - unfold place_image. fold segs. rewrite bool_decide_false by done. cbn [orb negb]. fold lo hi.
    rewrite (uwrap_small 64 (hi - lo)) by (unfold urange; lia). unfold mbind at 1 2, M_bind at 1 2. cbn [gets]. rewrite Hpie.
    cbn [negb]. rewrite Hmap. unfold nz. rewrite (proj2 (Z.eqb_neq base 0)) by done. cbn [negb].
    do 2 (erewrite bind_run; [|reflexivity]). cbn [m_c m_as m_w m_cb m_cm]. fold d.
    replace (im_segs (im_with_slide (u64 d) i)) with segs by by destruct i.
    replace (im_slide (im_with_slide (u64 d) i)) with (u64 d) by by destruct i.
    rewrite (bind_run _ _ _ _ _ Hcopy), (bind_run _ _ _ _ _ Hprot). unfold mret, M_ret. by destruct i.
  - assert (Hlen : forall t, t ∈ segs -> Z.of_nat (length (data t)) <= sg_vmsize t).
    { intros t Ht. destruct (Hdata t Ht) as [-> _]. destruct (proj1 (Forall_forall _ _) Hfit t Ht) as (_ & _ & _ & ?). lia. }
    split; cbn [m_as].
    + exact Hinv2.
    + intros s Hs. by apply write_segs_read.
    + intros s b Hs Hb Hge. unfold mem_of, m2, with_mem. cbn [m_w w_mem]. rewrite write_segs_outside.
      * by destruct (Rnew b (Hin s b Hs Hb)) as (_ & E & _).
      * intros t Ht Hb'. assert (in_seg d t b) by (unfold in_seg; specialize (Hlen t Ht); lia).
        assert (s = t) as <- by by eapply apart_same. destruct (Hdata s Hs) as [Hl _]. lia.
    + intros s b Hs Hb. rewrite Hp2. change (m_as m2) with s1. destruct (Rnew b (Hin s b Hs Hb)) as (_ & _ & [p ->]). cbn [fmap option_fmap option_map].
      f_equal. by eapply seg_prot_in.
    + intros b Hb. unfold mem_of at 1, m2, with_mem. cbn [m_w w_mem]. rewrite write_segs_outside; [by apply Rmem|].
      intros t Ht Hb'. destruct (Rnew b) as (E & _); [|rewrite E in Hb; by destruct Hb].
      apply (Hin t b Ht). unfold in_seg. specialize (Hlen t Ht). lia.
    + intros b Hb. rewrite Hp2. change (m_as m2) with s1. rewrite Rold by done. destruct (prot_at (as_reg (m_as m)) b) as [p|] eqn:Ep; [|done].
      cbn. f_equal. apply seg_prot_out. intros s Hs Hb'.
      destruct (Rnew b (Hin s b Hs Hb')) as (E & _). destruct (Htr b) as [x Hx]; [by rewrite Ep|]. congruence.
Qed.

(** The entry point, before the slide. *)
Definition entry_vmaddr (cmds : list lcmd) : Z :=
  match last (omap entry_of cmds) with
  | Some (true, off) => default 0 (last (omap text_of (segs_of cmds))) + off
  | Some (false, rip) => rip
  | None => 0
  end.

Lemma find_slice_thin m p sz rest :
  4 <= sz -> code_at m p (le_bytes 4 MH_MAGIC_64 ++ le_bytes 4 CPU_TYPE_X86_64 ++ rest) ->
  find_slice p sz m = Ok (Some 0) m.
Proof.
  intros Hsz Hc. part Hc C1 (p + 4). part Hc C2 (p + 8). unfold find_slice.
  rewrite (proj2 (Z.ltb_ge sz 4)) by lia.
  rewrite (bind_run _ _ _ _ _ (host_read_at _ p _ _ _ 4 C1 ltac:(done) ltac:(done) ltac:(done))).
  change (is_one_of MH_MAGIC_64 [MH_MAGIC_64; MH_CIGAM_64]) with true. cbv iota.
  by rewrite (bind_run _ _ _ _ _ (host_read_at _ (p + 4) _ _ _ 4 C2 ltac:(done) ltac:(done) ltac:(done))).
Qed.

(** Before the segments are placed: what is known of the file. *)
Lemma load_slices_parse f p sz m :
  let cmds := mo_cmds f in
  macho_ok f -> 4 <= sz -> code_at m p (macho_bytes f) ->
  load_slices (im_with_file p (im_with_filesz sz zero_image)) m =
  place_image p (parsed (p + 32) cmds
    (im_with_pie true (im_with_slice_off 0 (im_with_file p (im_with_filesz sz zero_image))), 0, false)) m.
Proof.
  intros cmds [Hpie Hfl Hn Hok Hentry Hsome Hfew Hfit Hap] Hsz Hc. unfold load_slices.
  erewrite bind_run by (eapply find_slice_thin; [exact Hsz|exact Hc]). cbv iota beta. cbn [im_file im_with_file].
  unfold macho_bytes in Hc. rewrite Z.add_0_r.
  part Hc C1 (p + 4). part Hc C2 (p + 8). part Hc C3 (p + 12). part Hc C4 (p + 16).
  part Hc C5 (p + 20). part Hc C6 (p + 24). part Hc C7 (p + 28). part Hc C8 (p + 32).
  rewrite (bind_run _ _ _ _ _ (host_read_at _ (p + 24) _ _ _ 4 C7 ltac:(done) ltac:(done) Hfl)).
  rewrite Hpie. cbv zeta.
  rewrite (bind_run _ _ _ _ _ (host_read_at _ (p + 16) _ _ _ 4 C5 ltac:(done) ltac:(done) Hn)).
  rewrite Nat2Z.id.
  erewrite bind_run by (apply load_commands_run; [exact Hok|exact Hc|cbn; unfold tables_ok; cbn; lia]).
  assert (E : too_many cmds zero_image = false) by (unfold too_many; cbn [im_segs zero_image app]; subst cmds; lia).
  unfold too_many in *. cbn [im_with_pie im_with_slice_off im_with_file im_with_filesz zero_image fst im_segs] in *.
  subst cmds. by rewrite E.
Qed.

(** The loader on a whole file. *)
Lemma load_slices_run f data p sz m base s1 w1 :
  let cmds := mo_cmds f in let segs := segs_of cmds in
  let lo := span_lo segs in let hi := span_hi segs in
  macho_ok f -> 4 <= sz -> code_at m p (macho_bytes f) ->
  (forall s, s ∈ segs -> Z.of_nat (length (data s)) = sg_filesize s /\ code_at m (p + sg_fileoff s) (data s)) ->
  as_inv (m_as m) -> tracked_mapped (m_as m) (mem_of m) -> hi + host_page - 1 < 2 ^ 64 ->
  rsd_as_map (m_w m) (m_as m) lo (hi - lo) (RSD_PROT_R .| RSD_PROT_W) false = (base, s1, w1) -> base <> 0 ->
  (forall n, h_alloc (w_host w1) n = true) ->
  exists i m', load_slices (im_with_file p (im_with_filesz sz zero_image)) m = Ok (0, i) m' /\
    im_segs i = segs /\ im_sects i = take 64 (sects_of cmds) /\ im_dylibs i = take 128 (dylibs_of (p + 32) cmds) /\
    im_slide i = u64 (base - lo) /\ im_entry i = u64 (entry_vmaddr cmds + (base - lo)) /\
    placed data segs (base - lo) m m'.
Proof.
  intros cmds segs lo hi Hf Hsz Hc Hdata Hinv Htr Hhi Hmap Hbase Halloc.
  rewrite (load_slices_parse f p sz m Hf Hsz Hc).
  destruct Hf as [Hpie Hfl Hn Hok [[hm eo] Hentry] Hsome Hfew Hfit Hap].
  unfold parsed. cbn [im_with_pie im_with_slice_off im_with_file im_with_filesz zero_image im_file im_filesz im_slice_off
    im_segs im_sects im_dylibs im_pref_base im_slide im_entry im_pie im_has_main im_fixups_off im_fixups_size im_imports
    im_stub_base app]. fold cmds. unfold entry_vmaddr. fold cmds in Hentry. rewrite Hentry. cbn [default fmap option_fmap option_map fst snd orb].
  rewrite bool_decide_true by eauto.
  match goal with |- context [place_image p (?i0, _, _)] => set (i := i0) end.
  destruct (place_image_run data p i eo m base s1 w1 eq_refl Hsome Hfit Hap Hdata Hinv Htr Hhi Hmap Hbase Halloc)
    as (m' & Hrun & Hpl).
  eexists _, m'. split; [exact Hrun|]. subst i. cbn [im_segs im_sects im_dylibs im_slide im_entry im_with_entry im_with_slide im_pref_base im_has_main].
  do 4 (split; [done|]). split; [|exact Hpl]. destruct hm; unfold uwrap; by rewrite Zplus_mod_idemp_r.
Qed.

(** C13.  A position independent thin image whose load commands are laid out as
    the format says, loaded where the host has room for its span, is placed as
    it asks: the tables hold its segments, sections and libraries, every
    segment's bytes are at its address plus the slide with zeros behind them and
    the permissions [initprot] says, the entry point is slid with the image, and
    no byte or permission that was there before is changed. *)
Theorem load_slices_spec f data p sz m base s1 w1 :
  let cmds := mo_cmds f in let segs := segs_of cmds in
  let lo := span_lo segs in let hi := span_hi segs in
  macho_ok f -> 4 <= sz -> code_at m p (macho_bytes f) ->
  (forall s, s ∈ segs -> Z.of_nat (length (data s)) = sg_filesize s /\ code_at m (p + sg_fileoff s) (data s)) ->
  as_inv (m_as m) -> tracked_mapped (m_as m) (mem_of m) -> hi + host_page - 1 < 2 ^ 64 ->
  rsd_as_map (m_w m) (m_as m) lo (hi - lo) (RSD_PROT_R .| RSD_PROT_W) false = (base, s1, w1) -> base <> 0 ->
  (forall n, h_alloc (w_host w1) n = true) ->
  exists i m', load_slices (im_with_file p (im_with_filesz sz zero_image)) m = Ok (0, i) m' /\
    im_segs i = segs /\ im_sects i = take 64 (sects_of cmds) /\ im_dylibs i = take 128 (dylibs_of (p + 32) cmds) /\
    im_slide i = u64 (base - lo) /\ im_entry i = u64 (entry_vmaddr cmds + (base - lo)) /\
    placed data segs (base - lo) m m'.
Proof. apply load_slices_run. Qed.
End whole.
