(* ===== verification/ImageSafe.v ===== *)
(** What [rsd_load] guarantees of every file, malformed ones included: the
    tables of the image stay within their arrays, and a load that fails leaves
    the machine's registers, regions and translations alone.  Concrete images
    on the sample kernel. *)
From S2P Require Import Prelude.
From S2P Require Import Memory.
From S2P Require Import AddressSpace.
From S2P Require Import SampleHost.
From S2P Require Import Flags.
From S2P Require Import Stubs.
From S2P Require Import Machine.
From S2P Require Import Access.
From S2P Require Import Keeps.
From S2P Require Import Encoding.
From S2P Require Import Image.
From S2P Require Import ImageLoad.

(* ------------------------------------------------------------------ *)
(** ** Runs *)

(** Take the binds of a run in [Hr] apart. *)
Ltac run_step Hr :=
  let a := fresh "a" in let m := fresh "m" in let H := fresh "Hc" in
  apply bind_ok in Hr as (a & m & H & Hr).

Section tables.
Context `{HostOS}.

Lemma read_sects_len n p l m l' m' :
  read_sects n p l m = Ok l' m' -> (length l <= 64)%nat -> (length l' <= 64)%nat.
Proof.
  revert p l m. induction n as [|n IH]; intros p l m; cbn [read_sects]; [by intros [= <- _]|].
  unfold RSD_MAX_SECTS. destruct (Z.leb_spec 64 (Z.of_nat (length l))); [by intros [= <- _]|].
  intros Hr Hl. do 4 run_step Hr. apply IH in Hr; [done|]. rewrite length_app. cbn. lia.
Qed.

Lemma load_segment_tables lc i m i' m' :
  load_segment lc i m = Ok (Some i') m' -> tables_ok i -> tables_ok i'.
Proof.
  unfold load_segment. intros Hr (H1 & H2 & H3). run_step Hr. destruct a; [by injection Hr as <- _|].
  unfold RSD_MAX_SEGS in Hr. destruct (Z.leb_spec 16 (Z.of_nat (length (im_segs i)))); [done|].
  do 10 run_step Hr. injection Hr as <- _. apply read_sects_len in Hc9; [|by destruct a6].
  unfold tables_ok. destruct a6; cbn [im_segs im_sects im_dylibs im_with_sects im_with_segs im_with_pref_base];
    rewrite length_app; cbn [length]; repeat split; (done || lia).
Qed.

Lemma load_command_tables lc st m st' m' :
  load_command lc st m = Ok (Some st') m' -> tables_ok st.1.1 -> tables_ok st'.1.1.
Proof.
  destruct st as [[i off] got]. unfold load_command. intros Hr Ht. cbn [fst] in Ht. run_step Hr.
  repeat case_match.
  - run_step Hr. destruct a0 as [i'|]; [|done]. injection Hr as <- _. by eapply load_segment_tables.
  - run_step Hr. by injection Hr as <- _.
  - run_step Hr. by injection Hr as <- _.
  - do 2 run_step Hr. by injection Hr as <- _.
  - run_step Hr. injection Hr as <- _. destruct Ht as (T1 & T2 & T3). unfold RSD_MAX_DYLIBS in *.
    repeat split; cbn [fst im_segs im_sects im_dylibs im_with_dylibs]; [done..|]. rewrite length_app. cbn. lia.
  - by injection Hr as <- _.
  - by injection Hr as <- _.
Qed.

Lemma load_commands_tables n lc st m st' m' :
  load_commands n lc st m = Ok (Some st') m' -> tables_ok st.1.1 -> tables_ok st'.1.1.
Proof.
  revert lc st m. induction n as [|n IH]; intros lc st m; cbn [load_commands]; [by intros [= <- _]|].
  intros Hr Ht. run_step Hr. destruct a as [st1|]; [|done]. run_step Hr.
  eapply IH; [exact Hr|]. by eapply load_command_tables.
Qed.

(** The walk only reads. *)
Lemma keeps_strcmp_is a s : keeps eq (strcmp_is a s).
Proof. revert a. induction s as [|c s IH]; intros a; cbn [strcmp_is]; keeps_tac. Qed.
Lemma keeps_fat_slice n fa : keeps eq (fat_slice n fa).
Proof. revert fa. induction n as [|n IH]; intros fa; cbn [fat_slice]; keeps_tac. Qed.
Lemma keeps_read_sects n p l : keeps eq (read_sects n p l).
Proof. revert p l. induction n as [|n IH]; intros p l; cbn [read_sects]; keeps_tac. Qed.
Hint Resolve keeps_strcmp_is keeps_fat_slice keeps_read_sects : keeps.
Lemma keeps_find_slice f sz : keeps eq (find_slice f sz).
Proof. unfold find_slice. keeps_tac. Qed.
Lemma keeps_load_segment lc i : keeps eq (load_segment lc i).
Proof. unfold load_segment. keeps_tac. Qed.
Hint Resolve keeps_find_slice keeps_load_segment : keeps.
Lemma keeps_load_command lc st : keeps eq (load_command lc st).
Proof. destruct st as [[i off] got]. unfold load_command. keeps_tac. Qed.
Hint Resolve keeps_load_command : keeps.
Lemma keeps_load_commands n lc st : keeps eq (load_commands n lc st).
Proof. revert lc st. induction n as [|n IH]; intros lc st; cbn [load_commands]; keeps_tac. Qed.
End tables.

(* ------------------------------------------------------------------ *)
(** ** The result *)

(** A mapping that fails records nothing. *)
Lemma rsd_as_map_zero `{HostOS} `{!HostOSOk} w s at_ len pr fixed s' w' :
  rsd_as_map w s at_ len pr fixed = (0, s', w') -> as_reg s' = as_reg s.
Proof.
  unfold rsd_as_map. destruct (negb (nz len)); [by intros [= <- <-]|]. cbv zeta.
  assert (Hpos : forall w0 want n fx p w1, try_mmap w0 want n fx = (Some p, w1) -> 0 < p).
  { intros w0 want n fx p w1 Hm. apply try_mmap_addr in Hm. lia. }
  set (hi := if nz at_ then _ else _). clearbody hi.
  destruct (try_mmap w _ _ _) as [p w1] eqn:E1.
  set (q := match p with Some _ => _ | None => _ end).
  assert (Hq : forall b, q.1 = Some b -> 0 < b).
  { intros b. subst q. destruct p as [b0|]; cbn; [intros [= <-]; by eapply Hpos|].
    destruct (nz at_ && negb fixed); [|done]. destruct (try_mmap w1 _ _ _) eqn:E2. cbn. intros ->. by eapply Hpos. }
  clearbody q. destruct q as [[b|] w2]; [|by intros [= <- <-]]. specialize (Hq b eq_refl).
  destruct (as_insert _ _ _ _ _) as [s1|].
  - intros [= Hz <- _]. exfalso. unfold nz in Hz. destruct (Z.eqb_spec at_ 0); cbn in Hz; [lia|]. case_match; lia.
  - destruct (h_munmap _ _ _ _) as [? [? ?]]. by intros [= <- _].
Qed.

Section result.
Context `{HostOS} `{!HostOSOk}.

(** All but the host's side of the machine. *)
Definition undone (m m' : machine) (i : rsd_image) : Prop :=
  im_file i ∈ [0; MAP_FAILED] /\ im_imports i = [] /\ m_c m' = m_c m /\
  as_reg (m_as m') = as_reg (m_as m) /\ m_cb m' = m_cb m /\ m_cm m' = m_cm m.

(** Every load_outcome: what holds of the tables, and of a failure. *)
Definition load_outcome (m : machine) (x : Z * rsd_image) (m' : machine) : Prop :=
  tables_ok x.2 /\ (x.1 = 0 /\ im_segs x.2 <> [] \/ x.1 = -1 /\ undone m m' x.2).

Lemma load_failed_outcome i m0 m x m' :
  load_failed i m = Ok x m' -> tables_ok i -> m_c m = m_c m0 -> as_reg (m_as m) = as_reg (m_as m0) ->
  m_cb m = m_cb m0 -> m_cm m = m_cm m0 -> load_outcome m0 x m'.
Proof.
  unfold load_failed, rsd_unload. intros Hr Ht Hc Has Hcb Hcm. run_step Hr. injection Hr as <- <-. run_step Hc0.
  injection Hc0 as <- <-. split; [done|right]. split; [done|]. split; [by left|]. split; [done|].
  revert Hc1. case_match; [|by intros [= _ <-]]. intros Hr. run_step Hr. injection Hc0 as <- <-.
  destruct (h_munmap _ _ _ _) as [? [? ?]]. by injection Hr as _ <-.
Qed.

Lemma keeps_copy_segs slice slide segs : keeps (fun m m' => m_as m' = m_as m) (copy_segs slice slide segs).
Proof.
  induction segs as [|s segs IH]; cbn [copy_segs].
  all: assert (PreOrder (fun m m' : machine => m_as m' = m_as m)) by (split; [by intros ?|intros ? ? ? ? ?; congruence]).
  - apply keeps_ret, _.
  - apply keeps_bind; [done| |by intros []]. apply keeps_when; [done|].
    apply keeps_bind; [done|apply keeps_host_bytes, _|]. intros bs m u m'. unfold host_store. by case_match; [intros [= _ <-]|].
Qed.

Lemma place_image_outcome slice st m x m' :
  place_image slice st m = Ok x m' -> tables_ok st.1.1 -> load_outcome m x m'.
Proof.
  destruct st as [[i eo] got]. unfold place_image. intros Hr Ht. cbn [fst] in Ht.
  destruct (bool_decide (im_segs i = []) || negb got) eqn:E; [by eapply load_failed_outcome|].
  apply orb_false_iff in E as [E%bool_decide_eq_false _]. do 2 run_step Hr. injection Hc as <- <-. injection Hc0 as <- <-.
  destruct (rsd_as_map _ _ _ _ _ _) as [[base s1] w1] eqn:Em. do 2 run_step Hr. injection Hc as _ <-. injection Hc0 as _ <-.
  destruct (nz base) eqn:Eb; cbn [negb] in Hr.
  - do 2 run_step Hr. injection Hr as <- <-. split; [by destruct i|]. left. split; [done|]. by destruct i.
  - unfold nz in Eb. apply negb_false_iff, Z.eqb_eq in Eb as ->. apply rsd_as_map_zero in Em.
    by eapply load_failed_outcome.
Qed.

Lemma load_slices_outcome p sz m x m' :
  load_slices (im_with_file p (im_with_filesz sz zero_image)) m = Ok x m' -> load_outcome m x m'.
Proof.
  unfold load_slices. intros Hr. run_step Hr. apply keeps_find_slice in Hc as <-.
  assert (Ht0 : tables_ok zero_image) by (unfold tables_ok; cbn; lia).
  destruct a as [off|]; [|by eapply load_failed_outcome].
  do 3 run_step Hr. apply (keeps_host_read eq) in Hc as <-. apply (keeps_host_read eq) in Hc0 as <-.
  pose proof Hc1 as Hk. apply keeps_load_commands in Hk as <-.
  destruct a1 as [st|]; [|by eapply load_failed_outcome].
  eapply place_image_outcome; [exact Hr|]. by eapply load_commands_tables.
Qed.

Context `{!HostFiles}.

Lemma rsd_load_outcome path m x m' : rsd_load path m = Ok x m' -> load_outcome m x m'.
Proof.
  unfold rsd_load. intros Hr. run_step Hr. injection Hc as <- <-.
  assert (Ht0 : tables_ok zero_image) by (unfold tables_ok; cbn; lia).
  destruct (h_open _ _) as [fd h]. run_step Hr. injection Hc as _ <-.
  assert (Hfail : forall m1 f z, f ∈ [0; MAP_FAILED] -> m_c m1 = m_c m -> m_as m1 = m_as m -> m_cb m1 = m_cb m -> m_cm m1 = m_cm m ->
    load_outcome m (-1, im_with_file f (im_with_filesz z zero_image)) m1).
  { intros m1 f z Hf Hc Ha Hcb Hcm. split; [exact Ht0|right]. unfold undone. rewrite Ha. done. }
  destruct (fd <? 0); [injection Hr as <- <-; apply (Hfail _ 0 0); (done || by left)|].
  destruct (h_fstat h fd) as [[sz|] h1].
  - destruct (h_mmap_file _ _ _ _) as [p [h2 mem]]. destruct (h_close h2 fd) as [? h3]. run_step Hr. injection Hc as _ <-.
    destruct p as [file|].
    + apply load_slices_outcome in Hr as [Ho1 Ho2]. split; [exact Ho1|]. done.
    + injection Hr as <- <-. apply Hfail; (done || by right; left).
  - destruct (h_close h1 fd) as [? h3]. run_step Hr. injection Hc as _ <-. injection Hr as <- <-.
    apply (Hfail _ 0 0); (done || by left).
Qed.

(** Whatever the file holds, the segment, section and library tables of the
    image never outgrow their arrays. *)
Theorem rsd_load_tables path m r i m' :
  rsd_load path m = Ok (r, i) m' ->
  (length (im_segs i) <= 16)%nat /\ (length (im_sects i) <= 64)%nat /\ (length (im_dylibs i) <= 128)%nat.
Proof. by intros [Ht _]%rsd_load_outcome. Qed.

(** A load answers 0 or -1.  When it answers 0 the image has a segment; when
    it answers -1 the file is unmapped and forgotten, and the CPU, the region
    table, the callbacks and the compiled code are those from before. *)
Theorem rsd_load_result path m r i m' :
  rsd_load path m = Ok (r, i) m' ->
  r = 0 /\ im_segs i <> [] \/
  r = -1 /\ im_file i ∈ [0; MAP_FAILED] /\ im_imports i = [] /\ m_c m' = m_c m /\
    as_reg (m_as m') = as_reg (m_as m) /\ m_cb m' = m_cb m /\ m_cm m' = m_cm m.
Proof. by intros [_ Hr]%rsd_load_outcome. Qed.

(** Load commands laid out one behind the other as the format says are read
    back as what they say: the segments in order with their sections, the
    libraries, the last entry point, preferred base and fixups; more segments
    than the table holds are refused. *)
Theorem load_commands_roundtrip m lc cmds i eo got :
  Forall lcmd_ok cmds -> code_at m lc (concat (lcmd_bytes <$> cmds)) -> tables_ok i ->
  load_commands (length cmds) lc (i, eo, got) m =
    Ok (if 16 <? Z.of_nat (length (im_segs i ++ segs_of cmds)) then None else Some (parsed lc cmds (i, eo, got))) m.
Proof. intros Hok Hc Ht. by apply (load_commands_run m lc cmds (i, eo, got)). Qed.
End result.

(* ------------------------------------------------------------------ *)
(** ** A concrete image *)

#[local] Existing Instances sample_host sample_host_ok.

Definition name16 (s : string) : list Z := take 16 (literal s ++ replicate 16 0).
Definition sample_text : rsd_seg := Seg (name16 "__TEXT") 0x100000000 0x1000 0 272 5 7.

(** An unloaded page zero, a text segment of one section, a library, [main]. *)
Definition sample_cmds : list lcmd :=
  [CSeg (Seg (name16 "__PAGEZERO") 0 0x100000000 0 0 0 0) 0 [];
   CSeg sample_text 0 [(Sect (name16 "__TEXT") (name16 "__text") 0x100000100 8, replicate 32 0)];
   CDylib LC_LOAD_DYLIB 24 (replicate 12 0 ++ name16 "libc");
   CMain 0x100 0].
Definition sample_macho : macho := MachO 3 2 MH_PIE sample_cmds.

(** The file in host memory, no guest memory yet. *)
Definition sample_file (bs : list Z) : machine :=
  Machine (reset_cpu 0) rsd_as_init (World tt (write_bytes ∅ 0x10000 bs)) [] [].

Lemma sample_cmds_ok : Forall lcmd_ok sample_cmds.
Proof.
  assert (Hb : forall s, forallb (fun b => (0 <=? b) && (b <? 256)) (name16 s) = true -> length (name16 s) = 16%nat -> name_ok (name16 s)).
  { intros s Hf Hl. split; [done|]. apply Forall_forall. intros b Hin%list_elem_of_In. rewrite forallb_forall in Hf.
    specialize (Hf b Hin). apply andb_true_iff in Hf as [?%Z.leb_le ?%Z.ltb_lt]. split; lia. }
  assert (N : Forall name_ok (name16 <$> ["__PAGEZERO"; "__TEXT"; "__text"]%string)) by (repeat (constructor; [by apply Hb|]); constructor).
  repeat (apply Forall_cons in N as [? N]).
  repeat constructor; try done; try (vm_compute; congruence); try apply Hb; try done; by left.
Qed.

Lemma sample_macho_ok : macho_ok sample_macho.
Proof.
  split; [done|done|done|exact sample_cmds_ok|by eexists|done|vm_compute; lia| |].
  - constructor; [|constructor]. repeat split; vm_compute; congruence.
  - repeat constructor.
Qed.

(** What the loader asks of the file. *)
Definition sample_data : list Z := take 272 (macho_bytes sample_macho).
Definition sample_load : machine := sample_file (macho_bytes sample_macho).

Lemma sample_code : code_at sample_load 0x10000 (macho_bytes sample_macho).
Proof. unfold code_at. vm_compute. reflexivity. Qed.

Lemma sample_segments s : s ∈ segs_of sample_cmds ->
  Z.of_nat (length sample_data) = sg_filesize s /\ code_at sample_load (0x10000 + sg_fileoff s) sample_data.
Proof. intros [->|[]%elem_of_nil]%elem_of_cons. split; [vm_compute; reflexivity|]. unfold code_at. vm_compute. reflexivity. Qed.

Lemma sample_untracked : tracked_mapped (m_as sample_load) (mem_of sample_load).
Proof. by intros b [? ?]. Qed.

Lemma sample_placed :
  exists s1 w1, rsd_as_map (m_w sample_load) (m_as sample_load) 0x100000000 0x1000 (RSD_PROT_R .| RSD_PROT_W) false = (0x11000, s1, w1).
Proof.
  destruct (rsd_as_map (m_w sample_load) (m_as sample_load) 0x100000000 0x1000 (RSD_PROT_R .| RSD_PROT_W) false) as [[base s1] w1] eqn:E.
  exists s1, w1. do 2 f_equal. transitivity ((base, s1, w1).1.1); [done|]. rewrite <- E. vm_compute. reflexivity.
Qed.

Lemma load_slices_spec_witness :
  exists i m', load_slices (im_with_file 0x10000 (im_with_filesz 400 zero_image)) (sample_file (macho_bytes sample_macho)) = Ok (0, i) m' /\
    im_segs i = [sample_text] /\ im_entry i = 0x100000100 + (im_slide i - 2 ^ 64).
Proof.
  destruct sample_placed as (s1 & w1 & E).
  destruct (load_slices_spec sample_macho (fun _ => sample_data) 0x10000 400 sample_load 0x11000 s1 w1
    sample_macho_ok ltac:(lia) sample_code sample_segments as_inv_init sample_untracked) as (i & m' & Hrun & Hs & _ & _ & Hsl & He & _).
  - vm_compute. reflexivity.
  - exact E.
  - lia.
  - intros n. reflexivity.
  - exists i, m'. split; [exact Hrun|]. split; [exact Hs|]. rewrite He, Hsl. vm_compute. reflexivity.
Defined.

Lemma load_commands_roundtrip_witness :
  load_commands 4 0x10000 (zero_image, 0, false) (sample_file (concat (lcmd_bytes <$> sample_cmds))) =
    Ok (Some (im_with_has_main true (im_with_pref_base 0x100000000 (im_with_dylibs [0x100f8]
      (im_with_sects [Sect (name16 "__TEXT") (name16 "__text") 0x100000100 8] (im_with_segs [sample_text] zero_image)))), 0x100, true))
      (sample_file (concat (lcmd_bytes <$> sample_cmds))).
Proof.
  pose proof (load_commands_roundtrip (sample_file (concat (lcmd_bytes <$> sample_cmds))) 0x10000 sample_cmds zero_image 0 false
    sample_cmds_ok) as Hr.
  etransitivity; [apply Hr|].
  - unfold code_at. vm_compute. reflexivity.
  - unfold tables_ok. cbn. lia.
  - reflexivity.
Defined.

(** One file, of the bytes [bs]. *)
Definition sample_files (bs : list Z) : HostFiles := {|
  h_open := fun h _ => (3, h);
  h_fstat := fun h _ => (Some (Z.of_nat (length bs)), h);
  h_mmap_file := fun h mem _ _ => (Some (fresh_page mem), (h, write_bytes mem (fresh_page mem) bs))
|}.

Lemma rsd_load_tables_witness :
  exists i m', @rsd_load sample_host (sample_files (macho_bytes sample_macho)) (literal "a.out") (sample_file []) = Ok (0, i) m' /\
    im_slide i = u64 (0x11000 - 0x100000000) /\ (length (im_segs i) <= 16)%nat.
Proof.
  destruct (@rsd_load sample_host (sample_files (macho_bytes sample_macho)) (literal "a.out") (sample_file [])) as [[r i] m'|t] eqn:E.
  - exists i, m'. assert (Hr : (r, im_slide i) = (0, u64 (0x11000 - 0x100000000))).
    { transitivity (match @rsd_load sample_host (sample_files (macho_bytes sample_macho)) (literal "a.out") (sample_file []) with
                    | Ok x _ => (x.1, im_slide x.2) | Trap _ => (-1, 0) end); [by rewrite E|vm_compute; reflexivity]. }
    injection Hr as -> Hs. split; [done|]. split; [exact Hs|].
    apply (@rsd_load_tables sample_host sample_host_ok (sample_files (macho_bytes sample_macho)) (literal "a.out") (sample_file []) 0 i m' E).
  - exfalso. assert (Hr : match @rsd_load sample_host (sample_files (macho_bytes sample_macho)) (literal "a.out") (sample_file []) with
      | Ok _ _ => true | Trap _ => false end = true) by (vm_compute; reflexivity). by rewrite E in Hr.
Defined.

(** Eight zero bytes are no image. *)
Lemma rsd_load_result_witness :
  exists i m', @rsd_load sample_host (sample_files (replicate 8 0)) (literal "a.out") (sample_file []) = Ok (-1, i) m' /\
    m_c m' = reset_cpu 0.
Proof.
  destruct (@rsd_load sample_host (sample_files (replicate 8 0)) (literal "a.out") (sample_file [])) as [[r i] m'|t] eqn:E.
  - exists i, m'. assert (Hr : r = -1).
    { transitivity (match @rsd_load sample_host (sample_files (replicate 8 0)) (literal "a.out") (sample_file []) with
                    | Ok x _ => x.1 | Trap _ => 0 end); [by rewrite E|vm_compute; reflexivity]. }
    subst r. split; [done|].
    by destruct (@rsd_load_result sample_host sample_host_ok (sample_files (replicate 8 0)) _ _ _ _ _ E) as [[? _]|(_ & _ & _ & ? & _)].
  - exfalso. assert (Hr : match @rsd_load sample_host (sample_files (replicate 8 0)) (literal "a.out") (sample_file []) with
      | Ok _ _ => true | Trap _ => false end = true) by (vm_compute; reflexivity). by rewrite E in Hr.
Defined.
