(* ===== verification/Symbols.v ===== *)
(** Which imports get a stub: the walk of a native image's load commands in
    [addr_is_code] ([src/thunk.c]) finds the section that holds the symbol, and
    the stub tables ([rsd_stubs_of] in [src/fixups.c]) answer for the addresses
    that binds leave behind. *)
From S2P Require Import Prelude.
From S2P Require Import Memory.
From S2P Require Import AddressSpace.
From S2P Require Import SampleHost.
From S2P Require Import Flags.
From S2P Require Import Stubs.
From S2P Require Import Machine.
From S2P Require Import Access.
From S2P Require Import Keeps.
From S2P Require Import Encoding.
From S2P Require Import Image.
From S2P Require Import Resolve.
From S2P Require Import Fixups.
From S2P Require Import ImageLoad.
From S2P Require Import ImageSafe.

(* ------------------------------------------------------------------ *)
(** ** The section of an address *)

Definition seg_of (c : lcmd) : option (rsd_seg * list section) :=
  match c with CSeg s _ xs => Some (s, xs) | _ => None end.

(** Where the image was linked: its first [__TEXT]. *)
Definition linked_at (cmds : list lcmd) : Z := default 0 (head (omap text_of (fst <$> omap seg_of cmds))).
Definition all_sects (cmds : list lcmd) : list section := concat (snd <$> omap seg_of cmds).

Definition holds (slide target : Z) (x : section) : bool :=
  let s := u64 (sc_addr x.1 + slide) in (s <=? target) && (target <? u64 (s + sc_size x.1)).
(** [flags], behind the offset, the alignment and the relocations. *)
Definition section_flags (x : section) : Z := le_val (take 4 (drop 16 x.2)).

Section walk.
Context `{HostOS}.

(** A command's first fields. *)
Lemma lcmd_head m lc c :
  lcmd_ok c -> code_at m lc (lcmd_bytes c) ->
  host_read lc 4 m = Ok (lcmd_kind c) m /\ host_read (lc + 4) 4 m = Ok (lcmd_size c) m /\
  code_at m (lc + 8) (lcmd_body c).
Proof.
  intros [Hs Hok] Hc. unfold lcmd_bytes in Hc. part Hc C1 (lc + 4). part Hc C2 (lc + 8).
  assert (Hk : urange 32 (lcmd_kind c)).
  { destruct c as [| | | |k ? ?|]; try done; cbn; [|apply Hok]. destruct Hok as [Hk _].
    unfold dylib_kinds in Hk. set_unfold in Hk. by decompose sum Hk; subst. }
  split; [by apply (host_read_at _ lc _ 4 _ 4 C1)|]. split; [|done].
  apply (host_read_at _ (lc + 4) _ 4 _ 4 C2); [done|done|]. unfold urange, lcmd_size in *. lia.
Qed.

Lemma not_segment c : lcmd_ok c -> seg_of c = None -> (lcmd_kind c =? LC_SEGMENT_64) = false.
Proof.
  intros [_ Hok]. destruct c as [| | | |k ? ?|k ?]; try done; intros _; cbn.
  - destruct Hok as [Hk _]. unfold dylib_kinds in Hk. set_unfold in Hk. by decompose sum Hk; subst.
  - destruct Hok as [_ Hk]. apply Z.eqb_neq. intros ->. apply Hk. by left.
Qed.

(** A segment command's own fields. *)
Lemma segment_fields m lc s flags xs :
  lcmd_ok (CSeg s flags xs) -> code_at m (lc + 8) (lcmd_body (CSeg s flags xs)) ->
  strcmp_is (lc + 8) (literal "__TEXT") m = Ok (bool_decide (cstr (sg_name s) = literal "__TEXT")) m /\
  host_read (lc + 24) 8 m = Ok (sg_vmaddr s) m /\
  host_read (lc + 64) 4 m = Ok (Z.of_nat (length xs)) m /\
  code_at m (lc + 72) (concat (section_bytes <$> xs)).
Proof.
  intros [Hsize [([Hn _] & U1 & _) Hxs]] Hc. cbn [lcmd_body] in Hc.
  assert (Un : urange (8 * 4) (Z.of_nat (length xs))).
  { unfold lcmd_size in Hsize. cbn [lcmd_body] in Hsize. unfold urange. rewrite !length_app in Hsize.
    assert (Hlen : (length xs <= length (concat (section_bytes <$> xs)))%nat).
    { clear -Hxs. induction Hxs as [|y ys Hy _ IH]; cbn; [lia|]. rewrite length_app, length_section_bytes by done. lia. }
    lia. }
  part Hc CN (lc + 24). part Hc CV (lc + 32). part Hc CS (lc + 40). part Hc CO (lc + 48). part Hc CFs (lc + 56).
  part Hc MP (lc + 60). part Hc IP (lc + 64). part Hc NS (lc + 68). part Hc FL (lc + 72).
  split; [|split; [|split; [|done]]].
  - by apply (strcmp_is_run _ _ (lc + 8)); [| |cbn; lia|apply literal_no_nul].
  - by apply (host_read_at _ (lc + 24) _ 8 _ 8 CV).
  - by apply (host_read_at _ (lc + 64) _ 4 _ 4 NS).
Qed.

Lemma text_vmaddr_run m lc cmds :
  Forall lcmd_ok cmds -> code_at m lc (concat (lcmd_bytes <$> cmds)) ->
  text_vmaddr (length cmds) lc m = Ok (linked_at cmds) m.
Proof.
  intros Hok. revert lc. induction Hok as [|c cmds Hc _ IH]; intros lc Hm; cbn [length text_vmaddr]; [done|].
  cbn [fmap list_fmap concat] in Hm.
  apply (code_at_part _ _ _ _ (lc + lcmd_size c)) in Hm as [Hcmd Hm];
    [|unfold lcmd_size, lcmd_bytes; rewrite !length_app, !length_le_bytes; lia].
  destruct (lcmd_head m lc c Hc Hcmd) as (Hk & Hs & Hb). rewrite (bind_run _ _ _ _ _ Hk).
  destruct (seg_of c) as [[s xs]|] eqn:E.
  - destruct c as [s' flags xs'| | | | |]; try done. injection E as -> ->.
    destruct (segment_fields m lc s flags xs Hc Hb) as (Ht & Hv & _). cbn [lcmd_kind]. rewrite Z.eqb_refl.
    rewrite (bind_run _ _ _ _ _ Ht). unfold linked_at. cbn. unfold text_of at 1.
    destruct (bool_decide _); [exact Hv|]. rewrite (bind_run _ _ _ _ _ Hs). by apply IH.
  - rewrite (not_segment c Hc E). erewrite bind_run by reflexivity. cbv iota. rewrite (bind_run _ _ _ _ _ Hs), IH by done.
    unfold linked_at. cbn. by rewrite E.
Qed.

Lemma sect_flags_run m sec slide target xs :
  Forall section_ok xs -> code_at m sec (concat (section_bytes <$> xs)) ->
  sect_flags (length xs) sec slide target m = Ok (section_flags <$> List.find (holds slide target) xs) m.
Proof.
  intros Hx. revert sec. induction Hx as [|x xs Hx _ IH]; intros p Hc; cbn [sect_flags length List.find]; [done|].
  cbn [fmap list_fmap concat] in Hc. pose proof (length_section_bytes x Hx) as Hlen.
  apply (code_at_part _ _ _ _ (p + 80)) in Hc as [Hs Hc]; [|rewrite Hlen; lia].
  destruct Hx as ([N1 _] & [N2 _] & U1 & U2 & U3). unfold section_bytes in Hs.
  part Hs S1 (p + 16). part Hs S2 (p + 32). part Hs S3 (p + 40). part Hs S4 (p + 48).
  rewrite (bind_run _ _ _ _ _ (host_read_at _ (p + 32) _ _ _ 8 S3 ltac:(done) ltac:(done) U1)).
  rewrite (bind_run _ _ _ _ _ (host_read_at _ (p + 40) _ _ _ 8 S4 ltac:(done) ltac:(done) U2)).
  cbv zeta. change (_ && _) with (holds slide target x). destruct (holds slide target x); [|by apply IH].
  rewrite <- (take_drop 16 x.2) in Hs. apply (code_at_part _ _ _ _ (p + 64)) in Hs as [_ Hs]; [|rewrite length_take; lia].
  rewrite <- (take_drop 4 (drop 16 x.2)) in Hs. apply code_at_app in Hs as [Hs _].
  erewrite bind_run; [reflexivity|]. apply host_read_ok. split; [done|]. exists (take 4 (drop 16 x.2)). split; [|done].
  unfold code_at in Hs. rewrite length_take, length_drop, U3 in Hs. exact Hs.
Qed.

Lemma holder_flags_run m lc slide target cmds :
  Forall lcmd_ok cmds -> code_at m lc (concat (lcmd_bytes <$> cmds)) ->
  holder_flags (length cmds) lc slide target m = Ok (section_flags <$> List.find (holds slide target) (all_sects cmds)) m.
Proof.
  intros Hok. revert lc. induction Hok as [|c cmds Hc _ IH]; intros lc Hm; cbn [length holder_flags]; [done|].
  cbn [fmap list_fmap concat] in Hm.
  apply (code_at_part _ _ _ _ (lc + lcmd_size c)) in Hm as [Hcmd Hm];
    [|unfold lcmd_size, lcmd_bytes; rewrite !length_app, !length_le_bytes; lia].
  destruct (lcmd_head m lc c Hc Hcmd) as (Hk & Hs & Hb). rewrite (bind_run _ _ _ _ _ Hk).
  destruct (seg_of c) as [[s xs]|] eqn:E.
  - destruct c as [s' flags xs'| | | | |]; try done. injection E as -> ->.
    destruct (segment_fields m lc s flags xs Hc Hb) as (_ & _ & Hn & Hxs). cbn [lcmd_kind]. rewrite Z.eqb_refl.
    erewrite bind_run; [|rewrite (bind_run _ _ _ _ _ Hn), Nat2Z.id; apply sect_flags_run; [apply Hc|exact Hxs]].
    unfold all_sects. cbn [omap list_omap seg_of fmap list_fmap concat snd].
    assert (Hf : forall ys, List.find (holds slide target) (xs ++ ys) =
      match List.find (holds slide target) xs with Some x => Some x | None => List.find (holds slide target) ys end).
    { intros ys. clear. induction xs as [|x xs IHx]; [done|]. cbn. by destruct (holds slide target x). }
    rewrite Hf. destruct (List.find _ xs); [done|]. cbn [fmap option_fmap option_map].
    rewrite (bind_run _ _ _ _ _ Hs). by apply IH.
  - rewrite (not_segment c Hc E). erewrite bind_run by reflexivity. cbv iota. rewrite (bind_run _ _ _ _ _ Hs), IH by done.
    unfold all_sects. cbn [omap list_omap]. by rewrite E.
Qed.

Context `{!DynLoader}.

(** For a symbol in a native image, [addr_is_code] answers whether the first
    section that holds it, slid from where [__TEXT] was linked to where the
    image is, has instructions, and yes where no section holds it. *)
Theorem addr_is_code_spec f p m :
  let mh := dl_base (m_w m) p in let cmds := mo_cmds f in
  mh <> 0 -> code_at m mh (macho_bytes f) -> Forall lcmd_ok cmds -> urange 32 (Z.of_nat (length cmds)) ->
  addr_is_code p m =
    Ok (match List.find (holds (u64 (mh - linked_at cmds)) p) (all_sects cmds) with
        | Some x => nz (section_flags x .& (S_ATTR_PURE_INSTRUCTIONS .| S_ATTR_SOME_INSTRUCTIONS))
        | None => true
        end) m.
Proof.
  intros mh cmds Hmh Hc Hok Hn. unfold addr_is_code. erewrite bind_run by reflexivity. fold mh. unfold nz.
  rewrite (proj2 (Z.eqb_neq mh 0)) by done. cbn [negb]. unfold macho_bytes in Hc. fold cmds in Hc.
  part Hc C1 (mh + 4). part Hc C2 (mh + 8). part Hc C3 (mh + 12). part Hc C4 (mh + 16).
  part Hc C5 (mh + 20). part Hc C6 (mh + 24). part Hc C7 (mh + 28). part Hc C8 (mh + 32).
  rewrite (bind_run _ _ _ _ _ (host_read_at _ mh _ _ _ 4 C1 ltac:(done) ltac:(done) ltac:(done))). rewrite Z.eqb_refl. cbn [negb].
  rewrite (bind_run _ _ _ _ _ (host_read_at _ (mh + 16) _ _ _ 4 C5 ltac:(done) ltac:(done) Hn)). rewrite Nat2Z.id.
  rewrite (bind_run _ _ _ _ _ (text_vmaddr_run m (mh + 32) cmds Hok Hc)).
  rewrite (bind_run _ _ _ _ _ (holder_flags_run m (mh + 32) _ p cmds Hok Hc)). by destruct (List.find _ _).
Qed.
End walk.

(* ------------------------------------------------------------------ *)
(** ** Binds and stubs *)

Section stubs.
Context `{HostOS}.

(** A column of the table. *)
Lemma stub_rows_fns ims m fns va cb rc m' :
  stub_rows ims m = Ok (fns, va, cb, rc) m' ->
  fns = (fun im => if imp_is_code im then imp_native im else 0) <$> ims /\ length va = length ims /\
  length cb = length ims /\ length rc = length ims.
Proof.
  revert m fns va cb rc m'. induction ims as [|im ims IH]; intros m fns va cb rc m'; cbn [stub_rows].
  - by intros [= <- <- <- <- _].
  - intros Hr. run_step Hr. run_step Hr. destruct a0 as [[[fns1 va1] cb1] rc1]. injection Hr as <- <- <- <- _.
    apply IH in Hc0 as (-> & Hv & Hcb & Hrc). cbn. by rewrite Hv, Hcb, Hrc.
Qed.

(** What a bind leaves in the image and what the tables answer agree: the
    pointer written for an import that is called is the address of that
    import's stub and of no other, and the table's function is the symbol found
    for it, none where there is no symbol. *)
Theorem bound_stub_answers i k im m s m' :
  rsd_stubs_of i m = Ok s m' -> st_n s <> 0 -> stubs_wf s ->
  im_imports i !! Z.to_nat k = Some im -> 0 <= k -> imp_is_code im = true \/ imp_native im = 0 ->
  let a := (bind_target i k 0 (im_stub_base i)).1 in
  rsd_stub_index (Some s) a = k /\
  (forall j, 0 <= j -> rsd_stub_index (Some s) a = j -> j = k) /\
  st_fns s ≫= (.!! Z.to_nat k) = Some (imp_native im).
Proof.
  intros Hr Hn Hwf Hk H0 Hcode a. pose proof Hwf as (Hb & Hn31 & Htop).
  assert (Hs : st_base s = im_stub_base i /\ st_n s = Z.of_nat (length (im_imports i)) /\
    st_fns s = Some ((fun im => if imp_is_code im then imp_native im else 0) <$> im_imports i)).
  { unfold rsd_stubs_of in Hr. destruct (negb (nz _)); [by injection Hr as <- _|]. run_step Hr.
    destruct (negb (calloc_ok a0 _ 8)); [by injection Hr as <- _|].
    destruct (negb (calloc_ok a0 _ 1)); [by injection Hr as <- _|].
    run_step Hr. destruct a1 as [[[fns va] cb] rc]. apply stub_rows_fns in Hc0 as [-> _].
    by injection Hr as <- _. }
  destruct Hs as (Hsb & Hsn & Hfns). pose proof (lookup_lt_Some _ _ _ Hk) as Hlt.
  assert (Ha : a = st_base s + k * RSD_STUB_STRIDE).
  { unfold a, bind_target. rewrite Hk. cbn [fst].
    assert (Hd : nz (imp_native im) && negb (imp_is_code im) = false).
    { destruct Hcode as [->| ->]; [by rewrite andb_false_r|done]. }
    rewrite Hd, <- Hsb, Z.add_0_r. apply uwrap_small. unfold urange, RSD_STUB_STRIDE in *. lia. }
  assert (Hidx : rsd_stub_index (Some s) a = k).
  { apply rsd_stub_index_spec; [done| |done|]; rewrite Ha; unfold urange, RSD_STUB_STRIDE in *; [lia|]. split; lia. }
  split; [exact Hidx|]. split; [intros j _ Hj; congruence|].
  rewrite Hfns. cbn. rewrite list_lookup_fmap, Hk. cbn. f_equal. destruct Hcode as [->| ->]; [done|by destruct (imp_is_code im)].
Qed.
End stubs.

(* ------------------------------------------------------------------ *)
(** ** A concrete symbol and a concrete table *)

#[local] Existing Instances sample_host sample_host_ok.

(** Every address belongs to the image at 0x10000. *)
Definition sample_loader : DynLoader := {|
  dl_open := fun w _ => w; dl_sym := fun _ _ => 0x10104; dl_base := fun _ _ => 0x10000 |}.

(** The sample's section has no instructions, though its segment is executable. *)
Lemma addr_is_code_spec_witness :
  @addr_is_code sample_host sample_loader 0x10104 (sample_file (macho_bytes sample_macho)) =
  Ok false (sample_file (macho_bytes sample_macho)).
Proof.
  etransitivity.
  - apply (@addr_is_code_spec sample_host sample_loader sample_macho 0x10104).
    + done.
    + unfold code_at. vm_compute. reflexivity.
    + exact sample_cmds_ok.
    + done.
  - assert (Hv : List.find (holds (u64 (0x10000 - linked_at sample_cmds)) 0x10104) (all_sects sample_cmds) =
      Some (Sect (name16 "__TEXT") (name16 "__text") 0x100000100 8, replicate 32 0)) by (vm_compute; reflexivity).
    change (mo_cmds sample_macho) with sample_cmds. cbn [dl_base sample_loader]. rewrite Hv. reflexivity.
Defined.

(** Import 1 of two, both named by the empty string at 0x10000. *)
Lemma bound_stub_answers_witness :
  let i := im_with_stub_base 0x20000 (im_with_imports
    [Import 0x10000 lib_unknown false false 0x5000 false; Import 0x10000 lib_unknown false true 0x4000 true] zero_image) in
  exists s m', rsd_stubs_of i (sample_file [0]) = Ok s m' /\ rsd_stub_index (Some s) (bind_target i 1 0 0x20000).1 = 1 /\
    st_fns s ≫= (.!! 1%nat) = Some 0x4000.
Proof.
  intros i. destruct (rsd_stubs_of i (sample_file [0])) as [s m'|t] eqn:E.
  - exists s, m'. split; [done|].
    assert (Hs : (st_base s, st_n s) = (0x20000, 2)).
    { transitivity (match rsd_stubs_of i (sample_file [0]) with Ok s _ => (st_base s, st_n s) | Trap _ => (0, 0) end);
        [by rewrite E|vm_compute; reflexivity]. }
    injection Hs as Hb Hn.
    destruct (bound_stub_answers i 1 (Import 0x10000 lib_unknown false true 0x4000 true) (sample_file [0]) s m' E)
      as (H1 & _ & H2); [by rewrite Hn| |done|done|by left|by split].
    unfold stubs_wf. rewrite Hb, Hn. unfold RSD_STUB_STRIDE. lia.
  - exfalso. assert (Hr : match rsd_stubs_of i (sample_file [0]) with Ok _ _ => true | Trap _ => false end = true)
      by (vm_compute; reflexivity). by rewrite E in Hr.
Defined.
