(* ===== verification/Objc.v ===== *)
(** Handing an image's Objective-C metadata to the native runtime
    ([src/objc.c]): selectors are made canonical in place, and the classes the
    image defines are built through the runtime's API with trampolines for
    methods.  The runtime is a parameter, [ObjcRuntime]. *)
From S2P Require Import Prelude.
From S2P Require Import Memory.
From S2P Require Import AddressSpace.
From S2P Require Import Flags.
From S2P Require Import Stubs.
From S2P Require Import Callbacks.
From S2P Require Import Machine.
From S2P Require Import Image.
From S2P Require Import Resolve.

(** The calls of [objc/runtime.h]; strings that may be NULL are addresses, 0 is
    [Nil] and NULL. *)
Class ObjcRuntime `{HostOS} := {
  sel_registerName : world -> list Z -> Z * world;
  objc_getClass : world -> list Z -> Z * world;
  objc_allocateClassPair : world -> Z -> list Z -> Z * world;
  objc_registerClassPair : world -> Z -> world;
  object_getClass : world -> Z -> Z;
  class_addMethod : world -> Z -> Z -> Z -> Z -> world;
  class_addIvar : world -> Z -> list Z -> Z -> Z -> Z -> world;
  class_getInstanceVariable : world -> Z -> list Z -> Z;
  ivar_getOffset : world -> Z -> Z
}.

Definition CLS_SUPER : Z := 8.
Definition CLS_DATA : Z := 32.
Definition RO_NAME : Z := 24.
Definition RO_METHODS : Z := 32.
Definition RO_IVARS : Z := 48.

Section objc.
Context `{HostOS} `{Trampolines} `{!ObjcRuntime}.

Definition rd64 (a : Z) : M Z := host_read (u64 a) 8.
Definition rd32 (a : Z) : M Z := host_read (u64 a) 4.

(** [sel_registerName] of the C string at [p]. *)
Definition register_sel (p : Z) : M Z :=
  name ← c_string p;
  w ← gets m_w;
  let '(sel, w) := sel_registerName w name in
  set_world w;; mret sel.

(* ------------------------------------------------------------------ *)
(** ** Methods *)

(** [add_method], the one function handed to [each_method]. *)
Definition add_method (cls sel types imp : Z) : M unit :=
  cb ← gets m_cb;
  let '(tramp, cb) := rsd_callback_for cb imp in
  set_cb cb;;
  if negb (nz tramp) then mret tt else
  w ← gets m_w; set_world (class_addMethod w cls sel tramp types).

(** One entry: the selector, the types and the implementation. *)
Definition read_method (small : bool) (e : Z) : M (Z * Z * Z) :=
  if small then
    n_off ← rd32 e;
    t_off ← rd32 (e + 4);
    i_off ← rd32 (e + 8);
    sel ← rd64 (e + s32 n_off);
    mret (sel, u64 (e + 4 + s32 t_off), u64 (e + 8 + s32 i_off))
  else
    nm ← rd64 e;
    sel ← (if nz nm then register_sel nm else mret 0);
    types ← rd64 (e + 8);
    imp ← rd64 (e + 16);
    mret (sel, types, imp).

Fixpoint method_loop (n : nat) (i list entsize : Z) (small : bool) (cls : Z) : M unit :=
  match n with
  | O => mret tt
  | S n =>
      '(sel, types, imp) ← read_method small (u64 (list + 8 + i * entsize));
      when (nz sel && nz imp) (add_method cls sel types imp);;
      method_loop n (i + 1) list entsize small cls
  end.

Definition each_method (list cls : Z) : M unit :=
  if negb (nz list) then mret tt else
  ef ← rd32 list;
  count ← rd32 (list + 4);
  let entsize := ef .& 0xfffc in
  if negb (nz entsize) || (4096 <? count) then mret tt else
  method_loop (Z.to_nat count) 0 list entsize (nz (ef .& 0x80000000)) cls.

(* ------------------------------------------------------------------ *)
(** ** Instance variables *)

Fixpoint ivar_loop (n : nat) (i list entsize cls : Z) : M unit :=
  match n with
  | O => mret tt
  | S n =>
      let iv := u64 (list + 8 + i * entsize) in
      name ← rd64 (iv + 8);
      type ← rd64 (iv + 16);
      align ← rd32 (iv + 24);
      size ← rd32 (iv + 28);
      when (nz name)
        (bs ← c_string name; w ← gets m_w; set_world (class_addIvar w cls bs size (u8 align) type));;
      ivar_loop n (i + 1) list entsize cls
  end.

Definition add_ivars (cls ro : Z) : M unit :=
  list ← rd64 (ro + RO_IVARS);
  if negb (nz list) then mret tt else
  entsize ← rd32 list;
  count ← rd32 (list + 4);
  if negb (nz entsize) || (1024 <? count) then mret tt else
  ivar_loop (Z.to_nat count) 0 list entsize cls.

Fixpoint offset_loop (n : nat) (i list entsize cls : Z) : M unit :=
  match n with
  | O => mret tt
  | S n =>
      let iv := u64 (list + 8 + i * entsize) in
      off_ptr ← rd64 iv;
      name ← rd64 (iv + 8);
      (if negb (nz off_ptr) || negb (nz name) then mret tt else
       bs ← c_string name;
       w ← gets m_w;
       let real := class_getInstanceVariable w cls bs in
       when (nz real) (host_write off_ptr 4 (ivar_getOffset w real)));;
      offset_loop n (i + 1) list entsize cls
  end.

Definition fix_ivar_offsets (cls ro : Z) : M unit :=
  list ← rd64 (ro + RO_IVARS);
  if negb (nz list) then mret tt else
  entsize ← rd32 list;
  count ← rd32 (list + 4);
  if negb (nz entsize) || (1024 <? count) then mret tt else
  offset_loop (Z.to_nat count) 0 list entsize cls.

(* ------------------------------------------------------------------ *)
(** ** Classes *)

Definition set_cm (cm : list (Z * Z)) : M unit :=
  modify (fun m => Machine (m_c m) (m_as m) (m_w m) (m_cb m) cm).

Definition register_class (gcls : Z) : M Z :=
  ro ← rd64 (gcls + CLS_DATA);
  let ro := Z.land ro (2 ^ 64 - 8) in
  if negb (nz ro) then mret 0 else
  name ← rd64 (ro + RO_NAME);
  super ← rd64 (gcls + CLS_SUPER);
  if negb (nz name) || negb (nz super) then mret 0 else
  bs ← c_string name;
  w ← gets m_w;
  let '(old, w) := objc_getClass w bs in
  set_world w;;
  if nz old then mret 0 else
  w ← gets m_w;
  let '(cls, w) := objc_allocateClassPair w super bs in
  set_world w;;
  if negb (nz cls) then mret 0 else
  add_ivars cls ro;;
  methods ← rd64 (ro + RO_METHODS);
  each_method methods cls;;
  gmeta ← rd64 gcls;
  mro ← (if nz gmeta then d ← rd64 (gmeta + CLS_DATA); mret (Z.land d (2 ^ 64 - 8)) else mret 0);
  when (nz mro)
    (methods ← rd64 (mro + RO_METHODS); w ← gets m_w; each_method methods (object_getClass w cls));;
  w ← gets m_w; set_world (objc_registerClassPair w cls);;
  fix_ivar_offsets cls ro;;
  cm ← gets m_cm; set_cm (remember cm gcls cls);;
  when (nz gmeta)
    (cm ← gets m_cm; w ← gets m_w; set_cm (remember cm gmeta (object_getClass w cls)));;
  mret 1.

(** [for (off = 0; off + 8 <= size; off += 8)], the places that are mapped. *)
Fixpoint slot_loop (fuel : nat) (body : Z -> M Z) (base size off n : Z) : M Z :=
  if size <? u64 (off + 8) then mret n else
  match fuel with
  | O => raise OutOfFuel
  | S fuel =>
      s ← gets m_as;
      k ← (if rsd_as_mapped s (u64 (base + off)) 8 then body (u64 (base + off)) else mret 0);
      slot_loop fuel body base size (u64 (off + 8)) (n + k)
  end.

Definition class_slot (a : Z) : M Z :=
  gcls ← rd64 a; if nz gcls then register_class gcls else mret 0.

Definition register_classes (fuel : nat) (i : rsd_image) : M Z :=
  match rsd_find_sect i (literal "__objc_classlist") with
  | None => mret 0
  | Some cl => slot_loop fuel class_slot (u64 (sc_addr cl + im_slide i)) (sc_size cl) 0 0
  end.

(** A selector reference. *)
Definition sel_slot (a : Z) : M Z :=
  name ← rd64 a;
  if negb (nz name) then mret 0 else
  sel ← register_sel name;
  host_write a 8 sel;; mret 1.

Definition rsd_objc_prepare (fuel : nat) (i : rsd_image) : M Z :=
  match rsd_find_sect i (literal "__objc_selrefs") with
  | None => register_classes fuel i
  | Some sr =>
      n ← slot_loop fuel sel_slot (u64 (sc_addr sr + im_slide i)) (sc_size sr) 0 0;
      k ← register_classes fuel i; mret (n + k)
  end.
End objc.
