(* ===== verification/Selectors.v ===== *)
(** What [rsd_objc_prepare] does to an image: every selector reference ends up
    holding the runtime's selector of the name it pointed to, and a class that
    is registered is known by both of its structures from then on. *)
From S2P Require Import Prelude.
From S2P Require Import Memory.
From S2P Require Import AddressSpace.
From S2P Require Import SampleHost.
From S2P Require Import Flags.
From S2P Require Import Stubs.
From S2P Require Import Callbacks.
From S2P Require Import Machine.
From S2P Require Import Access.
From S2P Require Import Keeps.
From S2P Require Import Encoding.
From S2P Require Import Image.
From S2P Require Import Resolve.
From S2P Require Import ImageLoad.
From S2P Require Import ImageSafe.
From S2P Require Import Objc.

(** The runtime's documented behaviour: a name has one selector in a process,
    and the call leaves the caller's memory alone. *)
Class ObjcRuntimeOk `{ObjcRuntime} := {
  sel_of : list Z -> Z;
  sel_registerName_ok : forall w name sel w',
    sel_registerName w name = (sel, w') ->
    sel = sel_of name /\ forall b, is_Some (w_mem w !! b) -> w_mem w' !! b = w_mem w !! b
}.

(* ------------------------------------------------------------------ *)
(** ** C strings *)

Definition cstring_at (mem : gmap Z Z) (p : Z) (s : list Z) : Prop :=
  read_bytes mem p (S (length s)) = Some (s ++ [0]) /\ 0 ∉ s.

(** A run of mapped bytes is no longer than the memory. *)
Lemma read_bytes_size mem p n bs : read_bytes mem p n = Some bs -> (n <= size mem)%nat.
Proof.
  intros Hr.
  assert (Hsub : list_to_set ((fun i => p + Z.of_nat i) <$> seq 0 n) ⊆@{gset Z} dom mem).
  { intros b (i & -> & Hi%elem_of_seq)%elem_of_list_to_set%list_elem_of_fmap. apply elem_of_dom.
    eapply read_bytes_mapped; [exact Hr|lia]. }
  apply subseteq_size in Hsub. rewrite size_dom, size_list_to_set in Hsub.
  - by rewrite length_fmap, length_seq in Hsub.
  - apply NoDup_fmap_2; [intros i j Hij; lia|apply NoDup_seq].
Qed.

Section strings.
Context `{HostOS}.

Lemma c_string_from_run m p s fuel :
  cstring_at (mem_of m) p s -> (length s < fuel)%nat -> c_string_from fuel p m = Ok s m.
Proof.
  revert p fuel. induction s as [|c s IH]; intros p fuel [Hr Hz] Hf; destruct fuel as [|fuel]; try (cbn in Hf; lia);
    cbn [c_string_from].
  - cbn [app] in Hr. by rewrite (bind_run _ _ _ _ _ (host_read1 _ _ _ Hr)).
  - apply not_elem_of_cons in Hz as [Hc Hz].
    assert (Hp : code_at m p ([c] ++ (s ++ [0]))).
    { unfold code_at. rewrite length_app, length_app. cbn [length Nat.add]. rewrite Nat.add_comm. exact Hr. }
    apply code_at_app in Hp as [Hp1 Hp2]. rewrite (bind_run _ _ _ _ _ (host_read1 _ _ _ Hp1)).
    rewrite (proj2 (Z.eqb_neq c 0)) by done.
    assert (Hs : c_string_from fuel (p + 1) m = Ok s m).
    { apply IH; [|cbn in Hf; lia]. split; [|done]. unfold code_at in Hp2. rewrite length_app, Nat.add_comm in Hp2. exact Hp2. }
    by rewrite (bind_run _ _ _ _ _ Hs).
Qed.

Lemma c_string_run m p s : cstring_at (mem_of m) p s -> c_string p m = Ok s m.
Proof.
  intros Hc. unfold c_string. erewrite bind_run by reflexivity. apply c_string_from_run; [done|].
  destruct Hc as [Hr _]. apply read_bytes_size in Hr. unfold mem_of in Hr. cbn. lia.
Qed.
End strings.

(* ------------------------------------------------------------------ *)
(** ** Selector references *)

(** The place at [a] in [[lo, hi)]: empty, or pointing to the name [s] outside. *)
Definition slot_names (mem : gmap Z Z) (lo hi a : Z) (x : option (list Z)) : Prop :=
  match x with
  | None => read_bytes mem a 8 = Some (le_bytes 8 0)
  | Some s => exists p, p <> 0 /\ urange 64 p /\ read_bytes mem a 8 = Some (le_bytes 8 p) /\ cstring_at mem p s /\
                (p + Z.of_nat (length s) < lo \/ hi <= p)
  end.

(** Memory that was mapped is as it was, [P] apart. *)
Definition mem_keeps (P : Z -> Prop) (mem mem' : gmap Z Z) : Prop :=
  forall b, is_Some (mem !! b) -> ~ P b -> mem' !! b = mem !! b.

Lemma mem_keeps_read P mem mem' a n bs :
  mem_keeps P mem mem' -> (forall b, a <= b < a + Z.of_nat n -> ~ P b) ->
  read_bytes mem a n = Some bs -> read_bytes mem' a n = Some bs.
Proof.
  intros Hk Hp Hr. rewrite <- Hr. apply read_bytes_ext. intros b Hb. apply Hk; [by eapply read_bytes_mapped|by apply Hp].
Qed.

(** The places that are rewritten. *)
Definition rewritten (s : rsd_as) (lo : Z) (xs : list (option (list Z))) (b : Z) : Prop :=
  exists k name, xs !! k = Some (Some name) /\ rsd_as_mapped s (lo + 8 * Z.of_nat k) 8 = true /\
    lo + 8 * Z.of_nat k <= b < lo + 8 * Z.of_nat k + 8.

(** What they add to the count. *)
Fixpoint named (s : rsd_as) (a : Z) (xs : list (option (list Z))) : Z :=
  match xs with
  | [] => 0
  | x :: xs => (if rsd_as_mapped s a 8 then match x with Some _ => 1 | None => 0 end else 0) + named s (a + 8) xs
  end.

Section selectors.
Context `{HostOS} `{!ObjcRuntime} `{!ObjcRuntimeOk}.

Lemma sel_slot_run lo hi a x m :
  urange 64 a -> slot_names (mem_of m) lo hi a x ->
  exists w', sel_slot a m = Ok (match x with Some _ => 1 | None => 0 end) (Machine (m_c m) (m_as m) w' (m_cb m) (m_cm m)) /\
    mem_keeps (fun b => is_Some x /\ a <= b < a + 8) (mem_of m) (w_mem w') /\
    (forall s, x = Some s -> read_bytes (w_mem w') a 8 = Some (le_bytes 8 (sel_of s))).
Proof.
  intros Ha Hx. unfold sel_slot, rd64. rewrite uwrap_small by done.
  assert (Hread : forall p, urange 64 p -> read_bytes (mem_of m) a 8 = Some (le_bytes 8 p) -> host_read a 8 m = Ok p m).
  { intros p Hp Hr. apply (host_read_at m a a 8 p 8); [|done..]. unfold code_at. by rewrite length_le_bytes. }
  destruct x as [s|].
  - destruct Hx as (p & Hp0 & Hp & Hr & Hs & Hout). rewrite (bind_run _ _ _ _ _ (Hread p Hp Hr)).
    unfold nz. rewrite (proj2 (Z.eqb_neq p 0)) by done. cbn [negb]. unfold register_sel.
    destruct (sel_registerName (m_w m) s) as [sel w1] eqn:Es. pose proof (sel_registerName_ok _ _ _ _ Es) as [-> Hk'].
    set (m1 := Machine (m_c m) (m_as m) w1 (m_cb m) (m_cm m)).
    assert (Hsel : register_sel p m = Ok (sel_of s) m1).
    { unfold register_sel. rewrite (bind_run _ _ _ _ _ (c_string_run _ _ _ Hs)). erewrite bind_run by reflexivity.
      by rewrite Es. }
    unfold register_sel in Hsel. rewrite (bind_run _ _ _ _ _ Hsel).
    assert (Hst : host_write a 8 (sel_of s) m1 = Ok tt (with_mem (write_bytes (mem_of m1) a (le_bytes 8 (sel_of s))) m1)).
    { apply host_store_ok. split; [done|]. rewrite length_le_bytes. apply read_bytes_is_Some. intros b Hb.
      assert (Hm : is_Some (mem_of m !! b)) by (eapply read_bytes_mapped; [exact Hr|lia]).
      change (mem_of m1) with (w_mem w1). rewrite Hk' by done. done. }
    rewrite (bind_run _ _ _ _ _ Hst). eexists. split; [reflexivity|]. cbn [w_mem]. split.
    + intros b Hb Hp'. rewrite write_bytes_outside; [by apply Hk'|]. rewrite length_le_bytes. intros ?. apply Hp'. by split.
    + intros s' [= <-]. exact (read_write_same _ a (le_bytes 8 (sel_of s))).
  - rewrite (bind_run _ _ _ _ _ (Hread 0 ltac:(done) Hx)). exists (m_w m). split; [by destruct m|]. by split.
Qed.

(** The places of [xs] from [lo] on name selectors. *)
Definition slots_name (s : rsd_as) (mem : gmap Z Z) (base size lo : Z) (xs : list (option (list Z))) : Prop :=
  forall k x, xs !! k = Some x -> rsd_as_mapped s (lo + 8 * Z.of_nat k) 8 = true ->
    slot_names mem base (base + size) (lo + 8 * Z.of_nat k) x.

(** A place is not disturbed by the rewriting of another. *)
Lemma slot_names_keeps P mem mem' lo hi a x :
  mem_keeps P mem mem' -> (forall b, a <= b < a + 8 -> ~ P b) -> (forall b, P b -> lo <= b < hi) ->
  slot_names mem lo hi a x -> slot_names mem' lo hi a x.
Proof.
  intros Hk Ha Hin. destruct x as [s|]; cbn [slot_names].
  - intros (p & Hp0 & Hp & Hr & [Hs Hz] & Hout). exists p. split; [done|]. split; [done|].
    split; [eapply mem_keeps_read; [exact Hk|exact Ha|exact Hr]|]. split; [|done]. split; [|done].
    eapply mem_keeps_read; [exact Hk| |exact Hs]. intros b Hb Hpb%Hin. lia.
  - intros Hr. by eapply mem_keeps_read.
Qed.

Lemma rewritten_cons s lo x xs b :
  rewritten s lo (x :: xs) b <->
  rsd_as_mapped s lo 8 = true /\ is_Some x /\ lo <= b < lo + 8 \/ rewritten s (lo + 8) xs b.
Proof.
  unfold rewritten. split.
  - intros (k & name & Hx & Hm & Hb). destruct k as [|k].
    + injection Hx as ->. rewrite Z.mul_0_r, Z.add_0_r in *. left. eauto.
    + right. exists k, name. split; [done|]. replace (lo + 8 + 8 * Z.of_nat k) with (lo + 8 * Z.of_nat (S k)) by lia. done.
  - intros [(Hm & [name ->] & Hb)|(k & name & Hx & Hm & Hb)].
    + exists O, name. rewrite Z.mul_0_r, Z.add_0_r. done.
    + exists (S k), name. replace (lo + 8 * Z.of_nat (S k)) with (lo + 8 + 8 * Z.of_nat k) by lia. done.
Qed.

Lemma slot_loop_run xs fuel base size off n m :
  let s := m_as m in let lo := base + off in
  0 <= base -> base + size + 8 < 2 ^ 64 -> 0 <= off -> off + 8 * Z.of_nat (length xs) <= size < off + 8 * Z.of_nat (length xs) + 8 ->
  (length xs <= fuel)%nat -> slots_name s (mem_of m) base size lo xs ->
  exists w', slot_loop fuel sel_slot base size off n m =
      Ok (n + named s lo xs) (Machine (m_c m) s w' (m_cb m) (m_cm m)) /\
    mem_keeps (rewritten s lo xs) (mem_of m) (w_mem w') /\
    forall k name, xs !! k = Some (Some name) -> rsd_as_mapped s (lo + 8 * Z.of_nat k) 8 = true ->
      read_bytes (w_mem w') (lo + 8 * Z.of_nat k) 8 = Some (le_bytes 8 (sel_of name)).
Proof.
  cbv zeta. intros Hb Htop. revert fuel off n m. induction xs as [|x xs IH]; intros fuel off n m Ho Hs Hf Hx.
  - cbn [length] in Hs. exists (m_w m). destruct fuel; cbn [slot_loop];
      (rewrite uwrap_small, (proj2 (Z.ltb_lt _ _)) by (unfold urange; lia); cbn [named];
       rewrite Z.add_0_r; split; [by destruct m|by split]).
  - cbn [length] in Hs, Hf. destruct fuel as [|fuel]; [lia|]. cbn [slot_loop named].
    rewrite (uwrap_small 64 (off + 8)), (proj2 (Z.ltb_ge _ _)) by (unfold urange; lia).
    erewrite bind_run by reflexivity. rewrite (uwrap_small 64 (base + off)) by (unfold urange; lia).
    assert (Hx0 := Hx O x eq_refl). rewrite Z.mul_0_r, Z.add_0_r in Hx0.
    assert (Htail : forall P m1, m_as m1 = m_as m -> mem_keeps P (mem_of m) (mem_of m1) -> (forall b, P b -> base + off <= b < base + off + 8) ->
      slots_name (m_as m1) (mem_of m1) base size (base + (off + 8)) xs).
    { intros P m1 Has Hk HP k y Hy Hm. specialize (Hx (S k) y Hy). rewrite Has in Hm.
      replace (base + off + 8 * Z.of_nat (S k)) with (base + (off + 8) + 8 * Z.of_nat k) in Hx by lia.
      eapply slot_names_keeps; [exact Hk| | |by apply Hx]; [intros b Hb' Hp%HP; lia|intros b Hp%HP; lia]. }
    destruct (rsd_as_mapped (m_as m) (base + off) 8) eqn:Em.
    + destruct (sel_slot_run base (base + size) (base + off) x m) as (w1 & Hrun & Hk1 & Hr1); [unfold urange; lia|by apply Hx0|].
      rewrite (bind_run _ _ _ _ _ Hrun). set (m1 := Machine (m_c m) (m_as m) w1 (m_cb m) (m_cm m)).
      destruct (IH fuel (off + 8) (n + match x with Some _ => 1 | None => 0 end) m1) as (w2 & Hrun2 & Hk2 & Hr2); [lia|lia|lia| |].
      { eapply Htail; [done|exact Hk1|]. by intros b [_ ?]. }
      exists w2. rewrite Hrun2. cbn [m_as m_c m_cb m_cm m1] in *.
      replace (base + (off + 8)) with (base + off + 8) in * by lia. split; [f_equal; lia|]. split.
      * intros b Hb1 Hn. rewrite rewritten_cons in Hn.
        assert (E1 : w_mem w1 !! b = mem_of m !! b) by (apply Hk1; [done|]; intros [? ?]; apply Hn; by left).
        rewrite <- E1. apply Hk2; [change (mem_of m1) with (w_mem w1); by rewrite E1|]. intros ?. apply Hn. by right.
      * intros [|k] name Hk Hm; [|].
        -- injection Hk as ->. rewrite Z.mul_0_r, Z.add_0_r. eapply (mem_keeps_read _ (w_mem w1)); [exact Hk2| |by apply Hr1].
           intros b Hb1 (j & ? & _ & _ & ?). lia.
        -- replace (base + off + 8 * Z.of_nat (S k)) with (base + off + 8 + 8 * Z.of_nat k) in * by lia. by apply Hr2.
    + erewrite bind_run by reflexivity.
      destruct (IH fuel (off + 8) (n + 0) m) as (w2 & Hrun2 & Hk2 & Hr2); [lia|lia|lia| |].
      { apply (Htail (fun _ => False)); [done| |done]. by intros b _ _. }
      exists w2. rewrite Hrun2. replace (base + (off + 8)) with (base + off + 8) in * by lia. split; [f_equal; lia|]. split.
      * intros b Hb1 Hn. apply Hk2; [done|]. intros ?. apply Hn. rewrite rewritten_cons. by right.
      * intros [|k] name Hk Hm; [by rewrite Z.mul_0_r, Z.add_0_r, Em in Hm|].
        replace (base + off + 8 * Z.of_nat (S k)) with (base + off + 8 + 8 * Z.of_nat k) in * by lia. by apply Hr2.
Qed.

Context `{Trampolines}.

(** In an image without classes of its own, every mapped place of
    [__objc_selrefs] that points to a name holds the runtime's selector of that
    name afterwards, all other memory is unchanged, and the answer counts the
    places rewritten; the loop ends with one turn of fuel per place. *)
Theorem rsd_objc_prepare_selectors fuel i sr xs m :
  rsd_find_sect i (literal "__objc_selrefs") = Some sr -> rsd_find_sect i (literal "__objc_classlist") = None ->
  let base := u64 (sc_addr sr + im_slide i) in let s := m_as m in
  base + sc_size sr + 8 < 2 ^ 64 -> 8 * Z.of_nat (length xs) <= sc_size sr < 8 * Z.of_nat (length xs) + 8 ->
  (length xs <= fuel)%nat ->
  slots_name s (mem_of m) base (sc_size sr) base xs ->
  exists w', rsd_objc_prepare fuel i m = Ok (named s base xs) (Machine (m_c m) s w' (m_cb m) (m_cm m)) /\
    mem_keeps (rewritten s base xs) (mem_of m) (w_mem w') /\
    forall k name, xs !! k = Some (Some name) -> rsd_as_mapped s (base + 8 * Z.of_nat k) 8 = true ->
      read_bytes (w_mem w') (base + 8 * Z.of_nat k) 8 = Some (le_bytes 8 (sel_of name)).
Proof.
  intros Hsr Hcl base s Htop Hlen Hfuel Hx. unfold rsd_objc_prepare, register_classes. rewrite Hsr, Hcl.
  pose proof (uwrap_range 64 (sc_addr sr + im_slide i) ltac:(lia)) as [Hlo _].
  destruct (slot_loop_run xs fuel base (sc_size sr) 0 0 m) as (w' & Hrun & Hk & Hr);
    [done|done|lia|lia|done|by rewrite Z.add_0_r|].
  rewrite Z.add_0_r in *. exists w'. fold base. rewrite (bind_run _ _ _ _ _ Hrun). erewrite bind_run by reflexivity.
  rewrite Z.add_0_r. by split.
Qed.
End selectors.

(* ------------------------------------------------------------------ *)
(** ** Classes *)

(** The class map is what only [remember] changes. *)
Definition same_map `{HostOS} (m m' : machine) : Prop := m_c m' = m_c m /\ m_as m' = m_as m /\ m_cm m' = m_cm m.

#[export] Instance same_map_preorder `{HostOS} : PreOrder same_map.
Proof. split; [by intros ?|]. intros ? ? ? (? & ? & ?) (? & ? & ?). split; [congruence|]. split; congruence. Qed.

Section classes.
Context `{HostOS} `{Trampolines} `{!ObjcRuntime}.

Lemma keeps_map_world w : keeps same_map (set_world w). Proof. by intros ? ? ? [= _ <-]. Qed.
Lemma keeps_map_cb cb : keeps same_map (set_cb cb). Proof. by intros ? ? ? [= _ <-]. Qed.
Lemma keeps_map_write a n v : keeps same_map (host_write a n v).
Proof. intros m u m' Hw. apply host_store_ok in Hw as [-> _]. done. Qed.
Hint Resolve keeps_map_world keeps_map_cb keeps_map_write : keeps.

Lemma keeps_map_rd64 a : keeps same_map (rd64 a). Proof. apply keeps_host_read, _. Qed.
Lemma keeps_map_rd32 a : keeps same_map (rd32 a). Proof. apply keeps_host_read, _. Qed.
Lemma keeps_map_c_string_from fuel a : keeps same_map (c_string_from fuel a).
Proof. revert a. induction fuel as [|fuel IH]; intros a; cbn [c_string_from]; keeps_tac. Qed.
Hint Resolve keeps_map_rd64 keeps_map_rd32 keeps_map_c_string_from : keeps.
Lemma keeps_map_c_string a : keeps same_map (c_string a).
Proof. unfold c_string. keeps_tac. Qed.
Hint Resolve keeps_map_c_string : keeps.
Lemma keeps_map_register_sel a : keeps same_map (register_sel a).
Proof. unfold register_sel. keeps_tac. Qed.
Lemma keeps_map_add_method cls sel types imp : keeps same_map (add_method cls sel types imp).
Proof. unfold add_method. keeps_tac. Qed.
Hint Resolve keeps_map_register_sel keeps_map_add_method : keeps.
Lemma keeps_map_read_method small e : keeps same_map (read_method small e).
Proof. unfold read_method. keeps_tac. Qed.
Hint Resolve keeps_map_read_method : keeps.
Lemma keeps_map_method_loop n i l e small cls : keeps same_map (method_loop n i l e small cls).
Proof. revert i. induction n as [|n IH]; intros i; cbn [method_loop]; keeps_tac. Qed.
Lemma keeps_map_ivar_loop n i l e cls : keeps same_map (ivar_loop n i l e cls).
Proof. revert i. induction n as [|n IH]; intros i; cbn [ivar_loop]; keeps_tac. Qed.
Lemma keeps_map_offset_loop n i l e cls : keeps same_map (offset_loop n i l e cls).
Proof. revert i. induction n as [|n IH]; intros i; cbn [offset_loop]; keeps_tac. Qed.
Hint Resolve keeps_map_method_loop keeps_map_ivar_loop keeps_map_offset_loop : keeps.
Lemma keeps_map_each_method l cls : keeps same_map (each_method l cls).
Proof. unfold each_method. keeps_tac. Qed.
Lemma keeps_map_add_ivars cls ro : keeps same_map (add_ivars cls ro).
Proof. unfold add_ivars. keeps_tac. Qed.
Lemma keeps_map_fix_ivar_offsets cls ro : keeps same_map (fix_ivar_offsets cls ro).
Proof. unfold fix_ivar_offsets. keeps_tac. Qed.
Hint Resolve keeps_map_each_method keeps_map_add_ivars keeps_map_fix_ivar_offsets : keeps.

(** A computation that is followed by more. *)
Lemma run_map {A B} (c : M A) (k : A -> M B) m0 m b m' :
  keeps same_map c -> same_map m0 m -> (c ≫= k) m = Ok b m' -> exists a m1, same_map m0 m1 /\ k a m1 = Ok b m'.
Proof. intros Hc Hm0 Hr. apply bind_ok in Hr as (a & m1 & Ha & Hr). exists a, m1. split; [|done]. etransitivity; [done|by eapply Hc]. Qed.

Definition known (cm : list (Z * Z)) (c : Z) : Prop := c ∈ fst <$> cm.

Lemma real_class_known cm cm' c : known cm c -> rsd_objc_real_class (cm ++ cm') c = rsd_objc_real_class cm c.
Proof.
  unfold known. induction cm as [|[g n] cm IH]; cbn; [by intros ?%not_elem_of_nil|]. intros Hc.
  destruct (Z.eqb_spec g c) as [->|Hg]; [done|]. apply IH. by apply elem_of_cons in Hc as [->|?].
Qed.

Lemma real_class_new cm c n cm' : ~ known cm c -> rsd_objc_real_class (cm ++ (c, n) :: cm') c = n.
Proof.
  unfold known. induction cm as [|[g k] cm IH]; cbn; [by rewrite Z.eqb_refl|]. intros Hc.
  apply not_elem_of_cons in Hc as [Hg Hc]. rewrite (proj2 (Z.eqb_neq g c)) by done. by apply IH.
Qed.

Lemma remember_app cm g n : exists cm', remember cm g n = cm ++ cm'.
Proof. unfold remember. case_match; eexists; [done|]. by rewrite app_nil_r. Qed.

(** What the map tells afterwards. *)
Lemma remember_known cm g cls cm' :
  (exists rest, cm' = remember cm g cls ++ rest) ->
  (forall c, known cm c -> rsd_objc_real_class cm' c = rsd_objc_real_class cm c) /\
  (Z.of_nat (length cm) < RSD_MAX_CLASSES -> ~ known cm g -> rsd_objc_real_class cm' g = cls).
Proof.
  intros [rest ->]. split.
  - intros c Hc. destruct (remember_app cm g cls) as [k ->]. rewrite <- app_assoc. by apply real_class_known.
  - intros Hl Hg. unfold remember. rewrite (proj2 (Z.ltb_lt _ _)) by done. rewrite <- app_assoc. by apply real_class_new.
Qed.

(** Go past the first part of the run in [Hr], [Hm] the map up to here. *)
Ltac map_step Hr Hm :=
  let a := fresh "a" in let m1 := fresh "m1" in let Hn := fresh in
  eapply run_map in Hr as (a & m1 & Hn & Hr); [clear Hm; rename Hn into Hm|solve [eauto with keeps]|exact Hm].

(** [register_class] answers 0 and leaves the class map alone, or answers 1
    and the image's class stands for a class of the runtime from then on, as
    long as the map has room.  Classes known before stand for what they stood
    for, and the CPU and the address space are not touched. *)
Theorem register_class_known g m r m' :
  register_class g m = Ok r m' ->
  m_c m' = m_c m /\ m_as m' = m_as m /\
  (r = 0 /\ m_cm m' = m_cm m \/
   r = 1 /\ (forall c, known (m_cm m) c -> rsd_objc_real_class (m_cm m') c = rsd_objc_real_class (m_cm m) c) /\
   exists cls, cls <> 0 /\
     (Z.of_nat (length (m_cm m)) < RSD_MAX_CLASSES -> ~ known (m_cm m) g -> rsd_objc_real_class (m_cm m') g = cls)).
Proof.
  unfold register_class. intros Hr.
  assert (Hno : forall m1, same_map m m1 -> (mret 0 : M Z) m1 = Ok r m' -> m_c m' = m_c m /\ m_as m' = m_as m /\
    (r = 0 /\ m_cm m' = m_cm m \/ r = 1 /\ (forall c, known (m_cm m) c -> rsd_objc_real_class (m_cm m') c = rsd_objc_real_class (m_cm m) c) /\
     exists cls, cls <> 0 /\ (Z.of_nat (length (m_cm m)) < RSD_MAX_CLASSES -> ~ known (m_cm m) g -> rsd_objc_real_class (m_cm m') g = cls))).
  { intros m1 (? & ? & ?) [= <- <-]. auto. }
  assert (Hsm : same_map m m) by reflexivity.
  map_step Hr Hsm. destruct (negb (nz _)); [by eapply Hno|].
  map_step Hr Hsm. map_step Hr Hsm. destruct (_ || _); [by eapply Hno|].
  map_step Hr Hsm. map_step Hr Hsm. destruct (objc_getClass _ _) as [old w1]. map_step Hr Hsm. destruct (nz old); [by eapply Hno|].
  map_step Hr Hsm. destruct (objc_allocateClassPair _ _ _) as [cls w2]. map_step Hr Hsm.
  destruct (nz cls) eqn:Ecls; cbn [negb] in Hr; [|by eapply Hno].
  do 4 map_step Hr Hsm.
  eapply run_map in Hr as (mro & n2 & Hm2 & Hr); [|keeps_tac|exact Hsm].
  eapply run_map in Hr as (u & n3 & Hm3 & Hr); [|keeps_tac|exact Hm2].
  map_step Hr Hm3. map_step Hr Hm3. map_step Hr Hm3.
  apply bind_ok in Hr as (cm & n4 & [= <- <-] & Hr). apply bind_ok in Hr as (u4 & n5 & [= _ <-] & Hr).
  destruct Hm3 as (E1 & E2 & E3). rewrite E3 in Hr.
  assert (Hend : r = 1 /\ m_c m' = m_c m /\ m_as m' = m_as m /\ exists rest, m_cm m' = remember (m_cm m) g cls ++ rest).
  { apply bind_ok in Hr as (u5 & n6 & Hw & [= <- <-]). revert Hw. unfold when. case_match.
    - intros Hw. apply bind_ok in Hw as (? & ? & [= <- <-] & Hw). apply bind_ok in Hw as (? & ? & [= <- <-] & [= _ <-]).
      cbn. rewrite E1, E2. repeat split. apply remember_app.
    - intros [= _ <-]. cbn. rewrite E1, E2. repeat split. exists []. by rewrite app_nil_r. }
  destruct Hend as (-> & -> & -> & Hcm). apply remember_known in Hcm as [K1 K2]. split; [done|]. split; [done|].
  right. split; [done|]. split; [exact K1|]. exists cls. split; [|exact K2]. unfold nz in Ecls. by destruct (Z.eqb_spec cls 0).
Qed.
End classes.

(* ------------------------------------------------------------------ *)
(** ** A concrete runtime *)

#[local] Existing Instances sample_host sample_host_ok sample_trampolines.

(** The selector of a name is its length from 0x7000 on; one class at 0x8000
    with its metaclass at 0x8008. *)
#[local] Instance sample_runtime : ObjcRuntime := {|
  sel_registerName := fun w name => (0x7000 + Z.of_nat (length name), w);
  objc_getClass := fun w _ => (0, w);
  objc_allocateClassPair := fun w _ _ => (0x8000, w);
  objc_registerClassPair := fun w _ => w;
  object_getClass := fun _ c => c + 8;
  class_addMethod := fun w _ _ _ _ => w;
  class_addIvar := fun w _ _ _ _ _ => w;
  class_getInstanceVariable := fun _ _ _ => 0;
  ivar_getOffset := fun _ _ => 0
|}.

#[local] Instance sample_runtime_ok : ObjcRuntimeOk.
Proof.
  apply (Build_ObjcRuntimeOk _ _ (fun name => 0x7000 + Z.of_nat (length name))).
  by intros w name sel w' [= <- <-].
Defined.

(** Bytes at 0x10000, where guest memory is. *)
Definition sample_meta (bs : list Z) : machine :=
  Machine (reset_cpu 0) sample_as (World tt (write_bytes (w_mem sample_w1) 0x10000 bs)) [] [].

(** A reference to the name at 0x10020 and an empty one. *)
Definition sample_refs : list Z := le_bytes 8 0x10020 ++ replicate 24 0 ++ literal "hi" ++ [0].
Definition sample_objc : rsd_image :=
  im_with_sects [Sect (name16 "__DATA") (name16 "__objc_selrefs") 0x10000 16] zero_image.

Lemma rsd_objc_prepare_selectors_witness :
  exists w', rsd_objc_prepare 2 sample_objc (sample_meta sample_refs) = Ok 1 (Machine (reset_cpu 0) sample_as w' [] []) /\
    read_bytes (w_mem w') 0x10000 8 = Some (le_bytes 8 0x7002).
Proof.
  destruct (rsd_objc_prepare_selectors 2 sample_objc (Sect (name16 "__DATA") (name16 "__objc_selrefs") 0x10000 16)
    [Some (literal "hi"); None] (sample_meta sample_refs)) as (w' & Hrun & _ & Hr).
  - vm_compute. reflexivity.
  - vm_compute. reflexivity.
  - vm_compute. reflexivity.
  - cbn. lia.
  - cbn. lia.
  - intros [|[|k]] x; [intros [= <-] _|intros [= <-] _|done].
    + exists 0x10020. split; [done|]. split; [done|]. split; [vm_compute; reflexivity|]. split; [|right; vm_compute; congruence].
      split; [vm_compute; reflexivity|]. by apply (literal_no_nul "hi").
    + vm_compute. reflexivity.
  - exists w'. split; [exact Hrun|]. exact (Hr O (literal "hi") eq_refl eq_refl).
Defined.

(** A class at 0x10000, its read-only part at 0x10040, named at 0x10090. *)
Definition sample_class : list Z :=
  le_bytes 8 0 ++ le_bytes 8 0x6000 ++ replicate 16 0 ++ le_bytes 8 0x10040 ++ replicate 24 0 ++
  replicate 24 0 ++ le_bytes 8 0x10090 ++ replicate 48 0 ++ literal "Foo" ++ [0].

Lemma register_class_known_witness :
  exists m', register_class 0x10000 (sample_meta sample_class) = Ok 1 m' /\ rsd_objc_real_class (m_cm m') 0x10000 <> 0.
Proof.
  destruct (register_class 0x10000 (sample_meta sample_class)) as [r m'|t] eqn:E.
  - exists m'. assert (Hr : r = 1).
    { transitivity (match register_class 0x10000 (sample_meta sample_class) with Ok r _ => r | Trap _ => 0 end);
        [by rewrite E|vm_compute; reflexivity]. }
    subst r. split; [done|].
    destruct (register_class_known _ _ _ _ E) as (_ & _ & [[? _]|(_ & _ & cls & Hcls & Hk)]); [done|].
    rewrite Hk; [done|done|by intros ?%not_elem_of_nil].
  - exfalso. assert (Hr : match register_class 0x10000 (sample_meta sample_class) with Ok _ _ => true | Trap _ => false end = true)
      by (vm_compute; reflexivity). by rewrite E in Hr.
Defined.
