(* ===== verification/Main.v ===== *)
(** The command ([src/main.c]): reading the options, and the run of an image
    from the file to the exit status.  The handler that reports host crashes
    and what goes to the screen are left out. *)
From S2P Require Import Prelude.
From S2P Require Import Memory.
From S2P Require Import AddressSpace.
From S2P Require Import Flags.
From S2P Require Import Stubs.
From S2P Require Import Callbacks.
From S2P Require Import Machine.
From S2P Require Import Native.
From S2P Require Import Float.
From S2P Require Import Step.
From S2P Require Import CpuApi.
From S2P Require Import JitCache.
From S2P Require Import Image.
From S2P Require Import Resolve.
From S2P Require Import Fixups.
From S2P Require Import Objc.

(* ------------------------------------------------------------------ *)
(** ** [strtoull] *)

Definition is_space (b : Z) : bool := (b =? 32) || ((9 <=? b) && (b <=? 13)).

Definition digit_value (b : Z) : option Z :=
  if (48 <=? b) && (b <=? 57) then Some (b - 48)
  else if (65 <=? b) && (b <=? 90) then Some (b - 55)
  else if (97 <=? b) && (b <=? 122) then Some (b - 87)
  else None.

Definition digit_in (base b : Z) : option Z :=
  v ← digit_value b; if v <? base then Some v else None.

(** The number the longest run of digits writes. *)
Fixpoint digits (base acc : Z) (s : list Z) : Z :=
  match s with
  | [] => acc
  | b :: s => match digit_in base b with Some v => digits base (acc * base + v) s | None => acc end
  end.

Fixpoint skip_spaces (s : list Z) : list Z :=
  match s with
  | b :: s' => if is_space b then skip_spaces s' else s
  | [] => []
  end.

(** [strtoull(s, NULL, 0)]: base 16 behind 0x and a digit, 8 behind 0, 10
    otherwise; [ULLONG_MAX] where the number does not fit. *)
Definition strtoull (s : list Z) : Z :=
  let s := skip_spaces s in
  let '(neg, s) := match s with
                   | 45 :: s => (true, s)
                   | 43 :: s => (false, s)
                   | s => (false, s)
                   end in
  let n := match s with
           | 48 :: x :: d :: s' =>
               if ((x =? 120) || (x =? 88)) && bool_decide (is_Some (digit_in 16 d)) then digits 16 0 (d :: s')
               else digits 8 0 s
           | 48 :: s' => digits 8 0 s
           | s => digits 10 0 s
           end in
  if 2 ^ 64 <=? n then 2 ^ 64 - 1 else if (neg : bool) then u64 (- n) else n.

(* ------------------------------------------------------------------ *)
(** ** Options *)

Record options := Options {
  op_trace : bool; op_load_only : bool; op_show_map : bool;
  op_jit : bool; op_jit_check : bool; op_budget : Z
}.

Definition default_options : options := Options false false false false false 10000000.

(** [argv[i][0] == '-' && argv[i][1]]. *)
Definition is_option (a : list Z) : bool :=
  match a with 45 :: _ :: _ => true | _ => false end.

(** The loop over [argv]: the options and what is left, [None] for [usage]. *)
Fixpoint parse_options (o : options) (argv : list (list Z)) : option (options * list (list Z)) :=
  match argv with
  | [] => Some (o, [])
  | a :: rest =>
      if negb (is_option a) then Some (o, argv) else
      let '(Options t l m j c n) := o in
      if bool_decide (a = literal "-t") then parse_options (Options true l m j c n) rest
      else if bool_decide (a = literal "-l") then parse_options (Options t true m j c n) rest
      else if bool_decide (a = literal "-m") then parse_options (Options t l true j c n) rest
      else if bool_decide (a = literal "-j") then parse_options (Options t l m true c n) rest
      else if bool_decide (a = literal "-J") then parse_options (Options t l m true true n) rest
      else if bool_decide (a = literal "-n") then
        match rest with
        | b :: rest => parse_options (Options t l m j c (strtoull b)) rest
        | [] => None
        end
      else None
  end.

(* ------------------------------------------------------------------ *)
(** ** The run *)

Section run.
Context `{Native} `{Trampolines} `{HostFloat} `{!JitEngine} `{!HostFiles} `{!DynLoader} `{!ObjcRuntime}.

(** From [rsd_cpu_init] on; [args] are the image's path and its arguments. *)
Definition execute (fuel : nat) (profile : bool) (o : options) (i : rsd_image) (stubs : rsd_stubs)
    (args : list (list Z)) : M Z :=
  r ← rsd_cpu_init (im_entry i) (im_has_main i) args;
  if r <? 0 then mret 1 else
  r ← (if op_jit o then '(r, _) ← rsd_jit_init profile; mret r else mret 0);
  if r <? 0 then mret 1 else
  when (op_jit o) (upd (with_jit_check (op_jit_check o)));;
  upd (with_stubs (Some stubs));;
  upd (with_trace (op_trace o));;
  rsd_cpu_run (rsd_guest_call fuel) fuel (op_jit o) (op_budget o);;
  c ← get_c id;
  rsd_cpu_free;;
  mret (match c_fault c with Some _ => 1 | None => c_exit_code c end).

(** [main]: the exit status. *)
Definition rsd_main (fuel : nat) (profile : bool) (argv : list (list Z)) : M Z :=
  match parse_options default_options (tail argv) with
  | None | Some (_, []) => mret 2
  | Some (o, path :: args) =>
      set_as rsd_as_init;;
      '(r, i) ← rsd_load path;
      if r <? 0 then mret 1 else
      '(r, i) ← rsd_fixups fuel i;
      if r <? 0 then mret 1 else
      rsd_objc_prepare fuel i;;
      stubs ← rsd_stubs_of i;
      if op_load_only o then mret 0
      else execute fuel profile o i stubs (path :: args)
  end.
End run.
