(* ===== verification/Fuel.v ===== *)
(** The fuel of the model is no part of the program: a computation that is given
    more of it than it needs does the same, through callbacks of any depth, the
    run loop and the command as a whole. *)
From S2P Require Import Prelude.
From S2P Require Import Memory.
From S2P Require Import AddressSpace.
From S2P Require Import Flags.
From S2P Require Import Stubs.
From S2P Require Import Callbacks.
From S2P Require Import Machine.
From S2P Require Import Native.
From S2P Require Import Float.
From S2P Require Import Step.
From S2P Require Import CpuApi.
From S2P Require Import JitCache.
From S2P Require Import Image.
From S2P Require Import Resolve.
From S2P Require Import Fixups.
From S2P Require Import Objc.
From S2P Require Import Main.

Create HintDb fuel.

(* ------------------------------------------------------------------ *)
(** ** The order *)

Section order.
Context `{HostOS}.

(** [d] does what [c] does, or [c] runs out of fuel. *)
Definition refuels {A} (c d : M A) : Prop := forall m, c m = Trap OutOfFuel \/ c m = d m.

#[export] Instance refuels_refl {A} : Reflexive (@refuels A).
Proof. intros c m. by right. Qed.

Lemma refuels_out {A} (d : M A) : refuels (raise OutOfFuel) d.
Proof. intros m. by left. Qed.

Lemma refuels_bind {A B} (c d : M A) (k l : A -> M B) :
  refuels c d -> (forall a, refuels (k a) (l a)) -> refuels (c ≫= k) (d ≫= l).
Proof.
  intros Hc Hk m. unfold mbind, M_bind. destruct (Hc m) as [-> | ->]; [by left|]. destruct (d m) as [a m1|t]; [apply Hk|by right].
Qed.

Lemma refuels_when b c d : refuels c d -> refuels (when b c) (when b d).
Proof. by destruct b. Qed.

Lemma refuels_ok {A} (c d : M A) m a m' : refuels c d -> c m = Ok a m' -> d m = Ok a m'.
Proof. intros Hr Hc. by destruct (Hr m) as [Ho|<-]; [rewrite Ho in Hc|]. Qed.
End order.

#[export] Hint Resolve refuels_out refuels_when : fuel.

(** Both sides are built alike: split at the binds and tests. *)
Ltac fuel_step :=
  match goal with
  | |- refuels ?c ?c => reflexivity
  | |- forall _, _ => intros ?
  | |- refuels (_ ≫= _) _ => apply refuels_bind
  | |- refuels (when _ _) _ => apply refuels_when
  | |- refuels (if ?b then _ else _) _ => destruct b
  | |- refuels (match ?x with _ => _ end) _ => destruct x
  end.
Ltac fuel_tac := repeat (cbv beta zeta; first [solve [eauto with fuel] | fuel_step]).

(* ------------------------------------------------------------------ *)
(** ** The interpreter *)

Section interpreter.
Context `{Native} `{Trampolines} `{HostFloat}.

Abbreviation handler := (Z -> list Z -> list Z -> M (list Z * list Z)) (only parsing).
Definition handler_refuels (g h : handler) : Prop := forall i x d, refuels (g i x d) (h i x d).

Section handlers.
Context (g h : handler) (Hgh : handler_refuels g h).

Lemma refuels_native_call i x d : refuels (g i x d) (h i x d). Proof. apply Hgh. Qed.
Hint Resolve refuels_native_call : fuel.

Lemma run_native_refuels p : refuels (run_native g p) (run_native h p).
Proof. induction p as [ret w|w i x d k IH]; cbn [run_native]; fuel_tac. Qed.
Hint Resolve run_native_refuels : fuel.

Lemma rsd_call_native_refuels fn x d stack : refuels (rsd_call_native g fn x d stack) (rsd_call_native h fn x d stack).
Proof. unfold rsd_call_native. fuel_tac. Qed.
Hint Resolve rsd_call_native_refuels : fuel.

Lemma call_native_refuels fn cb rc : refuels (call_native g fn cb rc) (call_native h fn cb rc).
Proof. unfold call_native. fuel_tac. Qed.
Lemma forward_variadic_refuels fn nf fi sp rc rsp :
  refuels (forward_variadic g fn nf fi sp rc rsp) (forward_variadic h fn nf fi sp rc rsp).
Proof. unfold forward_variadic. fuel_tac. Qed.
Hint Resolve call_native_refuels forward_variadic_refuels : fuel.

Lemma call_import_refuels st imp fn : refuels (call_import g st imp fn) (call_import h st imp fn).
Proof. unfold call_import, call_native_variadic. fuel_tac. Qed.
Hint Resolve call_import_refuels : fuel.

Lemma step_refuels : refuels (step g) (step h).
Proof. unfold step. fuel_tac. Qed.
End handlers.

Lemma run_while_refuels n k c d : (n <= k)%nat -> refuels c d -> refuels (run_while n c) (run_while k d).
Proof.
  intros Hn Hc. revert k Hn. induction n as [|n IH]; intros k Hn; cbn [run_while]; [apply refuels_out|].
  destruct k as [|k]; [lia|]. assert (Hr : refuels (run_while n c) (run_while k d)) by (apply IH; lia).
  cbn [run_while]. fuel_tac.
Qed.

Lemma guest_call_body_refuels c d i x e : refuels c d -> refuels (guest_call_body c i x e) (guest_call_body d i x e).
Proof. intros Hc. unfold guest_call_body. fuel_tac. Qed.

Lemma rsd_guest_call_refuels n k : (n <= k)%nat -> handler_refuels (rsd_guest_call n) (rsd_guest_call k).
Proof.
  revert k. induction n as [|n IH]; intros k Hn i x d; cbn [rsd_guest_call]; [apply refuels_out|].
  destruct k as [|k]; [lia|]. cbn [rsd_guest_call]. apply guest_call_body_refuels, run_while_refuels; [lia|].
  apply step_refuels, IH. lia.
Qed.

Context `{!JitEngine}.

Lemma replay_refuels g h n : handler_refuels g h -> refuels (replay g n) (replay h n).
Proof.
  intros Hgh. pose proof (step_refuels g h Hgh) as Hs. induction n as [|n IH]; cbn [replay]; fuel_tac.
Qed.

Lemma run_block_refuels g h body n : handler_refuels g h -> refuels (run_block g body n) (run_block h body n).
Proof. intros Hgh. pose proof (replay_refuels g h (Z.to_nat n) Hgh) as Hr. unfold run_block. fuel_tac. Qed.

Lemma run_turn_refuels g h jit budget : handler_refuels g h -> refuels (run_turn g jit budget) (run_turn h jit budget).
Proof.
  intros Hgh. pose proof (fun b n => run_block_refuels g h b n Hgh) as Hr. pose proof (step_refuels g h Hgh) as Hs.
  unfold run_turn. fuel_tac.
Qed.

Lemma rsd_cpu_run_refuels g h n k jit budget :
  handler_refuels g h -> (n <= k)%nat -> refuels (rsd_cpu_run g n jit budget) (rsd_cpu_run h k jit budget).
Proof.
  intros Hgh. pose proof (run_turn_refuels g h jit budget Hgh) as Ht. revert k.
  induction n as [|n IH]; intros k Hn; cbn [rsd_cpu_run]; [apply refuels_out|]. destruct k as [|k]; [lia|].
  assert (Hr : refuels (rsd_cpu_run g n jit budget) (rsd_cpu_run h k jit budget)) by (apply IH; lia).
  cbn [rsd_cpu_run]. fuel_tac.
Qed.
End interpreter.

(* ------------------------------------------------------------------ *)
(** ** The image *)

Section image.
Context `{HostOS}.

Lemma walk_chain_refuels n k i addr format sb : (n <= k)%nat -> refuels (walk_chain n i addr format sb) (walk_chain k i addr format sb).
Proof.
  revert k i addr. induction n as [|n IH]; intros k i addr Hn; cbn [walk_chain]; [apply refuels_out|]. destruct k as [|k]; [lia|].
  assert (Hr : forall i addr, refuels (walk_chain n i addr format sb) (walk_chain k i addr format sb)) by (intros; apply IH; lia).
  cbn [walk_chain]. fuel_tac.
Qed.

Lemma walk_pages_refuels f g n i p sis seg size format sb :
  (f <= g)%nat -> refuels (walk_pages f n i p sis seg size format sb) (walk_pages g n i p sis seg size format sb).
Proof.
  intros Hf. pose proof (fun i a => walk_chain_refuels f g i a format sb Hf) as Hw. revert i p.
  induction n as [|n IH]; intros i p; cbn [walk_pages]; fuel_tac.
Qed.

Lemma walk_segs_refuels f g n i k sii : (f <= g)%nat -> refuels (walk_segs f n i k sii) (walk_segs g n i k sii).
Proof.
  intros Hf. pose proof (fun n i p sis seg size format sb => walk_pages_refuels f g n i p sis seg size format sb Hf) as Hw.
  revert i k. induction n as [|n IH]; intros i k; cbn [walk_segs]; fuel_tac.
Qed.

Lemma rsd_fixups_refuels `{!DynLoader} f g i : (f <= g)%nat -> refuels (rsd_fixups f i) (rsd_fixups g i).
Proof.
  intros Hf. pose proof (fun n i k sii => walk_segs_refuels f g n i k sii Hf) as Hw. unfold rsd_fixups. fuel_tac.
Qed.

Lemma slot_loop_refuels f g body base size off n :
  (f <= g)%nat -> refuels (slot_loop f body base size off n) (slot_loop g body base size off n).
Proof.
  revert g off n. induction f as [|f IH]; intros g off n Hf.
  - destruct g; cbn [slot_loop]; destruct (size <? u64 (off + 8)); (reflexivity || apply refuels_out).
  - destruct g as [|g]; [lia|].
    assert (Hr : forall off n, refuels (slot_loop f body base size off n) (slot_loop g body base size off n)) by (intros; apply IH; lia).
    cbn [slot_loop]. fuel_tac.
Qed.

Lemma rsd_objc_prepare_refuels `{Trampolines} `{!ObjcRuntime} f g i :
  (f <= g)%nat -> refuels (rsd_objc_prepare f i) (rsd_objc_prepare g i).
Proof.
  intros Hf. pose proof (fun body base size off n => slot_loop_refuels f g body base size off n Hf) as Hs.
  unfold rsd_objc_prepare, register_classes. fuel_tac.
Qed.
End image.

(* ------------------------------------------------------------------ *)
(** ** The command *)

Section command.
Context `{Native} `{Trampolines} `{HostFloat} `{!JitEngine} `{!HostFiles} `{!DynLoader} `{!ObjcRuntime}.

Lemma execute_refuels f g profile o i s args : (f <= g)%nat -> refuels (execute f profile o i s args) (execute g profile o i s args).
Proof.
  intros Hf. pose proof (rsd_cpu_run_refuels _ _ f g (op_jit o) (op_budget o) (rsd_guest_call_refuels f g Hf) Hf) as Hr.
  unfold execute. fuel_tac.
Qed.

Lemma rsd_main_refuels f g profile argv : (f <= g)%nat -> refuels (rsd_main f profile argv) (rsd_main g profile argv).
Proof.
  intros Hf. pose proof (fun o i s args => execute_refuels f g profile o i s args Hf) as He.
  pose proof (fun i => rsd_fixups_refuels f g i Hf) as Hx. pose proof (fun i => rsd_objc_prepare_refuels f g i Hf) as Ho.
  unfold rsd_main. fuel_tac.
Qed.

(** The fuel of the model is no part of the program: from one machine and one
    command line the command has at most one outcome, whatever fuel its chains,
    loops and callbacks are given, and more fuel than enough changes nothing. *)
Theorem rsd_main_outcome f g profile argv m r m' :
  rsd_main f profile argv m = Ok r m' ->
  ((f <= g)%nat -> rsd_main g profile argv m = Ok r m') /\
  forall r2 m2, rsd_main g profile argv m = Ok r2 m2 -> r2 = r /\ m2 = m'.
Proof.
  intros Hf. split.
  - intros Hle. by eapply refuels_ok; [apply rsd_main_refuels|].
  - intros r2 m2 Hg. apply (refuels_ok _ (rsd_main (f `max` g) profile argv)) in Hf; [|apply rsd_main_refuels; lia].
    apply (refuels_ok _ (rsd_main (f `max` g) profile argv)) in Hg; [|apply rsd_main_refuels; lia].
    rewrite Hf in Hg. by injection Hg as -> ->.
Qed.
End command.
