(* ===== verification/Launch.v ===== *)
(** Reading the command line back, what the exit status of the command means,
    and the entry point the loader hands to the interpreter. *)
From S2P Require Import Prelude.
From S2P Require Import Memory.
From S2P Require Import AddressSpace.
From S2P Require Import SampleHost.
From S2P Require Import Flags.
From S2P Require Import Stubs.
From S2P Require Import Callbacks.
From S2P Require Import Machine.
From S2P Require Import Access.
From S2P Require Import Keeps.
From S2P Require Import Native.
From S2P Require Import Float.
From S2P Require Import Step.
From S2P Require Import Calls.
From S2P Require Import CpuApi.
From S2P Require Import Run.
From S2P Require Import JitCache.
From S2P Require Import Encoding.
From S2P Require Import Image.
From S2P Require Import Resolve.
From S2P Require Import Fixups.
From S2P Require Import ImageLoad.
From S2P Require Import ImageSafe.
From S2P Require Import Symbols.
From S2P Require Import Objc.
From S2P Require Import Selectors.
From S2P Require Import Main.
From S2P Require Import Fuel.

(* ------------------------------------------------------------------ *)
(** ** Numerals *)

(** The decimal numeral of [n], of at most [fuel] digits. *)
Fixpoint numeral (fuel : nat) (n : Z) : list Z :=
  match fuel with
  | O => []
  | S fuel => (if n <? 10 then [] else numeral fuel (n / 10)) ++ [48 + n mod 10]
  end.

Lemma digit_in_ten v : 0 <= v < 10 -> digit_in 10 (48 + v) = Some v.
Proof.
  intros Hv. unfold digit_in, digit_value.
  assert (E : (48 <=? 48 + v) && (48 + v <=? 57) = true) by lia. rewrite E. cbn.
  rewrite (proj2 (Z.ltb_lt _ _)) by lia. f_equal. lia.
Qed.

Lemma digits_app base acc s t :
  Forall (fun b => is_Some (digit_in base b)) s -> digits base acc (s ++ t) = digits base (digits base acc s) t.
Proof. intros Hs. revert acc. induction Hs as [|b s [v Hv] _ IH]; intros acc; cbn; [done|]. rewrite Hv. apply IH. Qed.

Lemma numeral_digits fuel n : Forall (fun b => is_Some (digit_in 10 b)) (numeral fuel n).
Proof.
  revert n. induction fuel as [|fuel IH]; intros n; cbn [numeral]; [done|]. apply Forall_app. split.
  - case_match; [done|apply IH].
  - constructor; [|done]. rewrite digit_in_ten by (apply Z.mod_pos_bound; lia). eauto.
Qed.

Lemma digits_numeral fuel n : 0 <= n < 10 ^ Z.of_nat fuel -> digits 10 0 (numeral fuel n) = n.
Proof.
  revert n. induction fuel as [|fuel IH]; intros n Hn; cbn [numeral]; [cbn in *; lia|].
  pose proof (Z.mod_pos_bound n 10 ltac:(lia)). pose proof (Z.div_mod n 10 ltac:(lia)).
  rewrite digits_app by (case_match; [done|apply numeral_digits]).
  assert (E : digits 10 0 (if n <? 10 then [] else numeral fuel (n / 10)) = n / 10).
  { destruct (Z.ltb_spec n 10); [cbn; symmetry; apply Z.div_small; lia|]. apply IH.
    rewrite Nat2Z.inj_succ, Z.pow_succ_r in Hn by lia. split; [lia|]. apply Z.div_lt_upper_bound; lia. }
  rewrite E. cbn [digits]. rewrite digit_in_ten by lia. lia.
Qed.

(** Only zero begins with the digit 0. *)
Lemma numeral_head fuel n : 0 < n < 10 ^ Z.of_nat fuel -> exists v s, numeral fuel n = 48 + v :: s /\ 0 < v < 10.
Proof.
  revert n. induction fuel as [|fuel IH]; intros n Hn; cbn [numeral]; [cbn in *; lia|].
  destruct (Z.ltb_spec n 10).
  - rewrite Z.mod_small by lia. eauto with lia.
  - destruct (IH (n / 10)) as (v & s & -> & Hv).
    { rewrite Nat2Z.inj_succ, Z.pow_succ_r in Hn by lia.
      split; [apply Z.div_str_pos; lia|apply Z.div_lt_upper_bound; lia]. }
    exists v, (s ++ [48 + n mod 10]). by split.
Qed.

Lemma strtoull_numeral n : urange 64 n -> strtoull (numeral 20 n) = n.
Proof.
  intros [Hn0 Hn]. assert (H20 : 0 <= n < 10 ^ Z.of_nat 20) by (split; [done|]; etransitivity; [exact Hn|done]).
  destruct (decide (n = 0)) as [->|Hnz]; [done|].
  pose proof (digits_numeral 20 n H20) as Hd. destruct (numeral_head 20 n ltac:(lia)) as (v & s & E & Hv). rewrite E in *.
  unfold strtoull. cbn [skip_spaces]. assert (Es : is_space (48 + v) = false) by (unfold is_space; lia). rewrite Es.
  assert (Hc : v = 1 \/ v = 2 \/ v = 3 \/ v = 4 \/ v = 5 \/ v = 6 \/ v = 7 \/ v = 8 \/ v = 9) by lia.
  decompose sum Hc; subst v;
    (match type of Hd with context [48 + ?v] => let z := eval vm_compute in (48 + v) in change (48 + v) with z in * end);
    cbv beta iota zeta; rewrite Hd, (proj2 (Z.leb_gt _ _)) by lia; done.
Qed.

(* ------------------------------------------------------------------ *)
(** ** Options *)

(** A command line that asks for [o]. *)
Definition options_args (o : options) : list (list Z) :=
  (if op_trace o then [literal "-t"] else []) ++ (if op_load_only o then [literal "-l"] else []) ++
  (if op_show_map o then [literal "-m"] else []) ++
  (if op_jit_check o then [literal "-J"] else if op_jit o then [literal "-j"] else []) ++
  [literal "-n"; numeral 20 (op_budget o)].

Section parse.
Context (t l m j c : bool) (n : Z) (rest : list (list Z)).

Lemma parse_trace : parse_options (Options t l m j c n) (literal "-t" :: rest) = parse_options (Options true l m j c n) rest.
Proof. done. Qed.
Lemma parse_load : parse_options (Options t l m j c n) (literal "-l" :: rest) = parse_options (Options t true m j c n) rest.
Proof. done. Qed.
Lemma parse_map : parse_options (Options t l m j c n) (literal "-m" :: rest) = parse_options (Options t l true j c n) rest.
Proof. done. Qed.
Lemma parse_jit : parse_options (Options t l m j c n) (literal "-j" :: rest) = parse_options (Options t l m true c n) rest.
Proof. done. Qed.
Lemma parse_check : parse_options (Options t l m j c n) (literal "-J" :: rest) = parse_options (Options t l m true true n) rest.
Proof. done. Qed.
Lemma parse_budget b : parse_options (Options t l m j c n) (literal "-n" :: b :: rest) = parse_options (Options t l m j c (strtoull b)) rest.
Proof. done. Qed.
End parse.

(** The command line that asks for a set of options in turn, the budget as a
    decimal numeral, is read back as exactly those, and the image's path and all
    behind it are left for the guest. *)
Theorem parse_options_roundtrip o path args :
  (op_jit_check o = true -> op_jit o = true) -> urange 64 (op_budget o) -> is_option path = false ->
  parse_options default_options (options_args o ++ path :: args) = Some (o, path :: args).
Proof.
  destruct o as [t l m j c n]. cbn [op_jit_check op_jit op_budget]. intros Hc Hn Hp.
  assert (Hend : forall o, parse_options o (path :: args) = Some (o, path :: args)).
  { intros o. cbn [parse_options]. by rewrite Hp. }
  unfold options_args. cbn [op_trace op_load_only op_show_map op_jit op_jit_check op_budget].
  unfold default_options.
  destruct t, l, m, j, c; try (by specialize (Hc eq_refl)); cbn [app];
    rewrite ?parse_trace, ?parse_load, ?parse_map, ?parse_jit, ?parse_check, parse_budget, Hend, strtoull_numeral; done.
Qed.

(* ------------------------------------------------------------------ *)
(** ** The exit status *)

Definition same_cpu `{HostOS} (m m' : machine) : Prop := m_c m' = m_c m.

#[export] Instance same_cpu_preorder `{HostOS} : PreOrder same_cpu.
Proof. split; [by intros ?|]. intros ? ? ? E1 E2. unfold same_cpu in *. congruence. Qed.

Lemma keeps_weaken `{HostOS} (R S : machine -> machine -> Prop) {A} (c : M A) :
  (forall m m', R m m' -> S m m') -> keeps R c -> keeps S c.
Proof. intros Hw Hc m a m' Hr. by eapply Hw, Hc. Qed.

Section cpu.
Context `{HostOS}.

Lemma keeps_cpu_world w : keeps same_cpu (set_world w). Proof. by intros ? ? ? [= _ <-]. Qed.
Lemma keeps_cpu_as s : keeps same_cpu (set_as s). Proof. by intros ? ? ? [= _ <-]. Qed.
Lemma keeps_cpu_cm cm : keeps same_cpu (set_cm cm). Proof. by intros ? ? ? [= _ <-]. Qed.
Lemma keeps_cpu_store a bs : keeps same_cpu (host_store a bs).
Proof. intros m u m' Hw. by apply host_store_ok in Hw as [-> _]. Qed.
Lemma keeps_cpu_write a n v : keeps same_cpu (host_write a n v). Proof. apply keeps_cpu_store. Qed.
Lemma keeps_cpu_eq {A} (c : M A) : keeps eq c -> keeps same_cpu c.
Proof. apply keeps_weaken. by intros m ? <-. Qed.
Lemma keeps_cpu_map {A} (c : M A) : keeps same_map c -> keeps same_cpu c.
Proof. apply keeps_weaken. by intros m m' [? _]. Qed.
Hint Resolve keeps_cpu_world keeps_cpu_as keeps_cpu_cm keeps_cpu_store keeps_cpu_write : keeps.

Lemma keeps_cpu_copy slice slide segs : keeps same_cpu (copy_segs slice slide segs).
Proof. induction segs as [|s segs IH]; cbn [copy_segs]; keeps_tac. Qed.
Lemma keeps_cpu_protect slide segs : keeps same_cpu (protect_segs slide segs).
Proof. induction segs as [|s segs IH]; cbn [protect_segs]; keeps_tac. Qed.
Lemma keeps_cpu_unload i : keeps same_cpu (rsd_unload i).
Proof. unfold rsd_unload. keeps_tac. Qed.
Hint Resolve keeps_cpu_copy keeps_cpu_protect keeps_cpu_unload : keeps.
Lemma keeps_cpu_failed i : keeps same_cpu (load_failed i).
Proof. unfold load_failed. keeps_tac. Qed.
Hint Resolve keeps_cpu_failed : keeps.
Lemma keeps_cpu_place slice st : keeps same_cpu (place_image slice st).
Proof. destruct st as [[i eo] got]. unfold place_image. keeps_tac. Qed.
Lemma keeps_cpu_find f sz : keeps same_cpu (find_slice f sz). Proof. apply keeps_cpu_eq, keeps_find_slice. Qed.
Lemma keeps_cpu_commands n lc st : keeps same_cpu (load_commands n lc st). Proof. apply keeps_cpu_eq, keeps_load_commands. Qed.
Hint Resolve keeps_cpu_place keeps_cpu_find keeps_cpu_commands : keeps.
Lemma keeps_cpu_slices i : keeps same_cpu (load_slices i).
Proof. unfold load_slices. keeps_tac. Qed.
Hint Resolve keeps_cpu_slices : keeps.
Lemma keeps_cpu_load `{!HostFiles} path : keeps same_cpu (rsd_load path).
Proof. unfold rsd_load. keeps_tac. Qed.

Lemma keeps_cpu_c_string a : keeps same_cpu (c_string a). Proof. apply keeps_cpu_map, keeps_map_c_string. Qed.
Lemma keeps_cpu_strcmp a s : keeps same_cpu (strcmp_is a s). Proof. apply keeps_cpu_eq, keeps_strcmp_is. Qed.
Hint Resolve keeps_cpu_c_string keeps_cpu_strcmp : keeps.
Lemma keeps_cpu_ordinal ds o : keeps same_cpu (ordinal_lib ds o).
Proof. unfold ordinal_lib. keeps_tac. Qed.
Hint Resolve keeps_cpu_ordinal : keeps.
Lemma keeps_cpu_read_imports n imp syms ds : keeps same_cpu (read_imports n imp syms ds).
Proof. revert imp. induction n as [|n IH]; intros imp; cbn [read_imports]; keeps_tac. Qed.
Hint Resolve keeps_cpu_read_imports : keeps.
Lemma keeps_cpu_parse_imports i chain : keeps same_cpu (parse_imports i chain).
Proof. unfold parse_imports. keeps_tac. Qed.
Lemma keeps_cpu_text n lc : keeps same_cpu (text_vmaddr n lc).
Proof. revert lc. induction n as [|n IH]; intros lc; cbn [text_vmaddr]; keeps_tac. Qed.
Lemma keeps_cpu_sect n sec slide target : keeps same_cpu (sect_flags n sec slide target).
Proof. revert sec. induction n as [|n IH]; intros sec; cbn [sect_flags]; keeps_tac. Qed.
Hint Resolve keeps_cpu_parse_imports keeps_cpu_text keeps_cpu_sect : keeps.
Lemma keeps_cpu_holder n lc slide target : keeps same_cpu (holder_flags n lc slide target).
Proof. revert lc. induction n as [|n IH]; intros lc; cbn [holder_flags]; keeps_tac. Qed.
Hint Resolve keeps_cpu_holder : keeps.
Lemma keeps_cpu_resolve `{!DynLoader} i : keeps same_cpu (rsd_resolve_imports i).
Proof.
  assert (Hc : forall p, keeps same_cpu (addr_is_code p)) by (intros p; unfold addr_is_code; keeps_tac).
  assert (Hr : forall im, keeps same_cpu (resolve_import im)) by (intros im; unfold resolve_import, skip_underscore; keeps_tac).
  assert (Hd : forall ds, keeps same_cpu (load_dependencies ds)) by (intros ds; induction ds; cbn [load_dependencies]; keeps_tac).
  assert (He : forall ims, keeps same_cpu (resolve_each ims)) by (intros ims; induction ims; cbn [resolve_each]; keeps_tac).
  unfold rsd_resolve_imports. keeps_tac.
Qed.
Hint Resolve keeps_cpu_resolve : keeps.

Lemma keeps_cpu_fix_one i addr format sb : keeps same_cpu (fix_one i addr format sb).
Proof. unfold fix_one. keeps_tac. Qed.
Hint Resolve keeps_cpu_fix_one : keeps.
Lemma keeps_cpu_chain fuel i addr format sb : keeps same_cpu (walk_chain fuel i addr format sb).
Proof. revert i addr. induction fuel as [|fuel IH]; intros i addr; cbn [walk_chain]; keeps_tac. Qed.
Hint Resolve keeps_cpu_chain : keeps.
Lemma keeps_cpu_pages fuel n i p sis seg size format sb : keeps same_cpu (walk_pages fuel n i p sis seg size format sb).
Proof. revert i p. induction n as [|n IH]; intros i p; cbn [walk_pages]; keeps_tac. Qed.
Hint Resolve keeps_cpu_pages : keeps.
Lemma keeps_cpu_segs fuel n i k sii : keeps same_cpu (walk_segs fuel n i k sii).
Proof. revert i k. induction n as [|n IH]; intros i k; cbn [walk_segs]; keeps_tac. Qed.
Hint Resolve keeps_cpu_segs : keeps.
Lemma keeps_cpu_fixups `{!DynLoader} fuel i : keeps same_cpu (rsd_fixups fuel i).
Proof. unfold rsd_fixups. keeps_tac. Qed.
Lemma keeps_cpu_rows ims : keeps same_cpu (stub_rows ims).
Proof. induction ims as [|im ims IH]; cbn [stub_rows]; keeps_tac. Qed.
Hint Resolve keeps_cpu_rows : keeps.
Lemma keeps_cpu_stubs i : keeps same_cpu (rsd_stubs_of i).
Proof. unfold rsd_stubs_of. keeps_tac. Qed.
End cpu.

Section status.
Context `{Native} `{Trampolines} `{HostFloat} `{!JitEngine} `{!HostFiles} `{!DynLoader} `{!ObjcRuntime}.
Hint Resolve keeps_cpu_world keeps_cpu_as keeps_cpu_cm keeps_cpu_write keeps_cpu_load keeps_cpu_fixups keeps_cpu_stubs : keeps.

Lemma keeps_cpu_objc fuel i : keeps same_cpu (rsd_objc_prepare fuel i).
Proof.
  assert (Hc : forall g, keeps same_cpu (register_class g)) by by intros g m r m' (? & _)%register_class_known.
  assert (Hs : forall a, keeps same_cpu (register_sel a)) by (intros a; apply keeps_cpu_map, keeps_map_register_sel).
  assert (Hd : forall a, keeps same_cpu (rd64 a)) by (intros a; apply keeps_host_read, _).
  assert (Hl : forall body base size off n, (forall a, keeps same_cpu (body a)) -> keeps same_cpu (slot_loop fuel body base size off n)).
  { intros body base size off n Hb. revert off n. induction fuel as [|f IH]; intros off n; cbn [slot_loop]; keeps_tac. }
  unfold rsd_objc_prepare, register_classes, class_slot, sel_slot.
  assert (Hk : forall a, keeps same_cpu (gcls ← rd64 a; if nz gcls then register_class gcls else mret 0)) by (intros a; keeps_tac).
  assert (He : forall a, keeps same_cpu (name ← rd64 a; if negb (nz name) then mret 0 else
    sel ← register_sel name; host_write a 8 sel;; mret 1)) by (intros a; keeps_tac).
  keeps_tac.
Qed.
Hint Resolve keeps_cpu_objc : keeps.

(** A run that ends has stopped the guest. *)
Lemma run_block_false g body n m m' : run_block g body n m = Ok false m' -> c_running (m_c m') = false.
Proof.
  unfold run_block. intros Hr. run_step Hr. destruct (negb a).
  - do 3 run_step Hr. discriminate.
  - do 14 run_step Hr. destruct (negb (same_state _ _) || _).
    + run_step Hr. injection Hr as <-. by injection Hc14 as _ <-.
    + run_step Hr. discriminate.
Qed.

Lemma rsd_cpu_run_stops g fuel jit budget m u m' : rsd_cpu_run g fuel jit budget m = Ok u m' -> c_running (m_c m') = false.
Proof.
  revert m. induction fuel as [|fuel IH]; intros m; cbn [rsd_cpu_run]; [done|]. intros Hr. run_step Hr. injection Hc as <- <-.
  destruct (c_running (m_c m)) eqn:E; cbn [negb] in Hr; [|by injection Hr as _ <-].
  run_step Hr. destruct a; [|by apply IH in Hr]. injection Hr as _ <-. unfold run_turn in Hc.
  do 2 run_step Hc. destruct a0 as [[body n]|].
  - run_step Hc. destruct a0; cbn [negb] in Hc; [|injection Hc as <-; by eapply run_block_false].
    do 2 run_step Hc. discriminate.
  - do 6 run_step Hc. discriminate.
Qed.

(** What the exit status says.  A bad command line ends with 2 and nothing is
    done; loading alone ends with 0 or 1 and never touches a guest register; a
    run ends with 1, or without a fault, the guest stopped, and the status the
    guest exited with. *)
Theorem rsd_main_status fuel profile argv m r m' :
  rsd_main fuel profile argv m = Ok r m' ->
  match parse_options default_options (tail argv) with
  | None | Some (_, []) => r = 2 /\ m' = m
  | Some (o, _) =>
      if op_load_only o then (r = 0 \/ r = 1) /\ m_c m' = m_c m
      else r = 1 \/ c_fault (m_c m') = None /\ c_running (m_c m') = false /\ r = c_exit_code (m_c m')
  end.
Proof.
  unfold rsd_main. destruct (parse_options _ _) as [[o [|path args]]|]; [by intros [= <- <-]| |by intros [= <- <-]].
  intros Hr. destruct (op_load_only o).
  - assert (Hk : keeps same_cpu (set_as rsd_as_init;; '(r, i) ← rsd_load path; if r <? 0 then mret 1 else
      '(r, i) ← rsd_fixups fuel i; if r <? 0 then mret 1 else rsd_objc_prepare fuel i;; stubs ← rsd_stubs_of i; (mret 0 : M Z))) by keeps_tac.
    split; [|by eapply Hk].
    run_step Hr. run_step Hr. destruct a0 as [r1 i1]. destruct (r1 <? 0); [right; by injection Hr as <- _|].
    run_step Hr. destruct a0 as [r2 i2]. destruct (r2 <? 0); [right; by injection Hr as <- _|].
    do 2 run_step Hr. left. by injection Hr as <- _.
  - run_step Hr. run_step Hr. destruct a0 as [r1 i1]. destruct (r1 <? 0); [left; by injection Hr as <- _|].
    run_step Hr. destruct a0 as [r2 i2]. destruct (r2 <? 0); [left; by injection Hr as <- _|].
    do 2 run_step Hr. unfold execute in Hr. run_step Hr. destruct (a2 <? 0); [left; by injection Hr as <- _|].
    run_step Hr. destruct (a3 <? 0); [left; by injection Hr as <- _|].
    do 3 run_step Hr. apply bind_ok in Hr as (u & n1 & Hrun%rsd_cpu_run_stops & Hr).
    apply bind_ok in Hr as (c & n2 & [= <- <-] & Hr). apply bind_ok in Hr as (u' & n3 & [= _ <-] & Hr).
    injection Hr as <- <-. destruct n1 as [c ? ? ? ?]. cbn in *. destruct (c_fault c) eqn:E; [by left|]. right. by destruct c.
Qed.
End status.

(* ------------------------------------------------------------------ *)
(** ** From the loader to the first step *)

Section first.
Context `{Native} `{Trampolines} `{HostFloat} `{!HostOSOk}.

(** A recorded byte with the permission passes the check of one byte. *)
Lemma rsd_as_ok_one s a pr p : as_inv s -> urange 64 a -> a + 1 < 2 ^ 64 -> prot_at (as_reg s) a = Some p -> p .& pr = pr -> rsd_as_ok s a 1 pr = true.
Proof.
  intros Hinv Ha Htop Hp Hpr. apply rsd_as_ok_iff; [done..|]. right. split; [done|].
  intros b Hb. replace b with a by lia. eauto.
Qed.

(** The loader hands the interpreter what it needs: when the entry point of a
    well-formed image lies in an executable segment's part of the file, its
    first byte is in memory where the image says, and a guest that starts there
    executes that instruction in its first step. *)
Theorem loaded_entry_executes f data p sz m base s1 w1 s :
  let cmds := mo_cmds f in let segs := segs_of cmds in
  let lo := span_lo segs in let hi := span_hi segs in let e := entry_vmaddr cmds in
  macho_ok f -> 4 <= sz -> code_at m p (macho_bytes f) ->
  (forall s, s ∈ segs -> Z.of_nat (length (data s)) = sg_filesize s /\ code_at m (p + sg_fileoff s) (data s)) ->
  as_inv (m_as m) -> tracked_mapped (m_as m) (mem_of m) -> hi + host_page - 1 < 2 ^ 64 ->
  rsd_as_map (m_w m) (m_as m) lo (hi - lo) (RSD_PROT_R .| RSD_PROT_W) false = (base, s1, w1) -> base <> 0 ->
  (forall n, h_alloc (w_host w1) n = true) ->
  s ∈ segs -> sg_vmaddr s <= e < sg_vmaddr s + sg_filesize s -> sg_initprot s .& RSD_PROT_X = RSD_PROT_X ->
  exists i m', load_slices (im_with_file p (im_with_filesz sz zero_image)) m = Ok (0, i) m' /\
    is_Some (data s !! Z.to_nat (e - sg_vmaddr s)) /\ mem_of m' !! im_entry i = data s !! Z.to_nat (e - sg_vmaddr s) /\
    forall g c, c_rip c = im_entry i -> im_entry i <> RSD_CALLBACK_MAGIC -> im_entry i <> RSD_RETURN_MAGIC ->
      rsd_stub_index (c_stubs c) (im_entry i) < 0 ->
      step g (upd_m (fun _ => c) m') = exec_insn (im_entry i) (upd_m (fun _ => c) m').
Proof.
  intros cmds segs lo hi e Hf Hsz Hc Hdata Hinv Htr Hhi Hmap Hbase Halloc Hs He Hx.
  destruct (load_slices_run f data p sz m base s1 w1 Hf Hsz Hc Hdata Hinv Htr Hhi Hmap Hbase Halloc)
    as (i & m' & Hrun & _ & _ & _ & _ & Hent & Hpl). fold cmds segs lo e in Hent, Hpl.
  destruct (reserve_ok lo hi m base s1 w1) as [_ Rlow Rtop _ _ _]; try done.
  { pose proof (span_lo_range segs s (mo_fit _ Hf) Hs). pose proof (span_hi_ge segs s (mo_fit _ Hf) Hs).
    destruct (proj1 (Forall_forall _ _) (mo_fit _ Hf) s Hs) as (_ & ? & _). subst lo hi. lia. }
  pose proof (span_lo_range segs s (mo_fit _ Hf) Hs) as Hlo. pose proof (span_hi_ge segs s (mo_fit _ Hf) Hs) as Hhi'.
  destruct (proj1 (Forall_forall _ _) (mo_fit _ Hf) s Hs) as (_ & Hvm & _ & Hfs).
  fold lo in Hlo. fold hi in Hhi'.
  assert (Ea : im_entry i = e + (base - lo)) by (rewrite Hent; apply uwrap_small; unfold urange; lia).
  assert (Hin : in_seg (base - lo) s (im_entry i)) by (rewrite Ea; unfold in_seg; lia).
  destruct (Hdata s Hs) as [Hlen _]. exists i, m'. split; [exact Hrun|].
  assert (Hsome : is_Some (data s !! Z.to_nat (e - sg_vmaddr s))) by (apply lookup_lt_is_Some; lia).
  split; [exact Hsome|]. split.
  - pose proof (pl_data _ _ _ _ _ Hpl s Hs) as Hr.
    rewrite (read_bytes_lookup _ _ _ _ (im_entry i) Hr) by (rewrite Ea; lia). rewrite Ea. do 2 f_equal. lia.
  - intros g c Hrip Hn1 Hn2 Himp.
    assert (Hok : rsd_as_ok (m_as m') (im_entry i) 1 RSD_PROT_X = true).
    { eapply (rsd_as_ok_one _ _ _ (sg_initprot s .& 7)); [apply Hpl|rewrite Ea; unfold urange; lia|rewrite Ea; lia|by apply (pl_prot _ _ _ _ _ Hpl s)|].
      rewrite <- Z.land_assoc. exact Hx. }
    unfold step. erewrite bind_run by reflexivity. cbn [upd_m m_c]. rewrite Hrip, !(proj2 (Z.eqb_neq _ _)) by done.
    erewrite bind_run by reflexivity. cbn [m_c]. rewrite (proj2 (Z.leb_gt 0 _)) by done. cbn [andb].
    change (c_stubs (m_c (upd_m (fun _ => c) m'))) with (c_stubs c).
    destruct (c_stubs c); (erewrite bind_run by reflexivity; change (m_as (upd_m (fun _ => c) m')) with (m_as m'); by rewrite Hok).
Qed.
End first.

(* ------------------------------------------------------------------ *)
(** ** A concrete command *)

#[local] Existing Instances sample_host sample_host_ok sample_trampolines sample_native sample_float sample_jit
  sample_loader sample_runtime.

Lemma parse_options_roundtrip_witness :
  parse_options default_options [literal "-t"; literal "-J"; literal "-n"; literal "5000"; literal "a.out"; literal "-x"] =
  Some (Options true false false true true 5000, [literal "a.out"; literal "-x"]).
Proof. apply (parse_options_roundtrip (Options true false false true true 5000) (literal "a.out") [literal "-x"]); done. Defined.

(** [rashid -l -n 5 a.out], of the sample image. *)
Definition sample_argv : list (list Z) := [literal "rashid"; literal "-l"; literal "-n"; literal "5"; literal "a.out"].
Definition sample_main (fuel : nat) : M Z :=
  @rsd_main sample_host sample_native sample_trampolines sample_float sample_jit (sample_files (macho_bytes sample_macho))
    sample_loader sample_runtime fuel false sample_argv.

Lemma sample_main_runs : exists m', sample_main 0 (sample_file []) = Ok 0 m'.
Proof.
  destruct (sample_main 0 (sample_file [])) as [r m'|t] eqn:E.
  - exists m'. f_equal. transitivity (match sample_main 0 (sample_file []) with Ok r _ => r | Trap _ => -1 end);
      [by rewrite E|vm_compute; reflexivity].
  - exfalso. assert (Hr : match sample_main 0 (sample_file []) with Ok _ _ => true | Trap _ => false end = true)
      by (vm_compute; reflexivity). by rewrite E in Hr.
Qed.

Lemma rsd_main_status_witness : exists m', sample_main 0 (sample_file []) = Ok 0 m' /\ m_c m' = reset_cpu 0.
Proof.
  destruct sample_main_runs as [m' Hr]. exists m'. split; [exact Hr|].
  exact (proj2 (rsd_main_status _ _ _ _ _ _ Hr)).
Defined.

Lemma rsd_main_outcome_witness : exists m', sample_main 0 (sample_file []) = Ok 0 m' /\ sample_main 1000 (sample_file []) = Ok 0 m'.
Proof.
  destruct sample_main_runs as [m' Hr]. exists m'. split; [exact Hr|].
  apply (proj1 (rsd_main_outcome 0 1000 _ _ _ _ _ Hr)). lia.
Defined.

(** The sample's entry point is the byte 0x100 into its text. *)
Lemma loaded_entry_executes_witness :
  exists i m', load_slices (im_with_file 0x10000 (im_with_filesz 400 zero_image)) (sample_file (macho_bytes sample_macho)) = Ok (0, i) m' /\
    mem_of m' !! im_entry i = macho_bytes sample_macho !! 0x100%nat.
Proof.
  destruct sample_placed as (s1 & w1 & E).
  destruct (loaded_entry_executes sample_macho (fun _ => sample_data) 0x10000 400 sample_load 0x11000 s1 w1 sample_text
    sample_macho_ok ltac:(lia) sample_code sample_segments as_inv_init sample_untracked) as (i & m' & Hrun & _ & Hbyte & _).
  - vm_compute. reflexivity.
  - exact E.
  - lia.
  - intros n. reflexivity.
  - by left.
  - split; vm_compute; congruence.
  - reflexivity.
  - exists i, m'. split; [exact Hrun|]. rewrite Hbyte. vm_compute. reflexivity.
Defined.
