(* ===== verification/Answers.v ===== *)
(** A freestanding image run with a budget always answers: loading ends whatever
    the file says, and the run ends within as many turns as the budget has
    instructions. *)
From S2P Require Import Prelude.
From S2P Require Import Memory.
From S2P Require Import AddressSpace.
From S2P Require Import SampleHost.
From S2P Require Import Flags.
From S2P Require Import Stubs.
From S2P Require Import Callbacks.
From S2P Require Import Machine.
From S2P Require Import Access.
From S2P Require Import Decode.
From S2P Require Import Keeps.
From S2P Require Import Native.
From S2P Require Import Float.
From S2P Require Import Step.
From S2P Require Import Calls.
From S2P Require Import CpuApi.
From S2P Require Import Termination.
From S2P Require Import Run.
From S2P Require Import JitCache.
From S2P Require Import Encoding.
From S2P Require Import Image.
From S2P Require Import Resolve.
From S2P Require Import Fixups.
From S2P Require Import ImageLoad.
From S2P Require Import ImageSafe.
From S2P Require Import Symbols.
From S2P Require Import Objc.
From S2P Require Import Selectors.
From S2P Require Import Main.
From S2P Require Import Fuel.
From S2P Require Import Launch.

(* ------------------------------------------------------------------ *)
(** ** A run with a budget answers *)

(** Nothing to fix up and no Objective-C. *)
Definition freestanding (i : rsd_image) : Prop :=
  im_fixups_size i = 0 /\ rsd_find_sect i (literal "__objc_selrefs") = None /\
  rsd_find_sect i (literal "__objc_classlist") = None.

Section imports.
Context `{HostOS}.

Definition without_imports {A} (f : A -> list rsd_import) (c : M A) : Prop :=
  forall m a m', c m = Ok a m' -> f a = [].

Lemma load_command_imports lc st m st' m' :
  load_command lc st m = Ok (Some st') m' -> im_imports st.1.1 = [] -> im_imports st'.1.1 = [].
Proof.
  destruct st as [[i off] got]. unfold load_command. intros Hr Hi. cbn [fst] in Hi. run_step Hr. repeat case_match.
  - run_step Hr. destruct a0 as [i'|]; [|done]. injection Hr as <- _. unfold load_segment in Hc0. run_step Hc0.
    destruct a0; [by injection Hc0 as <- _|]. destruct (_ <=? _); [done|]. do 10 run_step Hc0. injection Hc0 as <- _.
    by destruct a7.
  - run_step Hr. by injection Hr as <- _.
  - run_step Hr. by injection Hr as <- _.
  - do 2 run_step Hr. by injection Hr as <- _.
  - run_step Hr. by injection Hr as <- _.
  - by injection Hr as <- _.
  - by injection Hr as <- _.
Qed.

Lemma load_commands_imports n lc st m st' m' :
  load_commands n lc st m = Ok (Some st') m' -> im_imports st.1.1 = [] -> im_imports st'.1.1 = [].
Proof.
  revert lc st m. induction n as [|n IH]; intros lc st m; cbn [load_commands]; [by intros [= <- _]|].
  intros Hr Hi. run_step Hr. destruct a as [st1|]; [|done]. run_step Hr.
  eapply IH; [exact Hr|]. by eapply load_command_imports.
Qed.

Lemma load_failed_imports i m x m' : load_failed i m = Ok x m' -> im_imports x.2 = [].
Proof. unfold load_failed, rsd_unload. intros Hr. do 1 run_step Hr. injection Hr as <- _. run_step Hc. by injection Hc as <- _. Qed.

Lemma load_slices_imports i m x m' : load_slices i m = Ok x m' -> im_imports i = [] -> im_imports x.2 = [].
Proof.
  unfold load_slices. intros Hr Hi. run_step Hr. destruct a as [off|]; [|by eapply load_failed_imports].
  do 3 run_step Hr. destruct a1 as [st|]; [|by eapply load_failed_imports].
  apply load_commands_imports in Hc2; [|done]. destruct st as [[j eo] got]. cbn [fst] in Hc2.
  unfold place_image in Hr. destruct (_ || _); [by eapply load_failed_imports|]. do 2 run_step Hr.
  destruct (rsd_as_map _ _ _ _ _ _) as [[base s1] w1]. do 2 run_step Hr. destruct (negb _); [by eapply load_failed_imports|].
  do 2 run_step Hr. by injection Hr as <- _.
Qed.

Lemma rsd_load_imports `{!HostFiles} path m x m' : rsd_load path m = Ok x m' -> im_imports x.2 = [].
Proof.
  unfold rsd_load. intros Hr. run_step Hr. destruct (h_open _ _) as [fd h]. run_step Hr.
  destruct (fd <? 0); [by injection Hr as <- _|]. destruct (h_fstat h fd) as [[sz|] h1].
  - destruct (h_mmap_file _ _ _ _) as [p [h2 mem]]. destruct (h_close h2 fd) as [? h3]. run_step Hr.
    destruct p as [file|]; [by eapply load_slices_imports|by injection Hr as <- _].
  - destruct (h_close h1 fd) as [? h3]. run_step Hr. by injection Hr as <- _.
Qed.

Lemma nofuel_strcmp a s : nofuel (strcmp_is a s).
Proof. revert a. induction s as [|c s IH]; intros a; cbn [strcmp_is]; nofuel_tac. Qed.
Lemma nofuel_fat n fa : nofuel (fat_slice n fa).
Proof. revert fa. induction n as [|n IH]; intros fa; cbn [fat_slice]; nofuel_tac. Qed.
Lemma nofuel_read_sects n p l : nofuel (read_sects n p l).
Proof. revert p l. induction n as [|n IH]; intros p l; cbn [read_sects]; nofuel_tac. Qed.
Hint Resolve nofuel_strcmp nofuel_fat nofuel_read_sects : nofuel.
Lemma nofuel_find_slice f sz : nofuel (find_slice f sz).
Proof. unfold find_slice. nofuel_tac. Qed.
Lemma nofuel_load_command lc st : nofuel (load_command lc st).
Proof. destruct st as [[i off] got]. unfold load_command, load_segment. nofuel_tac. Qed.
Hint Resolve nofuel_find_slice nofuel_load_command : nofuel.
Lemma nofuel_load_commands n lc st : nofuel (load_commands n lc st).
Proof. revert lc st. induction n as [|n IH]; intros lc st; cbn [load_commands]; nofuel_tac. Qed.
Lemma nofuel_failed i : nofuel (load_failed i).
Proof. unfold load_failed, rsd_unload. nofuel_tac. Qed.
Lemma nofuel_copy slice slide segs : nofuel (copy_segs slice slide segs).
Proof. induction segs as [|s segs IH]; cbn [copy_segs]; nofuel_tac. Qed.
Lemma nofuel_protect slide segs : nofuel (protect_segs slide segs).
Proof. induction segs as [|s segs IH]; cbn [protect_segs]; nofuel_tac. Qed.
Hint Resolve nofuel_load_commands nofuel_failed nofuel_copy nofuel_protect : nofuel.
Lemma nofuel_load_slices i : nofuel (load_slices i).
Proof. unfold load_slices, place_image. nofuel_tac. Qed.
Hint Resolve nofuel_load_slices : nofuel.
Lemma nofuel_load `{!HostFiles} path : nofuel (rsd_load path).
Proof. unfold rsd_load. nofuel_tac. Qed.

Lemma nofuel_store_words a ws : nofuel (store_words a ws).
Proof. revert a. induction ws as [|w ws IH]; intros a; cbn [store_words]; unfold host_write; nofuel_tac. Qed.
Lemma nofuel_copy_args argv strp : nofuel (copy_args argv strp).
Proof. revert strp. induction argv as [|s argv IH]; intros strp; cbn [copy_args]; nofuel_tac. Qed.
Hint Resolve nofuel_store_words nofuel_copy_args nofuel_upd nofuel_setr nofuel_st nofuel_set_as nofuel_set_world : nofuel.
Lemma nofuel_cpu_init entry hm argv : nofuel (rsd_cpu_init entry hm argv).
Proof. unfold rsd_cpu_init, init_stack. nofuel_tac. Qed.

(** The stack is built without counting. *)
Lemma keeps_count_store a bs : keeps same_count (host_store a bs).
Proof. intros m u m' Hw. apply host_store_ok in Hw as [-> _]. done. Qed.
Hint Resolve keeps_count_store : keeps.
Lemma keeps_count_words a ws : keeps same_count (store_words a ws).
Proof. revert a. induction ws as [|w ws IH]; intros a; cbn [store_words]; unfold host_write; keeps_tac. Qed.
Lemma keeps_count_args argv strp : keeps same_count (copy_args argv strp).
Proof. revert strp. induction argv as [|s argv IH]; intros strp; cbn [copy_args]; keeps_tac. Qed.
Hint Resolve keeps_count_words keeps_count_args : keeps.
Lemma keeps_count_stack hm base argv : keeps same_count (init_stack hm base argv).
Proof.
  unfold init_stack. pose proof (fun i v => keeps_setr same_count i v) as Hs. keeps_tac.
  apply sr_st. opsize_tac.
Qed.
End imports.

Section answers.
Context `{Native} `{Trampolines} `{HostFloat} `{!JitEngine} `{!HostFiles} `{!DynLoader} `{!ObjcRuntime} `{!HostOSOk}.

Lemma rsd_cpu_init_count entry hm argv m r m' : rsd_cpu_init entry hm argv m = Ok r m' -> c_icount (m_c m') = 0.
Proof.
  unfold rsd_cpu_init. intros Hr. run_step Hr. injection Hc as _ <-. do 2 run_step Hr. injection Hc as _ <-. injection Hc0 as _ <-.
  destruct (rsd_as_map _ _ _ _ _ _) as [[base s1] w1]. do 2 run_step Hr. injection Hc as _ <-. injection Hc0 as _ <-.
  destruct (negb (nz base)); [by injection Hr as _ <-|]. run_step Hr. injection Hc as _ <-.
  apply keeps_count_stack in Hr as [-> _]. done.
Qed.

(** The run behind the loading. *)
Lemma execute_ends fuel profile o i s args m :
  op_jit o = false -> 0 < op_budget o < 2 ^ 64 -> (Z.to_nat (op_budget o) < fuel)%nat -> no_imports (Some s) ->
  match execute fuel profile o i s args m with
  | Ok r m' => r = 1 \/ 0 <= c_icount (m_c m') <= op_budget o
  | Trap t => t <> OutOfFuel
  end.
Proof.
  intros Hj Hb Hf Hs. unfold execute. rewrite Hj. unfold mbind at 1, M_bind at 1.
  destruct (rsd_cpu_init _ _ _ m) as [r m1|t] eqn:Ei; [|intros ->; by apply nofuel_cpu_init in Ei].
  apply rsd_cpu_init_count in Ei. destruct (r <? 0); [by left|].
  erewrite bind_run by reflexivity. change (0 <? 0) with false. cbv iota beta. cbn [when].
  do 3 (erewrite bind_run by reflexivity).
  match goal with |- context [(rsd_cpu_run _ _ _ _ ≫= _) ?x] => set (m2 := x) end. unfold mbind at 1, M_bind at 1.
  pose proof (cpu_run_ends (rsd_guest_call fuel) fuel (op_budget o) m2 Hs) as Hrun.
  assert (E2 : c_icount (m_c m2) = 0) by (subst m2; cbn; exact Ei). rewrite E2 in Hrun.
  specialize (Hrun ltac:(lia) ltac:(lia) ltac:(lia)).
  destruct (rsd_cpu_run _ _ _ _ m2) as [u m3|t]; [|exact Hrun]. right. cbn. lia.
Qed.

Lemma no_stubs_of i m : im_imports i = [] -> rsd_stubs_of i m = Ok (Stubs 0 0 None None None None) m.
Proof. intros Hi. unfold rsd_stubs_of. by rewrite Hi. Qed.

(** C19.  The command always answers a freestanding image that is given an
    instruction budget: however the image is built and whatever it executes,
    the command neither loops while loading nor runs past the budget, and one
    turn of fuel more than the budget is enough. *)
Theorem rsd_main_answers fuel profile argv o path args m :
  parse_options default_options (tail argv) = Some (o, path :: args) ->
  op_jit o = false -> 0 < op_budget o < 2 ^ 64 -> (Z.to_nat (op_budget o) < fuel)%nat ->
  (forall i m1, rsd_load path (Machine (m_c m) rsd_as_init (m_w m) (m_cb m) (m_cm m)) = Ok (0, i) m1 -> freestanding i) ->
  match rsd_main fuel profile argv m with
  | Ok r m' => r = 1 \/ op_load_only o = true \/ 0 <= c_icount (m_c m') <= op_budget o
  | Trap t => t <> OutOfFuel
  end.
Proof.
  intros Hp Hj Hb Hf Hfree. unfold rsd_main. rewrite Hp. erewrite bind_run by reflexivity. cbv beta.
  unfold mbind at 1, M_bind at 1.
  destruct (rsd_load path _) as [[r i] m1|t] eqn:El; [|intros ->; by apply nofuel_load in El].
  destruct (Z.ltb_spec r 0); [by left|].
  assert (r = 0) as ->.
  { apply rsd_load_outcome in El as [_ [[? _]|[? _]]]; cbn in *; lia. }
  destruct (Hfree i m1 eq_refl) as (Hx & Hsel & Hcl). apply rsd_load_imports in El. cbn [snd] in El.
  unfold rsd_fixups. rewrite Hx. cbn [nz Z.eqb negb]. erewrite bind_run by reflexivity. cbv iota beta. change (0 <? 0) with false. cbv iota.
  unfold rsd_objc_prepare, register_classes. rewrite Hsel, Hcl. erewrite bind_run by reflexivity. cbv beta.
  rewrite (bind_run _ _ _ _ _ (no_stubs_of i m1 El)). destruct (op_load_only o); [by right; left|].
  pose proof (execute_ends fuel profile o i (Stubs 0 0 None None None None) (path :: args) m1 Hj Hb Hf) as He.
  specialize (He ltac:(done)). destruct (execute _ _ _ _ _ _ m1); [|exact He]. tauto.
Qed.
End answers.

(* ------------------------------------------------------------------ *)
(** ** A concrete command *)

#[local] Existing Instances sample_host sample_host_ok sample_trampolines sample_native sample_float sample_jit
  sample_loader sample_runtime.

(** [rashid -l -n 5 a.out] of the sample image, which is freestanding. *)
Lemma rsd_main_answers_witness :
  exists m', sample_main 6 (sample_file []) = Ok 0 m' /\ (0 = 1 \/ true = true \/ 0 <= c_icount (m_c m') <= 5).
Proof.
  assert (Hb : 0 < 5 < 2 ^ 64) by done. assert (Hf : (Z.to_nat 5 < 6)%nat) by (vm_compute; lia).
  destruct sample_main_runs as [m0 H0]. exists m0.
  assert (Hm : sample_main 6 (sample_file []) = Ok 0 m0).
  { eapply refuels_ok; [|exact H0]. apply rsd_main_refuels. lia. }
  split; [exact Hm|].
  pose proof (@rsd_main_answers sample_host sample_native sample_trampolines sample_float sample_jit
    (sample_files (macho_bytes sample_macho)) sample_loader sample_runtime sample_host_ok 6 false sample_argv
    (Options false true false false false 5) (literal "a.out") [] (sample_file []) eq_refl eq_refl Hb Hf) as Ha.
  change (Machine _ _ _ _ _) with (sample_file []) in Ha.
  assert (Hl : match @rsd_load sample_host (sample_files (macho_bytes sample_macho)) (literal "a.out") (sample_file []) with
    | Ok (_, i) _ => (im_fixups_size i, bool_decide (rsd_find_sect i (literal "__objc_selrefs") = None),
        bool_decide (rsd_find_sect i (literal "__objc_classlist") = None))
    | Trap _ => (1, false, false) end = (0, true, true)) by (vm_compute; reflexivity).
  unfold sample_main in Hm. rewrite Hm in Ha. apply Ha. intros i m1 Hi. rewrite Hi in Hl. injection Hl as E1 E2 E3.
  split; [exact E1|]. split; [by apply bool_decide_eq_true in E2|by apply bool_decide_eq_true in E3].
Defined.
